(* ===== verification/_CoqProject ===== *)
-Q . S2P
Prelude.v
Buffer.v
Hashtable.v
CoreHash.v
Queue.v
PortAllocator.v
JbSort.v
JitterBuffer.v
JbStore.v
JitterBufferSpec.v
JbTheorems.v
Text.v
Base64.v
NetworkList.v
Event.v
EventTheorems.v
Url.v
EventWire.v
Caller.v
Variables.v
VariablesTheorems.v
ChannelNames.v
Channel.v
ChannelTheorems.v
ChannelDtmf.v
StateMachine.v
Device.v
DeviceTheorems.v
Session.v
SessionTheorems.v
ThreadPool.v
Scheduler.v
Crc32.v
Stun.v
StunTheorems.v
G711.v
Double.v
Audio.v
AudioTheorems.v
EventBus.v
EventChannels.v
Http.v
TimeMatch.v
