(* ===== verification/Prelude.v ===== *)
(** * Verification of the FreeSWITCH core (src/src)

    The repository is FreeSWITCH, a telephony server: a core library (src/src) that
    keeps calls and moves media, and loadable modules (src/src/mod) for protocols,
    codecs, applications and dialplans.  This library models parts of the core on
    which the rest is built and proves them correct.  Definitions are executable and
    keep the names of the C functions; every theorem about a component holds for all
    inputs, allocation outcomes and, where threads matter, interleavings that the
    file says it covers.

    ** The parts and how they interact

    - Containers.  [Buffer.v] is switch_buffer.c (byte FIFOs and looping partitions).
      [Hashtable.v] is switch_hashtable.c with its headers (chained table with
      rehashing, key and value ownership); [CoreHash.v] is switch_core_hash.c, the
      wrappers the rest of the core uses.  [Queue.v] is switch_apr_queue.c, the
      bounded queue between threads.  [PortAllocator.v] is
      switch_core_port_allocator.c.
    - Media.  [JbSort.v], [JitterBuffer.v], [JbStore.v], [JitterBufferSpec.v] and
      [JbTheorems.v] are switch_jitterbuffer.c: the data and the merge sort, the
      operations, the node store, the invariant, the theorems.  The buffer's three
      indexes are integer hashes of CoreHash.v.  [G711.v] are the G.711 conversions
      (g711.h, g711.c) with the frame functions of switch_pcm.c.  [Audio.v] with
      [AudioTheorems.v] is switch_resample.c: volume, mixing, channels and gain control;
      [Double.v] has what its floating point computations need.
    - Text.  [Text.v] has the string functions of switch_utils.c and switch_utils.h,
      [Base64.v] its Base64 functions, [Url.v] its URL encoding, [NetworkList.v] its
      access lists, [Http.v] its parser of HTTP requests, which puts headers into
      events, and [TimeMatch.v] its comparisons of dates and times with
      switch_xml_std_datetime_check of switch_xml.c, the time conditions of dialplan
      extensions.
    - Events and variables.  [Event.v] with [EventTheorems.v] is the header list of
      switch_event.c, [EventWire.v] its text form and the parser of the event socket
      library (src/libs/esl) that reads it, [EventBus.v] its bindings, through which events
      reach callbacks, and [EventChannels.v] its channels of messages with subscribers and
      permissions; [Caller.v] is switch_caller.c and switch_caller.h (caller
      profiles); [Variables.v] with [VariablesTheorems.v] are the variables of
      channels (switch_channel.c) and of the core (switch_core.c), which are stored in
      events and fall back to the caller profile.
    - Calls.  [ChannelNames.v], [Channel.v] and [ChannelTheorems.v] are the channel of
      switch_channel.c: states, call states, flags, hangup, answer, hold, state
      handlers.  [ChannelDtmf.v] is its queue of digits.  [StateMachine.v] is
      switch_core_state_machine.c, the thread of a session, which calls the handlers
      for the state the channel is in.
    - Sessions.  [Session.v] with [SessionTheorems.v] is the session table of
      switch_core_session.c with the locks of switch_core_rwlock.c: creation, lookup,
      ids and the end of sessions.  [ThreadPool.v] are the worker threads of
      switch_core_session.c that run sessions and other tasks.
    - Devices.  [Device.v] with [DeviceTheorems.v] are the device records of
      switch_channel.c, which the channels of a telephone share.
    - Background work.  [Scheduler.v] is switch_scheduler.c: the list of timed tasks,
      the thread that runs them and the threads that add and delete them.
    - Network.  [Stun.v] with [StunTheorems.v] is switch_stun.c and switch_stun.h:
      parsing, building and reading STUN packets; [Crc32.v] is its check sum.

    ** How the code is represented

    - A struct is a record with the fields of the source ([r <| f := v |>] is an
      assignment); an enumeration an inductive type or, where the code computes with
      it, its number; a machine integer a [Z] with its wrap-around written out ([u32]
      and the like below).
    - A C function is a function of the state it is given; it returns the new state
      with its result.  A failed assertion or undefined behaviour is [None] (each file
      says which); an error return is a value of the result.
    - What the code gets from outside (allocation outcomes, the clock, the random
      generator, system calls, handlers, other threads) is an argument: a function or
      a section variable that the theorems quantify over.  Laws about it are named
      hypotheses and every theorem that has some comes with a witness at a concrete
      instance.
    - Between components there are interfaces: [CoreHash.IntHash] with [IntHashLaws]
      (what the jitter buffer needs of the hash), [ChannelDtmf.TryQueue] with
      [TryQueueLaws] (what the digit queue needs of the queue) and
      [Hashtable.KeyLaws] (what the table needs of a hash function).  The clients are
      proved against the laws, the implementations are instances.

    ** What the theorems show

    - Refinement: buffers are byte FIFOs, the blocking queue is a bounded FIFO under
      any interleaving, the integer hash and the headers of an event are finite maps,
      channel variables are layered finite maps, the digit queue keeps the newest
      digits, events and messages reach exactly the callbacks bound or subscribed,
      permissions are what was granted last.
    - Invariants and safety: reachable buffers stay in their region, keys and values
      are freed exactly once, no wake-up is lost, ports are handed out once, no
      operation leaves the states after a hangup, hold records are balanced, the hangup
      is announced at most once, the handlers of a state are called in order and the
      ones for hangup and reporting of a session at most once, with or without the early
      hangup, no stored variable holds a reference, a scheduled task is never used after
      it is freed nor run twice at a time and stops when it is deleted, a session that
      switch_core_session_locate has found is not freed before it is unlocked and
      sessions are counted right (as long as threads neither force the lookup nor
      destroy sessions that were never launched), no channel reads a device record that
      was destroyed and the last one of a device destroys it.
    - Functional behaviour: the verdict of access lists, the values that time conditions
      match, delivery in order and negative acknowledgements of the jitter buffer, the
      reachable channel states, the result of a session lookup, the state and the timers
      of a device.
    - Bounds: the STUN parser touches nothing but the packet and the four bytes behind;
      the error of G.711, the direction of volume changes and gain control.
    - Equivalence and round trips: Base64 against RFC 4648 and its inverse, the table
      driven CRC-32 against the bitwise one, STUN packets built and parsed, events
      written and read by a client, HTTP requests, URL encoding, the bit counting of
      masks, escaped and split strings, names of states and causes.
    - Termination and liveness: the loops of the port allocator, of event additions,
      of hash iteration, of a hung up session; a queued task of the thread pool starts
      without another one ending.
    - Findings: theorems in sections of that name, and some beside them, prove on
      concrete or general inputs what the code does not do as meant.

    ** Bounds and fuel

    Loops over lists are structural.  The others have fuel that the theorems show to be
    enough, or whose exhaustion is a result of its own: the merge sort has as many
    passes as nodes; the NACK loop as many steps as the list it runs over; the port
    search counts the slots; its outer loop ([request_loop]) takes a number of rounds,
    with a result of its own for a loop that is still going, and is proved to end five
    rounds after the robustness tests let ports pass and never to end if they refuse
    every port while one is left; adding an array text to an
    event nests at most as deeply as the text is long; the handlers of a channel are at
    most SWITCH_MAX_STATE_HANDLERS; the loop of a session takes the number of rounds as
    an argument, since a call may last for ever; the hangup handlers that a hangup calls
    early are one level deep, which is proved to be enough.  The client's parser of events has a
    round per character of the text and its fuel is proved to be enough; so have the
    loops over time conditions.  The STUN parser's loop has as many rounds as the packet
    has bytes and is proved to stop before; jitter buffer operations take one time for
    all their clock readings.

    ** Not modelled

    The media engine and RTP (switch_core_media.c, switch_rtp.c), IVR (switch_ivr*.c),
    video, codecs other than G.711, resampling, files, speech, databases, XML and
    configuration, logging and module loading, and the modules under src/src/mod: they
    are mostly calls to libraries, sockets and the operating system.  Within the
    modelled components the notes of each file say what is left out, mainly logging,
    mutexes around single operations, presence and statistics, and functions that only
    format a value; of events the dispatch threads with their queues and the live
    arrays. Of the libraries under src/libs only the parser of plain events of
    src/libs/esl is modelled. *)

From stdpp Require Export prelude gmap list strings.
From Stdlib Require Export ZArith Lia.
#[export] Set Default Goal Selector "!".

(** ** Scopes *)

#[global] Open Scope Z_scope.

(** ** Record update

    C code assigns struct fields one at a time.  [r <| f := v |>] is the
    struct [r] after [r->f = v].  A record declares how it is rebuilt from its
    own projections ([Rebuild]); the setter of a field is then obtained by
    abstracting that field's projection in the rebuilding function. *)

Class Rebuild (R : Type) := rebuild : R -> R.

Class Setter {R T : Type} (proj : R -> T) := setter : (T -> T) -> R -> R.

Ltac derive_setter :=
  lazymatch goal with
  | |- @Setter ?R ?T ?proj =>
      let whole := eval cbv [rebuild] in (rebuild (R := R)) in
      let whole := eval red in whole in
      lazymatch (eval pattern proj in whole) with
      | ?body _ =>
          let s := eval cbv beta in
            (fun (g : T -> T) (r : R) => body (fun s => g (proj s)) r) in
          exact s
      end
  end.

Declare Scope csem_scope.
Delimit Scope csem_scope with csem.
#[global] Open Scope csem_scope.

Notation "r <| f := v |>" := (setter (proj := f) (fun _ => v) r)
  (at level 1, f at next level, v at level 200) : csem_scope.

(** ** Machine integers

    C integers are [Z] with the wrap-around written out at the places where the
    source computes at a fixed width. *)

Definition u8 (z : Z) : Z := z mod 2 ^ 8.
Definition u16 (z : Z) : Z := z mod 2 ^ 16.
Definition u32 (z : Z) : Z := z mod 2 ^ 32.
Definition u64 (z : Z) : Z := z mod 2 ^ 64.
Definition s8 (z : Z) : Z := (z + 2 ^ 7) mod 2 ^ 8 - 2 ^ 7.
Definition s16 (z : Z) : Z := (z + 2 ^ 15) mod 2 ^ 16 - 2 ^ 15.
Definition s32 (z : Z) : Z := (z + 2 ^ 31) mod 2 ^ 32 - 2 ^ 31.

Lemma u8_range z : 0 <= u8 z < 2 ^ 8.
Proof. unfold u8. apply Z.mod_pos_bound. lia. Qed.
Lemma u16_range z : 0 <= u16 z < 2 ^ 16.
Proof. unfold u16. apply Z.mod_pos_bound. lia. Qed.
Lemma u32_range z : 0 <= u32 z < 2 ^ 32.
Proof. unfold u32. apply Z.mod_pos_bound. lia. Qed.
Lemma u64_range z : 0 <= u64 z < 2 ^ 64.
Proof. unfold u64. apply Z.mod_pos_bound. lia. Qed.

Lemma u16_small z : 0 <= z < 2 ^ 16 -> u16 z = z.
Proof. apply Z.mod_small. Qed.
Lemma u32_small z : 0 <= z < 2 ^ 32 -> u32 z = z.
Proof. apply Z.mod_small. Qed.
Lemma u64_small z : 0 <= z < 2 ^ 64 -> u64 z = z.
Proof. apply Z.mod_small. Qed.
Lemma s16_small z : - 2 ^ 15 <= z < 2 ^ 15 -> s16 z = z.
Proof. intros. unfold s16. rewrite Z.mod_small; lia. Qed.

Lemma s16_range z : - 2 ^ 15 <= s16 z < 2 ^ 15.
Proof. unfold s16. pose proof (Z.mod_pos_bound (z + 2 ^ 15) (2 ^ 16) ltac:(lia)). lia. Qed.

Lemma s32_small z : - 2 ^ 31 <= z < 2 ^ 31 -> s32 z = z.
Proof. intros. unfold s32. rewrite Z.mod_small; lia. Qed.

(** Linear arithmetic with division and remainder by constants. *)
Ltac dlia := Z.to_euclidean_division_equations; lia.

Lemma mod_shift_ne a n i b : 0 <= i < n -> n < b -> (a + n) mod b <> (a + i) mod b.
Proof.
  intros Hi Hn E.
  pose proof (Z.div_mod (a + n) b ltac:(lia)) as D1. pose proof (Z.div_mod (a + i) b ltac:(lia)) as D2.
  set (x := (a + n) / b) in *. set (y := (a + i) / b) in *.
  assert (b * (x - y) = n - i) as D by lia. clearbody x y. destruct (Z.le_gt_cases (x - y) 0); nia.
Qed.

(** The byte order conversions of a little-endian host. *)

Definition ntohs (x : Z) : Z := (x mod 256) * 256 + (x / 256) mod 256.
Definition htons (x : Z) : Z := ntohs x.
Definition ntohl (x : Z) : Z :=
  (x mod 256) * 2 ^ 24 + (x / 256) mod 256 * 2 ^ 16
  + (x / 2 ^ 16) mod 256 * 2 ^ 8 + (x / 2 ^ 24) mod 256.
Definition htonl (x : Z) : Z := ntohl x.

Lemma ntohs_range x : 0 <= ntohs x < 2 ^ 16.
Proof. unfold ntohs. dlia. Qed.
Lemma ntohl_range x : 0 <= ntohl x < 2 ^ 32.
Proof. unfold ntohl. dlia. Qed.
Lemma ntohs_htons x : ntohs (htons x) = u16 x.
Proof. unfold htons, ntohs, u16. dlia. Qed.
Lemma htons_ntohs x : 0 <= x < 2 ^ 16 -> htons (ntohs x) = x.
Proof. unfold htons, ntohs. dlia. Qed.
Lemma ntohl_htonl x : ntohl (htonl x) = u32 x.
Proof. unfold htonl, ntohl, u32. dlia. Qed.

(** ** Flag words *)

Definition test_flag (flags f : Z) : bool := negb (Z.land flags f =? 0).
Definition set_flag (flags f : Z) : Z := Z.lor flags f.
Definition clear_flag (flags f : Z) : Z := Z.land flags (Z.lnot f).

Lemma test_set_flag f g : test_flag (set_flag f g) g = negb (g =? 0).
Proof.
  unfold test_flag, set_flag. do 2 f_equal. apply Z.bits_inj'. intros i Hi.
  rewrite Z.land_spec, Z.lor_spec. by destruct (Z.testbit g i), (Z.testbit f i).
Qed.

(** ** switch_status_t *)

Inductive switch_status_t :=
  | SWITCH_STATUS_SUCCESS | SWITCH_STATUS_FALSE | SWITCH_STATUS_TIMEOUT
  | SWITCH_STATUS_RESTART | SWITCH_STATUS_INTR | SWITCH_STATUS_NOTIMPL
  | SWITCH_STATUS_MEMERR | SWITCH_STATUS_NOOP | SWITCH_STATUS_RESAMPLE
  | SWITCH_STATUS_GENERR | SWITCH_STATUS_INUSE | SWITCH_STATUS_BREAK
  | SWITCH_STATUS_SOCKERR | SWITCH_STATUS_MORE_DATA | SWITCH_STATUS_NOTFOUND
  | SWITCH_STATUS_UNLOAD | SWITCH_STATUS_NOUNLOAD | SWITCH_STATUS_IGNORE
  | SWITCH_STATUS_TOO_SMALL | SWITCH_STATUS_FOUND | SWITCH_STATUS_CONTINUE
  | SWITCH_STATUS_TERM | SWITCH_STATUS_NOT_INITALIZED | SWITCH_STATUS_TOO_LATE
  | SWITCH_STATUS_XBREAK | SWITCH_STATUS_WINBREAK.

#[export] Instance switch_status_t_eq_dec : EqDecision switch_status_t.
Proof. solve_decision. Defined.

(** ** Lists *)

Lemma elem_of_concat {A} (x : A) (ls : list (list A)) :
  x ∈ concat ls <-> exists l, x ∈ l /\ l ∈ ls.
Proof.
  induction ls as [|l ls IH]; simpl.
  - split; [by intros ?%elem_of_nil|by intros (l & _ & ?%elem_of_nil)].
  - rewrite elem_of_app, IH. setoid_rewrite elem_of_cons. naive_solver.
Qed.

(** ** Filtering by a boolean test *)

Lemma filter_keeps {A} (f : A -> bool) (P : A -> Prop) l : Forall P l -> Forall P (List.filter f l).
Proof. intros H. apply Forall_forall. intros n Hn%list_elem_of_In. apply filter_In in Hn as [Hn _]. by apply (proj1 (Forall_forall _ _) H), list_elem_of_In. Qed.

Lemma filter_nodup {A B} (f : A -> bool) (g : A -> B) l : NoDup (map g l) -> NoDup (map g (List.filter f l)).
Proof.
  induction l as [|n l IH]; [done|]. cbn. intros [Hn Hl]%NoDup_cons. destruct (f n); [|by apply IH]. cbn. constructor; [|by apply IH].
  intros Hin. apply Hn. apply list_elem_of_fmap in Hin as (x & -> & Hx). apply list_elem_of_fmap. exists x. split; [done|].
  apply list_elem_of_In in Hx. apply filter_In in Hx as [Hx _]. by apply list_elem_of_In.
Qed.

(** ** Counting *)

Section count.
Context {A : Type}.

Definition count (p : A -> bool) (l : list A) : Z := Z.of_nat (length (filter (fun x => p x = true) l)).

Lemma count_cons p x l : count p (x :: l) = Z.b2z (p x) + count p l.
Proof. unfold count. rewrite filter_cons. case_decide as E; [rewrite E|destruct (p x); [done|]]; simpl; lia. Qed.

Lemma count_app p l l' : count p (l ++ l') = count p l + count p l'.
Proof. unfold count. rewrite filter_app, length_app. lia. Qed.

Lemma count_nonneg p l : 0 <= count p l.
Proof. unfold count. lia. Qed.

Lemma count_insert p l i x y :
  l !! i = Some x -> count p (<[i := y]> l) = count p l - Z.b2z (p x) + Z.b2z (p y).
Proof.
  revert i. induction l as [|z l IH]; intros [|i]; simpl; try done.
  - intros [= ->]. rewrite !count_cons. lia.
  - intros Hi. rewrite !count_cons, IH by done. lia.
Qed.

Lemma count_zero p l : Forall (fun x => p x = false) l -> count p l = 0.
Proof. induction 1 as [|x l Hx _ IH]; [done|]. rewrite count_cons, Hx, IH. done. Qed.

Lemma count_le p p' l : (forall x, p x = true -> p' x = true) -> count p l <= count p' l.
Proof.
  intros H. induction l as [|x l IH]; [done|]. rewrite !count_cons. specialize (H x).
  destruct (p x), (p' x); simpl; try lia; by specialize (H eq_refl).
Qed.

Lemma count_map p p' (f : A -> A) l : (forall x, p (f x) = p' x) -> count p (map f l) = count p' l.
Proof. intros H. induction l as [|x l IH]; [done|]. simpl. rewrite !count_cons, IH, H. done. Qed.

Lemma count_lookup p l i x : l !! i = Some x -> p x = true -> 0 < count p l.
Proof.
  revert i. induction l as [|z l IH]; intros [|i]; simpl; try done.
  - intros [= ->] Hp. rewrite count_cons, Hp. pose proof (count_nonneg p l). simpl. lia.
  - intros Hi Hp. rewrite count_cons. specialize (IH i Hi Hp). destruct (p z); simpl; lia.
Qed.

Lemma count_length p l : count p l <= Z.of_nat (length l).
Proof. unfold count. pose proof (length_filter (fun x => p x = true) l). lia. Qed.

Lemma count_all p l : count p l = Z.of_nat (length l) -> Forall (fun x => p x = true) l.
Proof.
  induction l as [|x l IH]; [by constructor|]. rewrite count_cons. simpl. intros H.
  pose proof (count_length p l). destruct (p x) eqn:E; simpl in H; [|lia]. constructor; [done|]. apply IH. lia.
Qed.

Lemma count_some_false p l :
  count p l < Z.of_nat (length l) -> exists i x, l !! i = Some x /\ p x = false.
Proof.
  induction l as [|x l IH]; [done|]. rewrite count_cons. simpl. intros H.
  destruct (p x) eqn:E; simpl in H; [|by exists 0%nat, x].
  destruct IH as (i & y & Hi & Hy); [lia|]. by exists (S i), y.
Qed.

End count.

(** ** Automation *)

(** Case analysis on every integer comparison of the goal. *)
Ltac cmp_goal :=
  repeat match goal with
  | |- context [?a <? ?b] => destruct (Z.ltb_spec a b)
  | |- context [?a <=? ?b] => destruct (Z.leb_spec a b)
  | |- context [?a =? ?b] => destruct (Z.eqb_spec a b)
  | |- context [?a >? ?b] => rewrite (Z.gtb_ltb a b); destruct (Z.ltb_spec b a)
  | |- context [?a >=? ?b] => rewrite (Z.geb_leb a b); destruct (Z.leb_spec b a)
  end.

(** The same, in a hypothesis. *)
Ltac cmp_in H :=
  repeat match type of H with
  | context [?a <? ?b] => destruct (Z.ltb_spec a b)
  | context [?a <=? ?b] => destruct (Z.leb_spec a b)
  | context [?a =? ?b] => destruct (Z.eqb_spec a b)
  | context [?a >? ?b] => rewrite (Z.gtb_ltb a b) in H; destruct (Z.ltb_spec b a)
  | context [?a >=? ?b] => rewrite (Z.geb_leb a b) in H; destruct (Z.leb_spec b a)
  end.

Create HintDb csem discriminated.
#[export] Hint Resolve u8_range u16_range u32_range u64_range ntohs_range ntohl_range : csem.
Create Rewrite HintDb csem.
#[export] Hint Rewrite ntohs_htons ntohl_htonl : csem.
