(* ===== verification/Buffer.v ===== *)
(** * The byte buffer (src/src/switch_buffer.c)

    A [switch_buffer_t] is a contiguous region with a read cursor.  Static and
    dynamic buffers are byte FIFOs (write appends at [head + used], read
    consumes at [head]); a partition buffer is a read-only window over memory
    of the caller.  The [data] pointer is modelled by the contents of the
    region it points to, [head] by its offset from [data].

    Allocation results are inputs of the model: [alloc] and [realloc] say
    whether the allocator returns memory, [junk] is the (indeterminate) content
    of freshly allocated bytes. *)

From S2P Require Import Prelude.

Module Buffer.

Definition SWITCH_BUFFER_FLAG_DYNAMIC : Z := 1.
Definition SWITCH_BUFFER_FLAG_PARTITION : Z := 2.

Record switch_buffer := mk_buffer {
  data : list Z;
  head : Z;
  used : Z;
  actually_used : Z;
  datalen : Z;
  max_len : Z;
  blocksize : Z;
  mutex : option nat;
  flags : Z;
  id : Z;
  loops : Z;
}.

#[export] Instance rebuild_buffer : Rebuild switch_buffer := fun b =>
  mk_buffer (data b) (head b) (used b) (actually_used b) (datalen b) (max_len b)
    (blocksize b) (mutex b) (flags b) (id b) (loops b).
#[export] Instance set_data : Setter data := ltac:(derive_setter).
#[export] Instance set_head : Setter head := ltac:(derive_setter).
#[export] Instance set_used : Setter used := ltac:(derive_setter).
#[export] Instance set_actually_used : Setter actually_used := ltac:(derive_setter).
#[export] Instance set_datalen : Setter datalen := ltac:(derive_setter).
#[export] Instance set_max_len : Setter max_len := ltac:(derive_setter).
#[export] Instance set_blocksize : Setter blocksize := ltac:(derive_setter).
#[export] Instance set_mutex : Setter mutex := ltac:(derive_setter).
#[export] Instance set_flags : Setter flags := ltac:(derive_setter).
#[export] Instance set_id : Setter id := ltac:(derive_setter).
#[export] Instance set_loops : Setter loops := ltac:(derive_setter).

(** A zero-filled [switch_buffer_t], as the allocators return it. *)
Definition zeroed : switch_buffer := mk_buffer [] 0 0 0 0 0 0 None 0 0 0.

Definition is_dynamic (b : switch_buffer) : bool := test_flag (flags b) SWITCH_BUFFER_FLAG_DYNAMIC.
Definition is_partition (b : switch_buffer) : bool := test_flag (flags b) SWITCH_BUFFER_FLAG_PARTITION.

(** [memcpy(dst, data + off, n)] and [memcpy(data + off, src, n)] on the region. *)
Definition region_read (d : list Z) (off n : Z) : list Z :=
  take (Z.to_nat n) (drop (Z.to_nat off) d).
Definition region_write (d : list Z) (off : Z) (src : list Z) : list Z :=
  take (Z.to_nat off) d ++ src ++ drop (Z.to_nat off + length src) d.

(** ** Partition buffers *)

Definition switch_buffer_reset_partition_data (b : switch_buffer) : switch_status_t * switch_buffer :=
  if negb (is_partition b) then (SWITCH_STATUS_FALSE, b)
  else
    let b := b <| head := 0 |> in
    let b := b <| actually_used := datalen b |> in
    let b := b <| used := actually_used b |> in
    (SWITCH_STATUS_SUCCESS, b).

Definition switch_buffer_set_partition_data (b : switch_buffer) (d : list Z) (dl : Z)
  : switch_status_t * switch_buffer :=
  if negb (is_partition b) then (SWITCH_STATUS_FALSE, b)
  else
    let b := b <| data := d |> in
    let b := b <| datalen := dl |> in
    switch_buffer_reset_partition_data b.

(** ** Creation: the status, the new buffer and the next value of [buffer_id] *)

Definition switch_buffer_create_partition (alloc : bool) (buffer_id : Z) (d : list Z) (dl : Z)
  : switch_status_t * option switch_buffer * Z :=
  if alloc then
    let nb := zeroed <| id := buffer_id |> in
    let nb := nb <| flags := set_flag (flags nb) SWITCH_BUFFER_FLAG_PARTITION |> in
    let nb := (switch_buffer_set_partition_data nb d dl).2 in
    (SWITCH_STATUS_SUCCESS, Some nb, u32 (buffer_id + 1))
  else (SWITCH_STATUS_MEMERR, None, buffer_id).

Definition switch_buffer_create (alloc alloc_data : bool) (buffer_id maxlen : Z)
  : switch_status_t * option switch_buffer * Z :=
  if alloc && alloc_data then
    let nb := zeroed <| data := replicate (Z.to_nat maxlen) 0 |> in
    let nb := nb <| datalen := maxlen |> in
    let nb := nb <| id := buffer_id |> in
    let nb := nb <| head := 0 |> in
    (SWITCH_STATUS_SUCCESS, Some nb, u32 (buffer_id + 1))
  else (SWITCH_STATUS_MEMERR, None, buffer_id).

Definition switch_buffer_create_dynamic (alloc alloc_data : bool) (buffer_id block start maxlen : Z)
  : switch_status_t * option switch_buffer * Z :=
  if alloc then
    let start := if start =? 0 then 250 else start in
    let block := if block =? 0 then start else block in
    if negb alloc_data then (SWITCH_STATUS_MEMERR, None, buffer_id)
    else
      let nb := zeroed <| data := replicate (Z.to_nat start) 0 |> in
      let nb := nb <| max_len := maxlen |> in
      let nb := nb <| datalen := start |> in
      let nb := nb <| id := buffer_id |> in
      let nb := nb <| blocksize := block |> in
      let nb := nb <| head := 0 |> in
      let nb := nb <| flags := set_flag (flags nb) SWITCH_BUFFER_FLAG_DYNAMIC |> in
      (SWITCH_STATUS_SUCCESS, Some nb, u32 (buffer_id + 1))
  else (SWITCH_STATUS_MEMERR, None, buffer_id).

Definition switch_buffer_add_mutex (b : switch_buffer) (m : nat) : switch_buffer :=
  b <| mutex := Some m |>.

(** ** Queries *)

Definition switch_buffer_get_head_pointer (b : switch_buffer) : Z := head b.
Definition switch_buffer_len (b : switch_buffer) : Z := datalen b.
Definition switch_buffer_inuse (b : switch_buffer) : Z := used b.

Definition switch_buffer_freespace (b : switch_buffer) : Z :=
  if is_dynamic b then
    if negb (max_len b =? 0) then u64 (max_len b - used b) else 1000000
  else u64 (datalen b - used b).

(** ** Consuming *)

(** The [if (used < 1) ... else if ...] ladder shared by toss, read and peek. *)
Definition reading_of (b : switch_buffer) (dl : Z) : Z :=
  if used b >=? dl then dl else used b.

Definition switch_buffer_toss (b : switch_buffer) (dl : Z) : Z * switch_buffer :=
  if used b <? 1 then (0, b <| used := 0 |>)
  else
    let reading := reading_of b dl in
    let b := b <| used := u64 (used b - reading) |> in
    let b := b <| head := head b + reading |> in
    (used b, b).

Definition switch_buffer_set_loops (b : switch_buffer) (n : Z) : switch_buffer :=
  b <| loops := n |>.

(** The bytes copied out, the returned count and the buffer afterwards. *)
Definition switch_buffer_read (b : switch_buffer) (dl : Z) : list Z * Z * switch_buffer :=
  if used b <? 1 then ([], 0, b <| used := 0 |>)
  else
    let reading := reading_of b dl in
    let out := region_read (data b) (head b) reading in
    let b := b <| used := u64 (used b - reading) |> in
    let b := b <| head := head b + reading |> in
    (out, reading, b).

Definition switch_buffer_read_loop (b : switch_buffer) (dl : Z) : list Z * Z * switch_buffer :=
  let '(out, len, b) := switch_buffer_read b dl in
  if len =? 0 then
    let b := if loops b >? 0 then b <| loops := loops b - 1 |> else b in
    if loops b =? 0 then ([], 0, b)
    else
      let b := b <| head := 0 |> in
      let b := b <| used := actually_used b |> in
      switch_buffer_read b dl
  else (out, len, b).

Definition switch_buffer_peek (b : switch_buffer) (dl : Z) : list Z * Z * switch_buffer :=
  if used b <? 1 then ([], 0, b <| used := 0 |>)
  else
    let reading := reading_of b dl in
    (region_read (data b) (head b) reading, reading, b).

(** The pointer handed out is the offset of [head]; [None] is NULL. *)
Definition switch_buffer_peek_zerocopy (b : switch_buffer) : option Z * Z * switch_buffer :=
  if used b <? 1 then (None, 0, b <| used := 0 |>)
  else (Some (head b), used b, b).

(** ** Writing *)

(** [src = None] is a NULL source pointer: the bytes are zeroed instead. *)
Definition source_bytes (src : option (list Z)) (dl : Z) : list Z :=
  match src with
  | Some bytes => take (Z.to_nat dl) bytes
  | None => replicate (Z.to_nat dl) 0
  end.

(** [memmove] of the unread bytes to the front of the region. *)
Definition compact (b : switch_buffer) : switch_buffer :=
  let b := b <| data := region_write (data b) 0 (region_read (data b) (head b) (used b)) |> in
  let b := b <| head := 0 |> in
  b <| actually_used := used b |>.

(** Growing a dynamic buffer; [inr] is the early [return 0] on a failed realloc. *)
Definition grow (realloc : bool) (junk : Z) (b : switch_buffer) (dl : Z)
  : switch_buffer + switch_buffer :=
  let freespace := u64 (datalen b - used b) in
  if (freespace <? dl) && ((max_len b =? 0) || (u64 (used b + dl) <=? max_len b)) then
    let new_size := u64 (datalen b + dl) in
    let new_block_size := u64 (datalen b + blocksize b) in
    let new_size := if new_block_size >? new_size then new_block_size else new_size in
    let b := b <| head := 0 |> in
    if negb realloc then inr b
    else
      let b := b <| data := resize (Z.to_nat new_size) junk (data b) |> in
      let b := b <| head := 0 |> in
      inl (b <| datalen := new_size |>)
  else inl b.

(** The final copy behind the unread bytes. *)
Definition append (b : switch_buffer) (bytes : list Z) (dl : Z) : switch_buffer :=
  let b := b <| data := region_write (data b) (head b + used b) bytes |> in
  let b := b <| used := u64 (used b + dl) |> in
  b <| actually_used := u64 (actually_used b + dl) |>.

Definition switch_buffer_write (realloc : bool) (junk : Z) (b : switch_buffer)
    (src : option (list Z)) (dl : Z) : Z * switch_buffer :=
  if is_partition b then (0, b)
  else if dl =? 0 then (used b, b)
  else
    let actual_freespace := u64 (datalen b - actually_used b) in
    let b := if actual_freespace <? dl then compact b else b in
    match (if is_dynamic b then grow realloc junk b dl else inl b) with
    | inr b => (0, b)
    | inl b =>
        let freespace := u64 (datalen b - used b) in
        if freespace <? dl then (0, b)
        else
          let b := append b (source_bytes src dl) dl in
          (used b, b)
    end.

Definition switch_buffer_zero (b : switch_buffer) : switch_buffer :=
  let b := b <| used := 0 |> in
  let b := b <| actually_used := 0 |> in
  b <| head := 0 |>.

(** The two writes of zwrite and slide_write call realloc independently. *)
Definition switch_buffer_zwrite (realloc1 realloc2 : bool) (junk : Z) (b : switch_buffer)
    (src : option (list Z)) (dl : Z) : Z * switch_buffer :=
  if is_partition b then (0, b)
  else
    let '(w, b) := switch_buffer_write realloc1 junk b src dl in
    if w =? 0 then switch_buffer_write realloc2 junk (switch_buffer_zero b) src dl
    else (w, b).

Definition switch_buffer_slide_write (realloc1 realloc2 : bool) (junk : Z) (b : switch_buffer)
    (src : option (list Z)) (dl : Z) : Z * switch_buffer :=
  if is_partition b then (0, b)
  else
    let '(w, b) := switch_buffer_write realloc1 junk b src dl in
    if w =? 0 then switch_buffer_write realloc2 junk (switch_buffer_toss b dl).2 src dl
    else (w, b).

(** ** The invariant and the abstract content *)

Record wf (b : switch_buffer) : Prop := {
  wf_head : 0 <= head b;
  wf_used : 0 <= used b;
  wf_actual : head b + used b = actually_used b;
  wf_bound : actually_used b <= datalen b;
  wf_region : datalen b <= Z.of_nat (length (data b));
  wf_width : datalen b < 2 ^ 64;
}.

(** The unread bytes, oldest first: what a client sees of a buffer. *)
Definition content (b : switch_buffer) : list Z := region_read (data b) (head b) (used b).

(** The sizes a write of [dl] bytes computes with stay below [SIZE_MAX]. *)
Definition fits (b : switch_buffer) (dl : Z) : Prop :=
  0 <= blocksize b /\ 0 <= dl /\ datalen b + Z.max dl (blocksize b) < 2 ^ 64.

Lemma region_read_length d off n :
  0 <= off -> 0 <= n -> off + n <= Z.of_nat (length d) ->
  length (region_read d off n) = Z.to_nat n.
Proof. intros. unfold region_read. rewrite length_take, length_drop. lia. Qed.

Lemma region_write_length d off src :
  0 <= off -> off + Z.of_nat (length src) <= Z.of_nat (length d) ->
  length (region_write d off src) = length d.
Proof.
  intros. unfold region_write. rewrite !length_app, length_take, length_drop. lia.
Qed.

(** Reading back the bytes before and including what was written. *)
Lemma region_read_write d off n src :
  0 <= off -> 0 <= n -> off + n + Z.of_nat (length src) <= Z.of_nat (length d) ->
  region_read (region_write d (off + n) src) off (n + Z.of_nat (length src))
  = region_read d off n ++ src.
Proof.
  intros. unfold region_read, region_write.
  rewrite drop_app_le by (rewrite length_take; lia).
  rewrite skipn_firstn_comm.
  replace (Z.to_nat (off + n) - Z.to_nat off)%nat with (Z.to_nat n) by lia.
  rewrite app_assoc, take_app_le by (rewrite length_app, length_take, length_drop; lia).
  apply take_ge. rewrite length_app, length_take, length_drop. lia.
Qed.

Lemma region_read_split d off n k :
  0 <= off -> 0 <= k <= n ->
  region_read d off k ++ region_read d (off + k) (n - k) = region_read d off n.
Proof.
  intros. unfold region_read.
  replace (Z.to_nat (off + k)) with (Z.to_nat off + Z.to_nat k)%nat by lia.
  replace (Z.to_nat n) with (Z.to_nat k + Z.to_nat (n - k))%nat by lia.
  rewrite <- drop_drop. apply take_take_drop.
Qed.

Lemma region_read_front d n :
  region_read d 0 n = take (Z.to_nat n) d.
Proof. reflexivity. Qed.

Lemma content_length b : wf b -> Z.of_nat (length (content b)) = used b.
Proof. intros []. unfold content. rewrite region_read_length; lia. Qed.

(** ** Consuming operations *)

Lemma reading_of_range b dl : 0 <= used b -> 0 <= dl -> 0 <= reading_of b dl <= used b.
Proof. intros. unfold reading_of. cmp_goal; lia. Qed.

Lemma consume_wf b k :
  wf b -> 0 <= k <= used b ->
  wf (b <| used := u64 (used b - k) |> <| head := head b + k |>).
Proof.
  intros [] ?. constructor; simpl; rewrite ?u64_small by lia; lia.
Qed.

Lemma consume_content b k :
  wf b -> 0 <= k <= used b ->
  region_read (data b) (head b) k
  ++ content (b <| used := u64 (used b - k) |> <| head := head b + k |>) = content b.
Proof.
  intros [] ?. unfold content; simpl. rewrite u64_small by lia. by apply region_read_split.
Qed.

Lemma used_zero_wf b : wf b -> used b < 1 -> wf (b <| used := 0 |>) /\ content (b <| used := 0 |>) = content b.
Proof.
  intros Hwf ?. assert (used b = 0) as E by (destruct Hwf; lia). destruct Hwf. split.
  - constructor; simpl; lia.
  - unfold content; simpl. by rewrite E.
Qed.

Lemma read_spec b dl out n b' :
  wf b -> 0 <= dl -> switch_buffer_read b dl = (out, n, b') ->
  wf b' /\ out ++ content b' = content b /\ n = Z.min dl (used b) /\ n = Z.of_nat (length out).
Proof.
  intros Hwf Hdl. unfold switch_buffer_read.
  pose proof (reading_of_range b dl (wf_used _ Hwf) Hdl) as Hr.
  destruct (Z.ltb_spec (used b) 1); intros [= <- <- <-].
  - destruct (used_zero_wf b Hwf) as [Hw Hc]; [lia|].
    split; [done|]. split; [by rewrite Hc|]. destruct Hwf; simpl; lia.
  - split; [by apply consume_wf|]. split; [by apply consume_content|].
    destruct Hwf. rewrite region_read_length by lia.
    unfold reading_of in *. cmp_in Hr; cmp_goal; lia.
Qed.

Lemma toss_spec b dl r b' :
  wf b -> 0 <= dl -> switch_buffer_toss b dl = (r, b') ->
  wf b' /\ content b' = drop (Z.to_nat dl) (content b) /\ r = used b'.
Proof.
  intros Hwf Hdl. unfold switch_buffer_toss.
  pose proof (reading_of_range b dl (wf_used _ Hwf) Hdl) as Hr.
  pose proof (content_length b Hwf) as Hlen.
  destruct (Z.ltb_spec (used b) 1); intros [= <- <-].
  - destruct (used_zero_wf b Hwf) as [Hw Hc]; [lia|].
    split; [done|]. rewrite Hc. split; [|done]. destruct Hwf.
    destruct (content b); [by rewrite drop_nil|simpl in Hlen; lia].
  - split; [by apply consume_wf|]. split; [|done].
    pose proof (consume_content b _ Hwf Hr) as Hc.
    rewrite <- Hc. destruct Hwf. rewrite drop_app.
    rewrite region_read_length by lia.
    rewrite drop_ge by (rewrite region_read_length by lia; unfold reading_of; cmp_goal; lia).
    unfold reading_of in *. cmp_in Hr; cmp_goal; try lia; simpl.
    + by rewrite Nat.sub_diag.
    + unfold content, region_read; simpl.
      replace (u64 (used b - used b)) with 0 by (rewrite u64_small; lia).
      change (Z.to_nat 0) with 0%nat. by rewrite take_0, drop_nil.
Qed.

Lemma peek_spec b dl out n b' :
  wf b -> 0 <= dl -> switch_buffer_peek b dl = (out, n, b') ->
  wf b' /\ content b' = content b /\ out = take (Z.to_nat dl) (content b) /\ n = Z.of_nat (length out).
Proof.
  intros Hwf Hdl. unfold switch_buffer_peek.
  pose proof (reading_of_range b dl (wf_used _ Hwf) Hdl) as Hr.
  pose proof (content_length b Hwf) as Hlen.
  destruct (Z.ltb_spec (used b) 1); intros [= <- <- <-].
  - destruct (used_zero_wf b Hwf) as [Hw Hc]; [lia|].
    split; [done|]. split; [done|]. destruct Hwf.
    destruct (content b); [by rewrite take_nil|simpl in Hlen; lia].
  - split; [done|]. split; [done|]. destruct Hwf.
    rewrite region_read_length by lia. split; [|lia].
    unfold content, region_read. rewrite take_take. f_equal.
    unfold reading_of. cmp_goal; lia.
Qed.

(** ** Writing *)

Lemma compact_wf b : wf b -> wf (compact b).
Proof.
  intros [].
  pose proof (region_read_length (data b) (head b) (used b)) as Hl.
  constructor; simpl; try lia. rewrite region_write_length; lia.
Qed.

Lemma compact_content b : wf b -> content (compact b) = content b.
Proof.
  intros []. unfold content at 1; simpl. rewrite region_read_front.
  unfold region_write; simpl. rewrite take_app_le, take_ge;
    rewrite ?region_read_length by lia; done || lia.
Qed.

Lemma compact_frame b :
  head (compact b) = 0 /\ used (compact b) = used b /\ datalen (compact b) = datalen b
  /\ max_len (compact b) = max_len b /\ blocksize (compact b) = blocksize b
  /\ flags (compact b) = flags b /\ actually_used (compact b) = used b.
Proof. by repeat split. Qed.

(** The buffer after the conditional compaction at the start of a write. *)
Definition make_room (b : switch_buffer) (dl : Z) : switch_buffer :=
  if u64 (datalen b - actually_used b) <? dl then compact b else b.

Lemma make_room_spec b dl :
  wf b -> 0 < dl ->
  let b1 := make_room b dl in
  wf b1 /\ content b1 = content b /\ used b1 = used b /\ datalen b1 = datalen b
  /\ max_len b1 = max_len b /\ blocksize b1 = blocksize b /\ flags b1 = flags b
  /\ (datalen b - used b < dl -> head b1 = 0)
  /\ (dl <= datalen b - used b -> head b1 + used b + dl <= datalen b).
Proof.
  intros Hwf Hdl. unfold make_room.
  destruct (Z.ltb_spec (u64 (datalen b - actually_used b)) dl) as [H|H];
    rewrite u64_small in H by (destruct Hwf; lia).
  - split; [by apply compact_wf|]. split; [by apply compact_content|].
    simpl. repeat split; try done; lia.
  - destruct Hwf as []. simpl. repeat split; try done; try lia.
Qed.

Lemma head_reset_id b : wf b -> head b = 0 -> wf (b <| head := 0 |>) /\ content (b <| head := 0 |>) = content b.
Proof.
  intros [] E. split; [constructor; simpl; lia|]. unfold content; simpl. by rewrite E.
Qed.

(** The buffer over a region reallocated to [n] bytes. *)
Definition regrown (b : switch_buffer) (n junk : Z) : switch_buffer :=
  b <| head := 0 |> <| data := resize (Z.to_nat n) junk (data b) |> <| head := 0 |> <| datalen := n |>.

Lemma regrown_spec b n junk :
  wf b -> head b = 0 -> datalen b <= n < 2 ^ 64 ->
  wf (regrown b n junk) /\ content (regrown b n junk) = content b.
Proof.
  intros [] E Hn. split.
  - constructor; simpl; try lia. rewrite length_resize. lia.
  - unfold content, regrown; simpl. rewrite E, !region_read_front.
    destruct (decide (Z.to_nat n <= length (data b))%nat).
    + rewrite resize_le, take_take by done. f_equal. lia.
    + rewrite resize_ge by lia. rewrite take_app_le; [done|lia].
Qed.

Lemma grow_spec realloc junk b dl :
  wf b -> fits b dl -> 0 < dl -> (datalen b - used b < dl -> head b = 0) ->
  match grow realloc junk b dl with
  | inr b1 => wf b1 /\ content b1 = content b /\ realloc = false /\ datalen b - used b < dl
  | inl b1 => wf b1 /\ content b1 = content b /\ used b1 = used b /\ head b1 = head b
      /\ actually_used b1 = actually_used b
      /\ (dl <= datalen b1 - used b <->
            dl <= datalen b - used b
            \/ (realloc = true /\ (max_len b = 0 \/ used b + dl <= max_len b)))
      /\ (datalen b1 = datalen b \/ datalen b - used b < dl)
  end.
Proof.
  intros Hwf [Hb [Hd Hf]] Hdl Hh. unfold grow.
  pose proof Hwf as [Wh Wu Wa Wb Wr Ww].
  rewrite (u64_small (datalen b - used b)) by lia.
  rewrite (u64_small (datalen b + dl)), (u64_small (datalen b + blocksize b)) by lia.
  destruct (Z.ltb_spec (datalen b - used b) dl) as [H1|H1]; simpl.
  2: { repeat split; try done; try (left; lia); lia. }
  specialize (Hh H1). rewrite (u64_small (used b + dl)) by lia.
  set (n := if datalen b + blocksize b >? datalen b + dl then _ else _).
  assert (datalen b + dl <= n < 2 ^ 64) as Hn by (subst n; cmp_goal; lia).
  destruct (Z.eqb_spec (max_len b) 0) as [E|E], (Z.leb_spec (used b + dl) (max_len b)) as [L|L];
    simpl; try (split_and!; try done; lia);
  destruct realloc; simpl;
    solve [ destruct (head_reset_id b Hwf Hh); split_and!; done
          | destruct (regrown_spec b n junk Hwf Hh) as [H2 H3]; [lia|];
            split_and!; try done; simpl; lia || (split; intros; [right; split; [done|lia]|lia]) ].
Qed.

Lemma append_spec b bytes :
  let dl := Z.of_nat (length bytes) in
  wf b -> head b + used b + dl <= datalen b ->
  wf (append b bytes dl) /\ used (append b bytes dl) = used b + dl
  /\ content (append b bytes dl) = content b ++ bytes.
Proof.
  intros dl [] Hroom. unfold append.
  split_and!.
  - constructor; simpl; rewrite ?u64_small by lia; try lia. rewrite region_write_length; lia.
  - simpl. apply u64_small. lia.
  - unfold content; simpl. rewrite u64_small by lia. apply region_read_write; lia.
Qed.

(** The region a write appends to, after compaction and growth. *)
Definition prepare (realloc : bool) (junk : Z) (b : switch_buffer) (dl : Z) : switch_buffer + switch_buffer :=
  let b1 := make_room b dl in
  if is_dynamic b1 then grow realloc junk b1 dl else inl b1.

Lemma prepare_spec realloc junk b dl :
  wf b -> fits b dl -> 0 < dl ->
  match prepare realloc junk b dl with
  | inr b2 => wf b2 /\ content b2 = content b /\ realloc = false /\ datalen b - used b < dl
  | inl b2 => wf b2 /\ content b2 = content b /\ used b2 = used b
      /\ (dl <= datalen b2 - used b -> head b2 + used b + dl <= datalen b2)
      /\ (dl <= datalen b2 - used b <->
          dl <= datalen b - used b
          \/ (is_dynamic b = true /\ realloc = true /\ (max_len b = 0 \/ used b + dl <= max_len b)))
  end.
Proof.
  intros Hwf Hfit Hdl. unfold prepare.
  destruct (make_room_spec b dl Hwf Hdl) as (W1 & C1 & U1 & D1 & M1 & B1 & F1 & H1 & R1).
  set (b1 := make_room b dl) in *.
  assert (is_dynamic b1 = is_dynamic b) as -> by (unfold is_dynamic; by rewrite F1).
  destruct (is_dynamic b).
  2: { split_and!; try done; rewrite ?D1; lia. }
  assert (fits b1 dl) as Hfit1 by (unfold fits in *; by rewrite B1, D1).
  pose proof (grow_spec realloc junk b1 dl W1 Hfit1 Hdl) as Hg.
  rewrite U1, D1, M1 in Hg. specialize (Hg H1).
  destruct (grow realloc junk b1 dl) as [b2|b2]; [|by rewrite <- C1].
  destruct Hg as (W2 & C2 & U2 & H2 & A2 & R2 & G2).
  split_and!; [done|congruence|congruence| |rewrite R2; tauto].
  destruct G2 as [G2|G2]; [rewrite H2, G2; lia|rewrite H2, (H1 G2); lia].
Qed.

(** What a write does on every path: it is refused and the unread bytes are
    untouched, or exactly the given bytes are appended to them.  The last clause
    is the condition under which it is accepted. *)
Lemma write_cases realloc junk b src dl r b' :
  let bytes := source_bytes src dl in
  wf b -> fits b dl -> is_partition b = false -> 0 < dl -> length bytes = Z.to_nat dl ->
  switch_buffer_write realloc junk b src dl = (r, b') ->
  wf b' /\
  ((r = used b + dl /\ used b' = r /\ content b' = content b ++ bytes)
    \/ (r = 0 /\ content b' = content b)) /\
  (0 < r <-> used b + dl <= datalen b
     \/ (is_dynamic b = true /\ realloc = true
         /\ (max_len b = 0 \/ used b + dl <= max_len b))).
Proof.
  intros bytes Hwf Hfit Hp Hdl Hlen. unfold switch_buffer_write. rewrite Hp.
  destruct (Z.eqb_spec dl 0); [lia|].
  pose proof (prepare_spec realloc junk b dl Hwf Hfit Hdl) as Hg.
  unfold prepare, make_room in Hg. cbv zeta.
  destruct (if is_dynamic _ then _ else _) as [b2|b2].
  - destruct Hg as (W2 & C2 & U2 & H2 & R2).
    rewrite (u64_small (datalen b2 - used b2)) by (destruct W2; lia).
    destruct (Z.ltb_spec (datalen b2 - used b2) dl) as [L|L]; intros [= <- <-].
    + split_and!; [done|by right|]. split; [lia|]. intros HR. rewrite U2 in L.
      assert (dl <= datalen b2 - used b) by (apply R2; destruct HR; [left; lia|by right]). lia.
    + fold bytes. destruct (append_spec b2 bytes W2) as (W3 & U3 & C3); [lia|].
      assert (Z.of_nat (length bytes) = dl) as Edl by lia. rewrite Edl in *.
      rewrite U3, U2, ?(u64_small (used b + dl)) by (destruct W2, Hwf; lia).
      split_and!; [done|left; split_and!; [done|done|by rewrite C3, C2]|].
      split; [intros _|destruct W2; lia].
      destruct (proj1 R2) as [HR|HR]; [lia|left; lia|by right].
  - destruct Hg as (W2 & C2 & -> & L). intros [= <- <-].
    split_and!; [done|by right|]. split; [lia|]. intros [?|(_ & [=] & _)]; lia.
Qed.

Lemma write_wf realloc junk b src dl :
  wf b -> fits b dl -> length (source_bytes src dl) = Z.to_nat dl ->
  wf (switch_buffer_write realloc junk b src dl).2.
Proof.
  intros Hwf Hfit Hlen. destruct (is_partition b) eqn:Hp; [|destruct (decide (dl = 0)) as [->|Hne]];
    try by (unfold switch_buffer_write; rewrite Hp).
  destruct (switch_buffer_write realloc junk b src dl) as [r b'] eqn:E.
  eapply write_cases in E; [naive_solver|done..|destruct Hfit as (_ & ? & _); lia|done].
Qed.

(** A write keeps the flags and the block size and grows the region by at most
    the larger of the two amounts it asks for. *)
Lemma write_frame realloc junk b src dl :
  wf b -> fits b dl ->
  let b' := (switch_buffer_write realloc junk b src dl).2 in
  flags b' = flags b /\ blocksize b' = blocksize b
  /\ datalen b' <= datalen b + Z.max dl (blocksize b).
Proof.
  intros [] (? & ? & ?). unfold switch_buffer_write.
  destruct (is_partition b); [simpl; lia|]. destruct (dl =? 0); [simpl; lia|]. cbv zeta.
  set (b1 := if _ <? dl then compact b else b).
  assert (flags b1 = flags b /\ blocksize b1 = blocksize b /\ datalen b1 = datalen b)
    as (F1 & B1 & D1) by (subst b1; by case_match).
  assert (match (if is_dynamic b1 then grow realloc junk b1 dl else inl b1) with
          | inl b2 | inr b2 => flags b2 = flags b /\ blocksize b2 = blocksize b
              /\ datalen b2 <= datalen b + Z.max dl (blocksize b)
          end) as Hg.
  { destruct (is_dynamic b1); [|lia]. unfold grow. cbv zeta. rewrite D1, B1.
    rewrite (u64_small (datalen b + dl)), (u64_small (datalen b + blocksize b)) by lia.
    destruct (_ && _); [|lia]. destruct realloc; simpl; [|lia]. cmp_goal; lia. }
  destruct (if is_dynamic _ then _ else _) as [b2|b2]; [|done].
  case_match; done.
Qed.

(** ** Refinement of a byte FIFO *)

Module fifo.

Inductive op :=
  | Write (realloc : bool) (junk : Z) (bytes : list Z)
  | Read (n : Z)
  | Peek (n : Z)
  | Toss (n : Z)
  | Zero.

Inductive obs :=
  | Stored (r : Z)
  | Bytes (l : list Z)
  | Left (r : Z)
  | Done.

(** The FIFO itself; a write of at least one byte may be refused. *)
Inductive step : op -> list Z -> obs -> list Z -> Prop :=
  | step_write realloc junk bytes q :
      step (Write realloc junk bytes) q (Stored (Z.of_nat (length q + length bytes))) (q ++ bytes)
  | step_refused realloc junk bytes q :
      bytes <> [] -> step (Write realloc junk bytes) q (Stored 0) q
  | step_read n q : step (Read n) q (Bytes (take (Z.to_nat n) q)) (drop (Z.to_nat n) q)
  | step_peek n q : step (Peek n) q (Bytes (take (Z.to_nat n) q)) q
  | step_toss n q :
      step (Toss n) q (Left (Z.of_nat (length (drop (Z.to_nat n) q)))) (drop (Z.to_nat n) q)
  | step_zero q : step Zero q Done [].

Inductive run : list op -> list Z -> list obs -> list Z -> Prop :=
  | run_nil q : run [] q [] q
  | run_cons o ops q1 x q2 xs q3 :
      step o q1 x q2 -> run ops q2 xs q3 -> run (o :: ops) q1 (x :: xs) q3.

Definition op_ok (o : op) : Prop :=
  match o with Read n | Peek n | Toss n => 0 <= n | _ => True end.

(** The bytes by which the operations may grow the region. *)
Definition growth (block : Z) (o : op) : Z :=
  match o with Write _ _ bytes => Z.max (Z.of_nat (length bytes)) block | _ => 0 end.

End fifo.

(** One operation of a client on the buffer. *)
Definition exec (o : fifo.op) (b : switch_buffer) : fifo.obs * switch_buffer :=
  match o with
  | fifo.Write realloc junk bytes =>
      let '(r, b) := switch_buffer_write realloc junk b (Some bytes) (Z.of_nat (length bytes)) in
      (fifo.Stored r, b)
  | fifo.Read n => let '(out, _, b) := switch_buffer_read b n in (fifo.Bytes out, b)
  | fifo.Peek n => let '(out, _, b) := switch_buffer_peek b n in (fifo.Bytes out, b)
  | fifo.Toss n => let '(r, b) := switch_buffer_toss b n in (fifo.Left r, b)
  | fifo.Zero => (fifo.Done, switch_buffer_zero b)
  end.

Fixpoint exec_all (ops : list fifo.op) (b : switch_buffer) : list fifo.obs * switch_buffer :=
  match ops with
  | [] => ([], b)
  | o :: ops =>
      let '(x, b) := exec o b in
      let '(xs, b) := exec_all ops b in (x :: xs, b)
  end.

Definition total_growth (block : Z) (ops : list fifo.op) : Z :=
  foldr (fun o acc => fifo.growth block o + acc) 0 ops.

Lemma total_growth_nonneg block ops : 0 <= block -> 0 <= total_growth block ops.
Proof. intros. induction ops as [|[] ops IH]; simpl; lia. Qed.

Lemma read_is_take out (q' q : list Z) n k :
  out ++ q' = q -> Z.of_nat (length out) = Z.min n (Z.of_nat (length q)) -> 0 <= n ->
  k = Z.to_nat n -> out = take k q /\ q' = drop k q.
Proof.
  intros <- Hl Hn ->. rewrite length_app in Hl.
  destruct (decide (n <= Z.of_nat (length out))).
  - assert (Z.to_nat n = length out) as -> by lia. by rewrite take_app_length, drop_app_length.
  - assert (q' = []) as -> by (apply length_zero_iff_nil; lia).
    rewrite app_nil_r in *. rewrite take_ge, drop_ge; [done|lia|lia].
Qed.

Lemma len_pos (bytes : list Z) : bytes <> [] -> 0 < Z.of_nat (length bytes).
Proof. destruct bytes; simpl; [done|lia]. Qed.
Lemma src_take (bytes : list Z) : take (Z.to_nat (Z.of_nat (length bytes))) bytes = bytes.
Proof. apply take_ge. lia. Qed.
Lemma src_len (bytes : list Z) :
  length (source_bytes (Some bytes) (Z.of_nat (length bytes))) = Z.to_nat (Z.of_nat (length bytes)).
Proof. simpl. rewrite src_take. lia. Qed.

Lemma exec_refines o b :
  wf b -> is_partition b = false -> fifo.op_ok o -> 0 <= blocksize b ->
  datalen b + fifo.growth (blocksize b) o < 2 ^ 64 ->
  let '(x, b') := exec o b in
  fifo.step o (content b) x (content b') /\ wf b' /\ flags b' = flags b
  /\ blocksize b' = blocksize b /\ datalen b' <= datalen b + fifo.growth (blocksize b) o.
Proof.
  intros Hwf Hp Hok Hbs Hg. pose proof (content_length b Hwf) as Hl.
  destruct o as [re junk bytes|n|n|n|]; simpl in *.
  - assert (fits b (Z.of_nat (length bytes))) as Hfit by (unfold fits; lia).
    pose proof (write_frame re junk b (Some bytes) _ Hwf Hfit) as Hfr.
    destruct (switch_buffer_write _ _ _ _ _) as [r b'] eqn:E. simpl in Hfr.
    split_and!; try apply Hfr; destruct (decide (bytes = [])) as [->|Hne].
    + unfold switch_buffer_write in E. rewrite Hp in E. injection E as <- <-.
      rewrite <- Hl. replace (length (content b)) with (length (content b) + length (@nil Z))%nat by (simpl; lia).
      rewrite <- (app_nil_r (content b)) at 3. constructor.
    + eapply write_cases in E as (_ & [(-> & _ & ->)|(-> & ->)] & _); [| |done..|by apply len_pos|by apply src_len].
      * simpl. rewrite <- Hl, <- Nat2Z.inj_add, src_take. constructor.
      * by constructor.
    + unfold switch_buffer_write in E. rewrite Hp in E. by injection E as <- <-.
    + by eapply write_cases in E as [? _]; [..|apply len_pos|apply src_len].
  - destruct (switch_buffer_read b n) as [[out k] b'] eqn:E.
    destruct (read_spec _ _ _ _ _ Hwf Hok E) as (W & C & K & L).
    destruct (read_is_take out (content b') (content b) n _ C ltac:(lia) Hok eq_refl) as [-> ->].
    unfold switch_buffer_read in E.
    destruct (used b <? 1); injection E as _ _ <-; (split_and!; [constructor|done..|simpl; lia]).
  - destruct (switch_buffer_peek b n) as [[out k] b'] eqn:E.
    destruct (peek_spec _ _ _ _ _ Hwf Hok E) as (W & C & -> & L). rewrite C.
    unfold switch_buffer_peek in E.
    destruct (used b <? 1); injection E as _ _ <-; (split_and!; [constructor|done..|simpl; lia]).
  - destruct (switch_buffer_toss b n) as [r b'] eqn:E.
    destruct (toss_spec _ _ _ _ Hwf Hok E) as (W & C & R).
    pose proof (content_length b' W) as Hl'. rewrite R, <- Hl', C.
    unfold switch_buffer_toss in E.
    destruct (used b <? 1); injection E as _ <-; (split_and!; [constructor|done..|simpl; lia]).
  - split_and!; try done; simpl; [|destruct Hwf; constructor; simpl; lia|lia].
    assert (content (switch_buffer_zero b) = []) as -> by reflexivity. constructor.
Qed.

(** ** Reachable buffers *)

(** Every buffer a client can hold: a fresh one, or the result of an operation
    on one.  The size hypotheses say that no request exceeds the address space. *)
Inductive reach : switch_buffer -> Prop :=
  | reach_create bid n b bid' :
      0 <= n < 2 ^ 64 ->
      switch_buffer_create true true bid n = (SWITCH_STATUS_SUCCESS, Some b, bid') -> reach b
  | reach_create_dynamic bid block start maxlen b bid' :
      0 <= start < 2 ^ 64 ->
      switch_buffer_create_dynamic true true bid block start maxlen
        = (SWITCH_STATUS_SUCCESS, Some b, bid') -> reach b
  | reach_create_partition bid d dl b bid' :
      0 <= dl <= Z.of_nat (length d) -> dl < 2 ^ 64 ->
      switch_buffer_create_partition true bid d dl = (SWITCH_STATUS_SUCCESS, Some b, bid') -> reach b
  | reach_set_partition_data b d dl :
      reach b -> 0 <= dl <= Z.of_nat (length d) -> dl < 2 ^ 64 ->
      reach (switch_buffer_set_partition_data b d dl).2
  | reach_reset_partition_data b : reach b -> reach (switch_buffer_reset_partition_data b).2
  | reach_set_loops b n : reach b -> reach (switch_buffer_set_loops b n)
  | reach_read b n : reach b -> 0 <= n -> reach (switch_buffer_read b n).2
  | reach_read_loop b n : reach b -> 0 <= n -> reach (switch_buffer_read_loop b n).2
  | reach_peek b n : reach b -> 0 <= n -> reach (switch_buffer_peek b n).2
  | reach_peek_zerocopy b : reach b -> reach (switch_buffer_peek_zerocopy b).2
  | reach_toss b n : reach b -> 0 <= n -> reach (switch_buffer_toss b n).2
  | reach_zero b : reach b -> reach (switch_buffer_zero b)
  | reach_write realloc junk b src dl :
      reach b -> fits b dl -> length (source_bytes src dl) = Z.to_nat dl ->
      reach (switch_buffer_write realloc junk b src dl).2
  | reach_zwrite re1 re2 junk b src dl :
      reach b -> 0 <= blocksize b -> 0 <= dl -> datalen b + 2 * Z.max dl (blocksize b) < 2 ^ 64 ->
      length (source_bytes src dl) = Z.to_nat dl ->
      reach (switch_buffer_zwrite re1 re2 junk b src dl).2
  | reach_slide_write re1 re2 junk b src dl :
      reach b -> 0 <= blocksize b -> 0 <= dl -> datalen b + 2 * Z.max dl (blocksize b) < 2 ^ 64 ->
      length (source_bytes src dl) = Z.to_nat dl ->
      reach (switch_buffer_slide_write re1 re2 junk b src dl).2.

Lemma zero_wf b : wf b -> wf (switch_buffer_zero b).
Proof. intros []. constructor; simpl; lia. Qed.

Lemma reset_partition_wf b : wf b -> wf (switch_buffer_reset_partition_data b).2.
Proof.
  intros Hwf. unfold switch_buffer_reset_partition_data. destruct (is_partition b); simpl; [|done].
  destruct Hwf. constructor; simpl; lia.
Qed.

Lemma set_partition_wf b d dl :
  wf b -> 0 <= dl <= Z.of_nat (length d) -> dl < 2 ^ 64 ->
  wf (switch_buffer_set_partition_data b d dl).2.
Proof.
  intros Hwf Hd Hw. unfold switch_buffer_set_partition_data.
  destruct (is_partition b) eqn:Hp; simpl; [|done].
  unfold switch_buffer_reset_partition_data.
  change (is_partition _) with (is_partition b). rewrite Hp. constructor; simpl; lia.
Qed.

Lemma read_wf b n : wf b -> 0 <= n -> wf (switch_buffer_read b n).2.
Proof.
  intros Hwf Hn. destruct (switch_buffer_read b n) as [[out k] b'] eqn:E.
  by eapply read_spec in E as [? _].
Qed.

Lemma rewind_wf b : wf b -> wf (b <| head := 0 |> <| used := actually_used b |>).
Proof. intros []. constructor; simpl; lia. Qed.

Lemma read_loop_wf b n : wf b -> 0 <= n -> wf (switch_buffer_read_loop b n).2.
Proof.
  intros Hwf Hn. unfold switch_buffer_read_loop. pose proof (read_wf b n Hwf Hn) as Hr.
  destruct (switch_buffer_read b n) as [[out k] b1]. simpl in Hr.
  destruct (k =? 0); [|done].
  set (b2 := if loops b1 >? 0 then _ else _).
  assert (wf b2) by (subst b2; case_match; [|done]; destruct Hr; constructor; simpl; lia).
  destruct (loops b2 =? 0); [done|]. apply read_wf; [exact (rewind_wf b2 H)|done].
Qed.

Lemma write_twice_fits realloc junk b src dl b1 :
  wf b -> 0 <= blocksize b -> 0 <= dl -> datalen b + 2 * Z.max dl (blocksize b) < 2 ^ 64 ->
  blocksize b1 = blocksize (switch_buffer_write realloc junk b src dl).2 ->
  datalen b1 = datalen (switch_buffer_write realloc junk b src dl).2 -> fits b1 dl.
Proof.
  intros Hwf Hb Hd Hs Eb Ed. assert (fits b dl) as Hf by (unfold fits; lia).
  destruct (write_frame realloc junk b src dl Hwf Hf) as (_ & HB & HD). unfold fits. lia.
Qed.

Lemma toss_frame b n :
  blocksize (switch_buffer_toss b n).2 = blocksize b /\ datalen (switch_buffer_toss b n).2 = datalen b.
Proof. unfold switch_buffer_toss. by case_match. Qed.

Lemma toss_wf b n : wf b -> 0 <= n -> wf (switch_buffer_toss b n).2.
Proof.
  intros Hwf Hn. destruct (switch_buffer_toss b n) as [r b'] eqn:E.
  by eapply toss_spec in E as [? _].
Qed.

Lemma zwrite_wf re1 re2 junk b src dl :
  wf b -> 0 <= blocksize b -> 0 <= dl -> datalen b + 2 * Z.max dl (blocksize b) < 2 ^ 64 ->
  length (source_bytes src dl) = Z.to_nat dl -> wf (switch_buffer_zwrite re1 re2 junk b src dl).2.
Proof.
  intros Hwf Hb Hd Hs Hl. unfold switch_buffer_zwrite. destruct (is_partition b); [done|].
  pose proof (write_wf re1 junk b src dl Hwf ltac:(unfold fits; lia) Hl) as Hw.
  pose proof (write_twice_fits re1 junk b src dl) as Hf.
  destruct (switch_buffer_write re1 junk b src dl) as [w b1]. simpl in *.
  case_match; [|done]. apply write_wf; [by apply zero_wf| |done]. by eapply Hf.
Qed.

Lemma slide_write_wf re1 re2 junk b src dl :
  wf b -> 0 <= blocksize b -> 0 <= dl -> datalen b + 2 * Z.max dl (blocksize b) < 2 ^ 64 ->
  length (source_bytes src dl) = Z.to_nat dl -> wf (switch_buffer_slide_write re1 re2 junk b src dl).2.
Proof.
  intros Hwf Hb Hd Hs Hl. unfold switch_buffer_slide_write. destruct (is_partition b); [done|].
  pose proof (write_wf re1 junk b src dl Hwf ltac:(unfold fits; lia) Hl) as Hw.
  pose proof (write_twice_fits re1 junk b src dl) as Hf.
  destruct (switch_buffer_write re1 junk b src dl) as [w b1]. simpl in *.
  case_match; [|done]. apply write_wf; [by apply toss_wf| |done].
  destruct (toss_frame b1 dl). by eapply Hf.
Qed.

#[export] Hint Resolve zero_wf reset_partition_wf set_partition_wf read_wf read_loop_wf
  toss_wf write_wf zwrite_wf slide_write_wf : csem.

(** ** Cyclic reading of a partition *)

(** Successive [read_loop] calls of the given sizes. *)
Fixpoint read_loops (b : switch_buffer) (sizes : list Z) : list Z * switch_buffer :=
  match sizes with
  | [] => ([], b)
  | n :: sizes =>
      let '(out, _, b) := switch_buffer_read_loop b n in
      let '(rest, b) := read_loops b sizes in (out ++ rest, b)
  end.

(** A partition over all of [d], played without a loop limit. *)
Record playing (d : list Z) (b : switch_buffer) : Prop := {
  playing_wf : wf b;
  playing_data : data b = d;
  playing_all : actually_used b = Z.of_nat (length d);
  playing_loops : loops b < 0;
}.

Lemma read_data_frame b n :
  data (switch_buffer_read b n).2 = data b /\ loops (switch_buffer_read b n).2 = loops b
  /\ actually_used (switch_buffer_read b n).2 = actually_used b.
Proof. unfold switch_buffer_read. by case_match. Qed.

Lemma read_playing d b n : playing d b -> 0 <= n -> playing d (switch_buffer_read b n).2.
Proof.
  intros [Hwf Hd Ha Hl] Hn. destruct (read_data_frame b n) as (E1 & E2 & E3).
  constructor; [by apply read_wf|congruence|congruence|lia].
Qed.

(** One call either continues with the unread bytes or starts over. *)
Lemma read_loop_playing d b n out k b' :
  playing d b -> d <> [] -> 0 < n -> switch_buffer_read_loop b n = (out, k, b') ->
  playing d b' /\ k = Z.of_nat (length out) /\ out <> []
  /\ (out ++ content b' = content b \/ (content b = [] /\ out ++ content b' = d)).
Proof.
  intros Hp Hne Hn. unfold switch_buffer_read_loop.
  pose proof (read_playing d b n Hp ltac:(lia)) as Hp1.
  destruct (switch_buffer_read b n) as [[out1 k1] b1] eqn:E1. simpl in Hp1.
  pose proof (read_spec b n _ _ _ (playing_wf _ _ Hp) ltac:(lia) E1) as (W1 & C1 & K1 & L1).
  pose proof (content_length b (playing_wf _ _ Hp)) as Hlen.
  destruct (Z.eqb_spec k1 0) as [->|Hk].
  2: { intros [= <- <- <-]. split_and!; [done|done|intros ->; simpl in *; lia|by left]. }
  assert (content b = []) as Hb by (apply length_zero_iff_nil; destruct (playing_wf _ _ Hp); lia).
  destruct Hp1 as [_ Hd1 Ha1 Hl1].
  destruct (Z.gtb_spec (loops b1) 0); [lia|]. destruct (Z.eqb_spec (loops b1) 0); [lia|].
  set (b2 := (b1 <| head := 0 |>) <| used := _ |>).
  assert (playing d b2) as Hp2 by (constructor; [exact (rewind_wf b1 W1)|done|done|done]).
  pose proof (read_playing d b2 n Hp2 ltac:(lia)) as Hp3.
  intros E2. rewrite E2 in Hp3. simpl in Hp3.
  apply read_spec in E2 as (W3 & C3 & K3 & L3); [|apply Hp2|lia].
  assert (content b2 = d) as Hc2.
  { unfold content. simpl. rewrite Hd1, Ha1, region_read_front. apply take_ge. lia. }
  assert (used b2 = Z.of_nat (length d)) as Hu by (simpl; done).
  split_and!; [done|lia| |by right; rewrite C3].
  intros ->. simpl in L3. pose proof (len_pos d Hne). lia.
Qed.

Lemma read_loops_cyclic d b sizes :
  playing d b -> d <> [] -> Forall (fun n => 0 < n) sizes ->
  let '(out, b') := read_loops b sizes in
  exists k, out ++ content b' = content b ++ concat (replicate k d).
Proof.
  intros Hp Hne Hs. revert b Hp. induction Hs as [|n sizes Hn Hs IH]; intros b Hp; simpl.
  { exists 0%nat. by rewrite app_nil_r. }
  destruct (switch_buffer_read_loop b n) as [[out k1] b1] eqn:E1.
  eapply read_loop_playing in E1 as (Hp1 & _ & _ & HC); [|done..].
  specialize (IH b1 Hp1). destruct (read_loops b1 sizes) as [rest b2].
  destruct IH as [k Hk]. rewrite <- app_assoc, Hk, app_assoc.
  destruct HC as [->|[-> ->]]; [by exists k|]. by exists (S k).
Qed.

(** ** Properties *)

(** C36. Every buffer that can be obtained from the constructors by any sequence
    of the buffer's operations, on every allocation outcome, satisfies the
    invariant: the unread bytes lie inside the region ([head + used] is
    [actually_used], at most [datalen], at most the allocated length), so no
    read or write of switch_buffer.c leaves the region. *)
Theorem reach_wf b : reach b -> wf b.
Proof.
  induction 1; eauto with csem.
  - injection H0 as <- _. constructor; simpl; rewrite ?length_replicate; lia.
  - unfold switch_buffer_create_dynamic in H0. simpl in H0. injection H0 as <- _.
    constructor; simpl; rewrite ?length_replicate; cmp_goal; lia.
  - injection H1 as <- _. constructor; simpl; lia.
  - destruct IHreach. constructor; simpl; lia.
  - unfold switch_buffer_peek. destruct (Z.ltb_spec (used b) 1); [by apply used_zero_wf|done].
  - unfold switch_buffer_peek_zerocopy. destruct (Z.ltb_spec (used b) 1); [by apply used_zero_wf|done].
Qed.

Definition demo_buffer : switch_buffer :=
  mk_buffer (replicate 4 0) 0 0 0 4 0 8 None SWITCH_BUFFER_FLAG_DYNAMIC 7 0.

Lemma reach_wf_witness : reach (switch_buffer_write true 99 demo_buffer (Some [1; 2; 3; 4; 5]) 5).2
  /\ wf (switch_buffer_write true 99 demo_buffer (Some [1; 2; 3; 4; 5]) 5).2.
Proof.
  assert (reach (switch_buffer_write true 99 demo_buffer (Some [1; 2; 3; 4; 5]) 5).2) as H.
  { apply reach_write; [|unfold fits; simpl; lia|reflexivity].
    apply (reach_create_dynamic 7 8 4 0 _ 8); [lia|reflexivity]. }
  split; [exact H|exact (reach_wf _ H)].
Defined.

(** C1. Static and dynamic buffers are a byte FIFO: any sequence of writes,
    reads, peeks, tosses and zeroings, on any outcome of realloc, returns what
    the abstract queue returns when some non-empty writes are refused, and the
    unread bytes are the queue's content.  (The bound says the growth the
    sequence can ask for stays below [SIZE_MAX].) *)
Theorem buffer_refines_fifo ops b :
  wf b -> is_partition b = false -> Forall fifo.op_ok ops -> 0 <= blocksize b ->
  datalen b + total_growth (blocksize b) ops < 2 ^ 64 ->
  fifo.run ops (content b) (exec_all ops b).1 (content (exec_all ops b).2)
  /\ wf (exec_all ops b).2.
Proof.
  intros Hwf Hp Hok Hb Hg. revert b Hwf Hp Hb Hg.
  induction Hok as [|o ops Ho Hok IH]; intros b Hwf Hp Hb Hg; simpl; [by split; [constructor|]|].
  simpl in Hg. pose proof (total_growth_nonneg (blocksize b) ops Hb).
  pose proof (exec_refines o b Hwf Hp Ho Hb ltac:(lia)) as HE.
  destruct (exec o b) as [x b1]. destruct HE as (HS & W1 & F1 & B1 & D1).
  destruct (IH b1) as [HR HW]; [done|by unfold is_partition in *; rewrite F1|lia|rewrite B1; lia|].
  destruct (exec_all ops b1) as [xs b2]. simpl in *. split; [by econstructor|done].
Qed.

Lemma buffer_refines_fifo_witness :
  let ops := [fifo.Write true 99 [1; 2; 3]; fifo.Read 2; fifo.Write true 99 [4; 5; 6; 7; 8; 9];
              fifo.Toss 1; fifo.Read 100] in
  (exec_all ops demo_buffer).1
    = [fifo.Stored 3; fifo.Bytes [1; 2]; fifo.Stored 7; fifo.Left 6; fifo.Bytes [4; 5; 6; 7; 8; 9]]
  /\ fifo.run ops (content demo_buffer) (exec_all ops demo_buffer).1 (content (exec_all ops demo_buffer).2).
Proof.
  split; [vm_compute; reflexivity|]. eapply (buffer_refines_fifo _ demo_buffer).
  - constructor; simpl; lia.
  - reflexivity.
  - repeat constructor; simpl; lia.
  - simpl; lia.
  - vm_compute; reflexivity.
Defined.

(** The exact acceptance condition of a write, for a static or a dynamic
    buffer and any source (a NULL source writes zeros): it is stored iff the
    region has room or a dynamic buffer may grow and realloc succeeds; a stored
    write appends exactly its bytes and returns the new [used], a refused one
    returns 0 and leaves the unread bytes as they were. *)
Theorem write_accepts realloc junk b src dl r b' :
  let bytes := source_bytes src dl in
  let room := used b + dl <= datalen b
    \/ (is_dynamic b = true /\ realloc = true /\ (max_len b = 0 \/ used b + dl <= max_len b)) in
  wf b -> fits b dl -> is_partition b = false -> 0 < dl -> length bytes = Z.to_nat dl ->
  switch_buffer_write realloc junk b src dl = (r, b') ->
  (room -> r = used b + dl /\ content b' = content b ++ bytes)
  /\ (~ room -> r = 0 /\ content b' = content b).
Proof.
  intros bytes room Hwf Hfit Hp Hdl Hl E.
  eapply write_cases in E as (_ & Hc & Hr); [|done..]. fold room in Hr.
  pose proof (wf_used _ Hwf).
  split; intros Hroom; destruct Hc as [(-> & _ & ->)|(-> & ->)]; try done.
  - apply Hr in Hroom. lia.
  - exfalso. apply Hroom, Hr. lia.
Qed.

Definition demo_grown : switch_buffer :=
  mk_buffer (replicate 6 0 ++ replicate 6 99) 0 6 6 12 0 8 None SWITCH_BUFFER_FLAG_DYNAMIC 7 0.

Lemma write_accepts_witness :
  switch_buffer_write true 99 demo_buffer None 6 = (6, demo_grown)
  /\ content demo_grown = content demo_buffer ++ replicate 6 0.
Proof.
  assert (switch_buffer_write true 99 demo_buffer None 6 = (6, demo_grown)) as E
    by (vm_compute; reflexivity).
  split; [exact E|].
  apply (write_accepts true 99 demo_buffer None 6 6 demo_grown);
    [constructor; simpl; lia|unfold fits; simpl; lia|reflexivity|lia|reflexivity|exact E|].
  right. split; [reflexivity|]. split; [reflexivity|]. left. reflexivity.
Defined.

(** A partition played with a negative loop count never runs dry: whatever
    the positive sizes of the successive [read_loop] calls, their output is a
    prefix of the rest of the current pass followed by whole repetitions of the
    partition's bytes. *)
Theorem partition_loops_forever d dl sizes :
  dl = Z.of_nat (length d) -> dl < 2 ^ 64 -> d <> [] -> Forall (fun n => 0 < n) sizes ->
  match switch_buffer_create_partition true 0 d dl with
  | (SWITCH_STATUS_SUCCESS, Some b, _) =>
      let b := switch_buffer_set_loops b (-1) in
      exists k rest, (read_loops b sizes).1 ++ rest = d ++ concat (replicate k d)
  | _ => False
  end.
Proof.
  intros -> Hd Hne Hs. simpl.
  set (b := switch_buffer_set_loops _ _).
  assert (playing d b) as Hp.
  { constructor; simpl; try done. constructor; simpl; lia. }
  pose proof (read_loops_cyclic d b sizes Hp Hne Hs) as H.
  destruct (read_loops b sizes) as [out b'] eqn:E. destruct H as [k Hk].
  exists k, (content b'). simpl. rewrite Hk. f_equal.
  unfold content; simpl. rewrite region_read_front. apply take_ge. lia.
Qed.

Lemma partition_loops_forever_witness :
  exists b, switch_buffer_create_partition true 0 [1; 2; 3] 3 = (SWITCH_STATUS_SUCCESS, Some b, 1)
  /\ (read_loops (switch_buffer_set_loops b (-1)) [2; 2; 2]).1 = [1; 2; 3; 1; 2]
  /\ exists k rest, (read_loops (switch_buffer_set_loops b (-1)) [2; 2; 2]).1 ++ rest
       = [1; 2; 3] ++ concat (replicate k [1; 2; 3]).
Proof.
  eexists. split; [reflexivity|]. split; [vm_compute; reflexivity|].
  apply (partition_loops_forever [1; 2; 3] 3 [2; 2; 2]); [reflexivity|lia|discriminate|].
  repeat constructor; lia.
Defined.

(** [max_len] does not bound a dynamic buffer: with a maximum of 100 bytes,
    a start length of 50 and a block size of 1000, two accepted writes leave
    560 unread bytes, and [switch_buffer_freespace] then wraps around to a
    value close to [2 ^ 64]. *)
Theorem max_len_not_enforced :
  match switch_buffer_create_dynamic true true 0 1000 50 100 with
  | (SWITCH_STATUS_SUCCESS, Some b, _) =>
      let '(r1, b1) := switch_buffer_write true 0 b None 60 in
      let '(r2, b2) := switch_buffer_write true 0 b1 None 500 in
      max_len b2 = 100 /\ r1 = 60 /\ r2 = 560 /\ switch_buffer_inuse b2 = 560
      /\ switch_buffer_freespace b2 = 2 ^ 64 - 460
  | _ => False
  end.
Proof. vm_compute. repeat split; reflexivity. Qed.

End Buffer.
