(* ===== verification/Hashtable.v ===== *)
(** * The hash table (src/src/switch_hashtable.c, include/switch_hashtable.h,
      include/private/switch_hashtable_private.h)

    Separate chaining over a table of prime length that doubles (roughly) when
    the load factor is exceeded.  Keys and values are [void *] in the source;
    here a table is polymorphic in the key type [K] and the value type [V], and
    a value pointer is an [option V] ([None] is NULL).  A chain is the list of
    its entries.  [free] calls and destructor calls are recorded in the order
    in which they happen.

    Memory: whether each allocation succeeds is an input.  [None] as a result
    is undefined behaviour: the "Plan B" branch of [hashtable_expand] passes an
    uninitialised pointer to memset. *)

From S2P Require Import Prelude.
From Stdlib Require Import SpecFloat.

Module Hashtable.

(** ** The prime table and the load limit *)

Definition primes : list Z :=
  [53; 97; 193; 389;
   769; 1543; 3079; 6151;
   12289; 24593; 49157; 98317;
   196613; 393241; 786433; 1572869;
   3145739; 6291469; 12582917; 25165843;
   50331653; 100663319; 201326611; 402653189;
   805306457; 1610612741].

Definition prime_table_length : Z := Z.of_nat (length primes).

(** [0.65f]: the single precision number 10905190 * 2^-24. *)
Definition max_load_factor : spec_float := S754_finite false 10905190 (-24).

Definition float_of_uint (n : Z) : spec_float := binary_normalize 24 128 n 0 false.

Definition ceil_sf (x : spec_float) : Z :=
  match x with
  | S754_finite s m e =>
      let v := if s then Z.neg m else Z.pos m in
      if 0 <=? e then v * 2 ^ e else - ((- v) / 2 ^ (- e))
  | _ => 0
  end.

(** [(unsigned int) ceil(size * max_load_factor)] *)
Definition loadlimit_of (size : Z) : Z :=
  u32 (ceil_sf (SFmul 24 128 (float_of_uint size) max_load_factor)).

(** ** Flags *)

Definition HASHTABLE_FLAG_NONE : Z := 0.
Definition HASHTABLE_FLAG_FREE_KEY : Z := 1.
Definition HASHTABLE_FLAG_FREE_VALUE : Z := 2.
Definition HASHTABLE_DUP_CHECK : Z := 4.

(** ** Hashing *)

(** The supplemental mixing of [hash()], on a 32-bit value. *)
Definition hash_mix (i : Z) : Z :=
  let i := u32 (i + (2 ^ 32 - 1 - u32 (Z.shiftl i 9))) in
  let i := Z.lxor i (Z.lor (Z.shiftr i 14) (u32 (Z.shiftl i 18))) in
  let i := u32 (i + u32 (Z.shiftl i 4)) in
  Z.lxor i (Z.lor (Z.shiftr i 10) (u32 (Z.shiftl i 22))).

Definition indexFor (tablelength hashvalue : Z) : Z := hashvalue mod tablelength.

Section table.
Context {K V : Type}.

Record entry := mk_entry {
  k : K;
  v : option V;
  h : Z;
  flags : Z;
  destructor : option nat;
}.

Record switch_hashtable := mk_hashtable {
  tablelength : Z;
  table : list (list entry);
  entrycount : Z;
  loadlimit : Z;
  primeindex : Z;
  hashfn : K -> Z;
  eqfn : K -> K -> bool;
}.

#[export] Instance rebuild_hashtable : Rebuild switch_hashtable := fun t =>
  mk_hashtable (tablelength t) (table t) (entrycount t) (loadlimit t) (primeindex t)
    (hashfn t) (eqfn t).
#[export] Instance set_tablelength : Setter tablelength := ltac:(derive_setter).
#[export] Instance set_table : Setter table := ltac:(derive_setter).
#[export] Instance set_entrycount : Setter entrycount := ltac:(derive_setter).
#[export] Instance set_loadlimit : Setter loadlimit := ltac:(derive_setter).
#[export] Instance set_primeindex : Setter primeindex := ltac:(derive_setter).

(** The deallocations and callbacks an operation performs. *)
Inductive freed :=
  | FreedKey (key : K)
  | FreedValue (val : V)
  | Destroyed (d : nat) (val : option V).

Definition hash (t : switch_hashtable) (key : K) : Z := hash_mix (hashfn t key).

(** ** Creation *)

(** The [for] loop that picks the smallest listed prime above [minsize]:
    the index it stops at and the size. *)
Fixpoint pick_prime (minsize : Z) (ps : list Z) (pindex : Z) : Z * Z :=
  match ps with
  | [] => (pindex, 53)
  | p :: ps => if p >? minsize then (pindex, p) else pick_prime minsize ps (pindex + 1)
  end.

Definition switch_create_hashtable (minsize : Z) (hashf : K -> Z) (eqf : K -> K -> bool)
  : switch_status_t * option switch_hashtable :=
  if minsize >? 2 ^ 30 then (SWITCH_STATUS_FALSE, None)
  else
    let '(pindex, size) := pick_prime minsize primes 0 in
    (SWITCH_STATUS_SUCCESS,
     Some (mk_hashtable size (replicate (Z.to_nat size) []) 0 (loadlimit_of size) pindex hashf eqf)).

(** ** Expansion *)

(** [e->next = tab[index]; tab[index] = e] *)
Definition push_entry (tab : list (list entry)) (index : Z) (e : entry) : list (list entry) :=
  alter (cons e) (Z.to_nat index) tab.

(** The double loop that drains the old chains, head first, into the new table. *)
Definition move_chain (newsize : Z) (newtable : list (list entry)) (chain : list entry) : list (list entry) :=
  foldl (fun tab e => push_entry tab (indexFor newsize (h e)) e) newtable chain.
Definition move_chains (newsize : Z) (newtable old : list (list entry)) : list (list entry) :=
  foldl (move_chain newsize) newtable old.

(** [malloc_ok], [realloc_ok]: the two allocation attempts.  The result is the
    return value and the table, or [None] for undefined behaviour. *)
Definition hashtable_expand (malloc_ok realloc_ok : bool) (t : switch_hashtable)
  : option (Z * switch_hashtable) :=
  if primeindex t =? prime_table_length - 1 then Some (0, t)
  else
    let t := t <| primeindex := primeindex t + 1 |> in
    let newsize := default 0 (primes !! Z.to_nat (primeindex t)) in
    if malloc_ok then
      let t := t <| table := move_chains newsize (replicate (Z.to_nat newsize) []) (table t) |> in
      let t := t <| tablelength := newsize |> in
      let t := t <| loadlimit := loadlimit_of newsize |> in
      Some (-1, t)
    else if realloc_ok then None
    else
      let t := t <| primeindex := primeindex t - 1 |> in
      Some (0, t).

Definition switch_hashtable_count (t : switch_hashtable) : Z := entrycount t.

(** ** Search and removal *)

(** The test of the chain walks: the stored hash first, then the key. *)
Definition matches (t : switch_hashtable) (hashvalue : Z) (key : K) (e : entry) : bool :=
  (hashvalue =? h e) && eqfn t key (k e).

Definition chain_at (t : switch_hashtable) (index : Z) : list entry :=
  default [] (table t !! Z.to_nat index).

(** The chain walk of remove: the first matching entry and the chain without it. *)
Fixpoint unlink (p : entry -> bool) (chain : list entry) : option (entry * list entry) :=
  match chain with
  | [] => None
  | e :: next =>
      if p e then Some (e, next)
      else match unlink p next with
           | Some (e', rest) => Some (e', e :: rest)
           | None => None
           end
  end.

(** What happens to the key and the value of an entry that leaves the table:
    the calls made and the value pointer left. *)
Definition release (e : entry) : list freed * option V :=
  let fk := if test_flag (flags e) HASHTABLE_FLAG_FREE_KEY then [FreedKey (k e)] else [] in
  if test_flag (flags e) HASHTABLE_FLAG_FREE_VALUE then
    (fk ++ match v e with Some x => [FreedValue x] | None => [] end, None)
  else
    match destructor e with
    | Some d => (fk ++ [Destroyed d (v e)], None)
    | None => (fk, v e)
    end.

Definition switch_hashtable_remove_ (t : switch_hashtable) (key : K) (hashvalue index : Z)
  : option V * list freed * switch_hashtable :=
  match unlink (matches t hashvalue key) (chain_at t index) with
  | Some (e, rest) =>
      let t := t <| table := <[Z.to_nat index := rest]> (table t) |> in
      let t := t <| entrycount := u32 (entrycount t - 1) |> in
      let '(log, val) := release e in
      (val, log, t)
  | None => (None, [], t)
  end.

Definition switch_hashtable_remove (t : switch_hashtable) (key : K)
  : option V * list freed * switch_hashtable :=
  let hashvalue := hash t key in
  switch_hashtable_remove_ t key hashvalue (indexFor (tablelength t) hashvalue).

Definition switch_hashtable_search (t : switch_hashtable) (key : K) : option V :=
  let hashvalue := hash t key in
  let index := indexFor (tablelength t) hashvalue in
  match unlink (matches t hashvalue key) (chain_at t index) with
  | Some (e, _) => v e
  | None => None
  end.

(** ** Insertion *)

(** The outcomes of the allocations an insertion may perform. *)
Record memory := { mem_table : bool; mem_realloc : bool; mem_entry : bool }.
Definition mem_ok : memory := {| mem_table := true; mem_realloc := true; mem_entry := true |}.

Definition switch_hashtable_insert_destructor (mem : memory) (t : switch_hashtable)
    (key : K) (val : option V) (fl : Z) (d : option nat)
  : option (Z * list freed * switch_hashtable) :=
  let hashvalue := hash t key in
  let index := indexFor (tablelength t) hashvalue in
  let '(log, t) :=
    if test_flag fl HASHTABLE_DUP_CHECK
    then let '(_, log, t) := switch_hashtable_remove_ t key hashvalue index in (log, t)
    else ([], t) in
  let t := t <| entrycount := u32 (entrycount t + 1) |> in
  match (if entrycount t >? loadlimit t
         then match hashtable_expand (mem_table mem) (mem_realloc mem) t with
              | Some (_, t) => Some (t, indexFor (tablelength t) hashvalue)
              | None => None
              end
         else Some (t, index)) with
  | None => None
  | Some (t, index) =>
      if negb (mem_entry mem) then
        Some (0, log, t <| entrycount := u32 (entrycount t - 1) |>)
      else
        let e := mk_entry key val hashvalue fl d in
        Some (-1, log, t <| table := push_entry (table t) index e |>)
  end.

(** ** Destruction *)

Definition switch_hashtable_destroy (t : switch_hashtable) : list freed :=
  concat (map (fun chain => concat (map (fun e => (release e).1) chain)) (table t)).

(** ** Iteration: an iterator is a table position and the rest of the chain
    from the current entry on ([[]] is a NULL [e]). *)

Record iterator := mk_iter { pos : Z; rest_e : list entry }.

(** [while(pos < tablelength && !table[pos]) pos++] *)
Fixpoint skip_empty (t : switch_hashtable) (fuel : nat) (p : Z) : Z :=
  match fuel with
  | O => p
  | S fuel =>
      if (p <? tablelength t) && bool_decide (chain_at t p = [] :> list entry) then skip_empty t fuel (p + 1) else p
  end.

Definition switch_hashtable_next (t : switch_hashtable) (i : iterator) : option iterator :=
  let scan (p : Z) :=
    let p := skip_empty t (Z.to_nat (tablelength t - p)) p in
    if p >=? tablelength t then None
    else match chain_at t p with [] => None | c => Some (mk_iter p c) end in
  match rest_e i with
  | [] => scan (pos i)
  | [_] => scan (pos i + 1)
  | _ :: next => Some (mk_iter (pos i) next)
  end.

Definition switch_hashtable_first_iter (t : switch_hashtable) : option iterator :=
  switch_hashtable_next t (mk_iter 0 []).

Definition switch_hashtable_this (i : iterator) : option (K * option V) :=
  match rest_e i with
  | e :: _ => Some (k e, v e)
  | [] => None
  end.

(** [i->e->v = val]: the entry the iterator stands on, in its chain. *)
Definition switch_hashtable_this_val (t : switch_hashtable) (i : iterator) (val : option V)
  : switch_hashtable :=
  match rest_e i with
  | [] => t
  | e :: next =>
      let e' := mk_entry (k e) val (h e) (flags e) (destructor e) in
      let upd (chain : list entry) := take (length chain - length (rest_e i)) chain ++ e' :: next in
      t <| table := alter upd (Z.to_nat (pos i)) (table t) |>
  end.

(** ** Specification *)

(** What the table needs of its function pointers. *)
Class KeyLaws (hf : K -> Z) (ef : K -> K -> bool) : Prop := {
  eqfn_refl a : ef a a = true;
  eqfn_sym a b : ef a b = ef b a;
  eqfn_trans a b c : ef a b = true -> ef b c = true -> ef a c = true;
  hashfn_eqfn a b : ef a b = true -> hf a = hf b;
}.

Definition entries (t : switch_hashtable) : list entry := concat (table t).

(** No two entries of a list have equal keys. *)
Fixpoint distinct (ef : K -> K -> bool) (l : list entry) : Prop :=
  match l with
  | [] => True
  | e :: l => Forall (fun e' => ef (k e) (k e') = false) l /\ distinct ef l
  end.

(** Every chain holds the entries that hash to it. *)
Definition placed (t : switch_hashtable) : Prop :=
  forall i chain e, table t !! i = Some chain -> e ∈ chain ->
    h e = hash t (k e) /\ Z.of_nat i = indexFor (tablelength t) (h e).

(** The shape of the table, without the entry count. *)
Record shaped (t : switch_hashtable) : Prop := {
  sh_len : Z.of_nat (length (table t)) = tablelength t;
  sh_pos : 0 < tablelength t;
  sh_prime : 0 <= primeindex t /\ primes !! Z.to_nat (primeindex t) = Some (tablelength t);
  sh_load : loadlimit t = loadlimit_of (tablelength t);
  sh_placed : placed t;
  sh_distinct : distinct (eqfn t) (entries t);
}.

Record wf (t : switch_hashtable) : Prop := {
  wf_shaped : shaped t;
  wf_count : entrycount t = Z.of_nat (length (entries t));
  wf_width : entrycount t < 2 ^ 32 - 1;
}.

(** The value a key has in a list of entries. *)
Fixpoint assoc (ef : K -> K -> bool) (key : K) (l : list entry) : option V :=
  match l with
  | [] => None
  | e :: l => if ef key (k e) then v e else assoc ef key l
  end.

Section laws.
Context {hf : K -> Z} {ef : K -> K -> bool} `{!KeyLaws hf ef}.
Implicit Types (l chain : list entry) (e : entry) (key : K).

Lemma eqfn_diff a b c : ef a b = true -> ef a c = false -> ef b c = false.
Proof.
  intros Hab Hac. destruct (ef b c) eqn:E; [|done]. by rewrite (eqfn_trans _ _ _ Hab E) in Hac.
Qed.

Lemma distinct_perm l1 l2 : l1 ≡ₚ l2 -> distinct ef l1 -> distinct ef l2.
Proof.
  induction 1 as [|e l1 l2 HP IH|e1 e2 l|l1 l2 l3 HP1 IH1 HP2 IH2]; simpl; auto.
  - intros [HF HD]. split; [by rewrite <- HP|auto].
  - rewrite !Forall_cons. intros [[H1 H2] [H3 H4]]. rewrite eqfn_sym. auto.
Qed.

Lemma assoc_perm key l1 l2 : l1 ≡ₚ l2 -> distinct ef l1 -> assoc ef key l1 = assoc ef key l2.
Proof.
  induction 1 as [|e l1 l2 HP IH|e1 e2 l|l1 l2 l3 HP1 IH1 HP2 IH2]; simpl; auto.
  - intros [_ HD]. by rewrite IH.
  - rewrite Forall_cons. intros [[H1 _] _].
    destruct (ef key (k e1)) eqn:E1, (ef key (k e2)) eqn:E2; try done.
    rewrite (eqfn_sym key) in E2. by rewrite (eqfn_trans _ _ _ E2 E1) in H1.
  - intros HD. rewrite IH1 by done. apply IH2. by apply distinct_perm with l1.
Qed.

Lemma assoc_none key l : Forall (fun e => ef key (k e) = false) l -> assoc ef key l = None.
Proof. induction 1 as [|e l HE HF IH]; simpl; [done|]. by rewrite HE. Qed.

Lemma distinct_app l1 l2 :
  distinct ef (l1 ++ l2) <->
  distinct ef l1 /\ distinct ef l2 /\ Forall (fun e => Forall (fun e' => ef (k e) (k e') = false) l2) l1.
Proof.
  induction l1 as [|e l1 IH]; simpl; [by split; [intros|intros (_ & ? & _)]|].
  rewrite Forall_app, IH, Forall_cons. tauto.
Qed.

(** The walk over a chain, when the stored hash agrees with the key's. *)
Lemma unlink_spec hv key (p := fun e => (hv =? h e) && ef key (k e)) chain :
  (forall e, e ∈ chain -> ef key (k e) = true -> h e = hv) ->
  match unlink p chain with
  | Some (e, rest) => ef key (k e) = true /\ chain ≡ₚ e :: rest
      /\ assoc ef key chain = v e /\ sublist rest chain
  | None => Forall (fun e => ef key (k e) = false) chain
  end.
Proof.
  induction chain as [|e chain IH]; intros Hh; simpl; [done|].
  assert (p e = ef key (k e)) as Hp.
  { subst p. simpl. destruct (ef key (k e)) eqn:E; [|by rewrite andb_false_r].
    rewrite (Hh e) by set_solver. by rewrite Z.eqb_refl. }
  rewrite Hp. destruct (ef key (k e)) eqn:E; [by split_and!; [..|apply sublist_cons]|].
  specialize (IH ltac:(intros; apply Hh; set_solver)).
  destruct (unlink p chain) as [[e' rest]|]; [|by constructor].
  destruct IH as (H1 & H2 & H3 & H4). split_and!; [done| |done|by apply sublist_skip].
  rewrite H2. apply Permutation_swap.
Qed.

Lemma assoc_app key l1 l2 :
  Forall (fun e => ef key (k e) = false) l1 -> assoc ef key (l1 ++ l2) = assoc ef key l2.
Proof. induction 1 as [|e l HE HF IH]; simpl; [done|]. by rewrite HE. Qed.

Lemma assoc_app_l key l1 l2 :
  Forall (fun e => ef key (k e) = false) l2 -> assoc ef key (l1 ++ l2) = assoc ef key l1.
Proof.
  intros HF. induction l1 as [|e l1 IH]; simpl; [by apply assoc_none|]. by rewrite IH.
Qed.

End laws.

(** ** Updating one chain *)

Lemma concat_insert (tab : list (list entry)) i c e rest :
  tab !! i = Some c -> c ≡ₚ e :: rest -> concat tab ≡ₚ e :: concat (<[i:=rest]> tab).
Proof.
  intros Hi HP. pose proof (lookup_lt_Some _ _ _ Hi).
  rewrite <- (take_drop_middle _ _ _ Hi) at 1. rewrite insert_take_drop by done.
  rewrite !concat_app. simpl. rewrite HP. simpl. by rewrite <- Permutation_middle.
Qed.

Lemma alter_insert (tab : list (list entry)) i c f :
  tab !! i = Some c -> alter f i tab = <[i := f c]> tab.
Proof.
  intros Hi. apply list_eq. intros j. destruct (decide (i = j)) as [<-|Hne].
  - rewrite list_lookup_alter, list_lookup_insert_eq by eauto using lookup_lt_Some.
    rewrite decide_True by done. by rewrite Hi.
  - rewrite list_lookup_alter_ne, list_lookup_insert_ne by done. done.
Qed.

Lemma length_push (tab : list (list entry)) i e : length (push_entry tab i e) = length tab.
Proof. apply length_alter. Qed.

Lemma lookup_push (tab : list (list entry)) i j e :
  0 <= i -> push_entry tab i e !! j
  = (if decide (Z.of_nat j = i) then (fun c => e :: c) <$> tab !! j else tab !! j).
Proof.
  intros Hi. unfold push_entry. case_decide as E.
  - subst i. rewrite Nat2Z.id, list_lookup_alter, decide_True by done. done.
  - rewrite list_lookup_alter_ne by lia. done.
Qed.

Lemma concat_push (tab : list (list entry)) i e :
  0 <= i < Z.of_nat (length tab) -> concat (push_entry tab i e) ≡ₚ e :: concat tab.
Proof.
  intros Hi. destruct (lookup_lt_is_Some_2 tab (Z.to_nat i)) as [c Hc]; [lia|].
  unfold push_entry. rewrite (alter_insert _ _ _ _ Hc).
  rewrite (concat_insert (<[Z.to_nat i:=e :: c]> tab) (Z.to_nat i) (e :: c) e c).
  - rewrite list_insert_insert_eq, list_insert_id; done.
  - apply list_lookup_insert_eq. lia.
  - done.
Qed.

Lemma indexFor_range n x : 0 < n -> 0 <= indexFor n x < n.
Proof. apply Z.mod_pos_bound. Qed.

(** ** Search *)

Section correct.
Variable t : switch_hashtable.
Context `{!KeyLaws (hashfn t) (eqfn t)}.
Hypothesis Hs : shaped t.

Lemma hash_eq a b : eqfn t a b = true -> hash t a = hash t b.
Proof. intros H. unfold hash. by rewrite (hashfn_eqfn a b H). Qed.

Lemma index_in key : 0 <= indexFor (tablelength t) (hash t key) < Z.of_nat (length (table t)).
Proof. rewrite (sh_len _ Hs). apply indexFor_range, Hs. Qed.

Lemma home_chain key :
  table t !! Z.to_nat (indexFor (tablelength t) (hash t key))
  = Some (chain_at t (indexFor (tablelength t) (hash t key))).
Proof.
  unfold chain_at.
  destruct (lookup_lt_is_Some_2 (table t) (Z.to_nat (indexFor (tablelength t) (hash t key)))) as [c Hc].
  { pose proof (index_in key). lia. }
  by rewrite Hc.
Qed.

(** An entry whose key equals [key] is in [key]'s chain and carries its hash. *)
Lemma match_home key i chain e :
  table t !! i = Some chain -> e ∈ chain -> eqfn t key (k e) = true ->
  h e = hash t key /\ Z.of_nat i = indexFor (tablelength t) (hash t key).
Proof.
  intros Hi He Heq. destruct (sh_placed _ Hs _ _ _ Hi He) as [Hh Hx].
  rewrite <- (hash_eq _ _ Heq) in Hh. by rewrite Hh in Hx.
Qed.

Lemma other_chains key i chain :
  table t !! i = Some chain -> Z.of_nat i <> indexFor (tablelength t) (hash t key) ->
  Forall (fun e => eqfn t key (k e) = false) chain.
Proof.
  intros Hi Hne. apply Forall_forall. intros e He.
  destruct (eqfn t key (k e)) eqn:E; [|done]. by destruct (match_home key i chain e Hi He E).
Qed.

Lemma assoc_home key :
  assoc (eqfn t) key (entries t)
  = assoc (eqfn t) key (chain_at t (indexFor (tablelength t) (hash t key))).
Proof.
  pose proof (home_chain key) as Hc. pose proof (index_in key) as Hin.
  set (i := indexFor _ _) in *. unfold entries.
  rewrite <- (take_drop_middle _ _ _ Hc) at 1. rewrite concat_app. simpl.
  rewrite assoc_app, assoc_app_l; [done|..];
    apply Forall_concat, Forall_lookup; intros j c Hj.
  - rewrite lookup_drop in Hj. eapply other_chains; [done|lia].
  - apply lookup_take_Some in Hj as [Hj ?]. eapply other_chains; [done|lia].
Qed.

Lemma home_hashes key e :
  e ∈ chain_at t (indexFor (tablelength t) (hash t key)) ->
  eqfn t key (k e) = true -> h e = hash t key.
Proof. intros He Heq. by destruct (match_home key _ _ e (home_chain key) He Heq). Qed.

Lemma search_assoc key : switch_hashtable_search t key = assoc (eqfn t) key (entries t).
Proof.
  rewrite assoc_home. unfold switch_hashtable_search, matches.
  pose proof (unlink_spec (ef := eqfn t) (hash t key) key _ (home_hashes key)) as H.
  destruct (unlink _ _) as [[e rest]|]; [symmetry; apply H|]. by rewrite assoc_none.
Qed.

Lemma no_match_iff key :
  unlink (matches t (hash t key) key) (chain_at t (indexFor (tablelength t) (hash t key))) = None ->
  Forall (fun e => eqfn t key (k e) = false) (entries t).
Proof.
  intros Hu. pose proof (unlink_spec (ef := eqfn t) (hash t key) key _ (home_hashes key)) as H.
  unfold matches in Hu. rewrite Hu in H.
  apply Forall_concat, Forall_lookup. intros j c Hj.
  destruct (decide (Z.of_nat j = indexFor (tablelength t) (hash t key))) as [E|E].
  - pose proof (home_chain key) as Hc. rewrite <- E in Hc, H. rewrite Nat2Z.id, Hj in Hc. by injection Hc as ->.
  - by eapply other_chains.
Qed.

(** Shrinking one chain keeps the shape. *)
Lemma shaped_shrink i chain e rest n :
  table t !! i = Some chain -> chain ≡ₚ e :: rest -> sublist rest chain ->
  shaped (t <| table := <[i := rest]> (table t) |> <| entrycount := n |>)
  /\ entries t ≡ₚ e :: entries (t <| table := <[i := rest]> (table t) |> <| entrycount := n |>).
Proof.
  intros Hi HP HS. pose proof (concat_insert _ _ _ _ _ Hi HP) as HC.
  split; [|exact HC]. destruct Hs as [S1 S2 S3 S4 S5 S6]. constructor; simpl; try done.
  - by rewrite length_insert.
  - intros j c e' Hj He'. simpl in Hj. destruct (decide (i = j)) as [<-|Hne].
    + rewrite list_lookup_insert_eq in Hj by eauto using lookup_lt_Some. simplify_eq.
      apply (S5 i chain e' Hi). by eapply sublist_subseteq.
    + rewrite list_lookup_insert_ne in Hj by done. by apply (S5 j c e').
  - assert (distinct (eqfn t) (e :: concat (<[i:=rest]> (table t)))) as [_ HD]; [|exact HD].
    by eapply distinct_perm; [exact HC|].
Qed.

Lemma remove_spec key :
  let '(val, log, t') := switch_hashtable_remove t key in
  (Forall (fun e => eqfn t key (k e) = false) (entries t) /\ t' = t /\ val = None /\ log = [])
  \/ (exists e, eqfn t key (k e) = true /\ entries t ≡ₚ e :: entries t' /\ shaped t'
        /\ release e = (log, val) /\ entrycount t' = u32 (entrycount t - 1)
        /\ hashfn t' = hashfn t /\ eqfn t' = eqfn t /\ loadlimit t' = loadlimit t
        /\ tablelength t' = tablelength t).
Proof.
  unfold switch_hashtable_remove, switch_hashtable_remove_.
  pose proof (no_match_iff key) as Hn.
  pose proof (unlink_spec (ef := eqfn t) (hash t key) key _ (home_hashes key)) as H.
  unfold matches in *. destruct (unlink _ _) as [[e rest]|]; [|by left; auto].
  destruct H as (H1 & H2 & _ & H4). destruct (release e) as [log val] eqn:Er.
  destruct (shaped_shrink _ _ e rest (u32 (entrycount t - 1)) (home_chain key) H2 H4) as [HS HE].
  right. exists e. by split_and!.
Qed.

End correct.

(** ** Expansion *)

Definition indexed (n : Z) (tab : list (list entry)) : Prop :=
  forall j c e, tab !! j = Some c -> e ∈ c -> Z.of_nat j = indexFor n (h e).

Lemma push_indexed n tab e :
  0 < n -> indexed n tab -> indexed n (push_entry tab (indexFor n (h e)) e).
Proof.
  intros Hn Hi j c e' Hj He'. rewrite lookup_push in Hj by (apply indexFor_range; lia).
  case_decide as E; [|by eapply Hi].
  apply fmap_Some in Hj as (c0 & Hc0 & ->). apply elem_of_cons in He' as [->|He']; [done|].
  by eapply Hi.
Qed.

Lemma move_chain_spec n tab chain :
  0 < n -> Z.of_nat (length tab) = n -> indexed n tab ->
  Z.of_nat (length (move_chain n tab chain)) = n /\ indexed n (move_chain n tab chain)
  /\ concat (move_chain n tab chain) ≡ₚ chain ++ concat tab.
Proof.
  intros Hn. revert tab. unfold move_chain. induction chain as [|e chain IH]; intros tab Hl Hi; simpl; [done|].
  destruct (IH (push_entry tab (indexFor n (h e)) e)) as (H1 & H2 & H3);
    [by rewrite length_push|by apply push_indexed|].
  split_and!; [done|done|]. rewrite H3, concat_push by (rewrite Hl; by apply indexFor_range).
  by rewrite <- Permutation_middle.
Qed.

Lemma move_chains_spec n tab old :
  0 < n -> Z.of_nat (length tab) = n -> indexed n tab ->
  Z.of_nat (length (move_chains n tab old)) = n /\ indexed n (move_chains n tab old)
  /\ concat (move_chains n tab old) ≡ₚ concat old ++ concat tab.
Proof.
  intros Hn. revert tab. unfold move_chains. induction old as [|c old IH]; intros tab Hl Hi; simpl; [done|].
  destruct (move_chain_spec n tab c Hn Hl Hi) as (H1 & H2 & H3).
  destruct (IH (move_chain n tab c) H1 H2) as (H4 & H5 & H6).
  split_and!; [done|done|]. rewrite H6, H3, (Permutation_app_comm c). rewrite <- app_assoc.
  rewrite (Permutation_app_comm (concat tab)). rewrite !app_assoc.
  by rewrite (Permutation_app_comm (concat old) c).
Qed.

Lemma concat_replicate_nil n : concat (replicate n (@nil entry)) = [].
Proof. by induction n. Qed.

Lemma primes_pos : Forall (fun p => 0 < p) primes.
Proof. repeat constructor; lia. Qed.

Lemma next_prime i p :
  0 <= i -> primes !! Z.to_nat i = Some p -> i <> prime_table_length - 1 ->
  exists q, primes !! Z.to_nat (i + 1) = Some q /\ 0 < q.
Proof.
  intros Hi Hp Hne. apply lookup_lt_Some in Hp. unfold prime_table_length in Hne.
  destruct (lookup_lt_is_Some_2 primes (Z.to_nat (i + 1))) as [q Hq]; [lia|].
  exists q. split; [done|]. pose proof primes_pos as HF. rewrite Forall_lookup in HF. eauto.
Qed.

Lemma expand_spec mok rok t `{!KeyLaws (hashfn t) (eqfn t)} r t' :
  shaped t -> hashtable_expand mok rok t = Some (r, t') ->
  shaped t' /\ entries t' ≡ₚ entries t /\ entrycount t' = entrycount t
  /\ hashfn t' = hashfn t /\ eqfn t' = eqfn t
  /\ (r = -1 -> primeindex t' = primeindex t + 1) /\ (r <> -1 -> t' = t).
Proof.
  intros Hs. pose proof Hs as [S1 S2 [S3 S3'] S4 S5 S6]. unfold hashtable_expand.
  destruct (Z.eqb_spec (primeindex t) (prime_table_length - 1)) as [E|E]; [by intros [= <- <-]|].
  destruct (next_prime _ _ S3 S3' E) as (q & Hq & Hpos). cbv zeta.
  change (primeindex (t <| primeindex := primeindex t + 1 |>)) with (primeindex t + 1).
  rewrite Hq. cbn [default]. destruct mok; [|destruct rok; [done|]].
  2: { intros [= <- <-]. replace (primeindex t + 1 - 1) with (primeindex t) by lia.
       replace (_ <| primeindex := primeindex t |>) with t by (by destruct t). done. }
  intros [= <- <-].
  destruct (move_chains_spec q (replicate (Z.to_nat q) []) (table t)) as (H1 & H2 & H3).
  { done. } { rewrite length_replicate. lia. }
  { intros j c e Hj He. apply lookup_replicate in Hj as [-> _]. by apply elem_of_nil in He. }
  rewrite concat_replicate_nil, app_nil_r in H3.
  split_and!; try done. constructor; simpl; try done.
  - split; [lia|done].
  - intros j c e Hj He. simpl in *. split; [|by eapply H2].
    assert (e ∈ entries t) as Hin.
    { unfold entries. rewrite <- H3. apply elem_of_concat. eauto using list_elem_of_lookup_2. }
    apply elem_of_concat in Hin as (c0 & He0 & Hc0).
    apply list_elem_of_lookup in Hc0 as [j0 Hj0]. by destruct (S5 _ _ _ Hj0 He0).
  - by eapply distinct_perm; [symmetry; exact H3|].
Qed.

(** ** Insertion *)

Lemma shaped_push t `{!KeyLaws (hashfn t) (eqfn t)} e :
  shaped t -> h e = hash t (k e) -> Forall (fun e' => eqfn t (k e) (k e') = false) (entries t) ->
  let t' := t <| table := push_entry (table t) (indexFor (tablelength t) (h e)) e |> in
  shaped t' /\ entries t' ≡ₚ e :: entries t.
Proof.
  intros [S1 S2 S3 S4 S5 S6] He HF t'.
  assert (0 <= indexFor (tablelength t) (h e) < Z.of_nat (length (table t))) as Hi
    by (rewrite S1; by apply indexFor_range).
  assert (entries t' ≡ₚ e :: entries t) as HP by (by apply concat_push).
  split; [|done]. constructor; simpl; try done.
  - by rewrite length_push.
  - intros j c e' Hj He'. simpl in Hj. rewrite lookup_push in Hj by lia.
    case_decide as E; [|by eapply S5].
    apply fmap_Some in Hj as (c0 & Hc0 & ->). apply elem_of_cons in He' as [->|He']; [done|].
    by eapply S5.
  - eapply distinct_perm; [by symmetry|]. by split.
Qed.

(** The rest of an insertion, once no entry with an equal key is in the table. *)
Definition insert_fresh (mem : memory) (t : switch_hashtable) (hashvalue : Z) (e : entry)
  : option (Z * switch_hashtable) :=
  let t := t <| entrycount := u32 (entrycount t + 1) |> in
  match (if entrycount t >? loadlimit t
         then match hashtable_expand (mem_table mem) (mem_realloc mem) t with
              | Some (_, t) => Some (t, indexFor (tablelength t) hashvalue)
              | None => None
              end
         else Some (t, indexFor (tablelength t) hashvalue)) with
  | None => None
  | Some (t, index) =>
      if negb (mem_entry mem) then Some (0, t <| entrycount := u32 (entrycount t - 1) |>)
      else Some (-1, t <| table := push_entry (table t) index e |>)
  end.

Lemma shaped_count t n : shaped t -> shaped (t <| entrycount := n |>).
Proof. intros []. by constructor. Qed.

(** The table after the possible expansion of an insertion. *)
Lemma expanded_spec mem t `{!KeyLaws (hashfn t) (eqfn t)} hv t' index :
  shaped t ->
  (if entrycount t >? loadlimit t
   then match hashtable_expand (mem_table mem) (mem_realloc mem) t with
        | Some (_, t) => Some (t, indexFor (tablelength t) hv)
        | None => None
        end
   else Some (t, indexFor (tablelength t) hv)) = Some (t', index) ->
  shaped t' /\ entries t' ≡ₚ entries t /\ entrycount t' = entrycount t
  /\ hashfn t' = hashfn t /\ eqfn t' = eqfn t /\ index = indexFor (tablelength t') hv.
Proof.
  intros Hs. destruct (entrycount t >? loadlimit t); [|by intros [= <- <-]].
  destruct (hashtable_expand _ _ t) as [[r t1]|] eqn:E; [|done]. intros [= <- <-].
  apply expand_spec in E as (H1 & H2 & H3 & H4 & H5 & _); [by split_and!|done..].
Qed.

Lemma insert_fresh_spec mem t `{!KeyLaws (hashfn t) (eqfn t)} e r t' :
  shaped t -> h e = hash t (k e) -> Forall (fun e' => eqfn t (k e) (k e') = false) (entries t) ->
  insert_fresh mem t (hash t (k e)) e = Some (r, t') ->
  shaped t' /\ hashfn t' = hashfn t /\ eqfn t' = eqfn t
  /\ ((r = -1 /\ mem_entry mem = true /\ entries t' ≡ₚ e :: entries t
        /\ entrycount t' = u32 (entrycount t + 1))
      \/ (r = 0 /\ mem_entry mem = false /\ entries t' ≡ₚ entries t
        /\ entrycount t' = u32 (u32 (entrycount t + 1) - 1))).
Proof.
  intros Hs He HF. unfold insert_fresh. cbv zeta.
  set (t1 := t <| entrycount := u32 (entrycount t + 1) |>).
  destruct (if entrycount t1 >? loadlimit t1 then _ else _) as [[t2 index]|] eqn:E; [|done].
  destruct (expanded_spec mem t1 _ _ _ (shaped_count t _ Hs) E) as (S2 & P2 & C2 & F2 & Q2 & ->).
  destruct (mem_entry mem); simpl; intros [= <- <-].
  - assert (KeyLaws (hashfn t2) (eqfn t2)) by (by rewrite F2, Q2).
    assert (h e = hash t2 (k e)) as He2 by (rewrite He; unfold hash; by rewrite F2).
    rewrite <- He. destruct (shaped_push t2 e S2 He2) as [S3 P3].
    { rewrite Q2, P2. exact HF. }
    split_and!; [done|done|done|left]. split_and!; [done|done|by rewrite P3, P2|done].
  - split_and!; [by apply shaped_count|done|done|right]. split_and!; [done|done|done|].
    simpl. by rewrite C2.
Qed.

(** Removing, then going on: insertion with the duplicate check. *)
Lemma insert_is_fresh mem t key val fl d :
  test_flag fl HASHTABLE_DUP_CHECK = true ->
  switch_hashtable_insert_destructor mem t key val fl d =
  let '(_, log, t1) := switch_hashtable_remove t key in
  match insert_fresh mem t1 (hash t key) (mk_entry key val (hash t key) fl d) with
  | Some (r, t2) => Some (r, log, t2)
  | None => None
  end.
Proof.
  intros Hf. unfold switch_hashtable_insert_destructor, switch_hashtable_remove. rewrite Hf.
  assert (tablelength (switch_hashtable_remove_ t key (hash t key)
            (indexFor (tablelength t) (hash t key))).2 = tablelength t) as Hl.
  { unfold switch_hashtable_remove_. destruct (unlink _ _) as [[e rest]|]; [|done].
    by destruct (release e). }
  destruct (switch_hashtable_remove_ _ _ _ _) as [[w log] t1]. simpl in Hl.
  unfold insert_fresh. cbv zeta. simpl. rewrite Hl.
  destruct (if _ >? _ then _ else _) as [[t2 index]|]; [|done]. by destruct (mem_entry mem).
Qed.

(** The table after the removal, whichever way it went. *)
Lemma remove_absent t `{!KeyLaws (hashfn t) (eqfn t)} key val log t1 :
  shaped t -> switch_hashtable_remove t key = (val, log, t1) ->
  shaped t1 /\ hashfn t1 = hashfn t /\ eqfn t1 = eqfn t
  /\ Forall (fun e => eqfn t key (k e) = false) (entries t1)
  /\ (forall key', eqfn t key key' = false ->
        assoc (eqfn t) key' (entries t1) = assoc (eqfn t) key' (entries t))
  /\ (entrycount t = Z.of_nat (length (entries t)) /\ entrycount t < 2 ^ 32 ->
        entrycount t1 = Z.of_nat (length (entries t1)) /\ entrycount t1 <= entrycount t).
Proof.
  intros Hs E. pose proof (remove_spec t Hs key) as H. rewrite E in H.
  destruct H as [(HF & -> & _)|(e & He & HP & S1 & _ & HC & HF & HQ & _)]; [split_and!; [done..|lia]|].
  pose proof (sh_distinct _ Hs) as HD.
  assert (distinct (eqfn t) (e :: entries t1)) as [HDe _] by (by eapply distinct_perm).
  split_and!; try done.
  - eapply Forall_impl; [exact HDe|]. simpl. intros e' He'.
    destruct (eqfn t key (k e')) eqn:E'; [|done].
    rewrite eqfn_sym in He. by rewrite (eqfn_trans _ _ _ He E') in He'.
  - intros key' Hne. rewrite (assoc_perm (ef := eqfn t) key' _ _ HP HD). simpl.
    destruct (eqfn t key' (k e)) eqn:E'; [|done].
    rewrite (eqfn_sym key') in E'. by rewrite (eqfn_trans _ _ _ He E') in Hne.
  - intros Hc. rewrite HC. apply Permutation_length in HP. simpl in HP. rewrite u32_small; lia.
Qed.

(** ** Iteration *)

(** The entries visited by [for (i = first(t); i; i = next(&i))]. *)
Fixpoint walk (t : switch_hashtable) (fuel : nat) (it : option iterator) : list entry :=
  match fuel, it with
  | S fuel, Some i =>
      match rest_e i with
      | e :: _ => e :: walk t fuel (switch_hashtable_next t i)
      | [] => []
      end
  | _, _ => []
  end.

Definition scan (t : switch_hashtable) (p : Z) : option iterator :=
  let p := skip_empty t (Z.to_nat (tablelength t - p)) p in
  if p >=? tablelength t then None
  else match chain_at t p with [] => None | c => Some (mk_iter p c) end.

Section iterate.
Variable t : switch_hashtable.
Hypothesis Hlen : Z.of_nat (length (table t)) = tablelength t.

Lemma drop_chain p :
  0 <= p < tablelength t ->
  drop (Z.to_nat p) (table t) = chain_at t p :: drop (Z.to_nat (p + 1)) (table t).
Proof.
  intros Hp. unfold chain_at.
  destruct (lookup_lt_is_Some_2 (table t) (Z.to_nat p)) as [c Hc]; [lia|]. rewrite Hc. simpl.
  rewrite (drop_S _ _ _ Hc). do 2 f_equal. lia.
Qed.

Lemma skip_empty_spec fuel p :
  0 <= p -> tablelength t - p <= Z.of_nat fuel ->
  let p' := skip_empty t fuel p in
  p <= p' /\ concat (drop (Z.to_nat p') (table t)) = concat (drop (Z.to_nat p) (table t))
  /\ (p' < tablelength t -> chain_at t p' <> []).
Proof.
  revert p. induction fuel as [|fuel IH]; intros p Hp Hf; simpl; [split_and!; [done|done|lia]|].
  destruct (Z.ltb_spec p (tablelength t)) as [Hlt|Hge]; simpl; [|split_and!; [done|done|lia]].
  case_bool_decide as E; [|split_and!; [done|done|auto]].
  destruct (IH (p + 1)) as (H1 & H2 & H3); [lia|lia|].
  split_and!; [lia| |done]. rewrite H2, (drop_chain p), E by lia. done.
Qed.

Lemma scan_spec p :
  0 <= p ->
  match scan t p with
  | None => concat (drop (Z.to_nat p) (table t)) = []
  | Some i => rest_e i <> [] /\ 0 <= pos i
      /\ concat (drop (Z.to_nat p) (table t)) = rest_e i ++ concat (drop (Z.to_nat (pos i + 1)) (table t))
  end.
Proof.
  intros Hp. unfold scan.
  destruct (skip_empty_spec (Z.to_nat (tablelength t - p)) p) as (H1 & H2 & H3); [done|lia|].
  set (q := skip_empty _ _ _) in *. cbv zeta. rewrite Z.geb_leb.
  destruct (Z.leb_spec (tablelength t) q) as [Hge|Hlt].
  - rewrite <- H2, drop_ge by lia. done.
  - specialize (H3 Hlt). rewrite (drop_chain q) in H2 by lia.
    destruct (chain_at t q) as [|e c]; [done|]. simpl in *. by split_and!; [..|lia|].
Qed.

Lemma next_scan i :
  switch_hashtable_next t i =
  match rest_e i with
  | [] => scan t (pos i)
  | [_] => scan t (pos i + 1)
  | _ :: next => Some (mk_iter (pos i) next)
  end.
Proof. done. Qed.

Lemma walk_spec fuel it rest :
  match it with
  | None => rest = []
  | Some i => rest_e i <> [] /\ 0 <= pos i
      /\ rest = rest_e i ++ concat (drop (Z.to_nat (pos i + 1)) (table t))
  end ->
  (length rest < fuel)%nat -> walk t fuel it = rest.
Proof.
  revert it rest. induction fuel as [|fuel IH]; intros it rest Hi Hf; [lia|]. simpl.
  destruct it as [i|]; [|done]. destruct Hi as (Hne & Hp & ->).
  destruct (rest_e i) as [|e c] eqn:Ec; [done|]. simpl. f_equal. rewrite next_scan, Ec.
  apply IH; [|simpl in Hf; lia]. destruct c as [|e' c].
  - pose proof (scan_spec (pos i + 1) ltac:(lia)) as H. simpl.
    destruct (scan t (pos i + 1)); [|done]. done.
  - by split_and!.
Qed.

Lemma walk_entries fuel :
  (length (entries t) < fuel)%nat -> walk t fuel (switch_hashtable_first_iter t) = entries t.
Proof.
  intros Hf. apply walk_spec; [|done].
  pose proof (scan_spec 0 ltac:(lia)) as H. rewrite drop_0 in H.
  unfold switch_hashtable_first_iter. rewrite next_scan. simpl. by destruct (scan t 0).
Qed.

End iterate.

End table.
Arguments entry : clear implicits.
Arguments switch_hashtable : clear implicits.
Arguments freed : clear implicits.
Arguments iterator : clear implicits.

(** ** Key functions of switch_hashtable.h *)

Definition switch_hash_default_int (ky : Z) : Z :=
  let x := u32 ky in
  let x := u32 (Z.lxor (Z.shiftr x 16) x * 0x45d9f3b) in
  let x := u32 (Z.lxor (Z.shiftr x 16) x * 0x45d9f3b) in
  Z.lxor (Z.shiftr x 16) x.

Definition switch_hash_equalkeys_int (k1 k2 : Z) : bool := u32 k1 =? u32 k2.

(** A C string in memory is a list of cells read as [unsigned char]; it ends at
    the first NUL. *)
Fixpoint cstr (s : list Z) : list Z :=
  match s with
  | [] => []
  | c :: s => let c := u8 c in if c =? 0 then [] else c :: cstr s
  end.

(** [tolower] of the C locale, as strcasecmp applies it. *)
Definition tolower (c : Z) : Z := if (65 <=? c) && (c <=? 90) then c + 32 else c.

(** switch_utils.h: four characters at a time. *)
Definition switch_tolower (eax : Z) : Z :=
  let ebx := u32 (Z.land 0x7f7f7f7f eax + 0x25252525) in
  let ebx := u32 (Z.land 0x7f7f7f7f ebx + 0x1a1a1a1a) in
  let ebx := Z.land (Z.shiftr (Z.land ebx (2 ^ 32 - 1 - eax)) 2) 0x20202020 in
  u32 (eax + ebx).

Definition switch_hash_equalkeys (k1 k2 : list Z) : bool := bool_decide (cstr k1 = cstr k2).
Definition switch_hash_equalkeys_ci (k1 k2 : list Z) : bool :=
  bool_decide (map tolower (cstr k1) = map tolower (cstr k2)).

Definition sdbm (hash c : Z) : Z := u32 (c + Z.shiftl hash 6 + Z.shiftl hash 16 - hash).

Fixpoint hash_loop (f : Z -> Z) (hash : Z) (str : list Z) : Z :=
  match str with
  | [] => hash
  | c :: str => let c := f (u8 c) in if c =? 0 then hash else hash_loop f (sdbm hash c) str
  end.
Definition switch_hash_default (ky : list Z) : Z := hash_loop (fun c => c) 0 ky.
Definition switch_hash_default_ci (ky : list Z) : Z := hash_loop switch_tolower 0 ky.

#[export] Instance int_key_laws : KeyLaws switch_hash_default_int switch_hash_equalkeys_int.
Proof.
  unfold switch_hash_equalkeys_int, switch_hash_default_int.
  constructor; intros; rewrite ?Z.eqb_eq in *; try congruence.
  apply Z.eqb_sym.
Qed.

Lemma u8_idem c : u8 (u8 c) = u8 c.
Proof. apply Z.mod_small, u8_range. Qed.

Lemma hash_loop_cstr f hash s : f 0 = 0 -> hash_loop f hash s = hash_loop f hash (cstr s).
Proof.
  intros Hf. revert hash. induction s as [|c s IH]; intros hash; simpl; [done|].
  destruct (Z.eqb_spec (u8 c) 0) as [->|Hc]; simpl; [by rewrite Hf|]. rewrite u8_idem.
  destruct (f (u8 c) =? 0); [done|apply IH].
Qed.

#[export] Instance string_key_laws : KeyLaws switch_hash_default switch_hash_equalkeys.
Proof.
  unfold switch_hash_equalkeys. constructor; intros; rewrite ?bool_decide_eq_true in *; try congruence.
  - apply bool_decide_ext. by split.
  - unfold switch_hash_default. rewrite (hash_loop_cstr _ _ a), (hash_loop_cstr _ _ b) by done. congruence.
Qed.

(** On one byte the four-at-a-time conversion is the C locale's. *)
Lemma switch_tolower_byte c : switch_tolower (u8 c) = tolower (u8 c).
Proof.
  assert (Forall (fun c => switch_tolower c = tolower c) (seqZ 0 256)) as HF.
  { apply (bool_decide_unpack _). vm_compute. exact I. }
  rewrite Forall_forall in HF. apply HF, elem_of_seqZ. pose proof (u8_range c). lia.
Qed.

Lemma tolower_byte c : u8 (tolower (u8 c)) = tolower (u8 c) /\ (tolower (u8 c) = 0 <-> u8 c = 0).
Proof.
  pose proof (u8_range c). unfold tolower.
  destruct (Z.leb_spec 65 (u8 c)), (Z.leb_spec (u8 c) 90); simpl; rewrite ?u8_idem; try lia.
  split; [|lia]. apply Z.mod_small. lia.
Qed.

Lemma hash_loop_ci hash s :
  hash_loop switch_tolower hash s = hash_loop (fun c => c) hash (map tolower (cstr s)).
Proof.
  revert hash. induction s as [|c s IH]; intros hash; simpl; [done|].
  rewrite switch_tolower_byte. destruct (tolower_byte c) as [Hb Hz].
  destruct (Z.eqb_spec (u8 c) 0) as [E|E].
  - rewrite (proj2 Hz E). done.
  - simpl. rewrite Hb. destruct (Z.eqb_spec (tolower (u8 c)) 0); [naive_solver|apply IH].
Qed.

#[export] Instance string_ci_key_laws : KeyLaws switch_hash_default_ci switch_hash_equalkeys_ci.
Proof.
  unfold switch_hash_equalkeys_ci. constructor; intros; rewrite ?bool_decide_eq_true in *; try congruence.
  - apply bool_decide_ext. by split.
  - unfold switch_hash_default_ci. rewrite !hash_loop_ci. congruence.
Qed.

Lemma insert_correct {K V} (t : switch_hashtable K V) `{!KeyLaws (hashfn t) (eqfn t)}
    mem key val fl d r log t' :
  wf t -> entrycount t < 2 ^ 32 - 2 -> test_flag fl HASHTABLE_DUP_CHECK = true ->
  switch_hashtable_insert_destructor mem t key val fl d = Some (r, log, t') ->
  wf t' /\ hashfn t' = hashfn t /\ eqfn t' = eqfn t /\ (r = -1 <-> mem_entry mem = true)
  /\ forall key', switch_hashtable_search t' key'
       = if eqfn t key key' then (if mem_entry mem then val else None)
         else switch_hashtable_search t key'.
Proof.
  intros [Hs Hc Hw] Hroom Hf. rewrite insert_is_fresh by done.
  destruct (switch_hashtable_remove t key) as [[w log1] t1] eqn:E1.
  destruct (remove_absent t key _ _ _ Hs E1) as (S1 & F1 & Q1 & HF & HA & HC).
  specialize (HC ltac:(lia)).
  assert (KeyLaws (hashfn t1) (eqfn t1)) by (by rewrite F1, Q1).
  assert (hash t key = hash t1 key) as Hh by (unfold hash; by rewrite F1).
  set (e := mk_entry key val (hash t key) fl d).
  destruct (insert_fresh mem t1 (hash t key) e) as [[r2 t2]|] eqn:E2; [|done]. intros [= <- <- <-].
  rewrite Hh in E2. rewrite <- Q1 in HF.
  destruct (insert_fresh_spec mem t1 e r2 t2 S1 Hh HF E2) as (S2 & F2 & Q2 & HR). rewrite Q1 in HF.
  assert (KeyLaws (hashfn t2) (eqfn t2)) by (by rewrite F2, F1, Q2, Q1).
  assert (forall key', switch_hashtable_search t2 key' = assoc (eqfn t) key' (entries t2)) as HS2.
  { intros. rewrite search_assoc by done. by rewrite Q2, Q1. }
  assert (distinct (eqfn t) (entries t2)) as HD2 by (rewrite <- Q1, <- Q2; apply S2).
  destruct HR as [(-> & -> & P2 & C2)|(-> & -> & P2 & C2)];
    pose proof (Permutation_length P2) as L2; simpl in L2.
  - split; [constructor; [done|rewrite C2, u32_small; lia|rewrite C2, u32_small; lia]|].
    split_and!; [congruence|congruence|done|]. intros key'. rewrite HS2, (assoc_perm key' _ _ P2 HD2), search_assoc by done.
    simpl. rewrite eqfn_sym. destruct (eqfn t key key') eqn:E; [done|]. by apply HA.
  - rewrite (u32_small (entrycount t1 + 1)), u32_small in C2 by lia.
    split; [constructor; [done|lia|lia]|].
    split_and!; [congruence|congruence|done|]. intros key'. rewrite HS2, (assoc_perm key' _ _ P2 HD2), search_assoc by done.
    destruct (eqfn t key key') eqn:E; [|by apply HA]. apply assoc_none.
    eapply Forall_impl; [exact HF|]. intros e' He'. by eapply eqfn_diff.
Qed.

Definition demo_table : switch_hashtable Z Z :=
  mk_hashtable 53 (replicate 53 []) 0 (loadlimit_of 53) 0 switch_hash_default_int switch_hash_equalkeys_int.

Lemma replicate_placed {K V} n hf ef (t : switch_hashtable K V) :
  table t = replicate n [] -> hashfn t = hf -> eqfn t = ef -> placed t.
Proof.
  intros Ht _ _ i chain e Hi He. rewrite Ht in Hi. apply lookup_replicate in Hi as [-> _].
  by apply elem_of_nil in He.
Qed.

Lemma demo_wf : wf demo_table.
Proof.
  constructor; [constructor|reflexivity|simpl; lia]; try reflexivity; try (simpl; lia).
  - split; [simpl; lia|reflexivity].
  - by eapply (replicate_placed 53).
Qed.

(** An insertion is defined unless the expansion takes its second branch. *)
Lemma insert_defined {K V} (t : switch_hashtable K V) mem key val fl d :
  mem_table mem = true \/ mem_realloc mem = false ->
  exists r log t', switch_hashtable_insert_destructor mem t key val fl d = Some (r, log, t').
Proof.
  intros Hm. unfold switch_hashtable_insert_destructor. cbv zeta.
  destruct (if test_flag fl _ then _ else _) as [log t1].
  set (t2 := t1 <| entrycount := _ |>).
  assert (exists r t3, hashtable_expand (mem_table mem) (mem_realloc mem) t2 = Some (r, t3)) as (r & t3 & ->).
  { unfold hashtable_expand. case_match; [by eauto|]. cbv zeta.
    destruct (mem_table mem); [by eauto|]. destruct Hm as [?|Hm]; [done|]. rewrite Hm. eauto. }
  destruct (entrycount t2 >? loadlimit t2); destruct (mem_entry mem); simpl; eauto.
Qed.

(** ** Properties *)

(** C3. Insertion with the duplicate check (as every wrapper of
    switch_core_hash.c uses it), on every allocation outcome that is defined:
    the table invariant is kept, and afterwards the table maps the key to the
    new value and every key that differs from it to what it had before.  When
    the entry cannot be allocated, -1 is not returned and the key is unbound:
    its previous binding has already been removed. *)
Theorem insert_updates {K V} (t : switch_hashtable K V) `{!KeyLaws (hashfn t) (eqfn t)}
    mem key val fl d r log t' :
  wf t -> entrycount t < 2 ^ 32 - 2 -> test_flag fl HASHTABLE_DUP_CHECK = true ->
  switch_hashtable_insert_destructor mem t key val fl d = Some (r, log, t') ->
  wf t' /\ (r = -1 <-> mem_entry mem = true)
  /\ forall key', switch_hashtable_search t' key'
       = if eqfn t key key' then (if mem_entry mem then val else None)
         else switch_hashtable_search t key'.
Proof.
  intros Hw Hr Hf E. by destruct (insert_correct t mem key val fl d r log t' Hw Hr Hf E) as (? & _ & _ & ? & ?).
Qed.

Lemma insert_updates_witness :
  exists r log t',
    switch_hashtable_insert_destructor mem_ok demo_table 77 (Some 5) HASHTABLE_DUP_CHECK None
      = Some (r, log, t')
    /\ switch_hashtable_search t' 77 = Some 5 /\ switch_hashtable_search t' 78 = None.
Proof.
  destruct (insert_defined demo_table mem_ok 77 (Some 5) HASHTABLE_DUP_CHECK None) as (r & log & t' & E);
    [left; reflexivity|].
  exists r, log, t'. split; [exact E|].
  destruct (insert_updates demo_table mem_ok 77 (Some 5) HASHTABLE_DUP_CHECK None r log t'
    demo_wf) as (_ & _ & H); [simpl; lia|reflexivity|exact E|].
  split; [rewrite (H 77)|rewrite (H 78)]; vm_compute; reflexivity.
Defined.

(** Removal unbinds exactly the given key (every other key keeps its value),
    keeps the invariant, and returns the value the key had, or NULL when the
    table owned that value and has freed or destroyed it. *)
Theorem remove_unbinds {K V} (t : switch_hashtable K V) `{!KeyLaws (hashfn t) (eqfn t)} key val log t' :
  wf t -> switch_hashtable_remove t key = (val, log, t') ->
  wf t' /\ (val = switch_hashtable_search t key \/ val = None)
  /\ (log = [] -> val = switch_hashtable_search t key)
  /\ forall key', switch_hashtable_search t' key'
       = if eqfn t key key' then None else switch_hashtable_search t key'.
Proof.
  intros [Hs Hc Hw] E. destruct (remove_absent t key _ _ _ Hs E) as (S1 & F1 & Q1 & HF & HA & HC).
  specialize (HC ltac:(lia)). assert (KeyLaws (hashfn t') (eqfn t')) by (by rewrite F1, Q1).
  split; [constructor; [done|lia|lia]|].
  assert (forall key', switch_hashtable_search t' key'
       = if eqfn t key key' then None else switch_hashtable_search t key') as HS.
  { intros key'. rewrite !search_assoc, Q1 by done. destruct (eqfn t key key') eqn:Ek; [|by apply HA].
    apply assoc_none. eapply Forall_impl; [exact HF|]. simpl. intros e' He'. by eapply eqfn_diff. }
  pose proof (remove_spec t Hs key) as H1. rewrite E in H1. rewrite (search_assoc t Hs).
  pose proof (sh_distinct _ Hs) as HD.
  destruct H1 as [(HN & -> & -> & ->)|(e & He & HP & _ & HR & _)].
  - rewrite assoc_none by done. split_and!; [by left|done|exact HS].
  - rewrite (assoc_perm (ef := eqfn t) key _ _ HP HD). simpl. rewrite He.
    unfold release in HR. repeat case_match; injection HR as <- <-; split_and!; auto; try done;
      intros Hl; destruct (app_nil_inv _ _ Hl); try done.
Qed.

Lemma remove_unbinds_witness :
  exists r log t' val log2 t2,
    switch_hashtable_insert_destructor mem_ok demo_table 77 (Some 5) HASHTABLE_DUP_CHECK None
      = Some (r, log, t')
    /\ switch_hashtable_remove t' 77 = (val, log2, t2)
    /\ switch_hashtable_search t' 77 = Some 5 /\ switch_hashtable_search t2 77 = None.
Proof.
  destruct (insert_defined demo_table mem_ok 77 (Some 5) HASHTABLE_DUP_CHECK None) as (r & log & t' & E);
    [left; reflexivity|].
  destruct (insert_correct demo_table mem_ok 77 (Some 5) HASHTABLE_DUP_CHECK None r log t'
    demo_wf) as (W & F & Q & _ & H); [simpl; lia|reflexivity|exact E|].
  destruct (switch_hashtable_remove t' 77) as [[val log2] t2] eqn:E2.
  exists r, log, t', val, log2, t2.
  assert (KeyLaws (hashfn t') (eqfn t')) as HK by (rewrite F, Q; exact int_key_laws).
  destruct (remove_unbinds t' 77 val log2 t2 W E2) as (_ & _ & _ & H2).
  split; [exact E|]. split; [exact E2|]. split; [rewrite (H 77); vm_compute; reflexivity|].
  rewrite (H2 77), Q. reflexivity.
Defined.

(** ** Ownership of keys *)

Section ownership.
Context {K V : Type}.

Inductive op :=
  | Insert (mem : memory) (key : K) (val : option V) (fl : Z) (d : option nat)
  | Remove (key : K).

(** The table's operations in sequence, with everything they free. *)
Fixpoint run (ops : list op) (t : switch_hashtable K V) : option (list (freed K V) * switch_hashtable K V) :=
  match ops with
  | [] => Some ([], t)
  | Insert mem key val fl d :: ops =>
      match switch_hashtable_insert_destructor mem t key val fl d with
      | Some (_, log, t) =>
          match run ops t with Some (log', t) => Some (log ++ log', t) | None => None end
      | None => None
      end
  | Remove key :: ops =>
      let '(_, log, t) := switch_hashtable_remove t key in
      match run ops t with Some (log', t) => Some (log ++ log', t) | None => None end
  end.

Definition freed_keys (log : list (freed K V)) : list K :=
  flat_map (fun f => match f with FreedKey key => [key] | _ => [] end) log.

(** The keys the table has to free. *)
Definition owned_key (fl : Z) (key : K) : list K :=
  if test_flag fl HASHTABLE_FLAG_FREE_KEY then [key] else [].
Definition owned (l : list (entry K V)) : list K := flat_map (fun e => owned_key (flags e) (k e)) l.

(** The keys handed over by the insertions that succeed. *)
Definition handed (ops : list op) : list K :=
  flat_map (fun o => match o with
                     | Insert mem key _ fl _ => if mem_entry mem then owned_key fl key else []
                     | Remove _ => []
                     end) ops.

Definition checked (o : op) : Prop :=
  match o with Insert _ _ _ fl _ => test_flag fl HASHTABLE_DUP_CHECK = true | Remove _ => True end.

Lemma owned_perm l1 l2 : l1 ≡ₚ l2 -> owned l1 ≡ₚ owned l2.
Proof. apply Permutation_flat_map. Qed.

Lemma release_keys e : freed_keys (release e).1 = owned_key (flags e) (k e).
Proof.
  unfold release, owned_key. unfold freed_keys. repeat case_match; simpl; try done.
Qed.

Lemma remove_owned t `{!KeyLaws (hashfn t) (eqfn t)} key val log t' :
  shaped t -> switch_hashtable_remove t key = (val, log, t') ->
  freed_keys log ++ owned (entries t') ≡ₚ owned (entries t).
Proof.
  intros Hs E. pose proof (remove_spec t Hs key) as H. rewrite E in H.
  destruct H as [(_ & -> & _ & ->)|(e & _ & HP & _ & HR & _)]; [done|].
  rewrite (owned_perm _ _ HP). simpl. by rewrite <- release_keys, HR.
Qed.

Lemma insert_owned t `{!KeyLaws (hashfn t) (eqfn t)} mem key val fl d r log t' :
  shaped t -> test_flag fl HASHTABLE_DUP_CHECK = true ->
  switch_hashtable_insert_destructor mem t key val fl d = Some (r, log, t') ->
  shaped t' /\ hashfn t' = hashfn t /\ eqfn t' = eqfn t
  /\ freed_keys log ++ owned (entries t')
     ≡ₚ owned (entries t) ++ (if mem_entry mem then owned_key fl key else []).
Proof.
  intros Hs Hf. rewrite insert_is_fresh by done.
  destruct (switch_hashtable_remove t key) as [[w log1] t1] eqn:E1.
  destruct (remove_absent t key _ _ _ Hs E1) as (S1 & F1 & Q1 & HF & _ & _).
  pose proof (remove_owned t key _ _ _ Hs E1) as HO.
  assert (KeyLaws (hashfn t1) (eqfn t1)) by (by rewrite F1, Q1).
  assert (hash t key = hash t1 key) as Hh by (unfold hash; by rewrite F1).
  set (e := mk_entry key val (hash t key) fl d).
  destruct (insert_fresh mem t1 (hash t key) e) as [[r2 t2]|] eqn:E2; [|done]. intros [= <- <- <-].
  rewrite Hh in E2. rewrite <- Q1 in HF.
  destruct (insert_fresh_spec mem t1 e r2 t2 S1 Hh HF E2) as (S2 & F2 & Q2 & HR).
  split_and!; [done|congruence|congruence|]. rewrite <- HO.
  destruct HR as [(_ & -> & P2 & _)|(_ & -> & P2 & _)]; rewrite (owned_perm _ _ P2); simpl.
  - rewrite <- app_assoc. by rewrite (Permutation_app_comm (owned_key fl key)).
  - by rewrite app_nil_r.
Qed.

Lemma destroy_keys t : freed_keys (switch_hashtable_destroy t) = owned (entries t).
Proof.
  unfold switch_hashtable_destroy, entries. generalize (table t) as tab.
  assert (forall l1 l2, freed_keys (l1 ++ l2) = freed_keys l1 ++ freed_keys l2) as Happ
    by (intros; apply flat_map_app).
  induction tab as [|c tab IH]; simpl; [done|]. rewrite Happ, IH. unfold owned. rewrite flat_map_app.
  f_equal. induction c as [|e c IHc]; simpl; [done|]. by rewrite Happ, IHc, release_keys.
Qed.

Lemma run_owned ops t `{!KeyLaws (hashfn t) (eqfn t)} log t' :
  shaped t -> Forall checked ops -> run ops t = Some (log, t') ->
  freed_keys log ++ owned (entries t') ≡ₚ owned (entries t) ++ handed ops.
Proof.
  intros Hs Hok. revert t KeyLaws0 Hs log t'. induction Hok as [|o ops Ho Hok IH]; intros t HK Hs log t'; simpl.
  { intros [= <- <-]. simpl. by rewrite app_nil_r. }
  assert (forall (l1 l2 : list (freed K V)), freed_keys (l1 ++ l2) = freed_keys l1 ++ freed_keys l2) as Happ
    by (intros; apply flat_map_app).
  destruct o as [mem key val fl d|key].
  - destruct (switch_hashtable_insert_destructor mem t key val fl d) as [[[r log1] t1]|] eqn:E; [|done].
    destruct (insert_owned t mem key val fl d r log1 t1 Hs Ho E) as (S1 & F1 & Q1 & HO).
    destruct (run ops t1) as [[log2 t2]|] eqn:E2; [|done]. intros [= <- <-].
    apply IH in E2; [|by rewrite F1, Q1|done]. rewrite Happ, <- app_assoc, E2, app_assoc, HO. by rewrite <- app_assoc.
  - destruct (switch_hashtable_remove t key) as [[w log1] t1] eqn:E.
    pose proof (remove_owned t key _ _ _ Hs E) as HO.
    destruct (remove_absent t key _ _ _ Hs E) as (S1 & F1 & Q1 & _).
    destruct (run ops t1) as [[log2 t2]|] eqn:E2; [|done]. intros [= <- <-].
    apply IH in E2; [|by rewrite F1, Q1|done]. by rewrite Happ, <- app_assoc, E2, app_assoc, HO.
Qed.

End ownership.
Arguments op : clear implicits.

(** ** Creation *)

Lemma pick_prime_spec minsize ps i pindex size :
  Exists (fun p => minsize < p) ps -> pick_prime minsize ps i = (pindex, size) ->
  i <= pindex /\ ps !! Z.to_nat (pindex - i) = Some size /\ minsize < size.
Proof.
  revert i. induction ps as [|p ps IH]; intros i HE; [by inversion HE|]. simpl.
  rewrite Z.gtb_ltb. destruct (Z.ltb_spec minsize p) as [Hlt|Hge].
  - intros [= <- <-]. split_and!; [lia| |done]. by replace (Z.to_nat (i - i)) with 0%nat by lia.
  - intros E. apply IH in E as (H1 & H2 & H3).
    + split_and!; [lia| |done]. by replace (Z.to_nat (pindex - i)) with (S (Z.to_nat (pindex - (i + 1)))) by lia.
    + inversion HE; [lia|done].
Qed.

Lemma create_spec {K V} minsize hf ef :
  minsize <= 2 ^ 30 ->
  exists t : switch_hashtable K V,
    switch_create_hashtable minsize hf ef = (SWITCH_STATUS_SUCCESS, Some t)
    /\ wf t /\ entries t = [] /\ minsize < tablelength t /\ hashfn t = hf /\ eqfn t = ef.
Proof.
  intros Hm. unfold switch_create_hashtable. rewrite Z.gtb_ltb.
  destruct (Z.ltb_spec (2 ^ 30) minsize); [lia|].
  destruct (pick_prime minsize primes 0) as [pindex size] eqn:E.
  assert (Exists (fun p => minsize < p) primes) as HE.
  { apply Exists_exists. exists 1610612741. split; [|lia].
    apply (list_elem_of_lookup_2 _ 25). reflexivity. }
  destruct (pick_prime_spec _ _ _ _ _ HE E) as (H1 & H2 & H3).
  replace (pindex - 0) with pindex in H2 by lia.
  pose proof primes_pos as HP. rewrite Forall_lookup in HP. specialize (HP _ _ H2).
  eexists. split; [reflexivity|].
  assert (entries (mk_hashtable size (replicate (Z.to_nat size) (@nil (entry K V))) 0
            (loadlimit_of size) pindex hf ef) = []) as HN by apply concat_replicate_nil.
  split_and!; try done. constructor; [constructor|by rewrite HN|simpl; lia]; simpl; try done.
  - rewrite length_replicate. lia.
  - by eapply replicate_placed.
  - unfold entries. simpl. by rewrite concat_replicate_nil.
Qed.

(** ** Load factor *)

Lemma loadlimit_grows :
  Forall (fun '(p, q) => loadlimit_of p + 1 <= loadlimit_of q) (zip primes (tail primes)).
Proof. apply Forall_fold_right. vm_compute. repeat split; discriminate. Qed.

Lemma expand_load {K V} (t : switch_hashtable K V) rok r t' :
  shaped t -> hashtable_expand true rok t = Some (r, t') -> primeindex t < prime_table_length - 1 ->
  loadlimit t + 1 <= loadlimit t' /\ entrycount t' = entrycount t.
Proof.
  intros [_ _ [S3 S3'] S4 _ _] E Hp. unfold hashtable_expand in E.
  destruct (Z.eqb_spec (primeindex t) (prime_table_length - 1)); [lia|]. injection E as <- <-.
  split; [|done]. destruct (next_prime _ _ S3 S3' ltac:(lia)) as (q & Hq & _). simpl.
  rewrite Hq, S4. cbn [default]. pose proof loadlimit_grows as HG. rewrite Forall_lookup in HG.
  assert (zip primes (tail primes) !! Z.to_nat (primeindex t) = Some (tablelength t, q)) as HZ.
  { apply lookup_zip_with_Some. exists (tablelength t), q. split_and!; [done|done|].
    rewrite lookup_tail. by replace (S (Z.to_nat (primeindex t))) with (Z.to_nat (primeindex t + 1)) by lia. }
  exact (HG _ _ HZ).
Qed.

Lemma remove_sizes {K V} (t : switch_hashtable K V) key val log t1 :
  switch_hashtable_remove t key = (val, log, t1) ->
  loadlimit t1 = loadlimit t /\ primeindex t1 = primeindex t.
Proof.
  unfold switch_hashtable_remove, switch_hashtable_remove_.
  destruct (unlink _ _) as [[e rest]|]; [destruct (release e)|]; by intros [= <- <- <-].
Qed.

Lemma insert_fresh_load {K V} mem (t : switch_hashtable K V) hv e r t' :
  shaped t -> 0 <= entrycount t < 2 ^ 32 - 1 -> entrycount t <= loadlimit t ->
  primeindex t < prime_table_length - 1 -> mem_table mem = true ->
  insert_fresh mem t hv e = Some (r, t') -> entrycount t' <= loadlimit t'.
Proof.
  intros Hs Hc Hl Hp Hm. unfold insert_fresh. cbv zeta. rewrite (u32_small (entrycount t + 1)) by lia.
  set (t1 := t <| entrycount := entrycount t + 1 |>). rewrite Z.gtb_ltb, Hm.
  destruct (Z.ltb_spec (loadlimit t1) (entrycount t1)) as [Hlt|Hge].
  - destruct (hashtable_expand true (mem_realloc mem) t1) as [[r1 t2]|] eqn:E; [|done].
    apply expand_load in E as [E1 E2]; [|by apply shaped_count|done].
    assert (entrycount t2 <= loadlimit t2) by (rewrite E2; simpl in *; lia).
    assert (0 <= entrycount t2 - 1 < 2 ^ 32) by (rewrite E2; simpl; lia).
    destruct (mem_entry mem); intros [= <- <-]; simpl; [done|]. rewrite u32_small; lia.
  - destruct (mem_entry mem); intros [= <- <-]; simpl; simpl in Hge; [lia|]. rewrite u32_small; lia.
Qed.

(** C31. Ownership of keys.  From a new table, run any insertions (with the
    duplicate check, in any allocation outcome) and removals, then destroy the
    table: the keys the table frees are, with multiplicity, exactly the keys
    that successful insertions handed to it with HASHTABLE_FLAG_FREE_KEY.  No
    key is freed twice and none is leaked, rehashing included. *)
Theorem keys_freed_once {K V} (hf : K -> Z) ef `{!KeyLaws hf ef} minsize (t : switch_hashtable K V) ops log t' :
  switch_create_hashtable minsize hf ef = (SWITCH_STATUS_SUCCESS, Some t) ->
  Forall checked ops -> run ops t = Some (log, t') ->
  freed_keys (log ++ switch_hashtable_destroy t') ≡ₚ handed ops.
Proof.
  intros E Hok Hrun. destruct (decide (minsize <= 2 ^ 30)) as [Hm|Hm].
  - destruct (create_spec (K := K) (V := V) minsize hf ef Hm) as (t0 & E0 & [Hs _ _] & HN & _ & HF & HQ).
    rewrite E in E0. injection E0 as <-. assert (KeyLaws (hashfn t) (eqfn t)) by (by rewrite HF, HQ).
    pose proof (run_owned ops t log t' Hs Hok Hrun) as HO. rewrite HN in HO. simpl in HO.
    unfold freed_keys at 1. rewrite flat_map_app. fold (freed_keys log).
    fold (freed_keys (switch_hashtable_destroy t')). by rewrite destroy_keys.
  - unfold switch_create_hashtable in E. rewrite Z.gtb_ltb in E.
    destruct (Z.ltb_spec (2 ^ 30) minsize); [done|lia].
Qed.

Lemma run_defined {K V} ops (t : switch_hashtable K V) :
  Forall (fun o => match o with Insert mem _ _ _ _ => mem_table mem = true | Remove _ => True end) ops ->
  exists log t', run ops t = Some (log, t').
Proof.
  intros H. revert t. induction H as [|o ops Ho _ IH]; intros t; simpl; [by eauto|].
  destruct o as [mem key val fl d|key].
  - destruct (insert_defined t mem key val fl d (or_introl Ho)) as (r & log & t1 & ->).
    destruct (IH t1) as (log' & t2 & ->). eauto.
  - destruct (switch_hashtable_remove t key) as [[w log] t1].
    destruct (IH t1) as (log' & t2 & ->). eauto.
Qed.

Lemma keys_freed_once_witness :
  let fl := Z.lor HASHTABLE_FLAG_FREE_KEY HASHTABLE_DUP_CHECK in
  exists (t : switch_hashtable Z Z) log t',
    run [Insert mem_ok 7 (Some 1) fl None; Insert mem_ok 7 (Some 2) fl None; Remove 9;
         Insert mem_ok 9 None fl None] t = Some (log, t')
    /\ freed_keys (log ++ switch_hashtable_destroy t') ≡ₚ [7; 7; 9].
Proof.
  intros fl.
  destruct (create_spec (K := Z) (V := Z) 16 switch_hash_default_int switch_hash_equalkeys_int)
    as (t & E & _); [lia|].
  destruct (run_defined [Insert mem_ok 7 (Some 1) fl None; Insert mem_ok 7 (Some 2) fl None; Remove 9;
         Insert mem_ok 9 None fl None] t) as (log & t' & E2); [repeat constructor|].
  exists t, log, t'. split; [exact E2|].
  refine (keys_freed_once switch_hash_default_int switch_hash_equalkeys_int 16 t _ log t' E _ E2).
  repeat constructor.
Defined.

(** The load factor: while the table has not reached the last listed prime,
    an insertion (allocation of the new chain array succeeding) leaves the
    entry count within the load limit of the - possibly expanded - table. *)
Theorem insert_keeps_load {K V} (t : switch_hashtable K V) `{!KeyLaws (hashfn t) (eqfn t)}
    mem key val fl d r log t' :
  wf t -> entrycount t <= loadlimit t -> primeindex t < prime_table_length - 1 ->
  test_flag fl HASHTABLE_DUP_CHECK = true -> mem_table mem = true ->
  switch_hashtable_insert_destructor mem t key val fl d = Some (r, log, t') ->
  entrycount t' <= loadlimit t'.
Proof.
  intros [Hs Hc Hw] Hl Hp Hf Hm. rewrite insert_is_fresh by done.
  destruct (switch_hashtable_remove t key) as [[w log1] t1] eqn:E1.
  destruct (remove_absent t key _ _ _ Hs E1) as (S1 & _ & _ & _ & _ & HC).
  destruct (remove_sizes _ _ _ _ _ E1) as [HL HP]. specialize (HC ltac:(lia)).
  destruct (insert_fresh mem t1 _ _) as [[r2 t2]|] eqn:E2; [|done]. intros [= <- <- <-].
  eapply insert_fresh_load; [exact S1|lia|lia|lia|exact Hm|exact E2].
Qed.

Lemma insert_keeps_load_witness :
  exists r log t',
    switch_hashtable_insert_destructor mem_ok demo_table 77 (Some 5) HASHTABLE_DUP_CHECK None
      = Some (r, log, t') /\ entrycount t' <= loadlimit t'.
Proof.
  destruct (insert_defined demo_table mem_ok 77 (Some 5) HASHTABLE_DUP_CHECK None) as (r & log & t' & E);
    [left; reflexivity|].
  exists r, log, t'. split; [exact E|].
  apply (insert_keeps_load demo_table mem_ok 77 (Some 5) HASHTABLE_DUP_CHECK None r log t' demo_wf);
    [vm_compute; discriminate|reflexivity|reflexivity|reflexivity|exact E].
Defined.

(** C35. Iteration with first/next terminates after as many steps as the table
    has entries, visits pairwise different keys, shows for each the value a
    search for that key returns, and misses no key that has a value. *)
Theorem iteration_complete {K V} (t : switch_hashtable K V) `{!KeyLaws (hashfn t) (eqfn t)} fuel :
  wf t -> entrycount t < Z.of_nat fuel ->
  let l := walk t fuel (switch_hashtable_first_iter t) in
  Z.of_nat (length l) = switch_hashtable_count t
  /\ distinct (eqfn t) l
  /\ (forall e, e ∈ l -> switch_hashtable_search t (k e) = v e)
  /\ (forall key x, switch_hashtable_search t key = Some x ->
        exists e, e ∈ l /\ eqfn t key (k e) = true /\ v e = Some x).
Proof.
  intros [Hs Hc Hw] Hf l. assert (l = entries t) as El by (apply walk_entries; [apply Hs|lia]). rewrite El.
  pose proof (sh_distinct _ Hs) as HD. split_and!; [done|done| |].
  - intros e He. rewrite (search_assoc t Hs).
    destruct (proj1 (elem_of_Permutation _ _) He) as [l' HP].
    rewrite (assoc_perm (ef := eqfn t) _ _ _ HP HD). simpl. by rewrite eqfn_refl.
  - intros key x. rewrite (search_assoc t Hs). clear El l Hc HD. induction (entries t) as [|e l IH]; simpl; [done|].
    destruct (eqfn t key (k e)) eqn:E.
    + intros Hx. exists e. split_and!; [left|done|done].
    + intros Hx. destruct (IH Hx) as (e' & H1 & H2 & H3). exists e'. split_and!; [by right|done|done].
Qed.

Lemma iteration_complete_witness :
  exists r log t',
    switch_hashtable_insert_destructor mem_ok demo_table 77 (Some 5) HASHTABLE_DUP_CHECK None
      = Some (r, log, t')
    /\ exists e, e ∈ walk t' (S (Z.to_nat (entrycount t'))) (switch_hashtable_first_iter t') /\ v e = Some 5.
Proof.
  destruct (insert_defined demo_table mem_ok 77 (Some 5) HASHTABLE_DUP_CHECK None) as (r & log & t' & E);
    [left; reflexivity|].
  exists r, log, t'. split; [exact E|].
  destruct (insert_correct demo_table mem_ok 77 (Some 5) HASHTABLE_DUP_CHECK None r log t'
    demo_wf) as (W & F & Q & _ & H); [simpl; lia|reflexivity|exact E|].
  assert (KeyLaws (hashfn t') (eqfn t')) as HK by (rewrite F, Q; exact int_key_laws).
  destruct (iteration_complete t' (S (Z.to_nat (entrycount t'))) W) as (_ & _ & _ & H4); [lia|].
  destruct (H4 77 5) as (e & H5 & _ & H6); [rewrite (H 77); vm_compute; reflexivity|].
  exists e. split; [exact H5|exact H6].
Defined.

End Hashtable.
