(* ===== verification/CoreHash.v ===== *)
(** * The core hash API (src/src/switch_core_hash.c)

    The wrappers the rest of the core uses around switch_hashtable.c: hashes
    keyed by C strings (case sensitive or not) whose keys are copied, and
    hashes keyed by 32-bit integers.  [IntHash]/[IntHashLaws] is the interface
    of the integer hash that the jitter buffer is verified against; this file
    proves that the hash table implements it.

    A pointer is an [option]: NULL is [None].  [mem] gives the outcomes of the
    allocations inside the table; [strdup] and the allocations that the source
    asserts ([assert(dup)], [switch_zmalloc]) are taken to succeed.  [None] as
    the result of an operation is the undefined behaviour of the table's
    reallocation branch.  The locked variants run the same operation between
    a lock and an unlock and are not repeated here. *)

From S2P Require Import Prelude.
From S2P Require Import Hashtable.

Module CoreHash.
Import Hashtable.

(** ** String hashes *)

Section strings.
Context {V : Type}.

Definition switch_hash_t : Type := switch_hashtable (list Z) V.
Implicit Types hash : switch_hash_t.

Definition switch_core_hash_init_case (case_sensitive : bool) : switch_status_t * option switch_hash_t :=
  if case_sensitive then switch_create_hashtable 16 switch_hash_default switch_hash_equalkeys
  else switch_create_hashtable 16 switch_hash_default_ci switch_hash_equalkeys_ci.

Definition switch_core_hash_destroy hash : switch_status_t * list (freed (list Z) V) :=
  (SWITCH_STATUS_SUCCESS, switch_hashtable_destroy hash).

(** The result of an insertion: status, what was freed, and the hash. *)
Definition outcome : Type := option (switch_status_t * list (freed (list Z) V) * switch_hash_t).

(** [printed] is the text of the [%p] conversion of [data]. *)
Definition switch_core_hash_insert_pointer (mem : memory) hash (printed : list Z) (data : option V)
  : outcome :=
  let bytes_required := Z.of_nat (length printed) + 1 in
  let dkey := printed in
  let bytes_written := Z.of_nat (length printed) in
  if (bytes_written >? 0) && (bytes_written <? bytes_required) then
    match switch_hashtable_insert_destructor mem hash dkey data
            (Z.lor HASHTABLE_FLAG_FREE_KEY HASHTABLE_DUP_CHECK) None with
    | Some (r, log, hash) =>
        if negb (r =? 0) then Some (SWITCH_STATUS_SUCCESS, log, hash)
        else Some (SWITCH_STATUS_FALSE, log ++ [FreedKey dkey], hash)
    | None => None
    end
  else Some (SWITCH_STATUS_FALSE, [FreedKey dkey], hash).

Definition switch_core_hash_insert_auto_free (mem : memory) hash (key : list Z) (data : option V) : outcome :=
  let dkey := key in
  match switch_hashtable_insert_destructor mem hash dkey data
          (Z.lor (Z.lor HASHTABLE_FLAG_FREE_KEY HASHTABLE_FLAG_FREE_VALUE) HASHTABLE_DUP_CHECK) None with
  | Some (r, log, hash) =>
      if negb (r =? 0) then Some (SWITCH_STATUS_SUCCESS, log, hash)
      else Some (SWITCH_STATUS_FALSE, log ++ [FreedKey dkey], hash)
  | None => None
  end.

(** [dup] is the fresh copy of the string that becomes the value. *)
Definition switch_core_hash_insert_dup_auto_free (mem : memory) hash (key : list Z) (dup : V) : outcome :=
  let dkey := key in
  match switch_hashtable_insert_destructor mem hash dkey (Some dup)
          (Z.lor (Z.lor HASHTABLE_FLAG_FREE_KEY HASHTABLE_FLAG_FREE_VALUE) HASHTABLE_DUP_CHECK) None with
  | Some (r, log, hash) =>
      if negb (r =? 0) then Some (SWITCH_STATUS_SUCCESS, log, hash)
      else Some (SWITCH_STATUS_FALSE, log ++ [FreedValue dup; FreedKey dkey], hash)
  | None => None
  end.

(** [data] is the zeroed block of [size] bytes; it is also the result. *)
Definition switch_core_hash_insert_alloc_destructor (mem : memory) hash (key : list Z) (size : Z)
    (data : V) (destructor : option nat) : option (option V * list (freed (list Z) V) * switch_hash_t) :=
  if size =? 0 then Some (None, [], hash)
  else
    let dkey := key in
    match switch_hashtable_insert_destructor mem hash dkey (Some data)
            (Z.lor HASHTABLE_FLAG_FREE_KEY HASHTABLE_DUP_CHECK) destructor with
    | Some (r, log, hash) =>
        if negb (r =? 0) then Some (Some data, log, hash)
        else Some (None, log ++ [FreedValue data; FreedKey dkey], hash)
    | None => None
    end.

Definition switch_core_hash_insert_dup_destructor (mem : memory) hash (key : list Z) (dup : V)
    (destructor : option nat) : outcome :=
  let dkey := key in
  match switch_hashtable_insert_destructor mem hash dkey (Some dup)
          (Z.lor HASHTABLE_FLAG_FREE_KEY HASHTABLE_DUP_CHECK) destructor with
  | Some (r, log, hash) =>
      if negb (r =? 0) then Some (SWITCH_STATUS_SUCCESS, log, hash)
      else Some (SWITCH_STATUS_FALSE, log ++ [FreedValue dup; FreedKey dkey], hash)
  | None => None
  end.

Definition switch_core_hash_insert_destructor (mem : memory) hash (key : list Z) (data : option V)
    (destructor : option nat) : outcome :=
  let dkey := key in
  match switch_hashtable_insert_destructor mem hash dkey data
          (Z.lor HASHTABLE_FLAG_FREE_KEY HASHTABLE_DUP_CHECK) destructor with
  | Some (r, log, hash) =>
      if negb (r =? 0) then Some (SWITCH_STATUS_SUCCESS, log, hash)
      else Some (SWITCH_STATUS_FALSE, log ++ [FreedKey dkey], hash)
  | None => None
  end.

Definition switch_core_hash_delete hash (key : list Z) : option V * list (freed (list Z) V) * switch_hash_t :=
  switch_hashtable_remove hash key.

Definition switch_core_hash_find hash (key : list Z) : option V := switch_hashtable_search hash key.

Definition switch_core_hash_first_iter hash : option (iterator (list Z) V) := switch_hashtable_first_iter hash.

Definition switch_core_hash_next hash (hi : iterator (list Z) V) : option (iterator (list Z) V) :=
  switch_hashtable_next hash hi.

Definition switch_core_hash_this (hi : iterator (list Z) V) : option (list Z * option V) :=
  switch_hashtable_this hi.

Definition switch_core_hash_this_val hash (hi : iterator (list Z) V) (val : option V) : switch_hash_t :=
  switch_hashtable_this_val hash hi val.

Definition switch_core_hash_empty hash : bool :=
  match switch_core_hash_first_iter hash with Some _ => false | None => true end.

End strings.
Arguments switch_hash_t : clear implicits.
Arguments outcome : clear implicits.

(** ** Integer hashes *)

Section integers.
Context {V : Type}.

Definition switch_inthash_t : Type := switch_hashtable Z V.
Implicit Types hash : switch_inthash_t.

Definition switch_core_inthash_init : switch_status_t * option switch_inthash_t :=
  switch_create_hashtable 16 switch_hash_default_int switch_hash_equalkeys_int.

Definition switch_core_inthash_destroy hash : switch_status_t * list (freed Z V) :=
  (SWITCH_STATUS_SUCCESS, switch_hashtable_destroy hash).

Definition switch_core_inthash_insert (mem : memory) hash (key : Z) (data : option V)
  : option (switch_status_t * list (freed Z V) * switch_inthash_t) :=
  let k := u32 key in
  match switch_hashtable_insert_destructor mem hash k data
          (Z.lor HASHTABLE_FLAG_FREE_KEY HASHTABLE_DUP_CHECK) None with
  | Some (r, log, hash) =>
      Some (if negb (r =? 0) then SWITCH_STATUS_SUCCESS else SWITCH_STATUS_FALSE, log, hash)
  | None => None
  end.

Definition switch_core_inthash_delete hash (key : Z) : option V * list (freed Z V) * switch_inthash_t :=
  switch_hashtable_remove hash (u32 key).

Definition switch_core_inthash_find hash (key : Z) : option V := switch_hashtable_search hash (u32 key).

End integers.
Arguments switch_inthash_t : clear implicits.

(** ** Results of the table's insertion, for the wrappers *)

Definition copied : Z := Z.lor HASHTABLE_FLAG_FREE_KEY HASHTABLE_DUP_CHECK.
Definition copied_auto : Z :=
  Z.lor (Z.lor HASHTABLE_FLAG_FREE_KEY HASHTABLE_FLAG_FREE_VALUE) HASHTABLE_DUP_CHECK.

Lemma insert_result {K V} mem (t : switch_hashtable K V) key val fl d r log t' :
  switch_hashtable_insert_destructor mem t key val fl d = Some (r, log, t') ->
  r = if mem_entry mem then -1 else 0.
Proof.
  unfold switch_hashtable_insert_destructor. cbv zeta.
  destruct (if test_flag fl _ then _ else _) as [log0 t1].
  destruct (if entrycount _ >? _ then _ else _) as [[t2 index]|]; [|done].
  destruct (mem_entry mem); by intros [= <- <- <-].
Qed.

Section ownership.
Context {V : Type}.

(** The operations that change a string hash. *)
Inductive core_op :=
  | InsertPointer (mem : memory) (printed : list Z) (data : option V)
  | InsertAutoFree (mem : memory) (key : list Z) (data : option V)
  | InsertDupAutoFree (mem : memory) (key : list Z) (dup : V)
  | InsertAllocDestructor (mem : memory) (key : list Z) (size : Z) (data : V) (d : option nat)
  | InsertDupDestructor (mem : memory) (key : list Z) (dup : V) (d : option nat)
  | InsertDestructor (mem : memory) (key : list Z) (data : option V) (d : option nat)
  | Delete (key : list Z).

Definition core_step (o : core_op) (t : switch_hash_t V) : option (list (freed (list Z) V) * switch_hash_t V) :=
  let drop (r : outcome V) := match r with Some (_, log, t) => Some (log, t) | None => None end in
  match o with
  | InsertPointer mem printed data => drop (switch_core_hash_insert_pointer mem t printed data)
  | InsertAutoFree mem key data => drop (switch_core_hash_insert_auto_free mem t key data)
  | InsertDupAutoFree mem key dup => drop (switch_core_hash_insert_dup_auto_free mem t key dup)
  | InsertAllocDestructor mem key size data d =>
      match switch_core_hash_insert_alloc_destructor mem t key size data d with
      | Some (_, log, t) => Some (log, t)
      | None => None
      end
  | InsertDupDestructor mem key dup d => drop (switch_core_hash_insert_dup_destructor mem t key dup d)
  | InsertDestructor mem key data d => drop (switch_core_hash_insert_destructor mem t key data d)
  | Delete key => let '(_, log, t) := switch_core_hash_delete t key in Some (log, t)
  end.

Fixpoint core_run (ops : list core_op) (t : switch_hash_t V) : option (list (freed (list Z) V) * switch_hash_t V) :=
  match ops with
  | [] => Some ([], t)
  | o :: ops =>
      match core_step o t with
      | Some (log, t) =>
          match core_run ops t with Some (log', t) => Some (log ++ log', t) | None => None end
      | None => None
      end
  end.

(** The key copies an operation makes. *)
Definition duplicated (o : core_op) : list (list Z) :=
  match o with
  | InsertPointer _ key _ | InsertAutoFree _ key _ | InsertDupAutoFree _ key _
  | InsertDupDestructor _ key _ _ | InsertDestructor _ key _ _ => [key]
  | InsertAllocDestructor _ key size _ _ => if size =? 0 then [] else [key]
  | Delete _ => []
  end.

Lemma freed_keys_app {K} (l1 l2 : list (freed K V)) : freed_keys (l1 ++ l2) = freed_keys l1 ++ freed_keys l2.
Proof. apply flat_map_app. Qed.

(** One insertion of a copied key, the copy freed when the table refuses it. *)
Lemma copied_owned {K} (t : switch_hashtable K V) `{!KeyLaws (hashfn t) (eqfn t)} mem key val fl d r log t' :
  shaped t -> (fl = copied \/ fl = copied_auto) ->
  switch_hashtable_insert_destructor mem t key val fl d = Some (r, log, t') ->
  shaped t' /\ hashfn t' = hashfn t /\ eqfn t' = eqfn t
  /\ freed_keys log ++ (if r =? 0 then [key] else []) ++ owned (entries t')
     ≡ₚ owned (entries t) ++ [key].
Proof.
  intros Hs Hf E. pose proof (insert_result _ _ _ _ _ _ _ _ _ E) as Hr.
  destruct (insert_owned t mem key val fl d r log t' Hs) as (S1 & F1 & Q1 & HO);
    [by destruct Hf as [-> | ->]|exact E|].
  split_and!; [done..|]. assert (owned_key fl key = [key]) as Ho by (by destruct Hf as [-> | ->]).
  subst r. destruct (mem_entry mem); simpl; [by rewrite HO, Ho|].
  rewrite app_nil_r in HO. by rewrite <- HO, <- app_assoc, (Permutation_app_comm _ [key]).
Qed.

Ltac copied_case t Hs :=
  match goal with
  | |- context [switch_hashtable_insert_destructor ?mem t ?key ?val ?fl ?d] =>
      destruct (switch_hashtable_insert_destructor mem t key val fl d) as [[[r log0] t0]|] eqn:EI;
      [|done];
      destruct (copied_owned t mem key val fl d r log0 t0 Hs) as (S1 & F1 & Q1 & HO);
      [first [left; reflexivity | right; reflexivity]|exact EI|];
      destruct (r =? 0); intros [= <- <-]; split_and!; try done; simpl in HO; rewrite ?freed_keys_app;
      simpl; rewrite ?app_nil_r, <- ?app_assoc; exact HO
  end.

Lemma core_step_owned (t : switch_hash_t V) `{!KeyLaws (hashfn t) (eqfn t)} o log t' :
  shaped t -> core_step o t = Some (log, t') ->
  shaped t' /\ hashfn t' = hashfn t /\ eqfn t' = eqfn t
  /\ freed_keys log ++ owned (entries t') ≡ₚ owned (entries t) ++ duplicated o.
Proof.
  intros Hs. destruct o as [mem key val|mem key val|mem key dup|mem key size data d|mem key dup d|mem key data d|key];
    unfold core_step, duplicated.
  - unfold switch_core_hash_insert_pointer. destruct (_ && _); [copied_case t Hs|].
    intros [= <- <-]. split_and!; try done. simpl. apply Permutation_cons_append.
  - unfold switch_core_hash_insert_auto_free. copied_case t Hs.
  - unfold switch_core_hash_insert_dup_auto_free. copied_case t Hs.
  - unfold switch_core_hash_insert_alloc_destructor. destruct (size =? 0); [|copied_case t Hs].
    intros [= <- <-]. by rewrite app_nil_r.
  - unfold switch_core_hash_insert_dup_destructor. copied_case t Hs.
  - unfold switch_core_hash_insert_destructor. copied_case t Hs.
  - unfold switch_core_hash_delete. destruct (switch_hashtable_remove t key) as [[w log1] t1] eqn:E.
    intros [= <- <-]. destruct (remove_absent t key _ _ _ Hs E) as (S1 & F1 & Q1 & _).
    split_and!; try done. rewrite app_nil_r. by eapply remove_owned.
Qed.

Lemma core_run_owned ops (t : switch_hash_t V) `{!KeyLaws (hashfn t) (eqfn t)} log t' :
  shaped t -> core_run ops t = Some (log, t') ->
  freed_keys log ++ owned (entries t') ≡ₚ owned (entries t) ++ flat_map duplicated ops.
Proof.
  revert t KeyLaws0 log. induction ops as [|o ops IH]; intros t HK log Hs; simpl.
  { intros [= <- <-]. simpl. by rewrite app_nil_r. }
  destruct (core_step o t) as [[log1 t1]|] eqn:E; [|done].
  destruct (core_run ops t1) as [[log2 t2]|] eqn:E2; [|done]. intros [= <- <-].
  destruct (core_step_owned t o log1 t1 Hs E) as (S1 & F1 & Q1 & HO).
  apply IH in E2; [|by rewrite F1, Q1|done].
  by rewrite freed_keys_app, <- app_assoc, E2, app_assoc, HO, <- app_assoc.
Qed.

Lemma core_run_defined ops (t : switch_hash_t V) :
  Forall (fun o => match o with
                   | InsertPointer mem _ _ | InsertAutoFree mem _ _ | InsertDupAutoFree mem _ _
                   | InsertAllocDestructor mem _ _ _ _ | InsertDupDestructor mem _ _ _
                   | InsertDestructor mem _ _ _ => mem_table mem = true
                   | Delete _ => True
                   end) ops ->
  exists log t', core_run ops t = Some (log, t').
Proof.
  intros H. revert t. induction H as [|o ops Ho _ IH]; intros t; simpl; [by eauto|].
  assert (exists log t1, core_step o t = Some (log, t1)) as (log & t1 & ->).
  { assert (forall mem key val fl d, mem_table mem = true ->
      exists r log t1, switch_hashtable_insert_destructor mem t key val fl d = Some (r, log, t1)) as HI
      by (intros; apply insert_defined; by left).
    destruct o as [mem key val|mem key val|mem key dup|mem key size data d|mem key dup d|mem key data d|key];
      unfold core_step, switch_core_hash_insert_pointer, switch_core_hash_insert_auto_free,
        switch_core_hash_insert_dup_auto_free, switch_core_hash_insert_alloc_destructor,
        switch_core_hash_insert_dup_destructor, switch_core_hash_insert_destructor;
      try match goal with
      | |- context [switch_hashtable_insert_destructor ?mem t ?key ?val ?fl ?d] =>
          destruct (HI mem key val fl d Ho) as (r & log & t1 & ->)
      end; repeat case_match; simplify_eq; eauto. }
  destruct (IH t1) as (log' & t2 & ->). eauto.
Qed.

End ownership.
Arguments core_op : clear implicits.

(** ** The interface of integer hashes

    What the jitter buffer relies on.  Keys are compared as 32-bit values; the
    list of an integer hash is what an iteration over it visits. *)

Class IntHash (T : Type -> Type) := {
  ih_init {V} : T V;
  ih_insert {V} : T V -> Z -> option V -> T V;
  ih_delete {V} : T V -> Z -> option V * T V;
  ih_find {V} : T V -> Z -> option V;
  ih_list {V} : T V -> list (Z * option V);
}.

Class IntHashLaws (T : Type -> Type) `{!IntHash T} := {
  ih_ok {V} : T V -> Prop;
  ih_init_ok {V} : ih_ok (ih_init (V := V));
  ih_insert_ok {V} (t : T V) key val : ih_ok t -> ih_ok (ih_insert t key val);
  ih_delete_ok {V} (t : T V) key : ih_ok t -> ih_ok (ih_delete t key).2;
  ih_find_init {V} key : ih_find (ih_init (V := V)) key = None;
  ih_find_insert {V} (t : T V) key val key' : ih_ok t ->
    ih_find (ih_insert t key val) key' = if u32 key =? u32 key' then val else ih_find t key';
  ih_find_delete {V} (t : T V) key key' : ih_ok t ->
    ih_find (ih_delete t key).2 key' = if u32 key =? u32 key' then None else ih_find t key';
  ih_deleted {V} (t : T V) key : ih_ok t -> (ih_delete t key).1 = ih_find t key;
  ih_list_find {V} (t : T V) key val : ih_ok t -> (key, val) ∈ ih_list t -> ih_find t key = val;
  ih_find_list {V} (t : T V) key val : ih_ok t -> ih_find t key = Some val ->
    exists key', u32 key' = u32 key /\ (key', Some val) ∈ ih_list t;
  ih_list_delete {V} (t : T V) key val : ih_ok t -> (key, val) ∈ ih_list t ->
    length (ih_list t) = S (length (ih_list (ih_delete t key).2));
  ih_list_init {V} : ih_list (ih_init (V := V)) = [];
  ih_list_insert {V} (t : T V) key val key' val' : ih_ok t ->
    (key', val') ∈ ih_list (ih_insert t key val) -> (key', val') ∈ ih_list t \/ (key' = u32 key /\ val' = val);
  ih_list_remains {V} (t : T V) key key' val' : ih_ok t ->
    (key', val') ∈ ih_list (ih_delete t key).2 -> (key', val') ∈ ih_list t;
}.

(** The hash table as an integer hash for its clients, where memory is available; [switch_core_inthash_insert] itself takes the
    outcome of the allocations as an argument. *)

Definition inthash_init {V} : switch_inthash_t V :=
  match (switch_core_inthash_init (V := V)).2 with
  | Some t => t
  | None => mk_hashtable 0 [] 0 0 0 switch_hash_default_int switch_hash_equalkeys_int
  end.

Definition inthash_insert {V} (t : switch_inthash_t V) (key : Z) (val : option V) : switch_inthash_t V :=
  match switch_core_inthash_insert mem_ok t key val with Some (_, _, t) => t | None => t end.

(** The entries visited by an iteration with first/next. *)
Definition visited {V} (t : switch_inthash_t V) : list (entry Z V) :=
  walk t (S (length (entries t))) (switch_hashtable_first_iter t).

#[export] Instance table_inthash : IntHash switch_inthash_t := {
  ih_init V := inthash_init;
  ih_insert V := inthash_insert;
  ih_delete V t key := let '(val, _, t') := switch_core_inthash_delete t key in (val, t');
  ih_find V := switch_core_inthash_find;
  ih_list V t := map (fun e => (k e, v e)) (visited t);
}.

(** The invariant of the tables that the integer hash API builds. *)
Record inthash_ok {V} (t : switch_inthash_t V) : Prop := {
  io_shaped : shaped t;
  io_hash : hashfn t = switch_hash_default_int;
  io_eq : eqfn t = switch_hash_equalkeys_int;
  io_plain : Forall (fun e => flags e = copied /\ destructor e = None) (entries t);
}.

Section inthash.
Context {V : Type}.
Implicit Types t : switch_inthash_t V.

Lemma int_laws t : inthash_ok t -> KeyLaws (hashfn t) (eqfn t).
Proof. intros [_ H1 H2 _]. rewrite H1, H2. apply int_key_laws. Qed.

Lemma visited_entries t : shaped t -> visited t = entries t.
Proof. intros Hs. apply walk_entries; [apply Hs|lia]. Qed.

Lemma int_eq a b : switch_hash_equalkeys_int (u32 a) (u32 b) = (u32 a =? u32 b).
Proof. unfold switch_hash_equalkeys_int. by rewrite !(u32_small (u32 _)) by apply u32_range. Qed.

Lemma int_eq_l a b : switch_hash_equalkeys_int (u32 a) b = (u32 a =? u32 b).
Proof. unfold switch_hash_equalkeys_int. by rewrite (u32_small (u32 _)) by apply u32_range. Qed.

Lemma inthash_init_ok : inthash_ok (inthash_init (V := V)) /\ entries (inthash_init (V := V)) = [].
Proof.
  unfold inthash_init, switch_core_inthash_init.
  destruct (create_spec (K := Z) (V := V) 16 switch_hash_default_int switch_hash_equalkeys_int)
    as (t & -> & [Hs _ _] & HN & _ & HF & HQ); [lia|]. simpl.
  split; [|done]. constructor; try done. rewrite HN. constructor.
Qed.

Lemma inthash_insert_spec t key val :
  inthash_ok t -> inthash_ok (inthash_insert t key val)
  /\ exists t1 w log, switch_hashtable_remove t (u32 key) = (w, log, t1)
     /\ entries (inthash_insert t key val)
        ≡ₚ mk_entry (u32 key) val (hash t (u32 key)) copied None :: entries t1.
Proof.
  intros Hok. pose proof (int_laws t Hok) as HK. destruct Hok as [Hs HH HQ HP].
  unfold inthash_insert, switch_core_inthash_insert. fold copied. rewrite insert_is_fresh by done.
  destruct (switch_hashtable_remove t (u32 key)) as [[w log] t1] eqn:E.
  destruct (remove_absent t _ _ _ _ Hs E) as (S1 & F1 & Q1 & HF & _ & _).
  set (e := mk_entry _ _ _ _ _).
  assert (hash t (u32 key) = hash t1 (k e)) as He by (unfold hash; by rewrite F1).
  assert (KeyLaws (hashfn t1) (eqfn t1)) by (by rewrite F1, Q1).
  destruct (insert_fresh mem_ok t1 (hash t (u32 key)) e) as [[r t2]|] eqn:E2.
  2: { exfalso. destruct (insert_defined t mem_ok (u32 key) val copied None (or_introl eq_refl))
         as (? & ? & ? & E3). rewrite insert_is_fresh, E in E3 by done. fold e in E3. by rewrite E2 in E3. }
  rewrite He in E2. rewrite <- Q1 in HF.
  destruct (insert_fresh_spec mem_ok t1 e r t2 S1 He HF E2) as (S2 & F2 & Q2 & [(_ & _ & P2 & _)|(_ & ? & _)]); [|done].
  split; [|by exists t1, w, log]. constructor; [done|congruence|congruence|].
  rewrite P2. constructor; [done|].
  pose proof (remove_spec t Hs (u32 key)) as HR. rewrite E in HR.
  destruct HR as [(_ & -> & _)|(e0 & _ & HP0 & _)]; [done|]. rewrite HP0 in HP. by inversion HP.
Qed.

Lemma inthash_remove_spec t key val log t' :
  inthash_ok t -> switch_hashtable_remove t (u32 key) = (val, log, t') ->
  inthash_ok t' /\ val = switch_hashtable_search t (u32 key)
  /\ (forall key', switch_hashtable_search t' (u32 key')
       = if u32 key =? u32 key' then None else switch_hashtable_search t (u32 key'))
  /\ (forall e, e ∈ entries t -> eqfn t (u32 key) (k e) = true ->
       length (entries t) = S (length (entries t'))).
Proof.
  intros Hok E. pose proof (int_laws t Hok) as HK. destruct Hok as [Hs HH HQ HP].
  destruct (remove_absent t _ _ _ _ Hs E) as (S1 & F1 & Q1 & HF & HA & _).
  assert (KeyLaws (hashfn t') (eqfn t')) by (by rewrite F1, Q1).
  pose proof (sh_distinct _ Hs) as HD. pose proof (remove_spec t Hs (u32 key)) as HR. rewrite E in HR.
  assert (inthash_ok t') as Hok'.
  { constructor; [done|congruence|congruence|].
    destruct HR as [(_ & -> & _)|(e0 & _ & HP0 & _)]; [done|]. rewrite HP0 in HP. by inversion HP. }
  split; [done|]. rewrite (search_assoc t Hs). split_and!.
  - destruct HR as [(HN & -> & -> & _)|(e0 & He & HP0 & _ & Hrel & _)]; [by rewrite assoc_none|].
    rewrite (assoc_perm (ef := eqfn t) _ _ _ HP0 HD). simpl. rewrite He.
    rewrite HP0 in HP. inversion HP as [|? ? [Hfl Hd] _]; subst. unfold release in Hrel.
    rewrite Hfl, Hd in Hrel. simpl in Hrel. by injection Hrel as <- <-.
  - intros key'. rewrite !search_assoc by done. rewrite <- int_eq, <- HQ, Q1.
    destruct (eqfn t (u32 key) (u32 key')) eqn:Ek; [|by apply HA].
    apply assoc_none. eapply Forall_impl; [exact HF|]. simpl. intros e' He'. by eapply eqfn_diff.
  - intros e He Hk. destruct HR as [(HN & _)|(e0 & _ & HP0 & _)]; [|by rewrite HP0].
    rewrite Forall_forall in HN. apply HN in He. congruence.
Qed.

End inthash.

#[export] Program Instance table_inthash_laws : IntHashLaws switch_inthash_t := {
  ih_ok V := inthash_ok;
}.
Next Obligation. intros V. apply inthash_init_ok. Qed.
Next Obligation. intros V t key val Hok. by apply inthash_insert_spec. Qed.
Next Obligation.
  intros V t key Hok. simpl. unfold switch_core_inthash_delete.
  destruct (switch_hashtable_remove t (u32 key)) as [[w log] t1] eqn:E. by eapply inthash_remove_spec.
Qed.
Next Obligation.
  intros V key. simpl. unfold switch_core_inthash_find. destruct (inthash_init_ok (V := V)) as [Hok HN].
  pose proof (int_laws _ Hok). rewrite (search_assoc _ (io_shaped _ Hok)). by rewrite HN.
Qed.
Next Obligation.
  intros V t key val key' Hok. simpl. unfold switch_core_inthash_find.
  destruct (inthash_insert_spec t key val Hok) as (Hok' & t1 & w & log & E & HP).
  destruct (inthash_remove_spec t key w log t1 Hok E) as (Hok1 & _ & HS & _).
  pose proof (int_laws _ Hok'). pose proof (int_laws _ Hok1).
  rewrite (search_assoc _ (io_shaped _ Hok')).
  rewrite (assoc_perm (ef := eqfn (inthash_insert t key val)) _ _ _ HP (sh_distinct _ (io_shaped _ Hok'))). simpl.
  rewrite (io_eq _ Hok'), int_eq, (Z.eqb_sym (u32 key')). specialize (HS key').
  destruct (u32 key =? u32 key'); [done|]. by rewrite <- HS, (search_assoc _ (io_shaped _ Hok1)), (io_eq _ Hok1).
Qed.
Next Obligation.
  intros V t key key' Hok. simpl. unfold switch_core_inthash_delete, switch_core_inthash_find.
  destruct (switch_hashtable_remove t (u32 key)) as [[w log] t1] eqn:E. by eapply inthash_remove_spec.
Qed.
Next Obligation.
  intros V t key Hok. simpl. unfold switch_core_inthash_delete, switch_core_inthash_find.
  destruct (switch_hashtable_remove t (u32 key)) as [[w log] t1] eqn:E. by eapply inthash_remove_spec.
Qed.
Next Obligation.
  intros V t key val Hok Hin. simpl in *. rewrite (visited_entries _ (io_shaped _ Hok)) in *. apply list_elem_of_fmap in Hin as (e & [= -> ->] & He).
  pose proof (int_laws _ Hok). unfold switch_core_inthash_find. rewrite (search_assoc _ (io_shaped _ Hok)).
  apply elem_of_Permutation in He as [l HP].
  rewrite (assoc_perm (ef := eqfn t) _ _ _ HP (sh_distinct _ (io_shaped _ Hok))). simpl.
  by rewrite (io_eq _ Hok), int_eq_l, Z.eqb_refl.
Qed.
Next Obligation.
  intros V t key val Hok. simpl. rewrite (visited_entries _ (io_shaped _ Hok)).
  pose proof (int_laws _ Hok). unfold switch_core_inthash_find.
  rewrite (search_assoc _ (io_shaped _ Hok)). rewrite (io_eq _ Hok). induction (entries t) as [|e l IH]; simpl; [done|].
  rewrite int_eq_l. destruct (Z.eqb_spec (u32 key) (u32 (k e))) as [Ek|Ek].
  - intros Hv. exists (k e). split; [done|]. rewrite <- Hv. left.
  - intros Hv. destruct (IH Hv) as (key' & H1 & H2). exists key'. split; [done|by right].
Qed.
Next Obligation.
  intros V t key val Hok Hin. simpl in *. rewrite (visited_entries _ (io_shaped _ Hok)) in *. apply list_elem_of_fmap in Hin as (e & [= -> ->] & He).
  unfold switch_core_inthash_delete.
  destruct (switch_hashtable_remove t (u32 (k e))) as [[w log] t1] eqn:E. simpl.
  destruct (inthash_remove_spec t _ _ _ _ Hok E) as (Hok1 & _ & _ & HL).
  rewrite (visited_entries _ (io_shaped _ Hok1)), !length_map.
  apply (HL e He). by rewrite (io_eq _ Hok), int_eq_l, Z.eqb_refl.
Qed.
Next Obligation.
  intros V. destruct (inthash_init_ok (V := V)) as [Hok HN].
  change (map (fun e => (k e, v e)) (visited (inthash_init (V := V))) = []).
  by rewrite (visited_entries _ (io_shaped _ Hok)), HN.
Qed.
Next Obligation.
  intros V t key val key' val' Hok. simpl. destruct (inthash_insert_spec t key val Hok) as (Hok' & t1 & w & log & E & HP).
  rewrite (visited_entries _ (io_shaped _ Hok)), (visited_entries _ (io_shaped _ Hok')).
  intros Hin. apply list_elem_of_fmap in Hin as (e & [= -> ->] & He). rewrite HP in He.
  apply elem_of_cons in He as [->|He]; [by right|]. left. apply list_elem_of_fmap. exists e. split; [done|].
  pose proof (int_laws _ Hok). pose proof (remove_spec t (io_shaped _ Hok) (u32 key)) as HR. rewrite E in HR.
  destruct HR as [(_ & -> & _)|(e0 & _ & HP0 & _)]; [done|]. rewrite HP0. by right.
Qed.
Next Obligation.
  intros V t key key' val' Hok. simpl. unfold switch_core_inthash_delete.
  destruct (switch_hashtable_remove t (u32 key)) as [[w log] t1] eqn:E. simpl.
  destruct (inthash_remove_spec t key w log t1 Hok E) as (Hok1 & _).
  rewrite (visited_entries _ (io_shaped _ Hok)), (visited_entries _ (io_shaped _ Hok1)).
  intros Hin. apply list_elem_of_fmap in Hin as (e & [= -> ->] & He). apply list_elem_of_fmap. exists e. split; [done|].
  pose proof (int_laws _ Hok). pose proof (remove_spec t (io_shaped _ Hok) (u32 key)) as HR. rewrite E in HR.
  destruct HR as [(_ & -> & _)|(e0 & _ & HP0 & _)]; [done|]. rewrite HP0. by right.
Qed.

(** ** Properties *)

(** Integer hash operations against the abstract map from 32-bit keys to
    non-NULL values. *)
Inductive int_op (V : Type) := IntInsert (key : Z) (val : option V) | IntDelete (key : Z).
Arguments IntInsert {V}.
Arguments IntDelete {V}.

Definition int_step {V} `{!IntHash T} (t : T V) (o : int_op V) : T V :=
  match o with
  | IntInsert key val => ih_insert t key val
  | IntDelete key => (ih_delete t key).2
  end.

Definition map_step {V} (m : gmap Z V) (o : int_op V) : gmap Z V :=
  match o with
  | IntInsert key (Some val) => <[u32 key := val]> m
  | IntInsert key None | IntDelete key => delete (u32 key) m
  end.

Lemma int_step_map {V} `{IntHashLaws T} (t : T V) (m : gmap Z V) o :
  ih_ok t -> (forall key, ih_find t key = m !! u32 key) ->
  ih_ok (int_step t o) /\ forall key, ih_find (int_step t o) key = map_step m o !! u32 key.
Proof.
  intros Hok Hm. destruct o as [key0 val|key0]; simpl.
  - split; [by apply ih_insert_ok|]. intros key. rewrite ih_find_insert by done.
    destruct (Z.eqb_spec (u32 key0) (u32 key)) as [E|E], val as [x|]; simpl; rewrite ?Hm.
    + by rewrite E, lookup_insert_eq.
    + by rewrite E, lookup_delete_eq.
    + by rewrite lookup_insert_ne.
    + by rewrite lookup_delete_ne.
  - split; [by apply ih_delete_ok|]. intros key. rewrite ih_find_delete by done.
    destruct (Z.eqb_spec (u32 key0) (u32 key)) as [E|E]; rewrite ?Hm.
    + by rewrite E, lookup_delete_eq.
    + by rewrite lookup_delete_ne.
Qed.

(** C8. The integer hash refines a finite map: after any sequence of insertions
    and deletions on a new hash, with memory available, a find returns what the map from 32-bit keys
    to values holds, a NULL value counting as no binding. *)
Theorem inthash_refines_map {V} (ops : list (int_op V)) key :
  switch_core_inthash_find (foldl int_step inthash_init ops) key = foldl map_step ∅ ops !! u32 key.
Proof.
  assert (forall (t : switch_inthash_t V) m, ih_ok t -> (forall key, ih_find t key = m !! u32 key) ->
    forall key, ih_find (foldl int_step t ops) key = foldl map_step m ops !! u32 key) as H.
  { induction ops as [|o ops IH]; intros t m Hok Hm; simpl; [done|].
    destruct (int_step_map t m o Hok Hm). by apply IH. }
  refine (H inthash_init ∅ ih_init_ok _ key). intros key'. exact (ih_find_init key').
Qed.

(** Key copies of the string hash.  From a new hash (case sensitive or not)
    run any of the insertion wrappers and deletions, then destroy the hash:
    every key copy made by a wrapper is freed exactly once, on the failure
    paths too. *)
Theorem core_hash_keys_freed {V} case_sensitive (t : switch_hash_t V) ops log t' :
  switch_core_hash_init_case case_sensitive = (SWITCH_STATUS_SUCCESS, Some t) ->
  core_run ops t = Some (log, t') ->
  freed_keys (log ++ (switch_core_hash_destroy t').2) ≡ₚ flat_map duplicated ops.
Proof.
  intros E Hrun. assert (shaped t /\ entries t = [] /\ KeyLaws (hashfn t) (eqfn t)) as (Hs & HN & HK).
  { unfold switch_core_hash_init_case in E. destruct case_sensitive.
    - destruct (create_spec (V := V) 16 switch_hash_default switch_hash_equalkeys)
        as (t0 & E0 & [Hs _ _] & HN & _ & HF & HQ); [lia|].
      rewrite E in E0. injection E0 as <-. split_and!; try done. rewrite HF, HQ. apply string_key_laws.
    - destruct (create_spec (V := V) 16 switch_hash_default_ci switch_hash_equalkeys_ci)
        as (t0 & E0 & [Hs _ _] & HN & _ & HF & HQ); [lia|].
      rewrite E in E0. injection E0 as <-. split_and!; try done. rewrite HF, HQ. apply string_ci_key_laws. }
  pose proof (core_run_owned ops t log t' Hs Hrun) as HO. rewrite HN in HO. simpl in HO.
  rewrite freed_keys_app. simpl. by rewrite destroy_keys.
Qed.

Lemma core_hash_keys_freed_witness :
  exists (t : switch_hash_t Z) log t',
    core_run [InsertDestructor mem_ok [97; 98] (Some 1) None;
              InsertAutoFree {| mem_table := true; mem_realloc := true; mem_entry := false |} [65; 66] (Some 2);
              Delete [97; 98]] t = Some (log, t')
    /\ freed_keys (log ++ (switch_core_hash_destroy t').2) ≡ₚ [[97; 98]; [65; 66]].
Proof.
  destruct (create_spec (K := list Z) (V := Z) 16 switch_hash_default_ci switch_hash_equalkeys_ci)
    as (t & E & _); [lia|].
  destruct (core_run_defined [InsertDestructor mem_ok [97; 98] (Some 1) None;
              InsertAutoFree {| mem_table := true; mem_realloc := true; mem_entry := false |} [65; 66] (Some 2);
              Delete [97; 98]] t) as (log & t' & E2); [repeat constructor|].
  exists t, log, t'. split; [exact E2|]. exact (core_hash_keys_freed false t _ log t' E E2).
Defined.

(** The integer hash leaks its key copy on failure: when the table cannot
    allocate an entry, switch_core_inthash_insert reports
    SWITCH_STATUS_FALSE, and the keys freed then and by destroying the hash are
    those the hash owned before: the copy just allocated is not among them. *)
Theorem inthash_insert_leaks {V} (t : switch_inthash_t V) mem key val status log t' :
  inthash_ok t -> mem_entry mem = false ->
  switch_core_inthash_insert mem t key val = Some (status, log, t') ->
  status = SWITCH_STATUS_FALSE
  /\ freed_keys (log ++ (switch_core_inthash_destroy t').2) ≡ₚ owned (entries t).
Proof.
  intros Hok Hm. unfold switch_core_inthash_insert. fold copied.
  destruct (switch_hashtable_insert_destructor mem t (u32 key) val copied None) as [[[r log0] t0]|] eqn:E; [|done].
  intros [= <- <- <-]. rewrite (insert_result _ _ _ _ _ _ _ _ _ E), Hm. split; [done|].
  pose proof (int_laws t Hok) as HK.
  destruct (insert_owned t mem (u32 key) val copied None r log0 t0 (io_shaped _ Hok) eq_refl E) as (_ & _ & _ & HO).
  rewrite Hm, app_nil_r in HO. rewrite freed_keys_app. simpl. by rewrite destroy_keys.
Qed.

Lemma inthash_insert_leaks_witness :
  exists status log (t' : switch_inthash_t Z),
    switch_core_inthash_insert {| mem_table := true; mem_realloc := true; mem_entry := false |}
      inthash_init 5 (Some 1) = Some (status, log, t')
    /\ freed_keys (log ++ (switch_core_inthash_destroy t').2) ≡ₚ [].
Proof.
  destruct (insert_defined (inthash_init (V := Z)) {| mem_table := true; mem_realloc := true; mem_entry := false |}
    (u32 5) (Some 1) copied None) as (r & log & t' & E); [left; reflexivity|].
  assert (switch_core_inthash_insert {| mem_table := true; mem_realloc := true; mem_entry := false |}
      inthash_init 5 (Some 1)
    = Some (if negb (r =? 0) then SWITCH_STATUS_SUCCESS else SWITCH_STATUS_FALSE, log, t')) as E2.
  { unfold switch_core_inthash_insert. fold copied. by rewrite E. }
  destruct (inthash_init_ok (V := Z)) as [Hok HN].
  eexists _, log, t'. split; [exact E2|]. change [] with (owned (@nil (entry Z Z))). rewrite <- HN.
  exact (proj2 (inthash_insert_leaks inthash_init
    {| mem_table := true; mem_realloc := true; mem_entry := false |} 5 (Some 1) _ log t' Hok eq_refl E2)).
Defined.

End CoreHash.
