(* ===== verification/Queue.v ===== *)
(** * The blocking queue (src/src/switch_apr_queue.c)

    A bounded ring buffer with blocking, non-blocking and timed operations,
    built on one mutex and two condition variables of the portable runtime.

    All accesses to the ring happen between a lock and an unlock (or a wait) of
    [one_big_mutex], so each such stretch of code is one function here and one
    atomic step of the system; the tests of [terminated] that the source makes
    without the mutex are steps of their own.  [step] interleaves the calls of
    any number of threads.  The mutex and condition variables belong to the
    runtime and are modelled by their documented behaviour: locking and
    signalling succeed, a signal wakes one waiting thread if there is one, a
    broadcast wakes all, a wait may also end spuriously, and a timed wait may
    end with APR_TIMEUP. *)

From S2P Require Import Prelude.

Module Queue.

Inductive fspr_status_t := APR_SUCCESS | APR_EOF | APR_EINTR | APR_EAGAIN | APR_TIMEUP.

#[export] Instance fspr_status_t_eq_dec : EqDecision fspr_status_t.
Proof. solve_decision. Defined.

Section queue.
Context {V : Type}.

(** Elements are pointers; NULL is [None]. *)
Record switch_apr_queue_t := mk_queue {
  data : list (option V);
  nelts : Z;
  in_ : Z;
  out : Z;
  bounds : Z;
  full_waiters : Z;
  empty_waiters : Z;
  terminated : bool;
}.

#[export] Instance rebuild_queue : Rebuild switch_apr_queue_t := fun q =>
  mk_queue (data q) (nelts q) (in_ q) (out q) (bounds q) (full_waiters q) (empty_waiters q) (terminated q).
#[export] Instance set_data : Setter data := ltac:(derive_setter).
#[export] Instance set_nelts : Setter nelts := ltac:(derive_setter).
#[export] Instance set_in : Setter in_ := ltac:(derive_setter).
#[export] Instance set_out : Setter out := ltac:(derive_setter).
#[export] Instance set_full_waiters : Setter full_waiters := ltac:(derive_setter).
#[export] Instance set_empty_waiters : Setter empty_waiters := ltac:(derive_setter).
#[export] Instance set_terminated : Setter terminated := ltac:(derive_setter).

Implicit Types q : switch_apr_queue_t.

Definition apr_queue_full q : bool := nelts q =? bounds q.
Definition apr_queue_empty q : bool := nelts q =? 0.

Definition switch_apr_queue_create (queue_capacity : Z) : switch_apr_queue_t :=
  mk_queue (replicate (Z.to_nat queue_capacity) None) 0 0 0 queue_capacity 0 0 false.

Definition switch_apr_queue_size q : Z := nelts q.

(** ** Critical sections *)

(** What a thread does to the condition variables before it unlocks. *)
Inductive wake := NoWake | SignalNotEmpty | SignalNotFull | BroadcastBoth.

(** How a critical section ends: the call returns, it waits on its condition
    variable, it unlocks and looks at [terminated] once more, or (term) it goes
    on with switch_apr_queue_interrupt_all. *)
Inductive outcome :=
  | Return (rv : fspr_status_t) (d : option (option V)) (w : wake)
  | Wait
  | Interrupted
  | InterruptNext.

(** The end of push and trypush: store, then signal a waiting popper. *)
Definition put q (d : option V) : outcome * switch_apr_queue_t :=
  let q := q <| data := <[Z.to_nat (in_ q) := d]> (data q) |> in
  let q := q <| in_ := u32 (in_ q + 1) mod bounds q |> in
  let q := q <| nelts := u32 (nelts q + 1) |> in
  (Return APR_SUCCESS None (if negb (empty_waiters q =? 0) then SignalNotEmpty else NoWake), q).

(** The end of pop, pop_timeout and trypop: fetch, then signal a waiting pusher. *)
Definition take_ q : outcome * switch_apr_queue_t :=
  let d := data q !! Z.to_nat (out q) in
  let q := q <| nelts := u32 (nelts q - 1) |> in
  let q := q <| out := u32 (out q + 1) mod bounds q |> in
  (Return APR_SUCCESS d (if negb (full_waiters q =? 0) then SignalNotFull else NoWake), q).

(** push, from the lock to the wait or the end. *)
Definition push_locked q (d : option V) : outcome * switch_apr_queue_t :=
  if apr_queue_full q then
    if negb (terminated q) then (Wait, q <| full_waiters := u32 (full_waiters q + 1) |>)
    else (Interrupted, q)
  else put q d.

(** push, from the return of the wait (with [rv]) to the end. *)
Definition push_woken q (d : option V) (rv : fspr_status_t) : outcome * switch_apr_queue_t :=
  let q := q <| full_waiters := u32 (full_waiters q - 1) |> in
  if negb (bool_decide (rv = APR_SUCCESS)) then (Return rv None NoWake, q)
  else if apr_queue_full q then (Interrupted, q)
  else put q d.

Definition trypush_locked q (d : option V) : outcome * switch_apr_queue_t :=
  if apr_queue_full q then (Return APR_EAGAIN None NoWake, q) else put q d.

(** pop, the same way. *)
Definition pop_locked q : outcome * switch_apr_queue_t :=
  if apr_queue_empty q then
    if negb (terminated q) then (Wait, q <| empty_waiters := u32 (empty_waiters q + 1) |>)
    else (Interrupted, q)
  else take_ q.

Definition pop_woken q (rv : fspr_status_t) : outcome * switch_apr_queue_t :=
  let q := q <| empty_waiters := u32 (empty_waiters q - 1) |> in
  if negb (bool_decide (rv = APR_SUCCESS)) then (Return rv None NoWake, q)
  else if apr_queue_empty q then (Interrupted, q)
  else take_ q.

(** pop_timeout has the code of pop with a timed wait in the place of the wait;
    its wait may also return APR_TIMEUP. *)
Definition pop_timeout_locked q : outcome * switch_apr_queue_t := pop_locked q.
Definition pop_timeout_woken q (rv : fspr_status_t) : outcome * switch_apr_queue_t := pop_woken q rv.

Definition trypop_locked q : outcome * switch_apr_queue_t :=
  if apr_queue_empty q then (Return APR_EAGAIN None NoWake, q) else take_ q.

Definition interrupt_all_locked q : outcome * switch_apr_queue_t := (Return APR_SUCCESS None BroadcastBoth, q).

Definition term_locked q : outcome * switch_apr_queue_t := (InterruptNext, q <| terminated := true |>).

(** After an interrupted wait, with the mutex released. *)
Definition after_interrupt q : fspr_status_t := if terminated q then APR_EOF else APR_EINTR.

(** ** Threads *)

Inductive call := Push (d : option V) | TryPush (d : option V) | Pop | PopTimeout | TryPop | InterruptAll | Term.

Inductive thread :=
  | Idle
  | Called (c : call)                  (* at the first line *)
  | Locking (c : call)                 (* about to take the mutex *)
  | Blocked (c : call)                 (* inside the condition wait *)
  | Woken (c : call) (rv : fspr_status_t)  (* leaving the wait, about to retake the mutex *)
  | Unlocked (c : call)                (* interrupted, mutex released *)
  | Returned (c : call) (rv : fspr_status_t) (d : option (option V)).

(** [if (queue->terminated) return APR_EOF;], where the function starts with it. *)
Definition check_terminated q (c : call) : thread :=
  match c with
  | InterruptAll | Term => Locking c
  | _ => if terminated q then Returned c APR_EOF None else Locking c
  end.

Definition locked q (c : call) : outcome * switch_apr_queue_t :=
  match c with
  | Push d => push_locked q d
  | TryPush d => trypush_locked q d
  | Pop => pop_locked q
  | PopTimeout => pop_timeout_locked q
  | TryPop => trypop_locked q
  | InterruptAll => interrupt_all_locked q
  | Term => term_locked q
  end.

Definition woken q (c : call) (rv : fspr_status_t) : outcome * switch_apr_queue_t :=
  match c with
  | Push d => push_woken q d rv
  | PopTimeout => pop_timeout_woken q rv
  | _ => pop_woken q rv
  end.

Definition after (c : call) (o : outcome) : thread :=
  match o with
  | Return rv d _ => Returned c rv d
  | Wait => Blocked c
  | Interrupted => Unlocked c
  | InterruptNext => Locking InterruptAll
  end.

Definition wake_of (o : outcome) : wake := match o with Return _ _ w => w | _ => NoWake end.

(** Threads blocked on [not_empty] and on [not_full]. *)
Definition on_empty (t : thread) : bool := match t with Blocked Pop | Blocked PopTimeout => true | _ => false end.
Definition on_full (t : thread) : bool := match t with Blocked (Push _) => true | _ => false end.

Definition wake_thread (t : thread) : thread := match t with Blocked c => Woken c APR_SUCCESS | t => t end.

(** The effect of the condition variable calls on the waiting threads. *)
Inductive wakes : wake -> list thread -> list thread -> Prop :=
  | wakes_none ts : wakes NoWake ts ts
  | wakes_empty_nobody ts : Forall (fun t => on_empty t = false) ts -> wakes SignalNotEmpty ts ts
  | wakes_empty ts j t : ts !! j = Some t -> on_empty t = true ->
      wakes SignalNotEmpty ts (<[j := wake_thread t]> ts)
  | wakes_full_nobody ts : Forall (fun t => on_full t = false) ts -> wakes SignalNotFull ts ts
  | wakes_full ts j t : ts !! j = Some t -> on_full t = true ->
      wakes SignalNotFull ts (<[j := wake_thread t]> ts)
  | wakes_all ts : wakes BroadcastBoth ts (map wake_thread ts).

(** What a step does to the contents of the queue. *)
Inductive event := Pushed (d : option V) | Popped (d : option V).

Definition event_of (c : call) (o : outcome) : list event :=
  match o with
  | Return APR_SUCCESS (Some d) _ => [Popped d]
  | Return APR_SUCCESS None _ => match c with Push d | TryPush d => [Pushed d] | _ => [] end
  | _ => []
  end.

(** The system: the queue and the threads that use it. *)
Inductive step : switch_apr_queue_t * list thread -> list event -> switch_apr_queue_t * list thread -> Prop :=
  | step_call q ts i c t : ts !! i = Some t -> (t = Idle \/ exists c' rv d, t = Returned c' rv d) ->
      step (q, ts) [] (q, <[i := Called c]> ts)
  | step_entry q ts i c : ts !! i = Some (Called c) ->
      step (q, ts) [] (q, <[i := check_terminated q c]> ts)
  | step_locked q ts i c o q' ts' : ts !! i = Some (Locking c) -> locked q c = (o, q') ->
      wakes (wake_of o) (<[i := after c o]> ts) ts' ->
      step (q, ts) (event_of c o) (q', ts')
  | step_spurious q ts i c : ts !! i = Some (Blocked c) ->
      step (q, ts) [] (q, <[i := Woken c APR_SUCCESS]> ts)
  | step_timeout q ts i : ts !! i = Some (Blocked PopTimeout) ->
      step (q, ts) [] (q, <[i := Woken PopTimeout APR_TIMEUP]> ts)
  | step_woken q ts i c rv o q' ts' : ts !! i = Some (Woken c rv) -> woken q c rv = (o, q') ->
      wakes (wake_of o) (<[i := after c o]> ts) ts' ->
      step (q, ts) (event_of c o) (q', ts')
  | step_unlocked q ts i c : ts !! i = Some (Unlocked c) ->
      step (q, ts) [] (q, <[i := Returned c (after_interrupt q) None]> ts).

(** Executions of [n] threads on a new queue, with their events. *)
Inductive exec (cap : Z) (n : nat) : list event -> switch_apr_queue_t * list thread -> Prop :=
  | exec_start : exec cap n [] (switch_apr_queue_create cap, replicate n Idle)
  | exec_step es s es' s' : exec cap n es s -> step s es' s' -> exec cap n (es ++ es') s'.

End queue.
Arguments switch_apr_queue_t : clear implicits.
Arguments thread : clear implicits.
Arguments call : clear implicits.
Arguments outcome : clear implicits.
Arguments event : clear implicits.

Section invariants.
Context {V : Type}.
Implicit Types (q : switch_apr_queue_t V) (t : thread V) (ts : list (thread V)).

(** Threads between the increment and the decrement of a waiter counter, and
    threads that have been woken to use the queue. *)
Definition waits_empty t : bool :=
  match t with Blocked (Pop | PopTimeout) | Woken (Pop | PopTimeout) _ => true | _ => false end.
Definition waits_full t : bool :=
  match t with Blocked (Push _) | Woken (Push _) _ => true | _ => false end.
Definition ready_empty t : bool :=
  match t with Woken (Pop | PopTimeout) APR_SUCCESS => true | _ => false end.
Definition ready_full t : bool := match t with Woken (Push _) APR_SUCCESS => true | _ => false end.
Definition interrupting t : bool := match t with Locking InterruptAll => true | _ => false end.

(** Only push, pop and pop_timeout wait. *)
Definition sane t : bool :=
  match t with
  | Blocked c | Woken c _ => match c with Push _ | Pop | PopTimeout => true | _ => false end
  | _ => true
  end.

Record ring q : Prop := {
  r_bounds : 0 <= bounds q < 2 ^ 32;
  r_nelts : 0 <= nelts q <= bounds q;
  r_len : Z.of_nat (length (data q)) = bounds q;
  r_out : 0 <= out q /\ (0 < bounds q -> out q < bounds q);
  r_in : in_ q = (out q + nelts q) mod bounds q;
}.

(** The elements in the queue, oldest first. *)
Definition contents q : list (option V) :=
  map (fun i => default None (data q !! Z.to_nat ((out q + Z.of_nat i) mod bounds q)))
      (seq 0 (Z.to_nat (nelts q))).

Lemma contents_length q : ring q -> Z.of_nat (length (contents q)) = nelts q.
Proof. intros []. unfold contents. rewrite length_map, length_seq. lia. Qed.

Lemma put_spec q d :
  ring q -> apr_queue_full q = false ->
  let q' := (put q d).2 in
  ring q' /\ contents q' = contents q ++ [d].
Proof.
  intros [H1 H2 H3 [H4 H4'] H5] Hf q'. unfold apr_queue_full in Hf. apply Z.eqb_neq in Hf.
  specialize (H4' ltac:(lia)).
  assert (0 <= in_ q < bounds q) as Hin by (rewrite H5; apply Z.mod_pos_bound; lia).
  assert (in_ q + 1 < 2 ^ 32) by lia.
  assert (nelts q' = nelts q + 1) as Hn by (unfold q'; simpl; apply u32_small; lia).
  assert (in_ q' = (in_ q + 1) mod bounds q) as Hi by (unfold q'; simpl; rewrite u32_small; lia).
  split.
  - constructor; try done.
    + rewrite Hn. simpl. lia.
    + simpl. by rewrite length_insert.
    + rewrite Hi, Hn, H5. simpl. rewrite Zplus_mod_idemp_l. f_equal. lia.
  - unfold contents. rewrite Hn, Z2Nat.inj_add by lia. rewrite seq_app, map_app. f_equal.
    + apply map_ext_in. intros i Hi'. apply in_seq in Hi'. simpl.
      rewrite list_lookup_insert_ne; [done|]. rewrite H5. intros E.
      apply Z2Nat.inj in E; try (apply Z.mod_pos_bound; lia).
      assert ((out q + nelts q) mod bounds q = (out q + Z.of_nat i) mod bounds q) as E' by lia.
      revert E'. apply mod_shift_ne; lia.
    + simpl. f_equal. rewrite Z2Nat.id, <- H5 by lia. by rewrite list_lookup_insert_eq by lia.
Qed.

Lemma take_spec q :
  ring q -> apr_queue_empty q = false ->
  let q' := (take_ q).2 in
  ring q' /\ exists d, data q !! Z.to_nat (out q) = Some d /\ contents q = d :: contents q'.
Proof.
  intros [H1 H2 H3 [H4 H4'] H5] Hf q'. unfold apr_queue_empty in Hf. apply Z.eqb_neq in Hf.
  specialize (H4' ltac:(lia)).
  assert (nelts q' = nelts q - 1) as Hn by (unfold q'; simpl; apply u32_small; lia).
  assert (out q' = (out q + 1) mod bounds q) as Ho by (unfold q'; simpl; rewrite u32_small; lia).
  assert (0 <= out q' < bounds q) by (rewrite Ho; apply Z.mod_pos_bound; lia).
  split.
  - constructor; try done.
    + rewrite Hn. simpl. lia.
    + simpl bounds. lia.
    + rewrite Hn, Ho. simpl. rewrite H5, Zplus_mod_idemp_l. f_equal. lia.
  - destruct (lookup_lt_is_Some_2 (data q) (Z.to_nat (out q))) as [d Hd]; [lia|]. exists d. split; [done|].
    assert (data q' = data q) as Hdq by done. assert (bounds q' = bounds q) as Hbq by done. clearbody q'.
    unfold contents. rewrite Hn. replace (Z.to_nat (nelts q)) with (S (Z.to_nat (nelts q - 1))) by lia.
    simpl seq. simpl map. f_equal.
    + rewrite Z.add_0_r, Z.mod_small by lia. by rewrite Hd.
    + rewrite <- seq_shift, map_map. apply map_ext. intros i. rewrite Ho, Hdq, Hbq.
      rewrite Zplus_mod_idemp_l. do 4 f_equal. lia.
Qed.

(** ** The invariant of the system *)

Definition insane t : bool := negb (sane t).

Record inv (n : nat) q ts : Prop := {
  v_ring : ring q;
  v_len : length ts = n;
  v_sane : count insane ts = 0;
  v_empty_waiters : empty_waiters q = count waits_empty ts;
  v_full_waiters : full_waiters q = count waits_full ts;
  v_empty_wakeups : 0 < count on_empty ts -> nelts q <= count ready_empty ts;
  v_full_wakeups : 0 < count on_full ts -> bounds q - nelts q <= count ready_full ts;
  v_term : terminated q = true -> 0 < count on_empty ts + count on_full ts -> 0 < count interrupting ts;
}.

Lemma wakes_counts w ts ts' :
  wakes w ts ts' ->
  length ts' = length ts /\ count insane ts' = count insane ts
  /\ count waits_empty ts' = count waits_empty ts /\ count waits_full ts' = count waits_full ts
  /\ count interrupting ts' = count interrupting ts
  /\ count on_empty ts' <= count on_empty ts /\ count on_full ts' <= count on_full ts
  /\ count ready_empty ts <= count ready_empty ts' /\ count ready_full ts <= count ready_full ts'
  /\ (w = SignalNotEmpty -> 0 < count on_empty ts -> count ready_empty ts + 1 <= count ready_empty ts')
  /\ (w = SignalNotFull -> 0 < count on_full ts -> count ready_full ts + 1 <= count ready_full ts')
  /\ (w = BroadcastBoth -> count on_empty ts' = 0 /\ count on_full ts' = 0).
Proof.
  intros [ts0|ts0 H|ts0 j t Hj Ht|ts0 H|ts0 j t Hj Ht|ts0]; try apply count_zero in H;
    try (split_and!; try done; try lia; congruence).
  - rewrite length_insert, !(count_insert _ _ _ _ _ Hj).
    destruct t as [|? |? |[]|? |? |]; simpl in *; try done; split_and!; try done; lia.
  - rewrite length_insert, !(count_insert _ _ _ _ _ Hj).
    destruct t as [|? |? |[]|? |? |]; simpl in *; try done; split_and!; try done; lia.
  - assert (count on_empty (map wake_thread ts0) = 0) as H1
      by (apply count_zero; clear; induction ts0 as [|[]]; by constructor).
    assert (count on_full (map wake_thread ts0) = 0) as H2
      by (apply count_zero; clear; induction ts0 as [|[]]; by constructor).
    rewrite (count_map ready_empty (fun t => ready_empty t || on_empty t)) by (by intros [| | |[]|[] []| |]).
    rewrite (count_map ready_full (fun t => ready_full t || on_full t)) by (by intros [| | |[]|[] []| |]).
    rewrite length_map, H1, H2. split_and!; try done; try apply count_nonneg;
      try (apply count_map; by intros [| | |[]| | |]);
      apply count_le; intros x ->; done.
Qed.

(** A thread [i] goes from [t] to [t'] while the queue goes from [q] to [q'],
    then wakes others. *)
Lemma inv_move n q ts i t t' q' w ts' :
  inv n q ts -> ts !! i = Some t -> wakes w (<[i := t']> ts) ts' ->
  ring q' -> bounds q' = bounds q -> insane t' = false ->
  empty_waiters q' = empty_waiters q - Z.b2z (waits_empty t) + Z.b2z (waits_empty t') ->
  full_waiters q' = full_waiters q - Z.b2z (waits_full t) + Z.b2z (waits_full t') ->
  (nelts q' = 0 \/ empty_waiters q' = 0
   \/ on_empty t' = false
      /\ nelts q' + Z.b2z (ready_empty t) <= nelts q + (if w is SignalNotEmpty then 1 else 0)) ->
  (nelts q' = bounds q' \/ full_waiters q' = 0
   \/ on_full t' = false
      /\ nelts q - nelts q' + Z.b2z (ready_full t) <= (if w is SignalNotFull then 1 else 0)) ->
  (terminated q' = true -> w = BroadcastBoth \/ interrupting t' = true
     \/ (terminated q = true /\ interrupting t = false /\ on_empty t' = false /\ on_full t' = false)) ->
  inv n q' ts'.
Proof.
  intros [R L S EW FW LE LF T] Hi Hw R' Hb Hs HE HF HLE HLF HT.
  destruct (wakes_counts _ _ _ Hw) as (W1 & W2 & W3 & W4 & W5 & W6 & W7 & W8 & W9 & WA & WB & WC).
  rewrite length_insert in W1.
  assert (forall p, count p (<[i := t']> ts) = count p ts - Z.b2z (p t) + Z.b2z (p t')) as C
    by (intros p; by apply count_insert).
  assert (count on_empty ts' <= count waits_empty ts') as LE1 by (apply count_le; by intros [| | |[]| | |]).
  assert (count on_full ts' <= count waits_full ts') as LF1 by (apply count_le; by intros [| | |[]| | |]).
  rewrite !C in *. rewrite Hs in W2.
  assert (Z.b2z (insane t) = 0) as Ht.
  { destruct (insane t) eqn:E; [|done]. pose proof (count_lookup _ _ _ _ Hi E). lia. }
  pose proof (count_nonneg on_empty ts'). pose proof (count_nonneg on_full ts').
  pose proof (count_nonneg ready_empty ts'). pose proof (count_nonneg ready_full ts').
  assert (0 <= Z.b2z (ready_empty t') /\ 0 <= Z.b2z (ready_full t')) as [B1 B2]
    by (destruct (ready_empty t'), (ready_full t'); simpl; lia).
  simpl in *. constructor; try done; try lia.
  - intros Hpos. destruct HLE as [?|[?|[E1 E2]]]; [lia|lia|]. rewrite E1 in *. simpl in *.
    specialize (LE ltac:(destruct (on_empty t); simpl in *; lia)).
    destruct w; simpl in *; try lia; specialize (WA eq_refl ltac:(lia)); lia.
  - intros Hpos. destruct HLF as [?|[?|[E1 E2]]]; [lia|lia|]. rewrite E1 in *. simpl in *.
    specialize (LF ltac:(destruct (on_full t); simpl in *; lia)).
    destruct w; simpl in *; try lia; specialize (WB eq_refl ltac:(lia)); lia.
  - intros Ht' Hpos. destruct (HT Ht') as [->|[E|(E1 & E2 & E3 & E4)]].
    + destruct (WC eq_refl). lia.
    + rewrite E in *. simpl in *. rewrite W5. pose proof (count_nonneg interrupting ts).
      destruct (interrupting t) eqn:Ei; simpl; [|lia]. pose proof (count_lookup _ _ _ _ Hi Ei). lia.
    + rewrite E2, E3, E4 in *. simpl in *.
      assert (0 < count on_empty ts + count on_full ts) as Hp
        by (destruct (on_empty t), (on_full t); simpl in *; lia).
      specialize (T E1 Hp). destruct (interrupting t'); simpl in *; lia.
Qed.

(** [q1] is [q] after a thread [t] that may have waited has left the waiter
    counters. *)
Record left q q1 t : Prop := {
  l_data : data q1 = data q; l_nelts : nelts q1 = nelts q; l_in : in_ q1 = in_ q; l_out : out q1 = out q;
  l_bounds : bounds q1 = bounds q; l_term : terminated q1 = terminated q;
  l_empty : empty_waiters q1 = empty_waiters q - Z.b2z (waits_empty t);
  l_full : full_waiters q1 = full_waiters q - Z.b2z (waits_full t);
}.

Lemma left_ring q q1 t : left q q1 t -> ring q -> ring q1 /\ contents q1 = contents q.
Proof.
  intros [D N I O B _ _ _] [R1 R2 R3 R4 R5]. split.
  - constructor; rewrite ?B, ?N, ?O, ?D, ?I; done.
  - unfold contents. by rewrite N, D, O, B.
Qed.

Lemma put_inv n q ts i t q1 d c ts' (o := (put q1 d).1) (q' := (put q1 d).2) :
  inv n q ts -> ts !! i = Some t -> left q q1 t ->
  on_empty t = false -> ready_empty t = false -> interrupting t = false -> apr_queue_full q1 = false ->
  wakes (wake_of o) (<[i := after c o]> ts) ts' ->
  inv n q' ts' /\ contents q' = contents q ++ [d].
Proof.
  intros I Hi Hl Hoe Hre Hin Hf Hw. destruct (left_ring _ _ _ Hl (v_ring _ _ _ I)) as [R1 C1].
  destruct (put_spec q1 d R1 Hf) as [R' C']. fold q' in R', C'. rewrite <- C1. split; [|exact C'].
  assert (nelts q' = nelts q + 1) as Hn.
  { rewrite <- (contents_length q'), <- (contents_length q), <- C1 by (done || apply I).
    rewrite C', length_app. simpl. lia. }
  destruct Hl as [D N I0 O B T E F].
  assert (empty_waiters q' = empty_waiters q1) as He by done.
  assert (full_waiters q' = full_waiters q1) as Hfw by done.
  assert (bounds q' = bounds q) as Hb by done. assert (terminated q' = terminated q) as Ht by done.
  assert (o = Return APR_SUCCESS None (if negb (empty_waiters q1 =? 0) then SignalNotEmpty else NoWake)) as Ho by done.
  clearbody q'. rewrite Ho in *. clear o Ho.
  eapply (inv_move n q ts i t _ _ _ _ I Hi Hw R' Hb); simpl; try done; rewrite ?He, ?Hfw, ?Ht, ?Hre; simpl; try lia.
  - destruct (Z.eqb_spec (empty_waiters q1) 0); simpl; [lia|right; right; split; [done|lia]].
  - right; right. split; [done|]. destruct (ready_full t), (negb _); simpl; lia.
  - tauto.
Qed.

Lemma take_inv n q ts i t q1 c ts' (o := (take_ q1).1) (q' := (take_ q1).2) :
  inv n q ts -> ts !! i = Some t -> left q q1 t ->
  on_full t = false -> ready_full t = false -> interrupting t = false -> apr_queue_empty q1 = false ->
  wakes (wake_of o) (<[i := after c o]> ts) ts' ->
  inv n q' ts' /\ exists d w, o = Return APR_SUCCESS (Some d) w /\ contents q = d :: contents q'.
Proof.
  intros I Hi Hl Hoe Hre Hin Hf Hw. destruct (left_ring _ _ _ Hl (v_ring _ _ _ I)) as [R1 C1].
  destruct (take_spec q1 R1 Hf) as (R' & d & Hd & C'). fold q' in R', C'. rewrite <- C1.
  assert (nelts q' = nelts q - 1) as Hn.
  { rewrite <- (contents_length q'), <- (contents_length q), <- C1 by (done || apply I).
    rewrite C'. simpl. lia. }
  destruct Hl as [D N I0 O B T E F].
  assert (empty_waiters q' = empty_waiters q1) as He by done.
  assert (full_waiters q' = full_waiters q1) as Hfw by done.
  assert (bounds q' = bounds q) as Hb by done. assert (terminated q' = terminated q) as Ht by done.
  assert (o = Return APR_SUCCESS (Some d) (if negb (full_waiters q1 =? 0) then SignalNotFull else NoWake)) as Ho
    by (unfold o; simpl; by rewrite Hd).
  clearbody q' o. rewrite Ho in *. clear o Ho. split; [|by eauto].
  eapply (inv_move n q ts i t _ _ _ _ I Hi Hw R' Hb); simpl; try done; rewrite ?He, ?Hfw, ?Ht, ?Hre; simpl; try lia.
  - right; right. split; [done|]. destruct (ready_empty t), (negb _); simpl; lia.
  - destruct (Z.eqb_spec (full_waiters q1) 0); simpl; [lia|right; right; split; [done|lia]].
  - tauto.
Qed.

(** Steps that leave the ring alone. *)
Lemma quiet_inv n q ts i t t' q1 :
  inv n q ts -> ts !! i = Some t -> left q q1 t ->
  waits_empty t' = false -> waits_full t' = false -> insane t' = false ->
  (ready_empty t = true -> nelts q = 0) -> (ready_full t = true -> nelts q = bounds q) ->
  interrupting t = false -> inv n q1 (<[i := t']> ts) /\ contents q1 = contents q.
Proof.
  intros I Hi Hl H1 H2 H3 H4 H5 H6. destruct (left_ring _ _ _ Hl (v_ring _ _ _ I)) as [R1 C1].
  destruct Hl as [D N I0 O B T E F]. split; [|done].
  assert (on_empty t' = false /\ on_full t' = false) as [H7 H8] by (by destruct t' as [| | |[]| | |]).
  eapply (inv_move n q ts i t t' q1 NoWake _ I Hi (wakes_none _) R1 B); rewrite ?H1, ?H2, ?N, ?B; simpl; try done; try lia.
  - destruct (ready_empty t) eqn:Et; [left; auto|right; right; split; [done|simpl; lia]].
  - destruct (ready_full t) eqn:Et; [left; auto|right; right; split; [done|simpl; lia]].
  - rewrite T. tauto.
Qed.

Definition pushed (es : list (event V)) : list (option V) :=
  flat_map (fun e => match e with Pushed d => [d] | Popped _ => [] end) es.
Definition popped (es : list (event V)) : list (option V) :=
  flat_map (fun e => match e with Popped d => [d] | Pushed _ => [] end) es.

(** What a step does, to the invariant and to the contents. *)
Definition sound n q es q' ts' : Prop :=
  inv n q' ts' /\ contents q ++ pushed es = popped es ++ contents q'.

Lemma quiet_sound n q ts i t t' q1 :
  inv n q ts -> ts !! i = Some t -> left q q1 t ->
  waits_empty t' = false -> waits_full t' = false -> insane t' = false ->
  (ready_empty t = true -> nelts q = 0) -> (ready_full t = true -> nelts q = bounds q) ->
  interrupting t = false -> sound n q [] q1 (<[i := t']> ts).
Proof.
  intros I Hi Hl H1 H2 H3 H4 H5 H6. destruct (quiet_inv n q ts i t t' q1) as [I' C]; try done.
  split; [done|]. rewrite C, app_nil_r. done.
Qed.

Lemma left_refl q t : waits_empty t = false -> waits_full t = false -> left q q t.
Proof. intros H1 H2. constructor; rewrite ?H1, ?H2; simpl; done || lia. Qed.

(** A thread that starts to wait, on a full or an empty queue. *)
Lemma wait_full_sound n q ts i d :
  Z.of_nat n < 2 ^ 32 -> inv n q ts -> ts !! i = Some (Locking (Push d)) ->
  apr_queue_full q = true -> terminated q = false ->
  sound n q [] (q <| full_waiters := u32 (full_waiters q + 1) |>) (<[i := Blocked (Push d)]> ts).
Proof.
  intros Hn I Hi Hf Ht. apply Z.eqb_eq in Hf.
  pose proof (count_insert waits_full ts i _ (Blocked (Push d)) Hi) as C.
  pose proof (count_length waits_full (<[i := Blocked (Push d)]> ts)) as L.
  rewrite length_insert, (v_len _ _ _ I) in L. simpl in C. pose proof (v_full_waiters _ _ _ I) as F.
  pose proof (count_nonneg waits_full ts).
  split; [|by rewrite app_nil_r]. pose proof (v_ring _ _ _ I) as R.
  eapply (inv_move n q ts i _ _ _ NoWake _ I Hi (wakes_none _)); simpl; try done; try lia.
  - destruct R. by constructor.
  - rewrite u32_small; lia.
  - rewrite Ht. done.
Qed.

Lemma wait_empty_sound n q ts i c :
  Z.of_nat n < 2 ^ 32 -> inv n q ts -> ts !! i = Some (Locking c) -> c = Pop \/ c = PopTimeout ->
  apr_queue_empty q = true -> terminated q = false ->
  sound n q [] (q <| empty_waiters := u32 (empty_waiters q + 1) |>) (<[i := Blocked c]> ts).
Proof.
  intros Hn I Hi Hc Hf Ht. apply Z.eqb_eq in Hf.
  assert (waits_empty (Blocked c) = true /\ insane (Blocked c) = false /\ waits_full (Blocked c) = false
    /\ interrupting (Locking c) = false /\ on_full (Blocked c) = false) as (W1 & W2 & W3 & W4 & W5)
    by (by destruct Hc as [-> | ->]).
  pose proof (count_insert waits_empty ts i _ (Blocked c) Hi) as C. rewrite W1 in C.
  pose proof (count_length waits_empty (<[i := Blocked c]> ts)) as L.
  rewrite length_insert, (v_len _ _ _ I) in L. simpl in C. pose proof (v_empty_waiters _ _ _ I) as F.
  pose proof (count_nonneg waits_empty ts).
  split; [|by rewrite app_nil_r]. pose proof (v_ring _ _ _ I) as R.
  eapply (inv_move n q ts i _ _ _ NoWake _ I Hi (wakes_none _)); rewrite ?W1, ?W3, ?W5; simpl; try done; try lia.
  - destruct R. by constructor.
  - rewrite u32_small; lia.
  - rewrite Ht. done.
Qed.

(** A wait that ends without a signal, spuriously or by the timeout. *)
Lemma awake_sound n q ts i c rv :
  inv n q ts -> ts !! i = Some (Blocked c) -> rv = APR_SUCCESS \/ c = PopTimeout ->
  sound n q [] q (<[i := Woken c rv]> ts).
Proof.
  intros I Hi Hrv. split; [|by rewrite app_nil_r].
  assert (sane (Blocked c) = true) as Hs.
  { destruct (sane (Blocked c)) eqn:E; [done|]. pose proof (count_lookup insane _ _ _ Hi) as H.
    unfold insane in H at 1. rewrite E in H. specialize (H eq_refl). pose proof (v_sane _ _ _ I). lia. }
  eapply (inv_move n q ts i _ (Woken c rv) _ NoWake _ I Hi (wakes_none _) (v_ring _ _ _ I)); try done; simpl.
  - unfold insane. simpl in *. by rewrite Hs.
  - destruct c; lia.
  - destruct c; lia.
  - right; right. split; [done|lia].
  - right; right. split; [done|lia].
  - tauto.
Qed.

Lemma term_sound n q ts i :
  inv n q ts -> ts !! i = Some (Locking Term) ->
  sound n q [] (q <| terminated := true |>) (<[i := Locking InterruptAll]> ts).
Proof.
  intros I Hi. split; [|by rewrite app_nil_r].
  eapply (inv_move n q ts i _ _ _ NoWake _ I Hi (wakes_none _)); simpl; try done; try lia; try tauto.
  destruct (v_ring _ _ _ I). by constructor.
Qed.

Lemma interrupt_sound n q ts i ts' :
  inv n q ts -> ts !! i = Some (Locking InterruptAll) ->
  wakes BroadcastBoth (<[i := Returned InterruptAll APR_SUCCESS None]> ts) ts' ->
  sound n q [] q ts'.
Proof.
  intros I Hi Hw. split; [|by rewrite app_nil_r].
  eapply (inv_move n q ts i _ _ _ _ _ I Hi Hw (v_ring _ _ _ I)); simpl; try done; try lia; try tauto;
    right; right; split; done || lia.
Qed.

Lemma put_sound n q ts i t q1 d c ts' (o := (put q1 d).1) :
  inv n q ts -> ts !! i = Some t -> left q q1 t ->
  on_empty t = false -> ready_empty t = false -> interrupting t = false -> apr_queue_full q1 = false ->
  c = Push d \/ c = TryPush d ->
  wakes (wake_of o) (<[i := after c o]> ts) ts' -> sound n q (event_of c o) (put q1 d).2 ts'.
Proof.
  intros I Hi Hl H1 H2 H3 H4 Hc Hw. destruct (put_inv n q ts i t q1 d c ts') as [I' C]; try done.
  split; [done|]. rewrite C. by destruct Hc as [-> | ->].
Qed.

Lemma take_sound n q ts i t q1 c ts' (o := (take_ q1).1) :
  inv n q ts -> ts !! i = Some t -> left q q1 t ->
  on_full t = false -> ready_full t = false -> interrupting t = false -> apr_queue_empty q1 = false ->
  wakes (wake_of o) (<[i := after c o]> ts) ts' -> sound n q (event_of c o) (take_ q1).2 ts'.
Proof.
  intros I Hi Hl H1 H2 H3 H4 Hw. destruct (take_inv n q ts i t q1 c ts') as (I' & d & w & Ho & C); try done.
  split; [done|]. fold o in Ho. rewrite Ho, C. simpl. by rewrite app_nil_r.
Qed.

(** Leaving the wait decrements a counter that counts this thread. *)
Lemma left_push n q ts i d rv :
  Z.of_nat n < 2 ^ 32 -> inv n q ts -> ts !! i = Some (Woken (Push d) rv) ->
  left q (q <| full_waiters := u32 (full_waiters q - 1) |>) (Woken (Push d) rv).
Proof.
  intros Hn I Hi. pose proof (count_lookup waits_full _ _ _ Hi eq_refl) as C.
  pose proof (count_length waits_full ts). pose proof (v_full_waiters _ _ _ I). pose proof (v_len _ _ _ I).
  constructor; try done; simpl; [lia|]. rewrite u32_small; lia.
Qed.

Lemma left_pop n q ts i c rv :
  Z.of_nat n < 2 ^ 32 -> inv n q ts -> ts !! i = Some (Woken c rv) -> waits_empty (Woken c rv) = true ->
  left q (q <| empty_waiters := u32 (empty_waiters q - 1) |>) (Woken c rv).
Proof.
  intros Hn I Hi Hc. pose proof (count_lookup waits_empty _ _ _ Hi Hc) as C.
  assert (waits_full (Woken c rv) = false) as Hf by (by destruct c).
  pose proof (count_length waits_empty ts). pose proof (v_empty_waiters _ _ _ I). pose proof (v_len _ _ _ I).
  constructor; try done; rewrite ?Hc, ?Hf; simpl; [|lia]. rewrite u32_small; lia.
Qed.

Lemma locked_sound n q ts i c o q' ts' :
  Z.of_nat n < 2 ^ 32 -> inv n q ts -> ts !! i = Some (Locking c) -> locked q c = (o, q') ->
  wakes (wake_of o) (<[i := after c o]> ts) ts' -> sound n q (event_of c o) q' ts'.
Proof.
  intros Hn I Hi E Hw. assert (left q q (Locking c)) as Hl by (by apply left_refl).
  destruct c as [d|d| | | | |]; simpl in E;
    unfold push_locked, trypush_locked, pop_timeout_locked, pop_locked, trypop_locked, interrupt_all_locked, term_locked in E.
  - destruct (apr_queue_full q) eqn:Ef.
    + destruct (terminated q) eqn:Et; injection E as <- <-; inversion Hw; subst; [by eapply quiet_sound|].
      by apply wait_full_sound.
    + pose proof (put_sound n q ts i _ q d (Push d) ts' I Hi Hl) as H. rewrite E in H. auto.
  - destruct (apr_queue_full q) eqn:Ef.
    + injection E as <- <-; inversion Hw; subst. by eapply quiet_sound.
    + pose proof (put_sound n q ts i _ q d (TryPush d) ts' I Hi Hl) as H. rewrite E in H. auto.
  - destruct (apr_queue_empty q) eqn:Ef.
    + destruct (terminated q) eqn:Et; injection E as <- <-; inversion Hw; subst; [by eapply quiet_sound|].
      apply wait_empty_sound; auto.
    + pose proof (take_sound n q ts i _ q Pop ts' I Hi Hl) as H. rewrite E in H. auto.
  - destruct (apr_queue_empty q) eqn:Ef.
    + destruct (terminated q) eqn:Et; injection E as <- <-; inversion Hw; subst; [by eapply quiet_sound|].
      apply wait_empty_sound; auto.
    + pose proof (take_sound n q ts i _ q PopTimeout ts' I Hi Hl) as H. rewrite E in H. auto.
  - destruct (apr_queue_empty q) eqn:Ef.
    + injection E as <- <-; inversion Hw; subst. by eapply quiet_sound.
    + pose proof (take_sound n q ts i _ q TryPop ts' I Hi Hl) as H. rewrite E in H. auto.
  - injection E as <- <-. by eapply interrupt_sound.
  - injection E as <- <-. inversion Hw; subst. by apply term_sound.
Qed.

Lemma woken_sound n q ts i c rv o q' ts' :
  Z.of_nat n < 2 ^ 32 -> inv n q ts -> ts !! i = Some (Woken c rv) -> woken q c rv = (o, q') ->
  wakes (wake_of o) (<[i := after c o]> ts) ts' -> sound n q (event_of c o) q' ts'.
Proof.
  intros Hn I Hi E Hw.
  assert (sane (Woken c rv) = true) as Hs.
  { destruct (sane (Woken c rv)) eqn:Es; [done|]. pose proof (count_lookup insane _ _ _ Hi) as H.
    unfold insane in H at 1. rewrite Es in H. specialize (H eq_refl). pose proof (v_sane _ _ _ I). lia. }
  destruct c as [d|d| | | | |]; simpl in Hs; try done; simpl in E; unfold push_woken, pop_timeout_woken, pop_woken in E.
  - pose proof (left_push n q ts i d rv Hn I Hi) as Hl. case_bool_decide as Er; simpl in E.
    + subst rv. destruct (apr_queue_full _) eqn:Ef.
      * injection E as <- <-. inversion Hw; subst. eapply quiet_sound; try done.
        intros _. by apply Z.eqb_eq in Ef.
      * pose proof (put_sound n q ts i _ _ d (Push d) ts' I Hi Hl) as H. rewrite E in H. auto.
    + injection E as <- <-. inversion Hw; subst.
      destruct rv; try done; by eapply quiet_sound; [exact I|exact Hi|exact Hl|..].
  - pose proof (left_pop n q ts i _ rv Hn I Hi eq_refl) as Hl. case_bool_decide as Er; simpl in E.
    + subst rv. destruct (apr_queue_empty _) eqn:Ef.
      * injection E as <- <-. inversion Hw; subst. eapply quiet_sound; try done.
        intros _. by apply Z.eqb_eq in Ef.
      * pose proof (take_sound n q ts i _ _ Pop ts' I Hi Hl) as H. rewrite E in H. auto.
    + injection E as <- <-. inversion Hw; subst.
      destruct rv; try done; by eapply quiet_sound; [exact I|exact Hi|exact Hl|..].
  - pose proof (left_pop n q ts i _ rv Hn I Hi eq_refl) as Hl. case_bool_decide as Er; simpl in E.
    + subst rv. destruct (apr_queue_empty _) eqn:Ef.
      * injection E as <- <-. inversion Hw; subst. eapply quiet_sound; try done.
        intros _. by apply Z.eqb_eq in Ef.
      * pose proof (take_sound n q ts i _ _ PopTimeout ts' I Hi Hl) as H. rewrite E in H. auto.
    + injection E as <- <-. inversion Hw; subst.
      destruct rv; try done; by eapply quiet_sound; [exact I|exact Hi|exact Hl|..].
Qed.

Lemma step_sound n q ts es q' ts' :
  Z.of_nat n < 2 ^ 32 -> inv n q ts -> step (q, ts) es (q', ts') -> sound n q es q' ts'.
Proof.
  intros Hn I Hstep.
  inversion Hstep as [? ? i c t Hi Ht|? ? i c Hi|? ? i c o ? ? Hi Ho Hw|? ? i c Hi|? ? i Hi
    |? ? i c rv o ? ? Hi Ho Hw|? ? i c Hi]; subst.
  - destruct Ht as [->|(c' & rv & d & ->)]; eapply quiet_sound; try done; by apply left_refl.
  - eapply quiet_sound; try done; try (by apply left_refl); unfold check_terminated; repeat case_match; done.
  - by eapply locked_sound.
  - eapply awake_sound; auto.
  - eapply awake_sound; auto.
  - by eapply woken_sound.
  - eapply quiet_sound; try done; by apply left_refl.
Qed.

Lemma inv_start cap n : 0 <= cap < 2 ^ 32 -> inv n (switch_apr_queue_create cap) (replicate n Idle).
Proof.
  intros Hc. assert (forall p : thread V -> bool, p Idle = false -> count p (replicate n Idle) = 0) as H.
  { intros p Hp. apply count_zero, Forall_replicate. done. }
  constructor; simpl; rewrite ?H by done; try done; try lia.
  - constructor; simpl; try lia; [rewrite length_replicate; lia|]. by rewrite Zmod_0_l.
  - apply length_replicate.
Qed.

Lemma exec_sound cap n es q ts :
  0 <= cap < 2 ^ 32 -> Z.of_nat n < 2 ^ 32 -> exec cap n es (q, ts) ->
  inv n q ts /\ pushed es = popped es ++ contents q /\ bounds q = cap.
Proof.
  intros Hc Hn H. remember (q, ts) as s eqn:Es. revert q ts Es.
  induction H as [|es [q ts] es' s' Hex IH Hst]; intros q0 ts0 Es.
  - injection Es as <- <-. split_and!; [by apply inv_start| |done]. done.
  - subst s'. destruct (IH q ts eq_refl) as (I & C & B).
    destruct (step_sound n q ts es' q0 ts0 Hn I Hst) as [I' C']. split_and!; [done| |].
    + unfold pushed, popped in *. rewrite !flat_map_app, C, <- app_assoc. by rewrite C', app_assoc.
    + rewrite <- B. clear -Hst. inversion Hst; subst; try done;
        repeat match goal with c : call V |- _ => destruct c end; simpl in *;
        unfold push_locked, trypush_locked, pop_timeout_locked, pop_locked, trypop_locked, interrupt_all_locked, term_locked,
          push_woken, pop_timeout_woken, pop_woken, put, take_ in *; repeat case_match; simplify_eq; done.
Qed.

End invariants.

(** ** Properties *)

(** Three threads on a queue of two: two poppers block, then a push wakes one. *)
Definition demo_state : switch_apr_queue_t Z * list (thread Z) :=
  (mk_queue [Some 7; None] 1 1 0 2 0 2 false,
   [Woken Pop APR_SUCCESS; Blocked Pop; Returned (Push (Some 7)) APR_SUCCESS None]).

Lemma demo_exec : exec 2 3 [Pushed (Some 7)] demo_state.
Proof.
  pose proof (exec_start (V := Z) 2 3) as X.
  eapply exec_step in X; [|apply (step_call _ _ 0 Pop Idle); auto].
  eapply exec_step in X; [|by apply (step_entry _ _ 0 Pop)].
  eapply exec_step in X; [|by apply (step_locked _ _ 0 Pop Wait); [| |constructor]].
  eapply exec_step in X; [|apply (step_call _ _ 1 Pop Idle); auto].
  eapply exec_step in X; [|by apply (step_entry _ _ 1 Pop)].
  eapply exec_step in X; [|by apply (step_locked _ _ 1 Pop Wait); [| |constructor]].
  eapply exec_step in X; [|apply (step_call _ _ 2 (Push (Some 7)) Idle); auto].
  eapply exec_step in X; [|by apply (step_entry _ _ 2 (Push (Some 7)))].
  eapply exec_step in X.
  2: { apply (step_locked _ _ 2 (Push (Some 7)) (Return APR_SUCCESS None SignalNotEmpty)); [reflexivity..|].
       by apply (wakes_empty _ 0 (Blocked Pop)). }
  exact X.
Qed.

(** C2. FIFO order under concurrency.  Whatever the interleaving of the threads,
    the elements pushed so far, in the order of their pushes, are the elements
    popped so far, in the order of their pops, followed by the contents of the
    ring, of which there are at most as many as the capacity. *)
Theorem queue_fifo {V} cap n es (q : switch_apr_queue_t V) ts :
  0 <= cap < 2 ^ 32 -> Z.of_nat n < 2 ^ 32 -> exec cap n es (q, ts) ->
  pushed es = popped es ++ contents q
  /\ Z.of_nat (length (contents q)) = switch_apr_queue_size q /\ switch_apr_queue_size q <= cap.
Proof.
  intros Hc Hn H. destruct (exec_sound cap n es q ts Hc Hn H) as (I & C & B).
  pose proof (v_ring _ _ _ I) as R. rewrite contents_length by done. split_and!; [done|done|].
  rewrite <- B. apply R.
Qed.

Lemma queue_fifo_witness :
  exec 2 3 [Pushed (Some 7)] demo_state /\ contents demo_state.1 = [Some 7].
Proof.
  split; [exact demo_exec|].
  destruct (queue_fifo 2 3 [Pushed (Some 7)] demo_state.1 demo_state.2) as [H _];
    [lia|simpl; lia|exact demo_exec|]. symmetry. exact H.
Defined.

(** C11. No lost wake-up.  In every reachable state, while a thread is blocked in
    pop or pop_timeout, at least as many woken poppers are on their way as
    there are elements; while a thread is blocked in push, at least as many
    woken pushers as there are free slots.  A non-empty queue therefore never
    leaves all its poppers asleep, and the counters that decide whether to
    signal count exactly the threads in a wait. *)
Theorem no_lost_wakeup {V} cap n es (q : switch_apr_queue_t V) ts :
  0 <= cap < 2 ^ 32 -> Z.of_nat n < 2 ^ 32 -> exec cap n es (q, ts) ->
  empty_waiters q = count waits_empty ts /\ full_waiters q = count waits_full ts
  /\ (forall i t, ts !! i = Some t -> on_empty t = true -> nelts q <= count ready_empty ts)
  /\ (forall i t, ts !! i = Some t -> on_full t = true -> cap - nelts q <= count ready_full ts).
Proof.
  intros Hc Hn H. destruct (exec_sound cap n es q ts Hc Hn H) as (I & _ & B). rewrite <- B.
  split_and!; [apply I|apply I| |].
  - intros i t Hi Ht. apply (v_empty_wakeups _ _ _ I). by eapply count_lookup.
  - intros i t Hi Ht. apply (v_full_wakeups _ _ _ I). by eapply count_lookup.
Qed.

Lemma no_lost_wakeup_witness : nelts demo_state.1 <= count ready_empty demo_state.2.
Proof.
  destruct (no_lost_wakeup 2 3 [Pushed (Some 7)] demo_state.1 demo_state.2) as (_ & _ & H & _);
    [lia|simpl; lia|exact demo_exec|]. apply (H 1%nat (Blocked Pop)); reflexivity.
Defined.

(** Termination of the queue.  Once switch_apr_queue_term has set the flag
    and no thread still has its broadcast ahead, no thread is blocked; from then
    on an interrupted wait ends with APR_EOF, and every push or pop called
    returns APR_EOF without touching the queue. *)
Theorem term_releases_threads {V} cap n es (q : switch_apr_queue_t V) ts :
  0 <= cap < 2 ^ 32 -> Z.of_nat n < 2 ^ 32 -> exec cap n es (q, ts) -> terminated q = true ->
  (count interrupting ts = 0 -> Forall (fun t => on_empty t = false /\ on_full t = false) ts)
  /\ after_interrupt q = APR_EOF
  /\ (forall c, c <> InterruptAll -> c <> Term -> check_terminated q c = Returned c APR_EOF None)
  /\ (forall c, match locked q c with (Wait, _) => False | _ => True end).
Proof.
  intros Hc Hn H Ht. destruct (exec_sound cap n es q ts Hc Hn H) as (I & _ & B).
  split_and!.
  - intros Hz. pose proof (v_term _ _ _ I Ht) as T. apply Forall_lookup. intros i t Hi.
    pose proof (count_nonneg on_empty ts). pose proof (count_nonneg on_full ts).
    destruct (on_empty t) eqn:E1; [pose proof (count_lookup _ _ _ _ Hi E1); lia|].
    destruct (on_full t) eqn:E2; [pose proof (count_lookup _ _ _ _ Hi E2); lia|done].
  - unfold after_interrupt. by rewrite Ht.
  - intros c H1 H2. destruct c; simpl; rewrite ?Ht; done.
  - intros c. destruct c; simpl; unfold push_locked, trypush_locked, pop_timeout_locked, pop_locked, trypop_locked; rewrite ?Ht; simpl;
      repeat case_match; done.
Qed.

Lemma term_releases_threads_witness :
  exists es q (ts : list (thread Z)), exec 1 1 es (q, ts) /\ check_terminated q Pop = Returned Pop APR_EOF None.
Proof.
  pose proof (exec_start (V := Z) 1 1) as X.
  eapply exec_step in X; [|apply (step_call _ _ 0 Term Idle); auto].
  eapply exec_step in X; [|apply (step_entry _ _ 0 Term); reflexivity].
  eapply exec_step in X; [|apply (step_locked _ _ 0 Term InterruptNext); [reflexivity..|constructor]].
  eexists _, _, _. split; [exact X|].
  destruct (term_releases_threads 1 1 _ _ _ ltac:(lia) ltac:(simpl; lia) X eq_refl) as (_ & _ & H & _).
  apply H; discriminate.
Defined.

End Queue.
