(* ===== verification/PortAllocator.v ===== *)
(** * The port allocator (src/src/switch_core_port_allocator.c)

    RTP ports are handed out from a table of slots: 0 is free, 1 is in use, and
    a negative slot is resting: every search that passes over it brings it one
    closer to 0.  A released port, and a port that failed the robustness test,
    starts at -4.

    The operations run under the allocator's mutex and are modelled as state
    transformers.  [rand()] and the socket test of test_port depend on the
    outside world and are parameters, indexed by the iteration of the search
    loop that uses them. *)

From S2P Require Import Prelude.

Module PortAllocator.

Definition SPF_ODD : Z := 1.
Definition SPF_EVEN : Z := 2.
Definition SPF_ROBUST_TCP : Z := 4.
Definition SPF_ROBUST_UDP : Z := 8.

Definition SOCK_STREAM : Z := 1.
Definition SOCK_DGRAM : Z := 2.

Record switch_core_port_allocator := mk_alloc {
  start : Z;
  end_ : Z;
  next : Z;
  track : list Z;
  track_len : Z;
  track_used : Z;
  flags : Z;
}.

#[export] Instance rebuild_alloc : Rebuild switch_core_port_allocator := fun a =>
  mk_alloc (start a) (end_ a) (next a) (track a) (track_len a) (track_used a) (flags a).
#[export] Instance set_track : Setter track := ltac:(derive_setter).
#[export] Instance set_track_used : Setter track_used := ltac:(derive_setter).

Implicit Types alloc : switch_core_port_allocator.

(** [runtime_flags] is [runtime.port_alloc_flags].  Ports are 16 bits wide. *)
Definition switch_core_port_allocator_new (runtime_flags : Z) (start end_ flags : Z)
  : switch_status_t * switch_core_port_allocator :=
  let even := test_flag flags SPF_EVEN in
  let odd := test_flag flags SPF_ODD in
  let flags := Z.lor flags runtime_flags in
  let '(start, end_) :=
    if negb (even && odd) then
      if even then
        (if negb (start mod 2 =? 0) then u16 (start + 1) else start,
         if negb (end_ mod 2 =? 0) then u16 (end_ - 1) else end_)
      else if odd then
        (if start mod 2 =? 0 then u16 (start + 1) else start,
         if end_ mod 2 =? 0 then u16 (end_ - 1) else end_)
      else (start, end_)
    else (start, end_) in
  let track_len := u32 (end_ - start + 2) in
  let track_len := if negb (even && odd) then track_len / 2 else track_len in
  let track := replicate (Z.to_nat (u32 (track_len + 2))) 0 in
  (SWITCH_STATUS_SUCCESS, mk_alloc start end_ start track track_len 0 flags).

(** ** Requesting a port *)

(** The inner loop, from a slot [index] with [fuel] tries left: the table, the
    slot it stops at, and whether tries are left. *)
Fixpoint search_slot (fuel : nat) (track_len : Z) (track : list Z) (index : Z) : list Z * Z * bool :=
  match fuel with
  | O => (track, index, false)
  | S fuel =>
      let x := default 0 (track !! Z.to_nat index) in
      if x =? 0 then (track, index, true)
      else
        let track := if x <? 0 then <[Z.to_nat index := x + 1]> track else track in
        let index := if u32 (index + 1) >=? track_len then 0 else u32 (index + 1) in
        search_slot fuel track_len track index
  end.

Definition port_of alloc (index : Z) : Z :=
  let even := test_flag (flags alloc) SPF_EVEN in
  let odd := test_flag (flags alloc) SPF_ODD in
  if even && odd then u16 (index + start alloc)
  else u16 (u16 (index + start alloc / 2) * 2).

Section request.

(** Iteration, socket type, port. *)
Variable rand : nat -> Z.
Variable test_port : nat -> Z -> Z -> bool.

(** The verdict of the robustness checks on a port. *)
Definition robust alloc (n : nat) (port : Z) : bool :=
  let r := true in
  let r := if test_flag (flags alloc) SPF_ROBUST_UDP then test_port n SOCK_DGRAM port else r in
  if test_flag (flags alloc) SPF_ROBUST_TCP then test_port n SOCK_STREAM port else r.

(** Where the outer loop is: it has returned (status, port, allocator), or it is at its head again. *)
Inductive progress :=
  | Returned (status : switch_status_t) (port : Z) (alloc : switch_core_port_allocator)
  | Looping (alloc : switch_core_port_allocator).

(** One round of the outer loop, its test included. *)
Definition request_round (n : nat) alloc : progress :=
  if negb (track_used alloc <? track_len alloc) then Returned SWITCH_STATUS_FALSE 0 alloc
  else
    let index := rand n mod track_len alloc in
    let '(tr, index, found) := search_slot (Z.to_nat (track_len alloc)) (track_len alloc) (track alloc) index in
    let alloc := alloc <| track := tr |> in
    if found then
      let port := port_of alloc index in
      if robust alloc n port then
        let alloc := alloc <| track := <[Z.to_nat index := 1]> tr |> in
        let alloc := alloc <| track_used := u32 (track_used alloc + 1) |> in
        Returned SWITCH_STATUS_SUCCESS port alloc
      else Looping (alloc <| track := <[Z.to_nat index := -4]> tr |>)
    else Looping alloc.

(** The outer loop observed for [rounds] rounds, from round [n] on.  It has no bound of its own: [Looping] says
    that it has not returned yet, with the allocator as it is then. *)
Fixpoint request_loop (rounds : nat) (n : nat) alloc : progress :=
  match rounds with
  | O => Looping alloc
  | S rounds =>
      match request_round n alloc with
      | Looping alloc => request_loop rounds (S n) alloc
      | returned => returned
      end
  end.

(** Status, the value stored through [port_ptr], and the allocator, if it returns within [rounds] rounds. *)
Definition switch_core_port_allocator_request_port (rounds : nat) alloc : progress :=
  match request_loop rounds 0 alloc with
  | Returned status port alloc => Returned status (if bool_decide (status = SWITCH_STATUS_SUCCESS) then port else 0) alloc
  | Looping alloc => Looping alloc
  end.

End request.

(** ** Releasing a port; [None] is an access outside the table. *)

Definition switch_core_port_allocator_free_port alloc (port : Z)
  : option (switch_status_t * switch_core_port_allocator) :=
  let even := test_flag (flags alloc) SPF_EVEN in
  let odd := test_flag (flags alloc) SPF_ODD in
  if port <? start alloc then Some (SWITCH_STATUS_GENERR, alloc)
  else
    let index := port - start alloc in
    let index := if negb (even && odd) then Z.quot index 2 else index in
    match track alloc !! Z.to_nat index with
    | None => None
    | Some x =>
        if x >? 0 then
          let alloc := alloc <| track := <[Z.to_nat index := -4]> (track alloc) |> in
          let alloc := alloc <| track_used := u32 (track_used alloc - 1) |> in
          Some (SWITCH_STATUS_SUCCESS, alloc)
        else Some (SWITCH_STATUS_FALSE, alloc)
    end.

(** ** The slot table *)

Definition used (x : Z) : bool := 0 <? x.

Record wf alloc : Prop := {
  w_len : 0 <= track_len alloc < 2 ^ 32 - 2;
  w_track : Z.of_nat (length (track alloc)) = track_len alloc + 2;
  w_slots : Forall (fun x => -4 <= x <= 1) (track alloc);
  w_used : track_used alloc = count used (take (Z.to_nat (track_len alloc)) (track alloc));
}.

(** A slot before and after a search_slot: only resting slots change, towards 0. *)
Definition rested (x y : Z) : Prop := (0 <= x -> y = x) /\ (x < 0 -> x <= y <= 0).

#[export] Instance rested_refl : Reflexive rested.
Proof. intros x. split; lia. Qed.
#[export] Instance rested_trans : Transitive rested.
Proof. intros x y z [] []. split; lia. Qed.

Lemma rested_bump tr i x :
  tr !! i = Some x -> x < 0 -> Forall2 rested tr (<[i := x + 1]> tr).
Proof.
  intros Hi Hx. rewrite <- (list_insert_id tr i x Hi) at 1.
  apply Forall2_insert; [reflexivity|]. split; lia.
Qed.

Lemma rested_count n tr tr' : Forall2 rested tr tr' -> count used (take n tr') = count used (take n tr).
Proof.
  intros H. revert n. induction H as [|x y tr tr' Hxy _ IH]; intros [|n]; simpl; try done.
  rewrite !count_cons, IH. f_equal. unfold used. destruct Hxy. f_equal.
  destruct (Z.ltb_spec 0 x), (Z.ltb_spec 0 y); try done; lia.
Qed.

Lemma rested_slots tr tr' :
  Forall2 rested tr tr' -> Forall (fun x => -4 <= x <= 1) tr -> Forall (fun x => -4 <= x <= 1) tr'.
Proof. induction 1 as [|x y tr tr' [] _ IH]; [done|]. intros [Hx ?]%Forall_cons. constructor; [lia|auto]. Qed.

Definition succ_index (len i : Z) : Z := if u32 (i + 1) >=? len then 0 else u32 (i + 1).

Lemma succ_index_mod len i : 0 <= i < len -> len < 2 ^ 32 -> succ_index len i = (i + 1) mod len.
Proof.
  intros Hi Hl. unfold succ_index. rewrite u32_small by lia. rewrite Z.geb_leb.
  destruct (Z.leb_spec len (i + 1)).
  - replace (i + 1) with len by lia. by rewrite Z_mod_same_full.
  - by rewrite Z.mod_small by lia.
Qed.

Lemma search_slot_spec fuel len tr i tr' i' found :
  0 <= i < len -> len < 2 ^ 32 -> len <= Z.of_nat (length tr) ->
  search_slot fuel len tr i = (tr', i', found) ->
  Forall2 rested tr tr' /\ 0 <= i' < len /\ (found = true -> tr' !! Z.to_nat i' = Some 0).
Proof.
  revert tr i. induction fuel as [|fuel IH]; intros tr i Hi Hl Ht; simpl.
  { intros [= <- <- <-]. split_and!; try done; try lia. }
  destruct (lookup_lt_is_Some_2 tr (Z.to_nat i)) as [x Hx]; [lia|]. rewrite Hx. simpl.
  destruct (Z.eqb_spec x 0) as [->|Hne]; [intros [= <- <- <-]; by split_and!; try lia|].
  fold (succ_index len i).
  assert (0 <= succ_index len i < len) by (rewrite succ_index_mod by lia; apply Z.mod_pos_bound; lia).
  destruct (Z.ltb_spec x 0) as [Hlt|Hge].
  - intros E. apply IH in E as (H1 & H2 & H3); [|lia|lia|by rewrite length_insert].
    split; [|done]. etransitivity; [by apply rested_bump|done].
  - apply IH; lia.
Qed.

Lemma search_slot_slots alloc tr' i' found i :
  wf alloc -> 0 <= i < track_len alloc ->
  search_slot (Z.to_nat (track_len alloc)) (track_len alloc) (track alloc) i = (tr', i', found) ->
  wf (alloc <| track := tr' |>) /\ 0 <= i' < track_len alloc /\ (found = true -> tr' !! Z.to_nat i' = Some 0).
Proof.
  intros [W1 W2 W3 W4] Hi E. apply search_slot_spec in E as (H1 & H2 & H3); [|lia..].
  split_and!; try done; try lia. constructor; simpl; try done.
  - by rewrite <- (Forall2_length _ _ _ H1).
  - by eapply rested_slots.
  - by rewrite (rested_count _ _ _ H1).
Qed.

Lemma count_take_insert (p : Z -> bool) n (l : list Z) i x y :
  (i < n)%nat -> l !! i = Some x ->
  count p (take n (<[i := y]> l)) = count p (take n l) - Z.b2z (p x) + Z.b2z (p y).
Proof.
  intros Hi Hx. rewrite take_insert_lt by done. apply count_insert. by rewrite lookup_take_lt.
Qed.

Lemma slot_wf alloc i x y n :
  wf alloc -> 0 <= i < track_len alloc -> track alloc !! Z.to_nat i = Some x -> -4 <= y <= 1 ->
  n = track_used alloc - Z.b2z (used x) + Z.b2z (used y) ->
  wf (alloc <| track := <[Z.to_nat i := y]> (track alloc) |> <| track_used := n |>).
Proof.
  intros [W1 W2 W3 W4] Hi Hx Hy Hn. constructor; simpl; try done.
  - by rewrite length_insert.
  - by apply Forall_insert.
  - rewrite (count_take_insert _ _ _ _ x) by (done || lia). lia.
Qed.

(** ** The request loop *)

Section loop.
Variable rand : nat -> Z.
Variable test_port : nat -> Z -> Z -> bool.

(** What a request returns, whenever it returns: the reason for the failure or
    the slot that was free and is now in use. *)
Definition request_ok alloc status port alloc' : Prop :=
  wf alloc' /\ start alloc' = start alloc /\ end_ alloc' = end_ alloc /\ flags alloc' = flags alloc
  /\ track_len alloc' = track_len alloc
  /\ ((status = SWITCH_STATUS_FALSE /\ port = 0 /\ track_used alloc = track_len alloc /\ alloc' = alloc)
      \/ (status = SWITCH_STATUS_SUCCESS /\ exists index,
            0 <= index < track_len alloc /\ port = port_of alloc index
            /\ used <$> track alloc !! Z.to_nat index = Some false
            /\ track alloc' !! Z.to_nat index = Some 1
            /\ track_used alloc' = track_used alloc + 1
            /\ forall j, j <> Z.to_nat index ->
                 used <$> track alloc' !! j = used <$> track alloc !! j)).

Lemma rested_used tr tr' j : Forall2 rested tr tr' -> used <$> tr' !! j = used <$> tr !! j.
Proof.
  intros H. destruct (tr !! j) as [x|] eqn:E.
  - destruct (Forall2_lookup_l _ _ _ _ _ H E) as (y & -> & H1 & H2). simpl. unfold used. f_equal.
    destruct (Z.ltb_spec 0 x), (Z.ltb_spec 0 y); try done; lia.
  - apply lookup_ge_None in E. rewrite (Forall2_length _ _ _ H) in E. by rewrite (proj2 (lookup_ge_None _ _) E).
Qed.

Lemma slot_free alloc i y :
  wf alloc -> 0 <= i < track_len alloc -> track alloc !! Z.to_nat i = Some 0 -> -4 <= y <= 0 ->
  wf (alloc <| track := <[Z.to_nat i := y]> (track alloc) |>).
Proof.
  intros W Hi Hx Hy. pose proof (slot_wf alloc i 0 y (track_used alloc) W Hi Hx) as H.
  assert (used y = false) as Hu by (unfold used; destruct (Z.ltb_spec 0 y); [lia|done]).
  rewrite Hu in H. specialize (H ltac:(lia) ltac:(simpl; lia)). by destruct H.
Qed.

Lemma same_used_insert (tr : list Z) (i : nat) x y (j : nat) :
  tr !! i = Some x -> used x = used y -> used <$> <[i := y]> tr !! j = used <$> tr !! j.
Proof.
  intros Hi Hu. destruct (decide (i = j)) as [<-|Hne]; [|by rewrite list_lookup_insert_ne].
  rewrite list_lookup_insert_eq by (by eapply lookup_lt_Some). rewrite Hi. simpl. by rewrite Hu.
Qed.

(** The loop so far: nothing is taken or given back, slots only rest. *)
Definition resting alloc alloc' : Prop :=
  wf alloc' /\ track_used alloc' < track_len alloc' /\ start alloc' = start alloc /\ end_ alloc' = end_ alloc /\ flags alloc' = flags alloc
  /\ track_len alloc' = track_len alloc /\ track_used alloc' = track_used alloc
  /\ forall j, used <$> track alloc' !! j = used <$> track alloc !! j.

Lemma resting_trans alloc alloc1 alloc2 : resting alloc alloc1 -> resting alloc1 alloc2 -> resting alloc alloc2.
Proof.
  intros (_ & _ & E1 & E2 & E3 & E4 & E5 & HU) (W & L & F1 & F2 & F3 & F4 & F5 & HV). unfold resting. split_and!; try congruence; try done.
Qed.

(** Going on with a table whose used slots are the same. *)
Lemma request_ok_same alloc alloc1 status port alloc' :
  resting alloc alloc1 -> request_ok alloc1 status port alloc' -> request_ok alloc status port alloc'.
Proof.
  intros (_ & Hlt & E1 & E2 & E3 & E4 & E5 & HU) (W & H1 & H2 & H3 & H4 & H5). unfold request_ok.
  rewrite <- E1, <- E2, <- E3, <- E4. split_and!; try done.
  destruct H5 as [(-> & -> & H6 & _)|(-> & index & H6 & H7 & H8 & H9 & H10 & H11)]; [lia|].
  right. split; [done|]. exists index. split_and!; try done; try lia.
  - rewrite H7. unfold port_of. by rewrite E1, E3.
  - by rewrite <- HU.
  - intros j Hj. by rewrite H11, HU.
Qed.

Definition progress_ok alloc (r : progress) : Prop :=
  match r with Returned status port alloc' => request_ok alloc status port alloc' | Looping alloc' => resting alloc alloc' end.

Lemma request_round_spec n alloc : wf alloc -> progress_ok alloc (request_round rand test_port n alloc).
Proof.
  intros W. unfold request_round. destruct (Z.ltb_spec (track_used alloc) (track_len alloc)) as [Hlt|Hge]; simpl.
  2: { pose proof (w_used _ W) as Hu. pose proof (w_len _ W). pose proof (w_track _ W).
       pose proof (count_length used (take (Z.to_nat (track_len alloc)) (track alloc))) as Hc.
       rewrite length_take in Hc. split_and!; try done. left. split_and!; try done; lia. }
  pose proof (w_len _ W) as HL. pose proof (count_nonneg used (take (Z.to_nat (track_len alloc)) (track alloc))).
  pose proof (w_used _ W) as HU.
  assert (0 <= rand n mod track_len alloc < track_len alloc) as Hr by (apply Z.mod_pos_bound; lia).
  destruct (search_slot _ _ _ _) as [[tr i] found] eqn:Ew.
  pose proof (search_slot_spec _ _ _ _ _ _ _ Hr ltac:(lia) ltac:(rewrite w_track by done; lia) Ew) as (HR & _ & _).
  destruct (search_slot_slots alloc tr i found _ W Hr Ew) as (W1 & Hi & Hf).
  set (alloc1 := alloc <| track := tr |>) in *.
  destruct found; [|split_and!; try done; intros j; by apply rested_used].
  specialize (Hf eq_refl). destruct (robust _ _ _ _).
  - unfold progress_ok, request_ok. simpl. split_and!; try done.
    + apply (slot_wf alloc1 i 0 1); try done; try lia. simpl. rewrite u32_small; [|]; simpl; lia.
    + right. split; [done|]. exists i. split_and!; try done; try lia.
      * rewrite <- (rested_used _ _ _ HR), Hf. done.
      * apply list_lookup_insert_eq. by eapply lookup_lt_Some.
      * rewrite u32_small; lia.
      * intros j Hj. rewrite list_lookup_insert_ne by done. by apply rested_used.
  - split_and!; try done; [by apply (slot_free alloc1)|].
    intros j. simpl. rewrite (same_used_insert tr _ 0) by done. by apply rested_used.
Qed.

Lemma request_loop_spec rounds n alloc : wf alloc ->
  match request_loop rand test_port rounds n alloc with
  | Returned status port alloc' => request_ok alloc status port alloc'
  | Looping alloc' => alloc' = alloc \/ resting alloc alloc'
  end.
Proof.
  revert n alloc. induction rounds as [|rounds IH]; intros n alloc W; [by left|]. cbn [request_loop].
  pose proof (request_round_spec n alloc W) as H. destruct (request_round rand test_port n alloc) as [|alloc1]; [done|].
  specialize (IH (S n) alloc1 (proj1 H)). destruct (request_loop _ _ rounds (S n) alloc1) as [status port alloc'|alloc'].
  - by eapply request_ok_same.
  - right. destruct IH as [->|?]; [done|by eapply resting_trans].
Qed.

(** ** Termination *)

(** A search_slot that uses all its tries has met no free slot and has brought every
    resting slot one step closer to being free. *)
Lemma search_slot_all fuel len tr i tr' i' :
  0 <= i < len -> len < 2 ^ 32 -> len <= Z.of_nat (length tr) -> Z.of_nat fuel <= len ->
  search_slot fuel len tr i = (tr', i', false) ->
  (forall j, 0 <= j < Z.of_nat fuel -> exists x, tr !! Z.to_nat ((i + j) mod len) = Some x /\ x <> 0
       /\ tr' !! Z.to_nat ((i + j) mod len) = Some (if x <? 0 then x + 1 else x))
  /\ (forall j, Z.of_nat fuel <= j < len -> tr' !! Z.to_nat ((i + j) mod len) = tr !! Z.to_nat ((i + j) mod len)).
Proof.
  revert tr i. induction fuel as [|fuel IH]; intros tr i Hi Hl Ht Hf; simpl.
  { intros [= <- <-]. split; [lia|done]. }
  destruct (lookup_lt_is_Some_2 tr (Z.to_nat i)) as [x Hx]; [lia|]. rewrite Hx. simpl.
  destruct (Z.eqb_spec x 0) as [->|Hne]; [done|]. fold (succ_index len i).
  pose proof (succ_index_mod len i Hi Hl) as Hs.
  assert (0 <= succ_index len i < len) by (rewrite Hs; apply Z.mod_pos_bound; lia).
  set (tr1 := if x <? 0 then <[Z.to_nat i := x + 1]> tr else tr). intros E.
  assert (length tr1 = length tr) as Hlen by (unfold tr1; case_match; [apply length_insert|done]).
  assert (tr1 !! Z.to_nat i = Some (if x <? 0 then x + 1 else x)) as H1.
  { unfold tr1. case_match; [apply list_lookup_insert_eq; lia|done]. }
  assert (forall k, 0 <= k -> k <> i -> tr1 !! Z.to_nat k = tr !! Z.to_nat k) as H2.
  { intros k Hk Hki. unfold tr1. case_match; [apply list_lookup_insert_ne; lia|done]. }
  apply IH in E as [HA HB]; [|lia..].
  assert (forall j, (succ_index len i + j) mod len = (i + (j + 1)) mod len) as Hsh.
  { intros j. rewrite Hs, Zplus_mod_idemp_l. f_equal. lia. }
  assert (forall j, 0 < j < len -> (i + j) mod len <> i) as Hdiff.
  { intros j Hj E'. rewrite <- (Z.mod_small i len) in E' at 2 by lia.
    rewrite <- (Z.add_0_r i) in E' at 2. revert E'. apply mod_shift_ne; lia. }
  split.
  - intros j Hj. destruct (Z.eq_dec j 0) as [->|Hj0].
    + rewrite Z.add_0_r, Z.mod_small by lia. exists x. split_and!; [done|done|].
      specialize (HB (len - 1)). rewrite Hsh in HB. replace (i + (len - 1 + 1)) with (i + 1 * len) in HB by lia.
      rewrite Z_mod_plus_full, Z.mod_small in HB by lia. rewrite <- H1. apply HB. lia.
    + destruct (HA (j - 1)) as (y & Hy1 & Hy2 & Hy3); [lia|]. rewrite Hsh in Hy1, Hy3.
      replace (j - 1 + 1) with j in * by lia. exists y. split_and!; try done.
      rewrite <- Hy1. symmetry. apply H2; [apply Z.mod_pos_bound; lia|apply Hdiff; lia].
  - intros j Hj. specialize (HB (j - 1) ltac:(lia)). rewrite Hsh in HB.
    replace (j - 1 + 1) with j in HB by lia. rewrite HB.
    apply H2; [apply Z.mod_pos_bound; lia|apply Hdiff; lia].
Qed.

Lemma search_slot_none alloc i tr' i' k x :
  wf alloc -> 0 <= i < track_len alloc ->
  search_slot (Z.to_nat (track_len alloc)) (track_len alloc) (track alloc) i = (tr', i', false) ->
  0 <= k < track_len alloc -> track alloc !! Z.to_nat k = Some x ->
  x <> 0 /\ tr' !! Z.to_nat k = Some (if x <? 0 then x + 1 else x).
Proof.
  intros W Hi E Hk Hx. pose proof (w_len _ W). pose proof (w_track _ W).
  apply search_slot_all in E as [HA _]; [|lia..].
  destruct (HA ((k - i) mod track_len alloc)) as (y & H1 & H2 & H3).
  { pose proof (Z.mod_pos_bound (k - i) (track_len alloc)). lia. }
  rewrite Zplus_mod_idemp_r in H1, H3. replace (i + (k - i)) with k in * by lia.
  rewrite Z.mod_small in H1, H3 by lia. rewrite Hx in H1. by injection H1 as <-.
Qed.

(** From round [m] on every port passes the tests. *)
Definition tests_pass alloc (m : nat) : Prop := forall n port, (m <= n)%nat -> robust test_port alloc n port = true.

Lemma request_round_passes m n alloc : tests_pass alloc m -> (m <= n)%nat -> track_used alloc < track_len alloc ->
  (exists port alloc', request_round rand test_port n alloc = Returned SWITCH_STATUS_SUCCESS port alloc')
  \/ exists tr i',
       search_slot (Z.to_nat (track_len alloc)) (track_len alloc) (track alloc) (rand n mod track_len alloc) = (tr, i', false)
       /\ request_round rand test_port n alloc = Looping (alloc <| track := tr |>).
Proof.
  intros Hrob Hm Hlt. unfold request_round. destruct (Z.ltb_spec (track_used alloc) (track_len alloc)); [|lia].
  destruct (search_slot _ _ _ _) as [[tr i'] found] eqn:Ew. destruct found; simpl negb; cbv iota zeta; [|by eauto].
  left. change (robust test_port (alloc <| track := tr |>)) with (robust test_port alloc). rewrite Hrob by done. eauto.
Qed.

(** With a slot at most [d] steps from free, and ports that pass the tests,
    [S d] rounds are enough. *)
Lemma request_loop_terminates d m n alloc i x :
  wf alloc -> tests_pass alloc m -> (m <= n)%nat -> track_used alloc < track_len alloc ->
  0 <= i < track_len alloc -> track alloc !! Z.to_nat i = Some x -> - Z.of_nat d <= x <= 0 ->
  exists status port alloc', request_loop rand test_port (S d) n alloc = Returned status port alloc'.
Proof.
  revert n alloc x. induction d as [|d IH]; intros n alloc x W Hrob Hm Hlt Hi Hx Hd;
    (assert (0 <= rand n mod track_len alloc < track_len alloc) as Hr by (apply Z.mod_pos_bound; lia));
    cbn [request_loop];
    (destruct (request_round_passes m n alloc Hrob Hm Hlt) as [(port & alloc' & ->)|(tr & i' & Ew & ->)]; [by eauto|]);
    destruct (search_slot_none alloc _ _ _ i x W Hr Ew Hi Hx) as [Hne Hx']; [lia|].
  pose proof (search_slot_slots alloc tr i' false _ W Hr Ew) as (W1 & _ & _).
  destruct (Z.ltb_spec x 0); [|lia]. apply (IH _ (alloc <| track := tr |>) (x + 1)); try done; lia.
Qed.

Lemma request_loop_split m rounds n alloc : request_loop rand test_port (m + rounds) n alloc =
  match request_loop rand test_port m n alloc with Looping alloc' => request_loop rand test_port rounds (m + n) alloc' | returned => returned end.
Proof.
  revert n alloc. induction m as [|m IH]; intros n alloc; [done|]. cbn [request_loop Nat.add]. destruct (request_round _ _ n alloc); [done|]. rewrite IH.
  by replace (m + S n)%nat with (S (m + n)) by lia.
Qed.

(** Five rounds after the tests start to pass the loop has returned. *)
Lemma request_loop_returns m alloc : wf alloc -> tests_pass alloc m ->
  exists status port alloc', request_loop rand test_port (m + 5) 0 alloc = Returned status port alloc'.
Proof.
  intros W Hrob. rewrite request_loop_split. pose proof (request_loop_spec m 0 alloc W) as H.
  destruct (request_loop rand test_port m 0 alloc) as [status port alloc'|al]; [by eauto|]. rewrite Nat.add_0_r.
  assert (wf al) as W' by (destruct H as [->|H]; [done|apply H]).
  assert (tests_pass al m) as Hrob'. { intros n port Hn. rewrite <- (Hrob n port Hn). unfold robust. by replace (flags al) with (flags alloc) by (destruct H as [->|(_ & _ & _ & _ & -> & _)]; done). }
  clear alloc W Hrob H. rename al into alloc, W' into W. pose proof (w_len _ W) as HL.
  destruct (Z.ltb_spec (track_used alloc) (track_len alloc)) as [Hlt|Hge].
  2: { cbn [request_loop]. unfold request_round. destruct (Z.ltb_spec (track_used alloc) (track_len alloc)); [lia|]. simpl. eauto. }
  pose proof (w_track _ W). pose proof (w_used _ W) as HU.
  destruct (count_some_false used (take (Z.to_nat (track_len alloc)) (track alloc))) as (i & x & Hi & Hx).
  { rewrite length_take. lia. }
  assert (i < Z.to_nat (track_len alloc))%nat as Hil.
  { apply lookup_lt_Some in Hi. rewrite length_take in Hi. lia. }
  rewrite lookup_take_lt in Hi by done.
  pose proof (w_slots _ W) as HF. rewrite Forall_lookup in HF. specialize (HF _ _ Hi). simpl in HF.
  unfold used in Hx. apply Z.ltb_ge in Hx.
  apply (request_loop_terminates 4 m m alloc (Z.of_nat i) x); try done; [lia|by rewrite Nat2Z.id|lia].
Qed.

(** A port that fails the tests, whatever it is, keeps the loop going. *)
Lemma request_loop_never rounds n alloc : track_used alloc < track_len alloc -> (forall n port, robust test_port alloc n port = false) ->
  exists alloc', request_loop rand test_port rounds n alloc = Looping alloc'.
Proof.
  revert n alloc. induction rounds as [|rounds IH]; intros n al Hl Hf; [by eexists|]. cbn [request_loop]. unfold request_round.
  destruct (Z.ltb_spec (track_used al) (track_len al)); [|lia].
  destruct (search_slot _ _ _ _) as [[tr i] [|]]; simpl negb; cbv iota zeta; [|by apply IH].
  change (robust test_port (al <| track := tr |>)) with (robust test_port al). rewrite Hf. by apply IH.
Qed.

End loop.

(** ** The allocator of even ports, as the RTP stack creates it *)

(** The port of some slot in use. *)
Definition allocated alloc (port : Z) : Prop :=
  exists index, 0 <= index < track_len alloc /\ port = port_of alloc index
    /\ used <$> track alloc !! Z.to_nat index = Some true.

Record even_ok alloc : Prop := {
  e_wf : wf alloc;
  e_even : test_flag (flags alloc) SPF_EVEN = true;
  e_odd : test_flag (flags alloc) SPF_ODD = false;
  e_start : 0 <= start alloc /\ start alloc mod 2 = 0;
  e_end : start alloc <= end_ alloc < 2 ^ 16 /\ end_ alloc mod 2 = 0;
  e_len : track_len alloc = (end_ alloc - start alloc) / 2 + 1;
}.

Lemma port_even alloc index :
  even_ok alloc -> 0 <= index < track_len alloc ->
  port_of alloc index = start alloc + 2 * index /\ start alloc + 2 * index <= end_ alloc.
Proof.
  intros [_ H1 H2 [H3 H3'] [H4 H4'] H5] Hi. unfold port_of. rewrite H1, H2. simpl.
  rewrite H5 in Hi. assert (start alloc + 2 * index <= end_ alloc) by dlia. split; [|done].
  rewrite (u16_small (index + start alloc / 2)) by dlia. rewrite u16_small; dlia.
Qed.

Lemma allocated_even alloc port :
  even_ok alloc ->
  allocated alloc port <-> start alloc <= port <= end_ alloc /\ port mod 2 = 0
    /\ used <$> track alloc !! Z.to_nat ((port - start alloc) / 2) = Some true.
Proof.
  intros W. pose proof (e_start _ W) as [Hs Hs']. pose proof (e_end _ W). pose proof (e_len _ W) as Hl. split.
  - intros (i & Hi & -> & Hu). destruct (port_even alloc i W Hi) as [-> Hle].
    replace ((start alloc + 2 * i - start alloc) / 2) with i by dlia. split_and!; try done; try lia; dlia.
  - intros (Hp & Hm & Hu). exists ((port - start alloc) / 2).
    assert (0 <= (port - start alloc) / 2 < track_len alloc) as Hi by (rewrite Hl; dlia).
    destruct (port_even alloc _ W Hi) as [-> _]. split_and!; try done; try lia. dlia.
Qed.

Lemma request_even alloc status port alloc' :
  even_ok alloc -> request_ok alloc status port alloc' -> even_ok alloc'.
Proof.
  intros [W H1 H2 H3 H4 H5] (W' & E1 & E2 & E3 & E4 & _). constructor; rewrite ?E1, ?E2, ?E3, ?E4; done.
Qed.

Lemma odd_neighbours z : z mod 2 <> 0 -> z mod 2 = 1 /\ (z - 1) mod 2 = 0 /\ (z + 1) mod 2 = 0.
Proof. dlia. Qed.

(** A new allocator, when the rounded range is not empty. *)
Lemma new_even runtime_flags start_ end_' :
  0 <= start_ -> start_ + start_ mod 2 + 1 <= end_' < 2 ^ 16 -> Z.land runtime_flags 3 = 0 ->
  let alloc := (switch_core_port_allocator_new runtime_flags start_ end_' SPF_EVEN).2 in
  even_ok alloc /\ (forall port, ~ allocated alloc port)
  /\ start_ <= start alloc <= start_ + 1 /\ end_' - 1 <= end_ alloc <= end_'.
Proof.
  intros Hs He Hf alloc.
  assert (test_flag (Z.lor SPF_EVEN runtime_flags) SPF_EVEN = true) as F1.
  { unfold test_flag. rewrite Z.land_lor_distr_l.
    assert (Z.land runtime_flags SPF_EVEN = 0) as ->
      by (change SPF_EVEN with (Z.land 3 2); by rewrite Z.land_assoc, Hf). done. }
  assert (test_flag (Z.lor SPF_EVEN runtime_flags) SPF_ODD = false) as F2.
  { unfold test_flag. rewrite Z.land_lor_distr_l.
    assert (Z.land runtime_flags SPF_ODD = 0) as ->
      by (change SPF_ODD with (Z.land 3 1); by rewrite Z.land_assoc, Hf). done. }
  pose proof (Z.mod_pos_bound start_ 2). pose proof (Z.mod_pos_bound end_' 2).
  set (s := if negb (start_ mod 2 =? 0) then u16 (start_ + 1) else start_).
  set (e := if negb (end_' mod 2 =? 0) then u16 (end_' - 1) else end_').
  assert (s = start_ + start_ mod 2 /\ s mod 2 = 0) as [Es Es'].
  { unfold s. destruct (Z.eqb_spec (start_ mod 2) 0) as [E|(E1 & E2 & E3)%odd_neighbours]; simpl; [lia|].
    rewrite u16_small by lia. lia. }
  assert (e = end_' - end_' mod 2 /\ e mod 2 = 0) as [Ee Ee'].
  { unfold e. destruct (Z.eqb_spec (end_' mod 2) 0) as [E|(E1 & E2 & E3)%odd_neighbours]; simpl; [lia|].
    rewrite u16_small by lia. lia. }
  assert (u32 (e - s + 2) = e - s + 2) as El by (apply u32_small; dlia).
  set (len := (e - s + 2) / 2).
  assert (alloc = mk_alloc s e s (replicate (Z.to_nat (len + 2)) 0) len 0 (Z.lor SPF_EVEN runtime_flags)) as ->.
  { unfold alloc, switch_core_port_allocator_new. simpl. fold s e. rewrite El. fold len.
    rewrite (u32_small (len + 2)); [done|unfold len; dlia]. }
  clearbody s e. split_and!; simpl; try dlia.
  - constructor; simpl; try done; try dlia; [constructor; simpl|unfold len; dlia].
    + unfold len. dlia.
    + rewrite length_replicate. unfold len. dlia.
    + apply Forall_replicate. lia.
    + rewrite take_replicate, count_zero; [done|]. by apply Forall_replicate.
  - intros port (i & _ & _ & Hu). simpl in Hu.
    destruct (replicate _ 0 !! Z.to_nat i) eqn:E; [|done]. by apply lookup_replicate in E as [-> _].
Qed.

(** ** Properties *)

(** What a request that has returned did, on an allocator of even ports. *)
Definition request_result alloc status port alloc' : Prop :=
  even_ok alloc'
  /\ ((status = SWITCH_STATUS_SUCCESS /\ start alloc <= port <= end_ alloc /\ port mod 2 = 0
       /\ ~ allocated alloc port /\ forall p, allocated alloc' p <-> p = port \/ allocated alloc p)
      \/ (status = SWITCH_STATUS_FALSE /\ port = 0 /\ alloc' = alloc
          /\ forall p, start alloc <= p <= end_ alloc -> p mod 2 = 0 -> allocated alloc p)).

Lemma request_ok_result alloc status port alloc' : even_ok alloc -> request_ok alloc status port alloc' ->
  request_result alloc status (if bool_decide (status = SWITCH_STATUS_SUCCESS) then port else 0) alloc'.
Proof.
  intros W HR. pose proof (request_even _ _ _ _ W HR) as W'. split; [done|].
  destruct HR as (_ & E1 & E2 & E3 & E4 & [(-> & -> & Hfull & ->)|(-> & i & Hi & -> & Hfree & Hset & _ & Hoth)]).
  - right. split_and!; try done. intros p Hp Hm. rewrite allocated_even by done. split_and!; try done; try lia.
    pose proof (w_used _ (e_wf _ W)) as Hu. pose proof (w_track _ (e_wf _ W)). pose proof (w_len _ (e_wf _ W)).
    rewrite <- Hu, Hfull in Hu.
    assert (Forall (fun x => used x = true) (take (Z.to_nat (track_len alloc)) (track alloc))) as HA.
    { apply count_all. rewrite <- (w_used _ (e_wf _ W)), length_take. lia. }
    pose proof (e_len _ W) as Hl. pose proof (e_start _ W). pose proof (e_end _ W).
    assert (0 <= (p - start alloc) / 2 < track_len alloc) as Hi by (rewrite Hl; dlia).
    destruct (lookup_lt_is_Some_2 (track alloc) (Z.to_nat ((p - start alloc) / 2))) as [x Hx]; [lia|].
    rewrite Hx. simpl. f_equal. rewrite Forall_lookup in HA. apply (HA (Z.to_nat ((p - start alloc) / 2))).
    rewrite lookup_take_lt by lia. done.
  - left. rewrite bool_decide_true by done. destruct (port_even alloc i W Hi) as [Ep Hle]. rewrite Ep.
    pose proof (e_start _ W) as [Hs Hs']. split_and!; try done; try lia; try dlia.
    + rewrite allocated_even by done. intros (_ & _ & Hu).
      replace ((start alloc + 2 * i - start alloc) / 2) with i in Hu by dlia. congruence.
    + intros p. rewrite !allocated_even, E1, E2 by done.
      destruct (decide (p = start alloc + 2 * i)) as [->|Hne].
      * split; [by left|]. intros _. replace ((start alloc + 2 * i - start alloc) / 2) with i by dlia.
        rewrite Hset. split_and!; try done; try lia. dlia.
      * split; [intros (H1 & H2 & H3); right|intros [?|(H1 & H2 & H3)]; [done|]];
          (split_and!; try done; try lia; rewrite Hoth in * by dlia; done).
Qed.

Lemma resting_even alloc alloc' : even_ok alloc -> resting alloc alloc' -> even_ok alloc' /\ forall p, allocated alloc' p <-> allocated alloc p.
Proof.
  intros W (W' & _ & E1 & E2 & E3 & E4 & E5 & HU). assert (even_ok alloc') as We. { destruct W. constructor; try done; by rewrite ?E1, ?E2, ?E3, ?E4. }
  split; [done|]. intros p. by rewrite !allocated_even, E1, E2, HU.
Qed.

(** C9. A request on an allocator of even ports.  Whenever it returns: success gives
    an even port inside the configured range that was not allocated, and
    afterwards exactly that port is allocated in addition; failure stores 0,
    changes nothing and happens only when every port of the range is allocated.
    While it has not returned, the allocated ports are those of the start.  It
    returns, and within five rounds of the loop from the moment the robustness
    tests let the ports pass, whatever rand() gives and however many slots rest;
    if the tests refuse every port and a port is left, it never returns. *)
Theorem request_port_fresh rand test_port alloc :
  even_ok alloc ->
  (forall rounds, match switch_core_port_allocator_request_port rand test_port rounds alloc with
     | Returned status port alloc' => request_result alloc status port alloc'
     | Looping alloc' => even_ok alloc' /\ forall p, allocated alloc' p <-> allocated alloc p
     end)
  /\ (forall m, tests_pass test_port alloc m ->
       exists status port alloc', switch_core_port_allocator_request_port rand test_port (m + 5) alloc = Returned status port alloc')
  /\ ((forall n port, robust test_port alloc n port = false) ->
       (exists p, start alloc <= p <= end_ alloc /\ p mod 2 = 0 /\ ~ allocated alloc p) ->
       forall rounds, exists alloc', switch_core_port_allocator_request_port rand test_port rounds alloc = Looping alloc').
Proof.
  intros W. pose proof (e_wf _ W) as W0. unfold switch_core_port_allocator_request_port. split_and!.
  - intros rounds. pose proof (request_loop_spec rand test_port rounds 0 alloc W0) as H. destruct (request_loop _ _ _ _ _) as [status port alloc'|alloc'].
    + by apply request_ok_result.
    + destruct H as [->|H]; [done|by apply resting_even].
  - intros m Hm. destruct (request_loop_returns rand test_port m alloc W0 Hm) as (status & port & alloc' & ->). by eauto.
  - intros Hrob (p & Hp & Hev & Hfree) rounds. destruct (Z.ltb_spec (track_used alloc) (track_len alloc)) as [Hlt|Hge].
    + destruct (request_loop_never rand test_port rounds 0 alloc Hlt Hrob) as [alloc' ->]. by eauto.
    + destruct Hfree. pose proof (request_round_spec rand test_port 0 alloc W0) as H. unfold request_round in H.
      destruct (Z.ltb_spec (track_used alloc) (track_len alloc)); [lia|]. apply (request_ok_result _ _ _ _ W) in H as [_ [(? & _)|(_ & _ & _ & H)]]; [done|by apply H].
Qed.

(** Releasing an even port of the range: it succeeds exactly when the port
    is allocated and then exactly that port becomes unallocated; otherwise
    nothing changes.  The table is never accessed out of bounds. *)
Theorem free_port_frees alloc port :
  even_ok alloc -> start alloc <= port <= end_ alloc -> port mod 2 = 0 ->
  exists status alloc', switch_core_port_allocator_free_port alloc port = Some (status, alloc')
  /\ even_ok alloc'
  /\ ((status = SWITCH_STATUS_SUCCESS /\ allocated alloc port
       /\ forall p, allocated alloc' p <-> p <> port /\ allocated alloc p)
      \/ (status = SWITCH_STATUS_FALSE /\ ~ allocated alloc port /\ alloc' = alloc)).
Proof.
  intros W Hp Hm. pose proof (e_wf _ W) as W0. pose proof (w_track _ W0). pose proof (w_len _ W0).
  pose proof (e_len _ W) as Hl. pose proof (e_start _ W) as [Hs Hs']. pose proof (e_end _ W).
  set (i := (port - start alloc) / 2).
  assert (0 <= i < track_len alloc) as Hi by (unfold i; rewrite Hl; dlia).
  destruct (lookup_lt_is_Some_2 (track alloc) (Z.to_nat i)) as [x Hx]; [lia|].
  unfold switch_core_port_allocator_free_port. destruct (Z.ltb_spec port (start alloc)); [lia|].
  rewrite (e_even _ W), (e_odd _ W). simpl. rewrite Z.quot_div_nonneg by lia. fold i. rewrite Hx, Z.gtb_ltb.
  fold (used x). assert (allocated alloc port <-> used x = true) as Ha.
  { rewrite allocated_even by done. fold i. rewrite Hx. simpl. split; [by intros (_ & _ & [=])|].
    intros ->. split_and!; done || lia. }
  destruct (used x) eqn:Hu.
  - eexists _, _. split; [reflexivity|]. pose proof (w_used _ W0) as HU.
    assert (0 < count used (take (Z.to_nat (track_len alloc)) (track alloc))) as Hc.
    { eapply (count_lookup _ _ (Z.to_nat i) x); [|done]. rewrite lookup_take_lt by lia. done. }
    set (al := _ <| track_used := _ |>). assert (even_ok al) as W'.
    { destruct W as [W1 W2 W3 W4 W5 W6]. constructor; try done. unfold al.
      eapply (slot_wf alloc i x (-4)); try done; try lia. rewrite Hu. simpl.
      rewrite u32_small; simpl; [lia|].
      pose proof (count_length used (take (Z.to_nat (track_len alloc)) (track alloc))) as Hc2.
      rewrite length_take in Hc2. lia. }
    split; [done|]. left. split_and!; [done|by apply Ha|]. intros p. rewrite !allocated_even by done. simpl.
    destruct (decide (p = port)) as [->|Hne].
    + split; [|by intros [? _]]. fold i. rewrite list_lookup_insert_eq by lia. by intros (_ & _ & ?).
    + split; [intros (K1 & K2 & K3); split; [done|]|intros (_ & K1 & K2 & K3)];
        (split_and!; try done; try lia; rewrite list_lookup_insert_ne in * by (unfold i; dlia); done).
  - eexists _, _. split; [reflexivity|]. split; [done|]. right. split_and!; try done. rewrite Ha. done.
Qed.

(** An allocator restricted to odd ports (SPF_ODD without SPF_EVEN) hands
    out only even ports; slot 0 is the port just below the configured start,
    which free_port refuses with SWITCH_STATUS_GENERR, so it is never returned
    to the allocator. *)
Theorem odd_allocator_gives_even_ports rand test_port rounds alloc port alloc' :
  wf alloc -> test_flag (flags alloc) SPF_EVEN = false -> start alloc mod 2 = 1 ->
  0 <= start alloc < 2 ^ 16 ->
  switch_core_port_allocator_request_port rand test_port rounds alloc = Returned SWITCH_STATUS_SUCCESS port alloc' ->
  port mod 2 = 0 /\ port_of alloc 0 = start alloc - 1
  /\ switch_core_port_allocator_free_port alloc' (port_of alloc 0) = Some (SWITCH_STATUS_GENERR, alloc').
Proof.
  intros W Hf Hs Hr. unfold switch_core_port_allocator_request_port.
  pose proof (request_loop_spec rand test_port rounds 0 alloc W) as E. destruct (request_loop rand test_port rounds 0 alloc) as [st po al|al]; [|done]. intros [= -> <- <-].
  destruct E as (_ & E1 & _ & _ & _ & [(? & _)|(_ & i & Hi & -> & _)]); [done|].
  assert (port_of alloc 0 = start alloc - 1) as H0.
  { unfold port_of. rewrite Hf. cbn [andb]. rewrite Z.add_0_l.
    rewrite (u16_small (start alloc / 2)) by dlia. rewrite u16_small; dlia. }
  split_and!; [|done|].
  - rewrite bool_decide_true by done. unfold port_of. rewrite Hf. cbn [andb]. generalize (u16 (i + start alloc / 2)). intros z.
    unfold u16. rewrite Z.mod_mod_divide by (by exists 32768). apply Z.mod_mul. lia.
  - unfold switch_core_port_allocator_free_port. rewrite H0, E1. destruct (Z.ltb_spec (start alloc - 1) (start alloc)); [done|lia].
Qed.

Definition demo_alloc : switch_core_port_allocator := (switch_core_port_allocator_new 0 10001 10006 SPF_EVEN).2.

Lemma demo_even : even_ok demo_alloc.
Proof. apply new_even; [lia|vm_compute; split; discriminate || reflexivity|reflexivity]. Qed.

Lemma request_port_fresh_witness :
  (exists alloc', switch_core_port_allocator_request_port (fun _ => 2) (fun _ _ _ => true) 5 demo_alloc = Returned SWITCH_STATUS_SUCCESS 10006 alloc'
     /\ request_result demo_alloc SWITCH_STATUS_SUCCESS 10006 alloc')
  /\ exists status port alloc', switch_core_port_allocator_request_port (fun n => Z.of_nat n) (fun _ _ _ => true) 5 demo_alloc = Returned status port alloc'.
Proof.
  split.
  - destruct (request_port_fresh (fun _ => 2) (fun _ _ _ => true) demo_alloc demo_even) as (H & _). eexists. split; [vm_compute; reflexivity|].
    exact (H 5%nat).
  - apply (request_port_fresh (fun n => Z.of_nat n) (fun _ _ _ => true) demo_alloc demo_even) with (m := 0%nat). intros n port _. reflexivity.
Defined.

Lemma free_port_frees_witness :
  exists status alloc', switch_core_port_allocator_free_port demo_alloc 10004 = Some (status, alloc')
    /\ even_ok alloc'.
Proof.
  destruct (free_port_frees demo_alloc 10004) as (status & alloc' & H1 & H2 & _).
  - apply new_even; [lia|vm_compute; split; discriminate || reflexivity|reflexivity].
  - vm_compute. split; discriminate.
  - reflexivity.
  - exists status, alloc'. split; [exact H1|exact H2].
Defined.

Lemma odd_allocator_gives_even_ports_witness :
  let alloc := (switch_core_port_allocator_new 0 10001 10005 SPF_ODD).2 in
  exists alloc',
    switch_core_port_allocator_request_port (fun _ => 0) (fun _ _ _ => true) 5 alloc
      = Returned SWITCH_STATUS_SUCCESS 10000 alloc'
    /\ switch_core_port_allocator_free_port alloc' 10000 = Some (SWITCH_STATUS_GENERR, alloc').
Proof.
  intros alloc. eexists. split; [vm_compute; reflexivity|].
  apply (odd_allocator_gives_even_ports (fun _ => 0) (fun _ _ _ => true) 5 alloc 10000).
  - constructor; [vm_compute; split; discriminate || reflexivity|reflexivity| |reflexivity].
    apply Forall_replicate. lia.
  - reflexivity.
  - reflexivity.
  - vm_compute. split; discriminate || reflexivity.
  - vm_compute. reflexivity.
Defined.

End PortAllocator.
