(* ===== verification/JbSort.v ===== *)
(** * Sorting the nodes of the jitter buffer (src/src/switch_jitterbuffer.c)

    Packets, buffer nodes and sort_nodes, the bottom-up merge sort that orders
    the node list: hidden nodes first, then visible nodes by sequence number.

    The doubly linked list of nodes is the list of its nodes in [next] order;
    a node carries its address, by which the hashes refer to it.  The [prev]
    pointers are the ones this order implies (every list operation of the
    source maintains them) and are not represented. *)

From S2P Require Import Prelude.
From Stdlib Require Import Sorting.Sorted.

Module JbSort.

(** ** Packets and nodes *)

(** [seq] and [ts] are in network byte order, as on the wire.  [other]
    stands for the remaining header fields. *)
Record switch_rtp_packet_t := mk_packet {
  version : Z;
  m : bool;
  seq : Z;
  ts : Z;
  other : list Z;
  body : list Z;
}.

#[export] Instance rebuild_packet : Rebuild switch_rtp_packet_t := fun p =>
  mk_packet (version p) (m p) (seq p) (ts p) (other p) (body p).
#[export] Instance set_version : Setter version := ltac:(derive_setter).
#[export] Instance set_seq : Setter seq := ltac:(derive_setter).
#[export] Instance set_ts : Setter ts := ltac:(derive_setter).

Record switch_jb_node_t := mk_node {
  addr : nat;
  packet : switch_rtp_packet_t;
  len : Z;
  visible : bool;
  bad_hits : Z;
  complete_frame_mark : bool;
}.

#[export] Instance rebuild_node : Rebuild switch_jb_node_t := fun n =>
  mk_node (addr n) (packet n) (len n) (visible n) (bad_hits n) (complete_frame_mark n).
#[export] Instance set_packet : Setter packet := ltac:(derive_setter).
#[export] Instance set_len : Setter len := ltac:(derive_setter).
#[export] Instance set_visible : Setter visible := ltac:(derive_setter).
#[export] Instance set_bad_hits : Setter bad_hits := ltac:(derive_setter).
#[export] Instance set_mark : Setter complete_frame_mark := ltac:(derive_setter).

Definition node_cmp (a b : switch_jb_node_t) : Z :=
  if negb (visible a) then 0
  else if negb (visible b) then 1
  else ntohs (seq (packet a)) - ntohs (seq (packet b)).

(** ** Merging *)

Section sort.
Context {A : Type} (cmp : A -> A -> Z).

(** The inner loop: the two runs, taken from the front, the left one on ties. *)
Fixpoint merge (p q : list A) : list A :=
  let fix merge_q (q : list A) : list A :=
    match p, q with
    | [], _ => q
    | _, [] => p
    | e :: p', e' :: q' => if cmp e e' <=? 0 then e :: merge p' q else e' :: merge_q q'
    end in
  merge_q q.

(** One pass over the list with runs of [insize]: the new list and [nmerges].
    The pass consumes at least one element per merge, so the length of the list
    is enough fuel. *)
Fixpoint merge_pass (fuel insize : nat) (l : list A) : list A * nat :=
  match fuel, l with
  | _, [] => ([], 0%nat)
  | O, _ => (l, 0%nat)
  | S fuel, _ =>
      let p := take insize l in
      let q := take insize (drop insize l) in
      let '(out, nmerges) := merge_pass fuel insize (drop insize (drop insize l)) in
      (merge p q ++ out, S nmerges)
  end.

(** [while (1)]: passes with doubled run length until one merge was enough. *)
Fixpoint sort_loop (fuel insize : nat) (l : list A) : option (list A) :=
  match fuel with
  | O => None
  | S fuel =>
      let '(l, nmerges) := merge_pass (length l) insize l in
      if (nmerges <=? 1)%nat then Some l else sort_loop fuel (insize * 2) l
  end.

Definition sort_with (l : list A) : list A :=
  match l with
  | [] => []
  | _ => default l (sort_loop (length l) 1 l)
  end.

End sort.

Definition sort_nodes (l : list switch_jb_node_t) : list switch_jb_node_t := sort_with node_cmp l.

(** ** Correctness of the sort, for any comparison that is a total preorder *)

Section correct.
Context {A : Type} (cmp : A -> A -> Z).
Definition le (a b : A) : Prop := cmp a b <= 0.
Hypothesis le_total : forall a b, le a b \/ le b a.
Hypothesis le_trans : forall a b c, le a b -> le b c -> le a c.

Lemma merge_perm p q : merge cmp p q ≡ₚ p ++ q.
Proof.
  revert q. induction p as [|e p IH]; intros q; [by destruct q|].
  induction q as [|e' q IHq]; [by rewrite app_nil_r|]. simpl.
  destruct (cmp e e' <=? 0).
  - f_equiv. apply IH.
  - simpl in IHq. rewrite IHq. apply (Permutation_middle (e :: p)).
Qed.

Lemma merge_sorted p q : StronglySorted le p -> StronglySorted le q -> StronglySorted le (merge cmp p q).
Proof.
  revert q. induction p as [|e p IH]; intros q Hp Hq; [by destruct q|].
  induction q as [|e' q IHq]; [done|]. simpl. inversion Hp as [|? ? Hp1 Hp2]. inversion Hq as [|? ? Hq1 Hq2]. subst.
  destruct (Z.leb_spec (cmp e e') 0) as [Hle|Hgt].
  - constructor; [by apply IH|]. rewrite (merge_perm p (e' :: q)). apply Forall_app. split; [done|].
    constructor; [done|]. eapply Forall_impl; [exact Hq2|]. intros x Hx. by eapply le_trans.
  - assert (le e' e) as Hle by (destruct (le_total e e') as [H|H]; [unfold le in H; lia|done]).
    constructor; [by apply IHq|]. change (Forall (le e') (merge cmp (e :: p) q)).
    rewrite (merge_perm (e :: p) q). apply Forall_app. split; [|done]. constructor; [done|].
    eapply Forall_impl; [exact Hp2|]. intros x Hx. by eapply le_trans.
Qed.

(** A list made of sorted runs of length [n], the last one possibly shorter. *)
Inductive runs (n : nat) : list A -> Prop :=
  | runs_last l : (length l <= n)%nat -> StronglySorted le l -> runs n l
  | runs_cons p l : length p = n -> StronglySorted le p -> runs n l -> runs n (p ++ l).

Lemma runs_take n l : runs n l -> StronglySorted le (take n l) /\ runs n (drop n l).
Proof.
  intros [l' Hl Hs|p l' Hp Hs Hr].
  - rewrite take_ge, drop_ge by done. split; [done|]. apply runs_last; [simpl; lia|constructor].
  - rewrite take_app_length', drop_app_length' by done. done.
Qed.

Lemma merge_pass_spec fuel n l :
  (0 < n)%nat -> (length l <= fuel)%nat -> runs n l ->
  (merge_pass cmp fuel n l).1 ≡ₚ l /\ runs (n * 2) (merge_pass cmp fuel n l).1
  /\ ((merge_pass cmp fuel n l).2 <= 1 -> StronglySorted le (merge_pass cmp fuel n l).1)%nat
  /\ (length l <= n * 2 -> (merge_pass cmp fuel n l).2 <= 1)%nat.
Proof.
  intros Hn. revert l. induction fuel as [|fuel IH]; intros l Hf Hr.
  { destruct l; [|simpl in Hf; lia]. simpl. split_and!; try done; try lia; [apply runs_last; [simpl; lia|]|]; constructor. }
  destruct l as [|x l]; [simpl; split_and!; try done; try lia; [apply runs_last; [simpl; lia|]|]; constructor|].
  cbn [merge_pass]. set (l0 := x :: l) in *.
  destruct (runs_take n l0 Hr) as [S1 R1]. destruct (runs_take n (drop n l0) R1) as [S2 R2].
  pose proof (merge_perm (take n l0) (take n (drop n l0))) as HP.
  pose proof (merge_sorted _ _ S1 S2) as HS. set (mg := merge cmp _ _) in *.
  assert (length (drop n (drop n l0)) <= fuel)%nat as Hf' by (rewrite !length_drop; unfold l0 in *; simpl in *; lia).
  destruct (IH _ Hf' R2) as (H1 & H2 & H3 & H4).
  destruct (merge_pass cmp fuel n (drop n (drop n l0))) as [out nm] eqn:E. cbn [fst snd] in *.
  assert (length mg = Nat.min (n * 2) (length l0)) as Hlen.
  { rewrite HP, length_app, !length_take, length_drop. lia. }
  assert (mg ++ out ≡ₚ l0) as HPA.
  { rewrite HP, H1, <- app_assoc, take_drop, take_drop. done. }
  assert (out = [] \/ length mg = n * 2)%nat as Hcase.
  { destruct (decide (length l0 <= n * 2)%nat); [left|right; lia].
    apply Permutation_nil. rewrite H1, drop_ge; [done|]. rewrite length_drop. lia. }
  assert ((nm = 0 -> out = [])%nat) as Hz.
  { intros ->. destruct (drop n (drop n l0)) eqn:Ed; [destruct fuel; simpl in E; congruence|].
    destruct fuel; [simpl in Hf'; lia|]. cbn [merge_pass] in E. destruct (merge_pass _ _ _ _) in E. congruence. }
  split_and!; [done| | |].
  - destruct Hcase as [->|Hc]; [|by apply runs_cons]. rewrite app_nil_r. apply runs_last; [lia|done].
  - intros Hnm. rewrite Hz by lia. by rewrite app_nil_r.
  - intros Hl. destruct (drop n (drop n l0)) eqn:Ed.
    + destruct fuel; simpl in E; injection E as <- <-; lia.
    + assert (length (drop n (drop n l0)) = 0)%nat by (rewrite !length_drop; lia). rewrite Ed in *. done.
Qed.

Lemma sort_loop_spec fuel n l :
  (0 < n)%nat -> runs n l -> (length l <= n * 2 ^ fuel)%nat -> (0 < fuel)%nat ->
  exists l', sort_loop cmp fuel n l = Some l' /\ l' ≡ₚ l /\ StronglySorted le l'.
Proof.
  revert n l. induction fuel as [|fuel IH]; intros n l Hn Hr Hl Hf; [lia|]. simpl.
  destruct (merge_pass_spec (length l) n l Hn ltac:(lia) Hr) as (H1 & H2 & H3 & H4).
  destruct (merge_pass cmp (length l) n l) as [l' nm]. simpl in *.
  destruct (Nat.leb_spec nm 1) as [Hle|Hgt]; [exists l'; split_and!; auto|].
  assert (~ (length l <= n * 2))%nat as Hlong by (intros ?%H4; lia).
  assert (0 < fuel)%nat by (destruct fuel; [simpl in Hl; lia|lia]).
  destruct (IH (n * 2)%nat l') as (l'' & E & HP & HS); [lia|done|rewrite H1; simpl in Hl; lia|done|].
  exists l''. split_and!; [done| |done]. by rewrite HP.
Qed.

Lemma runs_one l : runs 1 l.
Proof.
  induction l as [|x l IH]; [apply runs_last; [simpl; lia|constructor]|].
  apply (runs_cons 1 [x] l); [done|repeat constructor|done].
Qed.

Lemma sort_with_spec l : sort_with cmp l ≡ₚ l /\ StronglySorted le (sort_with cmp l).
Proof.
  destruct l as [|x l]; [split; [done|constructor]|]. unfold sort_with.
  destruct (sort_loop_spec (length (x :: l)) 1 (x :: l)) as (l' & -> & HP & HS); [lia|apply runs_one| |simpl; lia|done].
  pose proof (Nat.pow_gt_lin_r 2 (length (x :: l))). lia.
Qed.

End correct.

(** ** The order of nodes *)

Definition node_le (a b : switch_jb_node_t) : Prop :=
  visible a = false \/ (visible b = true /\ ntohs (seq (packet a)) <= ntohs (seq (packet b))).

Lemma node_le_cmp a b : le node_cmp a b <-> node_le a b.
Proof. unfold le, node_cmp, node_le. destruct (visible a), (visible b); simpl; intuition (lia || done). Qed.

Lemma node_cmp_total a b : le node_cmp a b \/ le node_cmp b a.
Proof. rewrite !node_le_cmp. unfold node_le. destruct (visible a), (visible b); auto. lia. Qed.

Lemma node_cmp_trans a b c : le node_cmp a b -> le node_cmp b c -> le node_cmp a c.
Proof.
  rewrite !node_le_cmp. unfold node_le. destruct (visible a), (visible b), (visible c); intuition (lia || done).
Qed.

Lemma sort_nodes_perm l : sort_nodes l ≡ₚ l.
Proof. apply sort_with_spec; [apply node_cmp_total|apply node_cmp_trans]. Qed.

(** ** Properties *)

(** sort_nodes terminates, returns a rearrangement of the same nodes, and
    orders them: no visible node precedes a hidden one, and visible nodes are
    in ascending order of their sequence numbers. *)
Theorem sort_nodes_sorts (l : list switch_jb_node_t) :
  sort_nodes l ≡ₚ l /\ StronglySorted node_le (sort_nodes l).
Proof.
  split; [apply sort_nodes_perm|].
  pose proof (proj2 (sort_with_spec node_cmp node_cmp_total node_cmp_trans l)) as HS.
  change (sort_with node_cmp l) with (sort_nodes l) in HS.
  induction (sort_nodes l) as [|x xs IH]; [constructor|]. inversion HS as [|? ? H1 H2]; subst.
  constructor; [by apply IH|]. eapply Forall_impl; [exact H2|]. intros b. apply node_le_cmp.
Qed.

End JbSort.
