(* ===== verification/JitterBuffer.v ===== *)
(** * The RTP jitter buffer (src/src/switch_jitterbuffer.c)

    Packets are stored in nodes of a list that is reused, indexed by sequence
    number ([node_hash]) and, in timestamp mode, by timestamp
    ([node_hash_ts]); sequence numbers to be re-requested are in
    [missing_seq_hash].  The three indexes are integer hashes used through the
    interface [CoreHash.IntHash].

    Every operation of the source is a function on the buffer's state.  The
    operations that other threads may run are serialised by the buffer's
    mutexes.  Calls into the session and its channel are recorded in [trace];
    [unmanagable] is the channel flag CF_VIDEO_BITRATE_UNMANAGABLE that two of
    them change.  Debug output is left out.  [None] as a hash is a NULL
    pointer; a node pointer is a node address. *)

From S2P Require Import Prelude.
From S2P Require Import Hashtable CoreHash JbSort.

Module JitterBuffer.
Import CoreHash JbSort.

Definition RENACK_TIME : Z := 100000.
Definition USHRT_MAX : Z := 65535.
Definition UINT_MAX : Z := 4294967295.
Definition SWITCH_RTP_HEADER_LEN : Z := 12.
Definition SWITCH_RTP_MAX_BUF_LEN : Z := 16384.
Definition SWITCH_RTP_MAX_PACKET_LEN : Z := SWITCH_RTP_MAX_BUF_LEN + SWITCH_RTP_HEADER_LEN.

Inductive switch_jb_type_t := SJB_VIDEO | SJB_AUDIO | SJB_TEXT.

#[export] Instance switch_jb_type_t_eq_dec : EqDecision switch_jb_type_t.
Proof. solve_decision. Defined.

Definition SJB_QUEUE_ONLY : Z := 1.

(** Calls that leave the buffer. *)
Inductive effect :=
  | RequestVideoRefresh
  | BitrateRequest (numeric_arg : Z)
  | SetUnmanagable
  | ClearUnmanagable.

Section jb.
Context {T : Type -> Type} `{!IntHash T}.

Record switch_jb_s := mk_jb {
  node_list : list switch_jb_node_t;
  last_target_seq : Z;
  highest_read_ts : Z;
  highest_dropped_ts : Z;
  highest_read_seq : Z;
  highest_wrote_ts : Z;
  highest_wrote_seq : Z;
  target_seq : Z;
  target_ts : Z;
  last_target_ts : Z;
  psuedo_seq : Z;
  last_psuedo_seq : Z;
  visible_nodes : Z;
  allocated_nodes : Z;
  complete_frames : Z;
  frame_len : Z;
  min_frame_len : Z;
  max_frame_len : Z;
  highest_frame_len : Z;
  period_miss_count : Z;
  consec_miss_count : Z;
  period_miss_inc : Z;
  period_miss_pct : Z * Z; (* numerator and denominator of the fraction of misses *)
  period_good_count : Z;
  consec_good_count : Z;
  period_count : Z;
  dropped : Z;
  samples_per_frame : Z;
  samples_per_second : Z;
  bitrate_control : Z;
  video_low_bitrate : Z;
  write_init : bool;
  read_init : bool;
  debug_level : Z;
  next_seq : Z;
  last_len : Z;
  missing_seq_hash : option (T Z);
  node_hash : T nat;
  node_hash_ts : option (T nat);
  drop_flag : Z;
  flags : Z;
  type : switch_jb_type_t;
  session : bool;
  channel : bool;
  buffer_lag : Z;
  flush : bool;
  packet_count : Z;
  max_packet_len : Z;
  period_len : Z;
  nack_saved_the_day : Z;
  nack_didnt_save_the_day : Z;
  unmanagable : bool;
  trace : list effect;
}.

#[export] Instance rebuild_jb : Rebuild switch_jb_s := fun j =>
  mk_jb (node_list j) (last_target_seq j) (highest_read_ts j) (highest_dropped_ts j) (highest_read_seq j)
    (highest_wrote_ts j) (highest_wrote_seq j) (target_seq j) (target_ts j) (last_target_ts j)
    (psuedo_seq j) (last_psuedo_seq j) (visible_nodes j) (allocated_nodes j) (complete_frames j)
    (frame_len j) (min_frame_len j) (max_frame_len j) (highest_frame_len j) (period_miss_count j)
    (consec_miss_count j) (period_miss_inc j) (period_miss_pct j) (period_good_count j)
    (consec_good_count j) (period_count j) (dropped j) (samples_per_frame j) (samples_per_second j)
    (bitrate_control j) (video_low_bitrate j) (write_init j) (read_init j) (debug_level j) (next_seq j)
    (last_len j) (missing_seq_hash j) (node_hash j) (node_hash_ts j) (drop_flag j) (flags j) (type j)
    (session j) (channel j) (buffer_lag j) (flush j) (packet_count j) (max_packet_len j) (period_len j)
    (nack_saved_the_day j) (nack_didnt_save_the_day j) (unmanagable j) (trace j).
#[export] Instance set_node_list : Setter node_list := ltac:(derive_setter).
#[export] Instance set_last_target_seq : Setter last_target_seq := ltac:(derive_setter).
#[export] Instance set_highest_read_ts : Setter highest_read_ts := ltac:(derive_setter).
#[export] Instance set_highest_dropped_ts : Setter highest_dropped_ts := ltac:(derive_setter).
#[export] Instance set_highest_read_seq : Setter highest_read_seq := ltac:(derive_setter).
#[export] Instance set_highest_wrote_ts : Setter highest_wrote_ts := ltac:(derive_setter).
#[export] Instance set_highest_wrote_seq : Setter highest_wrote_seq := ltac:(derive_setter).
#[export] Instance set_target_seq : Setter target_seq := ltac:(derive_setter).
#[export] Instance set_target_ts : Setter target_ts := ltac:(derive_setter).
#[export] Instance set_last_target_ts : Setter last_target_ts := ltac:(derive_setter).
#[export] Instance set_psuedo_seq : Setter psuedo_seq := ltac:(derive_setter).
#[export] Instance set_last_psuedo_seq : Setter last_psuedo_seq := ltac:(derive_setter).
#[export] Instance set_visible_nodes : Setter visible_nodes := ltac:(derive_setter).
#[export] Instance set_allocated_nodes : Setter allocated_nodes := ltac:(derive_setter).
#[export] Instance set_complete_frames : Setter complete_frames := ltac:(derive_setter).
#[export] Instance set_frame_len : Setter frame_len := ltac:(derive_setter).
#[export] Instance set_min_frame_len : Setter min_frame_len := ltac:(derive_setter).
#[export] Instance set_max_frame_len : Setter max_frame_len := ltac:(derive_setter).
#[export] Instance set_highest_frame_len : Setter highest_frame_len := ltac:(derive_setter).
#[export] Instance set_period_miss_count : Setter period_miss_count := ltac:(derive_setter).
#[export] Instance set_consec_miss_count : Setter consec_miss_count := ltac:(derive_setter).
#[export] Instance set_period_miss_inc : Setter period_miss_inc := ltac:(derive_setter).
#[export] Instance set_period_miss_pct : Setter period_miss_pct := ltac:(derive_setter).
#[export] Instance set_period_good_count : Setter period_good_count := ltac:(derive_setter).
#[export] Instance set_consec_good_count : Setter consec_good_count := ltac:(derive_setter).
#[export] Instance set_period_count : Setter period_count := ltac:(derive_setter).
#[export] Instance set_dropped : Setter dropped := ltac:(derive_setter).
#[export] Instance set_samples_per_frame : Setter samples_per_frame := ltac:(derive_setter).
#[export] Instance set_samples_per_second : Setter samples_per_second := ltac:(derive_setter).
#[export] Instance set_bitrate_control : Setter bitrate_control := ltac:(derive_setter).
#[export] Instance set_video_low_bitrate : Setter video_low_bitrate := ltac:(derive_setter).
#[export] Instance set_write_init : Setter write_init := ltac:(derive_setter).
#[export] Instance set_read_init : Setter read_init := ltac:(derive_setter).
#[export] Instance set_debug_level : Setter debug_level := ltac:(derive_setter).
#[export] Instance set_next_seq : Setter next_seq := ltac:(derive_setter).
#[export] Instance set_last_len : Setter last_len := ltac:(derive_setter).
#[export] Instance set_missing_seq_hash : Setter missing_seq_hash := ltac:(derive_setter).
#[export] Instance set_node_hash : Setter node_hash := ltac:(derive_setter).
#[export] Instance set_node_hash_ts : Setter node_hash_ts := ltac:(derive_setter).
#[export] Instance set_drop_flag : Setter drop_flag := ltac:(derive_setter).
#[export] Instance set_flags : Setter flags := ltac:(derive_setter).
#[export] Instance set_type : Setter type := ltac:(derive_setter).
#[export] Instance set_session : Setter session := ltac:(derive_setter).
#[export] Instance set_channel : Setter channel := ltac:(derive_setter).
#[export] Instance set_buffer_lag : Setter buffer_lag := ltac:(derive_setter).
#[export] Instance set_flush : Setter flush := ltac:(derive_setter).
#[export] Instance set_packet_count : Setter packet_count := ltac:(derive_setter).
#[export] Instance set_max_packet_len : Setter max_packet_len := ltac:(derive_setter).
#[export] Instance set_period_len : Setter period_len := ltac:(derive_setter).
#[export] Instance set_nack_saved_the_day : Setter nack_saved_the_day := ltac:(derive_setter).
#[export] Instance set_nack_didnt_save_the_day : Setter nack_didnt_save_the_day := ltac:(derive_setter).
#[export] Instance set_unmanagable : Setter unmanagable := ltac:(derive_setter).
#[export] Instance set_trace : Setter trace := ltac:(derive_setter).

Implicit Types jb : switch_jb_s.

(** ** Nodes by address *)

Definition node_at (l : list switch_jb_node_t) (a : nat) : option switch_jb_node_t :=
  head (filter (fun n => addr n = a) l).

(** [node->field = ...] for the node at [a]. *)
Definition update_node (a : nat) (f : switch_jb_node_t -> switch_jb_node_t) (l : list switch_jb_node_t) :=
  map (fun n => if decide (addr n = a) then f n else n) l.

Definition request_video_refresh jb : switch_jb_s :=
  if session jb then jb <| trace := trace jb ++ [RequestVideoRefresh] |> else jb.

(** ** The node list *)

Definition push_to_top jb (a : nat) : switch_jb_s :=
  jb <| node_list := filter (fun n => addr n = a) (node_list jb) ++ filter (fun n => addr n <> a) (node_list jb) |>.

Definition hide_node jb (a : nat) (pop : bool) : switch_jb_s :=
  match node_at (node_list jb) a with
  | None => jb
  | Some node =>
      let jb :=
        if visible node then
          let jb := jb <| node_list := update_node a (fun n => n <| visible := false |> <| bad_hits := 0 |>) (node_list jb) |> in
          let jb := jb <| visible_nodes := u32 (visible_nodes jb - 1) |> in
          if pop then push_to_top jb a else jb
        else jb in
      let jb :=
        match node_hash_ts jb with
        | Some h => jb <| node_hash_ts := Some (ih_delete h (ts (packet node))).2 |>
        | None => jb
        end in
      let '(found, h) := ih_delete (node_hash jb) (seq (packet node)) in
      let jb := jb <| node_hash := h |> in
      match found with
      | Some _ =>
          if complete_frame_mark node && bool_decide (type jb = SJB_VIDEO) then
            let jb := jb <| complete_frames := u32 (complete_frames jb - 1) |> in
            jb <| node_list := update_node a (fun n => n <| complete_frame_mark := false |>) (node_list jb) |>
          else jb
      | None => jb
      end
  end.

Definition sort_free_nodes jb : switch_jb_s := jb <| node_list := sort_nodes (node_list jb) |>.

Definition hide_nodes jb : switch_jb_s :=
  foldl (fun jb a => hide_node jb a false) jb (map addr (node_list jb)).

(** The loop of drop_ts and the number [x] of nodes it hides. *)
Definition drop_ts_loop jb (ts0 : Z) : switch_jb_s * Z :=
  foldl (fun '(jb, x) a =>
           match node_at (node_list jb) a with
           | Some np => if visible np && (ts0 =? ts (packet np)) then (hide_node jb a false, x + 1) else (jb, x)
           | None => (jb, x)
           end) (jb, 0) (map addr (node_list jb)).

Definition drop_ts jb (ts0 : Z) : switch_jb_s :=
  let '(jb, x) := drop_ts_loop jb ts0 in
  if negb (x =? 0) then sort_free_nodes jb else jb.

Definition jb_find_lowest_seq jb (ts0 : Z) : option switch_jb_node_t :=
  foldl (fun lowest np =>
           if negb (visible np) then lowest
           else if negb (ts0 =? 0) && negb (ts0 =? ts (packet np)) then lowest
           else match lowest with
                | None => Some np
                | Some lo => if ntohs (seq (packet lo)) >? ntohs (seq (packet np)) then Some np else lowest
                end) None (node_list jb).

Definition jb_find_lowest_node jb : option switch_jb_node_t :=
  foldl (fun lowest np =>
           if negb (visible np) then lowest
           else match lowest with
                | None => Some np
                | Some lo => if ntohl (ts (packet lo)) >? ntohl (ts (packet np)) then Some np else lowest
                end) None (node_list jb).

Definition jb_find_lowest_ts jb : Z :=
  match jb_find_lowest_node jb with Some lowest => ts (packet lowest) | None => 0 end.

Definition drop_oldest_frame jb : switch_jb_s := drop_ts jb (jb_find_lowest_ts jb).

(** ** Statistics and the frame length *)

Definition jb_hit jb : switch_jb_s :=
  let jb := jb <| period_good_count := u32 (period_good_count jb + 1) |> in
  let jb := jb <| consec_good_count := u32 (consec_good_count jb + 1) |> in
  jb <| consec_miss_count := 0 |>.

Definition jb_miss jb : switch_jb_s :=
  let jb := jb <| period_miss_count := u32 (period_miss_count jb + 1) |> in
  let jb := jb <| consec_miss_count := u32 (consec_miss_count jb + 1) |> in
  jb <| consec_good_count := 0 |>.

Definition jb_frame_inc_line jb (i : Z) : switch_jb_s :=
  let jb :=
    if i =? 0 then jb <| frame_len := min_frame_len jb |>
    else if i >? 0 then
      if u32 (frame_len jb + i) <? max_frame_len jb then jb <| frame_len := u32 (frame_len jb + i) |>
      else jb <| frame_len := max_frame_len jb |>
    else if u32 (frame_len jb + i) >? min_frame_len jb then jb <| frame_len := u32 (frame_len jb + i) |>
    else jb <| frame_len := min_frame_len jb |> in
  if frame_len jb >? highest_frame_len jb then jb <| highest_frame_len := frame_len jb |> else jb.

(** ** Order of sequence numbers and timestamps *)

Definition check_seq (a b : Z) : bool :=
  let a := ntohs a in
  let b := ntohs b in
  (a >=? b) || ((b >? a) && (b >? USHRT_MAX / 2) && (a <? USHRT_MAX / 2)).

Definition check_ts (a b : Z) : bool :=
  let a := ntohl a in
  let b := ntohl b in
  (a >? b) || ((b >? a) && (b >? UINT_MAX / 2) && (a <? UINT_MAX / 2)).

(** ** Reset *)

(** The fields that reset clears. *)
Definition reset_fields jb : switch_jb_s :=
  let jb := jb <| drop_flag := 0 |> in
  let jb := jb <| last_target_seq := 0 |> in
  let jb := jb <| target_seq := 0 |> in
  let jb := jb <| write_init := false |> in
  let jb := jb <| highest_wrote_seq := 0 |> in
  let jb := jb <| highest_wrote_ts := 0 |> in
  let jb := jb <| next_seq := 0 |> in
  let jb := jb <| highest_read_ts := 0 |> in
  let jb := jb <| highest_read_seq := 0 |> in
  let jb := jb <| read_init := false |> in
  let jb := jb <| complete_frames := 0 |> in
  let jb := jb <| period_miss_count := 0 |> in
  let jb := jb <| consec_miss_count := 0 |> in
  let jb := jb <| period_miss_pct := (0, 1) |> in
  let jb := jb <| period_good_count := 0 |> in
  let jb := jb <| consec_good_count := 0 |> in
  let jb := jb <| period_count := 0 |> in
  let jb := jb <| period_miss_inc := 0 |> in
  let jb := jb <| target_ts := 0 |> in
  jb <| last_target_ts := 0 |>.

Definition switch_jb_reset jb : switch_jb_s :=
  let jb :=
    if bool_decide (type jb = SJB_VIDEO)
    then request_video_refresh (jb <| missing_seq_hash := Some ih_init |>)
    else jb in
  reset_fields (hide_nodes jb).

(** ** Storing a packet *)

Definition zero_packet : switch_rtp_packet_t := mk_packet 0 false 0 0 [] [].

(** A hidden node to use, or a new one; [None] after a reset because too many
    nodes are allocated.  A new node's address is the number of nodes so far. *)
Definition new_node jb : switch_jb_s * option nat :=
  let take_node jb (a : nat) :=
    let jb := jb <| node_list := update_node a (fun n => n <| bad_hits := 0 |> <| visible := true |>) (node_list jb) |> in
    let jb := jb <| visible_nodes := u32 (visible_nodes jb + 1) |> in
    (jb, Some a) in
  match head (filter (fun n => visible n = false) (node_list jb)) with
  | Some np => take_node jb (addr np)
  | None =>
      let mult :=
        if negb (bool_decide (type jb = SJB_VIDEO)) then 2
        else if max_packet_len jb >? 2 then max_packet_len jb else 2 in
      if allocated_nodes jb >? u32 (max_frame_len jb * mult) then (switch_jb_reset jb, None)
      else
        let a := length (node_list jb) in
        let jb := jb <| allocated_nodes := u32 (allocated_nodes jb + 1) |> in
        let jb := jb <| node_list := mk_node a zero_packet 0 false 0 false :: node_list jb |> in
        take_node jb a
  end.

(** [seq_diff] and [ts_diff] of add_node. *)
Definition seq_diff jb (packet : switch_rtp_packet_t) : Z :=
  if (ntohs (highest_wrote_seq jb) >? USHRT_MAX - 100) && (ntohs (seq packet) <? 100)
  then USHRT_MAX - ntohs (highest_wrote_seq jb) + ntohs (seq packet)
  else Z.abs (ntohs (seq packet) - ntohs (highest_wrote_seq jb)).

Definition ts_diff jb (packet : switch_rtp_packet_t) : Z :=
  if (ntohl (highest_wrote_ts jb) >? UINT_MAX - 1000) && (ntohl (ts packet) <? 1000)
  then s32 (u32 (u32 (UINT_MAX - ntohl (ts packet)) + ntohl (ts packet)))
  else Z.abs (s32 (ntohl (ts packet) - ntohl (highest_wrote_ts jb))).

(** The steps of add_node: fill and index the node, ... *)
Definition link_node jb (a : nat) (packet0 : switch_rtp_packet_t) (len0 : Z) : switch_jb_s :=
  let jb := jb <| node_list := update_node a (fun n => n <| packet := packet0 |> <| len := u32 len0 |>) (node_list jb) |> in
  let jb := jb <| node_hash := ih_insert (node_hash jb) (seq packet0) (Some a) |> in
  match node_hash_ts jb with
  | Some h => jb <| node_hash_ts := Some (ih_insert h (ts packet0) (Some a)) |>
  | None => jb
  end.

(** ... reset on a jump of the stream, ... *)
Definition detect_change jb (packet0 : switch_rtp_packet_t) : switch_jb_s :=
  if write_init jb && bool_decide (type jb = SJB_VIDEO)
     && ((seq_diff jb packet0 >=? 100) || (ts_diff jb packet0 >? 900000 * 5))
  then switch_jb_reset jb else jb.

(** ... keep the highest sequence number written ... *)
Definition note_wrote_seq jb (packet0 : switch_rtp_packet_t) : switch_jb_s :=
  if negb (write_init jb) || (ntohs (seq packet0) >? ntohs (highest_wrote_seq jb))
     || ((ntohs (highest_wrote_seq jb) >? USHRT_MAX - 100) && (ntohs (seq packet0) <? 100))
  then jb <| highest_wrote_seq := seq packet0 |> else jb.

(** ... and count frames. *)
Definition count_frame jb (a : nat) (packet0 : switch_rtp_packet_t) : switch_jb_s :=
  if bool_decide (type jb = SJB_VIDEO) then
    let jb := jb <| packet_count := u32 (packet_count jb + 1) |> in
    if write_init jb && check_seq (seq packet0) (highest_wrote_seq jb)
       && check_ts (ts packet0) (highest_wrote_ts jb) then
      let jb := jb <| highest_wrote_ts := ts packet0 |> in
      let jb := jb <| complete_frames := u32 (complete_frames jb + 1) |> in
      let jb := jb <| packet_count := u32 (packet_count jb - 1) |> in
      let jb := if packet_count jb >? max_packet_len jb then jb <| max_packet_len := packet_count jb |> else jb in
      let jb := jb <| packet_count := 1 |> in
      jb <| node_list := update_node a (fun n => n <| complete_frame_mark := true |>) (node_list jb) |>
    else if negb (write_init jb) then jb <| highest_wrote_ts := ts packet0 |>
    else jb
  else if write_init jb || bool_decide (type jb = SJB_TEXT) || bool_decide (type jb = SJB_AUDIO)
       then jb <| complete_frames := u32 (complete_frames jb + 1) |>
       else jb <| highest_wrote_ts := ts packet0 |>.

Definition add_node jb (packet0 : switch_rtp_packet_t) (len0 : Z) : switch_jb_s :=
  let '(jb, node) := new_node jb in
  match node with
  | None => jb
  | Some a =>
      let jb := link_node jb a packet0 len0 in
      let jb := detect_change jb packet0 in
      let jb := note_wrote_seq jb packet0 in
      let jb := count_frame jb a packet0 in
      if negb (write_init jb) then jb <| write_init := true |> else jb
  end.

(** ** The next packet to read *)

Definition increment_ts jb : switch_jb_s :=
  if target_ts jb =? 0 then jb
  else
    let jb := jb <| last_psuedo_seq := psuedo_seq jb |> in
    let jb := jb <| last_target_ts := target_ts jb |> in
    let jb := jb <| target_ts := htonl (u32 (ntohl (target_ts jb) + samples_per_frame jb)) |> in
    jb <| psuedo_seq := u16 (psuedo_seq jb + 1) |>.

Definition set_read_ts jb (ts0 : Z) : switch_jb_s :=
  if ts0 =? 0 then jb
  else
    let jb := jb <| last_psuedo_seq := psuedo_seq jb |> in
    let jb := jb <| last_target_ts := ts0 |> in
    let jb := jb <| target_ts := htonl (u32 (ntohl (last_target_ts jb) + samples_per_frame jb)) |> in
    jb <| psuedo_seq := u16 (psuedo_seq jb + 1) |>.

Definition increment_seq jb : switch_jb_s :=
  let jb := jb <| last_target_seq := target_seq jb |> in
  jb <| target_seq := htons (u16 (ntohs (target_seq jb) + 1)) |>.

Definition set_read_seq jb (seq0 : Z) : switch_jb_s :=
  let jb := jb <| last_target_seq := seq0 |> in
  jb <| target_seq := htons (u16 (ntohs (u16 (last_target_seq jb)) + 1)) |>.

(** The [for] loop over the next ten sequence numbers: nothing found, a node,
    or a frame dropped and [goto top]. *)
Inductive probe := ProbeNone | ProbeFound (node : switch_jb_node_t) | ProbeAgain.

Fixpoint probe_seqs (n : nat) jb : switch_jb_s * probe :=
  match n with
  | O => (jb, ProbeNone)
  | S n =>
      let jb := increment_seq jb in
      match (match ih_find (node_hash jb) (target_seq jb) with
             | Some a => node_at (node_list jb) a
             | None => None
             end) with
      | Some node =>
          if m (packet node) || (ts (packet node) =? highest_read_ts jb) then
            let jb := jb <| dropped := u32 (dropped jb + 1) |> in
            let jb := drop_ts jb (ts (packet node)) in
            let jb := jb <| highest_dropped_ts := ntohl (ts (packet node)) |> in
            let jb :=
              if (period_miss_count jb >? 2) && (period_miss_inc jb <? 1) then
                let jb := jb <| period_miss_inc := u32 (period_miss_inc jb + 1) |> in
                jb_frame_inc_line jb 1
              else jb in
            (jb, ProbeAgain)
          else (jb, ProbeFound node)
      | None => probe_seqs n jb
      end
  end.

Definition find_seq jb (seq0 : Z) : option switch_jb_node_t :=
  match ih_find (node_hash jb) seq0 with Some a => node_at (node_list jb) a | None => None end.

Definition find_ts jb (ts0 : Z) : option switch_jb_node_t :=
  match node_hash_ts jb with
  | Some h => match ih_find h ts0 with Some a => node_at (node_list jb) a | None => None end
  | None => None
  end.

(** The part after the search: [*nodep], the status and the new target. *)
Definition found_by_seq jb (node : option switch_jb_node_t) : switch_jb_s * option switch_jb_node_t * switch_status_t :=
  match node with
  | Some n => (set_read_seq jb (seq (packet n)), node, SWITCH_STATUS_SUCCESS)
  | None => (jb, None, SWITCH_STATUS_NOTFOUND)
  end.

(** [fuel] counts the passes through [top]. *)
Fixpoint jb_next_packet_by_seq (fuel : nat) jb
  : option (switch_jb_s * option switch_jb_node_t * switch_status_t) :=
  match fuel with
  | O => None
  | S fuel =>
      let jb :=
        if bool_decide (type jb = SJB_VIDEO) && negb (dropped jb =? 0) then
          let jb := jb <| dropped := 0 |> in
          let jb := jb <| target_seq := 0 |> in
          request_video_refresh jb
        else jb in
      if target_seq jb =? 0 then
        let node := match find_seq jb (target_seq jb) with
                    | Some n => Some n
                    | None => jb_find_lowest_seq jb 0
                    end in
        Some (found_by_seq (jb_hit jb) node)
      else
        match find_seq jb (target_seq jb) with
        | Some n => Some (found_by_seq (jb_hit jb) (Some n))
        | None =>
            let jb := jb_miss jb in
            if bool_decide (type jb = SJB_VIDEO) then
              let jb := request_video_refresh jb in
              match probe_seqs 10 jb with
              | (jb, ProbeAgain) => jb_next_packet_by_seq fuel jb
              | (jb, ProbeFound n) => Some (found_by_seq jb (Some n))
              | (jb, ProbeNone) => Some (found_by_seq jb None)
              end
            else Some (found_by_seq (increment_seq jb) None)
        end
  end.

Definition jb_next_packet_by_ts jb : switch_jb_s * option switch_jb_node_t * switch_status_t :=
  let '(jb, node) :=
    if target_ts jb =? 0 then (jb_hit jb, jb_find_lowest_node jb)
    else match find_ts jb (target_ts jb) with
         | Some n => (jb_hit jb, Some n)
         | None => (increment_ts (jb_miss jb), None)
         end in
  match node with
  | Some n =>
      let jb := set_read_ts jb (ts (packet n)) in
      let renumber n := n <| packet := (packet n) <| seq := htons (psuedo_seq jb) |> |> in
      let jb := jb <| node_list := update_node (addr n) renumber (node_list jb) |> in
      (jb, Some (renumber n), SWITCH_STATUS_SUCCESS)
  | None => (jb, None, SWITCH_STATUS_NOTFOUND)
  end.

(** Two passes through [top] are always enough. *)
Definition jb_next_packet jb : option (switch_jb_s * option switch_jb_node_t * switch_status_t) :=
  if negb (samples_per_frame jb =? 0) then Some (jb_next_packet_by_ts jb)
  else jb_next_packet_by_seq 2 jb.

(** ** Creation and settings *)

Definition switch_jb_create (type0 : switch_jb_type_t) (min_len max_len : Z) : switch_jb_s :=
  {| node_list := []; last_target_seq := 0; highest_read_ts := 0; highest_dropped_ts := 0; highest_read_seq := 0;
     highest_wrote_ts := 0; highest_wrote_seq := 0; target_seq := 0; target_ts := 0; last_target_ts := 0;
     psuedo_seq := 0; last_psuedo_seq := 0; visible_nodes := 0; allocated_nodes := 0; complete_frames := 0;
     frame_len := min_len; min_frame_len := min_len; max_frame_len := max_len; highest_frame_len := min_len;
     period_miss_count := 0; consec_miss_count := 0; period_miss_inc := 0; period_miss_pct := (0, 1);
     period_good_count := 0; consec_good_count := 0; period_count := 0; dropped := 0; samples_per_frame := 0;
     samples_per_second := 0; bitrate_control := 0; video_low_bitrate := 0; write_init := false;
     read_init := false; debug_level := 0; next_seq := 0; last_len := 0;
     missing_seq_hash := if bool_decide (type0 = SJB_VIDEO) then Some ih_init else None;
     node_hash := ih_init; node_hash_ts := None; drop_flag := 0; flags := 0; type := type0; session := false;
     channel := false; buffer_lag := 0; flush := false; packet_count := 0; max_packet_len := 0;
     period_len := if bool_decide (type0 = SJB_VIDEO) then 2500 else 250;
     nack_saved_the_day := 0; nack_didnt_save_the_day := 0; unmanagable := false; trace := [] |}.

Definition switch_jb_ts_mode jb (spf sps : Z) : switch_jb_s :=
  let jb := jb <| samples_per_frame := spf |> in
  let jb := jb <| samples_per_second := sps |> in
  jb <| node_hash_ts := Some ih_init |>.

(** [var]: the value of the channel variable jb_video_low_bitrate, as a number. *)
Definition switch_jb_set_session jb (session0 : bool) (var : option Z) : switch_jb_s :=
  if session0 then
    let jb := jb <| session := true |> in
    let jb := jb <| channel := true |> in
    if bool_decide (type jb = SJB_VIDEO) && negb (test_flag (flags jb) SJB_QUEUE_ONLY) then
      match var with
      | Some tmp => if (tmp >=? 128) && (tmp <=? 10240) then jb <| video_low_bitrate := tmp |> else jb
      | None => jb
      end
    else jb
  else jb.

Definition switch_jb_set_flag jb (flag : Z) : switch_jb_s := jb <| flags := set_flag (flags jb) flag |>.
Definition switch_jb_clear_flag jb (flag : Z) : switch_jb_s := jb <| flags := clear_flag (flags jb) flag |>.
Definition switch_jb_debug_level jb (level : Z) : switch_jb_s := jb <| debug_level := level |>.
Definition switch_jb_frame_count jb : Z := complete_frames jb.
Definition switch_jb_get_last_read_len jb : Z := last_len jb.
Definition switch_jb_get_nack_success jb : Z := u32 (nack_saved_the_day jb + nack_didnt_save_the_day jb).
Definition switch_jb_get_packets_per_frame jb : Z := packet_count jb.

Definition switch_jb_get_frames jb : Z * Z * Z := (min_frame_len jb, max_frame_len jb, frame_len jb).

Definition switch_jb_set_frames jb (min_len max_len : Z) : switch_jb_s :=
  let lowest := frame_len jb =? min_frame_len jb in
  let jb := jb <| min_frame_len := min_len |> in
  let jb := jb <| max_frame_len := max_len |> in
  let jb := if frame_len jb >? max_frame_len jb then jb <| frame_len := max_frame_len jb |> else jb in
  let jb := if frame_len jb <? min_frame_len jb then jb <| frame_len := min_frame_len jb |> else jb in
  let jb := if frame_len jb >? highest_frame_len jb then jb <| highest_frame_len := frame_len jb |> else jb in
  if lowest then jb <| frame_len := min_frame_len jb |> else jb.

Definition switch_jb_poll jb : bool * switch_jb_s :=
  let jb :=
    if bool_decide (type jb = SJB_TEXT) && (complete_frames jb <? frame_len jb) then
      let jb := if negb (complete_frames jb =? 0) && (buffer_lag jb =? 0) then jb <| buffer_lag := 10 |> else jb in
      if negb (buffer_lag jb =? 0) then
        let jb := jb <| buffer_lag := buffer_lag jb - 1 |> in
        if buffer_lag jb =? 0 then jb <| flush := true |> else jb
      else jb
    else jb in
  ((complete_frames jb >=? frame_len jb) || flush jb, jb).

(** The frame peeked at: seq, timestamp, mark, datalen and, when the frame's
    buffer is large enough, what is copied into it. *)
Definition switch_jb_peek_frame jb (ts0 seq0 peek : Z) (buflen : option Z)
  : switch_status_t * option (Z * Z * bool * Z * option (list Z)) :=
  let node :=
    if negb (seq0 =? 0) then find_seq jb (htons (u16 (seq0 + peek)))
    else if negb (ts0 =? 0) && negb (samples_per_frame jb =? 0)
         then find_ts jb (htonl (u32 (ts0 + peek * samples_per_frame jb)))
         else None in
  match node with
  | Some n =>
      let datalen := u32 (len n - SWITCH_RTP_HEADER_LEN) in
      (SWITCH_STATUS_SUCCESS,
       Some (ntohs (seq (packet n)), ntohl (ts (packet n)), m (packet n), datalen,
             match buflen with
             | Some b => if b >? datalen then Some (take (Z.to_nat datalen) (body (packet n))) else None
             | None => None
             end))
  | None => (SWITCH_STATUS_FALSE, None)
  end.

(** ** Negative acknowledgements *)

(** A number as the pointer that carries it. *)
Definition ptr (z : Z) : option Z := if z =? 0 then None else Some z.

(** One iteration over the missing sequence numbers: [least] at its end and
    the first number that has expired, where the iteration stops. *)
Fixpoint nack_scan jb (now : Z) (l : list (Z * option Z)) (least : Z) : Z * option Z :=
  match l with
  | [] => (least, None)
  | (var, val) :: l =>
      let seq0 := ntohs (u16 var) in
      let then_ := default 0 val in
      if negb (then_ =? 1) && (u32 (now - then_) <? RENACK_TIME) then nack_scan jb now l least
      else if seq0 <? u32 (ntohs (target_seq jb) - frame_len jb) then (least, Some seq0)
      else nack_scan jb now l (if (least =? 0) || (seq0 <? least) then seq0 else least)
  end.

(** [top]: an expired number is deleted and the iteration starts again, with
    [least] as it is.  [fuel] counts the passes. *)
Fixpoint nack_loop (fuel : nat) jb (now : Z) (h : T Z) (least : Z) : option (T Z * Z) :=
  match fuel with
  | O => None
  | S fuel =>
      match nack_scan jb now (ih_list h) least with
      | (least, None) => Some (h, least)
      | (least, Some expired) => nack_loop fuel jb now (ih_delete h (htons expired)).2 least
      end
  end.

(** The [for] loop over the 16 numbers after [least]. *)
Definition nack_followers (now least : Z) (h : T Z) (blp : Z) : T Z * Z :=
  foldl (fun '(h, blp) i =>
           let key := htons (u16 (least + Z.of_nat i + 1)) in
           let '(found, h') := ih_delete h key in
           match found with
           | Some _ => (ih_insert h' key (ptr now), Z.lor blp (Z.shiftl 1 (Z.of_nat i)))
           | None => (h', blp)
           end) (h, blp) (List.seq 0 16).

(** One more pass than the hash has entries is enough. *)
Definition switch_jb_pop_nack jb (now : Z) : option (Z * switch_jb_s) :=
  if negb (bool_decide (type jb = SJB_VIDEO)) then Some (0, jb)
  else
    match missing_seq_hash jb with
    | None => None
    | Some h =>
        match nack_loop (S (length (ih_list h))) jb now h 0 with
        | None => None
        | Some (h, least) =>
            let '(nack, h) :=
              if least =? 0 then (0, h)
              else
                let '(found, h') := ih_delete h (htons least) in
                match found with
                | None => (0, h')
                | Some _ =>
                    let nack := htons least in
                    let h' := ih_insert h' nack (ptr now) in
                    let '(h', blp) := nack_followers now least h' 0 in
                    (Z.lor nack (u32 (Z.shiftl (htons blp) 16)), h')
                end in
            Some (nack, jb <| missing_seq_hash := Some h |>)
        end
    end.

(** ** Putting a packet *)

(** [for (i = want; i < got; i++)]: mark the numbers as missing. *)
Definition mark_missing (want got : Z) (h : T Z) : T Z :=
  foldl (fun h i => ih_insert h (htons (u16 (want + Z.of_nat i))) (ptr 1)) h (List.seq 0 (Z.to_nat (got - want))).

(** [while ((max_frame_len * 2 - visible_nodes) < max_packet_len) drop_oldest_frame] *)
Fixpoint drop_loop (fuel : nat) jb : option switch_jb_s :=
  match fuel with
  | O => None
  | S fuel =>
      if u32 (u32 (max_frame_len jb * 2) - visible_nodes jb) <? max_packet_len jb
      then drop_loop fuel (drop_oldest_frame jb)
      else Some jb
  end.

(** A packet that was reported missing: too late, or in time. *)
Definition note_nacked jb (got : Z) : switch_jb_s :=
  match missing_seq_hash jb with
  | None => jb
  | Some h =>
      let '(found, h) := ih_delete h (htons got) in
      let jb := jb <| missing_seq_hash := Some h |> in
      match found with
      | None => jb
      | Some _ =>
          if got <? ntohs (target_seq jb) then
            let jb := jb_frame_inc_line jb 1 in
            jb <| nack_didnt_save_the_day := u32 (nack_didnt_save_the_day jb + 1) |>
          else jb <| nack_saved_the_day := u32 (nack_saved_the_day jb + 1) |>
      end
  end.

(** A gap before the packet: reset if it is large, else mark it missing. *)
Definition note_gap jb (want got : Z) : switch_jb_s :=
  if got >? want then
    if (got - want >? max_frame_len jb) && (got - want >? 17) then switch_jb_reset jb
    else
      let jb :=
        if negb (bool_decide (type jb = SJB_VIDEO)) && (frame_len jb <? got - want)
        then jb_frame_inc_line jb 1 else jb in
      match missing_seq_hash jb with
      | Some h => jb <| missing_seq_hash := Some (mark_missing want got h) |>
      | None => jb
      end
  else jb.

(** The sequence number bookkeeping of put_packet. *)
Definition note_arrival jb (got : Z) : switch_jb_s :=
  let want := ntohs (next_seq jb) in
  let want := if want =? 0 then got else want in
  if test_flag (flags jb) SJB_QUEUE_ONLY || bool_decide (type jb = SJB_AUDIO) || bool_decide (type jb = SJB_TEXT)
  then jb <| next_seq := htons (u16 (got + 1)) |>
  else
    let jb := note_nacked jb got in
    let jb := note_gap jb want got in
    if (got >=? want) || (want - got >? 1000) then jb <| next_seq := htons (u16 (got + 1)) |> else jb.

(** Making room in a queue.  One more pass than there are nodes is enough. *)
Definition make_room jb : option switch_jb_s :=
  if test_flag (flags jb) SJB_QUEUE_ONLY && negb (max_packet_len jb =? 0)
     && (u32 (max_frame_len jb * 2) >? max_packet_len jb)
     && (allocated_nodes jb >? u32 (u32 (max_frame_len jb * 2) - 1))
  then drop_loop (S (length (node_list jb))) jb
  else if test_flag (flags jb) SJB_QUEUE_ONLY && negb (max_packet_len jb =? 0)
          && (u32 (max_frame_len jb * 2) <? max_packet_len jb)
       then Some (drop_oldest_frame jb)
       else Some jb.

Definition switch_jb_put_packet jb (packet0 : switch_rtp_packet_t) (len0 : Z)
  : option (switch_status_t * switch_jb_s) :=
  let len0 := if len0 >=? SWITCH_RTP_MAX_PACKET_LEN then SWITCH_RTP_MAX_PACKET_LEN else len0 in
  if negb (highest_dropped_ts jb =? 0) && (ntohl (ts packet0) <? highest_dropped_ts jb)
  then Some (SWITCH_STATUS_SUCCESS, jb)
  else
    let jb := if negb (highest_dropped_ts jb =? 0) then jb <| highest_dropped_ts := 0 |> else jb in
    let jb := note_arrival jb (ntohs (JbSort.seq packet0)) in
    let jb := add_node jb packet0 len0 in
    match make_room jb with
    | Some jb => Some (SWITCH_STATUS_SUCCESS, jb)
    | None => None
    end.

(** ** Getting a packet *)

Definition switch_jb_get_packet_by_seq jb (seq0 : Z)
  : switch_status_t * option (switch_rtp_packet_t * Z) :=
  match find_seq jb seq0 with
  | Some node => (SWITCH_STATUS_SUCCESS, Some ((packet node) <| version := 2 |>, len node))
  | None => (SWITCH_STATUS_NOTFOUND, None)
  end.

(** The end of a measuring period. *)
Definition end_period jb : switch_jb_s :=
  let jb := if consec_good_count jb >=? u32 (period_len jb - 5) then jb_frame_inc_line jb (-1) else jb in
  let jb := jb <| period_count := 1 |> in
  let jb := jb <| period_miss_inc := 0 |> in
  let jb := jb <| period_miss_count := 0 |> in
  let jb := jb <| period_good_count := 0 |> in
  let jb := jb <| consec_miss_count := 0 |> in
  let jb := jb <| consec_good_count := 0 |> in
  if bool_decide (type jb = SJB_VIDEO) && channel jb && negb (video_low_bitrate jb =? 0) then
    if unmanagable jb && (frame_len jb =? min_frame_len jb) then
      let jb := jb <| trace := trace jb ++ [ClearUnmanagable] |> in
      let jb := jb <| unmanagable := false |> in
      let jb := jb <| bitrate_control := 0 |> in
      request_video_refresh jb
    else if negb (unmanagable jb) && (frame_len jb >? max_frame_len jb / 2) then
      let jb := jb <| bitrate_control := video_low_bitrate jb |> in
      let jb := jb <| trace := trace jb ++ [BitrateRequest (s32 (u32 (bitrate_control jb * 1024)))] |> in
      let jb := jb <| trace := trace jb ++ [SetUnmanagable] |> in
      let jb := jb <| unmanagable := true |> in
      request_video_refresh jb
    else jb
  else jb.

(** The bookkeeping of a read, for the node found. *)
Definition note_read jb (node : switch_jb_node_t) : switch_jb_s :=
  let jb :=
    if negb (read_init jb) || check_seq (JbSort.seq (packet node)) (highest_read_seq jb)
    then jb <| highest_read_seq := JbSort.seq (packet node) |> else jb in
  let jb :=
    if negb (bool_decide (type jb = SJB_VIDEO))
       || (read_init jb && check_seq (JbSort.seq (packet node)) (highest_read_seq jb)
           && check_ts (ts (packet node)) (highest_read_ts jb)) then
      let jb :=
        if negb (bool_decide (type jb = SJB_VIDEO)) then jb <| complete_frames := u32 (complete_frames jb - 1) |>
        else jb in
      jb <| highest_read_ts := ts (packet node) |>
    else if negb (read_init jb) then jb <| highest_read_ts := ts (packet node) |>
    else jb in
  if negb (read_init jb) then jb <| read_init := true |> else jb.

(** From [end:] on.  [packet0], [len0] are the caller's buffers so far. *)
Definition get_end jb (plc : bool) (status : switch_status_t) (packet0 : switch_rtp_packet_t) (len0 : Z)
  : switch_status_t * switch_rtp_packet_t * Z * switch_jb_s :=
  let packet0 :=
    if plc then
      if negb (samples_per_frame jb =? 0)
      then packet0 <| seq := htons (last_psuedo_seq jb) |> <| ts := last_target_ts jb |>
      else packet0 <| seq := u16 (last_target_seq jb) |> <| ts := 0 |>
    else packet0 in
  if bool_decide (type jb = SJB_VIDEO) then
    let jb := if complete_frames jb >? u32 (max_frame_len jb * 2) then switch_jb_reset jb else jb in
    (status, packet0, len0, jb)
  else
    let too_big := max_frame_len jb * 3 / 2 in
    let status :=
      if (visible_nodes jb >? u32 too_big) && bool_decide (status = SWITCH_STATUS_SUCCESS)
      then SWITCH_STATUS_TIMEOUT else status in
    (status, packet0, len0, jb).

Definition switch_jb_get_packet jb (packet0 : switch_rtp_packet_t) (len0 : Z)
  : option (switch_status_t * switch_rtp_packet_t * Z * switch_jb_s) :=
  if complete_frames jb =? 0 then Some (get_end (jb <| flush := false |>) false SWITCH_STATUS_BREAK packet0 len0)
  else
    let '(more, jb) :=
      if complete_frames jb <? frame_len jb then
        let '(_, jb) := switch_jb_poll jb in (negb (flush jb), jb)
      else (false, jb) in
    if more then Some (get_end jb false SWITCH_STATUS_MORE_DATA packet0 len0)
    else
      let jb := jb <| period_count := u32 (period_count jb + 1) |> in
      let jb := if period_count jb >=? period_len jb then end_period jb else jb in
      let jb := jb <| period_miss_pct := (period_miss_count jb * 100, period_count jb) |> in
      match jb_next_packet jb with
      | None => None
      | Some (jb, Some node, SWITCH_STATUS_SUCCESS) =>
          let jb := note_read jb node in
          let jb := jb <| last_len := len node |> in
          let packet0 := (packet node) <| version := 2 |> in
          let jb := hide_node jb (addr node) true in
          Some (get_end jb false SWITCH_STATUS_SUCCESS packet0 (len node))
      | Some (jb, _, status) =>
          if bool_decide (type jb = SJB_VIDEO) then Some (get_end jb false SWITCH_STATUS_MORE_DATA packet0 len0)
          else if consec_miss_count jb >? frame_len jb then
            let jb := jb_frame_inc_line jb 1 in
            Some (get_end jb false SWITCH_STATUS_RESTART packet0 len0)
          else Some (get_end jb true SWITCH_STATUS_NOTFOUND packet0 len0)
      end.

End jb.
End JitterBuffer.
