(* ===== verification/JbStore.v ===== *)
(** * The node store of the jitter buffer

    The invariant that ties the node list, its counters and the two indexes of
    the jitter buffer together, and the proofs that the operations on nodes of
    JitterBuffer.v keep it.  The theorems about the buffer's operations
    (JitterBufferSpec.v) build on these lemmas.  Everything is proved against
    the interface of the integer hash. *)

From S2P Require Import Prelude.
From S2P Require Import Hashtable CoreHash JbSort JitterBuffer.

Module JbStore.
Import CoreHash JbSort JitterBuffer.

#[global] Arguments update_node : simpl never.
#[global] Arguments node_at : simpl never.

(** ** Lists of nodes *)

Implicit Types (l : list switch_jb_node_t) (n : switch_jb_node_t).

Lemma node_at_Some l a n : node_at l a = Some n -> n ∈ l /\ addr n = a.
Proof.
  unfold node_at. intros H. apply head_Some_elem_of in H. apply list_elem_of_filter in H. tauto.
Qed.

Lemma node_at_elem l n : NoDup (map addr l) -> n ∈ l -> node_at l (addr n) = Some n.
Proof.
  intros HD Hn. destruct (node_at l (addr n)) as [n'|] eqn:E.
  - apply node_at_Some in E as [Hn' Ha]. f_equal.
    apply list_elem_of_lookup in Hn as [i Hi]. apply list_elem_of_lookup in Hn' as [j Hj].
    assert (i = j) as ->; [|congruence]. eapply (NoDup_lookup (map addr l)); [done| |].
    + change (map addr l) with (addr <$> l). by rewrite list_lookup_fmap, Hi.
    + change (map addr l) with (addr <$> l). rewrite list_lookup_fmap, Hj. simpl. by rewrite Ha.
  - exfalso. unfold node_at in E. destruct (filter _ l) as [|x xs] eqn:Ef; [|done].
    assert (n ∈ filter (fun n' => addr n' = addr n) l) as Hin by (by apply list_elem_of_filter).
    rewrite Ef in Hin. by apply elem_of_nil in Hin.
Qed.

Lemma node_at_perm l l' a : NoDup (map addr l) -> l ≡ₚ l' -> node_at l a = node_at l' a.
Proof.
  intros HD HP. assert (NoDup (map addr l')) as HD' by (by rewrite <- HP).
  destruct (node_at l a) as [n|] eqn:E.
  - apply node_at_Some in E as [Hn <-]. symmetry. apply node_at_elem; [done|]. by rewrite <- HP.
  - destruct (node_at l' a) as [n|] eqn:E'; [|done]. apply node_at_Some in E' as [Hn <-].
    rewrite <- HP in Hn. rewrite node_at_elem in E by done. done.
Qed.

Section update.
Variables (a : nat) (f : switch_jb_node_t -> switch_jb_node_t).
Hypothesis f_addr : forall n, addr (f n) = addr n.

Lemma update_addrs l : map addr (update_node a f l) = map addr l.
Proof.
  unfold update_node. rewrite map_map. apply map_ext. intros n. by case_decide; rewrite ?f_addr.
Qed.

Lemma update_length l : length (update_node a f l) = length l.
Proof. apply length_map. Qed.

Lemma update_at l b :
  node_at (update_node a f l) b = if decide (b = a) then f <$> node_at l a else node_at l b.
Proof.
  unfold node_at, update_node. induction l as [|n l IH]; simpl; [by case_decide|].
  rewrite !filter_cons. destruct (decide (addr n = a)) as [E|E].
  - rewrite f_addr. destruct (decide (b = a)) as [->|Hb].
    + rewrite !decide_True by done. done.
    + rewrite !decide_False by congruence. done.
  - destruct (decide (b = a)) as [->|Hb].
    + rewrite !decide_False by done. done.
    + by destruct (decide (addr n = b)).
Qed.

Lemma update_count p l n :
  NoDup (map addr l) -> node_at l a = Some n ->
  count p (update_node a f l) = count p l - Z.b2z (p n) + Z.b2z (p (f n)).
Proof.
  unfold node_at, update_node. induction l as [|x l IH]; simpl; [done|]. rewrite filter_cons.
  intros [Hx HD]%NoDup_cons. destruct (decide (addr x = a)) as [E|E].
  - simpl. intros [= ->]. rewrite !count_cons.
    assert (map (fun n0 => if decide (addr n0 = a) then f n0 else n0) l = l) as ->; [|lia].
    rewrite <- (map_id l) at 2. apply map_ext_in. intros y Hy. rewrite decide_False; [done|].
    intros Hya. apply Hx. rewrite E, <- Hya. apply list_elem_of_In, in_map. done.
  - intros H. rewrite !count_cons, IH by done. lia.
Qed.

Lemma update_perm l l' : l ≡ₚ l' -> update_node a f l ≡ₚ update_node a f l'.
Proof. apply Permutation_map. Qed.

End update.

Lemma count_perm {A} (p : A -> bool) (l1 l2 : list A) : l1 ≡ₚ l2 -> count p l1 = count p l2.
Proof. induction 1; rewrite ?count_cons; lia. Qed.

Lemma to_top_perm l a : filter (fun n => addr n = a) l ++ filter (fun n => addr n <> a) l ≡ₚ l.
Proof. apply filter_app_complement. Qed.

(** ** The invariant of the store *)

Section store.
Context {T : Type -> Type} `{!IntHash T, !IntHashLaws T}.
Implicit Types jb : switch_jb_s (T := T).

(** An index leads to visible nodes, by the field it indexes. *)
Definition indexes (h : T nat) (field : switch_rtp_packet_t -> Z) l : Prop :=
  forall key a, ih_find h key = Some a ->
    exists n, node_at l a = Some n /\ visible n = true /\ u32 key = u32 (field (packet n)).

Record store_ok l (alloc vis : Z) (h : T nat) (hts : option (T nat)) : Prop := {
  s_nodup : NoDup (map addr l);
  s_addr : Forall (fun n => (addr n < length l)%nat) l;
  s_alloc : alloc = Z.of_nat (length l);
  s_small : Z.of_nat (length l) < 2 ^ 32;
  s_visible : vis = count visible l;
  s_hash : ih_ok h;
  s_seq : hts = None -> indexes h seq l;
  s_hash_ts : forall h', hts = Some h' -> ih_ok h' /\ indexes h' ts l;
}.

Definition store jb : Prop :=
  store_ok (node_list jb) (allocated_nodes jb) (visible_nodes jb) (node_hash jb) (node_hash_ts jb).

Lemma store_perm l l' alloc vis h hts :
  l ≡ₚ l' -> store_ok l alloc vis h hts -> store_ok l' alloc vis h hts.
Proof.
  intros HP [S1 S2 S3 S4 S5 S6 S7 S8].
  assert (forall h field, indexes h field l -> indexes h field l') as HI.
  { intros h0 field Hi key a Ha. destruct (Hi key a Ha) as (n & Hn & ?). exists n.
    by rewrite <- (node_at_perm l l'). }
  pose proof (Permutation_length HP) as HL. constructor; try rewrite <- HL; try done.
  - by rewrite <- HP.
  - by rewrite <- HP.
  - by rewrite <- (count_perm visible _ _ HP).
  - auto.
  - intros h' Hh. destruct (S8 h' Hh). auto.
Qed.

(** Taking a node out of an index, by its key, and hiding it. *)
Lemma indexes_hide h field l a n g :
  (forall n, addr (g n) = addr n) -> ih_ok h -> node_at l a = Some n -> indexes h field l ->
  indexes (ih_delete h (field (packet n))).2 field (update_node a g l).
Proof.
  intros Hg Hok Hn Hi key b Hb. rewrite ih_find_delete in Hb by done.
  destruct (Z.eqb_spec (u32 (field (packet n))) (u32 key)) as [E|E]; [done|].
  destruct (Hi key b Hb) as (n' & Hn' & Hv & Hk). exists n'. split; [|done].
  rewrite update_at by done. destruct (decide (b = a)) as [->|]; [congruence|done].
Qed.

(** What hide_node does to a node. *)
Record hides (node : switch_jb_node_t) (g : switch_jb_node_t -> switch_jb_node_t) : Prop := {
  g_addr : forall n, addr (g n) = addr n;
  g_packet : forall n, packet (g n) = packet n;
  g_len : forall n, len (g n) = len n;
  g_visible : visible (g node) = false;
}.

Lemma update_compose a f g l :
  (forall n, addr (g n) = addr n) ->
  update_node a f (update_node a g l) = update_node a (fun n => f (g n)) l.
Proof.
  intros Hg. unfold update_node. rewrite map_map. apply map_ext. intros n.
  destruct (decide (addr n = a)) as [E|E]; [rewrite decide_True by (by rewrite Hg)|rewrite decide_False by done]; done.
Qed.

Lemma update_id a l : update_node a (fun n => n) l = l.
Proof.
  unfold update_node. rewrite <- (map_id l) at 2. apply map_ext. intros n. by case_decide.
Qed.

Lemma update_top a g l :
  (forall n, addr (g n) = addr n) ->
  update_node a g (filter (fun n => addr n = a) l ++ filter (fun n => addr n <> a) l) ≡ₚ update_node a g l.
Proof. intros Hg. apply update_perm, to_top_perm. Qed.

(** hide_node as one update of the buffer. *)
Lemma hide_node_eq jb a pop node :
  node_at (node_list jb) a = Some node ->
  exists g l' c, hides node g /\ l' ≡ₚ update_node a g (node_list jb)
    /\ (pop = false -> l' = update_node a g (node_list jb))
    /\ (type jb <> SJB_VIDEO -> c = complete_frames jb)
    /\ hide_node jb a pop =
       jb <| node_list := l' |>
          <| visible_nodes := if visible node then u32 (visible_nodes jb - 1) else visible_nodes jb |>
          <| node_hash := (ih_delete (node_hash jb) (seq (packet node))).2 |>
          <| node_hash_ts := option_map (fun h => (ih_delete h (ts (packet node))).2) (node_hash_ts jb) |>
          <| complete_frames := c |>.
Proof.
  intros Hn.
  set (g1 := fun n => if visible node then n <| visible := false |> <| bad_hits := 0 |> else n).
  assert (hides node g1) as Hg1.
  { unfold g1. destruct (visible node) eqn:Ev; constructor; done. }
  set (top := fun l => if visible node && pop
     then filter (fun n => addr n = a) l ++ filter (fun n => addr n <> a) l else l).
  assert (forall l, top l ≡ₚ l) as Htop.
  { intros l. unfold top. destruct (_ && _); [apply to_top_perm|done]. }
  assert (pop = false -> forall l, top l = l) as Htop0.
  { intros -> l. unfold top. by rewrite andb_false_r. }
  set (mark := match (ih_delete (node_hash jb) (seq (packet node))).1 with
               | Some _ => complete_frame_mark node && bool_decide (type jb = SJB_VIDEO) | None => false end).
  set (g2 := fun n => if mark then (g1 n) <| complete_frame_mark := false |> else g1 n).
  set (l1 := top (update_node a g1 (node_list jb))).
  exists g2, (if mark then update_node a (fun n => n <| complete_frame_mark := false |>) l1 else l1),
    (if mark then u32 (complete_frames jb - 1) else complete_frames jb).
  assert (update_node a (fun n => n <| complete_frame_mark := false |>) (update_node a g1 (node_list jb))
          = update_node a (fun n => (g1 n) <| complete_frame_mark := false |>) (node_list jb)) as HC
    by (rewrite update_compose; [done|apply Hg1]).
  split_and!.
  - unfold g2. destruct mark; [|done]. destruct Hg1 as [A1 A2 A3 A4]. constructor; done.
  - unfold g2, l1. destruct mark; [|apply Htop]. rewrite <- HC. apply update_perm, Htop.
  - intros Hp. unfold g2, l1. rewrite (Htop0 Hp). by destruct mark.
  - intros Ht. unfold mark. rewrite (bool_decide_false _ Ht), andb_false_r. by destruct (ih_delete _ _) as [[]].
  - unfold hide_node. rewrite Hn. unfold l1, mark, top, g1.
    destruct (ih_delete (node_hash jb) (seq (packet node))) as [[x|] h] eqn:Ed;
    destruct (visible node), pop, (node_hash_ts jb) eqn:Et; simpl; rewrite ?Ed, ?Et; simpl;
    try destruct (complete_frame_mark node && _); simpl; rewrite ?update_id; destruct jb; simpl in *; subst; rewrite ?Ed; done.
Qed.

(** ** Operations that only touch the store *)

(** [jb'] differs from [jb] at most in the node list (the same nodes, by
    address), its counter, the indexes and - for video - complete_frames. *)
Definition touches_store jb jb' : Prop :=
  exists l v h hts c,
    jb' = jb <| node_list := l |> <| visible_nodes := v |> <| node_hash := h |> <| node_hash_ts := hts |>
             <| complete_frames := c |>
    /\ (type jb <> SJB_VIDEO -> c = complete_frames jb)
    /\ map addr l ≡ₚ map addr (node_list jb)
    /\ (hts = None <-> node_hash_ts jb = None).

#[export] Instance touches_refl : Reflexive touches_store.
Proof.
  intros jb. exists (node_list jb), (visible_nodes jb), (node_hash jb), (node_hash_ts jb), (complete_frames jb).
  split_and!; try done. by destruct jb.
Qed.

#[export] Instance touches_trans : Transitive touches_store.
Proof.
  intros j1 j2 j3 (l & v & h & hts & c & -> & Hc & Hp & Hn) (l' & v' & h' & hts' & c' & -> & Hc' & Hp' & Hn').
  exists l', v', h', hts', c'. split_and!; [by destruct j1| | |].
  - intros Ht. rewrite Hc' by done. simpl. auto.
  - by rewrite Hp'.
  - rewrite Hn'. done.
Qed.

Lemma hide_node_touches jb a pop : touches_store jb (hide_node jb a pop).
Proof.
  destruct (node_at (node_list jb) a) as [node|] eqn:E.
  - destruct (hide_node_eq jb a pop node E) as (g & l' & c & Hg & HP & _ & Hc & ->).
    eexists l', _, _, _, c. split_and!; [reflexivity|done| |by destruct (node_hash_ts jb)].
    rewrite HP, update_addrs; [done|apply Hg].
  - unfold hide_node. rewrite E. reflexivity.
Qed.

Lemma hide_node_store jb a pop : store jb -> store (hide_node jb a pop).
Proof.
  intros HS. destruct (node_at (node_list jb) a) as [node|] eqn:E; [|unfold hide_node; by rewrite E].
  destruct (hide_node_eq jb a pop node E) as (g & l' & c & Hg & HP & _ & Hc & ->).
  destruct HS as [S1 S2 S3 S4 S5 S6 S7 S8]. unfold store. simpl.
  apply (store_perm (update_node a g (node_list jb)) l'); [by symmetry|].
  constructor; rewrite ?update_length; try done.
  - rewrite update_addrs; [done|apply Hg].
  - apply Forall_forall. intros n Hn. apply list_elem_of_fmap in Hn as (n0 & -> & Hn0).
    rewrite Forall_forall in S2. specialize (S2 n0 Hn0). case_decide; rewrite ?(g_addr _ _ Hg); done.
  - rewrite (update_count a g visible _ node S1 E), (g_visible _ _ Hg). simpl.
    destruct (visible node) eqn:Ev; simpl; [|lia].
    apply node_at_Some in E as [Hin _]. apply list_elem_of_lookup in Hin as [i Hi].
    pose proof (count_lookup visible _ _ _ Hi Ev). pose proof (count_length visible (node_list jb)).
    rewrite u32_small; lia.
  - by apply ih_delete_ok.
  - intros Hnone. apply indexes_hide; try done; [apply Hg|]. apply S7. by destruct (node_hash_ts jb).
  - intros h' Hh. destruct (node_hash_ts jb) as [h0|] eqn:Eh; [|done]. injection Hh as <-.
    destruct (S8 h0 eq_refl). split; [by apply ih_delete_ok|]. apply indexes_hide; try done. apply Hg.
Qed.

(** The nodes after hide_node. *)
Lemma hide_node_at jb a pop b :
  store jb ->
  match node_at (node_list (hide_node jb a pop)) b, node_at (node_list jb) b with
  | Some n', Some n => packet n' = packet n /\ len n' = len n
      /\ (if decide (b = a) then visible n' = false else n' = n)
  | None, None => True
  | _, _ => False
  end.
Proof.
  intros HS. destruct (node_at (node_list jb) a) as [node|] eqn:E.
  - destruct (hide_node_eq jb a pop node E) as (g & l' & c & Hg & HP & _ & _ & ->). simpl.
    assert (NoDup (map addr l')) as HD.
    { rewrite HP, update_addrs by apply Hg. apply HS. }
    rewrite (node_at_perm l' _ b HD HP), update_at by apply Hg.
    destruct (decide (b = a)) as [->|Hb].
    + rewrite E. simpl. split_and!; apply Hg.
    + by destruct (node_at (node_list jb) b).
  - unfold hide_node. rewrite E. destruct (node_at (node_list jb) b) as [n|] eqn:E'; [|done].
    split_and!; try done. case_decide; [congruence|done].
Qed.

Lemma hide_node_visible jb a pop b n' :
  store jb -> node_at (node_list (hide_node jb a pop)) b = Some n' -> visible n' = true ->
  b <> a /\ node_at (node_list jb) b = Some n'.
Proof.
  intros HS E Hv. pose proof (hide_node_at jb a pop b HS) as H. rewrite E in H.
  destruct (node_at (node_list jb) b) as [n|]; [|done]. destruct H as (_ & _ & H).
  case_decide; [congruence|]. by subst.
Qed.

(** A sequence of hide_node calls. *)
Lemma hide_fold_spec (keep : switch_jb_s (T := T) -> nat -> bool) as_ jb
    (jb' := foldl (fun jb a => if keep jb a then jb else hide_node jb a false) jb as_) :
  store jb -> store jb' /\ touches_store jb jb'
    /\ (forall b n', node_at (node_list jb') b = Some n' -> visible n' = true ->
          node_at (node_list jb) b = Some n').
Proof.
  unfold jb'. clear jb'. revert jb. induction as_ as [|a as_ IH]; intros jb HS; simpl; [done|].
  destruct (keep jb a); [by apply IH|].
  destruct (IH (hide_node jb a false)) as (H1 & H2 & H3); [by apply hide_node_store|].
  split_and!; [done| |].
  - etransitivity; [apply hide_node_touches|done].
  - intros b n' E Hv. specialize (H3 b n' E Hv). by apply (hide_node_visible jb a false).
Qed.

Lemma node_at_touches jb jb' n : touches_store jb jb' -> n ∈ node_list jb' -> addr n ∈ map addr (node_list jb).
Proof.
  intros (l & v & h & hts & c & -> & _ & HP & _) Hn. simpl in Hn. rewrite <- HP.
  apply list_elem_of_fmap. eauto.
Qed.

Lemma hide_nodes_spec jb :
  store jb -> store (hide_nodes jb) /\ touches_store jb (hide_nodes jb) /\ visible_nodes (hide_nodes jb) = 0
    /\ Forall (fun n => visible n = false) (node_list (hide_nodes jb)).
Proof.
  intros HS. pose proof (hide_fold_spec (fun _ _ => false) (map addr (node_list jb)) jb HS) as (H1 & H2 & H3).
  cbv beta iota in *. fold (hide_nodes jb) in *.
  assert (Forall (fun n => visible n = false) (node_list (hide_nodes jb))) as HF.
  { apply Forall_forall. intros n Hn. destruct (visible n) eqn:Ev; [|done]. exfalso.
    pose proof (node_at_touches _ _ _ H2 Hn) as Ha.
    assert (node_at (node_list (hide_nodes jb)) (addr n) = Some n) as Hat by (apply node_at_elem; [apply H1|done]).
    clear H3. revert Ha Hat. unfold hide_nodes. generalize (map addr (node_list jb)) as as_. clear -HS Ev IntHashLaws0.
    intros as_. revert jb HS. induction as_ as [|a as_ IH]; intros jb HS; [by intros ?%elem_of_nil|]. simpl.
    pose proof (hide_fold_spec (fun _ _ => false) as_ (hide_node jb a false) (hide_node_store jb a false HS)) as (_ & _ & K3).
    cbv beta iota in K3. intros [E|E]%elem_of_cons Hat.
    - apply K3 in Hat; [|done]. by apply hide_node_visible in Hat as [? _].
    - by eapply (IH (hide_node jb a false)); [apply hide_node_store| |]. }
  split_and!; try done. rewrite (s_visible _ _ _ _ _ H1). by apply count_zero.
Qed.

(** ** Dropping frames *)

Definition drop_step (ts0 : Z) : switch_jb_s (T := T) * Z -> nat -> switch_jb_s * Z :=
  fun '(jb, x) a =>
    match node_at (node_list jb) a with
    | Some np => if visible np && (ts0 =? ts (packet np)) then (hide_node jb a false, x + 1) else (jb, x)
    | None => (jb, x)
    end.

Lemma hide_visible_count jb a pop node :
  store jb -> node_at (node_list jb) a = Some node -> visible node = true ->
  visible_nodes (hide_node jb a pop) = visible_nodes jb - 1 /\ 0 < visible_nodes jb.
Proof.
  intros HS E Hv. destruct (hide_node_eq jb a pop node E) as (g & l' & c & _ & _ & _ & _ & ->). simpl.
  rewrite Hv. apply node_at_Some in E as [Hin _]. apply list_elem_of_lookup in Hin as [i Hi].
  pose proof (count_lookup visible _ _ _ Hi Hv). pose proof (count_length visible (node_list jb)).
  destruct HS as [_ _ _ S4 S5 _ _ _]. rewrite S5 in *. rewrite u32_small; lia.
Qed.

Lemma drop_fold_spec ts0 as_ jb x (r := foldl (drop_step ts0) (jb, x) as_) :
  store jb -> store r.1 /\ touches_store jb r.1 /\ x <= r.2 /\ visible_nodes r.1 = visible_nodes jb - (r.2 - x)
    /\ (r.2 = x -> r.1 = jb)
    /\ (forall b n', node_at (node_list r.1) b = Some n' -> visible n' = true ->
          node_at (node_list jb) b = Some n' /\ (b ∈ as_ -> ts (packet n') <> ts0)).
Proof.
  unfold r. clear r. revert jb x. induction as_ as [|a as_ IH]; intros jb x HS; cbn [foldl].
  { simpl. split_and!; try done; try lia. intros b n' H1 H2. split; [done|]. by intros ?%elem_of_nil. }
  assert ((exists node, node_at (node_list jb) a = Some node /\ visible node = true /\ ts0 = ts (packet node)
             /\ drop_step ts0 (jb, x) a = (hide_node jb a false, x + 1))
          \/ ((forall node, node_at (node_list jb) a = Some node -> visible node = true -> ts0 <> ts (packet node))
             /\ drop_step ts0 (jb, x) a = (jb, x))) as [(node & E & Hv & Hts & ->)|[Hno ->]].
  { unfold drop_step. destruct (node_at (node_list jb) a) as [np|] eqn:E; [|right; split; [done|done]].
    destruct (visible np) eqn:Ev; [|right; split; [congruence|done]].
    destruct (Z.eqb_spec ts0 (ts (packet np))) as [Et|Et]; [left; by exists np|right].
    split; [|done]. intros node [= <-]. done. }
  - destruct (IH (hide_node jb a false) (x + 1) (hide_node_store jb a false HS)) as (H1 & H2 & H3 & H4 & H5 & H6).
    destruct (hide_visible_count jb a false node HS E Hv) as [Hc _].
    split_and!; try done; try lia.
    + etransitivity; [apply hide_node_touches|done].
    + intros b n' Hb Hvis. destruct (H6 b n' Hb Hvis) as [H7 H8].
      destruct (hide_node_visible jb a false b n' HS H7 Hvis) as [Hne Hat]. split; [done|].
      intros [->|Hin]%elem_of_cons; [done|auto].
  - destruct (IH jb x HS) as (H1 & H2 & H3 & H4 & H5 & H6). split_and!; try done.
    intros b n' Hb Hvis. destruct (H6 b n' Hb Hvis) as [H7 H8]. split; [done|].
    intros [->|Hin]%elem_of_cons; [|auto]. intros Heq. by apply (Hno n' H7 Hvis).
Qed.

Lemma sort_free_store jb : store jb -> store (sort_free_nodes jb) /\ touches_store jb (sort_free_nodes jb).
Proof.
  intros HS. split.
  - eapply store_perm; [symmetry; apply sort_nodes_perm|exact HS].
  - eexists (sort_nodes (node_list jb)), (visible_nodes jb), (node_hash jb), (node_hash_ts jb), (complete_frames jb).
    split_and!; try done. by rewrite sort_nodes_perm.
Qed.

Lemma drop_ts_spec jb ts0 (jb' := drop_ts jb ts0) :
  store jb -> store jb' /\ touches_store jb jb' /\ visible_nodes jb' <= visible_nodes jb
    /\ (forall n, n ∈ node_list jb -> visible n = true -> ts (packet n) = ts0 -> visible_nodes jb' < visible_nodes jb)
    /\ (forall n, n ∈ node_list jb' -> visible n = true -> n ∈ node_list jb /\ ts (packet n) <> ts0).
Proof.
  intros HS. destruct (drop_fold_spec ts0 (map addr (node_list jb)) jb 0 HS) as (H1 & H2 & H3 & H4 & H5 & H6).
  unfold jb', drop_ts. clear jb'. change (drop_ts_loop jb ts0) with (foldl (drop_step ts0) (jb, 0) (map addr (node_list jb))).
  destruct (foldl (drop_step ts0) (jb, 0) (map addr (node_list jb))) as [j x] eqn:E. simpl in *.
  assert (forall n, n ∈ node_list j -> visible n = true -> n ∈ node_list jb /\ ts (packet n) <> ts0) as HV.
  { intros n Hn Hv. pose proof (node_at_elem _ _ (s_nodup _ _ _ _ _ H1) Hn) as Hat.
    destruct (H6 _ _ Hat Hv) as [H7 H8]. apply node_at_Some in H7 as [H7 _]. split; [done|].
    apply H8. apply (node_at_touches jb j); done. }
  assert (forall n, n ∈ node_list jb -> visible n = true -> ts (packet n) = ts0 -> x <> 0) as HX.
  { intros n Hn Hv Ht ->. rewrite (H5 eq_refl) in HV. by destruct (HV n Hn Hv). }
  destruct (Z.eqb_spec x 0) as [->|Hx]; simpl.
  - split_and!; try done; try lia. intros n Hn Hv Ht. by destruct (HX n Hn Hv Ht).
  - destruct (sort_free_store j H1) as [S1 T1].
    split_and!; [done|by etransitivity|simpl; lia| |].
    + intros. simpl. lia.
    + intros n Hn. simpl in Hn. rewrite sort_nodes_perm in Hn. auto.
Qed.

(** ** The oldest node *)

Lemma find_lowest_from (le : switch_jb_node_t -> switch_jb_node_t -> bool) (skip : switch_jb_node_t -> bool) l acc
    (f := fun lowest np =>
       if negb (visible np) then lowest else if skip np then lowest
       else match lowest with None => Some np | Some lo => if le lo np then Some np else lowest end)
    (r := foldl f acc l) :
  (match acc with Some a => visible a = true | None => True end) ->
  match r with
  | Some n => visible n = true /\ (n ∈ l \/ acc = Some n)
  | None => acc = None /\ Forall (fun n => visible n = true -> skip n = true) l
  end.
Proof.
  unfold r. clear r. revert acc. induction l as [|np l IH]; intros acc Ha; simpl; [by destruct acc; auto|].
  assert (match f acc np with Some a => visible a = true | None => True end) as Hf.
  { unfold f. destruct (visible np) eqn:Ev; simpl; [|done]. destruct (skip np); [done|].
    destruct acc as [a|]; [destruct (le a np)|]; done. }
  specialize (IH _ Hf). destruct (foldl f (f acc np) l) as [n|].
  - destruct IH as [Hv [Hin|Hacc]]; split; try done; [left; by right|].
    unfold f in Hacc. destruct (visible np); simpl in Hacc; [|by right].
    destruct (skip np); [by right|]. destruct acc as [a|]; [destruct (le a np); [|by right]|]; injection Hacc as <-; left; left.
  - destruct IH as [Hacc HF]. unfold f in Hacc.
    destruct (visible np) eqn:Ev; simpl in Hacc; [|split; [done|by constructor; [rewrite Ev|]]].
    destruct (skip np) eqn:Es; [split; [done|by constructor]|]. destruct acc as [a|]; [by destruct (le a np)|done].
Qed.

Lemma find_lowest_node_spec jb :
  match jb_find_lowest_node jb with
  | Some n => n ∈ node_list jb /\ visible n = true
  | None => Forall (fun n => visible n = false) (node_list jb)
  end.
Proof.
  unfold jb_find_lowest_node.
  pose proof (find_lowest_from (fun lo np => ntohl (ts (packet lo)) >? ntohl (ts (packet np))) (fun _ => false)
    (node_list jb) None I) as H. cbv beta iota in H.
  destruct (foldl _ None (node_list jb)) as [n|]; [destruct H as [? [?|?]]; done|].
  eapply Forall_impl; [exact (proj2 H)|]. intros n Hn. simpl in Hn. destruct (visible n); [|done].
  by specialize (Hn eq_refl).
Qed.

Lemma find_lowest_seq_spec jb ts0 :
  match jb_find_lowest_seq jb ts0 with
  | Some n => n ∈ node_list jb /\ visible n = true
  | None => ts0 = 0 -> Forall (fun n => visible n = false) (node_list jb)
  end.
Proof.
  unfold jb_find_lowest_seq.
  pose proof (find_lowest_from (fun lo np => ntohs (seq (packet lo)) >? ntohs (seq (packet np)))
    (fun np => negb (ts0 =? 0) && negb (ts0 =? ts (packet np))) (node_list jb) None I) as H. cbv beta iota in H.
  destruct (foldl _ None (node_list jb)) as [n|]; [destruct H as [? [?|?]]; done|].
  intros ->. eapply Forall_impl; [exact (proj2 H)|]. intros n Hn. simpl in Hn. destruct (visible n); [|done].
  by specialize (Hn eq_refl).
Qed.

(** Dropping the oldest frame hides at least one node, if one is visible. *)
Lemma drop_oldest_spec jb (jb' := drop_oldest_frame jb) :
  store jb -> store jb' /\ touches_store jb jb' /\ visible_nodes jb' <= visible_nodes jb
    /\ (visible_nodes jb <> 0 -> visible_nodes jb' < visible_nodes jb).
Proof.
  intros HS. destruct (drop_ts_spec jb (jb_find_lowest_ts jb) HS) as (H1 & H2 & H3 & H4 & _).
  split_and!; try done. intros Hne. unfold jb_find_lowest_ts in H4. pose proof (find_lowest_node_spec jb) as HL.
  unfold jb', drop_oldest_frame, jb_find_lowest_ts.
  destruct (jb_find_lowest_node jb) as [n|]; [destruct HL; by apply (H4 n)|].
  destruct Hne. rewrite (s_visible _ _ _ _ _ HS). by apply count_zero.
Qed.

(** ** Reset *)

(** The settings that no operation on packets changes. *)
Record same_settings jb jb' : Prop := {
  ss_type : type jb' = type jb; ss_flags : flags jb' = flags jb;
  ss_min : min_frame_len jb' = min_frame_len jb; ss_max : max_frame_len jb' = max_frame_len jb;
  ss_spf : samples_per_frame jb' = samples_per_frame jb;
  ss_ts : node_hash_ts jb' = None <-> node_hash_ts jb = None;
  ss_session : session jb' = session jb;
}.

#[export] Instance same_settings_refl : Reflexive same_settings.
Proof. intros jb. by constructor. Qed.
#[export] Instance same_settings_trans : Transitive same_settings.
Proof. intros j1 j2 j3 [] []. constructor; try congruence. tauto. Qed.

Lemma touches_settings jb jb' : touches_store jb jb' -> same_settings jb jb'.
Proof. intros (l & v & h & hts & c & -> & _ & _ & Hn). by constructor. Qed.

Lemma reset_fields_store jb : store (reset_fields jb) <-> store jb.
Proof. done. Qed.

Lemma reset_fields_settings jb : same_settings jb (reset_fields jb).
Proof. by constructor. Qed.

Lemma reset_spec jb (jb' := switch_jb_reset jb) :
  store jb ->
  store jb' /\ same_settings jb jb' /\ visible_nodes jb' = 0 /\ complete_frames jb' = 0
  /\ length (node_list jb') = length (node_list jb)
  /\ frame_len jb' = frame_len jb /\ max_packet_len jb' = max_packet_len jb
  /\ target_seq jb' = 0 /\ dropped jb' = dropped jb
  /\ missing_seq_hash jb' = (if bool_decide (type jb = SJB_VIDEO) then Some ih_init else missing_seq_hash jb).
Proof.
  intros HS. unfold jb', switch_jb_reset. clear jb'.
  set (jb0 := if bool_decide _ then _ else _).
  assert (store jb0 /\ same_settings jb jb0 /\ node_list jb0 = node_list jb /\ frame_len jb0 = frame_len jb
    /\ max_packet_len jb0 = max_packet_len jb /\ dropped jb0 = dropped jb
    /\ missing_seq_hash jb0 = (if bool_decide (type jb = SJB_VIDEO) then Some ih_init else missing_seq_hash jb))
    as (S0 & C0 & L0 & F0 & P0 & D0 & M0).
  { unfold jb0, request_video_refresh. destruct (bool_decide _); [destruct (session _)|];
      split_and!; first [reflexivity|exact HS|by constructor]. }
  clearbody jb0. destruct (hide_nodes_spec jb0 S0) as (H1 & H2 & H3 & _).
  pose proof (touches_settings _ _ H2) as C1.
  assert (length (node_list (hide_nodes jb0)) = length (node_list jb) /\ frame_len (hide_nodes jb0) = frame_len jb
    /\ max_packet_len (hide_nodes jb0) = max_packet_len jb /\ dropped (hide_nodes jb0) = dropped jb
    /\ missing_seq_hash (hide_nodes jb0) = missing_seq_hash jb0) as (K1 & K2 & K3 & K4 & K5).
  { destruct H2 as (l & v & h & hts & c & -> & _ & HP & _). apply Permutation_length in HP. rewrite !length_map in HP.
    split_and!; simpl; congruence. }
  set (j := hide_nodes jb0) in *. clearbody j.
  split; [exact H1|]. split; [etransitivity; [exact C0|etransitivity; [exact C1|apply reset_fields_settings]]|].
  split; [exact H3|]. split; [reflexivity|]. split; [exact K1|]. split; [exact K2|]. split; [exact K3|].
  split; [reflexivity|]. split; [exact K4|]. rewrite <- M0. exact K5.
Qed.

(** ** New nodes *)

(** No index entry leads to the node. *)
Definition unindexed (a : nat) (h : T nat) (hts : option (T nat)) : Prop :=
  (hts = None -> forall key, ih_find h key <> Some a)
  /\ (forall h', hts = Some h' -> forall key, ih_find h' key <> Some a).

Lemma hidden_unindexed l alloc vis h hts a :
  store_ok l alloc vis h hts -> (forall n, node_at l a = Some n -> visible n = false) -> unindexed a h hts.
Proof.
  intros [_ _ _ _ _ _ S7 S8] Hv. split.
  - intros Hn key Hk. destruct (S7 Hn key a Hk) as (n & E & Hvis & _). rewrite (Hv n E) in Hvis. done.
  - intros h' Hh key Hk. destruct (S8 h' Hh) as [_ HI]. destruct (HI key a Hk) as (n & E & Hvis & _).
    rewrite (Hv n E) in Hvis. done.
Qed.

(** Showing a hidden node. *)
Lemma show_store l alloc vis h hts a n :
  store_ok l alloc vis h hts -> node_at l a = Some n -> visible n = false ->
  store_ok (update_node a (fun n => n <| bad_hits := 0 |> <| visible := true |>) l) alloc (u32 (vis + 1)) h hts.
Proof.
  intros [S1 S2 S3 S4 S5 S6 S7 S8] E Hv. set (f := fun n => _).
  assert (forall n, addr (f n) = addr n) as Hf by done.
  assert (forall h field, indexes h field l -> indexes h field (update_node a f l)) as HI.
  { intros h0 field Hi key b Hb. destruct (Hi key b Hb) as (n' & E' & Hv' & Hk).
    rewrite update_at by done. destruct (decide (b = a)) as [->|]; [|by exists n'].
    rewrite E'. simpl. exists (f n'). by split_and!. }
  assert (count visible (update_node a f l) = vis + 1) as Hc.
  { rewrite (update_count a f visible l n S1 E), Hv, <- S5. simpl. lia. }
  constructor; rewrite ?update_length; try done.
  - by rewrite update_addrs.
  - apply Forall_forall. intros x Hx. apply list_elem_of_fmap in Hx as (x0 & -> & Hx0).
    rewrite Forall_forall in S2. specialize (S2 x0 Hx0). by case_decide.
  - rewrite Hc. pose proof (count_length visible (update_node a f l)) as HL. rewrite update_length in HL.
    pose proof (count_nonneg visible l). rewrite u32_small; lia.
  - auto.
  - intros h' Hh. destruct (S8 h' Hh). auto.
Qed.

Lemma fresh_addr l alloc vis h hts : store_ok l alloc vis h hts -> node_at l (length l) = None.
Proof.
  intros [S1 S2 _ _ _ _ _ _]. destruct (node_at l (length l)) as [n|] eqn:E; [|done].
  apply node_at_Some in E as [Hn Ha]. rewrite Forall_forall in S2. specialize (S2 n Hn). lia.
Qed.

(** A new hidden node at the head of the list. *)
Lemma alloc_store l alloc vis h hts (n := mk_node (length l) zero_packet 0 false 0 false) :
  store_ok l alloc vis h hts -> Z.of_nat (length l) + 1 < 2 ^ 32 ->
  store_ok (n :: l) (u32 (alloc + 1)) vis h hts.
Proof.
  intros HS Hlt. pose proof (fresh_addr _ _ _ _ _ HS) as Hfr. destruct HS as [S1 S2 S3 S4 S5 S6 S7 S8].
  assert (forall h field, indexes h field l -> indexes h field (n :: l)) as HI.
  { intros h0 field Hi key b Hb. destruct (Hi key b Hb) as (n' & E' & Hv' & Hk). exists n'. split; [|done].
    unfold node_at. rewrite filter_cons. destruct (decide (addr n = b)) as [Hab|]; [|done].
    simpl in Hab. subst b. congruence. }
  constructor; simpl; try done.
  - apply NoDup_cons. split; [|done]. intros Hin. apply list_elem_of_fmap in Hin as (n' & Ha & Hn').
    rewrite Forall_forall in S2. specialize (S2 n' Hn'). lia.
  - constructor; [simpl; lia|]. eapply Forall_impl; [exact S2|]. simpl. lia.
  - rewrite u32_small; lia.
  - lia.
  - auto.
  - intros h' Hh. destruct (S8 h' Hh). auto.
Qed.

Lemma new_node_spec jb jb' r :
  store jb -> Z.of_nat (length (node_list jb)) + 1 < 2 ^ 32 -> new_node jb = (jb', r) ->
  match r with
  | None => jb' = switch_jb_reset jb
  | Some a => exists l alloc,
      jb' = jb <| node_list := l |> <| allocated_nodes := alloc |> <| visible_nodes := u32 (visible_nodes jb + 1) |>
      /\ store jb' /\ (exists n, node_at l a = Some n /\ visible n = true)
      /\ unindexed a (node_hash jb) (node_hash_ts jb)
      /\ (length (node_list jb) <= length l <= S (length (node_list jb)))%nat
      /\ (allocated_nodes jb <= alloc)
      /\ (alloc <= Z.max (allocated_nodes jb) (u32 (max_frame_len jb *
            (if negb (bool_decide (type jb = SJB_VIDEO)) then 2
             else if max_packet_len jb >? 2 then max_packet_len jb else 2)) + 1))
      /\ (forall b n, b <> a -> node_at l b = Some n -> node_at (node_list jb) b = Some n)
  end.
Proof.
  intros HS Hlt. unfold new_node. destruct (head _) as [np|] eqn:Eh.
  - intros [= <- <-]. apply head_Some_elem_of, list_elem_of_filter in Eh as [Hv Hin].
    pose proof (node_at_elem _ _ (s_nodup _ _ _ _ _ HS) Hin) as Hat.
    exists (update_node (addr np) (fun n => n <| bad_hits := 0 |> <| visible := true |>) (node_list jb)), (allocated_nodes jb).
    split; [reflexivity|]. split_and!; simpl; rewrite ?update_length; try lia.
    + eapply show_store; done.
    + rewrite update_at by done. rewrite decide_True, Hat by done. eexists. by split.
    + eapply hidden_unindexed; [exact HS|]. intros n E. congruence.
    + intros b n Hb. rewrite update_at by done. by rewrite decide_False.
  - destruct (_ >? _) eqn:Ea; intros [= <- <-]; [done|].
    rewrite Z.gtb_ltb in Ea. apply Z.ltb_ge in Ea.
    pose proof (alloc_store _ _ _ _ _ HS Hlt) as HS1. set (n0 := mk_node _ _ _ _ _ _) in *.
    assert (node_at (n0 :: node_list jb) (length (node_list jb)) = Some n0) as Hat.
    { unfold node_at. rewrite filter_cons. by rewrite decide_True. }
    pose proof (s_alloc _ _ _ _ _ HS) as HA.
    assert (u32 (allocated_nodes jb + 1) = allocated_nodes jb + 1) as Hu by (apply u32_small; lia).
    exists (update_node (length (node_list jb)) (fun n => n <| bad_hits := 0 |> <| visible := true |>) (n0 :: node_list jb)),
      (u32 (allocated_nodes jb + 1)).
    split; [reflexivity|]. split_and!; simpl; rewrite ?update_length; simpl; try lia.
    + eapply show_store; done.
    + rewrite update_at by done. rewrite decide_True, Hat by done. eexists. by split.
    + eapply hidden_unindexed; [exact HS|]. intros n E. rewrite (fresh_addr _ _ _ _ _ HS) in E. done.
    + intros b n Hb. rewrite update_at by done. rewrite decide_False by done. unfold node_at. rewrite filter_cons.
      by rewrite decide_False.
Qed.

(** ** Storing a packet *)

Lemma link_node_spec jb a n p len0 (jb' := link_node jb a p len0) :
  store jb -> node_at (node_list jb) a = Some n -> visible n = true ->
  unindexed a (node_hash jb) (node_hash_ts jb) ->
  store jb' /\ same_settings jb jb'
  /\ exists l h hts, jb' = jb <| node_list := l |> <| node_hash := h |> <| node_hash_ts := hts |>
     /\ length l = length (node_list jb)
     /\ (exists n', node_at l a = Some n' /\ packet n' = p /\ len n' = u32 len0 /\ visible n' = true)
     /\ (forall b, b <> a -> node_at l b = node_at (node_list jb) b)
     /\ h = ih_insert (node_hash jb) (seq p) (Some a).
Proof.
  intros HS E Hv [U1 U2]. set (f := fun n => n <| packet := p |> <| len := u32 len0 |>).
  set (hts := option_map (fun h => ih_insert h (ts p) (Some a)) (node_hash_ts jb)).
  assert (jb' = jb <| node_list := update_node a f (node_list jb) |>
     <| node_hash := ih_insert (node_hash jb) (seq p) (Some a) |> <| node_hash_ts := hts |>) as Ej.
  { unfold jb', link_node, hts. cbv zeta. change (node_hash_ts _) with (node_hash_ts jb) at 1.
    destruct (node_hash_ts jb) eqn:Eh; [reflexivity|]. simpl. rewrite <- Eh. by destruct jb. }
  rewrite Ej. clear Ej jb'. destruct HS as [S1 S2 S3 S4 S5 S6 S7 S8].
  assert (forall h field, ih_ok h -> (forall key, ih_find h key <> Some a) -> indexes h field (node_list jb) ->
    indexes (ih_insert h (field p) (Some a)) field (update_node a f (node_list jb))) as HI.
  { intros h field Hok Hu Hi key b Hb. rewrite ih_find_insert in Hb by done. rewrite update_at by done.
    destruct (Z.eqb_spec (u32 (field p)) (u32 key)) as [Ek|Ek].
    - injection Hb as <-. rewrite decide_True, E by done. exists (f n). by split_and!.
    - destruct (decide (b = a)) as [->|Hne]; [by destruct (Hu key)|]. by apply Hi. }
  split_and!.
  - constructor; simpl; rewrite ?update_length; try done.
    + by rewrite update_addrs.
    + apply Forall_forall. intros x Hx. apply list_elem_of_fmap in Hx as (x0 & -> & Hx0).
      rewrite Forall_forall in S2. specialize (S2 x0 Hx0). by case_decide.
    + rewrite (update_count a f visible _ n S1 E). simpl. lia.
    + by apply ih_insert_ok.
    + intros Hn. assert (node_hash_ts jb = None) by (unfold hts in Hn; by destruct (node_hash_ts jb)). apply HI; auto.
    + intros h' Hh. unfold hts in Hh. destruct (node_hash_ts jb) as [h0|] eqn:Eh; [|done]. injection Hh as <-.
      destruct (S8 h0 eq_refl). split; [by apply ih_insert_ok|]. apply HI; eauto.
  - constructor; try done. simpl. unfold hts. by destruct (node_hash_ts jb).
  - eexists _, _, _. split; [reflexivity|]. split_and!; [apply update_length| |intros b Hb; rewrite update_at by done; by rewrite decide_False|done].
    rewrite update_at by done. rewrite decide_True, E by done. by exists (f n).
Qed.

(** Changes of fields outside the store and the settings. *)
Lemma detect_change_spec jb p (jb' := detect_change jb p) :
  store jb -> store jb' /\ same_settings jb jb' /\ length (node_list jb') = length (node_list jb)
  /\ frame_len jb' = frame_len jb
  /\ (missing_seq_hash jb' = missing_seq_hash jb \/ type jb = SJB_VIDEO /\ missing_seq_hash jb' = Some ih_init)
  /\ (type jb <> SJB_VIDEO -> jb' = jb).
Proof.
  intros HS. unfold jb', detect_change. destruct (bool_decide (type jb = SJB_VIDEO)) eqn:Et.
  - apply bool_decide_eq_true in Et. destruct (write_init jb && true && _); [|by split_and!; auto].
    destruct (reset_spec jb HS) as (H1 & H2 & H3 & H4 & H5 & H6 & _ & _ & _ & H7).
    rewrite bool_decide_true in H7 by done. split_and!; auto; done.
  - rewrite andb_false_r. simpl. split_and!; auto; done.
Qed.

Lemma mark_store l alloc vis h hts a b :
  store_ok l alloc vis h hts ->
  store_ok (update_node a (fun n => n <| complete_frame_mark := b |>) l) alloc vis h hts.
Proof.
  intros [S1 S2 S3 S4 S5 S6 S7 S8]. set (f := fun n => _).
  assert (forall n, addr (f n) = addr n) as Hf by done.
  assert (forall h field, indexes h field l -> indexes h field (update_node a f l)) as HI.
  { intros h0 field Hi key c Hc. destruct (Hi key c Hc) as (n' & E' & Hv' & Hk).
    rewrite update_at by done. destruct (decide (c = a)) as [->|]; [|by exists n'].
    rewrite E'. simpl. exists (f n'). by split_and!. }
  constructor; rewrite ?update_length; try done.
  - by rewrite update_addrs.
  - apply Forall_forall. intros x Hx. apply list_elem_of_fmap in Hx as (x0 & -> & Hx0).
    rewrite Forall_forall in S2. specialize (S2 x0 Hx0). by case_decide.
  - rewrite S5. destruct (node_at l a) as [n|] eqn:E; [rewrite (update_count a f visible l n S1 E); simpl; lia|].
    replace (update_node a f l) with l; [done|]. unfold update_node. rewrite <- (map_id l) at 1.
    apply map_ext_in. intros x Hx. destruct (decide (addr x = a)) as [Ha|]; [|done].
    exfalso. apply list_elem_of_In in Hx. rewrite <- Ha, node_at_elem in E by done. done.
  - auto.
  - intros h' Hh. destruct (S8 h' Hh). auto.
Qed.

Lemma count_frame_spec jb a p (jb' := count_frame jb a p) :
  store jb -> store jb' /\ same_settings jb jb' /\ length (node_list jb') = length (node_list jb)
  /\ frame_len jb' = frame_len jb /\ missing_seq_hash jb' = missing_seq_hash jb
  /\ (type jb <> SJB_VIDEO -> exists c, jb' = jb <| complete_frames := c |> /\ c = u32 (complete_frames jb + 1)).
Proof.
  intros HS. unfold jb', count_frame. destruct (bool_decide (type jb = SJB_VIDEO)) eqn:Et.
  - apply bool_decide_eq_true in Et. cbv zeta. destruct (write_init _ && _ && _).
    + destruct (_ >? _); (split_and!; [by apply mark_store|by constructor|exact (update_length _ _ _)|done|done|done]).
    + destruct (negb _); split_and!; by (done || constructor).
  - apply bool_decide_eq_false in Et.
    assert (write_init jb || bool_decide (type jb = SJB_TEXT) || bool_decide (type jb = SJB_AUDIO) = true) as ->.
    { destruct (type jb); try done; simpl; by rewrite ?orb_true_r. }
    split_and!; try done; try by constructor. intros _. by eexists.
Qed.

End store.

End JbStore.
