(* ===== verification/JitterBufferSpec.v ===== *)
(** * Correctness of the jitter buffer

    The invariant of the jitter buffer of JitterBuffer.v, its preservation by
    every operation, and the theorems about putting and getting packets,
    termination of the loops, the frame length and the NACK list.  They hold
    for every implementation of the integer hash interface; the witnesses use
    the hash table itself. *)

From S2P Require Import Prelude.
From S2P Require Import Hashtable CoreHash JbSort JitterBuffer JbStore.

Module JitterBufferSpec.
Import CoreHash JbSort JitterBuffer JbStore.

(** An update of fields outside the invariant. *)
Ltac plain_update := constructor; [intros H; exact H|constructor; reflexivity || tauto|intros H; exact H|reflexivity|split; reflexivity|reflexivity].

Section spec.
Context {T : Type -> Type} `{!IntHash T, !IntHashLaws T}.
Implicit Types jb : switch_jb_s (T := T).

(** ** Storing a packet *)

Lemma note_wrote_seq_eq jb p : exists s, note_wrote_seq jb p = jb <| highest_wrote_seq := s |>.
Proof.
  unfold note_wrote_seq. destruct (_ || _ || _); [by eexists|]. exists (highest_wrote_seq jb). by destruct jb.
Qed.

Lemma write_init_eq jb :
  (if negb (write_init jb) then jb <| write_init := true |> else jb) = jb <| write_init := true |>.
Proof. destruct (write_init jb) eqn:E; cbn [negb]; [|done]. destruct jb. cbn in E. by subst. Qed.

(** What add_node does, in terms of the result. *)
Lemma add_node_spec jb p len0 (jb' := add_node jb p len0) :
  store jb -> Z.of_nat (length (node_list jb)) + 1 < 2 ^ 32 ->
  store jb' /\ same_settings jb jb' /\ frame_len jb' = frame_len jb
  /\ (length (node_list jb') <= S (length (node_list jb)))%nat
  /\ (missing_seq_hash jb' = missing_seq_hash jb \/ type jb = SJB_VIDEO /\ missing_seq_hash jb' = Some ih_init)
  /\ (type jb <> SJB_VIDEO -> complete_frames jb = visible_nodes jb -> complete_frames jb' = visible_nodes jb').
Proof.
  intros HS Hlt. unfold jb', add_node. clear jb'. destruct (new_node jb) as [j r] eqn:En.
  pose proof (new_node_spec jb j r HS Hlt En) as HN. destruct r as [a|].
  2: { subst j. destruct (reset_spec jb HS) as (H1 & H2 & H3 & H4 & H5 & H6 & _ & _ & _ & H7).
       split_and!; try done; try lia. rewrite H7. case_bool_decide; auto. }
  destruct HN as (l & alloc & Ej & S1 & (n & Hn & Hv) & HU & Hl & _ & _ & _).
  assert (same_settings jb j) as C1 by (rewrite Ej; by constructor).
  assert (node_list j = l /\ frame_len j = frame_len jb /\ missing_seq_hash j = missing_seq_hash jb
    /\ complete_frames j = complete_frames jb /\ visible_nodes j = u32 (visible_nodes jb + 1)
    /\ node_hash j = node_hash jb /\ node_hash_ts j = node_hash_ts jb)
    as (E1 & E2 & E3 & E4 & E5 & E6 & E7) by (by rewrite Ej).
  clear Ej. rewrite <- E6, <- E7 in HU. rewrite <- E1 in Hn, Hl.
  destruct (link_node_spec j a n p len0 S1 Hn Hv HU) as (S2 & C2 & l2 & h2 & hts2 & Ej2 & L2 & _).
  set (j2 := link_node j a p len0) in *.
  assert (node_list j2 = l2 /\ frame_len j2 = frame_len j /\ missing_seq_hash j2 = missing_seq_hash j
    /\ complete_frames j2 = complete_frames j /\ visible_nodes j2 = visible_nodes j) as (F1 & F2 & F3 & F4 & F5)
    by (by rewrite Ej2).
  clearbody j2. clear Ej2.
  destruct (detect_change_spec j2 p S2) as (S3 & C3 & L3 & K3 & M3 & N3). set (j3 := detect_change j2 p) in *.
  destruct (note_wrote_seq_eq j3 p) as [s Es]. rewrite Es.
  set (j4 := j3 <| highest_wrote_seq := s |>).
  assert (store j4) as S4 by exact S3. assert (same_settings j3 j4) as C4 by (by constructor).
  destruct (count_frame_spec j4 a p S4) as (S5 & C5 & L5 & K5 & M5 & N5). set (j5 := count_frame j4 a p) in *.
  rewrite write_init_eq. set (j6 := j5 <| write_init := true |>).
  assert (same_settings jb j6) as C6.
  { etransitivity; [exact C1|]. etransitivity; [exact C2|]. etransitivity; [exact C3|].
    etransitivity; [exact C4|]. etransitivity; [exact C5|]. by constructor. }
  assert (type j2 = type jb) as Ht by (destruct C1, C2; congruence).
  assert (node_list j4 = node_list j3 /\ frame_len j4 = frame_len j3 /\ missing_seq_hash j4 = missing_seq_hash j3) as (G1 & G2 & G3) by done.
  change (frame_len j6) with (frame_len j5). change (node_list j6) with (node_list j5).
  change (missing_seq_hash j6) with (missing_seq_hash j5). change (store j6) with (store j5).
  change (complete_frames j6) with (complete_frames j5). change (visible_nodes j6) with (visible_nodes j5).
  split_and!; try done; try congruence.
  - rewrite L5, G1, L3, F1, L2. lia.
  - intros Hnv Hc. rewrite Ht in N3. specialize (N3 Hnv).
    assert (type j4 = type jb) as Ht4 by (destruct C4, C3; congruence).
    destruct (N5 ltac:(congruence)) as (c & E & Ec). rewrite E. simpl. rewrite Ec.
    change (complete_frames j4) with (complete_frames j3). change (visible_nodes j4) with (visible_nodes j3).
    rewrite N3. congruence.
Qed.

Lemma count_frame_plain jb a p :
  type jb <> SJB_VIDEO -> count_frame jb a p = jb <| complete_frames := u32 (complete_frames jb + 1) |>.
Proof.
  intros Ht. unfold count_frame. rewrite bool_decide_false by done.
  assert (write_init jb || bool_decide (type jb = SJB_TEXT) || bool_decide (type jb = SJB_AUDIO) = true) as ->; [|done].
  destruct (type jb); try done; cbn; by rewrite ?orb_true_r.
Qed.

(** For audio and text: the stored packet is found by its number, the others
    are found as before. *)
Lemma add_node_finds jb p len0 (jb' := add_node jb p len0) :
  store jb -> Z.of_nat (length (node_list jb)) + 1 < 2 ^ 32 -> type jb <> SJB_VIDEO -> node_hash_ts jb = None ->
  (jb' = switch_jb_reset jb /\ (new_node jb).2 = None)
  \/ ((exists n, find_seq jb' (seq p) = Some n /\ packet n = p /\ len n = u32 len0)
      /\ forall s, u32 s <> u32 (seq p) -> find_seq jb' s = find_seq jb s).
Proof.
  intros HS Hlt Ht Hts. unfold jb', add_node. clear jb'. destruct (new_node jb) as [j r] eqn:En.
  pose proof (new_node_spec jb j r HS Hlt En) as HN. destruct r as [a|]; [|by left]. right. cbv zeta.
  destruct HN as (l & alloc & Ej & S1 & (n & Hn & Hv) & HU & Hl & _ & _ & Hoth).
  assert (node_list j = l /\ node_hash j = node_hash jb /\ node_hash_ts j = node_hash_ts jb /\ type j = type jb)
    as (E1 & E6 & E7 & E8) by (by rewrite Ej).
  clear Ej. pose proof HU as [HU0 _]. specialize (HU0 Hts). rewrite <- E6, <- E7 in HU. rewrite <- E1 in Hn.
  destruct (link_node_spec j a n p len0 S1 Hn Hv HU) as (S2 & C2 & l2 & h2 & hts2 & Ej2 & L2 & (n' & Hn' & Hp & Hlen & _) & Hb & Hh).
  set (j2 := link_node j a p len0) in *.
  assert (node_list j2 = l2 /\ node_hash j2 = h2 /\ type j2 = type j) as (F1 & F2 & F3) by (by rewrite Ej2).
  clearbody j2. clear Ej2.
  destruct (detect_change_spec j2 p S2) as (_ & _ & _ & _ & _ & N3). rewrite N3 by congruence.
  destruct (note_wrote_seq_eq j2 p) as [s ->].
  rewrite count_frame_plain by (change (type j2 <> SJB_VIDEO); congruence). rewrite write_init_eq. unfold find_seq.
  change (node_hash _) with (node_hash j2) at 1 2. change (node_list _) with (node_list j2) at 1 2.
  rewrite F1, F2, Hh, E6. pose proof (s_hash _ _ _ _ _ HS) as Hok. split.
  - rewrite ih_find_insert, Z.eqb_refl by done. by exists n'.
  - intros k Hk. rewrite ih_find_insert by done. destruct (Z.eqb_spec (u32 (seq p)) (u32 k)); [congruence|].
    destruct (ih_find (node_hash jb) k) as [b|] eqn:Eb; [|done].
    destruct (decide (b = a)) as [->|Hne]; [by destruct (HU0 k)|]. rewrite Hb, E1 by done.
    destruct (s_seq _ _ _ _ _ HS Hts k b Eb) as (nb & Enb & _). rewrite Enb.
    destruct (node_at l b) as [n2|] eqn:El.
    + apply Hoth in El; [congruence|done].
    + exfalso. destruct (s_seq _ _ _ _ _ S1 ltac:(congruence) k b ltac:(congruence)) as (n3 & En3 & _). congruence.
Qed.

(** ** The invariant *)

Definition frames_ok jb : Prop :=
  1 <= min_frame_len jb <= frame_len jb /\ frame_len jb <= max_frame_len jb < 2 ^ 32 - 1.

(** In buffers of audio and text that are not mere queues, complete_frames
    counts the stored packets. *)
Definition counted jb : Prop :=
  type jb <> SJB_VIDEO -> test_flag (flags jb) SJB_QUEUE_ONLY = false -> complete_frames jb = visible_nodes jb.

(** The missing numbers are kept in 16-bit keys, with values that are not NULL. *)
Definition missing_ok (h : T Z) : Prop :=
  ih_ok h /\ forall key val, (key, val) ∈ ih_list h -> 0 <= key < 2 ^ 16 /\ val <> None.

Lemma missing_init : missing_ok ih_init.
Proof. split; [apply ih_init_ok|]. rewrite ih_list_init. intros key val Hin. by apply not_elem_of_nil in Hin. Qed.

Lemma missing_insert h key val :
  missing_ok h -> 0 <= key < 2 ^ 16 -> val <> None -> missing_ok (ih_insert h key val).
Proof.
  intros [H1 H2] Hk Hv. split; [by apply ih_insert_ok|]. intros key' val' Hin.
  apply ih_list_insert in Hin as [Hin|[-> ->]]; [by eapply H2| |done]. rewrite u32_small; [done|lia].
Qed.

Lemma missing_delete h key : missing_ok h -> missing_ok (ih_delete h key).2.
Proof.
  intros [H1 H2]. split; [by apply ih_delete_ok|]. intros key' val' Hin. apply ih_list_remains in Hin; [by eapply H2|done].
Qed.

Record inv jb : Prop := {
  v_store : store jb;
  v_frames : frames_ok jb;
  v_video : type jb = SJB_VIDEO -> missing_seq_hash jb <> None;
  v_missing : forall h, missing_seq_hash jb = Some h -> missing_ok h;
  v_ts : samples_per_frame jb = 0 <-> node_hash_ts jb = None;
  v_count : counted jb;
}.

(** Changes that keep all of the invariant. *)
Record keeps jb jb' : Prop := {
  k_store : store jb -> store jb';
  k_settings : same_settings jb jb';
  k_frames : frames_ok jb -> frames_ok jb';
  k_missing : missing_seq_hash jb' = missing_seq_hash jb;
  k_count : type jb <> SJB_VIDEO ->
    complete_frames jb' = complete_frames jb /\ visible_nodes jb' = visible_nodes jb;
  k_length : length (node_list jb') = length (node_list jb);
}.

#[export] Instance keeps_refl : Reflexive keeps.
Proof. by constructor. Qed.

#[export] Instance keeps_trans : Transitive keeps.
Proof.
  intros j1 j2 j3 [A1 A2 A3 A4 A5 A6] [B1 B2 B3 B4 B5 B6].
  constructor; [auto|by etransitivity|auto|congruence| |congruence].
  intros Ht. destruct A2. rewrite <- ss_type0 in Ht. destruct (B5 Ht). rewrite ss_type0 in Ht.
  destruct (A5 Ht). split; congruence.
Qed.

Lemma keeps_inv jb jb' : keeps jb jb' -> inv jb -> inv jb'.
Proof.
  intros [K1 [S1 S2 S3 S4 S5 S6 S7] K3 K4 K5 _] [V1 V2 VV V3 V4 V5].
  constructor; [auto|auto| | | |].
  - by rewrite S1, K4.
  - rewrite K4. exact V3.
  - by rewrite S5, S6.
  - unfold counted. rewrite S1, S2. intros Ht Hq. destruct (K5 Ht). rewrite H, H0. by apply V5.
Qed.

Lemma refresh_keeps jb : keeps jb (request_video_refresh jb).
Proof. unfold request_video_refresh. destruct (session jb); [plain_update|reflexivity]. Qed.

Lemma hit_keeps jb : keeps jb (jb_hit jb).
Proof. plain_update. Qed.
Lemma miss_keeps jb : keeps jb (jb_miss jb).
Proof. plain_update. Qed.
Lemma increment_seq_keeps jb : keeps jb (increment_seq jb).
Proof. plain_update. Qed.
Lemma set_read_seq_keeps jb s : keeps jb (set_read_seq jb s).
Proof. plain_update. Qed.

Lemma frame_inc_eq jb i :
  i = 1 \/ i = -1 ->
  exists f hf, jb_frame_inc_line jb i = jb <| frame_len := f |> <| highest_frame_len := hf |>
    /\ (frames_ok jb -> min_frame_len jb <= f <= max_frame_len jb)
    /\ (frames_ok jb -> f = Z.max (min_frame_len jb) (Z.min (max_frame_len jb) (frame_len jb + i))).
Proof.
  intros Hi. unfold jb_frame_inc_line. rewrite !Z.gtb_ltb.
  set (f := if i =? 0 then min_frame_len jb else
            if 0 <? i then if u32 (frame_len jb + i) <? max_frame_len jb then u32 (frame_len jb + i) else max_frame_len jb
            else if min_frame_len jb <? u32 (frame_len jb + i) then u32 (frame_len jb + i) else min_frame_len jb).
  exists f, (if highest_frame_len jb <? f then f else highest_frame_len jb). split.
  - subst f. destruct (i =? 0); [|destruct (0 <? i); [destruct (u32 _ <? _)|destruct (_ <? u32 _)]]; cbn;
      destruct (highest_frame_len jb <? _); first [reflexivity|by destruct jb].
  - assert (frames_ok jb -> f = Z.max (min_frame_len jb) (Z.min (max_frame_len jb) (frame_len jb + i))) as Hf.
    { intros [Hm Hx]. unfold f. destruct Hi as [-> | ->]; cbn [Z.eqb Z.ltb Z.compare]; rewrite u32_small by lia.
      - destruct (Z.ltb_spec (frame_len jb + 1) (max_frame_len jb)); lia.
      - destruct (Z.ltb_spec (min_frame_len jb) (frame_len jb + -1)); lia. }
    split; [|exact Hf]. intros Hk. rewrite (Hf Hk). destruct Hk. lia.
Qed.

Lemma frame_inc_keeps jb i : i = 1 \/ i = -1 -> keeps jb (jb_frame_inc_line jb i).
Proof.
  intros Hi. destruct (frame_inc_eq jb i Hi) as (f & hf & -> & Hf & _).
  constructor; [intros H; exact H|by constructor| |reflexivity|split; reflexivity|reflexivity].
  intros Hk. specialize (Hf Hk). destruct Hk. unfold frames_ok. cbn. lia.
Qed.

Lemma touches_keeps jb jb' : (store jb -> store jb') -> touches_store jb jb' ->
  (type jb <> SJB_VIDEO -> visible_nodes jb' = visible_nodes jb) -> keeps jb jb'.
Proof.
  intros HS HT Hv. pose proof (touches_settings _ _ HT) as C. constructor; try done.
  - destruct HT as (l & v & h & hts & c & -> & _). intros H; exact H.
  - by destruct HT as (l & v & h & hts & c & -> & _).
  - intros Ht. split; [|auto]. destruct HT as (l & v & h & hts & c & -> & Hc & _). cbn. auto.
  - destruct HT as (l & v & h & hts & c & -> & _ & HP & _). apply Permutation_length in HP.
    by rewrite !length_map in HP.
Qed.

(** ** Looking for the next packet *)

Lemma find_seq_visible jb s n :
  store jb -> find_seq jb s = Some n ->
  n ∈ node_list jb /\ (node_hash_ts jb = None -> visible n = true /\ u32 s = u32 (seq (packet n))).
Proof.
  intros HS. unfold find_seq. destruct (ih_find (node_hash jb) s) as [a|] eqn:E; [|done]. intros Hn.
  split; [by apply node_at_Some in Hn as [? _]|]. intros Hts.
  destruct (s_seq _ _ _ _ _ HS Hts s a E) as (n' & Hn' & Hv & Hk). rewrite Hn in Hn'. by injection Hn' as <-.
Qed.

Lemma find_ts_visible jb t n :
  store jb -> find_ts jb t = Some n -> n ∈ node_list jb /\ visible n = true.
Proof.
  intros HS. unfold find_ts. destruct (node_hash_ts jb) as [h|] eqn:Eh; [|done].
  destruct (ih_find h t) as [a|] eqn:E; [|done]. intros Hn.
  destruct (s_hash_ts _ _ _ _ _ HS h Eh) as [_ HI]. destruct (HI t a E) as (n' & Hn' & Hv & _).
  rewrite Hn in Hn'. injection Hn' as <-. by apply node_at_Some in Hn as [? _].
Qed.

Lemma drop_ts_keeps jb t : store jb -> type jb = SJB_VIDEO -> keeps jb (drop_ts jb t).
Proof.
  intros HS Ht. destruct (drop_ts_spec jb t HS) as (H1 & H2 & _). apply touches_keeps; try done.
Qed.

Lemma probe_seqs_spec n jb jb' r :
  store jb -> type jb = SJB_VIDEO -> dropped jb = 0 -> probe_seqs n jb = (jb', r) ->
  keeps jb jb' /\ match r with
    | ProbeFound node => node ∈ node_list jb' /\ (node_hash_ts jb = None -> visible node = true)
    | ProbeAgain => dropped jb' <> 0
    | ProbeNone => True
    end.
Proof.
  revert jb. induction n as [|n IH]; intros jb HS Ht Hd; cbn [probe_seqs]; [by intros [= <- <-]|]. cbv zeta.
  set (j1 := increment_seq jb). assert (keeps jb j1) as K1 by apply increment_seq_keeps.
  assert (store j1) as S1 by exact HS. assert (type j1 = SJB_VIDEO) as T1 by exact Ht.
  assert (dropped j1 = 0) as D1 by exact Hd. assert (node_hash_ts j1 = node_hash_ts jb) as E1 by reflexivity.
  clearbody j1.
  destruct (ih_find (node_hash j1) (target_seq j1)) as [a|] eqn:E.
  2: { intros H. destruct (IH j1 S1 T1 D1 H) as [K2 HR]. split; [by etransitivity|]. by rewrite <- E1. }
  destruct (node_at (node_list j1) a) as [node|] eqn:En.
  2: { intros H. destruct (IH j1 S1 T1 D1 H) as [K2 HR]. split; [by etransitivity|]. by rewrite <- E1. }
  destruct (_ || _).
  - intros Hp. apply pair_equal_spec in Hp as [<- <-]. set (j2 := j1 <| dropped := u32 (dropped j1 + 1) |>).
    assert (keeps j1 j2) as K2 by plain_update. assert (store j2) as S2 by exact S1.
    assert (type j2 = SJB_VIDEO) as T2 by exact T1. assert (dropped j2 = 1) as D2 by (unfold j2; cbn; by rewrite D1).
    clearbody j2. pose proof (drop_ts_keeps j2 (ts (packet node)) S2 T2) as K3.
    assert (dropped (drop_ts j2 (ts (packet node))) = 1) as D3.
    { destruct (drop_ts_spec j2 (ts (packet node)) S2) as (_ & (l & v & h & hts & c & -> & _) & _). exact D2. }
    set (j3 := drop_ts j2 (ts (packet node))) in *. clearbody j3.
    set (j4 := j3 <| highest_dropped_ts := _ |>). assert (keeps j3 j4) as K4 by plain_update.
    assert (dropped j4 = 1) as D4 by exact D3. clearbody j4.
    match goal with |- context [if ?b then _ else _] => destruct b end.
    + set (j5 := j4 <| period_miss_inc := _ |>). assert (keeps j4 j5) as K5 by plain_update.
      assert (dropped j5 = 1) as D5 by exact D4. clearbody j5.
      pose proof (frame_inc_keeps j5 1 (or_introl eq_refl)) as K6.
      split; [do 5 (etransitivity; [eassumption|]); exact K6|].
      destruct (frame_inc_eq j5 1 (or_introl eq_refl)) as (f & hf & -> & _). cbn. lia.
    + split; [do 3 (etransitivity; [eassumption|]); done|]. lia.
  - intros [= <- <-]. split; [done|]. split; [by apply node_at_Some in En as [? _]|]. intros Hts.
    destruct (s_seq _ _ _ _ _ S1 ltac:(congruence) _ a E) as (n' & Hn' & Hv & _). congruence.
Qed.

(** The result of a search: the node is stored, and visible in sequence mode. *)
Definition found_ok jb (r : switch_jb_s (T := T) * option switch_jb_node_t * switch_status_t) : Prop :=
  let '(jb', node, status) := r in
  keeps jb jb'
  /\ match node with
     | Some n => status = SWITCH_STATUS_SUCCESS /\ n ∈ node_list jb' /\ (node_hash_ts jb = None -> visible n = true)
     | None => status = SWITCH_STATUS_NOTFOUND
     end.

Lemma found_by_seq_ok jb jb1 node :
  keeps jb jb1 ->
  (forall n, node = Some n -> n ∈ node_list jb1 /\ (node_hash_ts jb = None -> visible n = true)) ->
  found_ok jb (found_by_seq jb1 node).
Proof.
  intros K Hn. unfold found_by_seq. destruct node as [n|]; [|by split].
  destruct (Hn n eq_refl). split; [etransitivity; [exact K|apply set_read_seq_keeps]|]. by split_and!.
Qed.

(** One pass through [top]: it ends, or it goes back with a dropped frame. *)
Lemma next_by_seq_pass fuel jb :
  store jb ->
  (exists r, jb_next_packet_by_seq (S fuel) jb = Some r /\ found_ok jb r)
  \/ (type jb = SJB_VIDEO /\ target_seq jb <> 0 /\ dropped jb = 0
      /\ exists jb', keeps jb jb' /\ dropped jb' <> 0
         /\ jb_next_packet_by_seq (S fuel) jb = jb_next_packet_by_seq fuel jb').
Proof.
  intros HS. cbn [jb_next_packet_by_seq]. cbv zeta.
  set (j0 := if bool_decide (type jb = SJB_VIDEO) && negb (dropped jb =? 0) then _ else jb).
  assert (keeps jb j0 /\ node_hash_ts j0 = node_hash_ts jb
    /\ (type jb = SJB_VIDEO -> dropped j0 = 0) /\ (target_seq j0 <> 0 -> target_seq jb <> 0 /\ (type jb = SJB_VIDEO -> dropped jb = 0)))
    as (K0 & E0 & D0 & T0).
  { unfold j0. destruct (bool_decide (type jb = SJB_VIDEO)) eqn:Et; cbn [andb].
    - destruct (Z.eqb_spec (dropped jb) 0) as [Hd|Hd]; cbn [negb]; [by split_and!|].
      split_and!; [etransitivity; [|apply refresh_keeps]; plain_update| | |];
        unfold request_video_refresh; destruct (session _); done.
    - apply bool_decide_eq_false in Et. by split_and!. }
  pose proof (k_store _ _ K0 HS) as S0. clearbody j0.
  destruct (Z.eqb_spec (target_seq j0) 0) as [Hz|Hz].
  - left. eexists. split; [reflexivity|]. apply found_by_seq_ok; [etransitivity; [exact K0|apply hit_keeps]|].
    intros n Hn. change (node_list (jb_hit j0)) with (node_list j0).
    destruct (find_seq j0 (target_seq j0)) as [n'|] eqn:Ef.
    + injection Hn as <-. destruct (find_seq_visible j0 _ n' S0 Ef) as [H1 H2]. split; [done|].
      intros Hts. apply H2. congruence.
    + pose proof (find_lowest_seq_spec j0 0) as HL. rewrite Hn in HL. destruct HL. by split.
  - destruct (find_seq j0 (target_seq j0)) as [n|] eqn:Ef.
    + left. eexists. split; [reflexivity|]. apply found_by_seq_ok; [etransitivity; [exact K0|apply hit_keeps]|].
      intros n' [= <-]. change (node_list (jb_hit j0)) with (node_list j0).
      destruct (find_seq_visible j0 _ n S0 Ef) as [H1 H2]. split; [done|]. intros Hts. apply H2. congruence.
    + change (type (jb_miss j0)) with (type j0). pose proof (ss_type _ _ (k_settings _ _ K0)) as Ety.
      destruct (bool_decide (type j0 = SJB_VIDEO)) eqn:Et.
      2: { left. eexists. split; [reflexivity|]. apply found_by_seq_ok; [|done].
           etransitivity; [exact K0|]. etransitivity; [apply miss_keeps|apply increment_seq_keeps]. }
      apply bool_decide_eq_true in Et. set (j1 := request_video_refresh (jb_miss j0)).
      assert (keeps j0 j1) as K1 by (etransitivity; [apply miss_keeps|apply refresh_keeps]).
      assert (store j1 /\ type j1 = SJB_VIDEO /\ dropped j1 = 0 /\ node_hash_ts j1 = node_hash_ts jb) as (S1 & T1 & D1 & E1).
      { split_and!; [by apply K1| | |]; unfold j1, request_video_refresh; destruct (session _); cbn; try done;
          try (apply D0; congruence). }
      clearbody j1. destruct (probe_seqs 10 j1) as [j2 r] eqn:Ep.
      destruct (probe_seqs_spec 10 j1 j2 r S1 T1 D1 Ep) as [K2 HR].
      assert (keeps jb j2) as K by (do 2 (etransitivity; [eassumption|]); done).
      destruct (T0 Hz) as [Hz' Hd']. destruct r as [|node|].
      * left. eexists. split; [reflexivity|]. by apply found_by_seq_ok.
      * left. eexists. split; [reflexivity|]. apply found_by_seq_ok; [done|]. intros n [= <-]. rewrite <- E1. done.
      * right. split_and!; try done; try congruence; [apply Hd'; congruence|]. exists j2. by split_and!.
Qed.

(** Two passes are enough. *)
Lemma next_by_seq_ok jb :
  store jb -> exists r, jb_next_packet_by_seq 2 jb = Some r /\ found_ok jb r.
Proof.
  intros HS. destruct (next_by_seq_pass 1 jb HS) as [?|(_ & _ & _ & jb' & K & Hd & ->)]; [done|].
  destruct (next_by_seq_pass 0 jb' (k_store _ _ K HS)) as [(r & E & Hr)|(_ & _ & Hd0 & _)]; [|done].
  exists r. split; [done|]. unfold found_ok in *. destruct r as [[j n] st]. destruct Hr as [K' Hn].
  split; [by etransitivity|]. destruct n; [|done]. destruct Hn as (H1 & H2 & H3). split_and!; try done.
  intros Hts. apply H3. by apply (ss_ts _ _ (k_settings _ _ K)).
Qed.

(** Timestamp mode: the node found gets a sequence number of its own. *)
Lemma renumber_store l alloc vis h hts a s :
  store_ok l alloc vis h hts -> hts <> None ->
  store_ok (update_node a (fun n => n <| packet := (packet n) <| seq := s |> |>) l) alloc vis h hts.
Proof.
  intros [S1 S2 S3 S4 S5 S6 S7 S8] Hne. set (f := fun n => _).
  assert (forall n, addr (f n) = addr n) as Hf by done.
  constructor; rewrite ?update_length; try done.
  - by rewrite update_addrs.
  - apply Forall_forall. intros x Hx. apply list_elem_of_fmap in Hx as (x0 & -> & Hx0).
    rewrite Forall_forall in S2. specialize (S2 x0 Hx0). by case_decide.
  - rewrite S5. symmetry. apply count_map. intros x. by case_decide.
  - intros h' Hh. destruct (S8 h' Hh) as [Hok Hi]. split; [done|]. intros key c Hc.
    destruct (Hi key c Hc) as (n' & E' & Hv' & Hk). rewrite update_at by done.
    destruct (decide (c = a)) as [->|]; [|by exists n']. rewrite E'. exists (f n'). by split_and!.
Qed.

Lemma next_by_ts_ok jb :
  store jb -> node_hash_ts jb <> None ->
  let '(jb', node, status) := jb_next_packet_by_ts jb in
  keeps jb jb'
  /\ match node with
     | Some n => status = SWITCH_STATUS_SUCCESS /\ n ∈ node_list jb' /\ visible n = true
     | None => status = SWITCH_STATUS_NOTFOUND
     end.
Proof.
  intros HS Hts. unfold jb_next_packet_by_ts.
  set (r := if target_ts jb =? 0 then _ else _).
  assert (keeps jb r.1 /\ node_list r.1 = node_list jb /\ node_hash_ts r.1 = node_hash_ts jb
    /\ forall n, r.2 = Some n -> n ∈ node_list jb /\ visible n = true) as (K & El & Et & Hn).
  { unfold r. destruct (target_ts jb =? 0).
    - split_and!; [apply hit_keeps|done|done|]. intros n Hn. pose proof (find_lowest_node_spec jb) as HL.
      cbn [snd] in Hn. by rewrite Hn in HL.
    - destruct (find_ts jb (target_ts jb)) as [n|] eqn:Ef.
      + split_and!; [apply hit_keeps|done|done|]. intros n' [= <-]. by eapply find_ts_visible.
      + cbn [fst snd]. unfold increment_ts. destruct (_ =? 0); split_and!; try done; plain_update. }
  destruct r as [j node]. cbn [fst snd] in *. destruct node as [n|]; [|by split].
  destruct (Hn n eq_refl) as [Hin Hv].
  assert (keeps j (set_read_ts j (ts (packet n)))) as K2 by (unfold set_read_ts; destruct (_ =? 0); [reflexivity|plain_update]).
  assert (node_list (set_read_ts j (ts (packet n))) = node_list jb /\ node_hash_ts (set_read_ts j (ts (packet n))) = node_hash_ts jb)
    as [El2 Et2] by (unfold set_read_ts; destruct (_ =? 0); done).
  set (j2 := set_read_ts j (ts (packet n))) in *. clearbody j2. cbv zeta.
  assert (store j2) as S2 by (apply K2, K, HS).
  split.
  - etransitivity; [exact K|]. etransitivity; [exact K2|]. constructor; try done.
    + intros _. apply renumber_store; [exact S2|]. change (node_hash_ts j2 <> None). by rewrite Et2.
    + exact (update_length _ _ _).
  - split_and!; try done. assert (node_at (node_list j2) (addr n) = Some n) as Hat.
    { apply node_at_elem; [apply S2|]. by rewrite El2. }
    change (node_list (j2 <| node_list := _ |>)) with
      (update_node (addr n) (fun n => n <| packet := (packet n) <| seq := htons (psuedo_seq j2) |> |>) (node_list j2)).
    apply (node_at_Some _ (addr n)). rewrite update_at by done. by rewrite decide_True, Hat.
Qed.

Lemma next_packet_ok jb :
  inv jb -> exists jb' node status, jb_next_packet jb = Some (jb', node, status)
  /\ keeps jb jb'
  /\ match node with
     | Some n => status = SWITCH_STATUS_SUCCESS /\ node_at (node_list jb') (addr n) = Some n /\ visible n = true
     | None => status = SWITCH_STATUS_NOTFOUND
     end.
Proof.
  intros HI. pose proof (v_store _ HI) as HS. pose proof (v_ts _ HI) as HT. unfold jb_next_packet.
  assert (forall jb' n, keeps jb jb' -> n ∈ node_list jb' -> node_at (node_list jb') (addr n) = Some n) as Hat.
  { intros jb' n K Hn. apply node_at_elem; [apply (k_store _ _ K HS)|done]. }
  destruct (Z.eqb_spec (samples_per_frame jb) 0) as [Hz|Hz]; cbn [negb].
  - destruct (next_by_seq_ok jb HS) as ([[j node] st] & -> & K & Hn). exists j, node, st. split_and!; try done.
    destruct node as [n|]; [|done]. destruct Hn as (H1 & H2 & H3). split_and!; auto. apply H3, HT, Hz.
  - pose proof (next_by_ts_ok jb HS ltac:(rewrite <- HT; done)) as H.
    destruct (jb_next_packet_by_ts jb) as [[j node] st]. destruct H as [K Hn]. exists j, node, st. split_and!; try done.
    destruct node as [n|]; [|done]. destruct Hn as (H1 & H2 & H3). split_and!; auto.
Qed.

(** ** Getting a packet *)

(** The nodes, the index by number and the target are as before. *)
Definition same_nodes jb jb' : Prop :=
  node_list jb' = node_list jb /\ node_hash jb' = node_hash jb /\ target_seq jb' = target_seq jb.

#[export] Instance same_nodes_refl : Reflexive same_nodes.
Proof. done. Qed.
#[export] Instance same_nodes_trans : Transitive same_nodes.
Proof. intros j1 j2 j3 (A1 & A2 & A3) (B1 & B2 & B3). split_and!; congruence. Qed.

Lemma poll_nodes jb : same_nodes jb (switch_jb_poll jb).2.
Proof.
  unfold switch_jb_poll. cbn [snd]. destruct (_ && _); [|reflexivity]. cbv zeta.
  destruct (negb (_ =? 0) && _); (destruct (negb _); [|done]); by destruct (_ =? 0).
Qed.

Lemma frame_inc_nodes jb i : i = 1 \/ i = -1 -> same_nodes jb (jb_frame_inc_line jb i).
Proof. intros Hi. destruct (frame_inc_eq jb i Hi) as (f & hf & -> & _). done. Qed.

Lemma refresh_nodes jb : same_nodes jb (request_video_refresh jb).
Proof. unfold request_video_refresh. by destruct (session jb). Qed.

Lemma end_period_nodes jb : same_nodes jb (end_period jb).
Proof.
  unfold end_period. set (j0 := if _ >=? _ then _ else _).
  assert (same_nodes jb j0) as H0 by (unfold j0; destruct (_ >=? _); [apply frame_inc_nodes; by right|done]).
  clearbody j0. etransitivity; [exact H0|]. cbv zeta.
  set (j1 := j0 <| period_count := _ |> <| period_miss_inc := _ |> <| period_miss_count := _ |>
                <| period_good_count := _ |> <| consec_miss_count := _ |> <| consec_good_count := _ |>).
  assert (same_nodes j0 j1) as H1 by done. clearbody j1. etransitivity; [exact H1|].
  destruct (_ && _ && _); [|done]. destruct (_ && (_ =? _)); [|destruct (_ && _); [|done]];
    (etransitivity; [|apply refresh_nodes]); done.
Qed.

Lemma poll_keeps jb : keeps jb (switch_jb_poll jb).2.
Proof.
  unfold switch_jb_poll. cbn [snd]. destruct (_ && _); [|reflexivity]. cbv zeta.
  set (j1 := if negb (complete_frames jb =? 0) && (buffer_lag jb =? 0) then _ else _).
  assert (keeps jb j1) as K1 by (unfold j1; destruct (_ && _); [plain_update|reflexivity]). clearbody j1.
  destruct (negb _); [|done]. etransitivity; [exact K1|].
  destruct (_ =? 0); plain_update.
Qed.

Lemma end_period_keeps jb : keeps jb (end_period jb).
Proof.
  unfold end_period. cbv zeta.
  set (j1 := if consec_good_count jb >=? _ then _ else _).
  assert (keeps jb j1) as K1 by (unfold j1; destruct (_ >=? _); [apply frame_inc_keeps; by right|reflexivity]).
  clearbody j1. set (j2 := j1 <| period_count := 1 |>).
  set (j3 := j2 <| period_miss_inc := 0 |> <| period_miss_count := 0 |> <| period_good_count := 0 |>
    <| consec_miss_count := 0 |> <| consec_good_count := 0 |>).
  assert (keeps jb j3) as K3 by (etransitivity; [exact K1|]; unfold j3, j2; plain_update). clearbody j3. clear K1 j1 j2.
  destruct (_ && _ && _); [|done]. destruct (_ && _).
  - etransitivity; [exact K3|]. etransitivity; [|apply refresh_keeps]. plain_update.
  - destruct (_ && _); [|done]. etransitivity; [exact K3|]. etransitivity; [|apply refresh_keeps]. plain_update.
Qed.

Lemma note_read_eq jb n :
  exists rs rt c, note_read jb n = jb <| highest_read_seq := rs |> <| highest_read_ts := rt |>
      <| complete_frames := c |> <| read_init := true |>
    /\ c = (if bool_decide (type jb = SJB_VIDEO) then complete_frames jb else u32 (complete_frames jb - 1)).
Proof.
  unfold note_read.
  set (j1 := if negb (read_init jb) || _ then _ else _).
  assert (exists rs, j1 = jb <| highest_read_seq := rs |>) as [rs E1].
  { unfold j1. destruct (_ || _); [by eexists|]. exists (highest_read_seq jb). by destruct jb. }
  rewrite E1. clear E1 j1. set (j1 := jb <| highest_read_seq := rs |>).
  set (j2 := if negb (bool_decide (type j1 = SJB_VIDEO)) || _ then _ else _).
  assert (exists rt c, j2 = j1 <| highest_read_ts := rt |> <| complete_frames := c |>
    /\ c = (if bool_decide (type jb = SJB_VIDEO) then complete_frames jb else u32 (complete_frames jb - 1))) as (rt & c & E2 & Ec).
  { unfold j2. change (type j1) with (type jb). destruct (bool_decide (type jb = SJB_VIDEO)); cbn [negb orb].
    - destruct (_ && _ && _); [by exists (ts (packet n)), (complete_frames jb)|].
      destruct (read_init j1); cbn [negb].
      + exists (highest_read_ts jb), (complete_frames jb). split; [|done]. unfold j1. by destruct jb.
      + exists (ts (packet n)), (complete_frames jb). split; reflexivity.
    - by exists (ts (packet n)), (u32 (complete_frames jb - 1)). }
  rewrite E2. cbv zeta. exists rs, rt, c. split; [|done]. unfold j1.
  destruct (read_init _) eqn:Er; cbn [negb]; [|reflexivity]. destruct jb. cbn in Er. by subst.
Qed.

Lemma touches_facts jb jb' :
  touches_store jb jb' -> frame_len jb' = frame_len jb /\ missing_seq_hash jb' = missing_seq_hash jb
  /\ (type jb <> SJB_VIDEO -> complete_frames jb' = complete_frames jb)
  /\ length (node_list jb') = length (node_list jb).
Proof.
  intros (l & v & h & hts & c & -> & Hc & HP & _). apply Permutation_length in HP. rewrite !length_map in HP.
  split_and!; [reflexivity|reflexivity|exact Hc|exact HP].
Qed.

Lemma note_read_spec jb n (jb' := (note_read jb n) <| last_len := len n |>) :
  (store jb <-> store jb') /\ same_settings jb jb' /\ frame_len jb' = frame_len jb
  /\ missing_seq_hash jb' = missing_seq_hash jb /\ node_list jb' = node_list jb /\ visible_nodes jb' = visible_nodes jb
  /\ (type jb <> SJB_VIDEO -> complete_frames jb' = u32 (complete_frames jb - 1)).
Proof.
  unfold jb'. clear jb'. destruct (note_read_eq jb n) as (rs & rt & c & -> & Hc).
  split; [reflexivity|]. split; [constructor; reflexivity|].
  split; [reflexivity|]. split; [reflexivity|]. split; [reflexivity|]. split; [reflexivity|].
  intros Ht. rewrite bool_decide_false in Hc by done. exact Hc.
Qed.

(** Reading a visible node out of the buffer. *)
Lemma read_out_inv jb n (jb' := hide_node ((note_read jb n) <| last_len := len n |>) (addr n) true) :
  inv jb -> node_at (node_list jb) (addr n) = Some n -> visible n = true ->
  inv jb' /\ length (node_list jb') = length (node_list jb).
Proof.
  intros HI Hat Hv. unfold jb'. clear jb'.
  destruct (note_read_spec jb n) as (S1 & C1 & E1 & E2 & E3 & E4 & E5).
  set (j1 := _ <| last_len := len n |>) in *. clearbody j1. destruct HI as [V1 V2 VV V3 V4 V5].
  apply S1 in V1 as S2. rewrite <- E3 in Hat.
  destruct (hide_visible_count j1 (addr n) true n S2 Hat Hv) as [Hvis Hpos].
  pose proof (hide_node_store j1 (addr n) true S2) as S3. pose proof (hide_node_touches j1 (addr n) true) as HT.
  pose proof (touches_settings _ _ HT) as C2. destruct (touches_facts _ _ HT) as (F1 & F2 & F3 & F4).
  set (j2 := hide_node j1 (addr n) true) in *. clearbody j2.
  assert (same_settings jb j2) as [A1 A2 A3 A4 A5 A6 A7] by (by etransitivity).
  split; [|congruence]. constructor; [done| | | | |].
  - unfold frames_ok in *. by rewrite A3, A4, F1, E1.
  - by rewrite A1, F2, E2.
  - rewrite F2, E2. exact V3.
  - by rewrite A5, A6.
  - unfold counted. rewrite A1, A2. intros Ht Hq.
    assert (type j1 <> SJB_VIDEO) as Ht1 by (destruct C1; congruence).
    rewrite F3, E5, Hvis, E4 by done. rewrite (V5 Ht Hq). pose proof (s_small _ _ _ _ _ V1).
    pose proof (count_length visible (node_list jb)). pose proof (s_visible _ _ _ _ _ V1). rewrite u32_small; lia.
Qed.

Lemma reset_inv jb : inv jb -> inv (switch_jb_reset jb).
Proof.
  intros [V1 V2 VV V3 V4 V5]. destruct (reset_spec jb V1) as (H1 & [A1 A2 A3 A4 A5 A6 A7] & H3 & H4 & H5 & H6 & _ & _ & _ & H7).
  constructor; try done.
  - unfold frames_ok in *. by rewrite A3, A4, H6.
  - rewrite A1, H7. intros Ht. by rewrite bool_decide_true.
  - rewrite H7. case_bool_decide; [intros h [= <-]; apply missing_init|exact V3].
  - by rewrite A5, A6.
  - unfold counted. by rewrite H3, H4.
Qed.

Lemma get_end_inv jb plc status p len0 : inv jb -> inv (get_end jb plc status p len0).2.
Proof.
  intros HI. unfold get_end. destruct (bool_decide (type jb = SJB_VIDEO)); cbn [snd]; [|done].
  destruct (_ >? _); [by apply reset_inv|done].
Qed.

Lemma get_end_length jb plc status p len0 :
  store jb -> length (node_list (get_end jb plc status p len0).2) = length (node_list jb).
Proof.
  intros HS. unfold get_end. destruct (bool_decide (type jb = SJB_VIDEO)); cbn [snd]; [|done].
  destruct (_ >? _); [|done]. destruct (reset_spec jb HS) as (_ & _ & _ & _ & H & _). done.
Qed.

(** The state in which get_packet looks for a packet. *)
Definition before_next jb : switch_jb_s (T := T) :=
  let jb := (if complete_frames jb <? frame_len jb then (switch_jb_poll jb).2 else jb) in
  let jb := jb <| period_count := u32 (period_count jb + 1) |> in
  let jb := if period_count jb >=? period_len jb then end_period jb else jb in
  jb <| period_miss_pct := (period_miss_count jb * 100, period_count jb) |>.

Lemma before_next_keeps jb : keeps jb (before_next jb).
Proof.
  unfold before_next. cbv zeta. set (j1 := if complete_frames jb <? frame_len jb then _ else _).
  assert (keeps jb j1) as K1 by (unfold j1; destruct (_ <? _); [apply poll_keeps|reflexivity]). clearbody j1.
  set (j2 := j1 <| period_count := _ |>). assert (keeps j1 j2) as K2 by plain_update. clearbody j2.
  set (j3 := if period_count j2 >=? period_len j2 then _ else _).
  assert (keeps j2 j3) as K3 by (unfold j3; destruct (_ >=? _); [apply end_period_keeps|reflexivity]). clearbody j3.
  do 3 (etransitivity; [eassumption|]). plain_update.
Qed.

Lemma before_next_nodes jb : same_nodes jb (before_next jb).
Proof.
  unfold before_next. cbv zeta. set (j1 := if complete_frames jb <? frame_len jb then _ else _).
  assert (same_nodes jb j1) as K1 by (unfold j1; destruct (_ <? _); [apply poll_nodes|reflexivity]). clearbody j1.
  set (j2 := j1 <| period_count := _ |>). assert (same_nodes j1 j2) as K2 by done. clearbody j2.
  set (j3 := if period_count j2 >=? period_len j2 then _ else _).
  assert (same_nodes j2 j3) as K3 by (unfold j3; destruct (_ >=? _); [apply end_period_nodes|reflexivity]). clearbody j3.
  do 3 (etransitivity; [eassumption|]). done.
Qed.

(** get_packet, case by case. *)
Lemma get_packet_cases jb p len0 :
  inv jb ->
  (exists j status, keeps jb j /\ same_nodes jb j /\ (status = SWITCH_STATUS_BREAK \/ status = SWITCH_STATUS_MORE_DATA)
     /\ switch_jb_get_packet jb p len0 = Some (get_end j false status p len0))
  \/ (exists j n, jb_next_packet (before_next jb) = Some (j, Some n, SWITCH_STATUS_SUCCESS)
        /\ keeps jb j /\ node_at (node_list j) (addr n) = Some n /\ visible n = true
        /\ switch_jb_get_packet jb p len0
           = Some (get_end (hide_node ((note_read j n) <| last_len := len n |>) (addr n) true) false
                     SWITCH_STATUS_SUCCESS ((packet n) <| version := 2 |>) (len n)))
  \/ (exists j, jb_next_packet (before_next jb) = Some (j, None, SWITCH_STATUS_NOTFOUND) /\ keeps jb j
        /\ switch_jb_get_packet jb p len0 =
           Some (if bool_decide (type jb = SJB_VIDEO) then get_end j false SWITCH_STATUS_MORE_DATA p len0
                 else if consec_miss_count j >? frame_len j
                      then get_end (jb_frame_inc_line j 1) false SWITCH_STATUS_RESTART p len0
                      else get_end j true SWITCH_STATUS_NOTFOUND p len0)).
Proof.
  intros HI. unfold switch_jb_get_packet. destruct (complete_frames jb =? 0).
  { left. eexists _, _. split; [|split; [|split; [by left|reflexivity]]]; [plain_update|done]. }
  pose proof (before_next_keeps jb) as KB. pose proof (keeps_inv _ _ KB HI) as HB.
  pose proof (next_packet_ok _ HB) as (j & node & status & En & K & Hn).
  assert (type j = type jb) as Ht.
  { rewrite (ss_type _ _ (k_settings _ _ K)). apply (ss_type _ _ (k_settings _ _ KB)). }
  unfold before_next in *. cbv zeta in *.
  assert (exists more, (if complete_frames jb <? frame_len jb then let '(_, jb0) := switch_jb_poll jb in (negb (flush jb0), jb0)
     else (false, jb)) = (more, if complete_frames jb <? frame_len jb then (switch_jb_poll jb).2 else jb)) as [more ->].
  { destruct (_ <? _); [|by eexists]. destruct (switch_jb_poll jb). by eexists. }
  set (j1 := if complete_frames jb <? frame_len jb then _ else _) in *.
  assert (keeps jb j1) as K1 by (unfold j1; destruct (_ <? _); [apply poll_keeps|reflexivity]).
  assert (same_nodes jb j1) as N1 by (unfold j1; destruct (_ <? _); [apply poll_nodes|reflexivity]).
  destruct more; [left; eexists _, _; split; [exact K1|split; [exact N1|split; [by right|reflexivity]]]|right].
  rewrite En. destruct node as [n|].
  - destruct Hn as (-> & Hat & Hv). left. exists j, n. split_and!; try done. etransitivity; [exact KB|exact K].
  - subst status. right. exists j. split; [done|]. split; [etransitivity; [exact KB|exact K]|]. rewrite Ht.
    destruct (bool_decide _); [done|]. by destruct (_ >? _).
Qed.

Lemma get_packet_inv jb p len0 :
  inv jb -> exists status p' len' jb', switch_jb_get_packet jb p len0 = Some (status, p', len', jb')
  /\ inv jb' /\ length (node_list jb') = length (node_list jb).
Proof.
  intros HI.
  assert (forall j plc status p0 l0, inv j -> length (node_list j) = length (node_list jb) ->
    exists st p' len' jb', get_end j plc status p0 l0 = (st, p', len', jb') /\ inv jb'
      /\ length (node_list jb') = length (node_list jb)) as HE.
  { intros j plc st0 p0 l0 Hj Hl. pose proof (get_end_inv j plc st0 p0 l0 Hj) as H1.
    pose proof (get_end_length j plc st0 p0 l0 (v_store _ Hj)) as H2.
    destruct (get_end j plc st0 p0 l0) as [[[st p'] l'] j']. exists st, p', l', j'. cbn in *. split_and!; try done. congruence. }
  destruct (get_packet_cases jb p len0 HI) as [(j & st & K & _ & _ & ->)|[(j & n & _ & K & Hat & Hv & ->)|(j & _ & K & ->)]].
  - destruct (HE j false st p len0 (keeps_inv _ _ K HI) (k_length _ _ K)) as (? & ? & ? & ? & -> & ?). by eauto 10.
  - pose proof (keeps_inv _ _ K HI) as Hj. destruct (read_out_inv j n Hj Hat Hv) as [H2 H3].
    destruct (HE _ false SWITCH_STATUS_SUCCESS ((packet n) <| version := 2 |>) (len n) H2) as (? & ? & ? & ? & -> & ?); [|by eauto 10].
    rewrite H3. apply K.
  - pose proof (keeps_inv _ _ K HI) as Hj. pose proof (frame_inc_keeps j 1 (or_introl eq_refl)) as KF.
    destruct (bool_decide _).
    + destruct (HE j false SWITCH_STATUS_MORE_DATA p len0 Hj (k_length _ _ K)) as (? & ? & ? & ? & -> & ?). by eauto 10.
    + destruct (_ >? _).
      * destruct (HE _ false SWITCH_STATUS_RESTART p len0 (keeps_inv _ _ KF Hj)) as (? & ? & ? & ? & -> & ?); [|by eauto 10].
        rewrite (k_length _ _ KF). apply K.
      * destruct (HE j true SWITCH_STATUS_NOTFOUND p len0 Hj (k_length _ _ K)) as (? & ? & ? & ? & -> & ?). by eauto 10.
Qed.

(** ** Putting a packet *)

Lemma missing_inv jb h : inv jb -> missing_ok h -> inv (jb <| missing_seq_hash := Some h |>).
Proof. intros [V1 V2 VV V3 V4 V5] Hh. constructor; try done. cbn. by intros h' [= <-]. Qed.

Lemma add_node_inv jb p len0 :
  inv jb -> Z.of_nat (length (node_list jb)) + 1 < 2 ^ 32 ->
  inv (add_node jb p len0) /\ (length (node_list (add_node jb p len0)) <= S (length (node_list jb)))%nat
  /\ same_settings jb (add_node jb p len0).
Proof.
  intros [V1 V2 VV V3 V4 V5] Hlt. destruct (add_node_spec jb p len0 V1 Hlt) as (H1 & H2 & H3 & H4 & H5 & H6).
  set (j := add_node jb p len0) in *. clearbody j. split_and!; try done. destruct H2 as [A1 A2 A3 A4 A5 A6 A7].
  constructor; [done| | | | |].
  - unfold frames_ok in *. by rewrite A3, A4, H3.
  - rewrite A1. intros Ht. by destruct H5 as [->|[_ ->]]; [auto|].
  - destruct H5 as [->|[_ ->]]; [exact V3|]. intros h [= <-]. apply missing_init.
  - by rewrite A5, A6.
  - unfold counted. rewrite A1, A2. auto.
Qed.

Lemma touches_inv jb jb' :
  inv jb -> store jb' -> touches_store jb jb' -> test_flag (flags jb) SJB_QUEUE_ONLY = true -> inv jb'.
Proof.
  intros [V1 V2 VV V3 V4 V5] HS HT Hq. pose proof (touches_settings _ _ HT) as [A1 A2 A3 A4 A5 A6 A7].
  destruct (touches_facts _ _ HT) as (F1 & F2 & F3 & F4). constructor; [done| | | | |].
  - unfold frames_ok in *. by rewrite A3, A4, F1.
  - by rewrite A1, F2.
  - rewrite F2. exact V3.
  - by rewrite A5, A6.
  - unfold counted. rewrite A2, Hq. done.
Qed.

Lemma touches_max jb jb' : touches_store jb jb' ->
  max_frame_len jb' = max_frame_len jb /\ max_packet_len jb' = max_packet_len jb.
Proof. intros (l & v & h & hts & c & -> & _). by split. Qed.

Lemma drop_loop_ok fuel jb :
  store jb -> u32 (max_frame_len jb * 2) > max_packet_len jb -> visible_nodes jb < Z.of_nat fuel ->
  exists jb', drop_loop fuel jb = Some jb' /\ store jb' /\ touches_store jb jb'.
Proof.
  revert jb. induction fuel as [|fuel IH]; intros jb HS Hg Hf.
  { pose proof (s_visible _ _ _ _ _ HS). pose proof (count_nonneg visible (node_list jb)). lia. }
  cbn [drop_loop]. destruct (Z.ltb_spec (u32 (u32 (max_frame_len jb * 2) - visible_nodes jb)) (max_packet_len jb)) as [Hlt|Hge].
  - assert (visible_nodes jb <> 0) as Hne.
    { intros E. rewrite E, Z.sub_0_r, u32_small in Hlt by apply u32_range. lia. }
    destruct (drop_oldest_spec jb HS) as (H1 & H2 & _ & H4). specialize (H4 Hne).
    destruct (touches_max _ _ H2) as [M1 M2].
    destruct (IH (drop_oldest_frame jb) H1) as (jb' & E & S' & T'); [by rewrite M1, M2|lia|].
    exists jb'. split_and!; try done. by etransitivity.
  - exists jb. split_and!; try done.
Qed.

Lemma mark_missing_ok want got (h : T Z) : missing_ok h -> missing_ok (mark_missing want got h).
Proof.
  unfold mark_missing. generalize (List.seq 0 (Z.to_nat (got - want))) as l. intros l. revert h.
  induction l as [|i l IH]; intros h Hh; cbn [foldl]; [done|]. apply IH, missing_insert; [done|apply ntohs_range|done].
Qed.

(** inv with the number of nodes unchanged. *)
Definition inv_same jb jb' : Prop := inv jb' /\ length (node_list jb') = length (node_list jb).

Lemma keeps_same jb jb' : keeps jb jb' -> inv jb -> inv_same jb jb'.
Proof. intros K HI. split; [by eapply keeps_inv|apply K]. Qed.

Lemma same_trans j1 j2 j3 : inv_same j1 j2 -> inv_same j2 j3 -> inv_same j1 j3.
Proof. intros [_ L1] [I2 L2]. split; [done|congruence]. Qed.

Lemma note_nacked_inv jb got : inv jb -> inv_same jb (note_nacked jb got).
Proof.
  intros HI. unfold note_nacked. destruct (missing_seq_hash jb) as [h|] eqn:Eh; [|by split].
  destruct (ih_delete h (htons got)) as [found h'] eqn:Ed.
  assert (missing_ok h') as Hh'.
  { pose proof (missing_delete h (htons got) (v_missing _ HI h Eh)) as H. by rewrite Ed in H. }
  assert (inv_same jb (jb <| missing_seq_hash := Some h' |>)) as HM by (split; [by apply missing_inv|done]).
  cbv zeta. set (jm := jb <| missing_seq_hash := Some h' |>) in *. clearbody jm.
  destruct found; [|done]. eapply same_trans; [exact HM|]. destruct HM as [IM _].
  destruct (got <? _); (apply keeps_same; [|done]).
  - etransitivity; [apply (frame_inc_keeps jm 1); by left|]. plain_update.
  - plain_update.
Qed.

Lemma note_gap_inv jb want got : inv jb -> inv_same jb (note_gap jb want got).
Proof.
  intros HI. unfold note_gap. destruct (got >? want); [|by split]. destruct (_ && _).
  { split; [by apply reset_inv|]. destruct (reset_spec jb (v_store _ HI)) as (_ & _ & _ & _ & H & _). exact H. }
  cbv zeta. set (j := if negb _ && _ then _ else _).
  assert (inv_same jb j) as HJ.
  { unfold j. destruct (_ && _); [|by split]. apply keeps_same; [apply frame_inc_keeps; by left|done]. }
  clearbody j. destruct (missing_seq_hash j) as [h|] eqn:Eh; [|done].
  eapply same_trans; [exact HJ|]. destruct HJ as [IJ _]. split; [|done].
  apply missing_inv; [done|]. by apply mark_missing_ok, (v_missing _ IJ).
Qed.

Lemma note_arrival_inv jb got : inv jb -> inv_same jb (note_arrival jb got).
Proof.
  intros HI. unfold note_arrival. cbv zeta. set (want := if _ =? 0 then _ else _). clearbody want.
  destruct (_ || _ || _); [apply keeps_same; [plain_update|done]|].
  pose proof (note_nacked_inv jb got HI) as H1.
  pose proof (note_gap_inv (note_nacked jb got) want got (proj1 H1)) as H2.
  pose proof (same_trans _ _ _ H1 H2) as H3. set (j := note_gap _ _ _) in *. clearbody j.
  destruct (_ || _); [|done]. eapply same_trans; [exact H3|]. apply keeps_same; [plain_update|apply H3].
Qed.

Lemma make_room_inv jb : inv jb -> exists jb', make_room jb = Some jb' /\ inv_same jb jb'.
Proof.
  intros HI. unfold make_room. destruct (test_flag (flags jb) SJB_QUEUE_ONLY) eqn:Eq; cbn [andb].
  2: { exists jb. split; [done|by split]. }
  destruct (negb _ && _ && _) eqn:Ec.
  - apply andb_true_iff in Ec as [Ec _]. apply andb_true_iff in Ec as [_ Ec]. rewrite Z.gtb_ltb in Ec. apply Z.ltb_lt in Ec.
    pose proof (v_store _ HI) as HS.
    destruct (drop_loop_ok (S (length (node_list jb))) jb HS) as (jb' & E & S' & T'); [lia| |].
    { rewrite (s_visible _ _ _ _ _ HS). pose proof (count_length visible (node_list jb)). lia. }
    exists jb'. split; [done|]. split; [by eapply touches_inv|]. by apply touches_facts in T' as (_ & _ & _ & ?).
  - clear Ec. destruct (negb _ && _); [|exists jb; split; [done|by split]].
    destruct (drop_oldest_spec jb (v_store _ HI)) as (H1 & H2 & _).
    exists (drop_oldest_frame jb). split; [done|]. split; [by eapply touches_inv|].
    by apply touches_facts in H2 as (_ & _ & _ & ?).
Qed.

Lemma put_packet_inv jb p len0 :
  inv jb -> Z.of_nat (length (node_list jb)) + 1 < 2 ^ 32 ->
  exists jb', switch_jb_put_packet jb p len0 = Some (SWITCH_STATUS_SUCCESS, jb')
  /\ inv jb' /\ (length (node_list jb') <= S (length (node_list jb)))%nat.
Proof.
  intros HI Hlt. unfold switch_jb_put_packet. cbv zeta.
  set (len1 := if len0 >=? _ then _ else _). clearbody len1.
  destruct (_ && _); [exists jb; split_and!; [done|done|lia]|].
  set (j0 := if negb (highest_dropped_ts jb =? 0) then _ else _).
  assert (inv_same jb j0) as [I0 L0].
  { apply keeps_same; [|done]. unfold j0; destruct (negb _); [plain_update|reflexivity]. }
  clearbody j0. destruct (note_arrival_inv j0 (ntohs (seq p)) I0) as [I1 L1]. set (j1 := note_arrival _ _) in *. clearbody j1.
  destruct (add_node_inv j1 p len1 I1) as (I2 & L2 & _); [rewrite L1, L0; done|].
  set (j2 := add_node _ _ _) in *. clearbody j2. destruct (make_room_inv j2 I2) as (j3 & -> & I3 & L3).
  exists j3. split_and!; [done|done|lia].
Qed.

(** ** Negative acknowledgements *)

(** A missing number may be requested (again). *)
Definition due (now then_ : Z) : bool := (then_ =? 1) || (RENACK_TIME <=? u32 (now - then_)).

(** A missing number the code takes to be too old. *)
Definition expired jb (s : Z) : bool := s <? u32 (ntohs (target_seq jb) - frame_len jb).

Lemma missing_list h key t :
  missing_ok h -> (key, Some t) ∈ ih_list h <-> 0 <= key < 2 ^ 16 /\ ih_find h key = Some t.
Proof.
  intros [H1 H2]. split.
  - intros Hin. split; [by eapply H2|by apply ih_list_find].
  - intros [Hk Hf]. apply ih_find_list in Hf as (key' & Hu & Hin); [|done].
    destruct (H2 _ _ Hin) as [Hk' _]. rewrite !u32_small in Hu by lia. by subst.
Qed.

(** One scan: it stops at an expired number, or ends with the least of the
    numbers that are due ([seen] stands for the part of [least] that comes from
    earlier scans). *)
Lemma nack_scan_spec jb now l least :
  (forall key val, (key, val) ∈ l -> 0 < key < 2 ^ 16 /\ val <> None) -> 0 <= least ->
  let '(least', r) := nack_scan jb now l least in
  (least' = least \/ exists key t, (key, Some t) ∈ l /\ least' = ntohs key /\ due now t = true /\ expired jb least' = false)
  /\ (0 < least -> 0 < least' <= least)
  /\ match r with
     | Some e => exists key t, (key, Some t) ∈ l /\ e = ntohs key /\ due now t = true /\ expired jb e = true
     | None => forall key t, (key, Some t) ∈ l -> due now t = true ->
         expired jb (ntohs key) = false /\ 0 < least' <= ntohs key
     end.
Proof.
  revert least. induction l as [|[key val] l IH]; intros least Hl H0; cbn [nack_scan].
  { split_and!; [by left|lia|]. intros key t Hin. by apply not_elem_of_nil in Hin. }
  destruct (Hl key val ltac:(left)) as [Hk Hv]. destruct val as [t|]; [|done]. clear Hv. change (default 0 (Some t)) with t. cbv zeta.
  assert (forall key val, (key, val) ∈ l -> 0 < key < 2 ^ 16 /\ val <> None) as Hl' by (intros; apply Hl; by right).
  assert (0 < ntohs key < 2 ^ 16) as Hs.
  { pose proof (ntohs_range key). pose proof (htons_ntohs key ltac:(lia)) as E.
    destruct (Z.eq_dec (ntohs key) 0) as [Ez|]; [|lia]. rewrite Ez in E. change (htons 0) with 0 in E. lia. }
  rewrite (u16_small key) by lia. fold (expired jb (ntohs key)).
  assert (negb (t =? 1) && (u32 (now - t) <? RENACK_TIME) = negb (due now t)) as ->.
  { unfold due. by rewrite negb_orb, Z.leb_antisym, negb_involutive. }
  destruct (due now t) eqn:Ed; cbn [negb].
  2: { specialize (IH least Hl' H0). destruct (nack_scan jb now l least) as [least' r].
       destruct IH as (A & B & C). split_and!; [|done|].
       - destruct A as [->|(k' & t' & Hin & ?)]; [by left|]. right. exists k', t'. split; [by right|done].
       - destruct r as [e|].
         + destruct C as (k' & t' & Hin & ?). exists k', t'. split; [by right|done].
         + intros k' t' Hin Hd. apply elem_of_cons in Hin as [[= -> ->]|Hin]; [congruence|by eapply C]. }
  destruct (expired jb (ntohs key)) eqn:Ee.
  { split_and!; [by left|lia|]. exists key, t. split; [left|done]. }
  set (least1 := if (least =? 0) || (ntohs key <? least) then ntohs key else least).
  assert (least1 = ntohs key /\ (0 < least -> ntohs key < least) \/ least1 = least /\ 0 < least <= ntohs key) as H1.
  { unfold least1. destruct (Z.eqb_spec least 0), (Z.ltb_spec (ntohs key) least); cbn; lia. }
  clearbody least1. specialize (IH least1 Hl' ltac:(lia)). destruct (nack_scan jb now l least1) as [least' r].
  destruct IH as (A & B & C). split_and!; [|lia|].
  - destruct A as [->|(k' & t' & Hin & ?)].
    + destruct H1 as [[-> _]|[-> _]]; [|by left]. right. exists key, t. split; [left|done].
    + right. exists k', t'. split; [by right|done].
  - destruct r as [e|].
    + destruct C as (k' & t' & Hin & ?). exists k', t'. split; [by right|done].
    + intros k' t' Hin Hd. apply elem_of_cons in Hin as [[= -> ->]|Hin]; [|by eapply C]. split; [done|lia].
Qed.

(** Any scan that stops does so at a missing number. *)
Lemma nack_scan_stops jb now l least least' e :
  nack_scan jb now l least = (least', Some e) -> exists key val, (key, val) ∈ l /\ e = ntohs (u16 key).
Proof.
  revert least. induction l as [|[key val] l IH]; intros least; cbn [nack_scan]; [done|].
  destruct (_ && _); [|destruct (_ <? u32 _)].
  - intros H. destruct (IH _ H) as (k' & v' & Hin & ->). exists k', v'. split; [by right|done].
  - intros [= _ <-]. exists key, val. split; [left|done].
  - intros H. destruct (IH _ H) as (k' & v' & Hin & ->). exists k', v'. split; [by right|done].
Qed.

(** The loop ends: each new pass has one number less to look at. *)
Lemma nack_loop_ok fuel jb now h least :
  missing_ok h -> (length (ih_list h) < fuel)%nat ->
  exists h' least', nack_loop fuel jb now h least = Some (h', least') /\ missing_ok h'.
Proof.
  revert h least. induction fuel as [|fuel IH]; intros h least Hh Hf; [lia|]. cbn [nack_loop].
  destruct (nack_scan jb now (ih_list h) least) as [l1 [e|]] eqn:Es; [|by exists h, l1].
  apply nack_scan_stops in Es as (key & val & Hin & ->).
  assert (0 <= key < 2 ^ 16) as Hk by (by apply Hh in Hin as [? _]).
  rewrite u16_small, htons_ntohs by done. apply IH; [by apply missing_delete|].
  pose proof (ih_list_delete h key val (proj1 Hh) Hin). lia.
Qed.

(** The number that a list of scans has settled on so far. *)
Definition chosen jb (now : Z) (h : T Z) (least : Z) : Prop :=
  least = 0 \/ 0 < least < 2 ^ 16 /\ expired jb least = false
    /\ exists t, ih_find h (htons least) = Some t /\ due now t = true.

Lemma key_delete (h : T Z) key key' :
  ih_ok h -> 0 <= key < 2 ^ 16 -> 0 <= key' < 2 ^ 16 ->
  ih_find (ih_delete h key).2 key' = if key =? key' then None else ih_find h key'.
Proof. intros Hh H1 H2. rewrite ih_find_delete by done. by rewrite !u32_small by lia. Qed.

Lemma key_insert (h : T Z) key val key' :
  ih_ok h -> 0 <= key < 2 ^ 16 -> 0 <= key' < 2 ^ 16 ->
  ih_find (ih_insert h key val) key' = if key =? key' then val else ih_find h key'.
Proof. intros Hh H1 H2. rewrite ih_find_insert by done. by rewrite !u32_small by lia. Qed.

(** What is left of a missing number once the expired ones are gone. *)
Definition unexpired jb (now : Z) (h : T Z) (key : Z) : option Z :=
  match ih_find h key with
  | Some t => if due now t && expired jb (ntohs key) then None else Some t
  | None => None
  end.

Lemma nack_loop_spec fuel jb now h least h' least' :
  missing_ok h -> ih_find h 0 = None -> chosen jb now h least -> nack_loop fuel jb now h least = Some (h', least') ->
  chosen jb now h' least'
  /\ (forall key, 0 <= key < 2 ^ 16 -> ih_find h' key = unexpired jb now h key)
  /\ (forall key t, 0 <= key < 2 ^ 16 -> ih_find h' key = Some t -> due now t = true -> 0 < least' <= ntohs key).
Proof.
  revert h least. induction fuel as [|fuel IH]; intros h least Hh H0 Hc; [done|]. cbn [nack_loop].
  assert (forall key val, (key, val) ∈ ih_list h -> 0 < key < 2 ^ 16 /\ val <> None) as Hl.
  { intros key val Hin. destruct (proj2 Hh _ _ Hin) as [H1 H2]. split; [|done].
    destruct (Z.eq_dec key 0) as [->|]; [|lia]. apply ih_list_find in Hin; [congruence|apply Hh]. }
  pose proof (nack_scan_spec jb now (ih_list h) least Hl) as HS.
  destruct (nack_scan jb now (ih_list h) least) as [l1 r].
  destruct HS as (A & B & C); [destruct Hc as [->|[? _]]; lia|].
  assert (chosen jb now h l1) as Hc1.
  { destruct A as [->|(key & t & Hin & -> & Hd & He)]; [done|]. apply missing_list in Hin as [Hk Hin]; [|done].
    destruct (Z.eq_dec (ntohs key) 0) as [E|]; [by left|right]. pose proof (ntohs_range key).
    split_and!; [lia|lia|done|]. exists t. by rewrite htons_ntohs. }
  destruct r as [e|].
  - destruct C as (key & t & Hin & -> & Hd & He). apply missing_list in Hin as [Hk Hin]; [|done].
    rewrite htons_ntohs by done. intros HL. pose proof (proj1 Hh) as Hok.
    apply IH in HL as (I1 & I2 & I3); [|by apply missing_delete| |].
    + split_and!; try done. intros key' Hk'. rewrite I2 by done. unfold unexpired. rewrite key_delete by done.
      destruct (Z.eqb_spec key key') as [<-|]; [|done]. by rewrite Hin, Hd, He.
    + rewrite key_delete by lia || done. by destruct (key =? 0).
    + destruct Hc1 as [->|(H1 & H2 & t1 & H3 & H4)]; [by left|right]. split_and!; [lia|lia|done|]. exists t1.
      pose proof (ntohs_range l1). rewrite key_delete by done. destruct (Z.eqb_spec key (htons l1)) as [->|]; [|done].
      rewrite ntohs_htons, u16_small in He by lia. congruence.
  - intros [= <- <-]. split_and!; try done.
    + intros key Hk. unfold unexpired. destruct (ih_find h key) as [t|] eqn:Ef; [|done].
      destruct (due now t) eqn:Ed; [|done]. destruct (C key t) as [-> _]; try done. by apply missing_list.
    + intros key t Hk Ef Hd. destruct (C key t) as [_ ?]; try done. by apply missing_list.
Qed.

(** The key of the number [i + 1] after [least]. *)
Definition follower (least i : Z) : Z := htons (u16 (least + i + 1)).

Lemma follower_range least i : 0 <= follower least i < 2 ^ 16.
Proof. apply ntohs_range. Qed.

Lemma follower_inj least i j :
  0 <= i < 2 ^ 16 -> 0 <= j < 2 ^ 16 -> follower least i = follower least j -> i = j.
Proof.
  intros Hi Hj E. apply (f_equal ntohs) in E. unfold follower in E. rewrite !ntohs_htons in E.
  unfold u16 in E. dlia.
Qed.

Lemma ptr_now now : now <> 0 -> ptr now = Some now.
Proof. intros H. unfold ptr. by destruct (Z.eqb_spec now 0). Qed.

(** One number of the [for] loop. *)
Definition nack_follower (now least : Z) : T Z * Z -> nat -> T Z * Z := fun '(h, blp) i =>
  let key := htons (u16 (least + Z.of_nat i + 1)) in
  let '(found, h') := ih_delete h key in
  match found with
  | Some _ => (ih_insert h' key (ptr now), Z.lor blp (Z.shiftl 1 (Z.of_nat i)))
  | None => (h', blp)
  end.

Lemma nack_follower_step now least h blp i (key := follower least (Z.of_nat i)) :
  missing_ok h -> now <> 0 ->
  let '(h', blp') := nack_follower now least (h, blp) i in
  missing_ok h'
  /\ (forall key', 0 <= key' < 2 ^ 16 ->
       ih_find h' key' = if key =? key' then (fun _ => now) <$> ih_find h key else ih_find h key')
  /\ (forall j, 0 <= j -> Z.testbit blp' j
       = Z.testbit blp j || (bool_decide (is_Some (ih_find h key)) && (Z.of_nat i =? j))).
Proof.
  intros Hh Hnow. unfold nack_follower. cbv zeta. fold (follower least (Z.of_nat i)). fold key.
  assert (0 <= key < 2 ^ 16) as Hk by apply follower_range. rewrite ptr_now by done.
  destruct (ih_delete h key) as [found h2] eqn:Ed.
  assert (found = ih_find h key /\ h2 = (ih_delete h key).2) as [-> E2].
  { rewrite <- (ih_deleted h key), Ed by apply Hh. done. }
  assert (missing_ok h2) as M2 by (rewrite E2; by apply missing_delete).
  assert (forall key', 0 <= key' < 2 ^ 16 -> ih_find h2 key' = if key =? key' then None else ih_find h key') as F2.
  { intros. rewrite E2. apply key_delete; [apply Hh|done|done]. }
  destruct (ih_find h key) as [t|] eqn:Et; (split_and!; [by (apply missing_insert || idtac)| |]).
  - intros key' Hk'. rewrite key_insert by (apply M2 || done). rewrite F2 by done. by destruct (key =? key').
  - intros j Hj. rewrite Z.lor_spec, Z.shiftl_1_l, Z.pow2_bits_eqb by lia. by rewrite bool_decide_true by eauto.
  - done.
  - intros j Hj. by rewrite orb_false_r.
Qed.

Lemma nack_followers_prefix n now least h :
  (n <= 16)%nat -> missing_ok h -> now <> 0 ->
  let '(h', blp) := foldl (nack_follower now least) (h, 0) (List.seq 0 n) in
  missing_ok h'
  /\ (forall i, 0 <= i -> Z.testbit blp i = (i <? Z.of_nat n) && bool_decide (is_Some (ih_find h (follower least i))))
  /\ (forall i, 0 <= i < Z.of_nat n -> ih_find h' (follower least i) = (fun _ => now) <$> ih_find h (follower least i))
  /\ (forall key, 0 <= key < 2 ^ 16 -> (forall i, 0 <= i < Z.of_nat n -> key <> follower least i) ->
        ih_find h' key = ih_find h key).
Proof.
  intros Hn Hh Hnow. induction n as [|n IH].
  { cbn [List.seq foldl]. split_and!; try done; [|lia]. intros i Hi. rewrite Z.testbit_0_l.
    by destruct (Z.ltb_spec i (Z.of_nat 0)); [lia|]. }
  specialize (IH ltac:(lia)). rewrite seq_S, foldl_app. cbn [foldl Nat.add].
  destruct (foldl _ (h, 0) (List.seq 0 n)) as [h1 blp]. destruct IH as (M1 & T1 & F1 & O1).
  pose proof (nack_follower_step now least h1 blp n M1 Hnow) as HS. set (key := follower least (Z.of_nat n)) in *.
  destruct (nack_follower now least (h1, blp) n) as [h2 blp2]. destruct HS as (M2 & F2 & T2).
  assert (0 <= key < 2 ^ 16) as Hk by apply follower_range.
  assert (forall i, 0 <= i <= Z.of_nat n -> key = follower least i -> i = Z.of_nat n) as Hinj.
  { intros i Hi E. apply follower_inj in E; lia. }
  rewrite (O1 key) in F2, T2 by (done || intros i Hi E; apply Hinj in E; lia).
  split_and!; [done| | |].
  - intros i Hi. rewrite T2, T1 by done. destruct (Z.eqb_spec (Z.of_nat n) i) as [<-|].
    + rewrite (proj2 (Z.ltb_ge (Z.of_nat n) (Z.of_nat n))), (proj2 (Z.ltb_lt (Z.of_nat n) (Z.of_nat (S n)))) by lia.
      cbn [andb orb]. by rewrite andb_true_r.
    + rewrite andb_false_r, orb_false_r. f_equal.
      destruct (Z.ltb_spec i (Z.of_nat n)), (Z.ltb_spec i (Z.of_nat (S n))); lia || done.
  - intros i Hi. rewrite F2 by apply follower_range. destruct (Z.eqb_spec key (follower least i)) as [E|E].
    + by rewrite <- E.
    + apply F1. destruct (Z.eq_dec i (Z.of_nat n)) as [->|]; [done|lia].
  - intros key' Hk' Ho. rewrite F2 by done. destruct (Z.eqb_spec key key') as [E|E].
    + exfalso. apply (Ho (Z.of_nat n)); [lia|done].
    + apply O1; [done|]. intros i Hi. apply Ho. lia.
Qed.

End spec.

End JitterBufferSpec.
