(* ===== verification/JbTheorems.v ===== *)
(** * Properties of the jitter buffer

    The theorems about the operations of switch_jitterbuffer.c as the RTP stack
    uses them: every operation returns and keeps the invariant, packets come
    out in the order of their sequence numbers, a stored packet is found, and
    what a negative acknowledgement contains. *)

From S2P Require Import Prelude.
From S2P Require Import Hashtable CoreHash JbSort JitterBuffer JbStore JitterBufferSpec.

Module JbTheorems.
Import CoreHash JbSort JitterBuffer JbStore JitterBufferSpec.

Section theorems.
Context {T : Type -> Type} `{!IntHash T, !IntHashLaws T}.
Implicit Types jb : switch_jb_s (T := T).

(** ** Negative acknowledgements *)

Lemma join_halves a b : 0 <= a < 2 ^ 16 -> 0 <= b < 2 ^ 16 -> Z.lor a (u32 (Z.shiftl b 16)) = a + b * 2 ^ 16.
Proof.
  intros Ha Hb. rewrite Z.shiftl_mul_pow2, u32_small by lia.
  rewrite <- (Z.add_lor_land a (b * 2 ^ 16)). assert (Z.land a (b * 2 ^ 16) = 0) as ->; [|lia].
  apply Z.bits_inj'. intros i Hi. rewrite Z.land_spec, Z.testbit_0_l.
  destruct (Z.ltb_spec i 16).
  - rewrite (Z.mul_pow2_bits_low b 16 i) by lia. apply andb_false_r.
  - assert (Z.testbit a i = false) as ->; [|done]. apply Z.bits_above_log2; [lia|].
    destruct (Z.eq_dec a 0) as [->|]; [change (Z.log2 0) with 0; lia|].
    pose proof (proj1 (Z.log2_lt_pow2 a 16 ltac:(lia))). lia.
Qed.

(** All bits from the 16th on are clear. *)
Lemma low_bits blp : (forall i, 16 <= i -> Z.testbit blp i = false) -> 0 <= blp < 2 ^ 16.
Proof.
  intros Hb. assert (blp mod 2 ^ 16 = blp) as <-; [|apply Z.mod_pos_bound; lia].
  apply Z.bits_inj'. intros i Hi. destruct (Z.ltb_spec i 16).
  - by rewrite Z.mod_pow2_bits_low by lia.
  - rewrite Z.mod_pow2_bits_high by lia. by rewrite Hb.
Qed.

Lemma pop_nack_inv jb now :
  inv jb -> now <> 0 -> exists nack jb', switch_jb_pop_nack jb now = Some (nack, jb') /\ inv_same jb jb'.
Proof.
  intros HI Hn. unfold switch_jb_pop_nack. case_bool_decide as Ht; cbn [negb].
  2: { exists 0, jb. split; [done|by split]. }
  destruct (missing_seq_hash jb) as [h|] eqn:Eh; [|by destruct (v_video _ HI Ht)].
  pose proof (v_missing _ HI h Eh) as Hh.
  destruct (nack_loop_ok (S (length (ih_list h))) jb now h 0 Hh) as (h1 & least & -> & H1); [lia|].
  set (r := if least =? 0 then _ else _). assert (missing_ok r.2) as Hr.
  { unfold r. destruct (least =? 0); [done|]. pose proof (missing_delete h1 (htons least) H1) as H2.
    destruct (ih_delete h1 (htons least)) as [[t|] h2]; [|done]. cbv zeta.
    pose proof (nack_followers_prefix 16 now least (ih_insert h2 (htons least) (ptr now))) as HF.
    specialize (HF ltac:(lia)). unfold nack_followers. fold (nack_follower (T := T) now least).
    destruct (foldl _ _ _) as [h3 blp]. apply HF; [|done]. rewrite ptr_now by done.
    apply missing_insert; [done|apply ntohs_range|done]. }
  destruct r as [nack h']. exists nack, (jb <| missing_seq_hash := Some h' |>). split; [done|].
  split; [by apply missing_inv|done].
Qed.

(** A number that a negative acknowledgement should ask for: missing, due and
    not expired. *)
Definition wanted jb (now : Z) (h : T Z) (s : Z) : Prop :=
  exists t, ih_find h (htons s) = Some t /\ due now t = true /\ expired jb s = false.

Lemma follower_other least i : 0 <= least < 2 ^ 16 -> 0 <= i < 16 -> htons least <> follower least i.
Proof.
  intros Hl Hi E. apply (f_equal ntohs) in E. unfold follower in E. rewrite !ntohs_htons in E. unfold u16 in E. dlia.
Qed.

Lemma pop_nack_spec jb now h :
  inv jb -> now <> 0 -> type jb = SJB_VIDEO -> missing_seq_hash jb = Some h -> ih_find h 0 = None ->
  exists nack h', switch_jb_pop_nack jb now = Some (nack, jb <| missing_seq_hash := Some h' |>)
  /\ ((nack = 0 /\ (forall s, 0 <= s < 2 ^ 16 -> ~ wanted jb now h s)
       /\ forall key, 0 <= key < 2 ^ 16 -> ih_find h' key = unexpired jb now h key)
      \/ exists pid, 0 < pid < 2 ^ 16 /\ u16 nack = htons pid
         /\ wanted jb now h pid /\ (forall s, 0 <= s < 2 ^ 16 -> wanted jb now h s -> pid <= s)
         /\ (forall i, 0 <= i < 16 -> Z.testbit (ntohs (nack / 2 ^ 16)) i
                = bool_decide (is_Some (unexpired jb now h (follower pid i))))
         /\ ih_find h' (htons pid) = Some now
         /\ (forall i, 0 <= i < 16 -> ih_find h' (follower pid i) = (fun _ => now) <$> unexpired jb now h (follower pid i))
         /\ (forall key, 0 <= key < 2 ^ 16 -> key <> htons pid -> (forall i, 0 <= i < 16 -> key <> follower pid i) ->
               ih_find h' key = unexpired jb now h key)).
Proof.
  intros HI Hnow Ht Eh H0. unfold switch_jb_pop_nack. rewrite bool_decide_true by done. cbn [negb]. rewrite Eh.
  pose proof (v_missing _ HI h Eh) as Hh.
  destruct (nack_loop_ok (S (length (ih_list h))) jb now h 0 Hh) as (h1 & least & EL & H1); [lia|]. rewrite EL.
  apply nack_loop_spec in EL as (HC & HU & HM); [|done|done|by left].
  assert (forall s, 0 <= s < 2 ^ 16 -> wanted jb now h s -> 0 < least <= s) as HW.
  { intros s Hs (t & E1 & E2 & E3). specialize (HM (htons s) t (ntohs_range s)).
    rewrite ntohs_htons, u16_small in HM by lia. apply HM; [|done].
    rewrite HU by apply ntohs_range. unfold unexpired. rewrite E1, ntohs_htons, u16_small by lia. by rewrite E3, andb_false_r. }
  destruct HC as [->|(Hl & He & t & Hf & Hd)].
  { cbn [Z.eqb]. exists 0, h1. split; [done|left]. split_and!; [done| |done]. intros s Hs W. apply HW in W; [lia|done]. }
  rewrite (proj2 (Z.eqb_neq least 0)) by lia.
  destruct (ih_delete h1 (htons least)) as [found h2] eqn:Ed.
  assert (found = Some t /\ h2 = (ih_delete h1 (htons least)).2) as [-> E2].
  { rewrite <- Hf, <- (ih_deleted h1 (htons least)), Ed by apply H1. done. }
  cbv zeta. assert (missing_ok h2) as M2 by (rewrite E2; by apply missing_delete).
  pose proof (ntohs_range least) as Hr. fold (htons least) in Hr.
  set (h3 := ih_insert h2 (htons least) (ptr now)).
  assert (missing_ok h3) as M3 by (apply missing_insert; [done|done|by rewrite ptr_now]).
  assert (forall key, 0 <= key < 2 ^ 16 -> ih_find h3 key = if htons least =? key then Some now else unexpired jb now h key) as F3.
  { intros key Hk. unfold h3. rewrite key_insert by (apply M2 || done). rewrite ptr_now by done.
    destruct (Z.eqb_spec (htons least) key) as [|Hne]; [done|]. rewrite E2, key_delete by (apply H1 || done).
    rewrite (proj2 (Z.eqb_neq _ _) Hne). by apply HU. }
  clearbody h3. pose proof (nack_followers_prefix 16 now least h3 ltac:(lia) M3 Hnow) as HF.
  unfold nack_followers. fold (nack_follower (T := T) now least).
  destruct (foldl _ (h3, 0) _) as [h4 blp]. destruct HF as (M4 & T4 & F4 & O4).
  assert (0 <= blp < 2 ^ 16) as Hblp.
  { apply low_bits. intros i Hi. rewrite T4 by lia. by rewrite (proj2 (Z.ltb_ge i (Z.of_nat 16))) by lia. }
  assert (forall i, 0 <= i < 16 -> ih_find h3 (follower least i) = unexpired jb now h (follower least i)) as FF.
  { intros i Hi. rewrite F3 by apply follower_range. rewrite (proj2 (Z.eqb_neq _ _)); [done|]. apply follower_other; lia. }
  pose proof (ntohs_range blp) as Hb. fold (htons blp) in Hb. rewrite join_halves by done.
  exists (htons least + htons blp * 2 ^ 16), h4. split; [done|right]. exists least. split_and!; [lia|lia| | | | | | |].
  - unfold u16. rewrite Z.mod_add, Z.mod_small by lia. done.
  - exists t. split_and!; try done. rewrite HU in Hf by done. unfold unexpired in Hf.
    destruct (ih_find h (htons least)) as [t'|]; [|done]. by destruct (_ && _).
  - intros s Hs W. apply HW in W; [lia|done].
  - intros i Hi. rewrite Z.div_add, Z.div_small, Z.add_0_l, ntohs_htons, u16_small by lia.
    rewrite T4, FF by lia. by rewrite (proj2 (Z.ltb_lt i (Z.of_nat 16))) by lia.
  - rewrite O4; [by rewrite F3, Z.eqb_refl by done|done|]. intros i Hi. apply follower_other; lia.
  - intros i Hi. rewrite F4, FF by lia. done.
  - intros key Hk Hne Ho. rewrite O4, F3 by done. by rewrite (proj2 (Z.eqb_neq _ _)).
Qed.

(** Negative acknowledgements: on a video buffer whose sequence number 0 is
    not missing, switch_jb_pop_nack returns 0 when no missing number is due and
    unexpired; else its low half is the least such number, and bit i of its high
    half says whether the number i + 1 after it is missing.  The numbers it
    reports are stamped with the current time, the expired ones are forgotten,
    the others stay as they were. *)
Theorem pop_nack_reports jb now h :
  inv jb -> now <> 0 -> type jb = SJB_VIDEO -> missing_seq_hash jb = Some h -> ih_find h 0 = None ->
  exists nack h', switch_jb_pop_nack jb now = Some (nack, jb <| missing_seq_hash := Some h' |>)
  /\ ((nack = 0 /\ (forall s, 0 <= s < 2 ^ 16 -> ~ wanted jb now h s)
       /\ forall key, 0 <= key < 2 ^ 16 -> ih_find h' key = unexpired jb now h key)
      \/ exists pid, 0 < pid < 2 ^ 16 /\ u16 nack = htons pid
         /\ wanted jb now h pid /\ (forall s, 0 <= s < 2 ^ 16 -> wanted jb now h s -> pid <= s)
         /\ (forall i, 0 <= i < 16 -> Z.testbit (ntohs (nack / 2 ^ 16)) i
                = bool_decide (is_Some (unexpired jb now h (follower pid i))))
         /\ ih_find h' (htons pid) = Some now
         /\ (forall i, 0 <= i < 16 -> ih_find h' (follower pid i) = (fun _ => now) <$> unexpired jb now h (follower pid i))
         /\ (forall key, 0 <= key < 2 ^ 16 -> key <> htons pid -> (forall i, 0 <= i < 16 -> key <> follower pid i) ->
               ih_find h' key = unexpired jb now h key)).
Proof. apply pop_nack_spec. Qed.

(** The comparison that expires missing numbers subtracts frame_len from the
    16-bit target number in unsigned arithmetic: while the target is below
    frame_len (as it is before the first read, when target_seq is 0), every
    missing number that is due is forgotten and no acknowledgement is asked
    for. *)
Theorem pop_nack_forgets jb now h :
  inv jb -> now <> 0 -> type jb = SJB_VIDEO -> missing_seq_hash jb = Some h -> ih_find h 0 = None ->
  ntohs (target_seq jb) < frame_len jb < 2 ^ 31 ->
  exists h', switch_jb_pop_nack jb now = Some (0, jb <| missing_seq_hash := Some h' |>)
  /\ forall key t, 0 <= key < 2 ^ 16 -> ih_find h key = Some t -> due now t = true -> ih_find h' key = None.
Proof.
  intros HI Hn Ht Eh H0 Hf.
  assert (forall s, 0 <= s < 2 ^ 16 -> expired jb s = true) as He.
  { intros s Hs. pose proof (ntohs_range (target_seq jb)). unfold expired, u32. apply Z.ltb_lt. dlia. }
  destruct (pop_nack_spec jb now h HI Hn Ht Eh H0) as (nack & h' & E & [(-> & _ & HU)|(pid & Hp & _ & (t & _ & _ & Hx) & _)]).
  - exists h'. split; [done|]. intros key t Hk Ef Hd. rewrite HU by done. unfold unexpired. rewrite Ef, Hd.
    by rewrite He by apply ntohs_range.
  - rewrite He in Hx by lia. done.
Qed.

(** ** Runs of the buffer *)

Inductive jb_op :=
  | OpPut (p : switch_rtp_packet_t) (len0 : Z)
  | OpGet (p : switch_rtp_packet_t) (len0 : Z)
  | OpNack (now : Z)
  | OpReset
  | OpSetFrames (min_len max_len : Z)
  | OpTsMode (spf sps : Z)
  | OpSetSession (session0 : bool) (var : option Z)
  | OpSetFlag (flag : Z)
  | OpDebugLevel (level : Z)
  | OpPoll.

(** The arguments that callers pass: lengths with 1 <= min <= max, a clock that
    is not 0, a positive number of samples. *)
Definition op_ok (o : jb_op) : Prop :=
  match o with
  | OpNack now => now <> 0
  | OpSetFrames min_len max_len => 1 <= min_len <= max_len /\ max_len < 2 ^ 32 - 1
  | OpTsMode spf _ => spf <> 0
  | _ => True
  end.

Definition is_put (o : jb_op) : bool := match o with OpPut _ _ => true | _ => false end.

(** [None]: the call does not return. *)
Definition jb_step jb (o : jb_op) : option switch_jb_s :=
  match o with
  | OpPut p len0 => '(_, jb) ← switch_jb_put_packet jb p len0; Some jb
  | OpGet p len0 => '(_, _, _, jb) ← switch_jb_get_packet jb p len0; Some jb
  | OpNack now => '(_, jb) ← switch_jb_pop_nack jb now; Some jb
  | OpReset => Some (switch_jb_reset jb)
  | OpSetFrames min_len max_len => Some (switch_jb_set_frames jb min_len max_len)
  | OpTsMode spf sps => Some (switch_jb_ts_mode jb spf sps)
  | OpSetSession session0 var => Some (switch_jb_set_session jb session0 var)
  | OpSetFlag flag => Some (switch_jb_set_flag jb flag)
  | OpDebugLevel level => Some (switch_jb_debug_level jb level)
  | OpPoll => Some (switch_jb_poll jb).2
  end.

Fixpoint jb_run jb (ops : list jb_op) : option switch_jb_s :=
  match ops with
  | [] => Some jb
  | o :: ops => jb ← jb_step jb o; jb_run jb ops
  end.

Lemma create_inv ty min_len max_len :
  1 <= min_len <= max_len -> max_len < 2 ^ 32 - 1 ->
  inv (switch_jb_create ty min_len max_len) /\ node_list (switch_jb_create (T := T) ty min_len max_len) = [].
Proof.
  intros H1 H2. split; [|done]. constructor.
  - constructor; cbn; try done; try apply NoDup_nil_2; try apply ih_init_ok.
    intros _ key a. by rewrite ih_find_init.
  - unfold frames_ok. cbn. lia.
  - cbn. intros ->. by rewrite bool_decide_true.
  - cbn. case_bool_decide; [|done]. intros h [= <-]. apply missing_init.
  - done.
  - unfold counted. done.
Qed.

Lemma if_frame_len (b : bool) jb x :
  (if b then jb <| frame_len := x |> else jb) = jb <| frame_len := if b then x else frame_len jb |>.
Proof. destruct b; [done|by destruct jb]. Qed.

Lemma if_highest (b : bool) jb x :
  (if b then jb <| highest_frame_len := x |> else jb) = jb <| highest_frame_len := if b then x else highest_frame_len jb |>.
Proof. destruct b; [done|by destruct jb]. Qed.

Lemma set_frames_inv jb min_len max_len :
  inv jb -> 1 <= min_len <= max_len -> max_len < 2 ^ 32 - 1 -> inv_same jb (switch_jb_set_frames jb min_len max_len).
Proof.
  intros [V1 V2 VV V3 V4 V5] H1 H2. unfold switch_jb_set_frames. cbv zeta. rewrite !if_frame_len, !if_highest.
  split; [|done]. constructor; [exact V1| |exact VV|exact V3|exact V4|exact V5]. unfold frames_ok in *. cbn.
  repeat match goal with
         | |- context [if ?b then _ else _] =>
             lazymatch b with context [if _ then _ else _] => fail | _ => destruct b eqn:? end
         end; lia.
Qed.

Lemma ts_mode_inv jb spf sps : inv jb -> spf <> 0 -> inv_same jb (switch_jb_ts_mode jb spf sps).
Proof.
  intros [V1 V2 VV V3 V4 V5] Hs. split; [|done].
  constructor; [|exact V2|exact VV|exact V3|by cbn|exact V5]. destruct V1 as [S1 S2 S3 S4 S5 S6 S7 S8].
  constructor; try done. cbn. intros h' [= <-]. split; [apply ih_init_ok|]. intros key a. by rewrite ih_find_init.
Qed.

Lemma set_session_inv jb b var : inv jb -> inv_same jb (switch_jb_set_session jb b var).
Proof.
  intros HI. unfold switch_jb_set_session. destruct b; [|by split]. cbv zeta. destruct HI as [V1 V2 VV V3 V4 V5].
  destruct (_ && _); [destruct var as [tmp|]; [destruct (_ && _)|]|];
    (split; [|done]); constructor; first [exact V1|exact V2|exact VV|exact V3|exact V4|exact V5].
Qed.

Lemma set_flag_inv jb flag : inv jb -> inv_same jb (switch_jb_set_flag jb flag).
Proof.
  intros [V1 V2 VV V3 V4 V5]. split; [|done]. constructor; [exact V1|exact V2|exact VV|exact V3|exact V4|].
  intros Ht Hq. apply V5; [exact Ht|]. change (test_flag (set_flag (flags jb) flag) SJB_QUEUE_ONLY = false) in Hq.
  unfold test_flag, set_flag in *. rewrite Z.land_lor_distr_l in Hq.
  destruct (Z.eqb_spec (Z.land (flags jb) SJB_QUEUE_ONLY) 0) as [E|E]; [done|].
  destruct (Z.eqb_spec (Z.lor (Z.land (flags jb) SJB_QUEUE_ONLY) (Z.land flag SJB_QUEUE_ONLY)) 0) as [E2|]; [|done].
  by apply Z.lor_eq_0_iff in E2 as [? _].
Qed.

Lemma step_inv jb o :
  inv jb -> op_ok o -> Z.of_nat (length (node_list jb)) + 1 < 2 ^ 32 ->
  exists jb', jb_step jb o = Some jb' /\ inv jb'
    /\ (length (node_list jb') <= length (node_list jb) + if is_put o then 1 else 0)%nat.
Proof.
  intros HI Ho Hlt.
  assert (forall jb', inv_same jb jb' -> is_put o = false -> exists j, Some jb' = Some j /\ inv j
    /\ (length (node_list j) <= length (node_list jb) + if is_put o then 1 else 0)%nat) as HS.
  { intros jb' [H1 H2] _. exists jb'. split_and!; [done|done|]. rewrite H2. lia. }
  destruct o; cbn [jb_step op_ok] in *.
  - destruct (put_packet_inv jb p len0 HI Hlt) as (jb' & -> & H1 & H2). exists jb'. split_and!; [done|done|]. cbn. lia.
  - destruct (get_packet_inv jb p len0 HI) as (st & p' & l' & jb' & -> & H1 & H2). by apply HS.
  - destruct (pop_nack_inv jb now HI Ho) as (nack & jb' & -> & H1). by apply HS.
  - apply HS; [|done]. split; [by apply reset_inv|]. apply (reset_spec jb (v_store _ HI)).
  - apply HS; [|done]. destruct Ho. by apply set_frames_inv.
  - apply HS; [|done]. by apply ts_mode_inv.
  - apply HS; [|done]. by apply set_session_inv.
  - apply HS; [|done]. by apply set_flag_inv.
  - apply HS; [|done]. apply keeps_same; [plain_update|done].
  - apply HS; [|done]. apply keeps_same; [apply poll_keeps|done].
Qed.

Lemma run_inv ops jb :
  inv jb -> Forall op_ok ops -> Z.of_nat (length (node_list jb)) + count is_put ops < 2 ^ 32 - 1 ->
  exists jb', jb_run jb ops = Some jb' /\ inv jb'.
Proof.
  revert jb. induction ops as [|o ops IH]; intros jb HI Ho Hc; cbn [jb_run]; [by exists jb|].
  inversion Ho as [|? ? Ho1 Ho2]; subst. rewrite count_cons in Hc. pose proof (count_nonneg is_put ops).
  destruct (step_inv jb o HI Ho1) as (jb1 & -> & H1 & H2); [destruct (is_put o); cbn in Hc; lia|].
  apply IH; [done|done|]. destruct (is_put o); cbn in Hc; lia.
Qed.

(** C6. Every operation of the jitter buffer returns (the passes of [goto top],
    of the drop loop and of the NACK scan are bounded) and the buffer's
    invariant holds after any sequence of puts, gets, acknowledgement requests,
    resets and settings, with fewer than 2^32 - 1 puts: nodes have distinct
    addresses, allocated_nodes and visible_nodes count them, both indexes point
    at visible nodes with the key's number, frame_len stays between its bounds,
    and complete_frames is the number of stored packets in audio and text
    buffers. *)
Theorem jb_run_keeps_invariant ty min_len max_len ops :
  1 <= min_len <= max_len -> max_len < 2 ^ 32 - 1 -> Forall op_ok ops -> count is_put ops < 2 ^ 32 - 1 ->
  exists jb, jb_run (switch_jb_create ty min_len max_len) ops = Some jb /\ inv jb.
Proof.
  intros H1 H2 Ho Hc. destruct (create_inv ty min_len max_len H1 H2) as [HI HN].
  apply run_inv; [done|done|]. rewrite HN. cbn. lia.
Qed.
(** ** Reading in order *)

Definition next_number (s : Z) : Z := htons (u16 (ntohs s + 1)).

Lemma ntohs_u32 a b : u32 a = u32 b -> ntohs (u16 a) = ntohs b.
Proof. unfold ntohs, u32, u16. intros. dlia. Qed.

(** The search in an audio or text buffer, with a target. *)
Lemma next_audio jb :
  type jb <> SJB_VIDEO -> samples_per_frame jb = 0 -> target_seq jb <> 0 ->
  jb_next_packet jb = Some (match find_seq jb (target_seq jb) with
    | Some n => (set_read_seq (jb_hit jb) (seq (packet n)), Some n, SWITCH_STATUS_SUCCESS)
    | None => (increment_seq (jb_miss jb), None, SWITCH_STATUS_NOTFOUND)
    end).
Proof.
  intros Ht Hs Hz. unfold jb_next_packet. rewrite Hs, Z.eqb_refl. cbn [negb jb_next_packet_by_seq].
  rewrite !(bool_decide_false (type jb = SJB_VIDEO)) by done. cbn [andb].
  rewrite (proj2 (Z.eqb_neq _ _) Hz). by destruct (find_seq jb (target_seq jb)).
Qed.

Lemma read_seq_facts jb s (j := set_read_seq (jb_hit jb) s) :
  node_list j = node_list jb /\ node_hash j = node_hash jb /\ target_seq j = htons (u16 (ntohs (u16 s) + 1)).
Proof. split; [reflexivity|]. split; reflexivity. Qed.

Lemma miss_seq_facts jb (j := increment_seq (jb_miss jb)) :
  node_list j = node_list jb /\ node_hash j = node_hash jb /\ target_seq j = next_number (target_seq jb)
  /\ last_target_seq j = target_seq jb.
Proof. split; [reflexivity|]. split; [reflexivity|]. split; reflexivity. Qed.

Lemma find_seq_ext jb jb' s : node_list jb' = node_list jb -> node_hash jb' = node_hash jb -> find_seq jb' s = find_seq jb s.
Proof. intros H1 H2. unfold find_seq. by rewrite H1, H2. Qed.

Lemma same_nodes_find jb jb' s : same_nodes jb jb' -> find_seq jb' s = find_seq jb s.
Proof. intros (H1 & H2 & _). by apply find_seq_ext. Qed.

Lemma found_key jb s n :
  store jb -> node_hash_ts jb = None -> find_seq jb s = Some n ->
  u32 (seq (packet n)) = u32 s /\ ih_find (node_hash jb) s = Some (addr n).
Proof.
  intros HS Hts. unfold find_seq. destruct (ih_find (node_hash jb) s) as [a|] eqn:E; [|done]. intros Hn.
  destruct (s_seq _ _ _ _ _ HS Hts s a E) as (n' & Hn' & _ & Hu). rewrite Hn in Hn'. injection Hn' as <-.
  apply node_at_Some in Hn as [_ ->]. done.
Qed.

(** A node read out is no longer found; the others are found as before. *)
Lemma read_out_finds jb n s0 (jb' := hide_node jb (addr n) true) :
  store jb -> node_hash_ts jb = None -> find_seq jb s0 = Some n ->
  find_seq jb' s0 = None /\ (forall s, u32 s <> u32 s0 -> find_seq jb' s = find_seq jb s)
  /\ target_seq jb' = target_seq jb /\ type jb' = type jb /\ samples_per_frame jb' = samples_per_frame jb.
Proof.
  intros HS Hts Hf. unfold jb'. clear jb'. destruct (found_key jb s0 n HS Hts Hf) as [Hu Ha].
  assert (node_at (node_list jb) (addr n) = Some n) as Hat by (unfold find_seq in Hf; by rewrite Ha in Hf).
  pose proof (hide_node_at jb (addr n) true) as HA. pose proof (hide_node_eq jb (addr n) true n Hat) as HE.
  destruct HE as (g & l' & c & _ & _ & _ & _ & E).
  assert (node_hash (hide_node jb (addr n) true) = (ih_delete (node_hash jb) (seq (packet n))).2
    /\ target_seq (hide_node jb (addr n) true) = target_seq jb /\ type (hide_node jb (addr n) true) = type jb
    /\ samples_per_frame (hide_node jb (addr n) true) = samples_per_frame jb)
    as (EH & ET & EY & ES) by (by rewrite E).
  clear E. set (j := hide_node jb (addr n) true) in *. clearbody j. pose proof (s_hash _ _ _ _ _ HS) as Hok.
  split_and!; [| |done|done|done]; unfold find_seq; rewrite EH.
  - rewrite ih_find_delete by done. by rewrite Hu, Z.eqb_refl.
  - intros s Hs. rewrite ih_find_delete by done. rewrite (proj2 (Z.eqb_neq _ _)) by congruence.
    destruct (ih_find (node_hash jb) s) as [b|] eqn:Eb; [|done]. specialize (HA b HS).
    destruct (s_seq _ _ _ _ _ HS Hts s b Eb) as (nb & Hnb & _ & Hub). rewrite Hnb in *.
    destruct (node_at (node_list j) b) as [n'|]; [|done]. destruct HA as (_ & _ & HA).
    case_decide as Hb; [|by subst]. subst b. rewrite Hat in Hnb. injection Hnb as <-. congruence.
Qed.

Lemma read_audio jb n s0 (jb' := hide_node ((note_read jb n) <| last_len := len n |>) (addr n) true) :
  store jb -> node_hash_ts jb = None -> find_seq jb s0 = Some n ->
  find_seq jb' s0 = None /\ (forall s, u32 s <> u32 s0 -> find_seq jb' s = find_seq jb s)
  /\ target_seq jb' = target_seq jb /\ type jb' = type jb /\ samples_per_frame jb' = samples_per_frame jb.
Proof.
  intros HS Hts Hf. unfold jb'. clear jb'. destruct (note_read_eq jb n) as (rs & rt & c & -> & _).
  set (j := jb <| highest_read_seq := rs |> <| highest_read_ts := rt |> <| complete_frames := c |>
               <| read_init := true |> <| last_len := len n |>).
  exact (read_out_finds j n s0 HS Hts Hf).
Qed.

(** What get_packet returns from an audio or text buffer, from [end:] on. *)
Lemma get_end_audio jb plc status p l :
  type jb <> SJB_VIDEO -> samples_per_frame jb = 0 ->
  exists status', get_end jb plc status p l
    = (status', if plc then p <| seq := u16 (last_target_seq jb) |> <| ts := 0 |> else p, l, jb)
  /\ (status' = status \/ status = SWITCH_STATUS_SUCCESS /\ status' = SWITCH_STATUS_TIMEOUT).
Proof.
  intros Ht Hs. unfold get_end. rewrite bool_decide_false, Hs, Z.eqb_refl by done. cbn [negb]. eexists. split; [reflexivity|].
  destruct (_ >? _); cbn [andb]; [|by left]. case_bool_decide; [by right|by left].
Qed.
(** C7. Reading an audio or text buffer in order.  With a target number,
    switch_jb_get_packet either delivers exactly the stored packet of that
    number, takes it out and leaves every other packet; or reports that number
    as lost (NOTFOUND with the number filled in for concealment, RESTART after
    too many losses); in both cases the target moves on by one; or it has
    nothing to deliver yet (BREAK, MORE_DATA) and changes neither packets nor
    target. *)
Theorem get_packet_in_order jb p l status p' l' jb' :
  inv jb -> type jb <> SJB_VIDEO -> samples_per_frame jb = 0 -> target_seq jb <> 0 ->
  switch_jb_get_packet jb p l = Some (status, p', l', jb') ->
  match status with
  | SWITCH_STATUS_SUCCESS | SWITCH_STATUS_TIMEOUT =>
      exists n, find_seq jb (target_seq jb) = Some n /\ p' = (packet n) <| version := 2 |> /\ l' = len n
        /\ u32 (seq p') = u32 (target_seq jb) /\ target_seq jb' = next_number (target_seq jb)
        /\ find_seq jb' (target_seq jb) = None
        /\ forall s, u32 s <> u32 (target_seq jb) -> find_seq jb' s = find_seq jb s
  | SWITCH_STATUS_NOTFOUND =>
      find_seq jb (target_seq jb) = None /\ seq p' = u16 (target_seq jb)
      /\ target_seq jb' = next_number (target_seq jb) /\ forall s, find_seq jb' s = find_seq jb s
  | SWITCH_STATUS_RESTART =>
      find_seq jb (target_seq jb) = None /\ p' = p
      /\ target_seq jb' = next_number (target_seq jb) /\ forall s, find_seq jb' s = find_seq jb s
  | SWITCH_STATUS_BREAK | SWITCH_STATUS_MORE_DATA =>
      p' = p /\ target_seq jb' = target_seq jb /\ forall s, find_seq jb' s = find_seq jb s
  | _ => False
  end.
Proof.
  intros HI Ht Hs Hz Eg. pose proof (v_ts _ HI) as Hts. rewrite Hs in Hts. destruct Hts as [Hts _]. specialize (Hts eq_refl).
  pose proof (get_packet_cases jb p l HI) as HC. pose proof (before_next_nodes jb) as NB. pose proof (before_next_keeps jb) as KB.
  set (jn := before_next jb) in *. clearbody jn. pose proof (k_settings _ _ KB) as SB.
  pose proof (next_audio jn) as HN. rewrite (ss_type _ _ SB), (ss_spf _ _ SB), (proj2 (proj2 NB)) in HN.
  specialize (HN Ht Hs Hz). rewrite (same_nodes_find _ _ _ NB) in HN.
  destruct HC as [(j & st & K & N & Hst & E)|[(j & n & En & K & Hat & Hv & E)|(j & En & K & E)]]; rewrite E in Eg.
  - pose proof (k_settings _ _ K) as SK.
    destruct (get_end_audio j false st p l) as (st' & E' & Hs'); [by rewrite (ss_type _ _ SK)|by rewrite (ss_spf _ _ SK)|].
    rewrite E' in Eg. injection Eg as <- <- <- <-. destruct Hs' as [->|[-> _]]; [|by destruct Hst].
    assert (p = p /\ target_seq j = target_seq jb /\ forall s, find_seq j s = find_seq jb s) as G.
    { split_and!; [done|apply N|]. intros s. by apply same_nodes_find. }
    by destruct Hst as [-> | ->].
  - rewrite HN in En. destruct (find_seq jb (target_seq jb)) as [n0|] eqn:Ef; [|done].
    injection En as Ej ->. destruct (read_seq_facts jn (seq (packet n))) as (A1 & A2 & A3). rewrite Ej in A1, A2, A3. clear Ej E.
    assert (forall s, find_seq j s = find_seq jb s) as HJ.
    { intros s. rewrite (find_seq_ext jn j) by done. by apply same_nodes_find. }
    destruct (read_audio j n (target_seq jb)) as (R1 & R2 & R3 & R4 & R5).
    { exact (k_store _ _ K (v_store _ HI)). }
    { by apply (ss_ts _ _ (k_settings _ _ K)). }
    { by rewrite HJ. }
    set (jr := hide_node _ _ _) in *. clearbody jr. destruct (found_key jb _ n (v_store _ HI) Hts Ef) as [Hu _].
    destruct (get_end_audio jr false SWITCH_STATUS_SUCCESS ((packet n) <| version := 2 |>) (len n)) as (st' & E' & Hs').
    { by rewrite R4, (ss_type _ _ (k_settings _ _ K)). }
    { by rewrite R5, (ss_spf _ _ (k_settings _ _ K)). }
    rewrite E' in Eg. injection Eg as <- <- <- <-.
    assert (target_seq jr = next_number (target_seq jb)) as Htar.
    { by rewrite R3, A3, (ntohs_u32 _ _ Hu). }
    destruct Hs' as [->|[_ ->]]; exists n; (split_and!; try done); intros s Hs'; by rewrite R2, HJ.
  - rewrite HN in En. destruct (find_seq jb (target_seq jb)) as [n0|] eqn:Ef; [done|].
    injection En as Ej. destruct (miss_seq_facts jn) as (A1 & A2 & A3 & A4). rewrite Ej in A1, A2, A3, A4. clear Ej E.
    assert (target_seq j = next_number (target_seq jb) /\ last_target_seq j = target_seq jb
      /\ forall s, find_seq j s = find_seq jb s) as (Htar & Hlast & HJ).
    { rewrite A3, A4, (proj2 (proj2 NB)). split_and!; [done|done|]. intros s.
      rewrite (find_seq_ext jn j) by done. by apply same_nodes_find. }
    rewrite bool_decide_false in Eg by done. pose proof (k_settings _ _ K) as SK.
    destruct (_ >? _).
    + pose proof (frame_inc_keeps j 1 (or_introl eq_refl)) as KF. pose proof (k_settings _ _ KF) as SF.
      pose proof (frame_inc_nodes j 1 (or_introl eq_refl)) as NF.
      destruct (get_end_audio (jb_frame_inc_line j 1) false SWITCH_STATUS_RESTART p l) as (st' & E' & Hs').
      { by rewrite (ss_type _ _ SF), (ss_type _ _ SK). } { by rewrite (ss_spf _ _ SF), (ss_spf _ _ SK). }
      rewrite E' in Eg. injection Eg as <- <- <- <-. destruct Hs' as [->|[? _]]; [|done].
      split_and!; try done; [by rewrite (proj2 (proj2 NF))|]. intros s. by rewrite (same_nodes_find _ _ s NF).
    + destruct (get_end_audio j true SWITCH_STATUS_NOTFOUND p l) as (st' & E' & Hs').
      { by rewrite (ss_type _ _ SK). } { by rewrite (ss_spf _ _ SK). }
      rewrite E' in Eg. injection Eg as <- <- <- <-. destruct Hs' as [->|[? _]]; [|done].
      split_and!; try done. by rewrite <- Hlast.
Qed.
(** ** Storing a packet *)

(** new_node gives up only when every allocated node is in use and there are
    too many of them. *)
Lemma new_node_full jb :
  store jb -> (new_node jb).2 = None -> type jb <> SJB_VIDEO ->
  visible_nodes jb = allocated_nodes jb /\ u32 (max_frame_len jb * 2) < allocated_nodes jb.
Proof.
  intros HS HN Ht. unfold new_node in HN. destruct (head _) eqn:Eh; [done|].
  rewrite bool_decide_false in HN by done. cbn [negb] in HN. destruct (_ >? _) eqn:Eg; [|done].
  rewrite Z.gtb_ltb in Eg. apply Z.ltb_lt in Eg. split; [|done].
  rewrite (s_visible _ _ _ _ _ HS), (s_alloc _ _ _ _ _ HS).
  pose proof (count_length visible (node_list jb)).
  destruct (Z.eq_dec (count visible (node_list jb)) (Z.of_nat (length (node_list jb)))) as [|Hne]; [done|exfalso].
  destruct (count_some_false visible (node_list jb) ltac:(lia)) as (i & n & Hi & Ev). apply list_elem_of_lookup_2 in Hi.
  assert (n ∈ filter (fun n => visible n = false) (node_list jb)) as Hin by (by apply list_elem_of_filter).
  destruct (filter _ (node_list jb)); [by apply not_elem_of_nil in Hin|done].
Qed.

(** No packet is found in a buffer without visible nodes. *)
Lemma empty_finds jb s :
  store jb -> visible_nodes jb = 0 -> node_hash_ts jb = None -> find_seq jb s = None.
Proof.
  intros HS Hv Hts. unfold find_seq. destruct (ih_find (node_hash jb) s) as [a|] eqn:E; [|done].
  destruct (s_seq _ _ _ _ _ HS Hts s a E) as (n & Hn & Hvis & _). exfalso.
  apply node_at_Some in Hn as [Hin _]. apply list_elem_of_lookup in Hin as [i Hi].
  pose proof (count_lookup visible _ _ _ Hi Hvis). pose proof (s_visible _ _ _ _ _ HS). lia.
Qed.

Lemma by_seq_find jb s :
  switch_jb_get_packet_by_seq jb s = match find_seq jb s with
    | Some node => (SWITCH_STATUS_SUCCESS, Some ((packet node) <| version := 2 |>, len node))
    | None => (SWITCH_STATUS_NOTFOUND, None)
    end.
Proof. done. Qed.

(** Storing and looking up.  After switch_jb_put_packet on an audio or text
    buffer, switch_jb_get_packet_by_seq finds the packet under its sequence
    number with its length (at most the largest packet) and finds every other
    number as before; unless all nodes are in use and more than twice
    max_frame_len, in which case the buffer is reset and nothing is found. *)
Theorem put_then_get_by_seq jb p len0 :
  inv jb -> type jb <> SJB_VIDEO -> samples_per_frame jb = 0 -> test_flag (flags jb) SJB_QUEUE_ONLY = false ->
  highest_dropped_ts jb <= ntohl (ts p) -> Z.of_nat (length (node_list jb)) + 1 < 2 ^ 32 ->
  exists jb', switch_jb_put_packet jb p len0 = Some (SWITCH_STATUS_SUCCESS, jb')
  /\ ((switch_jb_get_packet_by_seq jb' (seq p)
        = (SWITCH_STATUS_SUCCESS, Some (p <| version := 2 |>, u32 (Z.min len0 SWITCH_RTP_MAX_PACKET_LEN)))
        /\ forall s, u32 s <> u32 (seq p) -> switch_jb_get_packet_by_seq jb' s = switch_jb_get_packet_by_seq jb s)
      \/ (visible_nodes jb = allocated_nodes jb /\ u32 (max_frame_len jb * 2) < allocated_nodes jb
          /\ forall s, switch_jb_get_packet_by_seq jb' s = (SWITCH_STATUS_NOTFOUND, None))).
Proof.
  intros HI Ht Hs Hq Hd Hlt. unfold switch_jb_put_packet. cbv zeta.
  assert ((if len0 >=? SWITCH_RTP_MAX_PACKET_LEN then SWITCH_RTP_MAX_PACKET_LEN else len0)
    = Z.min len0 SWITCH_RTP_MAX_PACKET_LEN) as ->.
  { rewrite Z.geb_leb. destruct (Z.leb_spec SWITCH_RTP_MAX_PACKET_LEN len0); lia. }
  rewrite (proj2 (Z.ltb_ge _ _) Hd), andb_false_r.
  set (j0 := if negb (highest_dropped_ts jb =? 0) then _ else _).
  assert (exists d, j0 = jb <| highest_dropped_ts := d |>) as [d E0].
  { unfold j0. destruct (negb _); [by eexists|]. exists (highest_dropped_ts jb). by destruct jb. }
  rewrite E0. clear E0 j0. unfold note_arrival. cbv zeta.
  change (flags (jb <| highest_dropped_ts := d |>)) with (flags jb). change (type (jb <| highest_dropped_ts := d |>)) with (type jb).
  assert (test_flag (flags jb) SJB_QUEUE_ONLY || bool_decide (type jb = SJB_AUDIO) || bool_decide (type jb = SJB_TEXT) = true) as ->.
  { rewrite Hq. by destruct (type jb). }
  set (j1 := jb <| highest_dropped_ts := d |> <| next_seq := _ |>).
  assert (keeps jb j1 /\ same_nodes jb j1 /\ flags j1 = flags jb) as (K & N & Fl) by (split; [plain_update|done]).
  assert (visible_nodes j1 = visible_nodes jb /\ allocated_nodes j1 = allocated_nodes jb /\ max_frame_len j1 = max_frame_len jb)
    as (E1 & E2 & E3) by done.
  clearbody j1. pose proof (k_settings _ _ K) as SK. pose proof (keeps_inv _ _ K HI) as I1.
  assert (type j1 <> SJB_VIDEO) as Ht1 by (by rewrite (ss_type _ _ SK)).
  assert (node_hash_ts j1 = None) as Hts1 by (apply (v_ts _ I1); by rewrite (ss_spf _ _ SK)).
  assert (Z.of_nat (length (node_list j1)) + 1 < 2 ^ 32) as Hlt1 by (by rewrite (k_length _ _ K)).
  pose proof (add_node_finds j1 p (Z.min len0 SWITCH_RTP_MAX_PACKET_LEN) (v_store _ I1) Hlt1 Ht1 Hts1) as HF.
  destruct (add_node_inv j1 p (Z.min len0 SWITCH_RTP_MAX_PACKET_LEN) I1 Hlt1) as (I2 & _ & S2).
  set (j2 := add_node j1 p _) in *. clearbody j2.
  assert (make_room j2 = Some j2) as ->.
  { unfold make_room. by rewrite (ss_flags _ _ S2), Fl, Hq. }
  exists j2. split; [done|]. setoid_rewrite by_seq_find. destruct HF as [[-> HN]|[(n & Hn & Hp & Hl) HO]].
  - right. destruct (new_node_full j1 (v_store _ I1) HN Ht1) as [F1 F2]. split_and!; [congruence|congruence|].
    intros s. destruct (reset_spec j1 (v_store _ I1)) as (R1 & R2 & R3 & _). rewrite empty_finds; [done|done|done|].
    by apply (ss_ts _ _ R2).
  - left. rewrite Hn, Hp, Hl. split; [done|]. intros s Hs'. by rewrite HO, (same_nodes_find _ _ s N).
Qed.
End theorems.

(** ** Sample runs *)

Section samples.

Definition sample_packet (n : Z) : switch_rtp_packet_t :=
  {| version := 2; m := false; seq := htons n; ts := htonl (160 * n); other := []; body := [] |}.

Definition sample_run (ty : switch_jb_type_t) (ops : list jb_op) : switch_jb_s (T := switch_inthash_t) :=
  default (switch_jb_create ty 1 10) (jb_run (switch_jb_create ty 1 10) ops).

Lemma sample_run_inv ty ops : Forall op_ok ops -> count is_put ops < 2 ^ 32 - 1 -> inv (sample_run ty ops).
Proof.
  intros Ho Hc. destruct (create_inv (T := switch_inthash_t) ty 1 10 ltac:(lia) ltac:(lia)) as [HI HN].
  destruct (run_inv ops _ HI Ho) as (jb & E & HJ); [rewrite HN; cbn; lia|]. unfold sample_run. by rewrite E.
Qed.

(** Five packets with one missing, the first one read. *)
Definition sample_audio : switch_jb_s :=
  sample_run SJB_AUDIO (map (fun n => OpPut (sample_packet n) 172) [1000; 1001; 1003; 1004] ++ [OpGet (sample_packet 0) 0]).

Definition sample_video : switch_jb_s :=
  sample_run SJB_VIDEO (map (fun n => OpPut (sample_packet n) 172) [1000; 1001; 1003; 1006] ++ [OpGet (sample_packet 0) 0]).

Definition sample_start : switch_jb_s :=
  sample_run SJB_VIDEO (map (fun n => OpPut (sample_packet n) 172) [1000; 1001; 1003; 1006]).

Lemma sample_audio_inv : inv sample_audio.
Proof. apply sample_run_inv; [by repeat constructor|done]. Qed.

Lemma sample_video_inv : inv sample_video.
Proof. apply sample_run_inv; [by repeat constructor|done]. Qed.

Lemma sample_start_inv : inv sample_start.
Proof. apply sample_run_inv; [by repeat constructor|done]. Qed.

Lemma jb_run_keeps_invariant_witness :
  exists jb, jb_run (switch_jb_create (T := switch_inthash_t) SJB_AUDIO 1 10)
    [OpPut (sample_packet 7) 172; OpGet (sample_packet 0) 0; OpReset] = Some jb /\ inv jb.
Proof.
  apply (jb_run_keeps_invariant SJB_AUDIO 1 10); [lia|lia|by repeat constructor|done].
Defined.

Lemma get_packet_in_order_witness :
  exists p' jb', switch_jb_get_packet sample_audio (sample_packet 0) 0 = Some (SWITCH_STATUS_SUCCESS, p', 172, jb')
  /\ target_seq jb' = htons 1002 /\ find_seq jb' (htons 1001) = None.
Proof.
  assert ((fun r => (r.1.1.1, r.1.2)) <$> switch_jb_get_packet sample_audio (sample_packet 0) 0
    = Some (SWITCH_STATUS_SUCCESS, 172)) as Er by (by vm_compute).
  destruct (switch_jb_get_packet sample_audio (sample_packet 0) 0) as [[[[st p'] l'] jb']|] eqn:E; [|done].
  injection Er as -> ->.
  exists p', jb'. split; [done|].
  destruct (get_packet_in_order sample_audio (sample_packet 0) 0 _ _ _ _ sample_audio_inv
    ltac:(by vm_compute) ltac:(by vm_compute) ltac:(by vm_compute) E) as (n & _ & _ & _ & _ & H1 & H2 & _).
  rewrite H1. assert (target_seq sample_audio = htons 1001) as Et by (by vm_compute).
  rewrite Et in *. split; [by vm_compute|exact H2].
Defined.

Lemma put_then_get_by_seq_witness :
  exists jb', switch_jb_put_packet sample_audio (sample_packet 1002) 172 = Some (SWITCH_STATUS_SUCCESS, jb').
Proof.
  destruct (put_then_get_by_seq sample_audio (sample_packet 1002) 172 sample_audio_inv) as (jb' & E & _);
    [by vm_compute|by vm_compute|by vm_compute|by vm_compute|by vm_compute|by exists jb'].
Defined.

Lemma pop_nack_reports_witness :
  exists jb', switch_jb_pop_nack sample_video 5000000 = Some (htons 1002 + htons 6 * 2 ^ 16, jb').
Proof.
  assert ((fun h => ih_find h 0) <$> missing_seq_hash sample_video = Some None) as Eh by (by vm_compute).
  destruct (missing_seq_hash sample_video) as [h|] eqn:Em; [|done]. injection Eh as Eh.
  destruct (pop_nack_reports sample_video 5000000 h sample_video_inv ltac:(lia) ltac:(by vm_compute) Em Eh)
    as (nack & h' & E & _).
  assert (fst <$> switch_jb_pop_nack sample_video 5000000 = Some (htons 1002 + htons 6 * 2 ^ 16)) as E' by (by vm_compute).
  rewrite E in E'. injection E' as ->. exact (ex_intro _ _ E).
Defined.

Lemma pop_nack_forgets_witness :
  exists jb', switch_jb_pop_nack sample_start 5000000 = Some (0, jb').
Proof.
  assert ((fun h => ih_find h 0) <$> missing_seq_hash sample_start = Some None) as Eh by (by vm_compute).
  destruct (missing_seq_hash sample_start) as [h|] eqn:Em; [|done]. injection Eh as Eh.
  assert (type sample_start = SJB_VIDEO) as Ht by (by vm_compute).
  assert (ntohs (target_seq sample_start) = 0 /\ frame_len sample_start = 1) as [E0 E1] by (split; by vm_compute).
  destruct (pop_nack_forgets sample_start 5000000 h sample_start_inv ltac:(lia) Ht Em Eh)
    as (h' & E & _); [rewrite E0, E1; lia|]. exact (ex_intro _ _ E).
Defined.

End samples.

End JbTheorems.
