(* ===== verification/Text.v ===== *)
(** * Strings (src/src/switch_utils.c, src/src/include/switch_utils.h)

    The string functions the other components use: the C library's comparison
    and number reading, the truth of a string, splitting a string at a
    delimiter with quotes and escapes, and escaping.  A C string is a Coq
    [string] without its terminating zero.  Splitting works in place in C; the
    model gives the strings the array points to afterwards, and no result where
    the code reads past the terminator. *)

From S2P Require Import Prelude.
From stdpp Require Import strings.
From Stdlib Require Import Ascii.

#[local] Open Scope string_scope.
#[local] Open Scope list_scope.
#[local] Open Scope Z_scope.

Module Text.

(** ** The C library *)

(** tolower in the C locale. *)
Definition tolower (c : ascii) : ascii :=
  let n := N_of_ascii c in
  if ((65 <=? n) && (n <=? 90))%N then ascii_of_N (n + 32) else c.

Fixpoint strcasecmp_eq (a b : string) : bool :=
  match a, b with
  | EmptyString, EmptyString => true
  | String x a, String y b => Ascii.eqb (tolower x) (tolower y) && strcasecmp_eq a b
  | _, _ => false
  end.

Definition digit_of (c : ascii) : option Z :=
  let n := N_of_ascii c in if ((48 <=? n) && (n <=? 57))%N then Some (Z.of_N n - 48) else None.

(** The value of the leading digits. *)
Fixpoint atoi_from (acc : Z) (s : string) : Z :=
  match s with
  | String c s => match digit_of c with Some d => atoi_from (acc * 10 + d) s | None => acc end
  | EmptyString => acc
  end.

Definition isspace (c : ascii) : bool :=
  let n := N_of_ascii c in ((9 <=? n) && (n <=? 13))%N || (n =? 32)%N.

Definition after_sign (s : string) : Z :=
  match s with
  | String c s' => if Ascii.eqb c "-" then - atoi_from 0 s' else if Ascii.eqb c "+" then atoi_from 0 s' else atoi_from 0 s
  | EmptyString => 0
  end.

(** Optional white space, a sign and digits; a value out of range, where C leaves
    the result open, is wrapped. *)
Fixpoint atoi (s : string) : Z :=
  match s with
  | String c s' => if isspace c then atoi s' else s32 (after_sign s)
  | EmptyString => 0
  end.

Fixpoint has_char (c : ascii) (s : string) : bool :=
  match s with String x s => Ascii.eqb x c || has_char c s | EmptyString => false end.

(** ** Numbers and truth values *)

Fixpoint number_chars (s : string) : bool :=
  match s with
  | String c s => (Ascii.eqb c "." || bool_decide (is_Some (digit_of c))) && number_chars s
  | EmptyString => true
  end.

Definition switch_is_number (str : string) : bool :=
  match str with
  | String c s => if Ascii.eqb c "-" || Ascii.eqb c "+" then number_chars s else number_chars str
  | EmptyString => true
  end.

(** [None] is a NULL pointer. *)
Definition switch_true (expr : option string) : bool :=
  match expr with
  | None => false
  | Some expr =>
      strcasecmp_eq expr "yes" || strcasecmp_eq expr "on" || strcasecmp_eq expr "true" || strcasecmp_eq expr "t"
      || strcasecmp_eq expr "enabled" || strcasecmp_eq expr "active" || strcasecmp_eq expr "allow"
      || (switch_is_number expr && negb (atoi expr =? 0))
  end.

Definition switch_false (expr : option string) : bool :=
  match expr with
  | None => false
  | Some expr =>
      strcasecmp_eq expr "no" || strcasecmp_eq expr "off" || strcasecmp_eq expr "false" || strcasecmp_eq expr "f"
      || strcasecmp_eq expr "disabled" || strcasecmp_eq expr "inactive" || strcasecmp_eq expr "disallow"
      || (switch_is_number expr && (atoi expr =? 0))
  end.

(** ** Escapes *)

Definition ESCAPE_META : ascii := "\".
Definition quote : ascii := "'".
Definition dquote : ascii := "034".
Definition blank : ascii := " ".
Definition nul : ascii := "000".

Definition unescape_char (escaped : ascii) : ascii :=
  if Ascii.eqb escaped "n" then "010"%char
  else if Ascii.eqb escaped "r" then "013"%char
  else if Ascii.eqb escaped "t" then "009"%char
  else if Ascii.eqb escaped "s" then blank
  else escaped.

(** The string left in [out]. *)
Fixpoint switch_escape_string (s : string) : string :=
  match s with
  | EmptyString => EmptyString
  | String c s =>
      let rest := switch_escape_string s in
      if Ascii.eqb c "010" then String ESCAPE_META (String "n" rest)
      else if Ascii.eqb c "013" then String ESCAPE_META (String "r" rest)
      else if Ascii.eqb c "009" then String ESCAPE_META (String "t" rest)
      else if Ascii.eqb c blank then String ESCAPE_META (String "s" rest)
      else if Ascii.eqb c "$" then String ESCAPE_META (String "$" rest)
      else String c rest
  end.

(** strstr: the text before the first occurrence and after it. *)
Fixpoint strstr (delim s : string) : option (string * string) :=
  if String.prefix delim s then Some ("", String.substring (String.length delim) (String.length s - String.length delim) s)
  else match s with EmptyString => None | String c s => '(a, b) ← strstr delim s; Some (String c a, b) end.

(** ** Splitting at a delimiter *)

(** The character after a backslash when the two stand for one character. *)
Definition escaped (delim e : ascii) : option ascii :=
  if Ascii.eqb e quote || Ascii.eqb e dquote || (negb (Ascii.eqb delim nul) && Ascii.eqb e delim) || Ascii.eqb e ESCAPE_META
  then Some e
  else if negb (Ascii.eqb (unescape_char e) e) then Some (unescape_char e)
  else None.

Fixpoint skip_blanks (s : string) : string :=
  match s with String c s' => if Ascii.eqb c blank then skip_blanks s' else s | EmptyString => EmptyString end.

(** The loop of cleanup_separated_string.  [out] holds the characters written,
    [end_] the length at which the string is cut. *)
Fixpoint cleanup_loop (delim : ascii) (inside_quotes : bool) (s out : string) (end_ : option nat) : string * option nat :=
  match s with
  | EmptyString => (out, end_)
  | String c s' =>
      let plain (_ : unit) :=
        if Ascii.eqb c quote && (inside_quotes || has_char quote s') then
          cleanup_loop delim (negb inside_quotes) s' out (if negb inside_quotes then Some (String.length out) else end_)
        else
          let out := out +:+ String c EmptyString in
          cleanup_loop delim inside_quotes s' out
            (if negb (Ascii.eqb c blank) || inside_quotes then Some (String.length out) else end_) in
      if Ascii.eqb c ESCAPE_META then
        match s' with
        | String e s'' =>
            match escaped delim e with
            | Some e => let out := out +:+ String e EmptyString in cleanup_loop delim inside_quotes s'' out (Some (String.length out))
            | None => plain tt
            end
        | EmptyString => plain tt
        end
      else plain tt
  end.

Definition cleanup_separated_string (str : string) (delim : ascii) : string :=
  let s := skip_blanks str in
  match cleanup_loop delim false s EmptyString None with
  | (out, Some n) => String.substring 0 n out
  | (_, None) => s
  end.

(** State FIND_DELIM: the characters up to the delimiter, and the rest after it if
    there is one. *)
Fixpoint find_delim (delim : ascii) (inside_quotes : bool) (s : string) : option (string * option string) :=
  match s with
  | EmptyString => Some (EmptyString, None)
  | String c s' =>
      let keep (pre : string) (r : option (string * option string)) :=
        match r with Some (t, rest) => Some (pre +:+ t, rest) | None => None end in
      if Ascii.eqb c ESCAPE_META then
        match s' with
        | String e s'' => keep (String c (String e EmptyString)) (find_delim delim inside_quotes s'')
        | EmptyString => None
        end
      else if Ascii.eqb c quote && (inside_quotes || has_char quote s') then
        keep (String c EmptyString) (find_delim delim (negb inside_quotes) s')
      else if Ascii.eqb c delim && negb inside_quotes then Some (EmptyString, Some s')
      else keep (String c EmptyString) (find_delim delim inside_quotes s')
  end.

(** The last place of the array takes the rest of the string as it is. *)
Fixpoint char_tokens (delim : ascii) (arraylen : nat) (s : string) : option (list string) :=
  match arraylen, s with
  | O, _ | _, EmptyString => Some []
  | S O, _ => Some [s]
  | S n, _ =>
      match find_delim delim false s with
      | Some (t, Some rest) => match char_tokens delim n rest with Some l => Some (t :: l) | None => None end
      | Some (t, None) => Some [t]
      | None => None
      end
  end.

Definition separate_string_char_delim (buf : string) (delim : ascii) (arraylen : nat) : option (list string) :=
  match char_tokens delim arraylen buf with
  | Some l => Some (map (fun t => cleanup_separated_string t delim) l)
  | None => None
  end.

(** The same with a blank as delimiter: a quote always counts, and runs of blanks
    separate. *)
Fixpoint find_blank (inside_quotes : bool) (s : string) : option (string * option string) :=
  match s with
  | EmptyString => Some (EmptyString, None)
  | String c s' =>
      let keep (pre : string) (r : option (string * option string)) :=
        match r with Some (t, rest) => Some (pre +:+ t, rest) | None => None end in
      if Ascii.eqb c ESCAPE_META then
        match s' with
        | String e s'' => keep (String c (String e EmptyString)) (find_blank inside_quotes s'')
        | EmptyString => None
        end
      else if Ascii.eqb c quote then keep (String c EmptyString) (find_blank (negb inside_quotes) s')
      else if Ascii.eqb c blank && negb inside_quotes then Some (EmptyString, Some s')
      else keep (String c EmptyString) (find_blank inside_quotes s')
  end.

(** The blanks before a token belong to it and are cleaned up. *)
Fixpoint blank_tokens (arraylen : nat) (s : string) : option (list string) :=
  match arraylen, s with
  | O, _ | _, EmptyString => Some []
  | S O, _ => Some [s]
  | S n, _ =>
      match find_blank false (skip_blanks s) with
      | Some (t, Some rest) => match blank_tokens n (skip_blanks rest) with Some l => Some (t :: l) | None => None end
      | Some (t, None) => Some [t]
      | None => None
      end
  end.

Definition separate_string_blank_delim (buf : string) (arraylen : nat) : option (list string) :=
  match blank_tokens arraylen buf with
  | Some l => Some (map (fun t => cleanup_separated_string t nul) l)
  | None => None
  end.

(** "^^" and a character at the start replace the delimiter. *)
Definition switch_separate_string (buf : option string) (delim : ascii) (arraylen : nat) : option (list string) :=
  match buf with
  | None => Some []
  | Some buf =>
      if (arraylen =? 0)%nat then Some []
      else
        let '(buf, delim) :=
          match buf with
          | String c1 (String c2 (String d (String _ _ as rest))) =>
              if Ascii.eqb c1 "^" && Ascii.eqb c2 "^" then (rest, d) else (buf, delim)
          | _ => (buf, delim)
          end in
        if Ascii.eqb delim blank then separate_string_blank_delim buf arraylen
        else separate_string_char_delim buf delim arraylen
  end.

Example separate_1 : switch_separate_string (Some "a, 'b,c' ,d\,e,") "," 8 = Some ["a"; "b,c"; "d,e"].
Proof. reflexivity. Qed.
Example separate_2 : switch_separate_string (Some "^^;a;b;c") "," 2 = Some ["a"; "b;c"].
Proof. reflexivity. Qed.
Example separate_3 : switch_separate_string (Some "  a 'b c'   d ") " " 8 = Some ["a"; "b c"; "d"].
Proof. reflexivity. Qed.
Example separate_4 : switch_separate_string (Some "a\") "," 8 = None.
Proof. reflexivity. Qed.

(** ** Properties *)

Lemma append_nil s : s +:+ "" = s.
Proof. induction s as [|c s IH]; [done|]. exact (f_equal (String c) IH). Qed.

Lemma append_assoc s t u : (s +:+ t) +:+ u = s +:+ (t +:+ u).
Proof. induction s as [|c s IH]; [done|]. exact (f_equal (String c) IH). Qed.

Lemma append_length a b : String.length (a +:+ b) = (String.length a + String.length b)%nat.
Proof. induction a as [|c a IH]; [done|]. exact (f_equal S IH). Qed.

Lemma substring_all s : String.substring 0 (String.length s) s = s.
Proof. induction s as [|c s IH]; [done|]. exact (f_equal (String c) IH). Qed.

Fixpoint lower (s : string) : string :=
  match s with String c s => String (tolower c) (lower s) | EmptyString => EmptyString end.

Lemma strcasecmp_lower a b : strcasecmp_eq a b = true <-> lower a = lower b.
Proof.
  revert b. induction a as [|x a IH]; intros [|y b]; simpl; try done.
  rewrite andb_true_iff, IH, Ascii.eqb_eq. split; [intros [-> ->]; done|by intros [= -> ->]].
Qed.

Lemma strcasecmp_r r a b : lower a = lower b -> strcasecmp_eq r a = strcasecmp_eq r b.
Proof.
  intros H. destruct (strcasecmp_eq r b) eqn:E.
  - rewrite strcasecmp_lower in *. congruence.
  - destruct (strcasecmp_eq r a) eqn:E'; [|done]. rewrite <- E. symmetry. rewrite strcasecmp_lower in *. congruence.
Qed.

Lemma strcasecmp_sym a b : strcasecmp_eq a b = strcasecmp_eq b a.
Proof. apply eq_true_iff_eq. rewrite !strcasecmp_lower. by split. Qed.

Lemma strcasecmp_l r a b : lower a = lower b -> strcasecmp_eq a r = strcasecmp_eq b r.
Proof. intros H. rewrite !(strcasecmp_sym _ r). by apply strcasecmp_r. Qed.

(** Delimiters that no escape sequence contains. *)
Definition delim_ok (delim : ascii) : bool :=
  negb (existsb (Ascii.eqb delim) [nul; ESCAPE_META; quote; blank; "n"; "r"; "t"; "s"]%char).

(** Strings without the characters that quote and escape. *)
Fixpoint plain (delim : ascii) (s : string) : bool :=
  match s with
  | EmptyString => true
  | String c s => negb (existsb (Ascii.eqb c) [ESCAPE_META; quote; "$"%char; delim]) && plain delim s
  end.

(** What is known of one character of an escaped string. *)
Lemma plain_char delim c s :
  plain delim (String c s) = true ->
  Ascii.eqb c ESCAPE_META = false /\ Ascii.eqb c quote = false /\ Ascii.eqb c "$" = false /\ Ascii.eqb c delim = false
  /\ plain delim s = true.
Proof. cbn [plain existsb]. rewrite andb_true_iff, negb_true_iff, !orb_false_iff. naive_solver. Qed.

Lemma delim_chars delim :
  delim_ok delim = true -> Ascii.eqb delim nul = false /\ Ascii.eqb delim blank = false
  /\ forall e, e ∈ ["n"; "r"; "t"; "s"]%char -> Ascii.eqb e delim = false.
Proof.
  unfold delim_ok. cbn [existsb]. rewrite negb_true_iff, !orb_false_iff. intros H. split_and!; [apply H|apply H|].
  intros e He. rewrite Ascii.eqb_sym. repeat (apply elem_of_cons in He as [->|He]; [apply H|]). by apply elem_of_nil in He.
Qed.

(** An escaped string starts with a plain character or a two-character escape of
    the first character. *)
Lemma escape_cases delim c w :
  delim_ok delim = true -> plain delim (String c w) = true ->
  (exists e, switch_escape_string (String c w) = String ESCAPE_META (String e (switch_escape_string w)) /\ escaped delim e = Some c)
  \/ (switch_escape_string (String c w) = String c (switch_escape_string w) /\ Ascii.eqb c blank = false).
Proof.
  intros Hd Hp. destruct (plain_char _ _ _ Hp) as (H1 & H2 & H3 & H4 & _). destruct (delim_chars _ Hd) as (Hn & _ & He).
  cbn [switch_escape_string]. rewrite H3. unfold escaped. rewrite Hn. cbn [negb andb].
  destruct (Ascii.eqb_spec c "010") as [->|_]; [left; exists "n"%char; by rewrite He by set_solver|].
  destruct (Ascii.eqb_spec c "013") as [->|_]; [left; exists "r"%char; by rewrite He by set_solver|].
  destruct (Ascii.eqb_spec c "009") as [->|_]; [left; exists "t"%char; by rewrite He by set_solver|].
  destruct (Ascii.eqb_spec c blank) as [->|_]; [left; exists "s"%char; by rewrite He by set_solver|by right].
Qed.

Lemma find_delim_escaped delim w s rest :
  delim_ok delim = true -> plain delim w = true ->
  find_delim delim false s = Some ("", rest) ->
  find_delim delim false (switch_escape_string w +:+ s) = Some (switch_escape_string w, rest).
Proof.
  intros Hd Hp Hs. induction w as [|c w IH]; [done|].
  destruct (plain_char _ _ _ Hp) as (H1 & H2 & _ & H4 & Hw). specialize (IH Hw).
  destruct (escape_cases delim c w Hd Hp) as [(e & -> & _)|[-> _]]; simpl; [by rewrite IH|by rewrite H1, H2, H4, IH].
Qed.

Lemma skip_escaped delim w : delim_ok delim = true -> plain delim w = true -> skip_blanks (switch_escape_string w) = switch_escape_string w.
Proof.
  intros Hd Hp. destruct w as [|c w]; [done|]. destruct (escape_cases delim c w Hd Hp) as [(e & -> & _)|[-> Hb]]; [done|].
  simpl. by rewrite Hb.
Qed.

Lemma cleanup_loop_escaped delim w out end_ :
  delim_ok delim = true -> plain delim w = true ->
  cleanup_loop delim false (switch_escape_string w) out end_
  = (out +:+ w, match w with EmptyString => end_ | _ => Some (String.length (out +:+ w)) end).
Proof.
  intros Hd. revert out end_. induction w as [|c w IH]; intros out end_ Hp; [by rewrite append_nil|].
  destruct (plain_char _ _ _ Hp) as (H1 & H2 & _ & _ & Hw).
  assert (forall o, cleanup_loop delim false (switch_escape_string w) (o +:+ String c "") (Some (String.length (o +:+ String c "")))
    = (o +:+ String c w, Some (String.length (o +:+ String c w)))) as HI.
  { intros o. rewrite IH by done. rewrite append_assoc. cbn. by destruct w. }
  destruct (escape_cases delim c w Hd Hp) as [(e & -> & He)|[-> Hb]]; cbn [cleanup_loop].
  - rewrite Ascii.eqb_refl, He. apply HI.
  - rewrite H1, H2, Hb. cbn [andb orb negb]. apply HI.
Qed.

Lemma cleanup_escaped delim w :
  delim_ok delim = true -> plain delim w = true -> cleanup_separated_string (switch_escape_string w) delim = w.
Proof.
  intros Hd Hp. unfold cleanup_separated_string. rewrite (skip_escaped delim) by done.
  rewrite cleanup_loop_escaped by done. destruct w as [|c w]; [done|]. apply substring_all.
Qed.

(** The strings with the delimiter between them. *)
Definition joined (delim : ascii) (ws : list string) : string := String.concat (String delim "") (map switch_escape_string ws).

Lemma joined_nonempty delim w ws : last (w :: ws) <> Some "" -> joined delim (w :: ws) <> "".
Proof.
  unfold joined. destruct ws as [|w' ws]; cbn [map String.concat last].
  - destruct w as [|c w]; [done|]. cbn [switch_escape_string]. by repeat case_match.
  - intros _. by destruct (switch_escape_string w).
Qed.

Lemma char_tokens_joined delim n ws :
  delim_ok delim = true -> forallb (plain delim) ws = true -> last ws <> Some "" -> (length ws <= n)%nat ->
  char_tokens delim n (joined delim ws) = Some (map switch_escape_string ws).
Proof.
  intros Hd. revert n. induction ws as [|w ws IH]; intros n HF HL Hn; [by destruct n as [|[]]|].
  cbn [forallb] in HF. apply andb_true_iff in HF as [Hw HF]. cbn [length] in Hn.
  pose proof (joined_nonempty delim w ws HL) as HN. destruct n as [|n]; [lia|].
  assert (forall m, char_tokens delim (S m) (joined delim (w :: ws)) =
    match m with
    | O => Some [joined delim (w :: ws)]
    | S _ => match find_delim delim false (joined delim (w :: ws)) with
             | Some (t, Some rest) => match char_tokens delim m rest with Some l => Some (t :: l) | None => None end
             | Some (t, None) => Some [t] | None => None end
    end) as ->. { intros m. cbn [char_tokens]. by destruct (joined delim (w :: ws)), m. }
  destruct ws as [|w' ws].
  - unfold joined. cbn [map String.concat]. destruct n; [done|].
    rewrite <- (append_nil (switch_escape_string w)) at 1. by rewrite (find_delim_escaped delim w "" None).
  - cbn [length] in Hn. destruct n as [|n]; [lia|].
    change (joined delim (w :: w' :: ws)) with (switch_escape_string w +:+ String delim (joined delim (w' :: ws))).
    rewrite (find_delim_escaped delim w _ (Some (joined delim (w' :: ws)))); [|done|done|].
    + rewrite IH; [done|done|exact HL|cbn; lia].
    + unfold delim_ok in Hd. cbn [existsb] in Hd. rewrite negb_true_iff, !orb_false_iff in Hd. cbn [find_delim].
      destruct Hd as (_ & -> & -> & _). by rewrite Ascii.eqb_refl.
Qed.

(** Splitting undoes escaping.  A list of strings that have been escaped by
    switch_escape_string and joined with a delimiter is read back unchanged by
    switch_separate_string, white space at any place included: for strings
    without backslash, quote, $ and the delimiter, when the last one is not
    empty, the array is large enough and the text does not start with ^^. *)
Theorem separate_escaped delim n ws :
  delim_ok delim = true -> forallb (plain delim) ws = true -> last ws <> Some "" -> (length ws <= n)%nat ->
  String.prefix "^^" (joined delim ws) = false ->
  switch_separate_string (Some (joined delim ws)) delim n = Some ws.
Proof.
  intros Hd HF HL Hn HP. unfold switch_separate_string.
  destruct (Nat.eqb_spec n 0) as [->|_]; [destruct ws; [done|cbn in Hn; lia]|].
  assert (match joined delim ws with
          | String c1 (String c2 (String d (String _ _ as rest))) =>
              if Ascii.eqb c1 "^" && Ascii.eqb c2 "^" then (rest, d) else (joined delim ws, delim)
          | _ => (joined delim ws, delim)
          end = (joined delim ws, delim)) as ->.
  { destruct (joined delim ws) as [|c1 [|c2 [|d [|x s]]]]; [done..|].
    destruct (Ascii.eqb_spec c1 "^") as [->|], (Ascii.eqb_spec c2 "^") as [->|]; done. }
  destruct (delim_chars _ Hd) as (_ & -> & _). unfold separate_string_char_delim.
  rewrite char_tokens_joined by done. f_equal. rewrite map_map. rewrite <- (map_id ws) at 2. apply map_ext_in.
  intros w Hw. rewrite forallb_forall in HF. apply cleanup_escaped; auto.
Qed.

Lemma separate_escaped_witness :
  switch_separate_string (Some "a\sb\t,,\sc") "," 4 = Some ["a b	"; ""; " c"].
Proof. apply (separate_escaped "," 4 ["a b	"; ""; " c"]); vm_compute; try reflexivity; [discriminate|lia]. Defined.

End Text.
