(* ===== verification/Base64.v ===== *)
(** * Base64 (src/src/switch_utils.c)

    switch_b64_encode and switch_b64_decode work on buffers whose sizes they are
    given.  The model keeps the 32-bit accumulators, the bit counters and every
    test of the output size; a write outside the output buffer, or a read
    outside the reverse table, gives no result.  The counter [y] of
    switch_b64_encode has no effect and is left out. *)

From S2P Require Import Prelude.
From stdpp Require Import strings.
From Stdlib Require Import Ascii.

#[local] Open Scope string_scope.
#[local] Open Scope list_scope.
#[local] Open Scope Z_scope.

Module Base64.

Fixpoint codes (s : string) : list Z :=
  match s with String c s => Z.of_N (N_of_ascii c) :: codes s | EmptyString => [] end.

Definition switch_b64_table : list Z :=
  Eval vm_compute in codes "ABCDEFGHIJKLMNOPQRSTUVWXYZabcdefghijklmnopqrstuvwxyz0123456789+/".

(** [switch_b64_table[i]] for an index below 64. *)
Definition b64_char (i : Z) : Z := default 0 (switch_b64_table !! Z.to_nat i).

Definition pad : Z := 61.

(** [out[bytes++] = c] in a buffer of [olen] bytes of which the first have been
    written. *)
Definition put_byte (olen : Z) (out : list Z) (c : Z) : option (list Z) :=
  if Z.of_nat (length out) <? olen then Some (out ++ [c]) else None.

(** ** Encoding *)

(** The inner loop: the remaining bits, the output, and whether the buffer is
    full.  Two passes at most. *)
Fixpoint emit (fuel : nat) (olen b l : Z) (out : list Z) : option (Z * list Z * bool) :=
  match fuel with
  | O => None
  | S fuel =>
      if l >=? 6 then
        let l := l - 6 in
        out ← put_byte olen out (b64_char (Z.shiftr b l mod 64));
        if Z.of_nat (length out) >=? s32 olen - 1 then Some (l, out, true) else emit fuel olen b l out
      else Some (l, out, false)
  end.

Fixpoint pad_loop (fuel : nat) (olen l : Z) (out : list Z) : option (list Z) :=
  match fuel with
  | O => None
  | S fuel =>
      if (l <? 6) && (Z.of_nat (length out) <? s32 olen - 1) then out ← put_byte olen out pad; pad_loop fuel olen (l + 2) out
      else Some out
  end.

Definition encode_tail (olen b l : Z) (out : list Z) : option (list Z) :=
  out ← (if l >? 0 then put_byte olen out (b64_char (Z.shiftl (b mod 16) (6 - l) mod 64)) else Some out);
  if negb (l =? 0) then pad_loop 4 olen l out else Some out.

Fixpoint encode_loop (olen b l : Z) (inp : list Z) (out : list Z) : option (list Z) :=
  match inp with
  | [] => encode_tail olen b l out
  | x :: inp =>
      let b := u32 (Z.shiftl b 8 + x) in
      match emit 3 olen b (l + 8) out with
      | Some (l, out, full) => if full : bool then Some out else encode_loop olen b l inp out
      | None => None
      end
  end.

(** The bytes written, the terminating zero included. *)
Definition switch_b64_encode (inp : list Z) (olen : Z) : option (list Z) :=
  out ← encode_loop olen 0 0 inp []; put_byte olen out 0.

(** ** Decoding *)

(** [l64[c]]; the index is a signed char. *)
Definition l64 (c : Z) : option Z :=
  if s8 c <? 0 then None
  else Some (match list_find (fun x => x = c) switch_b64_table with Some (i, _) => Z.of_nat i | None => -1 end).

Fixpoint drain (fuel : nat) (olen b l : Z) (out : list Z) : option (Z * list Z * bool) :=
  match fuel with
  | O => None
  | S fuel =>
      if l >=? 8 then
        let l := l - 8 in
        out ← put_byte olen out (u8 (Z.rem (Z.shiftr b l) 256));
        if Z.of_nat (length out) >=? u64 (olen - 1) then Some (l, out, true) else drain fuel olen b l out
      else Some (l, out, false)
  end.

Fixpoint decode_loop (olen b l : Z) (inp : list Z) (out : list Z) : option (list Z) :=
  match inp with
  | [] => Some out
  | x :: inp =>
      match l64 x with
      | None => None
      | Some c =>
          if c =? -1 then decode_loop olen b l inp out
          else
            let b := s32 (Z.shiftl b 6 + c) in
            match drain 2 olen b (l + 6) out with
            | Some (l, out, full) => if full : bool then Some out else decode_loop olen b l inp out
            | None => None
            end
      end
  end.

(** The bytes written, the terminating zero included; their number is returned. *)
Definition switch_b64_decode (inp : list Z) (olen : Z) : option (list Z) :=
  out ← decode_loop olen 0 0 inp []; put_byte olen out 0.

Example encode_1 : switch_b64_encode (codes "hello") 100 = Some (codes "aGVsbG8=" ++ [0]).
Proof. reflexivity. Qed.
Example decode_1 : switch_b64_decode (codes "aGVsbG8=") 100 = Some (codes "hello" ++ [0]).
Proof. reflexivity. Qed.
Example decode_2 : switch_b64_decode (codes "aGV sbG8=") 4 = Some (codes "hel" ++ [0]).
Proof. reflexivity. Qed.

(** ** Reference *)

(** The encoding of RFC 4648, three bytes at a time. *)
Fixpoint rfc4648 (inp : list Z) : list Z :=
  match inp with
  | [] => []
  | [x] => [b64_char (x / 4); b64_char (x mod 4 * 16); pad; pad]
  | [x; y] => [b64_char (x / 4); b64_char (x mod 4 * 16 + y / 16); b64_char (y mod 16 * 4); pad]
  | x :: y :: z :: inp =>
      b64_char (x / 4) :: b64_char (x mod 4 * 16 + y / 16) :: b64_char (y mod 16 * 4 + z / 64) :: b64_char (z mod 64) :: rfc4648 inp
  end.

Definition byte (x : Z) : Prop := 0 <= x < 256.

(** Induction three elements at a time. *)
Lemma list_ind3 {A} (P : list A -> Prop) :
  P [] -> (forall x, P [x]) -> (forall x y, P [x; y]) -> (forall x y z l, P l -> P (x :: y :: z :: l)) -> forall l, P l.
Proof.
  intros H0 H1 H2 H3. fix go 1. intros [|x [|y [|z l]]]; [apply H0|apply H1|apply H2|apply H3, go].
Qed.

(** *** Bits of the accumulators *)

Lemma acc_bits b x : byte x -> u32 (Z.shiftl b 8 + x) mod 256 = x /\ u32 (Z.shiftl b 8 + x) mod 4096 = b mod 16 * 256 + x.
Proof. unfold byte, u32. rewrite Z.shiftl_mul_pow2 by lia. intros. split; dlia. Qed.

Lemma first_bits b x : byte x -> Z.shiftr (u32 (Z.shiftl b 8 + x)) 2 mod 64 = x / 4.
Proof. intros H. destruct (acc_bits b x H) as [E _]. rewrite Z.shiftr_div_pow2 by lia. unfold byte in H. dlia. Qed.

Lemma second_bits b y : byte y -> Z.shiftr (u32 (Z.shiftl b 8 + y)) 4 mod 64 = b mod 4 * 16 + y / 16.
Proof. intros H. destruct (acc_bits b y H) as [_ E]. rewrite Z.shiftr_div_pow2 by lia. unfold byte in H. dlia. Qed.

Lemma third_bits b z : byte z -> Z.shiftr (u32 (Z.shiftl b 8 + z)) 6 mod 64 = b mod 16 * 4 + z / 64.
Proof. intros H. destruct (acc_bits b z H) as [_ E]. rewrite Z.shiftr_div_pow2 by lia. unfold byte in H. dlia. Qed.

Lemma acc_low_bits b x k : byte x -> k = 4 \/ k = 16 \/ k = 64 -> u32 (Z.shiftl b 8 + x) mod k = x mod k.
Proof. intros H Hk. destruct (acc_bits b x H) as [E _]. destruct Hk as [->|[->| ->]]; unfold byte in H; dlia. Qed.

Lemma tail_bits b x (b' := u32 (Z.shiftl b 8 + x)) :
  byte x -> Z.shiftl (b' mod 16) (2 * Z.of_nat 2) mod 64 = x mod 4 * 16 /\ Z.shiftl (b' mod 16) (2 * Z.of_nat 1) mod 64 = x mod 16 * 4.
Proof.
  intros H. rewrite !Z.shiftl_mul_pow2 by lia. subst b'. rewrite (acc_low_bits b x 16) by auto.
  change (2 ^ (2 * Z.of_nat 2)) with 16. change (2 ^ (2 * Z.of_nat 1)) with 4. unfold byte in H. split; dlia.
Qed.

(** *** Output within the buffer *)

(** What remains of [out ++ rest] in a buffer of [olen] bytes. *)
Definition fits (olen : Z) (l : list Z) : list Z := take (Z.to_nat (olen - 1)) l.

Lemma put_room olen out c : Z.of_nat (length out) < olen - 1 -> put_byte olen out c = Some (out ++ [c]).
Proof. intros H. unfold put_byte. rewrite (proj2 (Z.ltb_lt _ _)); [done|lia]. Qed.

(** A full buffer holds what fits. *)
Lemma full_fits olen out c rest :
  Z.of_nat (length out) < olen - 1 -> Z.of_nat (length (out ++ [c])) >= olen - 1 -> out ++ [c] = fits olen (out ++ c :: rest).
Proof.
  rewrite length_app. cbn [length]. intros H1 H2. unfold fits. change (c :: rest) with ([c] ++ rest).
  rewrite app_assoc, take_app_length'; [done|]. rewrite length_app. cbn. lia.
Qed.

Lemma room_fits olen out : Z.of_nat (length out) < olen - 1 -> out = fits olen out.
Proof. intros H. unfold fits. rewrite take_ge; [done|lia]. Qed.

Section encode.
Context (olen : Z) (Holen : 2 <= olen < 2 ^ 31).

Lemma emit_step fuel b l out :
  6 <= l -> Z.of_nat (length out) < olen - 1 ->
  emit (S fuel) olen b l out =
    if Z.of_nat (length (out ++ [b64_char (Z.shiftr b (l - 6) mod 64)])) >=? olen - 1
    then Some (l - 6, out ++ [b64_char (Z.shiftr b (l - 6) mod 64)], true)
    else emit fuel olen b (l - 6) (out ++ [b64_char (Z.shiftr b (l - 6) mod 64)]).
Proof using Holen.
  intros Hl Ho. cbn [emit]. rewrite (Z.geb_leb l 6), (proj2 (Z.leb_le _ _)) by lia. cbv zeta.
  rewrite put_room by done. cbn [mbind option_bind]. by rewrite s32_small by lia.
Qed.

Lemma emit_stop fuel b l out : l < 6 -> emit (S fuel) olen b l out = Some (l, out, false).
Proof using Type. intros H. cbn [emit]. rewrite (Z.geb_leb l 6). by rewrite (proj2 (Z.leb_gt _ _)) by lia. Qed.

(** One character: the buffer is full with what fits, or the rest goes on. *)
Lemma emit_one fuel b l out rest (k : Z * list Z * bool -> option (list Z)) :
  6 <= l -> Z.of_nat (length out) < olen - 1 -> (forall l' o, k (l', o, true) = Some o) ->
  (let out' := out ++ [b64_char (Z.shiftr b (l - 6) mod 64)] in
   Z.of_nat (length out') < olen - 1 -> (emit fuel olen b (l - 6) out' ≫= k) = Some (fits olen (out' ++ rest))) ->
  (emit (S fuel) olen b l out ≫= k) = Some (fits olen (out ++ b64_char (Z.shiftr b (l - 6) mod 64) :: rest)).
Proof using Holen.
  intros Hl Ho Hk H. rewrite emit_step by done. cbv zeta in H. rewrite (Z.geb_leb _ (olen - 1)).
  destruct (Z.leb_spec (olen - 1) (Z.of_nat (length (out ++ [b64_char (Z.shiftr b (l - 6) mod 64)])))) as [Hf|Hf].
  - cbn [mbind option_bind]. rewrite Hk. f_equal. apply full_fits; [done|lia].
  - rewrite H by done. by rewrite <- app_assoc.
Qed.

Definition next_byte b inp := fun r : Z * list Z * bool => let '(l, out, full) := r in if full : bool then Some out else encode_loop olen b l inp out.

Lemma encode_cons b l x inp out :
  encode_loop olen b l (x :: inp) out
  = emit 3 olen (u32 (Z.shiftl b 8 + x)) (l + 8) out ≫= next_byte (u32 (Z.shiftl b 8 + x)) inp.
Proof. cbn [encode_loop]. cbv zeta. by destruct (emit _ _ _ _ _) as [[[]]|]. Qed.

Lemma pad_loop_spec n fuel l out :
  l = 6 - 2 * Z.of_nat n -> (n < fuel)%nat -> Z.of_nat (length out) <= olen - 1 ->
  pad_loop fuel olen l out = Some (fits olen (out ++ replicate n pad)).
Proof using Holen.
  revert fuel l out. induction n as [|n IH]; intros fuel l out -> Hf Ho; (destruct fuel as [|fuel]; [lia|]); cbn [pad_loop].
  - cbn. rewrite app_nil_r. unfold fits. rewrite take_ge; [done|lia].
  - rewrite s32_small by lia. rewrite (proj2 (Z.ltb_lt (6 - 2 * Z.of_nat (S n)) 6)) by lia. cbn [andb].
    destruct (Z.ltb_spec (Z.of_nat (length out)) (olen - 1)) as [Hr|Hr].
    + rewrite put_room by done. cbn [mbind option_bind]. rewrite IH; [|lia|lia|rewrite length_app; cbn; lia].
      cbn [replicate]. by rewrite <- app_assoc.
    + unfold fits. rewrite take_app_le by lia. rewrite take_ge by lia. done.
Qed.

Lemma tail_spec n b out :
  n = 1%nat \/ n = 2%nat -> Z.of_nat (length out) < olen - 1 ->
  encode_tail olen b (6 - 2 * Z.of_nat n) out
  = Some (fits olen (out ++ b64_char (Z.shiftl (b mod 16) (2 * Z.of_nat n) mod 64) :: replicate n pad)).
Proof using Holen.
  intros Hn Ho. unfold encode_tail. rewrite (Z.gtb_ltb _ 0). rewrite (proj2 (Z.ltb_lt _ _)) by lia.
  rewrite put_room by done. cbn [mbind option_bind]. rewrite (proj2 (Z.eqb_neq _ _)) by lia. cbn [negb].
  rewrite (pad_loop_spec n); [|done|lia|rewrite length_app; cbn; lia].
  replace (6 - (6 - 2 * Z.of_nat n)) with (2 * Z.of_nat n) by lia. by rewrite <- app_assoc.
Qed.

Lemma encode_loop_rfc inp : forall b out,
  Forall byte inp -> Z.of_nat (length out) < olen - 1 ->
  encode_loop olen b 0 inp out = Some (fits olen (out ++ rfc4648 inp)).
Proof using Holen.
  induction inp as [|x|x y|x y z inp IH] using list_ind3; intros b out HF Ho.
  - cbn. rewrite app_nil_r. f_equal. by apply room_fits.
  - inversion HF as [|? ? Hx _]; subst. cbn [rfc4648]. rewrite <- (first_bits b x Hx).
    rewrite encode_cons. apply (emit_one 2 _ 8); [lia|done|done|]. intros out1 H1. rewrite emit_stop by lia.
    cbn [mbind option_bind next_byte encode_loop]. change (8 - 6) with (6 - 2 * Z.of_nat 2). rewrite tail_spec by auto.
    by rewrite (proj1 (tail_bits b x Hx)).
  - inversion HF as [|? ? Hx HF']; subst. inversion HF' as [|? ? Hy _]; subst. cbn [rfc4648].
    rewrite encode_cons. rewrite <- (first_bits b x Hx). apply (emit_one 2 _ 8); [lia|done|done|]. intros out1 H1.
    rewrite emit_stop by lia. cbn [mbind option_bind next_byte]. set (b1 := u32 (Z.shiftl b 8 + x)).
    assert (b1 mod 4 = x mod 4) as <- by (apply acc_low_bits; auto). rewrite <- (second_bits b1 y Hy).
    rewrite encode_cons. apply (emit_one 2 _ 10); [lia|done|done|]. intros out2 H2. rewrite emit_stop by lia.
    cbn [mbind option_bind next_byte encode_loop]. change (8 - 6 + 8 - 6) with (6 - 2 * Z.of_nat 1).
    change (10 - 6) with (6 - 2 * Z.of_nat 1). rewrite tail_spec by auto.
    by rewrite (proj2 (tail_bits b1 y Hy)).
  - inversion HF as [|? ? Hx HF']; subst. inversion HF' as [|? ? Hy HF'']; subst. inversion HF'' as [|? ? Hz HF3]; subst.
    cbn [rfc4648]. rewrite encode_cons. rewrite <- (first_bits b x Hx). apply (emit_one 2 _ 8); [lia|done|done|]. intros out1 H1.
    rewrite emit_stop by lia. cbn [mbind option_bind next_byte]. set (b1 := u32 (Z.shiftl b 8 + x)).
    assert (b1 mod 4 = x mod 4) as <- by (apply acc_low_bits; auto). rewrite <- (second_bits b1 y Hy).
    rewrite encode_cons. apply (emit_one 2 _ 10); [lia|done|done|]. intros out2 H2. rewrite emit_stop by lia.
    cbn [mbind option_bind next_byte]. set (b2 := u32 (Z.shiftl b1 8 + y)).
    assert (b2 mod 16 = y mod 16) as <- by (apply acc_low_bits; auto). rewrite <- (third_bits b2 z Hz).
    rewrite encode_cons. apply (emit_one 2 _ 12); [lia|done|done|]. intros out3 H3.
    rewrite <- (acc_low_bits b2 z 64 Hz) by auto. rewrite <- (Z.shiftr_0_r (u32 (Z.shiftl b2 8 + z))) at 2.
    apply (emit_one 1 _ 6); [lia|done|done|]. intros out4 H4. rewrite emit_stop by lia. cbn [mbind option_bind next_byte].
    by apply IH.
Qed.

End encode.

(** *** Decoding *)

Lemma l64_char i : 0 <= i < 64 -> l64 (b64_char i) = Some i.
Proof.
  intros H. assert (forallb (fun n => bool_decide (l64 (b64_char (Z.of_nat n)) = Some (Z.of_nat n))) (seq 0 64) = true) as HF
    by (by vm_compute). rewrite forallb_forall in HF. specialize (HF (Z.to_nat i)).
  rewrite bool_decide_eq_true, Z2Nat.id in HF by lia. apply HF, in_seq. lia.
Qed.

Lemma byte_out b k : k = 0 \/ k = 2 \/ k = 4 -> u8 (Z.rem (Z.shiftr b k) 256) = b / 2 ^ k mod 256.
Proof.
  intros Hk. rewrite Z.shiftr_div_pow2 by lia. set (a := b / 2 ^ k). clearbody a. unfold u8. change (2 ^ 8) with 256. dlia.
Qed.

Lemma acc6_bits b i : 0 <= i < 64 -> s32 (Z.shiftl b 6 + i) mod 64 = i /\ s32 (Z.shiftl b 6 + i) mod 4096 = b mod 64 * 64 + i.
Proof. unfold s32. rewrite Z.shiftl_mul_pow2 by lia. intros. split; dlia. Qed.

Section decode.
Context (olen : Z) (Holen : 2 <= olen < 2 ^ 64).

Lemma drain_stop fuel b l out : l < 8 -> drain (S fuel) olen b l out = Some (l, out, false).
Proof using Type. intros H. cbn [drain]. rewrite (Z.geb_leb l 8). by rewrite (proj2 (Z.leb_gt _ _)) by lia. Qed.

Lemma drain_one fuel b l out rest x (k : Z * list Z * bool -> option (list Z)) :
  8 <= l -> u8 (Z.rem (Z.shiftr b (l - 8)) 256) = x ->
  Z.of_nat (length out) < olen - 1 -> (forall l' o, k (l', o, true) = Some o) ->
  (Z.of_nat (length (out ++ [x])) < olen - 1 -> (drain fuel olen b (l - 8) (out ++ [x]) ≫= k) = Some (fits olen ((out ++ [x]) ++ rest))) ->
  (drain (S fuel) olen b l out ≫= k) = Some (fits olen (out ++ x :: rest)).
Proof using Holen.
  intros Hl Hx Ho Hk H. cbn [drain]. rewrite (Z.geb_leb l 8), (proj2 (Z.leb_le _ _)) by lia. cbv zeta. rewrite Hx.
  rewrite put_room by done. cbn [mbind option_bind]. rewrite u64_small by lia. rewrite (Z.geb_leb _ (olen - 1)).
  destruct (Z.leb_spec (olen - 1) (Z.of_nat (length (out ++ [x])))) as [Hf|Hf].
  - cbn [mbind option_bind]. rewrite Hk. f_equal. apply full_fits; [done|lia].
  - fold (mbind (M := option) k). rewrite H by done. by rewrite <- app_assoc.
Qed.

Definition next_char b inp := fun r : Z * list Z * bool => let '(l, out, full) := r in if full : bool then Some out else decode_loop olen b l inp out.

Lemma decode_cons b l i inp out :
  0 <= i < 64 ->
  decode_loop olen b l (b64_char i :: inp) out
  = drain 2 olen (s32 (Z.shiftl b 6 + i)) (l + 6) out ≫= next_char (s32 (Z.shiftl b 6 + i)) inp.
Proof.
  intros Hi. cbn [decode_loop]. rewrite l64_char by done. rewrite (proj2 (Z.eqb_neq _ _)) by lia. cbv zeta.
  by destruct (drain _ _ _ _ _) as [[[]]|].
Qed.

(** The accumulator after two, three and four characters of a group. *)
Lemma group_first b i j : 0 <= i < 64 -> 0 <= j < 64 ->
  u8 (Z.rem (Z.shiftr (s32 (Z.shiftl (s32 (Z.shiftl b 6 + i)) 6 + j)) 4) 256) = (i * 64 + j) / 16.
Proof.
  intros Hi Hj. rewrite byte_out by auto. destruct (acc6_bits b i Hi) as [E1 _].
  destruct (acc6_bits (s32 (Z.shiftl b 6 + i)) j Hj) as [_ E2]. rewrite E1 in E2. dlia.
Qed.

Lemma group_next b k i d :
  0 <= i < 64 -> k = 0 /\ d = 4 \/ k = 2 /\ d = 16 ->
  u8 (Z.rem (Z.shiftr (s32 (Z.shiftl b 6 + i)) k) 256) = (b mod d * 64 + i) / 2 ^ k.
Proof.
  intros Hi Hk. rewrite byte_out by lia. destruct (acc6_bits b i Hi) as [_ E].
  destruct Hk as [[-> ->]|[-> ->]]; dlia.
Qed.

Lemma acc6_low b i d : 0 <= i < 64 -> d = 4 \/ d = 16 -> s32 (Z.shiftl b 6 + i) mod d = i mod d.
Proof. intros Hi Hd. destruct (acc6_bits b i Hi) as [E _]. destruct Hd as [->| ->]; dlia. Qed.

Lemma decode_loop_rfc inp : forall b out,
  Forall byte inp -> Z.of_nat (length out) < olen - 1 ->
  decode_loop olen b 0 (rfc4648 inp) out = Some (fits olen (out ++ inp)).
Proof using Holen.
  induction inp as [|x|x y|x y z inp IH] using list_ind3; intros b out HF Ho; cbn [rfc4648].
  - cbn. rewrite app_nil_r. f_equal. by apply room_fits.
  - inversion HF as [|? ? Hx _]; subst. unfold byte in *. rewrite decode_cons by dlia. rewrite drain_stop by lia.
    cbn [mbind option_bind next_char]. rewrite decode_cons by dlia.
    apply (drain_one 1 _ 12); [lia|rewrite (group_first b (x / 4)) by dlia; dlia|done|done|]. intros H1.
    rewrite drain_stop by lia. cbn [mbind option_bind next_char decode_loop]. change (l64 pad) with (Some (-1)).
    rewrite app_nil_r. cbn. f_equal. by apply room_fits.
  - inversion HF as [|? ? Hx HF']; subst. inversion HF' as [|? ? Hy _]; subst. unfold byte in *.
    rewrite decode_cons by dlia. rewrite drain_stop by lia. cbn [mbind option_bind next_char]. rewrite decode_cons by dlia.
    apply (drain_one 1 _ 12); [lia|rewrite (group_first b (x / 4)) by dlia; dlia|done|done|]. intros H1.
    rewrite drain_stop by lia. cbn [mbind option_bind next_char]. set (b2 := s32 (Z.shiftl _ 6 + (x mod 4 * 16 + y / 16))).
    rewrite decode_cons by dlia. apply (drain_one 1 _ 10); [lia| |done|done|].
    { rewrite (group_next b2 2 _ 16) by (auto || dlia). unfold b2. rewrite acc6_low by (auto || dlia). dlia. }
    intros H2. rewrite drain_stop by lia. cbn [mbind option_bind next_char decode_loop]. change (l64 pad) with (Some (-1)).
    rewrite app_nil_r. cbn. f_equal. by apply room_fits.
  - inversion HF as [|? ? Hx HF']; subst. inversion HF' as [|? ? Hy HF'']; subst. inversion HF'' as [|? ? Hz HF3]; subst.
    unfold byte in Hx, Hy, Hz.
    rewrite decode_cons by dlia. rewrite drain_stop by lia. cbn [mbind option_bind next_char]. rewrite decode_cons by dlia.
    apply (drain_one 1 _ 12); [lia|rewrite (group_first b (x / 4)) by dlia; dlia|done|done|]. intros H1.
    rewrite drain_stop by lia. cbn [mbind option_bind next_char]. set (b2 := s32 (Z.shiftl _ 6 + (x mod 4 * 16 + y / 16))).
    rewrite decode_cons by dlia. apply (drain_one 1 _ 10); [lia| |done|done|].
    { rewrite (group_next b2 2 _ 16) by (auto || dlia). unfold b2. rewrite acc6_low by (auto || dlia). dlia. }
    intros H2. rewrite drain_stop by lia. cbn [mbind option_bind next_char]. set (b3 := s32 (Z.shiftl b2 6 + (y mod 16 * 4 + z / 64))).
    rewrite decode_cons by dlia. apply (drain_one 1 _ 8); [lia| |done|done|].
    { rewrite (group_next b3 0 _ 4) by (auto || dlia). unfold b3. rewrite acc6_low by (auto || dlia). dlia. }
    intros H3. rewrite drain_stop by lia. cbn [mbind option_bind next_char]. by apply IH.
Qed.

End decode.

(** ** Theorems *)

Lemma put_zero olen l : 1 <= olen -> put_byte olen (fits olen l) 0 = Some (fits olen l ++ [0]).
Proof.
  intros H. unfold put_byte, fits. rewrite (proj2 (Z.ltb_lt _ _)); [done|]. rewrite length_take. lia.
Qed.

(** switch_b64_encode computes the encoding of RFC 4648: its bit accumulator,
    which wraps around at 32 bits, produces for every input the text obtained
    three bytes at a time, padding included; if the output buffer is too small
    the text is cut to fit, and a terminating zero follows in either case,
    within the buffer. *)
Theorem b64_encode_rfc4648 inp olen :
  Forall byte inp -> 2 <= olen < 2 ^ 31 ->
  switch_b64_encode inp olen = Some (take (Z.to_nat (olen - 1)) (rfc4648 inp) ++ [0]).
Proof.
  intros HF Ho. unfold switch_b64_encode. rewrite encode_loop_rfc by (done || (cbn; lia)).
  cbn [mbind option_bind]. apply put_zero. lia.
Qed.

Lemma b64_encode_rfc4648_witness :
  switch_b64_encode (codes "hello") 6 = Some (codes "aGVsb" ++ [0]).
Proof.
  rewrite b64_encode_rfc4648; [by vm_compute| |lia]. repeat (constructor; [vm_compute; split; done|]). constructor.
Defined.

Lemma b64_char_text i : 0 <= i < 64 -> 0 < b64_char i < 128.
Proof.
  intros H. assert (forallb (fun n => (0 <? b64_char (Z.of_nat n)) && (b64_char (Z.of_nat n) <? 128)) (seq 0 64) = true) as HF
    by (by vm_compute). rewrite forallb_forall in HF. specialize (HF (Z.to_nat i)).
  rewrite andb_true_iff, !Z.ltb_lt, Z2Nat.id in HF by lia. apply HF, in_seq. lia.
Qed.

Lemma rfc4648_text inp : Forall byte inp -> Forall (fun c => 0 < c < 128) (rfc4648 inp).
Proof.
  induction inp as [|x|x y|x y z inp IH] using list_ind3; intros HF; cbn [rfc4648];
    repeat match goal with H : Forall byte (_ :: _) |- _ => inversion H; clear H; subst end; unfold byte in *;
    repeat (constructor; [(apply b64_char_text; dlia) || (unfold pad; lia)|]); auto.
Qed.

Lemma rfc4648_length inp : Z.of_nat (length (rfc4648 inp)) = 4 * ((Z.of_nat (length inp) + 2) / 3).
Proof.
  induction inp as [|x|x y|x y z inp IH] using list_ind3; [done..|]. cbn [rfc4648 length].
  rewrite !Nat2Z.inj_succ, IH. replace (Z.succ (Z.succ (Z.succ (Z.of_nat (length inp)))) + 2) with (Z.of_nat (length inp) + 2 + 1 * 3) by lia.
  rewrite Z.div_add by lia. lia.
Qed.

(** Decoding undoes encoding: every sequence of bytes, encoded into a buffer
    with room for four characters per started group of three bytes and a zero,
    gives a text of characters below 128 which switch_b64_decode turns back
    into the bytes, in any buffer with room for them and a zero. *)
Theorem b64_roundtrip inp olen olen' :
  Forall byte inp -> 4 * ((Z.of_nat (length inp) + 2) / 3) < olen < 2 ^ 31 -> 2 <= olen ->
  Z.of_nat (length inp) < olen' < 2 ^ 64 -> 2 <= olen' ->
  exists text, switch_b64_encode inp olen = Some (text ++ [0]) /\ Forall (fun c => 0 < c < 128) text
  /\ switch_b64_decode text olen' = Some (inp ++ [0]).
Proof.
  intros HF Ho H2 Ho' H2'. exists (rfc4648 inp). split_and!; [|by apply rfc4648_text|].
  - unfold switch_b64_encode. rewrite encode_loop_rfc by (done || (cbn; lia)). cbn [mbind option_bind app].
    rewrite put_zero by lia. unfold fits. rewrite take_ge; [done|]. pose proof (rfc4648_length inp). lia.
  - unfold switch_b64_decode. rewrite decode_loop_rfc by (done || (cbn; lia)). cbn [mbind option_bind app].
    rewrite put_zero by lia. unfold fits. by rewrite take_ge by lia.
Qed.

Lemma b64_roundtrip_witness :
  exists text, switch_b64_encode [0; 255; 7; 200] 9 = Some (text ++ [0]) /\ switch_b64_decode text 5 = Some [0; 255; 7; 200; 0].
Proof.
  destruct (b64_roundtrip [0; 255; 7; 200] 9 5) as (text & H1 & _ & H2); [|vm_compute; split; done|lia|vm_compute; split; done|lia|].
  - repeat (constructor; [vm_compute; split; done|]). constructor.
  - exists text. split; [exact H1|exact H2].
Defined.

(** Characters above 127 index the reverse table below its start, and a buffer of
    one byte is overrun by its terminating zero. *)
Lemma b64_out_of_bounds x y inp olen :
  128 <= x < 256 -> switch_b64_decode (x :: inp) olen = None /\ switch_b64_encode (y :: inp) 1 = None.
Proof.
  intros Hx. split.
  - unfold switch_b64_decode. cbn [decode_loop]. unfold l64. rewrite (proj2 (Z.ltb_lt _ _)); [done|]. unfold s8. dlia.
  - done.
Qed.

End Base64.
