(* ===== verification/NetworkList.v ===== *)
(** * Network access lists (src/src/switch_utils.c)

    A switch_network_list_t is a list of networks, each with a verdict; an
    address is allowed or denied by the most specific network that contains it.
    An [ip_t] is a union of an IPv4 address (a uint32_t) and an IPv6 address: its
    sixteen bytes in memory, on a little-endian host.

    inet_pton belongs to the C library and is a parameter; when it fails it
    leaves its destination, an uninitialised local variable, as it is, so the
    contents of those variables are parameters as well, and so is the value of
    0xFFFFFFFF >> 32, which C leaves open. *)

From S2P Require Import Prelude.
From S2P Require Import Text.
From stdpp Require Import strings pretty.
From Stdlib Require Import Ascii.

#[local] Open Scope string_scope.
#[local] Open Scope list_scope.
#[local] Open Scope Z_scope.

Module NetworkList.

Import Text.

Definition MAX_NETWORK_PORTS : nat := 10.
Definition AF_INET : Z := 2.
Definition AF_INET6 : Z := 10.

(** ** Addresses *)

Definition ip_t : Type := list Z.

Definition v4 (ip : ip_t) : Z :=
  match ip with a :: b :: c :: d :: _ => a + 2 ^ 8 * b + 2 ^ 16 * c + 2 ^ 24 * d | _ => 0 end.

Definition set_v4 (ip : ip_t) (x : Z) : ip_t :=
  [x mod 256; x / 2 ^ 8 mod 256; x / 2 ^ 16 mod 256; x / 2 ^ 24 mod 256] ++ drop 4 ip.

Definition zero_ip : ip_t := replicate 16 0.

Definition unspecified (ip : ip_t) : bool := forallb (Z.eqb 0) ip.

(** IN6_AND_MASK works on four words; byte by byte it is the same. *)
Definition and_mask (ip mask : ip_t) : ip_t := zip_with Z.land ip mask.

Definition switch_testv6_subnet (ip net mask : ip_t) : bool :=
  if negb (unspecified mask) then bool_decide (and_mask net mask = and_mask ip mask)
  else if negb (unspecified net) then bool_decide (net = ip)
  else true.

Definition switch_test_subnet (ip net mask : Z) : bool :=
  if negb (mask =? 0) then Z.land net mask =? Z.land ip mask
  else if negb (net =? 0) then net =? ip
  else true.

(** ** Nodes *)

Record switch_network_port_range := mk_ports { port : Z; ports : list Z; min_port : Z; max_port : Z }.

Definition no_ports : switch_network_port_range := mk_ports 0 (replicate MAX_NETWORK_PORTS 0) 0 0.

Record switch_network_node := mk_node {
  node_ip : ip_t; node_mask : ip_t; bits : Z; family : Z; node_ok : bool; token : option string; str : string;
  port_range : switch_network_port_range }.

Record switch_network_list := mk_list { node_head : list switch_network_node; default_type : bool; name : string }.

#[export] Instance rebuild_list : Rebuild switch_network_list := fun l => mk_list (node_head l) (default_type l) (name l).
#[export] Instance set_node_head : Setter node_head := ltac:(derive_setter).

Definition switch_network_list_create (name0 : string) (default_type0 : bool) : switch_network_list :=
  mk_list [] default_type0 name0.

(** The ports before the first zero. *)
Fixpoint port_among (port0 : Z) (ps : list Z) : bool :=
  match ps with
  | [] => false
  | p :: ps => if p =? 0 then false else if port0 =? p then true else port_among port0 ps
  end.

Definition is_port_in_node (port0 : Z) (node : switch_network_node) : bool :=
  let r := port_range node in
  if port0 =? 0 then true
  else if negb (port r =? 0) && negb (port r =? port0) then false
  else if negb (default 0 (ports r !! 0%nat) =? 0) then port_among port0 (take MAX_NETWORK_PORTS (ports r))
  else if negb (min_port r =? 0) || negb (max_port r =? 0) then (port0 >=? min_port r) && (port0 <=? max_port r)
  else true.

(** ** Validation *)

(** The loop over the nodes: verdict, bits of the network that gave it, token. *)
Fixpoint validate_nodes (test : switch_network_node -> bool) (nodes : list switch_network_node)
    (ok0 : bool) (bits0 : Z) (token0 : option string) : bool * option string :=
  match nodes with
  | [] => (ok0, token0)
  | node :: nodes =>
      if (bits node >=? bits0) && test node then validate_nodes test nodes (node_ok node) (bits node) (token node)
      else validate_nodes test nodes ok0 bits0 token0
  end.

(** The verdict and the value of [*token] afterwards. *)
Definition switch_network_list_validate_ip6_port_token (l : switch_network_list) (ip : ip_t) (port0 : Z) (token0 : option string)
  : bool * option string :=
  validate_nodes (fun node => negb (family node =? AF_INET) && switch_testv6_subnet ip (node_ip node) (node_mask node))
    (node_head l) (default_type l) 0 token0.

Definition switch_network_list_validate_ip_port_token (l : switch_network_list) (ip port0 : Z) (token0 : option string)
  : bool * option string :=
  validate_nodes (fun node => negb (family node =? AF_INET6) && switch_test_subnet ip (v4 (node_ip node)) (v4 (node_mask node))
                              && is_port_in_node port0 node)
    (node_head l) (default_type l) 0 token0.

Definition switch_network_list_validate_ip6_token (l : switch_network_list) (ip : ip_t) (token0 : option string) :=
  switch_network_list_validate_ip6_port_token l ip 0 token0.

Definition switch_network_list_validate_ip_token (l : switch_network_list) (ip : Z) (token0 : option string) :=
  switch_network_list_validate_ip_port_token l ip 0 token0.

(** ** Adding networks *)

Record env := {
  inet_pton4 : string -> option Z;       (* the address in network byte order *)
  inet_pton6 : string -> option ip_t;
  ip_local : ip_t;                       (* the uninitialised variables ip and mask *)
  mask_local : ip_t;
  shr_32 : Z;                            (* 0xFFFFFFFF >> 32 *)
}.

Implicit Types (e : env) (l : switch_network_list).

(** strncasecmp on seven characters; the string after them. *)
Definition switch_network_ipv4_mapped_ipv6_addr (ip_str : string) : option string :=
  if strcasecmp_eq (String.substring 0 7 ip_str) "::ffff:" then Some (String.substring 7 (String.length ip_str - 7) ip_str)
  else None.

(** The text of a list of ports, in a buffer of [MAX_NETWORK_PORTS * 6] bytes:
    [written] counts what snprintf would have written.  No result when the
    remaining size, an unsigned difference, becomes negative. *)
Fixpoint ports_text (first : bool) (ps : list Z) (written : Z) (text : string) : option string :=
  match ps with
  | [] => Some text
  | p :: ps =>
      if p =? 0 then Some text
      else if written >? Z.of_nat MAX_NETWORK_PORTS * 6 then None
      else
        let piece := (if first then "" else ", ") +:+ pretty (u32 p) in
        ports_text false ps (written + Z.of_nat (String.length piece))
          (String.substring 0 (MAX_NETWORK_PORTS * 6 - 1) (text +:+ piece))
  end.

(** [Some None] is a NULL pointer. *)
Definition switch_network_port_range_to_string (r : option switch_network_port_range) : option (option string) :=
  match r with
  | None => Some None
  | Some r =>
      if negb (port r =? 0) then Some (Some ("port: " +:+ pretty (port r) +:+ " "))
      else if negb (default 0 (ports r !! 0%nat) =? 0) then
        match ports_text true (take MAX_NETWORK_PORTS (ports r)) 0 "" with
        | Some text => Some (Some ("ports: [" +:+ text +:+ "] "))
        | None => None
        end
      else if negb (min_port r =? 0) || negb (max_port r =? 0) then
        Some (Some ("port range: [" +:+ pretty (min_port r) +:+ "-" +:+ pretty (max_port r) +:+ "] "))
      else Some None
  end.

(** strchr for '/': the parts before and after it. *)
Fixpoint split_slash (s : string) : string * option string :=
  match s with
  | EmptyString => ("", None)
  | String c s => if Ascii.eqb c "/" then ("", Some s) else let '(a, b) := split_slash s in (String c a, b)
  end.

(** The bytes of an IPv6 mask. *)
Fixpoint mask_bytes (i : nat) (n : Z) : list Z :=
  match i with
  | O => []
  | S i => if n >=? 8 then 255 :: mask_bytes i (n - 8) else Z.land 255 (Z.lnot (Z.shiftr 255 n)) :: mask_bytes i (n - n)
  end.

Definition mask4 e (bits0 : Z) : Z :=
  Z.land 0xFFFFFFFF (Z.lnot (if bits0 =? 32 then shr_32 e else Z.shiftr 0xFFFFFFFF bits0)).

(** The error code, or the address, the mask and the number of bits. *)
Definition switch_parse_cidr e (string0 : string) : Z + ip_t * ip_t * Z :=
  match split_slash (String.substring 0 126 string0) with
  | (_, None) => inl (-1)
  | (host, Some bit_str) =>
      let bits0 := atoi bit_str in
      if has_char ":" string0 then
        if (bits0 <? 0) || (bits0 >? 128) then inl (-2)
        else inr (default (ip_local e) (inet_pton6 e host), mask_bytes 16 bits0, bits0)
      else
        if (bits0 <? 0) || (bits0 >? 32) then inl (-2)
        else
          let ip := match inet_pton4 e host with Some x => set_v4 (ip_local e) x | None => ip_local e end in
          inr (set_v4 ip (htonl (v4 ip)), set_v4 (mask_local e) (mask4 e bits0), bits0)
  end.

Definition zstr (s : option string) : bool := match s with None | Some EmptyString => true | _ => false end.

Definition switch_network_list_perform_add_cidr_token l e (cidr_str : string) (ok0 : bool) (token0 : option string)
    (r : option switch_network_port_range) : option (switch_status_t * switch_network_list) :=
  let cidr_str := default cidr_str (switch_network_ipv4_mapped_ipv6_addr cidr_str) in
  match switch_network_port_range_to_string r with
  | None => None
  | Some _ =>
      match switch_parse_cidr e cidr_str with
      | inl _ => Some (SWITCH_STATUS_GENERR, l)
      | inr (ip, mask, bits0) =>
          let node := mk_node ip mask bits0 (if has_char ":" cidr_str then AF_INET6 else AF_INET) ok0
                        (if negb (zstr token0) then token0 else None) cidr_str (default no_ports r) in
          Some (SWITCH_STATUS_SUCCESS, l <| node_head := node :: node_head l |>)
      end
  end.

(** Every piece is added; the status is the last failure. *)
Fixpoint add_pieces l e (argv : list string) (ok0 : bool) (token0 : option string) (r : option switch_network_port_range)
    (status : switch_status_t) : option (switch_status_t * switch_network_list) :=
  match argv with
  | [] => Some (status, l)
  | arg :: argv =>
      match switch_network_list_perform_add_cidr_token l e arg ok0 token0 r with
      | Some (this_status, l) =>
          add_pieces l e argv ok0 token0 r (if bool_decide (this_status = SWITCH_STATUS_SUCCESS) then status else this_status)
      | None => None
      end
  end.

Definition switch_network_list_add_cidr_port_token l e (cidr_str : string) (ok0 : bool) (token0 : option string)
    (r : option switch_network_port_range) : option (switch_status_t * switch_network_list) :=
  if has_char "," cidr_str then
    match switch_separate_string (Some cidr_str) "," 32 with
    | Some argv => add_pieces l e argv ok0 token0 r SWITCH_STATUS_SUCCESS
    | None => None
    end
  else switch_network_list_perform_add_cidr_token l e cidr_str ok0 token0 r.

Definition switch_network_list_add_cidr_token l e cidr_str ok0 token0 :=
  switch_network_list_add_cidr_port_token l e cidr_str ok0 token0 None.

(** The number of bits set, as the code counts them. *)
Definition count_bits (mask : Z) : Z :=
  let mask := u32 (mask - Z.land (Z.shiftr mask 1) 0x55555555) in
  let mask := u32 (Z.land mask 0x33333333 + Z.land (Z.shiftr mask 2) 0x33333333) in
  Z.shiftr (u32 (Z.land (u32 (mask + Z.shiftr mask 4)) 0xF0F0F0F * 0x1010101)) 24.

(** The node comes zeroed from the pool; its family is not set. *)
Definition switch_network_list_add_host_port_mask l e (host mask_str : string) (ok0 : bool) (r : option switch_network_port_range)
  : switch_status_t * switch_network_list :=
  let ip := match inet_pton4 e host with Some x => set_v4 (ip_local e) x | None => ip_local e end in
  let mask := match inet_pton4 e mask_str with Some x => set_v4 (mask_local e) x | None => mask_local e end in
  let node := mk_node (set_v4 zero_ip (ntohl (v4 ip))) (set_v4 zero_ip (ntohl (v4 mask))) (count_bits (v4 mask)) 0 ok0 None
                (host +:+ ":" +:+ mask_str) (default no_ports r) in
  (SWITCH_STATUS_SUCCESS, l <| node_head := node :: node_head l |>).

Definition switch_network_list_add_host_mask l e host mask_str ok0 :=
  switch_network_list_add_host_port_mask l e host mask_str ok0 None.

Example count_bits_1 : map count_bits [0; 255; 0x00FFFFFF; 0xFFFFFFFF] = [0; 8; 24; 32].
Proof. reflexivity. Qed.

(** ** The most specific network decides *)

(** Of the networks that pass the test, none has more bits than [n], and none
    after it as many. *)
Definition decides (test : switch_network_node -> bool) (nodes : list switch_network_node) (n : switch_network_node) : Prop :=
  exists (l1 l2 : list switch_network_node), nodes = l1 ++ n :: l2 /\ test n = true
  /\ (forall m, m ∈ l1 -> test m = true -> bits m <= bits n) /\ (forall m, m ∈ l2 -> test m = true -> bits m < bits n).

Lemma validate_decided test nodes ok0 bits0 token0 :
  (forall m, m ∈ nodes -> test m = true -> bits m < bits0) /\ validate_nodes test nodes ok0 bits0 token0 = (ok0, token0)
  \/ exists n, decides test nodes n /\ bits0 <= bits n /\ validate_nodes test nodes ok0 bits0 token0 = (node_ok n, token n).
Proof.
  revert ok0 bits0 token0. induction nodes as [|n nodes IH]; intros ok0 bits0 token0; cbn [validate_nodes].
  { left. split; [set_solver|done]. }
  destruct ((bits n >=? bits0) && test n) eqn:E.
  - apply andb_true_iff in E as [E1 E2]. rewrite Z.geb_leb, Z.leb_le in E1. right.
    destruct (IH (node_ok n) (bits n) (token n)) as [[H1 ->]|(n' & (l1 & l2 & -> & H1 & H2 & H3) & H4 & ->)].
    + exists n. split_and!; [|done|done]. exists [], nodes. split_and!; [done|done|set_solver|done].
    + exists n'. split_and!; [|lia|done]. exists (n :: l1), l2. split_and!; [done|done| |done].
      intros m [->|Hm]%elem_of_cons; auto.
  - assert (test n = true -> bits n < bits0) as Hn.
    { intros Ht. rewrite Ht, andb_true_r, Z.geb_leb, Z.leb_gt in E. done. }
    destruct (IH ok0 bits0 token0) as [[H1 ->]|(n' & (l1 & l2 & -> & H1 & H2 & H3) & H4 & ->)].
    + left. split; [|done]. intros m [->|Hm]%elem_of_cons; auto.
    + right. exists n'. split_and!; [|done|done]. exists (n :: l1), l2. split_and!; [done|done| |done].
      intros m [->|Hm]%elem_of_cons Ht; [specialize (Hn Ht); lia|auto].
Qed.

(** ** Networks are prefixes *)

Lemma mask4_value e b : 0 <= b < 32 -> mask4 e b = 2 ^ 32 - 2 ^ (32 - b).
Proof.
  intros H. unfold mask4. rewrite (proj2 (Z.eqb_neq _ _)) by lia.
  assert (forallb (fun n => Z.land 0xFFFFFFFF (Z.lnot (Z.shiftr 0xFFFFFFFF (Z.of_nat n))) =? 2 ^ 32 - 2 ^ (32 - Z.of_nat n)) (seq 0 32) = true)
    as HF by (by vm_compute). rewrite forallb_forall in HF. specialize (HF (Z.to_nat b)).
  rewrite Z.eqb_eq, Z2Nat.id in HF by lia. apply HF, in_seq. lia.
Qed.

Lemma land_high a k w : 0 <= k <= w -> 0 <= a < 2 ^ w -> Z.land a (2 ^ w - 2 ^ k) = a / 2 ^ k * 2 ^ k.
Proof.
  intros Hk Ha. replace (2 ^ w - 2 ^ k) with (Z.shiftl (Z.ones (w - k)) k).
  2: { rewrite Z.shiftl_mul_pow2, Z.ones_equiv by lia. replace (2 ^ w) with (2 ^ (w - k) * 2 ^ k) by (rewrite <- Z.pow_add_r by lia; f_equal; lia). lia. }
  rewrite <- Z.shiftr_div_pow2, <- Z.shiftl_mul_pow2 by lia. apply Z.bits_inj'. intros i Hi.
  rewrite Z.land_spec. destruct (Z.lt_ge_cases i k).
  - rewrite !(Z.shiftl_spec_low _ _ i) by lia. by rewrite andb_false_r.
  - rewrite !Z.shiftl_spec_high by lia. rewrite Z.shiftr_spec by lia. replace (i - k + k) with i by lia.
    destruct (Z.lt_ge_cases i w); [by rewrite Z.ones_spec_low, andb_true_r by lia|].
    rewrite Z.ones_spec_high, andb_false_r by lia. symmetry. rewrite <- (Z.mod_small a (2 ^ w)) by lia. apply Z.mod_pow2_bits_high. lia.
Qed.

Lemma land_prefix a b k w :
  0 <= k <= w -> 0 <= a < 2 ^ w -> 0 <= b < 2 ^ w ->
  (Z.land a (2 ^ w - 2 ^ k) =? Z.land b (2 ^ w - 2 ^ k)) = (a / 2 ^ k =? b / 2 ^ k).
Proof.
  intros Hk Ha Hb. rewrite !land_high by done. apply eq_true_iff_eq. rewrite !Z.eqb_eq. split; [|by intros ->].
  intros H. apply Z.mul_cancel_r in H; [done|]. lia.
Qed.

Lemma v4_set_v4 ip x : 0 <= x < 2 ^ 32 -> v4 (set_v4 ip x) = x.
Proof. intros H. unfold v4, set_v4. cbn [app]. dlia. Qed.

(** An IPv6 address as a number. *)
Fixpoint v6 (ip : ip_t) : Z :=
  match ip with [] => 0 | x :: ip => x * 2 ^ (8 * Z.of_nat (length ip)) + v6 ip end.

Definition byte (x : Z) : Prop := 0 <= x < 2 ^ 8.

Lemma v6_range ip : Forall byte ip -> 0 <= v6 ip < 2 ^ (8 * Z.of_nat (length ip)).
Proof.
  induction 1 as [|x ip Hx _ IH]; [done|]. cbn [v6 length]. unfold byte in Hx.
  replace (8 * Z.of_nat (S (length ip))) with (8 + 8 * Z.of_nat (length ip)) by lia. rewrite Z.pow_add_r by lia. nia.
Qed.

Lemma mask_byte n : 0 <= n < 8 -> Z.land 255 (Z.lnot (Z.shiftr 255 n)) = 2 ^ 8 - 2 ^ (8 - n).
Proof.
  intros H. assert (n = 0 \/ n = 1 \/ n = 2 \/ n = 3 \/ n = 4 \/ n = 5 \/ n = 6 \/ n = 7) as HC by lia.
  by repeat destruct HC as [->|HC]; [..|subst n].
Qed.

Lemma mask_bytes_0 i : mask_bytes i 0 = replicate i 0.
Proof. induction i as [|i IH]; [done|]. exact (f_equal (cons 0) IH). Qed.

Lemma and_mask_0 ip n : length ip = n -> and_mask ip (replicate n 0) = replicate n 0.
Proof. intros <-. induction ip as [|x ip IH]; [done|]. cbn. rewrite Z.land_0_r. f_equal. exact IH. Qed.

(** Two addresses agree on the high part exactly if both parts of it agree. *)
Lemma div_split x y a b p k :
  0 <= k -> 0 <= p -> 0 <= a < 2 ^ (k + p) -> 0 <= b < 2 ^ (k + p) ->
  (x * 2 ^ (k + p) + a) / 2 ^ k = (y * 2 ^ (k + p) + b) / 2 ^ k <-> x = y /\ a / 2 ^ k = b / 2 ^ k.
Proof.
  intros Hk Hp Ha Hb. rewrite Z.pow_add_r in * by lia. rewrite (Z.mul_comm (2 ^ k)) in *. rewrite !Z.mul_assoc.
  rewrite !Z.div_add_l by lia. assert (0 <= a / 2 ^ k < 2 ^ p) by (split; [apply Z.div_pos; lia|apply Z.div_lt_upper_bound; lia]).
  assert (0 <= b / 2 ^ k < 2 ^ p) by (split; [apply Z.div_pos; lia|apply Z.div_lt_upper_bound; lia]).
  split; [|intros [-> ->]; done]. intros E. assert (x = y) as -> by nia. split; [done|lia].
Qed.

Lemma and_mask_prefix a : forall b n,
  Forall byte a -> Forall byte b -> length b = length a -> 0 <= n <= 8 * Z.of_nat (length a) ->
  and_mask a (mask_bytes (length a) n) = and_mask b (mask_bytes (length a) n)
  <-> v6 a / 2 ^ (8 * Z.of_nat (length a) - n) = v6 b / 2 ^ (8 * Z.of_nat (length a) - n).
Proof.
  induction a as [|x a IH]; intros [|y b] n Ha Hb Hl Hn; try done.
  apply Forall_cons in Ha as [Hx Ha]. apply Forall_cons in Hb as [Hy Hb]. injection Hl as Hl.
  pose proof (v6_range a Ha). pose proof (v6_range b Hb). unfold byte in Hx, Hy. cbn [length mask_bytes v6]. rewrite Hl in *.
  rewrite (Z.geb_leb n 8). destruct (Z.leb_spec 8 n) as [H8|H8]; cbn [and_mask zip_with].
  - cbn [length] in Hn. remember (8 * Z.of_nat (S (length a)) - n) as k eqn:Ek.
    assert (0 <= k) by lia. replace (8 * Z.of_nat (length a)) with (k + (n - 8)) in * by lia.
    rewrite div_split by lia. change 255 with (Z.ones 8). rewrite !Z.land_ones, !Z.mod_small by lia.
    specialize (IH b (n - 8) Ha Hb Hl ltac:(lia)).
    replace (k + (n - 8) - (n - 8)) with k in IH by lia.
    unfold and_mask in IH. rewrite <- IH. split; [by intros [= -> ->]|by intros [-> ->]].
  - rewrite mask_byte by lia. rewrite Z.sub_diag, mask_bytes_0. fold (and_mask a (replicate (length a) 0)).
    fold (and_mask b (replicate (length a) 0)). rewrite !and_mask_0 by done.
    replace (8 * Z.of_nat (S (length a)) - n) with (8 * Z.of_nat (length a) + (8 - n)) by lia. rewrite Z.pow_add_r by lia.
    rewrite <- !Z.div_div by lia. rewrite !Z.div_add_l, !(Z.div_small (v6 _)), !Z.add_0_r by lia.
    rewrite <- Z.eqb_eq, <- (land_prefix x y (8 - n) 8), Z.eqb_eq by lia. split; [by intros [= ->]|by intros ->].
Qed.

Lemma mask_bytes_specified i n : 1 <= n -> unspecified (mask_bytes (S i) n) = false.
Proof.
  intros Hn. cbn [mask_bytes]. rewrite (Z.geb_leb n 8). destruct (Z.leb_spec 8 n); [done|]. cbn [unspecified forallb].
  rewrite mask_byte by lia. rewrite (proj2 (Z.eqb_neq _ _)); [done|].
  pose proof (Z.pow_lt_mono_r 2 (8 - n) 8 ltac:(lia) ltac:(lia) ltac:(lia)). lia.
Qed.

Lemma parse_cidr4 e s host bs x :
  split_slash (String.substring 0 126 s) = (host, Some bs) -> has_char ":" s = false -> 0 <= atoi bs <= 32 ->
  inet_pton4 e host = Some x -> 0 <= x < 2 ^ 32 ->
  exists ip mask, switch_parse_cidr e s = inr (ip, mask, atoi bs) /\ v4 ip = ntohl x
  /\ (0 <= mask4 e (atoi bs) < 2 ^ 32 -> v4 mask = mask4 e (atoi bs)).
Proof.
  intros Hs Hc Hb Hp Hx. unfold switch_parse_cidr. rewrite Hs, Hc, Hp, (v4_set_v4 _ x) by done. cbv zeta.
  rewrite (proj2 (Z.ltb_ge (atoi bs) 0)) by lia. rewrite Z.gtb_ltb, (proj2 (Z.ltb_ge 32 (atoi bs))) by lia. cbn [orb].
  eexists _, _. split; [reflexivity|]. split; [apply v4_set_v4, ntohl_range|apply v4_set_v4].
Qed.

Lemma subnet_prefix e b a x :
  1 <= b <= 32 -> 0 <= a < 2 ^ 32 -> 0 <= x < 2 ^ 32 ->
  (b = 32 -> shr_32 e = 0 \/ shr_32 e = 0xFFFFFFFF /\ x <> 0) ->
  0 <= mask4 e b < 2 ^ 32 /\ switch_test_subnet a x (mask4 e b) = (a / 2 ^ (32 - b) =? x / 2 ^ (32 - b)).
Proof.
  intros Hb Ha Hx H32. unfold switch_test_subnet.
  assert (forall k, 0 <= k < 32 -> mask4 e b = 2 ^ 32 - 2 ^ k -> k = 32 - b ->
    0 <= mask4 e b < 2 ^ 32 /\ (if negb (mask4 e b =? 0) then Z.land x (mask4 e b) =? Z.land a (mask4 e b)
      else if negb (x =? 0) then x =? a else true) = (a / 2 ^ (32 - b) =? x / 2 ^ (32 - b))) as HM.
  { intros k Hk -> ->. pose proof (Z.pow_lt_mono_r 2 (32 - b) 32 ltac:(lia) ltac:(lia) ltac:(lia)).
    split; [lia|]. rewrite (proj2 (Z.eqb_neq _ _)) by lia. cbn [negb]. rewrite land_prefix by lia. apply Z.eqb_sym. }
  destruct (Z.eq_dec b 32) as [->|Hne]; [|by apply (HM (32 - b)); [lia|apply mask4_value; lia|]].
  destruct (H32 eq_refl) as [E|[E Hx0]].
  - apply (HM 0); [lia| |done]. unfold mask4. cbn [Z.eqb]. by rewrite E.
  - assert (mask4 e 32 = 0) as -> by (unfold mask4; cbn [Z.eqb Pos.eqb]; by rewrite E). split; [lia|].
    rewrite (proj2 (Z.eqb_neq x 0)) by done. cbn [Z.eqb negb]. rewrite !Z.div_1_r. apply Z.eqb_sym.
Qed.

(** A network written as address/bits contains exactly the addresses that
    agree with it on the first bits: for IPv4 with 1 to 32 bits (with all 32, on
    a machine where 0xFFFFFFFF >> 32 is 0 or leaves the number unchanged, and in
    the second case for a network other than 0.0.0.0), and for IPv6 with 1 to
    128 bits. *)
Theorem cidr_matches_prefix e s host bs :
  split_slash (String.substring 0 126 s) = (host, Some bs) ->
  (forall x, has_char ":" s = false -> 1 <= atoi bs <= 32 -> inet_pton4 e host = Some x -> 0 <= x < 2 ^ 32 ->
     (atoi bs = 32 -> shr_32 e = 0 \/ shr_32 e = 0xFFFFFFFF /\ x <> 0) ->
     exists ip mask, switch_parse_cidr e s = inr (ip, mask, atoi bs)
     /\ forall a, 0 <= a < 2 ^ 32 ->
          switch_test_subnet a (v4 ip) (v4 mask) = (a / 2 ^ (32 - atoi bs) =? ntohl x / 2 ^ (32 - atoi bs)))
  /\ (forall net, has_char ":" s = true -> 1 <= atoi bs <= 128 -> inet_pton6 e host = Some net -> length net = 16%nat -> Forall byte net ->
     exists mask, switch_parse_cidr e s = inr (net, mask, atoi bs)
     /\ forall a, length a = 16%nat -> Forall byte a ->
          switch_testv6_subnet a net mask = (v6 a / 2 ^ (128 - atoi bs) =? v6 net / 2 ^ (128 - atoi bs))).
Proof.
  intros Hs. split.
  - intros x Hc Hb Hp Hx H32. destruct (parse_cidr4 e s host bs x) as (ip & mask & E & E1 & E2); [done|done|lia|done|done|].
    exists ip, mask. split; [done|]. intros a Ha. pose proof (ntohl_range x) as Hn.
    destruct (subnet_prefix e (atoi bs) a (ntohl x)) as [Hm Ht]; [done|done|done| |by rewrite E1, E2].
    intros Eb. destruct (H32 Eb) as [|[? Hx0]]; [by left|right]. split; [done|]. intros E0. apply Hx0.
    rewrite <- (u32_small x), <- ntohl_htonl by done. unfold htonl. by rewrite E0.
  - intros net Hc Hb Hp Hl HF. exists (mask_bytes 16 (atoi bs)). split.
    + unfold switch_parse_cidr. rewrite Hs, Hc, Hp. cbv zeta. rewrite (proj2 (Z.ltb_ge (atoi bs) 0)) by lia.
      by rewrite Z.gtb_ltb, (proj2 (Z.ltb_ge 128 (atoi bs))) by lia.
    + intros a La Fa. unfold switch_testv6_subnet. rewrite mask_bytes_specified by lia. cbn [negb].
      pose proof (and_mask_prefix net a (atoi bs) HF Fa ltac:(lia) ltac:(lia)) as HP. rewrite Hl in HP.
      change (8 * Z.of_nat 16) with 128 in HP. apply eq_true_iff_eq. rewrite bool_decide_eq_true, Z.eqb_eq, HP. done.
Qed.

(** ** Counting the bits of a mask *)

(** The number of ones among the low [n] bits. *)
Fixpoint popcount (n : nat) (x : Z) : Z :=
  match n with O => 0 | S n => Z.b2z (Z.testbit x (Z.of_nat n)) + popcount n x end.

(** [n] bytes with the same value. *)
Fixpoint lanes (n : nat) (c : Z) : Z := match n with O => 0 | S n => c + 2 ^ 8 * lanes n c end.

(** The three steps of [count_bits] on [n] bytes. *)
Definition pairs n x := x - Z.land (Z.shiftr x 1) (lanes n 0x55).
Definition nibbles n x := Z.land x (lanes n 0x33) + Z.land (Z.shiftr x 2) (lanes n 0x33).
Definition counts n x := Z.land (x + Z.shiftr x 4) (lanes n 0x0F).

Lemma testbit_lane a b i : byte a -> 0 <= i -> Z.testbit (a + 2 ^ 8 * b) i = if i <? 8 then Z.testbit a i else Z.testbit b (i - 8).
Proof.
  unfold byte. intros Ha Hi. destruct (Z.ltb_spec i 8).
  - rewrite <- (Z.mod_pow2_bits_low _ 8) by lia. by rewrite Z.add_comm, Z.mul_comm, Z_mod_plus_full || (f_equal; dlia).
  - replace (Z.testbit b (i - 8)) with (Z.testbit ((a + 2 ^ 8 * b) / 2 ^ 8) (i - 8)) by (f_equal; dlia).
    rewrite Z.div_pow2_bits by lia. f_equal. lia.
Qed.

Lemma land_byte a c : byte a -> byte c -> byte (Z.land a c).
Proof.
  unfold byte. intros Ha Hc. split; [apply Z.land_nonneg; lia|].
  destruct (Z.eq_dec (Z.land a c) 0) as [->|Hne]; [done|]. apply Z.log2_lt_pow2; [pose proof (proj2 (Z.land_nonneg a c)); lia|].
  destruct (Z.eq_dec a 0) as [->|Ha0]; [by rewrite Z.land_0_l in Hne|].
  pose proof (Z.log2_land a c ltac:(lia) ltac:(lia)). pose proof (proj1 (Z.log2_lt_pow2 a 8 ltac:(lia))). lia.
Qed.

Lemma land_lane a b c d : byte a -> byte c -> Z.land (a + 2 ^ 8 * b) (c + 2 ^ 8 * d) = Z.land a c + 2 ^ 8 * Z.land b d.
Proof.
  intros Ha Hc. apply Z.bits_inj'. intros i Hi. rewrite Z.land_spec.
  rewrite !testbit_lane by (done || by apply land_byte). rewrite !Z.land_spec. by destruct (i <? 8).
Qed.

(** A fact about every byte and every number below sixteen, by computation. *)
Lemma byte_all (f : Z -> Z -> bool) :
  forallb (fun n => forallb (fun m => f (Z.of_nat n) (Z.of_nat m)) (seq 0 16)) (seq 0 256) = true ->
  forall a c, byte a -> 0 <= c < 16 -> f a c = true.
Proof.
  unfold byte. intros H a c Ha Hc. rewrite forallb_forall in H. specialize (H (Z.to_nat a) ltac:(apply in_seq; lia)).
  rewrite forallb_forall in H. specialize (H (Z.to_nat c) ltac:(apply in_seq; lia)). by rewrite !Z2Nat.id in H by lia.
Qed.

Definition pairs1 a := a - Z.land (a / 2) 0x55.
Definition nibbles1 a := Z.land a 0x33 + Z.land (a / 4) 0x33.
Definition counts1 a := Z.land (a + a / 16) 0x0F.

Lemma pairs_lane n a y : byte a -> pairs (S n) (a + 2 ^ 8 * y) = pairs1 a + 2 ^ 8 * pairs n y.
Proof.
  intros Ha. unfold pairs, pairs1. cbn [lanes]. pose proof (byte_all (fun a c => Z.land (a / 2 + 128 * (c mod 2)) 0x55 =? Z.land (a / 2) 0x55) ltac:(by vm_compute) a (y mod 2) Ha) as E.
  rewrite Z.eqb_eq, Z.mod_mod in E by lia. unfold byte in Ha.
  rewrite !Z.shiftr_div_pow2 by lia. replace ((a + 2 ^ 8 * y) / 2 ^ 1) with (a / 2 + 128 * (y mod 2) + 2 ^ 8 * (y / 2 ^ 1)) by dlia.
  rewrite land_lane; unfold byte; [rewrite E by dlia; lia|dlia|lia].
Qed.

Lemma nibbles_lane n a y : byte a -> nibbles (S n) (a + 2 ^ 8 * y) = nibbles1 a + 2 ^ 8 * nibbles n y.
Proof.
  intros Ha. unfold nibbles, nibbles1. cbn [lanes]. pose proof (byte_all (fun a c => Z.land (a / 4 + 64 * (c mod 4)) 0x33 =? Z.land (a / 4) 0x33) ltac:(by vm_compute) a (y mod 4) Ha) as E.
  rewrite Z.eqb_eq, Z.mod_mod in E by lia. rewrite land_lane by (done || (unfold byte; lia)). unfold byte in Ha.
  rewrite !Z.shiftr_div_pow2 by lia. replace ((a + 2 ^ 8 * y) / 2 ^ 2) with (a / 4 + 64 * (y mod 4) + 2 ^ 8 * (y / 2 ^ 2)) by dlia.
  rewrite land_lane; unfold byte; [rewrite E by dlia; lia|dlia|lia].
Qed.

Lemma counts_lane n a y : 0 <= a <= 0x44 -> y mod 16 <= 4 -> counts (S n) (a + 2 ^ 8 * y) = counts1 a + 2 ^ 8 * counts n y.
Proof.
  intros Ha Hy. unfold counts, counts1. cbn [lanes].
  pose proof (byte_all (fun a c => Z.land (a + a / 16 + 16 * c) 0x0F =? Z.land (a + a / 16) 0x0F) ltac:(by vm_compute) a (y mod 16)) as E.
  rewrite Z.eqb_eq in E. rewrite !Z.shiftr_div_pow2 by lia.
  replace (a + 2 ^ 8 * y + (a + 2 ^ 8 * y) / 2 ^ 4) with (a + a / 16 + 16 * (y mod 16) + 2 ^ 8 * (y + y / 2 ^ 4)) by dlia.
  rewrite land_lane; unfold byte in *; [rewrite E by dlia; lia|dlia|lia].
Qed.

Lemma byte_counts a :
  byte a -> byte (pairs1 a) /\ 0 <= nibbles1 (pairs1 a) <= 0x44 /\ nibbles1 (pairs1 a) mod 16 <= 4
  /\ counts1 (nibbles1 (pairs1 a)) = popcount 8 a /\ 0 <= popcount 8 a <= 8.
Proof.
  intros Ha. pose proof (byte_all (fun a _ => (0 <=? pairs1 a) && (pairs1 a <? 2 ^ 8) && (0 <=? nibbles1 (pairs1 a))
    && (nibbles1 (pairs1 a) <=? 0x44) && (nibbles1 (pairs1 a) mod 16 <=? 4) && (counts1 (nibbles1 (pairs1 a)) =? popcount 8 a)
    && (0 <=? popcount 8 a) && (popcount 8 a <=? 8)) ltac:(by vm_compute) a 0 Ha ltac:(lia)) as E.
  rewrite !andb_true_iff, !Z.leb_le, Z.ltb_lt, Z.eqb_eq in E. unfold byte. naive_solver.
Qed.

Lemma popcount_lane n a y : byte a -> popcount (n + 8) (a + 2 ^ 8 * y) = popcount 8 a + popcount n y.
Proof.
  intros Ha. assert (popcount 8 (a + 2 ^ 8 * y) = popcount 8 a) as H0.
  { cbn [popcount]. rewrite !testbit_lane by (done || lia). by rewrite !(proj2 (Z.ltb_lt _ _)) by lia. }
  rewrite <- H0. remember (popcount 8 (a + 2 ^ 8 * y)) as p eqn:Ep. induction n as [|n IH]; [cbn [Nat.add]; rewrite <- Ep; cbn; lia|].
  cbn [Nat.add popcount]. rewrite IH, testbit_lane by (done || lia). rewrite (proj2 (Z.ltb_ge _ _)) by lia.
  replace (Z.of_nat (n + 8) - 8) with (Z.of_nat n) by lia. lia.
Qed.

(** A 32-bit number by bytes. *)
Definition of_bytes (a b c d : Z) : Z := a + 2 ^ 8 * (b + 2 ^ 8 * (c + 2 ^ 8 * (d + 2 ^ 8 * 0))).

Lemma popcount_bytes a b c d : byte a -> byte b -> byte c -> byte d ->
  popcount 32 (of_bytes a b c d) = popcount 8 a + popcount 8 b + popcount 8 c + popcount 8 d.
Proof.
  intros. unfold of_bytes. rewrite (popcount_lane 24), (popcount_lane 16), (popcount_lane 8), (popcount_lane 0) by done. cbn. lia.
Qed.

Lemma to_bytes x : 0 <= x < 2 ^ 32 -> exists a b c d, byte a /\ byte b /\ byte c /\ byte d /\ x = of_bytes a b c d.
Proof.
  intros Hx. exists (x mod 256), (x / 2 ^ 8 mod 256), (x / 2 ^ 16 mod 256), (x / 2 ^ 24 mod 256). unfold byte, of_bytes.
  split_and!; dlia.
Qed.

(** The multiplication adds the four counts in the top byte. *)
Lemma sum_bytes a b c d :
  0 <= a <= 8 -> 0 <= b <= 8 -> 0 <= c <= 8 -> 0 <= d <= 8 -> Z.shiftr (u32 (of_bytes a b c d * 0x1010101)) 24 = a + b + c + d.
Proof.
  intros. unfold of_bytes, u32. rewrite Z.shiftr_div_pow2 by lia.
  set (low := a + 2 ^ 8 * (a + b) + 2 ^ 16 * (a + b + c)). set (high := b + c + d + 2 ^ 8 * (c + d) + 2 ^ 16 * d).
  replace (_ * 0x1010101) with ((a + b + c + d) * 2 ^ 24 + low + high * 2 ^ 32) by (unfold low, high; lia).
  rewrite Z_mod_plus_full, Z.mod_small by (unfold low; lia). rewrite Z.div_add_l, Z.div_small by (unfold low; lia). lia.
Qed.

Lemma count_bits_bytes a b c d : byte a -> byte b -> byte c -> byte d ->
  count_bits (of_bytes a b c d) = popcount 8 a + popcount 8 b + popcount 8 c + popcount 8 d.
Proof.
  intros Ha Hb Hc Hd. unfold count_bits.
  destruct (byte_counts a Ha) as (A1 & A2 & A3 & A4 & A5). destruct (byte_counts b Hb) as (B1 & B2 & B3 & B4 & B5).
  destruct (byte_counts c Hc) as (C1 & C2 & C3 & C4 & C5). destruct (byte_counts d Hd) as (D1 & D2 & D3 & D4 & D5).
  change (of_bytes a b c d - Z.land (Z.shiftr (of_bytes a b c d) 1) 0x55555555) with (pairs 4 (of_bytes a b c d)).
  unfold of_bytes. rewrite !pairs_lane by done. change (pairs 0 0) with 0. cbv zeta.
  set (x1 := pairs1 a + _). rewrite (u32_small x1) by (unfold x1, byte in *; lia).
  change (Z.land x1 0x33333333 + Z.land (Z.shiftr x1 2) 0x33333333) with (nibbles 4 x1). unfold x1.
  rewrite !nibbles_lane by done. change (nibbles 0 0) with 0. clear x1.
  set (x2 := nibbles1 _ + _). rewrite (u32_small x2) by (unfold x2; lia).
  rewrite (u32_small (x2 + Z.shiftr x2 4)) by (rewrite Z.shiftr_div_pow2 by lia; unfold x2; dlia).
  change (Z.land (x2 + Z.shiftr x2 4) 0xF0F0F0F) with (counts 4 x2). unfold x2. clear x2.
  rewrite !counts_lane by (lia || dlia). change (counts 0 0) with 0. rewrite A4, B4, C4, D4.
  by apply sum_bytes.
Qed.

(** The bit count of an entry given by host and mask is right: the sequence of
    masked additions computes the number of ones of the 32-bit mask, and it does
    so on the mask in network byte order for the mask that is stored in host
    byte order. *)
Theorem host_mask_bits l e host mask_str ok0 r x :
  inet_pton4 e mask_str = Some x -> 0 <= x < 2 ^ 32 ->
  count_bits x = popcount 32 x
  /\ exists node, (switch_network_list_add_host_port_mask l e host mask_str ok0 r).2 = l <| node_head := node :: node_head l |>
     /\ v4 (node_mask node) = ntohl x /\ bits node = popcount 32 (v4 (node_mask node)).
Proof.
  intros Hp Hx. destruct (to_bytes x Hx) as (a & b & c & d & Ha & Hb & Hc & Hd & Ex).
  assert (count_bits x = popcount 32 x) as Ec by (by rewrite Ex, count_bits_bytes, popcount_bytes).
  split; [exact Ec|]. unfold switch_network_list_add_host_port_mask. rewrite Hp. cbv zeta.
  rewrite (v4_set_v4 (mask_local e) x) by done. eexists. split; [reflexivity|]. cbn [node_mask bits snd].
  rewrite v4_set_v4 by apply ntohl_range. split; [done|]. rewrite Ec.
  assert (ntohl x = of_bytes d c b a) as -> by (rewrite Ex; unfold ntohl, of_bytes, byte in *; dlia).
  rewrite Ex, !popcount_bytes by done. lia.
Qed.

Lemma popcount_ntohl x : 0 <= x < 2 ^ 32 -> popcount 32 (ntohl x) = popcount 32 x.
Proof.
  intros Hx. destruct (to_bytes x Hx) as (a & b & c & d & Ha & Hb & Hc & Hd & Ex).
  assert (ntohl x = of_bytes d c b a) as -> by (rewrite Ex; unfold ntohl, of_bytes, byte in *; dlia). rewrite Ex, !popcount_bytes by done. lia.
Qed.

(** ** Rules

    What a list is told, independently of its nodes: networks by number and length of the prefix, in the order in
    which they are added. *)

Record rule := mk_rule {
  r_six : bool;                (* IPv6 *)
  r_masked : bool;             (* given by host and mask *)
  r_net : Z;                   (* the address as a number *)
  r_len : Z;                   (* the number of leading bits that count *)
  r_allow : bool;
  r_token : option string;
  r_ports : option switch_network_port_range }.

(** The ports of a restriction that are named: those before the first zero, ten at most. *)
Fixpoint until_zero (ps : list Z) : list Z := match ps with [] => [] | p :: ps => if p =? 0 then [] else p :: until_zero ps end.
Definition named (r : switch_network_port_range) : list Z := until_zero (take 10 (ports r)).

(** Port 0 stands for no port. *)
Definition port_permitted (p : Z) (r : option switch_network_port_range) : Prop :=
  p = 0 \/ match r with
           | None => True
           | Some r => (port r = 0 \/ port r = p) /\ (named r <> [] -> p ∈ named r)
                       /\ (named r = [] -> min_port r <> 0 \/ max_port r <> 0 -> min_port r <= p <= max_port r)
           end.

(** The leading [len] of [width] bits agree. *)
Definition agree (width len x y : Z) : Prop := x / 2 ^ (width - len) = y / 2 ^ (width - len).

Definition contains4 (a p : Z) (r : rule) : Prop := r_six r = false /\ agree 32 (r_len r) a (r_net r) /\ port_permitted p (r_ports r).
Definition contains6 (a : Z) (r : rule) : Prop := r_six r = true /\ agree 128 (r_len r) a (r_net r).

(** The verdict of the most specific rule that contains the address, the first one added among equals. *)
Definition verdict (contains : rule -> Prop) (rules : list rule) (default_verdict : bool * option string) (v : bool * option string) : Prop :=
  (forall r, r ∈ rules -> ~ contains r) /\ v = default_verdict
  \/ exists earlier r later, rules = earlier ++ r :: later /\ contains r /\ v = (r_allow r, r_token r)
     /\ (forall q, q ∈ earlier -> contains q -> r_len q < r_len r) /\ (forall q, q ∈ later -> contains q -> r_len q <= r_len r).

(** A node that stands for a rule. *)
Definition stands_for (r : rule) (n : switch_network_node) : Prop :=
  bits n = r_len r /\ 0 <= r_len r /\ node_ok n = r_allow r /\ token n = r_token r
  /\ (forall a p, 0 <= a < 2 ^ 32 -> negb (family n =? AF_INET6) && switch_test_subnet a (v4 (node_ip n)) (v4 (node_mask n)) && is_port_in_node p n = true <-> contains4 a p r)
  /\ (r_masked r = false -> forall a, length a = 16%nat -> Forall byte a ->
        negb (family n =? AF_INET) && switch_testv6_subnet a (node_ip n) (node_mask n) = true <-> contains6 (v6 a) r).

Lemma port_among_named p ps : p <> 0 -> port_among p ps = true <-> p ∈ until_zero ps.
Proof.
  intros Hp. induction ps as [|q ps IH]; cbn [port_among until_zero]; [split; [done|by intros ?%elem_of_nil]|].
  destruct (Z.eqb_spec q 0) as [->|Hq]; [split; [done|by intros ?%elem_of_nil]|]. rewrite elem_of_cons. destruct (Z.eqb_spec p q); [naive_solver|]. rewrite IH. naive_solver.
Qed.

Lemma listed_permitted p r : p <> 0 ->
  (if negb (default 0 (ports r !! 0%nat) =? 0) then port_among p (take MAX_NETWORK_PORTS (ports r))
   else if negb (min_port r =? 0) || negb (max_port r =? 0) then (p >=? min_port r) && (p <=? max_port r) else true) = true
  <-> (named r <> [] -> p ∈ named r) /\ (named r = [] -> min_port r <> 0 \/ max_port r <> 0 -> min_port r <= p <= max_port r).
Proof.
  intros Hp. assert ((default 0 (ports r !! 0%nat) =? 0) = bool_decide (named r = [])) as ->.
  { unfold named. destruct (ports r) as [|q ps]; [done|]. change (default 0 ((q :: ps) !! 0%nat)) with q. cbn [take until_zero]. by destruct (q =? 0). }
  change (take MAX_NETWORK_PORTS (ports r)) with (take 10 (ports r)). 
  destruct (decide (named r = [])) as [E|E]; [rewrite bool_decide_true by done|rewrite bool_decide_false by done; cbn [negb]; rewrite port_among_named by done; fold (named r); tauto].
  cbn [negb]. destruct (Z.eqb_spec (min_port r) 0), (Z.eqb_spec (max_port r) 0); cbn [negb orb]; rewrite ?andb_true_iff, ?Z.geb_leb, ?Z.leb_le; split; try tauto; intros; try lia.
  all: destruct H as [_ H]; specialize (H E); lia.
Qed.

Lemma is_port_permitted p n r : port_range n = default no_ports r -> is_port_in_node p n = true <-> port_permitted p r.
Proof.
  intros E. unfold is_port_in_node, port_permitted. rewrite E. destruct (Z.eqb_spec p 0) as [->|Hp]; [tauto|].
  destruct r as [r|]; cbn [default]; unfold id; [|by split; [right|]]. pose proof (listed_permitted p r Hp) as HL.
  destruct (Z.eqb_spec (port r) 0), (Z.eqb_spec (port r) p); cbn [negb andb]; rewrite ?HL; split; try tauto; try (intros [?|[[?|?] ?]]; tauto); done.
Qed.

(** ** What is added *)

(** A network as it is written. *)
Record net := mk_net { n_host : string; n_len : nat }.
Definition written (n : net) : string := n_host n +:+ "/" +:+ pretty (Z.of_nat (n_len n)).
Definition six (n : net) : bool := has_char ":" (n_host n).

(** One or several networks in one text, or a host and its mask. *)
Inductive addition :=
  | Networks (nets : list net) (allow : bool) (tok : option string) (r : option switch_network_port_range)
  | Host_mask (host mask_str : string) (allow : bool) (r : option switch_network_port_range).

Definition add l e (a : addition) : option (switch_status_t * switch_network_list) :=
  match a with
  | Networks nets allow tok r => switch_network_list_add_cidr_port_token l e (String.concat "," (map written nets)) allow tok r
  | Host_mask host mask_str allow r => Some (switch_network_list_add_host_port_mask l e host mask_str allow r)
  end.

(** All of them, as long as they succeed. *)
Fixpoint add_rules l e (adds : list addition) : option switch_network_list :=
  match adds with
  | [] => Some l
  | a :: adds => match add l e a with Some (SWITCH_STATUS_SUCCESS, l) => add_rules l e adds | _ => None end
  end.

(** The characters of an address: anything but what separates, quotes and escapes. *)
Definition addr_char (c : ascii) : bool := negb (existsb (Ascii.eqb c) [ESCAPE_META; quote; "$"; ","; "/"; "^"; blank; "010"; "013"; "009"]%char).

Definition host_text (s : string) : Prop := (1 <= String.length s <= 120)%nat /\ forallb addr_char (String.list_ascii_of_string s) = true.

(** A network that the C library can read.  All bits of the address count only where the shift by 32 leaves a mask. *)
Definition net_ok e (n : net) : Prop :=
  host_text (n_host n) /\ switch_network_ipv4_mapped_ipv6_addr (written n) = None
  /\ if six n
     then exists a, inet_pton6 e (n_host n) = Some a /\ length a = 16%nat /\ Forall byte a /\ (n_len n <= 128)%nat /\ (n_len n = 0%nat -> a = zero_ip)
     else exists x, inet_pton4 e (n_host n) = Some x /\ 0 <= x < 2 ^ 32 /\ (n_len n <= 32)%nat /\ (n_len n = 0%nat -> x = 0)
          /\ (n_len n = 32%nat -> shr_32 e = 0 \/ shr_32 e = 0xFFFFFFFF /\ x <> 0).

Definition add_ok e (a : addition) : Prop :=
  match a with
  | Networks nets _ _ r => nets <> [] /\ (length nets <= 32)%nat /\ Forall (net_ok e) nets /\ switch_network_port_range_to_string r <> None
  | Host_mask host mask_str _ _ =>
      exists x m len, inet_pton4 e host = Some x /\ 0 <= x < 2 ^ 32 /\ inet_pton4 e mask_str = Some m /\ 0 <= m < 2 ^ 32
        /\ 0 <= len <= 32 /\ ntohl m = 2 ^ 32 - 2 ^ (32 - len) /\ (len = 0 -> x = 0)
  end.

Definition token_of (tok : option string) : option string := match tok with Some EmptyString => None | _ => tok end.

(** The number of ones at the top of a word. *)
Definition mask_len (m : Z) : Z := 32 - Z.log2 (2 ^ 32 - m).

(** The rules of an addition. *)
Definition rules_of e (a : addition) : list rule :=
  match a with
  | Networks nets allow tok r =>
      map (fun n => mk_rule (six n) false (if six n then v6 (default [] (inet_pton6 e (n_host n))) else ntohl (default 0 (inet_pton4 e (n_host n))))
                      (Z.of_nat (n_len n)) allow (token_of tok) r) nets
  | Host_mask host mask_str allow r =>
      [mk_rule false true (ntohl (default 0 (inet_pton4 e host))) (mask_len (ntohl (default 0 (inet_pton4 e mask_str)))) allow None r]
  end.

(** A network is added as the rule it stands for. *)
Lemma append_has_char c s t : has_char c (s +:+ t) = has_char c s || has_char c t.
Proof. induction s as [|x s IH]; [done|]. cbn [has_char]. change (String x s +:+ t) with (String x (s +:+ t)). cbn [has_char]. by rewrite IH, orb_assoc. Qed.

Lemma split_slash_at s t : has_char "/" s = false -> split_slash (s +:+ "/" +:+ t) = (s, Some t).
Proof.
  induction s as [|c s IH]; [done|]. cbn [has_char]. intros [Hc Hs]%orb_false_iff. change (String c s +:+ ?u) with (String c (s +:+ u)). cbn [split_slash]. by rewrite Hc, IH.
Qed.

Lemma substring_short n s : (String.length s <= n)%nat -> String.substring 0 n s = s.
Proof. revert n. induction s as [|c s IH]; intros [|n] Hn; [done..|cbn in Hn; lia|]. cbn [String.substring]. f_equal. apply IH. cbn in Hn. lia. Qed.

Definition len_char (c : ascii) : bool := addr_char c && negb (Ascii.eqb c ":").

Lemma len_text n : (n <= 128)%nat -> atoi (pretty (Z.of_nat n)) = Z.of_nat n /\ (1 <= String.length (pretty (Z.of_nat n)) <= 3)%nat
  /\ forallb len_char (String.list_ascii_of_string (pretty (Z.of_nat n))) = true.
Proof.
  intros Hn. assert (forallb (fun n => (atoi (pretty (Z.of_nat n)) =? Z.of_nat n) && Nat.leb 1 (String.length (pretty (Z.of_nat n))) && Nat.leb (String.length (pretty (Z.of_nat n))) 3
    && forallb len_char (String.list_ascii_of_string (pretty (Z.of_nat n)))) (seq 0 129) = true) as HF by (by vm_compute).
  rewrite forallb_forall in HF. specialize (HF n ltac:(apply in_seq; lia)). rewrite !andb_true_iff, Z.eqb_eq, !Nat.leb_le in HF. naive_solver.
Qed.

Lemma absent_char c f s : forallb f (String.list_ascii_of_string s) = true -> f c = false -> has_char c s = false.
Proof.
  intros Hs Hc. induction s as [|x s IH]; [done|]. cbn [String.list_ascii_of_string forallb has_char] in *. apply andb_true_iff in Hs as [Hx Hs]. rewrite IH by done.
  destruct (Ascii.eqb_spec x c) as [->|]; [congruence|done].
Qed.

Lemma list_ascii_append s t : String.list_ascii_of_string (s +:+ t) = String.list_ascii_of_string s ++ String.list_ascii_of_string t.
Proof. induction s as [|c s IH]; [done|]. exact (f_equal (cons c) IH). Qed.

Section written.
Context (e : env) (n : net).
Hypothesis Hok : net_ok e n.

Lemma len_small : (n_len n <= 128)%nat.
Proof. destruct Hok as (_ & _ & H). destruct (six n); [destruct H as (? & _ & _ & _ & ? & _)|destruct H as (? & _ & _ & ? & _)]; lia. Qed.

Lemma written_colon : has_char ":" (written n) = six n.
Proof.
  destruct (len_text _ len_small) as (_ & _ & HC). unfold written, six. rewrite !append_has_char, (absent_char ":" len_char _ HC) by done. cbn. by rewrite orb_false_r.
Qed.

Lemma written_split : split_slash (String.substring 0 126 (written n)) = (n_host n, Some (pretty (Z.of_nat (n_len n)))).
Proof.
  destruct (len_text _ len_small) as (_ & HL & _), Hok as ((HH & HC) & _). unfold written. rewrite substring_short; [|rewrite !append_length; cbn; lia].
  apply split_slash_at. exact (absent_char "/" addr_char _ HC eq_refl).
Qed.

Lemma written_chars : forall c, len_char c = false -> addr_char c = false -> c <> "/"%char -> has_char c (written n) = false.
Proof.
  intros c Hl Ha Hc. destruct (len_text _ len_small) as (_ & _ & HL), Hok as ((_ & HC) & _). unfold written. rewrite !append_has_char, (absent_char c len_char _ HL) by done.
  rewrite (absent_char c addr_char _ HC) by done. cbn [orb has_char]. destruct (Ascii.eqb_spec "/" c); [congruence|done].
Qed.

Lemma net_stands l allow tok r : switch_network_port_range_to_string r <> None ->
  exists node, switch_network_list_perform_add_cidr_token l e (written n) allow tok r = Some (SWITCH_STATUS_SUCCESS, l <| node_head := node :: node_head l |>)
  /\ Forall (fun q => stands_for q node) (rules_of e (Networks [n] allow tok r)).
Proof.
  intros Hr. unfold switch_network_list_perform_add_cidr_token. pose proof Hok as (_ & Hm & Hn). rewrite Hm. cbn [default].
  destruct (switch_network_port_range_to_string r); [|done]. unfold id. rewrite written_colon.
  pose proof written_split as Hsp. destruct (len_text _ len_small) as (Ha & _ & _). pose proof written_colon as Hcol.
  assert ((if negb (zstr tok) then tok else None) = token_of tok) as -> by (by destruct tok as [[|]|]).
  unfold switch_parse_cidr. rewrite Hsp, Ha, Hcol. cbv zeta. cbn [rules_of map]. destruct (six n).
  - destruct Hn as (a & Ep & La & Fa & Hl & H0). rewrite Ep. rewrite (proj2 (Z.ltb_ge _ 0)) by lia. rewrite Z.gtb_ltb, (proj2 (Z.ltb_ge 128 _)) by lia. cbn [orb default]. unfold id.
    eexists. split; [reflexivity|]. apply Forall_singleton. unfold stands_for.
    cbn [bits node_ok token r_len r_allow r_token family node_ip node_mask r_masked]. split_and!; [done|lia|done|done|intros; split; [done|by intros []]|]. intros _ b Lb Fb.
    change (negb (AF_INET6 =? AF_INET)) with true. cbn [andb]. unfold contains6, agree. cbn [r_six r_len r_net].
    destruct (Nat.eq_dec (n_len n) 0%nat) as [E0|E0].
    + rewrite E0, (H0 E0). change (Z.of_nat 0%nat) with 0. rewrite mask_bytes_0. change (switch_testv6_subnet b zero_ip (replicate 16 0)) with true.
      pose proof (v6_range b Fb). rewrite Lb in *. rewrite Z.sub_0_r, Z.div_small by done. by vm_compute.
    + unfold switch_testv6_subnet. rewrite mask_bytes_specified by lia. cbn [negb].
      pose proof (and_mask_prefix a b (Z.of_nat (n_len n)) Fa Fb ltac:(lia) ltac:(lia)) as HP. rewrite La in HP. rewrite bool_decide_eq_true, HP. change (8 * Z.of_nat 16) with 128.
      split; [intros H; split; [reflexivity|by symmetry]|intros [_ H]; by symmetry].
  - destruct Hn as (x & Ep & Hx & Hl & H0 & H32). rewrite Ep. rewrite (proj2 (Z.ltb_ge _ 0)) by lia. rewrite Z.gtb_ltb, (proj2 (Z.ltb_ge 32 _)) by lia. cbn [orb default]. unfold id.
    rewrite (v4_set_v4 _ x) by done. eexists. split; [reflexivity|]. apply Forall_singleton. unfold stands_for.
    cbn [bits node_ok token r_len r_allow r_token family node_ip node_mask r_masked]. split_and!; [done|lia|done|done| |].
    2: { intros _ b _ _. split; [done|by intros []]. }
    intros a p Hin. change (negb (AF_INET =? AF_INET6)) with true. cbn [andb]. rewrite v4_set_v4 by apply ntohl_range. change (htonl x) with (ntohl x).
    rewrite andb_true_iff, (is_port_permitted p _ r) by done. unfold contains4, agree. cbn [r_six r_len r_net r_ports].
    assert (switch_test_subnet a (ntohl x) (v4 (set_v4 (mask_local e) (mask4 e (Z.of_nat (n_len n))))) = true <-> a / 2 ^ (32 - Z.of_nat (n_len n)) = ntohl x / 2 ^ (32 - Z.of_nat (n_len n))) as ->; [|split; [intros [H1 H2]; exact (conj eq_refl (conj H1 H2))|intros (_ & H1 & H2); exact (conj H1 H2)]].
    destruct (Nat.eq_dec (n_len n) 0%nat) as [E0|E0].
    + rewrite E0, (H0 E0). change (Z.of_nat 0%nat) with 0. rewrite mask4_value, v4_set_v4 by lia. change (ntohl 0) with 0. rewrite !Z.div_small by lia. done.
    + pose proof (ntohl_range x). destruct (subnet_prefix e (Z.of_nat (n_len n)) a (ntohl x)) as [Hmask Et]; [lia|done|done| |by rewrite v4_set_v4, Et, Z.eqb_eq].
      intros Eb. destruct (H32 ltac:(lia)) as [|[? Hx0]]; [by left|right]. split; [done|]. intros E1. apply Hx0.
      rewrite <- (u32_small x), <- ntohl_htonl by done. unfold htonl. by rewrite E1.
Qed.

End written.

Lemma mask_len_value len : 0 <= len <= 32 -> mask_len (2 ^ 32 - 2 ^ (32 - len)) = len /\ popcount 32 (2 ^ 32 - 2 ^ (32 - len)) = len.
Proof.
  intros H. assert (forallb (fun n => (mask_len (2 ^ 32 - 2 ^ (32 - Z.of_nat n)) =? Z.of_nat n) && (popcount 32 (2 ^ 32 - 2 ^ (32 - Z.of_nat n)) =? Z.of_nat n)) (seq 0 33) = true)
    as HF by (by vm_compute). rewrite forallb_forall in HF. specialize (HF (Z.to_nat len) ltac:(apply in_seq; lia)). rewrite Z2Nat.id in HF by lia.
  rewrite andb_true_iff, !Z.eqb_eq in HF. exact HF.
Qed.

Lemma mask_stands l e host mask_str allow r : add_ok e (Host_mask host mask_str allow r) ->
  exists node, switch_network_list_add_host_port_mask l e host mask_str allow r = (SWITCH_STATUS_SUCCESS, l <| node_head := node :: node_head l |>)
  /\ Forall (fun q => stands_for q node) (rules_of e (Host_mask host mask_str allow r)).
Proof.
  intros (x & m & len & Ex & Hx & Em & Hm & Hlen & Hmask & H0). destruct (mask_len_value len Hlen) as [Hml Hpop].
  destruct (host_mask_bits l e host mask_str allow r m Em Hm) as (Hcount & _). unfold switch_network_list_add_host_port_mask. rewrite Ex, Em. cbv zeta. rewrite !v4_set_v4 by done.
  eexists. split; [reflexivity|]. cbn [rules_of]. rewrite Ex, Em. cbn [default]. unfold id. rewrite Hmask, Hml. apply Forall_singleton. unfold stands_for.
  cbn [bits node_ok token r_len r_allow r_token family node_ip node_mask r_masked]. split_and!; [|lia|done|done| |done].
  - rewrite Hcount, <- Hpop, <- Hmask. symmetry. by apply popcount_ntohl.
  - intros a p Ha. change (negb (0 =? AF_INET6)) with true. cbn [andb]. rewrite !v4_set_v4 by (apply ntohl_range || (rewrite <- Hmask; apply ntohl_range)).
    rewrite andb_true_iff, (is_port_permitted p _ r) by done. unfold contains4, agree. cbn [r_six r_len r_net r_ports]. pose proof (ntohl_range x) as Hn.
    assert (switch_test_subnet a (ntohl x) (2 ^ 32 - 2 ^ (32 - len)) = true <-> a / 2 ^ (32 - len) = ntohl x / 2 ^ (32 - len)) as ->;
      [|split; [intros [H1 H2]; exact (conj eq_refl (conj H1 H2))|intros (_ & H1 & H2); exact (conj H1 H2)]].
    destruct (Z.eq_dec len 0) as [->|Hne].
    + rewrite (H0 eq_refl). change (ntohl 0) with 0. rewrite Z.sub_0_r, !Z.div_small by lia. done.
    + pose proof (Z.pow_lt_mono_r 2 (32 - len) 32 ltac:(lia) ltac:(lia) ltac:(lia)). unfold switch_test_subnet. rewrite (proj2 (Z.eqb_neq _ 0)) by lia. cbn [negb].
      rewrite land_prefix, Z.eqb_eq by lia. by split.
Qed.

(** ** Lists that stand for rules *)

Lemma pieces_stand e nets allow tok r : switch_network_port_range_to_string r <> None -> Forall (net_ok e) nets -> forall l,
  exists nodes, add_pieces l e (map written nets) allow tok r SWITCH_STATUS_SUCCESS = Some (SWITCH_STATUS_SUCCESS, l <| node_head := reverse nodes ++ node_head l |>)
  /\ Forall2 stands_for (rules_of e (Networks nets allow tok r)) nodes.
Proof.
  intros Hr HF. induction HF as [|n nets Hn _ IH]; intros l; cbn [map add_pieces].
  - exists []. split; [by destruct l|constructor].
  - destruct (net_stands e n Hn l allow tok r Hr) as (node & -> & Hs). cbn [rules_of map] in Hs. apply Forall_cons in Hs as [Hs _]. rewrite bool_decide_true by done.
    destruct (IH (l <| node_head := node :: node_head l |>)) as (nodes & -> & H2). exists (node :: nodes).
    split; [by rewrite reverse_cons, <- app_assoc|]. by constructor.
Qed.

Lemma escape_plain s : (forall c, c ∈ ["010"; "013"; "009"; blank; "$"]%char -> has_char c s = false) -> switch_escape_string s = s.
Proof.
  intros H. induction s as [|c s IH]; [done|]. cbn [switch_escape_string]. rewrite IH by (intros d Hd; specialize (H d Hd); by apply orb_false_iff in H as [_ H]).
  assert (forall d, d ∈ ["010"; "013"; "009"; blank; "$"]%char -> Ascii.eqb c d = false) as Hc by (intros d Hd; specialize (H d Hd); by apply orb_false_iff in H as [H _]).
  rewrite !Hc by (rewrite !elem_of_cons; tauto). done.
Qed.

Lemma plain_of_absent delim s : (forall c, c ∈ [ESCAPE_META; quote; "$"; delim]%char -> has_char c s = false) -> plain delim s = true.
Proof.
  intros H. induction s as [|c s IH]; [done|]. cbn [plain existsb]. rewrite IH by (intros d Hd; specialize (H d Hd); by apply orb_false_iff in H as [_ H]).
  assert (forall d, d ∈ [ESCAPE_META; quote; "$"; delim]%char -> Ascii.eqb c d = false) as Hc by (intros d Hd; specialize (H d Hd); by apply orb_false_iff in H as [H _]).
  rewrite !Hc by (rewrite !elem_of_cons; tauto). done.
Qed.

Lemma written_absent e n c : net_ok e n -> c ∈ [ESCAPE_META; quote; "$"; ","; "^"; blank; "010"; "013"; "009"]%char -> has_char c (written n) = false.
Proof.
  intros Hn Hc. assert (Forall (fun c => len_char c = false /\ addr_char c = false /\ c <> "/"%char) [ESCAPE_META; quote; "$"; ","; "^"; blank; "010"; "013"; "009"]%char) as HF
    by (repeat constructor; try done; discriminate).
  rewrite Forall_forall in HF. destruct (HF c Hc) as (? & ? & ?). by apply (written_chars e).
Qed.

Lemma written_pieces e nets : nets <> [] -> (length nets <= 32)%nat -> Forall (net_ok e) nets ->
  switch_separate_string (Some (String.concat "," (map written nets))) "," 32 = Some (map written nets).
Proof.
  intros Hne Hl HF. rewrite Forall_forall in HF.
  assert (joined "," (map written nets) = String.concat "," (map written nets)) as EJ.
  { unfold joined. f_equal. rewrite map_map. apply map_ext_in. intros n Hn%list_elem_of_In. apply escape_plain. intros c Hc. apply (written_absent e); [by apply HF|set_solver]. }
  rewrite <- EJ. apply separate_escaped; [done| | |by rewrite length_map|].
  - apply forallb_forall. intros t (n & <- & Hn%list_elem_of_In)%in_map_iff. apply plain_of_absent. intros c Hc. apply (written_absent e); [by apply HF|set_solver].
  - change (map written nets) with (written <$> nets). rewrite fmap_last. destruct (last nets) as [n|]; [|done]. intros [= E]. unfold written in E. by destruct (n_host n).
  - rewrite EJ. destruct nets as [|n nets]; [done|]. assert (has_char "^" (written n) = false) as Hc by (apply (written_absent e); [apply HF; set_solver|set_solver]).
    assert (1 <= String.length (written n))%nat as Hlen by (unfold written; rewrite !append_length; cbn; lia).
    assert (exists c t, String.concat "," (map written (n :: nets)) = String c t /\ Ascii.eqb c "^" = false) as (c & t & -> & Hcc).
    { destruct (written n) as [|c t] eqn:Ew; [cbn in Hlen; lia|]. apply orb_false_iff in Hc as [Hc _]. cbn [map]. rewrite Ew. destruct (map written nets); cbn; eauto. }
    cbn [String.prefix]. destruct (ascii_dec "^" c) as [<-|]; [done|done].
Qed.

Lemma add_stands e a : add_ok e a -> forall l,
  exists nodes, add l e a = Some (SWITCH_STATUS_SUCCESS, l <| node_head := reverse nodes ++ node_head l |>) /\ Forall2 stands_for (rules_of e a) nodes.
Proof.
  destruct a as [nets allow tok r|host mask_str allow r]; intros Ha l; cbn [add].
  - destruct Ha as (Hne & Hl & HF & Hr). unfold switch_network_list_add_cidr_port_token. destruct nets as [|n [|n' nets]]; [done| |].
    + cbn [map String.concat]. apply Forall_cons in HF as [HF _]. rewrite (written_absent e) by (done || set_solver).
      destruct (net_stands e n HF l allow tok r Hr) as (node & -> & Hs). cbn [rules_of map] in Hs. apply Forall_cons in Hs as [Hs _]. exists [node]. split; [done|]. constructor; [exact Hs|constructor].
    + assert (has_char "," (String.concat "," (map written (n :: n' :: nets))) = true) as ->.
      { cbn [map String.concat]. rewrite !append_has_char. cbn. by rewrite orb_true_r. }
      rewrite (written_pieces e) by done. by apply pieces_stand.
  - destruct (mask_stands l e host mask_str allow r Ha) as (node & -> & Hs). cbn [rules_of map] in Hs. apply Forall_cons in Hs as [Hs _]. exists [node]. split; [done|]. constructor; [exact Hs|constructor].
Qed.

Lemma add_all_stands e adds : Forall (add_ok e) adds -> forall l,
  exists nodes, add_rules l e adds = Some (l <| node_head := reverse nodes ++ node_head l |>) /\ Forall2 stands_for (flat_map (rules_of e) adds) nodes.
Proof.
  intros HF. induction HF as [|a adds Ha _ IH]; intros l; cbn [add_rules flat_map].
  - exists []. split; [by destruct l|constructor].
  - destruct (add_stands e a Ha l) as (n1 & -> & H1). destruct (IH (l <| node_head := reverse n1 ++ node_head l |>)) as (n2 & -> & H2). exists (n1 ++ n2).
    split; [|by apply Forall2_app]. rewrite reverse_app, <- app_assoc. by destruct l.
Qed.

(** The node that decides stands for the rule that should. *)
Lemma decides_rule test contains rules nodes n :
  Forall2 (fun r n => bits n = r_len r /\ (test n = true <-> contains r)) rules nodes -> decides test (reverse nodes) n ->
  exists earlier r later, rules = earlier ++ r :: later /\ contains r /\ (r, n) ∈ zip rules nodes
    /\ (forall q, q ∈ earlier -> contains q -> r_len q < r_len r) /\ (forall q, q ∈ later -> contains q -> r_len q <= r_len r).
Proof.
  intros H2 (l1 & l2 & E & Ht & H1 & H3). apply (f_equal reverse) in E. rewrite reverse_involutive, reverse_app, reverse_cons, <- app_assoc in E. subst nodes.
  apply Forall2_app_inv_r in H2 as (earlier & rest & He & Hrest & ->). apply Forall2_cons_inv_r in Hrest as (r & later & [Hb Hc] & Hlater & ->).
  exists earlier, r, later. split_and!; [done|by apply Hc| | |].
  - rewrite zip_with_app by (by apply (Forall2_length _ _ _ He)). apply elem_of_app. right. left.
  - intros q Hq Hcq. apply list_elem_of_lookup in Hq as [i Hi]. destruct (Forall2_lookup_l _ _ _ _ _ He Hi) as (m & Hm & Hbm & Hcm). rewrite <- Hb, <- Hbm.
    apply H3; [|by apply Hcm]. apply elem_of_reverse. by eapply list_elem_of_lookup_2.
  - intros q Hq Hcq. apply list_elem_of_lookup in Hq as [i Hi]. destruct (Forall2_lookup_l _ _ _ _ _ Hlater Hi) as (m & Hm & Hbm & Hcm). rewrite <- Hb, <- Hbm.
    apply H1; [|by apply Hcm]. apply elem_of_reverse. by eapply list_elem_of_lookup_2.
Qed.

Lemma verdict_stands (test : switch_network_node -> bool) contains rules nodes d token0 : Forall2 stands_for rules nodes ->
  (forall r n, r ∈ rules -> stands_for r n -> test n = true <-> contains r) ->
  verdict contains rules (d, token0) (validate_nodes test (reverse nodes) d 0 token0).
Proof.
  intros H2 Htest.
  assert (Forall2 (fun r n => stands_for r n /\ bits n = r_len r /\ (test n = true <-> contains r)) rules nodes) as H3.
  { apply Forall2_same_length_lookup_2; [by eapply Forall2_length|]. intros i r n Hr Hn. pose proof (Forall2_lookup_lr _ _ _ _ _ _ H2 Hr Hn) as Hs.
    split_and!; [done|apply Hs|]. apply Htest; [by eapply list_elem_of_lookup_2|done]. }
  destruct (validate_decided test (reverse nodes) d 0 token0) as [[H4 ->]|(n & H4 & _ & ->)].
  - left. split; [|done]. intros r Hr Hc. apply list_elem_of_lookup in Hr as [i Hi]. destruct (Forall2_lookup_l _ _ _ _ _ H3 Hi) as (n & Hn & (Hs & Hb & Ht)).
    specialize (H4 n ltac:(apply elem_of_reverse; by eapply list_elem_of_lookup_2) (proj2 Ht Hc)). destruct Hs as (? & ? & _). lia.
  - right. destruct (decides_rule test contains rules nodes n) as (earlier & r & later & E & Hc & Hin & HE & HL); [|done|].
    + eapply Forall2_impl; [exact H3|]. by intros ?? [_ ?].
    + exists earlier, r, later. split_and!; try done. apply list_elem_of_lookup in Hin as [i Hi]. apply lookup_zip_with_Some in Hi as (r' & n' & [= <- <-] & Hr & Hn).
      destruct (Forall2_lookup_lr _ _ _ _ _ _ H2 Hr Hn) as (_ & _ & -> & -> & _). done.
Qed.


(** ** Examples *)

(** A C library that knows three addresses, on a machine that masks the count of
    a shift. *)
Definition demo_env : env := {|
  inet_pton4 := fun s => if bool_decide (s = "10.0.0.0") then Some 10 else if bool_decide (s = "10.1.0.0") then Some 266
                         else if bool_decide (s = "255.0.0.0") then Some 255 else None;
  inet_pton6 := fun s => if bool_decide (s = "fe80::") then Some ([254; 128] ++ replicate 14 0) else None;
  ip_local := replicate 16 170; mask_local := replicate 16 170; shr_32 := 0xFFFFFFFF |}.

(** Two networks in one string, the second more specific, and one more of that length, added later. *)
Definition demo_adds : list addition :=
  [Networks [mk_net "10.0.0.0" 8; mk_net "10.1.0.0" 16] true None None; Networks [mk_net "10.1.0.0" 16] false (Some "late") None; Host_mask "10.0.0.0" "255.0.0.0" false None].

Lemma demo_adds_ok : Forall (add_ok demo_env) demo_adds.
Proof.
  assert (net_ok demo_env (mk_net "10.0.0.0" 8)) as H1
    by (split; [split; [cbn; lia|done]|split; [done|exists 10; repeat split; done || (cbn; lia)]]).
  assert (net_ok demo_env (mk_net "10.1.0.0" 16)) as H2
    by (split; [split; [cbn; lia|done]|split; [done|exists 266; repeat split; done || (cbn; lia)]]).
  apply Forall_cons. split; [split_and!; [done|cbn; lia|constructor; [exact H1|constructor; [exact H2|constructor]]|done]|].
  apply Forall_cons. split; [split_and!; [done|cbn; lia|constructor; [exact H2|constructor]|done]|].
  apply Forall_cons. split; [|constructor]. exists 10, 255, 8. split_and!; done || lia.
Qed.


Lemma cidr_matches_prefix_witness :
  exists ip mask, switch_parse_cidr demo_env "10.1.0.0/16" = inr (ip, mask, 16)
  /\ switch_test_subnet 0x0A010203 (v4 ip) (v4 mask) = true /\ switch_test_subnet 0x0A020203 (v4 ip) (v4 mask) = false.
Proof.
  destruct (cidr_matches_prefix demo_env "10.1.0.0/16" "10.1.0.0" "16" eq_refl) as [H _].
  destruct (H 266) as (ip & mask & E & HT);
    [reflexivity|vm_compute; split; discriminate|reflexivity|lia|vm_compute; discriminate|].
  exists ip, mask. split; [exact E|]. rewrite !HT by lia. split; reflexivity.
Defined.

Lemma host_mask_bits_witness :
  exists node, (switch_network_list_add_host_mask (switch_network_list_create "lan" false) demo_env "10.0.0.0" "255.0.0.0" true).2
    = (switch_network_list_create "lan" false) <| node_head := [node] |> /\ bits node = 8.
Proof.
  destruct (host_mask_bits (switch_network_list_create "lan" false) demo_env "10.0.0.0" "255.0.0.0" true None 255)
    as (_ & node & H1 & H2 & H3); [reflexivity|lia|].
  exists node. split; [exact H1|]. rewrite H3, H2. reflexivity.
Defined.

(** An IPv6 address whose first bytes happen to be those of an IPv4 network given
    by host and mask is taken to be in it. *)
Example host_mask_matches_ipv6 :
  switch_network_list_validate_ip6_token
    (switch_network_list_add_host_mask (switch_network_list_create "lan" false) demo_env "10.0.0.0" "255.0.0.0" true).2
    ([1; 2; 3; 10] ++ replicate 12 7) None = (true, None).
Proof. by vm_compute. Qed.

(** An address that inet_pton refuses is added with whatever was on the stack. *)
Example bad_address_added :
  exists l, switch_network_list_add_cidr_token (switch_network_list_create "lan" false) demo_env "ten/8" true None = Some (SWITCH_STATUS_SUCCESS, l)
  /\ (switch_network_list_validate_ip_token l 0xAA000001 None).1 = true.
Proof. eexists. split; [reflexivity|]. by vm_compute. Qed.

(** 0.0.0.0/32 contains every address on a machine that masks the count of a
    shift. *)
Example zero_host_matches_all a : switch_test_subnet a 0 (mask4 demo_env 32) = true.
Proof. done. Qed.

(** Ten ports of five digits overrun the buffer of their description. *)
Example ports_overflow :
  switch_network_port_range_to_string (Some (mk_ports 0 (replicate 10 50000) 0 0)) = None.
Proof. by vm_compute. Qed.

End NetworkList.
