(* ===== verification/Event.v ===== *)
(** * Events (src/src/switch_event.c)

    An event is a list of named headers and a body.  Headers hold the variables
    of channels and the parameters of requests as well: such an event has the
    flag EF_UNIQ_HEADERS and keeps one header per name.  Names are compared
    without regard to case; a hash of the name filters the comparisons.  A
    header has a value and possibly an array of values, which its value then
    shows as ARRAY::a|:b.

    The linked list of headers is a list in the order of the [next] pointers.
    Headers have addresses, because the event keeps a pointer to the last one,
    [last_header], which the code follows and maintains.  An array is the list
    of its [idx] strings.  [None] as the result of an operation is a failed
    assertion (a list of a million headers). *)

From S2P Require Import Prelude.
From S2P Require Import Text.
From stdpp Require Import strings.
From Stdlib Require Import Ascii.

#[local] Open Scope string_scope.
#[local] Open Scope list_scope.
#[local] Open Scope Z_scope.

Module Event.

Import Text.

(** ** Data *)

Definition SWITCH_STACK_BOTTOM : Z := 1.
Definition SWITCH_STACK_TOP : Z := 2.
Definition SWITCH_STACK_UNSHIFT : Z := 4.
Definition SWITCH_STACK_PUSH : Z := 8.
Definition EF_UNIQ_HEADERS : Z := 1.

Record switch_event_header := mk_header {
  addr : nat; name : string; value : option string; array : list string; hash : Z }.

#[export] Instance rebuild_header : Rebuild switch_event_header := fun h =>
  mk_header (addr h) (name h) (value h) (array h) (hash h).
#[export] Instance set_name : Setter name := ltac:(derive_setter).
#[export] Instance set_value : Setter value := ltac:(derive_setter).
#[export] Instance set_array : Setter array := ltac:(derive_setter).
#[export] Instance set_hash : Setter hash := ltac:(derive_setter).

(** [next_addr] is the address of the next allocated header. *)
Record switch_event := mk_event {
  headers : list switch_event_header; last_header : option nat; body : option string; subclass_name : option string;
  flags : Z; next_addr : nat }.

#[export] Instance rebuild_event : Rebuild switch_event := fun e =>
  mk_event (headers e) (last_header e) (body e) (subclass_name e) (flags e) (next_addr e).
#[export] Instance set_headers : Setter headers := ltac:(derive_setter).
#[export] Instance set_last_header : Setter last_header := ltac:(derive_setter).
#[export] Instance set_body : Setter body := ltac:(derive_setter).
#[export] Instance set_subclass_name : Setter subclass_name := ltac:(derive_setter).
#[export] Instance set_event_flags : Setter flags := ltac:(derive_setter).
#[export] Instance set_next_addr : Setter next_addr := ltac:(derive_setter).

Implicit Types (ev : switch_event) (h hp : switch_event_header).

(** The event made by switch_event_create_plain. *)
Definition switch_event_create_plain (uniq : bool) : switch_event :=
  mk_event [] None None None (if uniq then EF_UNIQ_HEADERS else 0) 0.

(** ** Finding headers *)

(** switch_ci_hashfunc_default of a string. *)
Fixpoint ci_hash_from (hash0 : Z) (s : string) : Z :=
  match s with
  | EmptyString => hash0
  | String c s => ci_hash_from (u32 (hash0 * 33 + Z.of_N (N_of_ascii (tolower c)))) s
  end.

Definition switch_ci_hashfunc_default (s : string) : Z := ci_hash_from 0 s.

Definition header_matches (hash0 : Z) (header_name : string) hp : bool :=
  ((hash hp =? 0) || (hash0 =? hash hp)) && strcasecmp_eq (name hp) header_name.

Definition switch_event_get_header_ptr ev (header_name : string) : option switch_event_header :=
  List.find (header_matches (switch_ci_hashfunc_default header_name) header_name) (headers ev).

Definition switch_event_get_header_idx ev (header_name : string) (idx : Z) : option string :=
  match switch_event_get_header_ptr ev header_name with
  | Some hp =>
      if idx >? -1 then if idx <? Z.of_nat (length (array hp)) then array hp !! Z.to_nat idx else None
      else value hp
  | None => if String.eqb header_name "_body" then body ev else None
  end.

Definition switch_event_get_header ev (header_name : string) : option string := switch_event_get_header_idx ev header_name (-1).

Definition switch_event_get_body ev : option string := body ev.

(** ** Deleting and renaming *)

(** The loop of switch_event_del_header_val from [rest]: the headers that stay, the
    new [last_header], and whether one was deleted.  [lp] is the last header
    kept before [rest], [x] the number of headers seen. *)
Fixpoint del_loop (test : switch_event_header -> bool) (rest : list switch_event_header) (lp last : option nat) (x : Z)
  : option (list switch_event_header * option nat * bool) :=
  match rest with
  | [] => Some ([], last, false)
  | hp :: next =>
      let x := x + 1 in
      if negb (x <? 1000000) then None
      else if test hp then
        let last := if bool_decide (last = Some (addr hp)) || match next with [] => true | _ => false end then lp else last in
        match del_loop test next lp last x with Some (kept, last, _) => Some (kept, last, true) | None => None end
      else match del_loop test next (Some (addr hp)) last x with Some (kept, last, st) => Some (hp :: kept, last, st) | None => None end
  end.

(** [strcmp] with a NULL value has no result; the code never gets there, since
    every header in a list has a value. *)
Definition switch_event_del_header_val ev (header_name : string) (val : option string) : option (switch_status_t * switch_event) :=
  let hash0 := switch_ci_hashfunc_default header_name in
  let test hp := header_matches hash0 header_name hp
                 && match val with None | Some EmptyString => true | Some v => bool_decide (value hp = Some v) end in
  match del_loop test (headers ev) None (last_header ev) 0 with
  | Some (kept, last, st) =>
      Some (if st : bool then SWITCH_STATUS_SUCCESS else SWITCH_STATUS_FALSE, ev <| headers := kept |> <| last_header := last |>)
  | None => None
  end.

Definition switch_event_del_header ev (header_name : string) : option switch_event :=
  match switch_event_del_header_val ev header_name None with Some (_, ev) => Some ev | None => None end.

Definition switch_event_rename_header ev (header_name new_header_name : string) : switch_status_t * switch_event :=
  let test := header_matches (switch_ci_hashfunc_default header_name) header_name in
  (if existsb test (headers ev) then SWITCH_STATUS_SUCCESS else SWITCH_STATUS_FALSE,
   ev <| headers := map (fun hp => if test hp then hp <| name := new_header_name |> <| hash := switch_ci_hashfunc_default new_header_name |>
                                   else hp) (headers ev) |>).

(** ** Adding *)

Definition new_header ev (header_name : string) : switch_event_header * switch_event :=
  (mk_header (next_addr ev) header_name None [] 0, ev <| next_addr := S (next_addr ev) |>).

(** [a->next = h] for the header at address [a]. *)
Fixpoint link_after (a : nat) h (l : list switch_event_header) : list switch_event_header :=
  match l with
  | [] => []
  | x :: l => if (addr x =? a)%nat then [x; h] else x :: link_after a h l
  end.

(** The end of switch_event_base_add_header for a new header. *)
Definition link_header ev (stack : Z) h : switch_event :=
  let h := h <| hash := switch_ci_hashfunc_default (name h) |> in
  if test_flag stack SWITCH_STACK_TOP then
    ev <| headers := h :: headers ev |>
       <| last_header := match last_header ev with None => Some (addr h) | Some a => Some a end |>
  else
    ev <| headers := match last_header ev with Some a => link_after a h (headers ev) | None => [h] end |>
       <| last_header := Some (addr h) |>.

(** The text of an array, from the label [redraw]. *)
Definition drawn (l : list string) : string :=
  (if (1 <? length l)%nat then "ARRAY::" else "") +:+ String.concat "|:" l.

Definition redraw h (l : list string) : switch_event_header := h <| array := l |> <| value := Some (drawn l) |>.

(** Pushing: a plain value becomes the first element. *)
Definition push_value h (stack : Z) (data : string) : switch_event_header :=
  let l := match value h, array h with Some v, [] => [v] | _, l => l end in
  redraw h (if test_flag stack SWITCH_STACK_PUSH then l ++ [data] else data :: l).

Definition update_header (a : nat) (f : switch_event_header -> switch_event_header) (l : list switch_event_header) : list switch_event_header :=
  map (fun h => if (addr h =? a)%nat then f h else h) l.

(** strchr for '[': the name before it and the text after it. *)
Fixpoint split_bracket (s : string) : string * option string :=
  match s with
  | EmptyString => ("", None)
  | String c s => if Ascii.eqb c "[" then ("", Some s) else let '(a, b) := split_bracket s in (String c a, b)
  end.

(** switch_separate_string_string for "|:". *)
Fixpoint split_pieces (s : string) : list string :=
  match s with
  | EmptyString => [""]
  | String c s' =>
      let longer := match split_pieces s' with t :: l => String c t :: l | [] => [] end in
      match s' with
      | String d s'' => if Ascii.eqb c "|" && Ascii.eqb d ":" then "" :: split_pieces s'' else longer
      | EmptyString => longer
      end
  end.

Definition uniq ev : bool := test_flag (flags ev) EF_UNIQ_HEADERS.

(** An element written by its index: the array with it, shown anew if it grows. *)
Definition write_index h (index : Z) (data : string) : switch_event_header :=
  if index <? Z.of_nat (length (array h)) then h <| array := <[Z.to_nat index := data]> (array h) |>
  else redraw h (array h ++ replicate (Z.to_nat index - length (array h)) "" ++ [data]).

(** The cases of switch_event_base_add_header: an indexed name of an existing and
    of a new header, pushing to an existing header, a new header.  A value
    ARRAY::a|:b is pushed piece by piece (switch_event_add_array); the pieces
    are shorter, so the length of the value bounds the recursion. *)
Fixpoint base_add_header (fuel : nat) ev (stack : Z) (header_name data : string) : option switch_event :=
  match fuel with
  | O => None
  | S fuel =>
      let ev := if String.eqb header_name "_body" then ev <| body := Some data |> else ev in
      let '(header_name, index_ptr) := split_bracket header_name in
      let pushing := test_flag stack SWITCH_STACK_PUSH || test_flag stack SWITCH_STACK_UNSHIFT in
      let found := match index_ptr with
                   | Some _ => switch_event_get_header_ptr ev header_name
                   | None => if pushing then switch_event_get_header_ptr ev header_name else None
                   end in
      match index_ptr, found with
      | Some ip, Some hp =>
          let index := atoi ip in
          if (index >? -1) && (index <=? 4000) then
            Some (ev <| headers := update_header (addr hp) (fun h => write_index h index data) (headers ev) |>)
          else Some ev
      | Some ip, None =>
          let index := atoi ip in
          let '(h, ev) := new_header ev header_name in
          match (if uniq ev then switch_event_del_header ev header_name else Some ev) with
          | Some ev => if (index >? -1) && (index <=? 4000) then Some (link_header ev stack (write_index h index data)) else Some ev
          | None => None
          end
      | None, Some hp => Some (ev <| headers := update_header (addr hp) (fun h => push_value h stack data) (headers ev) |>)
      | None, None =>
          if String.eqb data "" then switch_event_del_header ev header_name
          else
            match (if uniq ev then switch_event_del_header ev header_name else Some ev) with
            | Some ev =>
                if String.prefix "ARRAY::" data then
                  if (String.length data <? 8)%nat then Some ev
                  else foldl (fun oev piece => match oev with
                                               | Some ev => base_add_header fuel ev SWITCH_STACK_PUSH header_name piece
                                               | None => None
                                               end) (Some ev) (split_pieces (String.substring 7 (String.length data - 7) data))
                else
                  let '(h, ev) := new_header ev header_name in
                  Some (link_header ev stack (if pushing then push_value h stack data else h <| value := Some data |>))
            | None => None
            end
      end
  end.

Definition switch_event_base_add_header ev (stack : Z) (header_name data : string) : option switch_event :=
  base_add_header (S (String.length data)) ev stack header_name data.

(** [None] as [data] is a NULL pointer. *)
Definition switch_event_add_header_string ev (stack : Z) (header_name : string) (data : option string) : option (switch_status_t * switch_event) :=
  match data with
  | Some data => match switch_event_base_add_header ev stack header_name data with Some ev => Some (SWITCH_STATUS_SUCCESS, ev) | None => None end
  | None => Some (SWITCH_STATUS_GENERR, ev)
  end.

Definition switch_event_set_body ev (body0 : option string) : switch_event := ev <| body := body0 |>.

Definition switch_event_set_subclass_name ev (subclass0 : option string) : option (switch_status_t * switch_event) :=
  match subclass0 with
  | None => Some (SWITCH_STATUS_GENERR, ev)
  | Some s =>
      match switch_event_del_header (ev <| subclass_name := Some s |>) "Event-Subclass" with
      | Some ev =>
          match switch_event_add_header_string ev SWITCH_STACK_BOTTOM "Event-Subclass" (Some s) with
          | Some (_, ev) => Some (SWITCH_STATUS_SUCCESS, ev)
          | None => None
          end
      | None => None
      end
  end.

(** ** Copying *)

Definition add_all ev (stack : Z) (header_name : string) (l : list (option string)) : option switch_event :=
  foldl (fun oev d => match oev with
                      | Some ev => match switch_event_add_header_string ev stack header_name d with Some (_, ev) => Some ev | None => None end
                      | None => None
                      end) (Some ev) l.

(** The headers of another event under possibly different names, from the first. *)
Fixpoint add_headers (rename : string -> string) (skip : switch_event_header -> bool) ev (l : list switch_event_header) : option switch_event :=
  match l with
  | [] => Some ev
  | hp :: l =>
      if skip hp then add_headers rename skip ev l
      else
        match (match array hp with
               | [] => add_all ev SWITCH_STACK_BOTTOM (rename (name hp)) [value hp]
               | a => add_all ev SWITCH_STACK_PUSH (rename (name hp)) (map Some a)
               end) with
        | Some ev => add_headers rename skip ev l
        | None => None
        end
  end.

Definition switch_event_merge ev (tomerge : switch_event) : option switch_event :=
  add_headers id (fun _ => false) ev (headers tomerge).

(** switch_event_create_subclass for SWITCH_EVENT_CLONE. *)
Definition create_clone (subclass0 : option string) : option switch_event :=
  let ev := switch_event_create_plain false in
  match subclass0 with
  | Some s =>
      match switch_event_add_header_string (ev <| subclass_name := Some s |>) SWITCH_STACK_BOTTOM "Event-Subclass" (Some s) with
      | Some (_, ev) => Some ev
      | None => None
      end
  | None => Some ev
  end.

Definition is_subclass_header (todup : switch_event) hp : bool :=
  match subclass_name todup with Some _ => String.eqb (name hp) "Event-Subclass" | None => false end.

Definition switch_event_dup (todup : switch_event) : option switch_event :=
  match create_clone (subclass_name todup) with
  | Some ev =>
      match add_headers id (is_subclass_header todup) (ev <| flags := flags todup |>) (headers todup) with
      | Some ev => Some (match body todup with Some b => ev <| body := Some b |> | None => ev end)
      | None => None
      end
  | None => None
  end.

(** The header name in a reply: from and to change places.  The name is built in
    a buffer of 1024 bytes. *)
Definition reply_name (s : string) : string :=
  if strcasecmp_eq (String.substring 0 5 s) "from_" then String.substring 0 1023 ("to_" +:+ String.substring 5 (String.length s - 5) s)
  else if strcasecmp_eq (String.substring 0 3 s) "to_" then String.substring 0 1023 ("from_" +:+ String.substring 3 (String.length s - 3) s)
  else if strcasecmp_eq s "to" then "from"
  else if strcasecmp_eq s "from" then "to"
  else s.

Definition switch_event_dup_reply (todup : switch_event) : option switch_event :=
  match create_clone (subclass_name todup) with
  | Some ev =>
      match add_headers reply_name (is_subclass_header todup) (ev <| flags := flags todup |>) (headers todup) with
      | Some ev =>
          match switch_event_add_header_string ev SWITCH_STACK_BOTTOM "replying" (Some "true") with
          | Some (_, ev) =>
              match body todup with
              | Some b => match switch_event_add_header_string ev SWITCH_STACK_BOTTOM "orig_body" (Some b) with Some (_, ev) => Some ev | None => None end
              | None => Some ev
              end
          | None => None
          end
      | None => None
      end
  | None => None
  end.

Example add_1 :
  match switch_event_base_add_header (switch_event_create_plain true) SWITCH_STACK_BOTTOM "Colors" "ARRAY::red|:blue" with
  | Some ev => (switch_event_get_header ev "colors", switch_event_get_header_idx ev "COLORS" 1)
  | None => (None, None)
  end = (Some "ARRAY::red|:blue", Some "blue").
Proof. reflexivity. Qed.

End Event.
