(* ===== verification/EventTheorems.v ===== *)
(** * Properties of events

    The invariant of the header list of Event.v (addresses, tail pointer, name
    hashes) is kept by every operation, and an event with unique headers is a
    finite map from names, without regard to case, to a value and an array. *)

From S2P Require Import Prelude.
From S2P Require Import Text Event.
From stdpp Require Import strings.
From Stdlib Require Import Ascii.

#[local] Open Scope string_scope.
#[local] Open Scope list_scope.
#[local] Open Scope Z_scope.

Module EventTheorems.

Import Text Event.

Implicit Types (ev : switch_event) (h hp : switch_event_header) (hs : list switch_event_header).

(** ** Names *)

Lemma ci_hash_lower_from a b x : lower a = lower b -> ci_hash_from x a = ci_hash_from x b.
Proof.
  revert b x. induction a as [|c a IH]; intros [|d b] x; cbn; try done. intros [= E H]. rewrite E. by apply IH.
Qed.

Definition key h : string := lower (name h).

Record header_ok (n : nat) h : Prop := {
  o_addr : (addr h < n)%nat;
  o_hash : hash h = switch_ci_hashfunc_default (name h);
  o_value : is_Some (value h);
}.

Lemma matches_key n h s :
  header_ok n h -> header_matches (switch_ci_hashfunc_default s) s h = bool_decide (key h = lower s).
Proof.
  intros [_ Hh _]. unfold header_matches. rewrite Hh. case_bool_decide as E.
  - rewrite (ci_hash_lower_from (name h) s 0 E : switch_ci_hashfunc_default _ = _), Z.eqb_refl, orb_true_r. by apply strcasecmp_lower.
  - apply andb_false_iff. right. destruct (strcasecmp_eq (name h) s) eqn:Es; [|done]. by apply strcasecmp_lower in Es.
Qed.

(** ** The invariant *)

Record event_ok ev : Prop := {
  e_nodup : NoDup (map addr (headers ev));
  e_headers : Forall (header_ok (next_addr ev)) (headers ev);
  e_last : last_header ev = addr <$> last (headers ev);
}.

(** The contents of an event: the first header of a name counts. *)
Definition content h : string * list string := (default "" (value h), array h).
Definition vars_of hs : gmap string (string * list string) := list_to_map (map (fun h => (key h, content h)) hs).
Definition vars ev := vars_of (headers ev).

Lemma vars_of_cons h hs : vars_of (h :: hs) = <[key h := content h]> (vars_of hs).
Proof. done. Qed.

Lemma find_vars n hs s :
  Forall (header_ok n) hs ->
  vars_of hs !! lower s = content <$> List.find (header_matches (switch_ci_hashfunc_default s) s) hs.
Proof.
  induction 1 as [|h hs Hh _ IH]; [done|]. rewrite vars_of_cons. cbn [List.find]. rewrite (matches_key n h s Hh).
  case_bool_decide as E; [by rewrite <- E, lookup_insert_eq|]. by rewrite lookup_insert_ne.
Qed.

Lemma get_ptr_vars ev s : event_ok ev -> vars ev !! lower s = content <$> switch_event_get_header_ptr ev s.
Proof. intros [_ H _]. by eapply find_vars. Qed.

Lemma get_header_vars ev s idx :
  event_ok ev -> s <> "_body" ->
  switch_event_get_header_idx ev s idx
  = match vars ev !! lower s with
    | Some (v, a) => if idx >? -1 then a !! Z.to_nat idx else Some v
    | None => None
    end.
Proof.
  intros Hok Hs. rewrite (get_ptr_vars ev s Hok). unfold switch_event_get_header_idx, switch_event_get_header_ptr.
  destruct (List.find _ _) as [h|] eqn:E; cbn [fmap option_fmap option_map content].
  - apply find_some in E as [E _]. destruct Hok as [_ Hf _]. rewrite Forall_forall in Hf.
    destruct (Hf h) as [_ _ [v Hv]]; [by apply list_elem_of_In|]. rewrite Hv. cbn.
    destruct (Z.gtb_spec idx (-1)); [|done]. destruct (Z.ltb_spec idx (Z.of_nat (length (array h)))); [done|].
    symmetry. apply lookup_ge_None_2. lia.
  - by destruct (String.eqb_spec s "_body").
Qed.

(** ** Deleting *)

Lemma del_loop_spec (test : switch_event_header -> bool) rest lp last x :
  NoDup (map addr rest) -> (rest <> [] -> last = addr <$> list.last rest) -> x + Z.of_nat (length rest) < 1000000 ->
  exists st, del_loop test rest lp last x
    = Some (filter (fun h => test h = false) rest,
            match rest with
            | [] => last
            | _ => match list.last (filter (fun h => test h = false) rest) with Some h => Some (addr h) | None => lp end
            end, st).
Proof.
  revert lp last x. induction rest as [|hp next IH]; intros lp last x Hnd Hlast Hx; cbn [del_loop]; [by eexists|].
  cbn [length] in Hx. rewrite (proj2 (Z.ltb_lt (x + 1) _)) by lia. cbn [negb]. apply NoDup_cons in Hnd as [Hni Hnd].
  specialize (Hlast ltac:(done)). rewrite filter_cons. destruct (test hp) eqn:Et.
  - rewrite decide_False by done. destruct next as [|h2 next].
    { rewrite orb_true_r. cbn. by eexists. }
    assert (bool_decide (last = Some (addr hp)) = false) as ->.
    { apply bool_decide_eq_false. rewrite Hlast. intros E. apply Hni. change (list.last (hp :: h2 :: next)) with (list.last (h2 :: next)) in E.
      destruct (list.last (h2 :: next)) as [h|] eqn:El; [|done]. injection E as <-. change (addr h ∈ addr <$> (h2 :: next)).
      apply list_elem_of_fmap. exists h. split; [done|]. by apply last_Some_elem_of. }
    cbn [orb]. destruct (IH lp last (x + 1)) as (st & ->); [done|by intros _|lia|]. by eexists.
  - rewrite decide_True by done. destruct (IH (Some (addr hp)) last (x + 1)) as (st & ->); [done| |lia|].
    { intros Hne. rewrite Hlast. by destruct next. }
    eexists. do 3 f_equal. destruct next as [|h2 next]; [by rewrite Hlast|]. rewrite last_cons.
    by destruct (list.last (filter _ (h2 :: next))).
Qed.

Lemma nodup_filter (P : switch_event_header -> Prop) `{!forall h, Decision (P h)} hs :
  NoDup (map addr hs) -> NoDup (map addr (filter P hs)).
Proof. intros Hnd. eapply sublist_NoDup; [exact Hnd|]. apply (fmap_sublist addr), sublist_filter. Qed.

Lemma vars_filter hs k : vars_of (filter (fun h => bool_decide (key h = k) = false) hs) = delete k (vars_of hs).
Proof.
  induction hs as [|h hs IH]; [symmetry; apply delete_empty|]. rewrite filter_cons, vars_of_cons. case_decide as E.
  - rewrite bool_decide_eq_false in E. by rewrite vars_of_cons, IH, delete_insert_ne by done.
  - rewrite not_false_iff_true, bool_decide_eq_true in E. by rewrite IH, <- E, delete_insert_eq.
Qed.

(** What an operation leaves alone. *)
Record same_rest ev ev' : Prop := {
  s_flags : flags ev' = flags ev;
  s_subclass : subclass_name ev' = subclass_name ev;
}.

Lemma del_header_spec ev s :
  event_ok ev -> Z.of_nat (length (headers ev)) < 1000000 ->
  exists ev', switch_event_del_header ev s = Some ev' /\ event_ok ev' /\ vars ev' = delete (lower s) (vars ev)
  /\ same_rest ev ev' /\ (length (headers ev') <= length (headers ev))%nat /\ next_addr ev' = next_addr ev /\ body ev' = body ev
  /\ (forall h, h ∈ headers ev' -> h ∈ headers ev).
Proof.
  intros [H1 H2 H3] Hl. unfold switch_event_del_header, switch_event_del_header_val.
  destruct (del_loop_spec (fun hp => header_matches (switch_ci_hashfunc_default s) s hp && true) (headers ev) None (last_header ev) 0)
    as (st & ->); [done|by intros _|lia|].
  assert (filter (fun h => header_matches (switch_ci_hashfunc_default s) s h && true = false) (headers ev)
    = filter (fun h => bool_decide (key h = lower s) = false) (headers ev)) as ->.
  { clear -H2. induction H2 as [|h hs Hh _ IH]; [done|]. rewrite !filter_cons, IH, andb_true_r, (matches_key _ h s Hh). by repeat case_decide. }
  eexists. split; [reflexivity|]. set (kept := filter _ (headers ev)). split_and!; cbn.
  - constructor; cbn.
    + by apply nodup_filter.
    + apply Forall_forall. intros h Hh. apply list_elem_of_filter in Hh as [_ Hh]. by apply (proj1 (Forall_forall _ _) H2).
    + unfold kept. destruct (headers ev); [exact H3|]. by destruct (last _).
  - apply vars_filter.
  - done.
  - unfold kept. apply length_filter.
  - done.
  - done.
  - intros h Hh. by apply list_elem_of_filter in Hh as [_ Hh].
Qed.

(** ** Linking and updating *)

Lemma link_after_last hs h0 h : NoDup (map addr (hs ++ [h0])) -> link_after (addr h0) h (hs ++ [h0]) = (hs ++ [h0]) ++ [h].
Proof.
  induction hs as [|x hs IH]; cbn [app link_after map]; [by rewrite Nat.eqb_refl|]. intros [Hx Hnd]%NoDup_cons.
  destruct (Nat.eqb_spec (addr x) (addr h0)) as [E|_]; [|by rewrite IH].
  exfalso. apply Hx. rewrite E. change (addr h0 ∈ addr <$> (hs ++ [h0])). apply list_elem_of_fmap. exists h0. set_solver.
Qed.

Lemma vars_snoc hs h : vars_of hs !! key h = None -> vars_of (hs ++ [h]) = <[key h := content h]> (vars_of hs).
Proof.
  induction hs as [|x hs IH]; intros Hn; [done|]. cbn [app]. rewrite !vars_of_cons in *.
  apply lookup_insert_None in Hn as [Hn Hne]. rewrite IH by done. by rewrite insert_insert_ne by done.
Qed.

Lemma link_header_headers ev stack h :
  event_ok ev ->
  headers (link_header ev stack h)
  = let h' := h <| hash := switch_ci_hashfunc_default (name h) |> in
    if test_flag stack SWITCH_STACK_TOP then h' :: headers ev else headers ev ++ [h'].
Proof.
  intros [H1 _ H3]. unfold link_header. destruct (test_flag stack SWITCH_STACK_TOP); [done|]. cbn [headers]. cbn. rewrite H3.
  destruct (last (headers ev)) as [h0|] eqn:El; cbn.
  - apply last_Some in El as [l El]. rewrite El in *. by apply link_after_last.
  - apply last_None in El. by rewrite El.
Qed.

Lemma link_header_ok ev stack h :
  event_ok ev -> (addr h < next_addr ev)%nat -> addr h ∉ map addr (headers ev) -> is_Some (value h) ->
  event_ok (link_header ev stack h) /\ length (headers (link_header ev stack h)) = S (length (headers ev)).
Proof.
  intros Hok Ha Hf Hv. pose proof (link_header_headers ev stack h Hok) as HH. destruct Hok as [H1 H2 H3]. cbv zeta in HH.
  set (h' := h <| hash := _ |>) in HH. assert (header_ok (next_addr ev) h') as Hh by (constructor; done).
  assert (next_addr (link_header ev stack h) = next_addr ev
    /\ last_header (link_header ev stack h)
       = if test_flag stack SWITCH_STACK_TOP then match last_header ev with None => Some (addr h') | Some a => Some a end else Some (addr h'))
    as [En El] by (unfold link_header; by destruct (test_flag stack SWITCH_STACK_TOP)).
  change (addr h) with (addr h') in *. clearbody h'. destruct (test_flag stack SWITCH_STACK_TOP).
  - split; [|by rewrite HH]. constructor; rewrite ?HH, ?En, ?El; [by constructor|by constructor|]. rewrite H3, last_cons. by destruct (last (headers ev)).
  - split; [|rewrite HH, length_app; cbn; lia]. constructor; rewrite ?HH, ?En, ?El; [|apply Forall_app; split; [done|by constructor]|by rewrite last_snoc].
    rewrite map_app. apply NoDup_app. split_and!; [done| |by apply NoDup_singleton].
    intros x Hx Hx'. cbn in Hx'. apply list_elem_of_singleton in Hx' as ->. done.
Qed.

Lemma link_header_spec ev stack h :
  event_ok ev -> vars ev !! key h = None -> (addr h < next_addr ev)%nat -> addr h ∉ map addr (headers ev) -> is_Some (value h) ->
  event_ok (link_header ev stack h) /\ vars (link_header ev stack h) = <[key h := content h]> (vars ev)
  /\ same_rest ev (link_header ev stack h) /\ length (headers (link_header ev stack h)) = S (length (headers ev)).
Proof.
  intros Hok Hn Ha Hf Hv. destruct (link_header_ok ev stack h Hok Ha Hf Hv) as [L1 L2]. split_and!; [done| |constructor|done].
  - unfold vars. rewrite (link_header_headers ev stack h Hok). cbv zeta. destruct (test_flag stack SWITCH_STACK_TOP); [done|].
    set (h' := h <| hash := _ |>). change (key h) with (key h') in *. change (content h) with (content h'). by apply vars_snoc.
  - unfold link_header. by destruct (test_flag stack SWITCH_STACK_TOP).
  - unfold link_header. by destruct (test_flag stack SWITCH_STACK_TOP).
Qed.

Lemma vars_update n hs hp f s :
  Forall (header_ok n) hs -> NoDup (map addr hs) ->
  List.find (header_matches (switch_ci_hashfunc_default s) s) hs = Some hp -> key (f hp) = key hp -> addr (f hp) = addr hp ->
  vars_of (update_header (addr hp) f hs) = <[lower s := content (f hp)]> (vars_of hs)
  /\ map addr (update_header (addr hp) f hs) = map addr hs.
Proof.
  intros HF. induction HF as [|h hs Hh HF IH]; [done|]. cbn [map List.find update_header]. intros [Hni Hnd]%NoDup_cons.
  rewrite (matches_key n h s Hh). case_bool_decide as E.
  - intros [= ->] Hk Ha. rewrite Nat.eqb_refl. fold (update_header (addr hp) f hs).
    assert (update_header (addr hp) f hs = hs) as ->.
    { clear -Hni. induction hs as [|x hs IH]; [done|]. cbn in Hni. apply not_elem_of_cons in Hni as [Hx Hni]. cbn.
      destruct (Nat.eqb_spec (addr x) (addr hp)); [done|]. f_equal. by apply IH. }
    rewrite !vars_of_cons, Hk, E, insert_insert_eq, Ha. done.
  - intros Hf Hk Ha. destruct (IH Hnd Hf Hk Ha) as [IH1 IH2]. fold (update_header (addr hp) f hs). unfold update_header in *.
    assert ((addr h =? addr hp)%nat = false) as ->.
    { apply Nat.eqb_neq. intros Ea. apply Hni. rewrite Ea. apply find_some in Hf as [Hf _].
      change (addr hp ∈ addr <$> hs). apply list_elem_of_fmap. exists hp. split; [done|by apply list_elem_of_In]. }
    rewrite IH2. split; [|done]. rewrite !vars_of_cons, IH1, insert_insert_ne by done. done.
Qed.

Lemma update_spec ev hp f s :
  event_ok ev -> switch_event_get_header_ptr ev s = Some hp -> name (f hp) = name hp -> addr (f hp) = addr hp ->
  hash (f hp) = hash hp -> is_Some (value (f hp)) ->
  let ev' := ev <| headers := update_header (addr hp) f (headers ev) |> in
  event_ok ev' /\ vars ev' = <[lower s := content (f hp)]> (vars ev) /\ same_rest ev ev' /\ length (headers ev') = length (headers ev).
Proof.
  intros [H1 H2 H3] Hf Hn Ha Hh Hv ev'. unfold switch_event_get_header_ptr in Hf.
  destruct (vars_update (next_addr ev) (headers ev) hp f s H2 H1 Hf) as [E1 E2]; [unfold key; by rewrite Hn|done|].
  assert (forall x, x ∈ headers ev -> addr x = addr hp -> x = hp) as HU.
  { intros x Hx Ex. apply find_some in Hf as [Hf%list_elem_of_In _].
    apply list_elem_of_lookup in Hx as [i Hi]. apply list_elem_of_lookup in Hf as [j Hj].
    assert (i = j) as ->; [|congruence]. eapply (NoDup_lookup (map addr (headers ev))); [done| |].
    - change (map addr (headers ev)) with (addr <$> headers ev). by rewrite list_lookup_fmap, Hi.
    - change (map addr (headers ev)) with (addr <$> headers ev). rewrite list_lookup_fmap, Hj. cbn. by rewrite Ex. }
  split_and!; [|done|done|cbn; by unfold update_header; rewrite length_map]. constructor; cbn.
  - by rewrite E2.
  - apply Forall_map, Forall_forall. intros x Hx. pose proof (proj1 (Forall_forall _ _) H2 x Hx) as Hok. cbn.
    destruct (Nat.eqb_spec (addr x) (addr hp)) as [Ex|_]; [|done]. rewrite (HU x Hx Ex) in *. destruct Hok. constructor; [by rewrite Ha|by rewrite Hh, Hn|done].
  - rewrite H3. assert (forall hs, addr <$> last hs = last (map addr hs)) as HL by (intros; symmetry; apply (fmap_last addr)).
    by rewrite !HL, E2.
Qed.

(** ** Adding *)

(** Arrays as texts, on their own: ARRAY:: and the elements with |: between them; a single element is its own text. *)
Definition shown (l : list string) : string := match l with [] => "" | [d] => d | _ => "ARRAY::" +:+ String.concat "|:" l end.

(** The pieces between the separators. *)
Fixpoint fields (fuel : nat) (s : string) : list string :=
  match fuel with
  | O => []
  | S fuel => match strstr "|:" s with Some (a, b) => a :: fields fuel b | None => [s] end
  end.

Definition is_array (d : string) : bool := String.prefix "ARRAY::" d.
Definition array_pieces (d : string) : list string := fields (S (String.length d)) (String.substring 7 (String.length d - 7) d).

(** The elements that an array text stands for: its pieces, without those at its front that are empty, and with the
    elements of the first other piece if this is an array text itself. *)
Fixpoint opened (elements : string -> list string) (l : list string) : list string :=
  match l with
  | [] => []
  | p :: l =>
      if String.eqb p "" then opened elements l
      else if is_array p then match elements p with [] => opened elements l | e => e ++ l end
      else p :: l
  end.

Fixpoint elements (depth : nat) (d : string) : list string :=
  match depth with O => [] | S depth => opened (elements depth) (array_pieces d) end.

(** What adding [d] makes of the entry of its name. *)
Definition add_entry (stack : Z) (index : option Z) (d : string) (old : option (string * list string)) : option (string * list string) :=
  let pushing := test_flag stack SWITCH_STACK_PUSH || test_flag stack SWITCH_STACK_UNSHIFT in
  match index with
  | Some i =>
      if (i >? -1) && (i <=? 4000) then
        let '(v, a) := default ("", []) old in
        let grown := a ++ replicate (Z.to_nat i - length a) "" ++ [d] in
        Some (if i <? Z.of_nat (length a) then (v, <[Z.to_nat i := d]> a) else (shown grown, grown))
      else old
  | None =>
      match (if pushing then old else None) with
      | Some (v, a) =>
          let a := match a with [] => [v] | _ => a end in
          let a := if test_flag stack SWITCH_STACK_PUSH then a ++ [d] else d :: a in
          Some (shown a, a)
      | None =>
          if String.eqb d "" then None
          else if is_array d then match elements (String.length d) d with [] => None | a => Some (shown a, a) end
          else Some (d, if pushing then [d] else [])
      end
  end.

Lemma drawn_shown l : drawn l = shown l.
Proof. by destruct l as [|d [|d' l]]. Qed.

Lemma alloc_ok ev : event_ok ev ->
  event_ok (ev <| next_addr := S (next_addr ev) |>) /\ next_addr ev ∉ map addr (headers ev).
Proof.
  intros [H1 H2 H3]. split.
  - constructor; cbn; [done| |done]. eapply Forall_impl; [exact H2|]. intros h []. constructor; [lia|done|done].
  - change (next_addr ev ∉ addr <$> headers ev). intros (h & E & Hh)%list_elem_of_fmap.
    apply (proj1 (Forall_forall _ _) H2) in Hh as [Ha _ _]. lia.
Qed.

Lemma alter_insert_entry (m : gmap string (string * list string)) k f x : f (m !! k) = Some x -> partial_alter f k m = <[k := x]> m.
Proof. intros H. apply partial_alter_ext. by intros ? <-. Qed.

Lemma alter_delete_entry (m : gmap string (string * list string)) k f : f (m !! k) = None -> partial_alter f k m = delete k m.
Proof. intros H. apply partial_alter_ext. by intros ? <-. Qed.

(** The deletion before a new header is linked, where the flag asks for it. *)
Lemma del_uniq_spec ev s :
  event_ok ev -> Z.of_nat (length (headers ev)) < 1000000 ->
  exists ev', (if uniq ev then switch_event_del_header ev s else Some ev) = Some ev' /\ event_ok ev'
  /\ (uniq ev = true \/ vars ev !! lower s = None -> vars ev' = delete (lower s) (vars ev))
  /\ same_rest ev ev' /\ (length (headers ev') <= length (headers ev))%nat
  /\ next_addr ev' = next_addr ev /\ (forall h, h ∈ headers ev' -> h ∈ headers ev).
Proof.
  intros Hok Hl. destruct (uniq ev) eqn:E.
  - destruct (del_header_spec ev s Hok Hl) as (ev' & -> & H1 & H2 & H3 & H4 & H5 & _ & H6). by exists ev'.
  - exists ev. split_and!; try done. intros [|Hn]; [done|]. by rewrite delete_id.
Qed.

(** A new header for a name that is deleted first, if need be. *)
Lemma add_new_spec ev stack s (g : switch_event_header -> switch_event_header) :
  event_ok ev -> uniq ev = true \/ vars ev !! lower s = None -> Z.of_nat (length (headers ev)) < 1000000 ->
  (let h := (new_header ev s).1 in addr (g h) = addr h /\ name (g h) = name h /\ is_Some (value (g h))) ->
  exists ev', (let '(h, ev) := new_header ev s in
               match (if uniq ev then switch_event_del_header ev s else Some ev) with
               | Some ev => Some (link_header ev stack (g h))
               | None => None
               end) = Some ev'
  /\ event_ok ev' /\ vars ev' = <[lower s := content (g (new_header ev s).1)]> (vars ev)
  /\ same_rest ev ev' /\ (length (headers ev') <= S (length (headers ev)))%nat.
Proof.
  intros Hok Hu Hl Hg. destruct (alloc_ok ev Hok) as [Ha Hf]. unfold new_header in *. cbn [fst] in *.
  set (h := mk_header (next_addr ev) s None [] 0). destruct Hg as (G1 & G2 & G3). fold h in G1, G2, G3.
  destruct (del_uniq_spec (ev <| next_addr := S (next_addr ev) |>) s Ha Hl) as (ev1 & -> & H1 & H2 & H3 & H4 & H5 & H6). specialize (H2 Hu).
  assert (key (g h) = lower s) as Hk by (unfold key; by rewrite G2).
  destruct (link_header_spec ev1 stack (g h)) as (L1 & L2 & L3 & L4); [done|by rewrite Hk, H2, lookup_delete_eq| | |done|].
  - rewrite G1, H5. cbn. lia.
  - rewrite G1. intros (x & E & Hx%H6)%(list_elem_of_fmap addr). apply Hf. apply (list_elem_of_fmap addr). by exists x.
  - eexists. split; [reflexivity|]. split; [done|]. rewrite L2, Hk, H2. split_and!.
    + change (vars (ev <| next_addr := ?x |>)) with (vars ev). apply insert_delete_eq.
    + destruct H3, L3. constructor; [etrans; [|exact s_flags0]; done|etrans; [|exact s_subclass0]; done].
    + rewrite L4. cbn in H4. lia.
Qed.

Lemma add_fresh_spec ev stack s (g : switch_event_header -> switch_event_header) :
  event_ok ev -> vars ev !! lower s = None ->
  (let h := (new_header ev s).1 in addr (g h) = addr h /\ name (g h) = name h /\ is_Some (value (g h))) ->
  let ev' := link_header (new_header ev s).2 stack (g (new_header ev s).1) in
  event_ok ev' /\ vars ev' = <[lower s := content (g (new_header ev s).1)]> (vars ev) /\ same_rest ev ev'
  /\ length (headers ev') = S (length (headers ev)).
Proof.
  intros Hok Hn Hg. destruct (alloc_ok ev Hok) as [Ha Hf]. unfold new_header in *. cbn [fst snd] in *.
  set (h := mk_header (next_addr ev) s None [] 0). destruct Hg as (G1 & G2 & G3). fold h in G1, G2, G3.
  assert (key (g h) = lower s) as Hk by (unfold key; by rewrite G2). rewrite <- Hk in *.
  destruct (link_header_spec (ev <| next_addr := S (next_addr ev) |>) stack (g h)) as (L1 & L2 & L3 & L4);
    [done|exact Hn|rewrite G1; cbn; lia|by rewrite G1|done|].
  split_and!; [done|done|by destruct L3|done].
Qed.

Definition pieces_ok (data : string) : bool := negb (String.prefix "ARRAY::" data).

Lemma drawn_one d : drawn [d] = d.
Proof. done. Qed.

(** The effect of an addition on the event. *)
Record adds ev (k : string) (f : option (string * list string) -> option (string * list string)) ev' : Prop := {
  a_ok : event_ok ev';
  a_rest : same_rest ev ev';
  a_length : (length (headers ev') <= S (length (headers ev)))%nat;
  a_vars : vars ev' = partial_alter f (lower k) (vars ev);
}.

Lemma write_index_frame h i d :
  addr (write_index h i d) = addr h /\ name (write_index h i d) = name h /\ hash (write_index h i d) = hash h
  /\ (is_Some (value h) \/ array h = [] /\ 0 <= i -> is_Some (value (write_index h i d))).
Proof.
  unfold write_index. destruct (Z.ltb_spec i (Z.of_nat (length (array h)))) as [H|H]; split_and!; try done.
  intros [|[E Hi]]; [done|]. rewrite E in H. cbn in H. lia.
Qed.

Lemma found_value ev s hp : event_ok ev -> switch_event_get_header_ptr ev s = Some hp -> is_Some (value hp).
Proof.
  intros [_ K _] Ef. apply find_some in Ef as [Ef%list_elem_of_In _]. by apply (proj1 (Forall_forall _ _) K) in Ef as [_ _ ?].
Qed.

(** A name with an index. *)
Lemma add_index_found ev stack k i d hp :
  event_ok ev -> switch_event_get_header_ptr ev k = Some hp -> (i >? -1) && (i <=? 4000) = true ->
  adds ev k (add_entry stack (Some i) d) (ev <| headers := update_header (addr hp) (fun h => write_index h i d) (headers ev) |>).
Proof.
  intros Hok Ef Ei. destruct (write_index_frame hp i d) as (W1 & W2 & W3 & W4).
  destruct (update_spec ev hp (fun h => write_index h i d) k) as (U1 & U2 & U3 & U4); try done.
  { apply W4. left. by eapply found_value. }
  constructor; [done|done|lia|]. rewrite U2. symmetry. apply alter_insert_entry. rewrite (get_ptr_vars ev k Hok), Ef.
  unfold add_entry. rewrite Ei. cbn [fmap option_fmap option_map default from_option id content]. rewrite <- drawn_shown. unfold write_index. by destruct (_ <? _).
Qed.

Lemma add_index_new ev stack k i d :
  event_ok ev -> uniq ev = true -> Z.of_nat (length (headers ev)) < 1000000 ->
  switch_event_get_header_ptr ev k = None ->
  exists ev', (let '(h, ev) := new_header ev k in
               match (if uniq ev then switch_event_del_header ev k else Some ev) with
               | Some ev => if (i >? -1) && (i <=? 4000) then Some (link_header ev stack (write_index h i d)) else Some ev
               | None => None
               end) = Some ev' /\ adds ev k (add_entry stack (Some i) d) ev'.
Proof.
  intros Hok Hu Hl Ef. assert (vars ev !! lower k = None) as Hn by (rewrite (get_ptr_vars ev k Hok), Ef; done).
  destruct ((i >? -1) && (i <=? 4000)) eqn:Ei.
  - assert (0 <= i) as Hi by (apply andb_true_iff in Ei as [Ei _]; lia). destruct (add_new_spec ev stack k (fun h => write_index h i d)) as (ev' & E & A1 & A2 & A3 & A4); [done|auto|done| |].
    { destruct (write_index_frame (new_header ev k).1 i d) as (W1 & W2 & _ & W4). split_and!; [done|done|]. apply W4. by right. }
    exists ev'. split; [exact E|]. constructor; [done|done|done|]. rewrite A2. symmetry. apply alter_insert_entry. rewrite Hn.
    unfold add_entry. rewrite Ei. unfold write_index. cbn [new_header fst array length default from_option id]. rewrite <- drawn_shown.
    by destruct (Z.ltb_spec i (Z.of_nat 0)); [lia|].
  - destruct (alloc_ok ev Hok) as [Ha _]. unfold new_header.
    destruct (del_uniq_spec (ev <| next_addr := S (next_addr ev) |>) k Ha Hl) as (ev1 & -> & H1 & H2 & H3 & H4 & _). specialize (H2 (or_introl Hu)).
    exists ev1. split; [done|]. cbn in H4. constructor; [done|by destruct H3|lia|]. rewrite H2. symmetry.
    change (vars (ev <| next_addr := ?x |>)) with (vars ev). apply alter_delete_entry. rewrite Hn. unfold add_entry. by rewrite Ei.
Qed.

Lemma add_push_found ev stack k d hp :
  event_ok ev -> switch_event_get_header_ptr ev k = Some hp ->
  test_flag stack SWITCH_STACK_PUSH || test_flag stack SWITCH_STACK_UNSHIFT = true ->
  adds ev k (add_entry stack None d) (ev <| headers := update_header (addr hp) (fun h => push_value h stack d) (headers ev) |>).
Proof.
  intros Hok Ef Hp. destruct (update_spec ev hp (fun h => push_value h stack d) k) as (U1 & U2 & U3 & U4); try done.
  constructor; [done|done|lia|]. rewrite U2. symmetry. apply alter_insert_entry. rewrite (get_ptr_vars ev k Hok), Ef.
  destruct (found_value ev k hp Hok Ef) as [v Hv]. unfold add_entry. rewrite Hp. unfold push_value, content. cbn. rewrite Hv. cbn. rewrite <- drawn_shown.
  by destruct (array hp), (test_flag stack SWITCH_STACK_PUSH).
Qed.

Lemma add_new_plain ev stack k d (pushing := test_flag stack SWITCH_STACK_PUSH || test_flag stack SWITCH_STACK_UNSHIFT) :
  event_ok ev -> Z.of_nat (length (headers ev)) < 1000000 -> d <> "" -> is_array d = false ->
  (if pushing then vars ev !! lower k = None else uniq ev = true) ->
  exists ev', match (if uniq ev then switch_event_del_header ev k else Some ev) with
              | Some ev => let '(h, ev) := new_header ev k in
                           Some (link_header ev stack (if pushing then push_value h stack d else h <| value := Some d |>))
              | None => None
              end = Some ev' /\ adds ev k (add_entry stack None d) ev'.
Proof.
  intros Hok Hl Hd Hda Hu. destruct (del_uniq_spec ev k Hok Hl) as (ev1 & -> & H1 & H2 & H3 & H4 & _). specialize (H2 ltac:(destruct pushing; auto)).
  destruct (add_fresh_spec ev1 stack k (fun h => if pushing then push_value h stack d else h <| value := Some d |>)) as (F1 & F2 & F3 & F4);
    [done|by rewrite H2, lookup_delete_eq|by destruct pushing|].
  eexists. split; [reflexivity|]. unfold new_header in *. cbn [fst snd] in *. constructor; [done| |lia|].
  - destruct H3 as [S1 S2], F3 as [S3 S4]. constructor; [by rewrite S3|by rewrite S4].
  - rewrite F2, H2, insert_delete_eq. symmetry. apply alter_insert_entry. unfold add_entry. fold pushing.
    assert ((if pushing then vars ev !! lower k else None) = None) as -> by (by destruct pushing).
    destruct (String.eqb_spec d ""); [done|]. rewrite Hda. destruct pushing; [|done]. unfold push_value. cbn. by destruct (test_flag stack SWITCH_STACK_PUSH).
Qed.

(** One addition: on an event with unique headers, or by pushing. *)
Lemma base_add_spec ev stack s d k ip fuel :
  event_ok ev -> Z.of_nat (length (headers ev)) < 1000000 -> split_bracket s = (k, ip) ->
  pieces_ok d = true
  \/ test_flag stack SWITCH_STACK_PUSH || test_flag stack SWITCH_STACK_UNSHIFT = true /\ is_Some (vars ev !! lower k) ->
  uniq ev = true \/ ip = None /\ test_flag stack SWITCH_STACK_PUSH || test_flag stack SWITCH_STACK_UNSHIFT = true ->
  exists ev', base_add_header (S fuel) ev stack s d = Some ev' /\ adds ev k (add_entry stack (atoi <$> ip) d) ev'.
Proof.
  intros Hok Hl Hs Hd Hu. cbn [base_add_header]. rewrite Hs.
  set (ev0 := if String.eqb s "_body" then ev <| body := Some d |> else ev).
  assert (event_ok ev0 /\ vars ev0 = vars ev /\ headers ev0 = headers ev /\ same_rest ev ev0 /\ uniq ev0 = uniq ev) as (K0 & V0 & E0 & R0 & U0).
  { unfold ev0. destruct (String.eqb s "_body"); [|done]. split_and!; try done. by destruct Hok. }
  clearbody ev0. rewrite <- U0 in Hu. rewrite <- E0 in Hl.
  assert (forall f ev', adds ev0 k f ev' -> adds ev k f ev') as HR.
  { intros f ev' [A1 [F S] A3 A4]. destruct R0 as [F0 S0]. constructor; [done|constructor; congruence|by rewrite <- E0|by rewrite <- V0]. }
  destruct ip as [ip|]; cbn [fmap option_fmap option_map].
  - destruct Hu as [Hu|[? _]]; [|done]. destruct (switch_event_get_header_ptr ev0 k) as [hp|] eqn:Ef.
    + destruct ((atoi ip >? -1) && (atoi ip <=? 4000)) eqn:Ei.
      * eexists. split; [reflexivity|]. by apply HR, add_index_found.
      * exists ev0. split; [done|]. apply HR. constructor; [done|done|lia|]. symmetry. apply partial_alter_id.
        unfold add_entry. by rewrite Ei.
    + destruct (add_index_new ev0 stack k (atoi ip) d) as (ev' & E & A); try done. exists ev'. split; [exact E|by apply HR].
  - set (pushing := test_flag stack SWITCH_STACK_PUSH || test_flag stack SWITCH_STACK_UNSHIFT) in *.
    destruct (if pushing then switch_event_get_header_ptr ev0 k else None) as [hp|] eqn:Ef.
    { destruct pushing eqn:Ep; [|done]. eexists. split; [reflexivity|]. by apply HR, add_push_found. }
    assert (if pushing then vars ev0 !! lower k = None else uniq ev0 = true) as Hn.
    { destruct pushing; [by rewrite (get_ptr_vars ev0 k K0), Ef|]. by destruct Hu as [|[_ ?]]. }
    destruct (String.eqb_spec d "") as [->|Hd0].
    + destruct (del_header_spec ev0 k K0 Hl) as (ev' & -> & H1 & H2 & H3 & H4 & _). exists ev'. split; [done|]. apply HR.
      constructor; [done|done|lia|]. rewrite H2. symmetry. apply alter_delete_entry. unfold add_entry. fold pushing.
      destruct pushing; [by rewrite Hn|done].
    + assert (String.prefix "ARRAY::" d = false) as Hd'.
      { destruct Hd as [Hd|[Hp [x Hx]]]; [by apply negb_true_iff in Hd|]. rewrite Hp, V0, Hx in Hn. done. }
      destruct (add_new_plain ev0 stack k d) as (ev' & E & A); [done|done|done|done|exact Hn|].
      exists ev'. split; [|by apply HR]. rewrite <- E. destruct (if uniq ev0 then _ else _); [|done]. by rewrite Hd'.
Qed.

(** ** Arrays as text *)

(** With an index the text is stored as it is. *)
Lemma base_add_indexed ev stack s d k ip fuel : event_ok ev -> Z.of_nat (length (headers ev)) < 1000000 -> split_bracket s = (k, Some ip) -> uniq ev = true ->
  exists ev', base_add_header (S fuel) ev stack s d = Some ev' /\ adds ev k (add_entry stack (Some (atoi ip)) d) ev'.
Proof.
  intros Hok Hl Hs Hu. assert (String.eqb s "_body" = false) as Hb by (apply String.eqb_neq; intros ->; discriminate Hs). cbn [base_add_header]. rewrite Hs, Hb.
  destruct (switch_event_get_header_ptr ev k) as [hp|] eqn:Ef.
  - destruct ((atoi ip >? -1) && (atoi ip <=? 4000)) eqn:Ei.
    + eexists. split; [reflexivity|]. by apply add_index_found.
    + exists ev. split; [done|]. constructor; [done|done|lia|]. symmetry. apply partial_alter_id. unfold add_entry. by rewrite Ei.
  - by apply add_index_new.
Qed.

Fixpoint has_separator (s : string) : bool :=
  match s with
  | String c s' => match s' with String d _ => Ascii.eqb c "|" && Ascii.eqb d ":" | EmptyString => false end || has_separator s'
  | EmptyString => false
  end.

Lemma split_pieces_skip c s t l :
  match s with String d _ => Ascii.eqb c "|" && Ascii.eqb d ":" | EmptyString => false end = false ->
  split_pieces s = t :: l -> split_pieces (String c s) = String c t :: l.
Proof. intros Hc E. cbn [split_pieces]. rewrite E. by destruct s; [|rewrite Hc]. Qed.

Lemma split_pieces_app p s : has_separator p = false -> split_pieces (p +:+ "|:" +:+ s) = p :: split_pieces s.
Proof.
  induction p as [|c p IH]; intros Hp; [done|]. cbn [has_separator] in Hp. apply orb_false_iff in Hp as [Hc Hp].
  apply split_pieces_skip; [|by apply IH]. destruct p; cbn; [apply andb_false_r|done].
Qed.

Lemma split_pieces_last p : has_separator p = false -> split_pieces p = [p].
Proof.
  induction p as [|c p IH]; intros Hp; [done|]. cbn [has_separator] in Hp. apply orb_false_iff in Hp as [Hc Hp].
  apply split_pieces_skip; [done|by apply IH].
Qed.

Lemma split_concat p l :
  Forall (fun p => has_separator p = false) (p :: l) -> split_pieces (String.concat "|:" (p :: l)) = p :: l.
Proof.
  revert p. induction l as [|q l IH]; intros p [Hp Hl]%Forall_cons; [by apply split_pieces_last|].
  change (String.concat "|:" (p :: q :: l)) with (p +:+ "|:" +:+ String.concat "|:" (q :: l)). by rewrite split_pieces_app, IH.
Qed.

(** Pushing pieces one by one. *)
Definition push_pieces (fuel : string -> nat) (k : string) ev (l : list string) : option switch_event :=
  foldl (fun oev piece => match oev with Some ev => base_add_header (S (fuel piece)) ev SWITCH_STACK_PUSH k piece | None => None end)
    (Some ev) l.

Lemma base_push_found fuel ev k d v a :
  event_ok ev -> split_bracket k = (k, None) -> vars ev !! lower k = Some (v, a) -> a <> [] ->
  exists ev', base_add_header (S fuel) ev SWITCH_STACK_PUSH k d = Some ev' /\ event_ok ev' /\ same_rest ev ev'
  /\ length (headers ev') = length (headers ev) /\ vars ev' = <[lower k := (drawn (a ++ [d]), a ++ [d])]> (vars ev).
Proof.
  intros Hok Hk Hv Ha. destruct (switch_event_get_header_ptr ev k) as [hp|] eqn:Ef; [|rewrite (get_ptr_vars ev k Hok), Ef in Hv; done].
  set (ev0 := if String.eqb k "_body" then ev <| body := Some d |> else ev).
  assert (event_ok ev0 /\ headers ev0 = headers ev /\ same_rest ev ev0) as (K0 & E0 & [R1 R2]).
  { unfold ev0. destruct (String.eqb k "_body"); [|done]. split_and!; try done. by destruct Hok. }
  assert (switch_event_get_header_ptr ev0 k = Some hp) as Ef0 by (unfold switch_event_get_header_ptr; by rewrite E0).
  destruct (add_push_found ev0 SWITCH_STACK_PUSH k d hp K0 Ef0 eq_refl) as [A1 [A2 A3] _ A4]. cbn in A2, A3.
  eexists. split_and!; [|exact A1|constructor; cbn; congruence| |].
  - cbn [base_add_header]. rewrite Hk. fold ev0. cbn [test_flag]. change (test_flag SWITCH_STACK_PUSH SWITCH_STACK_PUSH) with true. cbn [orb].
    by rewrite Ef0.
  - cbn. unfold update_header. by rewrite length_map, E0.
  - rewrite A4. assert (vars ev0 = vars ev) as -> by (unfold vars; by rewrite E0). apply alter_insert_entry.
    rewrite Hv, drawn_shown. unfold add_entry. by destruct a.
Qed.

Lemma push_pieces_found fuel k l ev a :
  event_ok ev -> split_bracket k = (k, None) -> vars ev !! lower k = Some (drawn a, a) -> a <> [] ->
  exists ev', push_pieces fuel k ev l = Some ev' /\ event_ok ev' /\ vars ev' = <[lower k := (drawn (a ++ l), a ++ l)]> (vars ev)
  /\ same_rest ev ev' /\ length (headers ev') = length (headers ev).
Proof.
  revert ev a. induction l as [|p l IH]; intros ev a Hok Hk Hv Ha.
  { exists ev. rewrite app_nil_r, insert_id by done. done. }
  destruct (base_push_found (fuel p) ev k p _ a Hok Hk Hv Ha) as (ev1 & E1 & K1 & [R1 R2] & L1 & V1).
  destruct (IH ev1 (a ++ [p])) as (ev' & E & K & V & [R3 R4] & L); [done|done|by rewrite V1, lookup_insert_eq|by destruct a|].
  exists ev'. unfold push_pieces in *. cbn [foldl]. rewrite E1. rewrite <- app_assoc in V. cbn in V. rewrite V1, insert_insert_eq in V.
  split_and!; [done|done|done|constructor; congruence|lia].
Qed.

(** The pieces of a new entry. *)
Lemma push_pieces_new fuel k p l ev :
  event_ok ev -> Z.of_nat (length (headers ev)) < 1000000 -> split_bracket k = (k, None) -> vars ev !! lower k = None ->
  p <> "" -> pieces_ok p = true ->
  exists ev', push_pieces fuel k ev (p :: l) = Some ev' /\ event_ok ev' /\ vars ev' = <[lower k := (drawn (p :: l), p :: l)]> (vars ev)
  /\ same_rest ev ev' /\ (length (headers ev') <= S (length (headers ev)))%nat.
Proof.
  intros Hok Hl Hk Hn Hp Hpk.
  destruct (base_add_spec ev SWITCH_STACK_PUSH k p k None (fuel p) Hok Hl Hk (or_introl Hpk)) as (ev1 & E1 & [K1 [R1 R2] L1 V1]); [by right|].
  rewrite (alter_insert_entry _ _ _ (p, [p])) in V1 by (rewrite Hn; unfold add_entry; cbn; apply negb_true_iff in Hpk; destruct (String.eqb_spec p ""); [done|unfold is_array; by rewrite Hpk]).
  destruct (push_pieces_found fuel k l ev1 [p]) as (ev' & E & K & V & [R3 R4] & L); [done|done|by rewrite V1, lookup_insert_eq|done|].
  exists ev'. unfold push_pieces in *. cbn [foldl]. rewrite E1. rewrite V1, insert_insert_eq in V.
  split_and!; [done|done|done|constructor; congruence|lia].
Qed.

(** ** Array texts *)

Lemma split_strstr s : split_pieces s = match strstr "|:" s with Some (a, b) => a :: split_pieces b | None => [s] end
  /\ match strstr "|:" s with Some (a, b) => (String.length b < String.length s)%nat | None => True end.
Proof.
  induction s as [|c s [IH1 IH2]]; [done|]. cbn [strstr]. destruct (String.prefix "|:" (String c s)) eqn:Ep.
  - cbn [String.prefix] in Ep. destruct (ascii_dec "|" c) as [<-|]; [|done]. destruct s as [|d s]; [done|]. cbn [String.prefix] in Ep. destruct (ascii_dec ":" d) as [<-|]; [|done].
    change (String.length (String "|" (String ":" s)) - String.length "|:")%nat with (String.length s - 0)%nat. rewrite Nat.sub_0_r.
    change (String.substring (String.length "|:") (String.length s) (String "|" (String ":" s))) with (String.substring 0 (String.length s) s). rewrite substring_all. cbn. split; [done|lia].
  - assert (match s with String d _ => Ascii.eqb c "|" && Ascii.eqb d ":" | EmptyString => false end = false) as Hc.
    { destruct s as [|d s]; [done|]. destruct (Ascii.eqb_spec c "|") as [->|], (Ascii.eqb_spec d ":") as [->|]; try done. by destruct s. }
    destruct (strstr "|:" s) as [[a b]|]; cbn [mbind option_bind].
    + split; [by apply split_pieces_skip|cbn; lia].
    + split; [by apply split_pieces_skip|done].
Qed.

Lemma fields_split n : forall s, (String.length s < n)%nat -> fields n s = split_pieces s.
Proof.
  induction n as [|n IH]; intros s Hs; [lia|]. cbn [fields]. destruct (split_strstr s) as [-> Hl]. destruct (strstr "|:" s) as [[a b]|]; [|done]. by rewrite IH by lia.
Qed.

Lemma split_lengths s : Forall (fun p => (String.length p <= String.length s)%nat) (split_pieces s).
Proof.
  assert (forall n s, (String.length s < n)%nat -> Forall (fun p => (String.length p <= String.length s)%nat) (split_pieces s)) as H; [|by apply (H (S (String.length s))); lia].
  induction n as [|n IH]; intros t Ht; [lia|]. destruct t as [|c t]; [repeat constructor; cbn; lia|]. cbn [String.length] in *.
  assert (Forall (fun p => (String.length p <= S (String.length t))%nat) match split_pieces t with u :: l => String c u :: l | [] => [] end) as Hlong.
  { pose proof (IH t ltac:(lia)) as H. destruct (split_pieces t) as [|u l]; [constructor|]. apply Forall_cons in H as [Hu H]. constructor; [cbn; lia|].
    eapply Forall_impl; [exact H|]. cbn. lia. }
  cbn [split_pieces]. destruct t as [|d t]; [exact Hlong|]. destruct (Ascii.eqb c "|" && Ascii.eqb d ":"); [|exact Hlong]. constructor; [cbn; lia|].
  eapply Forall_impl; [apply (IH t); cbn in Ht; lia|]. cbn. lia.
Qed.

Lemma substring_le i n s : (String.length (String.substring i n s) <= String.length s - i)%nat.
Proof.
  revert i n. induction s as [|c s IH]; intros [|i] [|n]; cbn [String.substring String.length]; try lia.
  - pose proof (IH 0%nat n). lia.
  - pose proof (IH i 0%nat). lia.
  - pose proof (IH i (S n)). lia.
Qed.

Lemma array_pieces_split d : is_array d = true ->
  array_pieces d = split_pieces (String.substring 7 (String.length d - 7) d) /\ (7 <= String.length d)%nat
  /\ Forall (fun p => (String.length p + 7 <= String.length d)%nat) (array_pieces d).
Proof.
  intros Hd. pose proof (substring_le 7 (String.length d - 7) d) as Hl. unfold array_pieces. rewrite fields_split by lia. split; [done|].
  assert (7 <= String.length d)%nat as H7.
  { unfold is_array in Hd. do 7 (destruct d as [|? d]; [cbn [String.prefix] in Hd; repeat case_match; done|]). cbn. lia. }
  split; [done|]. eapply Forall_impl; [apply split_lengths|]. cbn. lia.
Qed.

(** Pushing the pieces of an array text to a name without an entry. *)
Definition array_entry (k : string) (a : list string) (m : gmap string (string * list string)) : gmap string (string * list string) :=
  match a with [] => m | _ => <[lower k := (shown a, a)]> m end.

Definition array_done (k : string) ev (a : list string) ev' : Prop :=
  event_ok ev' /\ same_rest ev ev' /\ vars ev' = array_entry k a (vars ev)
  /\ (length (headers ev') <= length (headers ev) + (if a then 0 else 1))%nat.

Lemma push_pieces_cons fuel k ev p l :
  push_pieces fuel k ev (p :: l) = match base_add_header (S (fuel p)) ev SWITCH_STACK_PUSH k p with Some ev' => push_pieces fuel k ev' l | None => None end.
Proof.
  unfold push_pieces. cbn [foldl]. destruct (base_add_header _ _ _ _ _) as [ev'|]; [done|]. induction l as [|q l IH]; [done|exact IH].
Qed.

Lemma same_rest_trans ev ev1 ev2 : same_rest ev ev1 -> same_rest ev1 ev2 -> same_rest ev ev2.
Proof. intros [] []. constructor; congruence. Qed.

Lemma uniq_rest ev ev' : same_rest ev ev' -> uniq ev' = uniq ev.
Proof. intros [H _]. unfold uniq. by rewrite H. Qed.

(** Adding to a name without an entry where nothing is found: what happens before the pieces. *)
Lemma add_unfound n ev stack k d : event_ok ev -> uniq ev = true -> Z.of_nat (length (headers ev)) < 1000000 -> split_bracket k = (k, None) ->
  vars ev !! lower k = None \/ test_flag stack SWITCH_STACK_PUSH || test_flag stack SWITCH_STACK_UNSHIFT = false -> d = "" \/ is_array d = true ->
  exists ev1, base_add_header (S n) ev stack k d = (if (String.length d <? 8)%nat then Some ev1
      else push_pieces (fun _ => Nat.pred n) k ev1 (split_pieces (String.substring 7 (String.length d - 7) d)))
    /\ event_ok ev1 /\ same_rest ev ev1 /\ vars ev1 = delete (lower k) (vars ev) /\ (length (headers ev1) <= length (headers ev))%nat
  \/ n = 0%nat.
Proof.
  intros Hok Hu Hl Hk Hn Hd. destruct n as [|n]; [exists ev; by right|].
  set (ev0 := if String.eqb k "_body" then ev <| body := Some d |> else ev).
  assert (event_ok ev0 /\ vars ev0 = vars ev /\ headers ev0 = headers ev /\ same_rest ev ev0) as (K0 & V0 & E0 & R0).
  { unfold ev0. destruct (String.eqb k "_body"); [|done]. split_and!; try done. by destruct Hok. }
  destruct (del_header_spec ev0 k K0) as (ev1 & Ed & K1 & V1 & R1 & L1 & _); [by rewrite E0|]. exists ev1. left. split.
  - remember (S n) as m eqn:Em. cbn [base_add_header]. rewrite Hk. fold ev0.
    assert ((if test_flag stack SWITCH_STACK_PUSH || test_flag stack SWITCH_STACK_UNSHIFT then switch_event_get_header_ptr ev0 k else None) = None) as ->.
    { destruct Hn as [Hn| ->]; [|done]. rewrite <- V0, (get_ptr_vars ev0 k K0) in Hn. destruct (test_flag _ _ || _); [|done]. by destruct (switch_event_get_header_ptr ev0 k). }
    rewrite (uniq_rest ev ev0 R0), Hu. rewrite Ed. destruct (String.eqb_spec d "") as [->|Hne]; [done|]. destruct Hd as [?|Hd]; [done|]. unfold is_array in Hd. rewrite Hd.
    destruct (String.length d <? 8)%nat; [done|]. subst m. done.
  - split_and!; [done|by eapply same_rest_trans|by rewrite V1, V0|]. rewrite <- E0. lia.
Qed.

Lemma push_array n : forall k l ev, event_ok ev -> uniq ev = true -> Z.of_nat (length (headers ev)) < 1000000 -> split_bracket k = (k, None) ->
  vars ev !! lower k = None -> Forall (fun p => (String.length p < n)%nat) l ->
  exists ev', push_pieces (fun _ => n) k ev l = Some ev' /\ array_done k ev (opened (elements n) l) ev'.
Proof.
  induction n as [|n IHn]; intros k l ev Hok Hu Hl Hk Hn HF.
  { destruct l as [|p l]; [|apply Forall_cons in HF as [HF _]; lia]. exists ev. split; [done|]. split_and!; try done. cbn. lia. }
  revert ev Hok Hu Hl Hn. induction l as [|p l IHl]; intros ev Hok Hu Hl Hn.
  { exists ev. split; [done|]. split_and!; try done. cbn. lia. }
  apply Forall_cons in HF as [Hp HF]. cbn [opened].
  assert (forall ev1, event_ok ev1 -> same_rest ev ev1 -> vars ev1 = vars ev -> (length (headers ev1) <= length (headers ev))%nat ->
    exists ev', push_pieces (fun _ => S n) k ev1 l = Some ev' /\ array_done k ev (opened (elements (S n)) l) ev') as Hskip.
  { intros ev1 K1 R1 V1 L1. destruct (IHl HF ev1) as (ev' & E & D1 & D2 & D3 & D4); [done|by rewrite (uniq_rest ev)|lia|by rewrite V1|]. exists ev'. split; [exact E|].
    split_and!; [done|by eapply same_rest_trans|by rewrite D3, V1|lia]. }
  destruct (String.eqb_spec p "") as [->|Hp0]; [|destruct (is_array p) eqn:Hpa].
  - destruct (add_unfound (S n) ev SWITCH_STACK_PUSH k "" Hok Hu Hl Hk (or_introl Hn) (or_introl eq_refl)) as (ev1 & [(E & K1 & R1 & V1 & L1)|?]); [|done].
    rewrite push_pieces_cons, E. cbn [String.length Nat.ltb Nat.leb]. apply Hskip; [done|done|by rewrite V1, delete_id|done].
  - destruct (add_unfound (S n) ev SWITCH_STACK_PUSH k p Hok Hu Hl Hk (or_introl Hn) (or_intror Hpa)) as (ev1 & [(E & K1 & R1 & V1 & L1)|?]); [|done].
    rewrite delete_id in V1 by done. rewrite push_pieces_cons, E. destruct (array_pieces_split p Hpa) as (Hs & H7 & Hls). rewrite <- Hs. cbn [Nat.pred].
    change (elements (S n) p) with (opened (elements n) (array_pieces p)).
    destruct (Nat.ltb_spec (String.length p) 8) as [H8|H8].
    + assert (array_pieces p = [""]) as ->.
      { rewrite Hs. replace (String.length p - 7)%nat with 0%nat by lia. assert (String.substring 7 0 p = "") as ->; [|done].
        pose proof (substring_le 7 0 p). destruct (String.substring 7 0 p); [done|cbn in *; lia]. }
      by apply Hskip.
    + destruct (IHn k (array_pieces p) ev1) as (ev2 & E2 & D1 & D2 & D3 & D4); [done|by rewrite (uniq_rest ev)|lia|done|by rewrite V1|eapply Forall_impl; [exact Hls|cbn; lia]|].
      rewrite E2. rewrite V1 in D3. destruct (opened (elements n) (array_pieces p)) as [|e0 e]; [apply Hskip; [done|by eapply same_rest_trans|done|lia]|].
      destruct (push_pieces_found (fun _ => S n) k l ev2 (e0 :: e)) as (ev' & E' & K' & V' & R' & L'); [done|done|by rewrite D3, drawn_shown; apply lookup_insert_eq|done|].
      exists ev'. split; [exact E'|]. split_and!; [done|eapply same_rest_trans; [|exact R']; by eapply same_rest_trans| |cbn in D4 |- *; lia].
      rewrite V', D3, drawn_shown. cbn [array_entry]. by rewrite insert_insert_eq.
  - destruct (push_pieces_new (fun _ => S n) k p l ev) as (ev' & E & K & V & R & L); [done|done|done|done|done|unfold pieces_ok; unfold is_array in Hpa; by rewrite Hpa|].
    exists ev'. split; [exact E|]. rewrite drawn_shown in V. split_and!; [done|done|done|lia].
Qed.

Lemma split_bracket_none s k : split_bracket s = (k, None) -> s = k /\ split_bracket k = (k, None).
Proof.
  revert k. induction s as [|c s IH]; intros k; cbn [split_bracket]; [by intros [= <-]|]. destruct (Ascii.eqb c "[") eqn:Ec; [done|]. destruct (split_bracket s) as [a b] eqn:Es.
  intros [= <- ->]. destruct (IH a eq_refl) as [-> Ha]. split; [done|]. cbn [split_bracket]. by rewrite Ec, Ha.
Qed.

(** Adding any text to an event with unique headers. *)
Lemma base_add_uniq ev stack s d k ip : event_ok ev -> uniq ev = true -> Z.of_nat (length (headers ev)) < 1000000 -> split_bracket s = (k, ip) ->
  exists ev', switch_event_base_add_header ev stack s d = Some ev' /\ adds ev k (add_entry stack (atoi <$> ip) d) ev'.
Proof.
  intros Hok Hu Hl Hs. set (pushing := test_flag stack SWITCH_STACK_PUSH || test_flag stack SWITCH_STACK_UNSHIFT).
  destruct (is_array d) eqn:Hd; [|apply base_add_spec; [done..|left; unfold pieces_ok; unfold is_array in Hd; by rewrite Hd|by left]].
  destruct ip as [ip|].
  - destruct (base_add_indexed ev stack s d k ip (String.length d) Hok Hl Hs Hu) as (ev' & E & A). by exists ev'.
  - destruct (split_bracket_none s k Hs) as [-> Hk]. destruct (decide (pushing = true /\ is_Some (vars ev !! lower k))) as [Hf|Hf]; [by apply base_add_spec; auto|].
    destruct (array_pieces_split d Hd) as (Hsp & H7 & Hls). destruct (String.length d) as [|n] eqn:En; [lia|].
    destruct (add_unfound (S n) ev stack k d Hok Hu Hl Hk) as (ev1 & [(E & K1 & R1 & V1 & L1)|?]); [|by right| |done].
    { destruct (vars ev !! lower k) eqn:Ev; [right|by left]. fold pushing. destruct pushing; [|done]. destruct Hf. by split; [|eexists]. }
    assert (add_entry stack None d (vars ev !! lower k) = match opened (elements n) (array_pieces d) with [] => None | a => Some (shown a, a) end) as Hadd.
    { unfold add_entry. fold pushing. assert ((if pushing then vars ev !! lower k else None) = None) as ->.
      { destruct pushing; [|done]. destruct (vars ev !! lower k); [|done]. destruct Hf. by split; [|eexists]. }
      destruct (String.eqb_spec d "") as [->|]; [done|]. by rewrite Hd, En. }
    rewrite En in E. unfold switch_event_base_add_header. rewrite En, E, <- Hsp. cbn [Nat.pred fmap option_fmap option_map].
    assert (forall ev', array_done k ev1 (opened (elements n) (array_pieces d)) ev' -> adds ev k (add_entry stack None d) ev') as Hdone.
    { intros ev' (D1 & D2 & D3 & D4). constructor; [done|by eapply same_rest_trans|destruct (opened _ _); lia|]. rewrite D3, V1. symmetry.
      destruct (opened (elements n) (array_pieces d)) as [|a0 a]; cbn [array_entry]; [by apply alter_delete_entry|]. rewrite insert_delete_eq. by apply alter_insert_entry. }
    destruct (Nat.ltb_spec (S n) 8) as [H8|H8].
    + exists ev1. split; [done|]. apply Hdone. assert (array_pieces d = [""]) as ->; [|split_and!; try done; cbn; lia].
      rewrite Hsp. replace (S n - 7)%nat with 0%nat by lia. assert (String.substring 7 0 d = "") as ->; [|done].
      pose proof (substring_le 7 0 d). destruct (String.substring 7 0 d); [done|cbn in *; lia].
    + destruct (push_array n k (array_pieces d) ev1) as (ev' & E' & D'); [done|by rewrite (uniq_rest ev)|lia|done|by rewrite V1, lookup_delete_eq|eapply Forall_impl; [exact Hls|cbn; lia]|].
      exists ev'. split; [exact E'|by apply Hdone].
Qed.

(** ** Sequences of operations *)

Inductive event_op :=
  | AddHeader (stack : Z) (header_name data : string)
  | DelHeader (header_name : string).

Definition run_op ev (o : event_op) : option switch_event :=
  match o with
  | AddHeader stack s d => snd <$> switch_event_add_header_string ev stack s (Some d)
  | DelHeader s => switch_event_del_header ev s
  end.

Fixpoint run_ops ev (l : list event_op) : option switch_event :=
  match l with [] => Some ev | o :: l => match run_op ev o with Some ev => run_ops ev l | None => None end end.

(** The same operations on a map from names in lower case. *)
Definition map_op (m : gmap string (string * list string)) (o : event_op) : gmap string (string * list string) :=
  match o with
  | AddHeader stack s d =>
      let '(k, ip) := split_bracket s in partial_alter (add_entry stack (atoi <$> ip) d) (lower k) m
  | DelHeader s => delete (lower s) m
  end.

Definition map_lookup (m : gmap string (string * list string)) (header_name : string) (idx : Z) : option string :=
  match m !! lower header_name with
  | Some (v, a) => if idx >? -1 then a !! Z.to_nat idx else Some v
  | None => None
  end.

Lemma run_op_spec ev o :
  event_ok ev -> uniq ev = true -> Z.of_nat (length (headers ev)) < 1000000 ->
  exists ev', run_op ev o = Some ev' /\ event_ok ev' /\ vars ev' = map_op (vars ev) o /\ uniq ev' = true
  /\ (length (headers ev') <= S (length (headers ev)))%nat.
Proof.
  intros Hok Hu Hl. destruct o as [stack s d|s]; cbn [run_op map_op] in *.
  - destruct (split_bracket s) as [k ip] eqn:Es.
    destruct (base_add_uniq ev stack s d k ip Hok Hu Hl Es) as (ev' & E & [A1 [A2 _] A3 A4]).
    exists ev'. unfold switch_event_add_header_string. rewrite E. split_and!; try done.
    unfold uniq. by rewrite A2.
  - destruct (del_header_spec ev s Hok Hl) as (ev' & E & H1 & H2 & [H3 _] & H4 & _). exists ev'. split_and!; try done; [|lia].
    unfold uniq. by rewrite H3.
Qed.

Lemma run_ops_spec l ev :
  event_ok ev -> uniq ev = true -> Z.of_nat (length (headers ev)) + Z.of_nat (length l) <= 1000000 ->
  exists ev', run_ops ev l = Some ev' /\ event_ok ev' /\ vars ev' = foldl map_op (vars ev) l.
Proof.
  revert ev. induction l as [|o l IH]; intros ev Hok Hu Hl; cbn [run_ops foldl]; [by exists ev|].
  cbn [length] in *. destruct (run_op_spec ev o Hok Hu ltac:(lia)) as (ev1 & -> & K1 & V1 & U1 & L1). rewrite <- V1. apply IH; [done|done|lia].
Qed.

Lemma fresh_ok b : event_ok (switch_event_create_plain b).
Proof. by repeat constructor. Qed.

(** C17. An event with unique headers, as the variables of a channel are kept,
    implements a finite map from names (without regard to case) to a value and
    an array: after any sequence of at most a million additions, pushes,
    unshifts, writes to name[i] and deletions on a new event, with any texts, array texts ARRAY::a|:b
    included, every operation has returned, the linked list is
    intact (distinct cells, tail pointer on the last, hashes of the names) and
    every lookup of a value or of an array element, of a name other than _body, returns what the map holds. *)
Theorem event_refines_map l :
  Z.of_nat (length l) <= 1000000 ->
  exists ev, run_ops (switch_event_create_plain true) l = Some ev /\ event_ok ev
  /\ forall s idx, s <> "_body" -> switch_event_get_header_idx ev s idx = map_lookup (foldl map_op ∅ l) s idx.
Proof.
  intros Hl. destruct (run_ops_spec l (switch_event_create_plain true)) as (ev & E & K & V); [apply fresh_ok|done|done|].
  exists ev. split_and!; [done|done|]. intros s idx Hs. rewrite (get_header_vars ev s idx K Hs), V. done.
Qed.

Definition ops_1 : list event_op :=
  [AddHeader SWITCH_STACK_BOTTOM "Codec" "PCMU"; AddHeader SWITCH_STACK_PUSH "CODEC" "G722"; AddHeader SWITCH_STACK_TOP "x[2]" "c";
   AddHeader SWITCH_STACK_UNSHIFT "codec" "opus"; DelHeader "X"; AddHeader SWITCH_STACK_BOTTOM "y" "1"; AddHeader SWITCH_STACK_BOTTOM "Y" "";
   AddHeader SWITCH_STACK_BOTTOM "z" "ARRAY::|:ARRAY::p|:q|:"].

Lemma event_refines_map_witness :
  exists ev, run_ops (switch_event_create_plain true) ops_1 = Some ev /\ switch_event_get_header ev "Codec" = Some "ARRAY::opus|:PCMU|:G722"
  /\ switch_event_get_header_idx ev "codec" 2 = Some "G722" /\ switch_event_get_header ev "x" = None /\ switch_event_get_header ev "z" = Some "ARRAY::p|:q|:".
Proof.
  destruct (event_refines_map ops_1) as (ev & E & _ & H); [by vm_compute|]. exists ev. unfold switch_event_get_header.
  rewrite !H by done. split_and!; [exact E|vm_compute; reflexivity|vm_compute; reflexivity|vm_compute; reflexivity|vm_compute; reflexivity].
Defined.

Lemma prefix_array s : String.prefix "ARRAY::" ("ARRAY::" +:+ s) = true.
Proof. by destruct s. Qed.

(** An array survives its textual form: adding to a name of an event with
    unique headers the text ARRAY::p0|:p1... of pieces without the separator,
    the first of them neither empty nor itself such a text, returns, keeps the
    list intact and leaves exactly these pieces as the array of the name and
    their text (a lone piece as it is) as its value; other names keep theirs. *)
Theorem add_array_roundtrip ev stack k p l :
  event_ok ev -> uniq ev = true -> Z.of_nat (length (headers ev)) < 1000000 -> split_bracket k = (k, None) ->
  test_flag stack SWITCH_STACK_PUSH || test_flag stack SWITCH_STACK_UNSHIFT = false ->
  p <> "" -> String.prefix "ARRAY::" p = false -> Forall (fun p => has_separator p = false) (p :: l) ->
  exists ev', switch_event_base_add_header ev stack k ("ARRAY::" +:+ String.concat "|:" (p :: l)) = Some ev' /\ event_ok ev'
  /\ vars ev' = <[lower k := (drawn (p :: l), p :: l)]> (vars ev).
Proof.
  intros Hok Hu Hl Hk Hst Hp Hpa Hsep. set (text := String.concat "|:" (p :: l)).
  assert (split_pieces text = p :: l) as Hsp by (by apply split_concat).
  assert (text <> "") as Ht by (intros E; rewrite E in Hsp; cbn in Hsp; congruence).
  clearbody text. unfold switch_event_base_add_header.
  destruct (String.length ("ARRAY::" +:+ text)) as [|n] eqn:En; [done|].
  cbn [base_add_header]. rewrite Hk, Hst.
  set (ev0 := if String.eqb k "_body" then _ else ev).
  assert (event_ok ev0 /\ headers ev0 = headers ev /\ uniq ev0 = true) as (K0 & E0 & U0).
  { unfold ev0. destruct (String.eqb k "_body"); [|done]. split_and!; try done. by destruct Hok. }
  clearbody ev0. rewrite U0, prefix_array.
  destruct (del_header_spec ev0 k K0) as (ev1 & -> & K1 & V1 & _ & L1 & _); [by rewrite E0|].
  destruct (push_pieces_new (fun _ => n) k p l ev1) as (ev' & E & K & V & _); [done|rewrite <- E0 in Hl; lia|done| |done|by unfold pieces_ok; rewrite Hpa|].
  { by rewrite V1, lookup_delete_eq. }
  exists ev'. split_and!; [|done|].
  - assert ((String.length ("ARRAY::" +:+ text) <? 8)%nat = false) as -> by (by destruct text).
    change (String.substring 7 _ ("ARRAY::" +:+ text)) with (String.substring 0 (String.length text - 0) text).
    rewrite Nat.sub_0_r, substring_all.
    by rewrite Hsp.
  - rewrite V, V1, insert_delete_eq. unfold vars. by rewrite E0.
Qed.

Lemma add_array_roundtrip_witness :
  exists ev', switch_event_base_add_header (switch_event_create_plain true) SWITCH_STACK_BOTTOM "Codecs" "ARRAY::PCMU|:|:G722" = Some ev'
  /\ vars ev' = {["codecs" := ("ARRAY::PCMU|:|:G722", ["PCMU"; ""; "G722"])]}.
Proof.
  destruct (add_array_roundtrip (switch_event_create_plain true) SWITCH_STACK_BOTTOM "Codecs" "PCMU" [""; "G722"]) as (ev' & E & _ & V);
    [apply fresh_ok|done|done|reflexivity|reflexivity|done|reflexivity|by repeat constructor|]. exists ev'. split; [exact E|exact V].
Defined.

(** ** Copying *)

(** Headers that a copy reproduces: the name has no index, the value or the first
    element of the array is neither empty nor an ARRAY:: text. *)
Definition copyable h : Prop :=
  split_bracket (name h) = (name h, None)
  /\ match array h with
     | [] => exists v, value h = Some v /\ v <> "" /\ pieces_ok v = true
     | p :: l => value h = Some (drawn (p :: l)) /\ p <> "" /\ pieces_ok p = true
     end.

Lemma add_all_pieces ev k l : add_all ev SWITCH_STACK_PUSH k (map Some l) = push_pieces String.length k ev l.
Proof.
  unfold add_all, push_pieces. generalize (Some ev). induction l as [|p l IH]; intros o; [done|]. cbn [map foldl].
  rewrite IH. f_equal. destruct o as [x|]; [|done]. unfold switch_event_add_header_string, switch_event_base_add_header.
  by destruct (base_add_header _ x _ _ _).
Qed.

(** The copy of one header. *)
Lemma copy_header ev h :
  event_ok ev -> uniq ev = true -> Z.of_nat (length (headers ev)) < 1000000 -> copyable h -> vars ev !! key h = None ->
  exists ev', match array h with
              | [] => add_all ev SWITCH_STACK_BOTTOM (name h) [value h]
              | a => add_all ev SWITCH_STACK_PUSH (name h) (map Some a)
              end = Some ev'
  /\ event_ok ev' /\ same_rest ev ev' /\ (length (headers ev') <= S (length (headers ev)))%nat
  /\ vars ev' = <[key h := content h]> (vars ev).
Proof.
  intros Hok Hu Hl [Hb Hc] Hn. unfold content. destruct (array h) as [|p l] eqn:Ea.
  - destruct Hc as (v & -> & Hv & Hp). unfold add_all, switch_event_add_header_string, switch_event_base_add_header. cbn [foldl].
    destruct (base_add_spec ev SWITCH_STACK_BOTTOM (name h) v (name h) None (String.length v) Hok Hl Hb (or_introl Hp) (or_introl Hu))
      as (ev' & -> & [A1 A2 A3 A4]). exists ev'. split_and!; try done. rewrite A4. apply alter_insert_entry.
    unfold add_entry. cbn. apply negb_true_iff in Hp. unfold is_array. rewrite Hp. by destruct (String.eqb_spec v "").
  - destruct Hc as (-> & Hp & Hpk). rewrite add_all_pieces.
    destruct (push_pieces_new String.length (name h) p l ev) as (ev' & E & K & V & R & L); try done. by exists ev'.
Qed.

Lemma vars_of_fresh hs h : key h ∉ map key hs -> vars_of hs !! key h = None.
Proof. intros H. apply not_elem_of_list_to_map_1. unfold fmap. by rewrite map_map. Qed.

Lemma add_headers_spec skip hs ev :
  event_ok ev -> uniq ev = true -> Z.of_nat (length (headers ev)) + Z.of_nat (length hs) <= 1000000 ->
  Forall (fun h => skip h = false -> copyable h /\ vars ev !! key h = None) hs -> NoDup (map key hs) ->
  exists ev', add_headers id skip ev hs = Some ev' /\ event_ok ev' /\ same_rest ev ev'
  /\ vars ev' = vars_of (filter (fun h => skip h = false) hs) ∪ vars ev.
Proof.
  revert ev. induction hs as [|h hs IH]; intros ev Hok Hu Hl Hf Hnd; cbn [add_headers].
  { exists ev. split_and!; try done. symmetry. apply map_empty_union. }
  cbn [map length] in Hl, Hnd. apply NoDup_cons in Hnd as [Hni Hnd]. apply Forall_cons in Hf as [Hh Hf]. rewrite filter_cons.
  destruct (skip h) eqn:Es; [rewrite decide_False by done; apply IH; [done..|lia|done|done]|].
  rewrite decide_True by done. destruct (Hh eq_refl) as [Hc Hn].
  destruct (copy_header ev h Hok Hu ltac:(lia) Hc Hn) as (ev1 & E1 & K1 & [R1 R2] & L1 & V1). change (id (name h)) with (name h). rewrite E1.
  destruct (IH ev1) as (ev' & E & K & [R3 R4] & V); [done|unfold uniq; by rewrite R1|lia| |done|].
  - apply Forall_forall. intros x Hx Hs. destruct (proj1 (Forall_forall _ _) Hf x Hx Hs) as [Hxc Hxn]. split; [done|].
    rewrite V1, lookup_insert_ne; [done|]. intros Ek. apply Hni. rewrite Ek. by apply (list_elem_of_fmap_2 key).
  - exists ev'. split_and!; [done|done|constructor; congruence|]. rewrite V, V1, vars_of_cons. rewrite <- insert_union_l. symmetry.
    apply insert_union_r, vars_of_fresh. intros Hx. apply Hni. apply (list_elem_of_fmap key) in Hx as (x & Ex & Hx).
    rewrite Ex. apply list_elem_of_filter in Hx as [_ Hx]. by apply (list_elem_of_fmap_2 key).
Qed.

(** The subclass of an event is also its header Event-Subclass, as
    switch_event_set_subclass_name leaves it. *)
Definition subclass_ok ev : Prop :=
  match subclass_name ev with
  | Some s => s <> "" /\ pieces_ok s = true /\ exists h, h ∈ headers ev /\ name h = "Event-Subclass" /\ content h = (s, [])
  | None => True
  end.

Definition subclass_vars ev : gmap string (string * list string) :=
  match subclass_name ev with Some s => {[lower "Event-Subclass" := (s, [])]} | None => ∅ end.

Lemma create_clone_spec ev :
  subclass_ok ev ->
  exists ev', create_clone (subclass_name ev) = Some ev' /\ event_ok ev' /\ vars ev' = subclass_vars ev
  /\ subclass_name ev' = subclass_name ev /\ (length (headers ev') <= 1)%nat.
Proof.
  unfold subclass_ok, subclass_vars, create_clone. destruct (subclass_name ev) as [s|]; [|intros _; eexists; by split_and!; [|apply fresh_ok|..]; auto].
  intros (Hs & Hp & _). apply negb_true_iff in Hp. destruct s as [|c s]; [done|].
  unfold switch_event_add_header_string, switch_event_base_add_header. cbn [base_add_header String.length].
  rewrite Hp. eexists. split; [reflexivity|]. split_and!; [|done|done|done]. constructor; [|repeat constructor; eexists; reflexivity|done].
  apply NoDup_singleton.
Qed.

Lemma filter_ext_elem {A} (P Q : A -> Prop) `{!forall x, Decision (P x)} `{!forall x, Decision (Q x)} (l : list A) :
  (forall x, x ∈ l -> P x <-> Q x) -> filter P l = filter Q l.
Proof.
  induction l as [|x l IH]; intros HPQ; [done|]. rewrite !filter_cons, IH by (intros; apply HPQ; by right).
  pose proof (HPQ x ltac:(by left)). do 2 case_decide; tauto.
Qed.

Lemma filter_all {A} (P : A -> Prop) `{!forall x, Decision (P x)} (l : list A) : (forall x, x ∈ l -> P x) -> filter P l = l.
Proof. induction l as [|x l IH]; intros HPQ; [done|]. rewrite filter_cons, decide_True, IH; set_solver. Qed.

Lemma NoDup_map_inj_elem {A B} (f : A -> B) (l : list A) x y : NoDup (map f l) -> x ∈ l -> y ∈ l -> f x = f y -> x = y.
Proof.
  induction l as [|z l IH]; cbn; [set_solver|]. intros [Hz Hnd]%NoDup_cons Hx Hy E.
  assert (forall w, w ∈ l -> f w ∈ map f l) as Hin by (intros; by apply (list_elem_of_fmap_2 f)).
  apply elem_of_cons in Hx as [->|Hx], Hy as [->|Hy]; [done|exfalso; apply Hz; rewrite E; auto|exfalso; apply Hz; rewrite <- E; auto|auto].
Qed.

(** The headers the copy skips are those of the subclass. *)
Lemma skipped_subclass ev :
  subclass_ok ev -> NoDup (map key (headers ev)) ->
  vars_of (filter (fun h => is_subclass_header ev h = false) (headers ev)) ∪ subclass_vars ev = vars ev
  /\ forall h, h ∈ headers ev -> is_subclass_header ev h = false -> subclass_vars ev !! key h = None.
Proof.
  unfold subclass_ok, is_subclass_header, subclass_vars. intros Hs Hnd. destruct (subclass_name ev) as [s|].
  2:{ split; [|done]. rewrite map_union_empty. unfold vars. f_equal. by apply filter_all. }
  destruct Hs as (_ & _ & h0 & H0 & N0 & C0).
  assert (forall h, h ∈ headers ev -> String.eqb (name h) "Event-Subclass" = bool_decide (key h = lower "Event-Subclass")) as HE.
  { intros h Hh. case_bool_decide as Ek.
    - apply String.eqb_eq. rewrite <- N0. f_equal. apply (NoDup_map_inj_elem key (headers ev)); try done. by rewrite Ek, <- N0.
    - apply String.eqb_neq. intros En. apply Ek. unfold key. by rewrite En. }
  split.
  - rewrite (filter_ext_elem _ (fun h => bool_decide (key h = lower "Event-Subclass") = false))
      by (intros x Hx; by rewrite (HE x Hx)). rewrite vars_filter. unfold vars.
    assert (vars_of (headers ev) !! lower "Event-Subclass" = Some (s, [])) as Hl.
    { apply elem_of_list_to_map_1; [unfold fmap; by rewrite map_map|]. apply list_elem_of_fmap. exists h0. unfold key. by rewrite N0, C0. }
    rewrite <- insert_empty, <- insert_union_r, map_union_empty by apply lookup_delete_eq. by rewrite insert_delete_id.
  - intros h Hh Es. rewrite HE, bool_decide_eq_false in Es by done. by rewrite lookup_singleton_ne.
Qed.

(** A copy of an event with unique headers has the variables of the
    original: if the names are distinct and have no index, and no value and no
    first element of an array is empty or an ARRAY:: text, switch_event_dup
    returns an intact event with the same flags and subclass in which every lookup
    of a value or array element gives what it gives in the original. *)
Theorem dup_same_lookups todup :
  event_ok todup -> uniq todup = true -> Z.of_nat (length (headers todup)) < 1000000 -> NoDup (map key (headers todup)) ->
  Forall copyable (headers todup) -> subclass_ok todup ->
  exists ev, switch_event_dup todup = Some ev /\ event_ok ev /\ flags ev = flags todup /\ subclass_name ev = subclass_name todup
  /\ forall s idx, s <> "_body" -> switch_event_get_header_idx ev s idx = switch_event_get_header_idx todup s idx.
Proof.
  intros Hok Hu Hl Hnd Hc Hs. destruct (create_clone_spec todup Hs) as (ev0 & E0 & [K1 K2 K3] & V0 & S0 & L0).
  destruct (skipped_subclass todup Hs Hnd) as [HV HN]. unfold switch_event_dup. rewrite E0.
  destruct (add_headers_spec (is_subclass_header todup) (headers todup) (ev0 <| flags := flags todup |>)) as (ev & -> & K & [R1 R2] & V);
    [done|done|cbn; lia| |done|].
  { apply Forall_forall. intros h Hh Es. split; [by apply (proj1 (Forall_forall _ _) Hc)|]. change (vars (ev0 <| flags := ?x |>)) with (vars ev0).
    rewrite V0. by apply HN. }
  change (vars (ev0 <| flags := ?x |>)) with (vars ev0) in V. rewrite V0, HV in V. cbn in R1, R2.
  eexists. split; [reflexivity|]. set (ev' := match body todup with Some b => ev <| body := Some b |> | None => ev end).
  assert (event_ok ev' /\ vars ev' = vars todup /\ flags ev' = flags ev /\ subclass_name ev' = subclass_name ev) as (K' & V' & F' & S').
  { unfold ev'. destruct (body todup); split_and!; try done. by destruct K. }
  split_and!; [done|congruence|congruence|]. intros s idx Hb. by rewrite !get_header_vars, V' by done.
Qed.

Definition event_1 : switch_event :=
  Eval vm_compute in
    match run_ops (switch_event_create_plain true) ops_1 with
    | Some ev => match switch_event_set_subclass_name ev (Some "demo::stop") with Some (_, ev) => ev | None => ev end
    | None => switch_event_create_plain true
    end.

Lemma event_1_ok : event_ok event_1.
Proof. constructor; [by apply (bool_decide_unpack _); vm_compute|repeat constructor; by eexists|reflexivity]. Qed.

Lemma dup_same_lookups_witness :
  exists ev, switch_event_dup event_1 = Some ev /\ switch_event_get_header ev "CODEC" = Some "ARRAY::opus|:PCMU|:G722"
  /\ switch_event_get_header ev "event-subclass" = Some "demo::stop".
Proof.
  destruct (dup_same_lookups event_1) as (ev & E & _ & _ & _ & H).
  - apply event_1_ok.
  - reflexivity.
  - by vm_compute.
  - by apply (bool_decide_unpack _); vm_compute.
  - unfold event_1. repeat constructor; cbn; repeat first [reflexivity | discriminate | eexists | split].
  - cbn. split_and!; [done|done|]. eexists. split; [right; right; left|done].
  - exists ev. unfold switch_event_get_header. rewrite !H by done. split_and!; [exact E|vm_compute; reflexivity|vm_compute; reflexivity].
Defined.

(** ** Where an array and its value part

    Writing an element that exists changes the array but not the value, which
    still shows the old element (the value is only redrawn when the array grows). *)
Example index_write_keeps_old_value :
  match run_ops (switch_event_create_plain true)
          [AddHeader SWITCH_STACK_PUSH "v" "a"; AddHeader SWITCH_STACK_PUSH "v" "b"; AddHeader SWITCH_STACK_BOTTOM "v[0]" "z"] with
  | Some ev => (switch_event_get_header ev "v", switch_event_get_header_idx ev "v" 0)
  | None => (None, None)
  end = (Some "ARRAY::a|:b", Some "z").
Proof. reflexivity. Qed.

(** Writing name[1] to a plain value loses the value, which a push would have kept as element 0. *)
Example index_write_loses_plain_value :
  match run_ops (switch_event_create_plain true) [AddHeader SWITCH_STACK_BOTTOM "v" "a"; AddHeader SWITCH_STACK_BOTTOM "v[1]" "b"] with
  | Some ev => switch_event_get_header ev "v"
  | None => None
  end = Some "ARRAY::|:b".
Proof. reflexivity. Qed.

(** A copy drops the empty elements before the first other one. *)
Example dup_drops_empty_elements :
  match run_ops (switch_event_create_plain true) [AddHeader SWITCH_STACK_BOTTOM "v[1]" "b"] with
  | Some ev => match switch_event_dup ev with
               | Some ev' => (switch_event_get_header_idx ev "v" 1, switch_event_get_header_idx ev' "v" 0, switch_event_get_header_idx ev' "v" 1)
               | None => (None, None, None)
               end
  | None => (None, None, None)
  end = (Some "b", Some "b", None).
Proof. reflexivity. Qed.

(** ** Every addition returns *)

Definition pieces_size (l : list string) : nat := sum_list_with (fun p => S (String.length p)) l.

Lemma split_pieces_size s : (pieces_size (split_pieces s) <= S (String.length s))%nat.
Proof.
  cut (forall n s, (String.length s <= n)%nat -> (pieces_size (split_pieces s) <= S (String.length s))%nat); [intros H; by apply (H (String.length s) s)|].
  clear s. induction n as [|n IH]; intros [|c s] Hn; cbn [String.length] in *; [cbn; lia|lia|cbn; lia|]. cbn [split_pieces].
  assert (pieces_size (match split_pieces s with t :: l => String c t :: l | [] => [] end) <= S (S (String.length s)))%nat as HL.
  { pose proof (IH s ltac:(lia)) as H. destruct (split_pieces s); cbn in *; lia. }
  destruct s as [|d s]; [exact HL|]. destruct (Ascii.eqb c "|" && Ascii.eqb d ":"); [|exact HL].
  cbn [String.length] in *. pose proof (IH s ltac:(lia)). cbn. unfold pieces_size in *. lia.
Qed.

Lemma new_header_ok ev stack s (g : switch_event_header -> switch_event_header) ev1 :
  event_ok ev1 -> (forall h, h ∈ headers ev1 -> (addr h < next_addr ev)%nat) -> (next_addr ev < next_addr ev1)%nat ->
  (let h := (new_header ev s).1 in addr (g h) = addr h /\ is_Some (value (g h))) ->
  event_ok (link_header ev1 stack (g (new_header ev s).1))
  /\ length (headers (link_header ev1 stack (g (new_header ev s).1))) = S (length (headers ev1)).
Proof.
  intros Hok Hlt Hn [G1 G2]. apply link_header_ok; [done|by rewrite G1| |done].
  rewrite G1. intros (x & E & Hx%Hlt)%(list_elem_of_fmap addr). cbn in E. lia.
Qed.

Lemma addr_bound ev : event_ok ev -> forall h, h ∈ headers ev -> (addr h < next_addr ev)%nat.
Proof. intros [_ H _] h Hh. by destruct (proj1 (Forall_forall _ _) H h Hh). Qed.

(** What an addition promises of any event. *)
Definition returns_within (size : nat) ev (r : option switch_event) : Prop :=
  exists ev', r = Some ev' /\ event_ok ev' /\ (length (headers ev') <= length (headers ev) + size)%nat.

Lemma update_returns ev s hp f size :
  event_ok ev -> switch_event_get_header_ptr ev s = Some hp -> name (f hp) = name hp -> addr (f hp) = addr hp ->
  hash (f hp) = hash hp -> is_Some (value (f hp)) ->
  returns_within size ev (Some (ev <| headers := update_header (addr hp) f (headers ev) |>)).
Proof. intros. destruct (update_spec ev hp f s) as (U1 & _ & _ & U4); try done. eexists. split_and!; [done|done|lia]. Qed.

(** The case of a new header with an index. *)
Lemma index_new_returns ev stack k i d size :
  event_ok ev -> Z.of_nat (length (headers ev)) < 1000000 -> (1 <= size)%nat ->
  returns_within size ev (let '(h, ev) := new_header ev k in
    match (if uniq ev then switch_event_del_header ev k else Some ev) with
    | Some ev => if (i >? -1) && (i <=? 4000) then Some (link_header ev stack (write_index h i d)) else Some ev
    | None => None
    end).
Proof.
  intros Hok Hl Hs. destruct (alloc_ok ev Hok) as [Ha _]. unfold new_header.
  destruct (del_uniq_spec _ k Ha Hl) as (ev1 & -> & K1 & _ & _ & L1 & N1 & S1). cbn in L1, N1, S1.
  destruct ((i >? -1) && (i <=? 4000)) eqn:Ei; [|eexists; split_and!; [done|done|lia]].
  destruct (new_header_ok ev stack k (fun h => write_index h i d) ev1) as [N2 N3]; [done| |lia| |eexists; split_and!; [done|done|cbn in *; lia]].
  - intros h Hh. by apply addr_bound, S1.
  - destruct (write_index_frame (new_header ev k).1 i d) as (W1 & _ & _ & W4). split; [done|]. apply W4. right. split; [done|lia].
Qed.

Lemma plain_new_returns ev stack k d (pushing : bool) size :
  event_ok ev -> (1 <= size)%nat ->
  returns_within size ev (let '(h, ev) := new_header ev k in
    Some (link_header ev stack (if pushing then push_value h stack d else h <| value := Some d |>))).
Proof.
  intros Hok Hs. destruct (alloc_ok ev Hok) as [Ha _]. unfold new_header.
  destruct (new_header_ok ev stack k (fun h => if pushing then push_value h stack d else h <| value := Some d |>)
    (ev <| next_addr := S (next_addr ev) |>)) as [N2 N3]; [done|exact (addr_bound ev Hok)|cbn; lia|by destruct pushing|].
  eexists. split_and!; [done|done|cbn in *; lia].
Qed.

Lemma substring_length n m s : (String.length (String.substring n m s) <= m)%nat.
Proof.
  revert n m. induction s as [|c s IH]; intros [|n] [|m]; cbn; try lia.
  - pose proof (IH 0%nat m). lia.
  - exact (IH n 0%nat).
  - exact (IH n (S m)).
Qed.

Lemma pieces_size_elem p l : p ∈ l -> (S (String.length p) <= pieces_size l)%nat.
Proof. induction 1; cbn; [|unfold pieces_size in *]; lia. Qed.

Lemma fold_returns (add : switch_event -> string -> option switch_event) l ev :
  (forall ev p, p ∈ l -> event_ok ev -> Z.of_nat (length (headers ev)) + Z.of_nat (String.length p) < 1000000 ->
   returns_within (S (String.length p)) ev (add ev p)) ->
  event_ok ev -> Z.of_nat (length (headers ev)) + Z.of_nat (pieces_size l) <= 1000000 ->
  returns_within (pieces_size l) ev (foldl (fun o p => match o with Some ev => add ev p | None => None end) (Some ev) l).
Proof.
  revert ev. induction l as [|p l IH]; intros ev Hadd Hok Hl; cbn [foldl]; [by exists ev; split_and!; [..|lia]|].
  cbn [pieces_size sum_list_with] in *. fold (pieces_size l) in *.
  destruct (Hadd ev p) as (ev1 & -> & K1 & L1); [by left|done|lia|].
  destruct (IH ev1) as (ev' & E & K & L); [intros; apply Hadd; [by right|done|done]|done|lia|].
  exists ev'. split_and!; [done|done|lia].
Qed.

Lemma base_add_returns fuel ev stack s d :
  (String.length d < fuel)%nat -> event_ok ev -> Z.of_nat (length (headers ev)) + Z.of_nat (String.length d) < 1000000 ->
  returns_within (S (String.length d)) ev (base_add_header fuel ev stack s d).
Proof.
  revert ev stack s d. induction fuel as [|fuel IH]; intros ev stack s d Hf Hok Hl; [lia|]. cbn [base_add_header].
  destruct (split_bracket s) as [k ip]. set (ev0 := if String.eqb s "_body" then _ else ev).
  assert (event_ok ev0 /\ headers ev0 = headers ev) as (K0 & E0).
  { unfold ev0. destruct (String.eqb s "_body"); [|done]. split_and!; try done. by destruct Hok. }
  clearbody ev0. rewrite <- E0 in Hl. unfold returns_within. rewrite <- E0. fold (returns_within (S (String.length d)) ev0). clear E0 Hok ev.
  assert (forall ev1, event_ok ev1 -> (length (headers ev1) <= length (headers ev0))%nat -> returns_within (S (String.length d)) ev0 (Some ev1))
    as HR by (intros; eexists; split_and!; [done|done|lia]).
  destruct ip as [ip|].
  - destruct (switch_event_get_header_ptr ev0 k) as [hp|] eqn:Ef; [|apply index_new_returns; [done|lia|lia]].
    destruct (_ && _); [|by apply HR]. destruct (write_index_frame hp (atoi ip) d) as (W1 & W2 & W3 & W4).
    apply (update_returns ev0 k hp (fun h => write_index h (atoi ip) d)); try done. apply W4. left. by eapply found_value.
  - set (pushing := test_flag stack SWITCH_STACK_PUSH || test_flag stack SWITCH_STACK_UNSHIFT).
    destruct (if pushing then _ else None) as [hp|] eqn:Ef.
    { destruct pushing; [|done]. by apply (update_returns ev0 k hp (fun h => push_value h stack d)). }
    destruct (String.eqb d "").
    { destruct (del_header_spec ev0 k K0 ltac:(lia)) as (ev1 & -> & H1 & _ & _ & H4 & _). by apply HR. }
    destruct (del_uniq_spec ev0 k K0 ltac:(lia)) as (ev1 & -> & K1 & _ & _ & L1 & _).
    destruct (String.prefix "ARRAY::" d); [|].
    + destruct (Nat.ltb_spec (String.length d) 8) as [H8|H8]; [by apply HR|].
      pose proof (split_pieces_size (String.substring 7 (String.length d - 7) d)) as Hsz.
      pose proof (substring_length 7 (String.length d - 7) d) as Hsub.
      destruct (fold_returns (fun ev piece => base_add_header fuel ev SWITCH_STACK_PUSH k piece)
        (split_pieces (String.substring 7 (String.length d - 7) d)) ev1) as (ev' & E & K & L); [|done|lia|].
      * intros ev p Hp%pieces_size_elem Hev Hlp. apply IH; [lia|done|done].
      * exists ev'. split_and!; [exact E|done|lia].
    + destruct (plain_new_returns ev1 stack k d pushing (S (String.length d)) K1) as (ev' & E & K & L); [lia|].
      exists ev'. split_and!; [exact E|done|lia].
Qed.

(** Every addition returns and keeps the list of headers intact: on any
    event whose headers and the added value together stay below a million, unique
    headers or not, with any stack flags, any name (indexed or not) and any
    value, an ARRAY:: text whose pieces are such texts again included.  The
    fuel of the model, the length of the value and one, is enough. *)
Theorem add_header_returns ev stack s d :
  event_ok ev -> Z.of_nat (length (headers ev)) + Z.of_nat (String.length d) < 1000000 ->
  exists ev', switch_event_add_header_string ev stack s (Some d) = Some (SWITCH_STATUS_SUCCESS, ev') /\ event_ok ev'.
Proof.
  intros Hok Hl. destruct (base_add_returns (S (String.length d)) ev stack s d) as (ev' & E & K & _); [lia|done|done|].
  exists ev'. unfold switch_event_add_header_string, switch_event_base_add_header. by rewrite E.
Qed.

Lemma add_header_returns_witness :
  exists ev', switch_event_add_header_string event_1 SWITCH_STACK_TOP "nested" (Some "ARRAY::ARRAY::a|:b")
              = Some (SWITCH_STATUS_SUCCESS, ev').
Proof.
  destruct (add_header_returns event_1 SWITCH_STACK_TOP "nested" "ARRAY::ARRAY::a|:b") as (ev' & E & _); [apply event_1_ok|by vm_compute|by exists ev'].
Defined.

End EventTheorems.
