(* ===== verification/Url.v ===== *)
(** * URL encoding (src/src/switch_utils.c, switch_utils.h)

    Characters that are not printable or have a meaning in a URL, or in the text
    form of an event, are written as a percent sign and two hexadecimal digits.
    Unless asked for, a percent sign that is already followed by two upper case
    digits is left as it is.

    A C string is a [string] without zero characters.  The output buffer of
    switch_url_encode_opt is as long as its argument [len] says; the model gives the
    string that is in it afterwards.  switch_url_decode works in place; the model
    gives the characters it writes, and [c_string] what is read back up to the first
    zero.  A character is a byte: the code compares it as a signed number, where a byte
    above 127 is negative and counts as not printable. *)

From S2P Require Import Prelude.
From S2P Require Import Text.
From stdpp Require Import strings.
From Stdlib Require Import Ascii.

#[local] Open Scope string_scope.
#[local] Open Scope list_scope.
#[local] Open Scope Z_scope.

Module Url.
Import Text.

Definition code (c : ascii) : Z := Z.of_N (N_of_ascii c).
Definition char (z : Z) : ascii := ascii_of_N (Z.to_N (u8 z)).

(** SWITCH_URL_UNSAFE: \r \n space # % & + : ; < = > ? @ [ \ ] ^ ` { | } and the
    double quote. *)
Definition SWITCH_URL_UNSAFE : list Z :=
  [13; 10; 32; 35; 37; 38; 43; 58; 59; 60; 61; 62; 63; 64; 91; 92; 93; 94; 96; 123; 124; 125; 34].

Definition hex : string := "0123456789ABCDEF".

Definition percent : ascii := "%".

(** [strchr(hex, c)]. *)
Definition is_hex (c : ascii) : bool := has_char c hex.

Definition hex_digit (z : Z) : ascii := default nul (String.get (Z.to_nat (Z.land z 15)) hex).

Definition unsafe (c : ascii) : bool :=
  (s8 (code c) <? 32) || (s8 (code c) >? 126) || existsb (Z.eqb (code c)) SWITCH_URL_UNSAFE.

(** A percent sign that is left alone: two upper case digits follow. *)
Definition encoded_already (double_encode : bool) (p : string) : bool :=
  negb double_encode &&
  match p with
  | String c (String a (String b _)) => Ascii.eqb c percent && is_hex a && is_hex b
  | _ => false
  end.

(** ** Encoding *)

(** The loop from [p] on, with [x] characters written. *)
Fixpoint url_encode_loop (double_encode : bool) (len x : Z) (p : string) : string :=
  match p with
  | EmptyString => ""
  | String c rest =>
      if x >=? len then ""
      else if negb (encoded_already double_encode p) && unsafe c then
        if x + 3 >? len then ""
        else String percent (String (hex_digit (Z.shiftr (code c) 4)) (String (hex_digit (code c)) (url_encode_loop double_encode len (x + 3) rest)))
      else String c (url_encode_loop double_encode len (x + 1) rest)
  end.

(** With a buffer of [len] bytes; the length is decremented as an unsigned number. *)
Definition switch_url_encode_opt (url : string) (len : Z) (double_encode : bool) : string :=
  url_encode_loop double_encode (u64 (len - 1)) 0 url.

Definition switch_url_encode (url : string) (len : Z) : string := switch_url_encode_opt url len false.

(** The length that switch_core_url_encode_opt computes, without the final zero. *)
Fixpoint encoded_length (double_encode : bool) (p : string) : Z :=
  match p with
  | EmptyString => 0
  | String c rest =>
      (if negb (encoded_already double_encode p) && unsafe c then 3 else 1) + encoded_length double_encode rest
  end.

Definition switch_core_url_encode_opt (url : string) (double_encode : bool) : string :=
  let len := encoded_length double_encode url + 1 in
  let slen := Z.of_nat (String.length url) + 1 in
  if slen =? len then url else switch_url_encode_opt url len double_encode.

Definition switch_core_url_encode (url : string) : string := switch_core_url_encode_opt url false.

Fixpoint needs_loop (p : string) : bool :=
  match p with
  | EmptyString => false
  | String c rest =>
      if encoded_already false p then match rest with String _ rest => needs_loop rest | _ => false end
      else existsb (Z.eqb (code c)) SWITCH_URL_UNSAFE || needs_loop rest
  end.

Definition switch_needs_url_encode (s : string) : bool := needs_loop s.

(** ** Decoding *)

Definition hex_value (c : ascii) : option Z :=
  let z := code c in
  if (48 <=? z) && (z <=? 57) then Some (z - 48)
  else if (65 <=? z) && (z <=? 70) then Some (z - 55)
  else if (97 <=? z) && (z <=? 102) then Some (z - 87)
  else None.

(** At most [width] digits. *)
Fixpoint scan_digits (width : nat) (acc : option Z) (s : string) : option Z :=
  match width, s with
  | S width, String c s => match hex_value c with Some d => scan_digits width (Some (default 0 acc * 16 + d)) s | None => acc end
  | _, _ => acc
  end.

Fixpoint skip_space (s : string) : string :=
  match s with String c s' => if isspace c then skip_space s' else s | EmptyString => s end.

(** [sscanf(s, "%2x", &tmp)], as far as one value is read: white space, a sign, which
    counts as one of two characters, and digits; 0x is the beginning of a number that
    is not there. *)
Definition scan_2x (s : string) : option Z :=
  match skip_space s with
  | String c s' =>
      if Ascii.eqb c "-" then (fun v => u32 (- v)) <$> scan_digits 1 None s'
      else if Ascii.eqb c "+" then scan_digits 1 None s'
      else if Ascii.eqb c "0" && match s' with String x _ => Ascii.eqb (tolower x) "x" | _ => false end then None
      else scan_digits 2 None (String c s')
  | EmptyString => None
  end.

(** The loop of switch_url_decode. *)
Fixpoint url_decode_loop (s : string) : string :=
  match s with
  | EmptyString => ""
  | String c rest =>
      match rest with
      | String _ (String _ rest2) =>
          match (if Ascii.eqb c percent then scan_2x rest else None) with
          | Some tmp => String (char tmp) (url_decode_loop rest2)
          | None => String c (url_decode_loop rest)
          end
      | _ => String c (url_decode_loop rest)
      end
  end.

Fixpoint c_string (s : string) : string :=
  match s with String c s => if Ascii.eqb c nul then "" else String c (c_string s) | EmptyString => "" end.

Definition switch_url_decode (s : string) : string := if has_char percent s then c_string (url_decode_loop s) else s.

(** ** The encoded text *)

(** The encoding without a limit. *)
Fixpoint encode_all (double_encode : bool) (p : string) : string :=
  match p with
  | EmptyString => ""
  | String c rest =>
      if negb (encoded_already double_encode p) && unsafe c
      then String percent (String (hex_digit (Z.shiftr (code c) 4)) (String (hex_digit (code c)) (encode_all double_encode rest)))
      else String c (encode_all double_encode rest)
  end.

Fixpoint all_chars (f : ascii -> bool) (s : string) : bool :=
  match s with String c s => f c && all_chars f s | EmptyString => true end.

Definition no_nul (s : string) : bool := all_chars (fun c => negb (Ascii.eqb c nul)) s.

(** No percent sign with two upper case digits in the text. *)
Fixpoint no_escapes (s : string) : bool :=
  match s with String _ s' => negb (encoded_already false s) && no_escapes s' | EmptyString => true end.

Lemma encoded_length_nonneg d p : 0 <= encoded_length d p.
Proof. induction p as [|c p IH]; cbn [encoded_length]; [done|]. destruct (_ && _); lia. Qed.

Lemma encoded_length_spec d p : encoded_length d p = Z.of_nat (String.length (encode_all d p)).
Proof. induction p as [|c p IH]; [done|]. cbn [encoded_length encode_all]. destruct (_ && _); cbn [String.length]; lia. Qed.

Lemma url_encode_loop_fits d len x p : x + encoded_length d p <= len -> url_encode_loop d len x p = encode_all d p.
Proof.
  revert x. induction p as [|c p IH]; intros x H; [done|]. cbn [encoded_length url_encode_loop encode_all] in *.
  pose proof (encoded_length_nonneg d p). destruct (_ && _).
  - destruct (Z.geb_spec x len); [lia|]. rewrite Z.gtb_ltb. destruct (Z.ltb_spec len (x + 3)); [lia|]. by rewrite IH by lia.
  - destruct (Z.geb_spec x len); [lia|]. by rewrite IH by lia.
Qed.

Lemma url_encode_fits url len d : encoded_length d url + 1 <= len < 2 ^ 64 -> switch_url_encode_opt url len d = encode_all d url.
Proof.
  intros H. pose proof (encoded_length_nonneg d url). unfold switch_url_encode_opt. rewrite u64_small by lia. apply url_encode_loop_fits. lia.
Qed.

Lemma encode_same d p : encoded_length d p = Z.of_nat (String.length p) -> encode_all d p = p.
Proof.
  induction p as [|c p IH]; [done|]. cbn [encoded_length encode_all String.length].
  assert (Z.of_nat (String.length p) <= encoded_length d p) as Hle.
  { clear IH. induction p as [|c' p IH]; cbn [encoded_length String.length]; [done|]. destruct (_ && _); lia. }
  destruct (_ && _); intros H; [lia|]. f_equal. apply IH. lia.
Qed.

(** Every character of the output is printable and not one of SWITCH_URL_UNSAFE,
    but for the percent sign. *)
Definition wire_safe (c : ascii) : bool := negb (unsafe c) || Ascii.eqb c percent.

Lemma hex_digits_safe c : wire_safe (hex_digit (Z.shiftr (code c) 4)) && wire_safe (hex_digit (code c)) = true.
Proof. destruct c as [[] [] [] [] [] [] [] []]; reflexivity. Qed.

Lemma encode_safe d p : all_chars wire_safe (encode_all d p) = true.
Proof.
  induction p as [|c p IH]; [done|]. cbn [encode_all]. destruct (encoded_already d (String c p)) eqn:E; cbn [negb andb].
  - cbn [all_chars]. rewrite IH, andb_true_r. unfold encoded_already in E. destruct p as [|a [|b p]]; try by rewrite andb_false_r in E.
    apply andb_true_iff in E as [_ [[E _]%andb_true_iff _]%andb_true_iff]. unfold wire_safe. rewrite E. apply orb_true_r.
  - destruct (unsafe c) eqn:U; cbn [all_chars].
    + pose proof (hex_digits_safe c) as [-> ->]%andb_true_iff. by rewrite IH.
    + unfold wire_safe at 1. by rewrite U, IH.
Qed.

(** ** Decoding what was encoded *)

Lemma scan_encoded c rest : scan_2x (String (hex_digit (Z.shiftr (code c) 4)) (String (hex_digit (code c)) rest)) = Some (code c).
Proof. destruct c as [[] [] [] [] [] [] [] []]; reflexivity. Qed.

Lemma char_code c : char (code c) = c.
Proof. destruct c as [[] [] [] [] [] [] [] []]; reflexivity. Qed.

Lemma decode_encoded c rest :
  url_decode_loop (String percent (String (hex_digit (Z.shiftr (code c) 4)) (String (hex_digit (code c)) rest))) = String c (url_decode_loop rest).
Proof. cbn [url_decode_loop]. rewrite Ascii.eqb_refl, scan_encoded, char_code. done. Qed.

Lemma decode_plain c rest : Ascii.eqb c percent = false -> url_decode_loop (String c rest) = String c (url_decode_loop rest).
Proof. intros H. cbn [url_decode_loop]. rewrite H. by destruct rest as [|a [|b rest]]. Qed.

Lemma percent_unsafe c : unsafe c = false -> Ascii.eqb c percent = false.
Proof. intros H. destruct (Ascii.eqb_spec c percent) as [->|]; done. Qed.

Lemma decode_encode p : url_decode_loop (encode_all true p) = p.
Proof.
  induction p as [|c p IH]; [done|]. cbn [encode_all encoded_already negb andb]. destruct (unsafe c) eqn:U.
  - by rewrite decode_encoded, IH.
  - by rewrite decode_plain, IH by by apply percent_unsafe.
Qed.

Lemma decode_no_percent s : has_char percent s = false -> url_decode_loop s = s.
Proof.
  induction s as [|c s IH]; [done|]. cbn [has_char]. intros [Hc Hs]%orb_false_iff. rewrite decode_plain by done. by rewrite IH.
Qed.

Lemma c_string_id s : no_nul s = true -> c_string s = s.
Proof.
  induction s as [|c s IH]; [done|]. cbn. destruct (Ascii.eqb c nul); [done|]. intros H. by rewrite IH.
Qed.

Lemma url_decode_encode p : no_nul p = true -> switch_url_decode (encode_all true p) = p.
Proof.
  intros Hn. unfold switch_url_decode. destruct (has_char percent (encode_all true p)) eqn:E.
  - by rewrite decode_encode, c_string_id.
  - by rewrite <- (decode_no_percent _ E), decode_encode.
Qed.

Lemma encode_no_escapes p : no_escapes p = true -> encode_all false p = encode_all true p.
Proof.
  induction p as [|c p IH]; [done|]. cbn [no_escapes encode_all]. intros [E H]%andb_true_iff. apply negb_true_iff in E.
  rewrite E, IH by done. reflexivity.
Qed.

(** ** Theorems *)

(** Whatever is encoded is safe, fits the length computed for it and is decoded to
    the original: for any text without zero characters, switch_core_url_encode_opt with
    double encoding gives only safe characters and switch_url_decode inverts it; the
    same for switch_core_url_encode if the text has no percent sign with two digits. *)
Theorem url_roundtrip s double_encode :
  no_nul s = true -> (double_encode = true \/ no_escapes s = true) -> 3 * Z.of_nat (String.length s) + 1 < 2 ^ 64 ->
  switch_url_decode (switch_core_url_encode_opt s double_encode) = s /\
  all_chars wire_safe (switch_core_url_encode_opt s double_encode) = true.
Proof.
  intros Hn Hd Hlen. assert (switch_core_url_encode_opt s double_encode = encode_all double_encode s) as E.
  { unfold switch_core_url_encode_opt. destruct (Z.eqb_spec (Z.of_nat (String.length s) + 1) (encoded_length double_encode s + 1)) as [E|_].
    - symmetry. apply encode_same. lia.
    - apply url_encode_fits. split; [lia|]. enough (encoded_length double_encode s <= 3 * Z.of_nat (String.length s)) by lia.
      clear. induction s as [|c s IH]; [done|]. cbn [encoded_length String.length]. destruct (_ && _); lia. }
  rewrite E. split; [|apply encode_safe]. destruct Hd as [->|Hne]; [by apply url_decode_encode|].
  destruct double_encode; [|rewrite encode_no_escapes by done]; by apply url_decode_encode.
Qed.

(** switch_url_encode leaves a percent sign with two digits as it is, so different
    texts have the same encoding and decoding does not give the text back. *)
Theorem encode_not_injective : switch_core_url_encode "100%25" = switch_core_url_encode "100%" /\ switch_url_decode (switch_core_url_encode "100%25") = "100%".
Proof. split; reflexivity. Qed.

Lemma url_roundtrip_witness : switch_url_decode (switch_core_url_encode_opt "a b:c%41" true) = "a b:c%41".
Proof. apply (url_roundtrip "a b:c%41" true); [reflexivity|by left|reflexivity]. Defined.

End Url.
