(* ===== verification/EventWire.v ===== *)
(** * Events as text (src/src/switch_event.c, src/libs/esl/src/esl.c)

    switch_event_serialize writes an event for the network: a line per header, with
    the value URL encoded or in brackets, an empty line, and the body if there is one.
    Clients read it back with the event socket library, whose parser of plain events is
    the second half of this file.

    The buffers of the serializer have the sizes of the code ([dlen], [encode_len]) and
    output that does not fit is cut as snprintf cuts it.  Lengths do not overflow.
    [None] is a header without a value, which the code would read through NULL; for the
    parser it is a line without a colon before one that has one, where the code runs
    into the following lines.  The parser's result are the names and values that it gives
    to esl_event_add_header_string or, for ARRAY:: values, esl_event_add_array, and the
    body. *)

From S2P Require Import Prelude.
From S2P Require Import Text Url Event.
From stdpp Require Import strings.
From Stdlib Require Import Ascii.

#[local] Open Scope string_scope.
#[local] Open Scope list_scope.
#[local] Open Scope Z_scope.

Module EventWire.
Import Text Url.
Import Event (switch_event_header, switch_event).

Definition newline : ascii := "010".
Definition colon : ascii := ":".

Definition len (s : string) : Z := Z.of_nat (String.length s).

(** What snprintf writes into a buffer of [room] bytes. *)
Definition snprintf (room : Z) (text : string) : string := String.substring 0 (Z.to_nat (room - 1)) text.

(** %d of a number that is not negative. *)
Fixpoint decimal_from (fuel : nat) (n : Z) : string :=
  match fuel with
  | O => ""
  | S fuel => (if n <? 10 then "" else decimal_from fuel (n / 10)) +:+ String (char (48 + n mod 10)) ""
  end.

Definition decimal (n : Z) : string := decimal_from 20 n.

(** ** The serializer *)

Definition blocksize : Z := 512.

Definition value_room (h : switch_event_header) (v : string) : Z :=
  match Event.array h with
  | [] => len v * 3 + 1
  | l => foldr (fun s n => len s * 3 + 1 + n) 0 l
  end.

Definition encode_value (encode : bool) (encode_len : Z) (v : string) : string :=
  if encode then switch_url_encode v encode_len else snprintf encode_len ("[" +:+ v +:+ "]").

(** Growing the buffer, whose contents are [l] long, for [llen] bytes. *)
Definition reserve (dlen l llen : Z) : Z := if l + llen >? dlen then dlen + (blocksize + (l + llen)) else dlen.

(** One header: the text, the size of the buffer and of the buffer for values. *)
Definition serialize_header (encode : bool) (st : string * Z * Z) (h : switch_event_header) : option (string * Z * Z) :=
  let '(buf, dlen, encode_len) := st in
  v ← Event.value h;
  let encode_len := Z.max encode_len (value_room h v) in
  let text := encode_value encode encode_len v in
  let llen := len (Event.name h) + len text + 8 in
  let dlen := reserve dlen (len buf) llen in
  let line := Event.name h +:+ ": " +:+ (if String.eqb text "" then "_undef_" else text) +:+ String newline "" in
  Some (buf +:+ snprintf (dlen - len buf) line, dlen, encode_len).

Fixpoint serialize_headers (encode : bool) (st : string * Z * Z) (l : list switch_event_header) : option (string * Z * Z) :=
  match l with
  | [] => Some st
  | h :: l => st ← serialize_header encode st h; serialize_headers encode st l
  end.

Definition switch_event_serialize (ev : switch_event) (encode : bool) : option string :=
  '(buf, dlen, _) ← serialize_headers encode ("", blocksize * 2, 1536) (Event.headers ev);
  match Event.body ev with
  | Some body =>
      let blen := len body in
      let llen := if blen =? 0 then blen + 5 else blen + 25 in
      let dlen := reserve dlen (len buf) llen in
      Some (buf +:+ snprintf (dlen - len buf)
              (if blen =? 0 then String newline ""
               else "Content-Length: " +:+ decimal blen +:+ String newline (String newline body)))
  | None => Some (buf +:+ snprintf (dlen - len buf) (String newline ""))
  end.

(** ** The parser of the event socket library *)

(** esl_url_decode, which does not look for a percent sign first. *)
Definition esl_url_decode (s : string) : string := c_string (url_decode_loop s).

(** strchr: the text before the character and after it. *)
Fixpoint split_at (c : ascii) (s : string) : option (string * string) :=
  match s with
  | EmptyString => None
  | String x s => if Ascii.eqb x c then Some ("", s) else '(a, b) ← split_at c s; Some (String x a, b)
  end.

(** The loop over the lines of esl_recv_event. *)
Fixpoint esl_lines (fuel : nat) (beg : string) : option (list (string * string) * string) :=
  match fuel with
  | O => Some ([], beg)
  | S fuel =>
      match split_at newline beg with
      | None => Some ([], beg)
      | Some (line, rest) =>
          found ← match split_at colon line with
                  | Some (hname, hval) => Some [(hname, esl_url_decode (skip_blanks hval))]
                  | None => if has_char colon rest then None else Some []
                  end;
          match rest with
          | String c rest' =>
              if Ascii.eqb c newline then Some (found, rest')
              else '(l, b) ← esl_lines fuel rest; Some (found ++ l, b)
          | EmptyString => '(l, b) ← esl_lines fuel rest; Some (found ++ l, b)
          end
      end
  end.

(** Whether the event has a length after these are added, for names without an index:
    adding an empty value deletes the header. *)
Definition has_length (l : list (string * string)) : bool :=
  foldl (fun has kv => if strcasecmp_eq kv.1 "content-length" then negb (String.eqb kv.2 "") else has) false l.

Definition esl_parse_plain (body : string) : option (list (string * string) * option string) :=
  '(l, beg) ← esl_lines (S (String.length body)) body;
  Some (l, if has_length l then Some beg else None).

(** ** Buffers *)

Lemma len_nonneg s : 0 <= len s.
Proof. unfold len. lia. Qed.

Lemma len_app s u : len (s +:+ u) = len s + len u.
Proof. unfold len. induction s as [|c s IH]; simpl; [done|]. lia. Qed.

Lemma len_cons c s : len (String c s) = 1 + len s.
Proof. unfold len. cbn [String.length]. lia. Qed.

Lemma substring_long n s : (String.length s <= n)%nat -> String.substring 0 n s = s.
Proof. revert n. induction s as [|c s IH]; intros [|n] H; cbn in *; try done; [lia|]. by rewrite IH by lia. Qed.

Lemma snprintf_fits room text : len text < room -> snprintf room text = text.
Proof. intros H. apply substring_long. unfold len in H. lia. Qed.

Lemma reserve_room dlen l llen : 0 <= l -> 0 <= llen -> 0 <= dlen -> l + llen <= reserve dlen l llen.
Proof. intros. unfold reserve, blocksize. destruct (Z.gtb_spec (l + llen) dlen); lia. Qed.

Lemma reserve_mono dlen l llen : 0 <= l -> 0 <= llen -> dlen <= reserve dlen l llen.
Proof. intros. unfold reserve, blocksize. destruct (Z.gtb_spec (l + llen) dlen); lia. Qed.

(** ** The text of an event *)

(** A header that is written as it is: it has a value that is not empty, and no array. *)
Definition simple (h : switch_event_header) : bool :=
  match Event.value h, Event.array h with
  | Some v, [] => negb (String.eqb v "") && (3 * len v + 1 <? 2 ^ 64)
  | _, _ => false
  end.

Definition wire_line (name v : string) : string := name +:+ ": " +:+ encode_all false v +:+ String newline "".

Definition line_of (h : switch_event_header) : string := wire_line (Event.name h) (default "" (Event.value h)).

Definition cat (l : list string) : string := foldr String.append "" l.

Definition tail_of (body : option string) : string :=
  match body with
  | Some (String _ _ as b) => "Content-Length: " +:+ decimal (len b) +:+ String newline (String newline b)
  | _ => String newline ""
  end.

Definition wire (ev : switch_event) : string := cat (map line_of (Event.headers ev)) +:+ tail_of (Event.body ev).

Lemma encoded_bound v : encoded_length false v <= 3 * len v.
Proof. unfold len. induction v as [|c v IH]; [done|]. cbn [encoded_length String.length]. destruct (_ && _); lia. Qed.

Lemma encode_nonempty v : v <> "" -> encode_all false v <> "".
Proof. destruct v as [|c v]; [done|]. cbn [encode_all]. by destruct (_ && _). Qed.

Lemma wire_line_len name v : len (wire_line name v) = len name + len (encode_all false v) + 3.
Proof. unfold wire_line. rewrite !len_app. change (len ": ") with 2. change (len (String newline "")) with 1. lia. Qed.

(** The state of the serializer: what is written, with room behind it. *)
Definition roomy (st : string * Z * Z) : Prop := len st.1.1 + 5 <= st.1.2 /\ 0 <= st.2 < 2 ^ 64.

Lemma serialize_header_spec h buf dlen encode_len : simple h = true -> roomy (buf, dlen, encode_len) ->
  exists dlen' encode_len', serialize_header true (buf, dlen, encode_len) h = Some (buf +:+ line_of h, dlen', encode_len') /\
    roomy (buf +:+ line_of h, dlen', encode_len').
Proof.
  intros Hs [Hr He]. cbn [fst snd] in *. unfold simple in Hs. unfold serialize_header, line_of. destruct (Event.value h) as [v|]; [|done].
  destruct (Event.array h) as [|] eqn:Ea; [|done]. apply andb_true_iff in Hs as [Hv Hlen%Z.ltb_lt]. apply negb_true_iff, String.eqb_neq in Hv.
  cbn [mbind option_bind from_option id]. unfold value_room. rewrite Ea. set (el := Z.max encode_len (len v * 3 + 1)).
  pose proof (encoded_bound v). pose proof (len_nonneg v). pose proof (len_nonneg buf). pose proof (len_nonneg (Event.name h)).
  assert (encode_value true el v = encode_all false v) as -> by (apply url_encode_fits; subst el; lia).
  destruct (String.eqb_spec (encode_all false v) "") as [E|_]; [by apply encode_nonempty in E|].
  change (Event.name h +:+ ": " +:+ encode_all false v +:+ String newline "") with (wire_line (Event.name h) v).
  pose proof (wire_line_len (Event.name h) v) as Hw. pose proof (len_nonneg (encode_all false v)).
  set (llen := len (Event.name h) + len (encode_all false v) + 8). assert (0 <= llen) as Hll by (subst llen; lia).
  pose proof (reserve_room dlen (len buf) llen ltac:(lia) Hll ltac:(lia)) as Hg. set (dl := reserve dlen (len buf) llen) in *. clearbody dl.
  rewrite snprintf_fits by (subst llen; lia). eexists _, _. split; [done|]. split; cbn [fst snd]; [rewrite len_app; subst llen; lia|subst el; lia].
Qed.

Lemma serialize_headers_spec l st : forallb simple l = true -> roomy st ->
  exists dlen' encode_len', serialize_headers true st l = Some (st.1.1 +:+ cat (map line_of l), dlen', encode_len') /\
    roomy (st.1.1 +:+ cat (map line_of l), dlen', encode_len').
Proof.
  revert st. induction l as [|h l IH]; intros [[buf dlen] el] Hs Hr; cbn [serialize_headers map cat foldr fst] in *.
  - rewrite append_nil. by eexists _, _.
  - apply andb_true_iff in Hs as [Hh Hl]. destruct (serialize_header_spec h buf dlen el Hh Hr) as (d1 & e1 & -> & Hr1). cbn [mbind option_bind].
    destruct (IH _ Hl Hr1) as (d2 & e2 & -> & Hr2). cbn [fst] in *. rewrite append_assoc in *. by eexists _, _.
Qed.

Lemma decimal_len n : 0 <= n < 1000000 -> len (decimal n) <= 6.
Proof.
  intros Hn. assert (forall k f x, 0 <= x < 10 ^ Z.of_nat k -> (0 < k)%nat -> len (decimal_from f x) <= Z.of_nat k) as H.
  { induction k as [|k IH]; intros f x Hx Hk; [lia|]. destruct f as [|f]; [change (len (decimal_from 0 x)) with 0; lia|]. cbn [decimal_from]. rewrite len_app, len_cons.
    change (len "") with 0. destruct (Z.ltb_spec x 10); [change (len "") with 0; lia|].
    assert (0 < k)%nat. { destruct k; [|lia]. change (10 ^ Z.of_nat 1) with 10 in Hx. lia. }
    specialize (IH f (x / 10)). rewrite Nat2Z.inj_succ, Z.pow_succ_r in Hx by lia.
    assert (0 <= x / 10 < 10 ^ Z.of_nat k) by (split; [apply Z.div_pos; lia|apply Z.div_lt_upper_bound; lia]). lia. }
  apply (H 6%nat 20%nat n); [|lia]. change (10 ^ Z.of_nat 6) with 1000000. lia.
Qed.

(** The serializer writes exactly the lines of its headers and the body, whatever
    the buffers have to grow, if every header has a value that is not empty and no array
    and the body is shorter than a million bytes. *)
Lemma serialize_exact ev : forallb simple (Event.headers ev) = true ->
  match Event.body ev with Some b => len b < 1000000 | None => True end -> switch_event_serialize ev true = Some (wire ev).
Proof.
  intros Hs Hb. unfold switch_event_serialize, wire.
  destruct (serialize_headers_spec (Event.headers ev) ("", blocksize * 2, 1536) Hs) as (d & e & -> & [Hr _]).
  { by vm_compute. }
  cbn [fst snd mbind option_bind] in *. change ("" +:+ cat (map line_of (Event.headers ev))) with (cat (map line_of (Event.headers ev))) in *.
  set (buf := cat (map line_of (Event.headers ev))) in *. pose proof (len_nonneg buf).
  destruct (Event.body ev) as [b|]; cbn [tail_of].
  - destruct b as [|c b]; [change (len "" =? 0) with true|rewrite (proj2 (Z.eqb_neq (len (String c b)) 0)) by (rewrite len_cons; pose proof (len_nonneg b); lia)];
      cbv beta iota zeta.
    + rewrite snprintf_fits; [done|]. rewrite len_cons. change (len "") with 0.
      pose proof (reserve_mono d (len buf) (0 + 5) ltac:(lia) ltac:(lia)). lia.
    + set (bb := String c b) in *. pose proof (len_nonneg bb). pose proof (decimal_len (len bb) ltac:(lia)).
      rewrite snprintf_fits; [done|]. rewrite !len_app. change (len "Content-Length: ") with 16. rewrite !len_cons.
      pose proof (reserve_room d (len buf) (len bb + 25) ltac:(lia) ltac:(lia) ltac:(lia)). lia.
  - rewrite snprintf_fits; [done|]. rewrite len_cons. change (len "") with 0. lia.
Qed.

(** ** Reading the text back *)

(** The lines after the headers are one more line, for the length of the body. *)
Definition length_pair (body : option string) : list (string * string) :=
  match body with Some (String _ _ as b) => [("Content-Length", decimal (len b))] | _ => [] end.

Definition pairs (ev : switch_event) : list (string * string) :=
  map (fun h => (Event.name h, default "" (Event.value h))) (Event.headers ev) ++ length_pair (Event.body ev).

Definition cat_lines (l : list (string * string)) : string := cat (map (fun nv => wire_line nv.1 nv.2) l).

Definition plain_name (s : string) : bool := all_chars (fun c => negb (Ascii.eqb c colon) && negb (Ascii.eqb c newline)) s.

Definition plain_pair (nv : string * string) : bool := plain_name nv.1 && no_nul nv.2 && no_escapes nv.2.

Lemma all_chars_app f s u : all_chars f (s +:+ u) = all_chars f s && all_chars f u.
Proof. induction s as [|c s IH]; [done|]. simpl. by rewrite IH, andb_assoc. Qed.

Lemma all_chars_impl f g s : (forall c, f c = true -> g c = true) -> all_chars f s = true -> all_chars g s = true.
Proof. intros H. induction s as [|c s IH]; [done|]. cbn [all_chars]. intros [Hc Hs]%andb_true_iff. by rewrite H, IH. Qed.

Lemma split_at_first c a b : all_chars (fun x => negb (Ascii.eqb x c)) a = true -> split_at c (a +:+ String c b) = Some (a, b).
Proof.
  induction a as [|x a IH]; simpl; [by rewrite Ascii.eqb_refl|].
  intros [Hx Ha]%andb_true_iff. apply negb_true_iff in Hx. by rewrite Hx, IH.
Qed.

Lemma encoded_no_newline v : all_chars (fun x => negb (Ascii.eqb x newline)) (encode_all false v) = true.
Proof. apply (all_chars_impl wire_safe); [|apply encode_safe]. by intros [[] [] [] [] [] [] [] []]. Qed.

Lemma skip_blanks_encoded v : skip_blanks (encode_all false v) = encode_all false v.
Proof.
  pose proof (encode_safe false v) as H. destruct (encode_all false v) as [|c s]; [done|]. cbn [all_chars] in H.
  apply andb_true_iff in H as [H _]. cbn [skip_blanks]. by destruct (Ascii.eqb_spec c blank) as [->|].
Qed.

Lemma decode_line v : no_nul v = true -> no_escapes v = true -> esl_url_decode (encode_all false v) = v.
Proof. intros Hn He. unfold esl_url_decode. by rewrite encode_no_escapes, decode_encode, c_string_id. Qed.

(** One line is read as its name and value, and the parser stops at an empty line. *)
Lemma esl_line fuel nv rest : plain_pair nv = true ->
  esl_lines (S fuel) (wire_line nv.1 nv.2 +:+ rest) =
  match rest with
  | String c rest' => if Ascii.eqb c newline then Some ([nv], rest') else '(l, b) ← esl_lines fuel rest; Some (nv :: l, b)
  | EmptyString => '(l, b) ← esl_lines fuel rest; Some (nv :: l, b)
  end.
Proof.
  destruct nv as [n v]. unfold plain_pair. cbn [fst snd]. intros [[Hn Hv]%andb_true_iff He]%andb_true_iff.
  assert (wire_line n v +:+ rest = (n +:+ String colon (String " " (encode_all false v))) +:+ String newline rest) as ->.
  { unfold wire_line. by rewrite !append_assoc. }
  cbn [esl_lines]. rewrite split_at_first.
  2:{ rewrite all_chars_app. cbn [all_chars]. rewrite encoded_no_newline. rewrite (all_chars_impl _ _ n (fun c H => proj2 (andb_prop _ _ H)) Hn). done. }
  rewrite split_at_first by (apply (all_chars_impl _ _ n (fun c H => proj1 (andb_prop _ _ H)) Hn)).
  change (skip_blanks (String " " (encode_all false v))) with (skip_blanks (encode_all false v)).
  rewrite skip_blanks_encoded, decode_line by done. cbn [mbind option_bind]. destruct rest as [|c r]; [done|]. by destruct (Ascii.eqb c newline).
Qed.

Lemma wire_line_head n v rest : plain_name n = true -> exists c r, wire_line n v +:+ rest = String c r /\ Ascii.eqb c newline = false.
Proof.
  destruct n as [|c n]; [by eexists _, _|]. cbn [plain_name all_chars]. intros [[_ H]%andb_true_iff _]%andb_true_iff.
  apply negb_true_iff in H. by eexists _, _.
Qed.

Lemma cat_lines_cons nv l b : cat_lines (nv :: l) +:+ b = wire_line nv.1 nv.2 +:+ (cat_lines l +:+ b).
Proof. unfold cat_lines. cbn [map cat foldr]. by rewrite append_assoc. Qed.

Lemma esl_lines_cat l fuel b : l <> [] -> forallb plain_pair l = true -> (length l <= fuel)%nat ->
  esl_lines fuel (cat_lines l +:+ String newline b) = Some (l, b).
Proof.
  revert fuel. induction l as [|nv l IH]; intros fuel Hne Hp Hf; [done|]. cbn [forallb] in Hp. apply andb_true_iff in Hp as [Hp Hl].
  destruct fuel as [|fuel]; cbn [length] in Hf; [lia|]. rewrite cat_lines_cons, esl_line by done. destruct l as [|nv' l]; [done|].
  rewrite IH by (done || lia). cbn [forallb] in Hl. apply andb_true_iff in Hl as [[[Hn _]%andb_true_iff _]%andb_true_iff _].
  rewrite cat_lines_cons. by destruct (wire_line_head nv'.1 nv'.2 (cat_lines l +:+ String newline b) Hn) as (c & r & -> & ->).
Qed.

Lemma plain_text s : all_chars (fun c => negb (unsafe c)) s = true -> encode_all false s = s /\ no_nul s = true /\ no_escapes s = true.
Proof.
  induction s as [|c s IH]; [done|]. cbn [all_chars]. intros [Hc Hs]%andb_true_iff. apply negb_true_iff in Hc. destruct (IH Hs) as (E & N & X).
  cbn [encode_all no_nul all_chars no_escapes]. rewrite Hc, andb_false_r, E. unfold no_nul in N. rewrite N, X, !andb_true_r. split_and!; [done| |].
  - destruct (Ascii.eqb_spec c nul) as [->|]; done.
  - unfold encoded_already. destruct s as [|a [|b s]]; try done. by rewrite (percent_unsafe c Hc).
Qed.

Lemma decimal_plain n : 0 <= n -> all_chars (fun c => negb (unsafe c)) (decimal n) = true.
Proof.
  intros Hn. unfold decimal. generalize 20%nat. intros f. revert n Hn. induction f as [|f IH]; intros n Hn; [done|]. cbn [decimal_from].
  rewrite all_chars_app. assert (all_chars (fun c => negb (unsafe c)) (String (char (48 + n mod 10)) "") = true) as ->.
  { pose proof (Z.mod_pos_bound n 10 ltac:(lia)) as H. set (m := n mod 10) in *. clearbody m.
    assert (m = 0 \/ m = 1 \/ m = 2 \/ m = 3 \/ m = 4 \/ m = 5 \/ m = 6 \/ m = 7 \/ m = 8 \/ m = 9) as Hm by lia.
    by repeat destruct Hm as [->|Hm]; [..|subst m]. }
  rewrite andb_true_r. destruct (n <? 10); [done|]. apply IH, Z.div_pos; lia.
Qed.

Lemma wire_pairs ev : wire ev = cat_lines (pairs ev) +:+ String newline (default "" (Event.body ev)).
Proof.
  unfold wire, cat_lines, pairs. rewrite map_app, map_map. unfold line_of. cbn [fst snd].
  assert (forall k l, cat (k ++ l) = cat k +:+ cat l) as Hc.
  { intros k l. induction k as [|s k IH]; [done|]. cbn [app cat foldr]. fold (cat (k ++ l)). by rewrite IH, append_assoc. }
  rewrite Hc, append_assoc. f_equal. destruct (Event.body ev) as [[|c b]|]; [done| |done].
  cbn [length_pair map cat foldr fst snd tail_of from_option]. unfold wire_line.
  rewrite (proj1 (plain_text (decimal (len (String c b))) (decimal_plain _ (len_nonneg _)))). by rewrite !append_assoc.
Qed.

Lemma cat_lines_length l b : (length l <= String.length (cat_lines l +:+ b))%nat.
Proof.
  induction l as [|nv l IH]; [cbn; lia|]. rewrite cat_lines_cons. cbn [length].
  pose proof (len_app (wire_line nv.1 nv.2) (cat_lines l +:+ b)) as H. rewrite wire_line_len in H.
  pose proof (len_nonneg nv.1). pose proof (len_nonneg (encode_all false nv.2)). unfold len in *. lia.
Qed.

(** The headers for which the text can be read back: a value that is not empty, no array,
    a name without a colon or newline, no zeros and no percent sign with two digits
    in the value, and not the name that the length of the body has. *)
Definition portable (h : switch_event_header) : bool :=
  simple h && plain_pair (Event.name h, default "" (Event.value h)) && negb (strcasecmp_eq (Event.name h) "content-length").

Lemma pairs_plain ev : forallb portable (Event.headers ev) = true -> forallb plain_pair (pairs ev) = true.
Proof.
  intros H. unfold pairs. rewrite forallb_app. apply andb_true_iff. split.
  - induction (Event.headers ev) as [|h l IH]; [done|]. cbn [forallb map] in *. apply andb_true_iff in H as [Hh Hl].
    apply andb_true_iff in Hh as [[_ ->]%andb_true_iff _]. by apply IH.
  - destruct (Event.body ev) as [[|c b]|]; [done| |done]. cbn [length_pair forallb]. unfold plain_pair. cbn [fst snd].
    destruct (plain_text _ (decimal_plain (len (String c b)) (len_nonneg _))) as (_ & -> & ->). done.
Qed.

Lemma pairs_has_length ev : forallb portable (Event.headers ev) = true ->
  has_length (pairs ev) = match Event.body ev with Some (String _ _) => true | _ => false end.
Proof.
  intros H. unfold has_length, pairs. rewrite foldl_app. replace (foldl _ false (map _ _)) with false.
  - destruct (Event.body ev) as [[|c b]|]; [done| |done]. cbn [length_pair foldl fst snd strcasecmp_eq]. unfold decimal. cbn [decimal_from].
    by destruct (if len (String c b) <? 10 then _ else _).
  - symmetry. induction (Event.headers ev) as [|h l IH]; [done|]. cbn [forallb map foldl fst] in *. apply andb_true_iff in H as [Hh Hl].
    apply andb_true_iff in Hh as [_ Hn]. apply negb_true_iff in Hn. by rewrite Hn, IH.
Qed.

(** ** Theorems *)

(** C32. What switch_event_serialize writes with encoding on is what the event socket library reads: for an
    event of any number and length of portable headers (a value that is not empty and has no NUL and no percent sign
    before two hexadecimal digits, no array, a name without colon and newline and other than Content-Length) and a body of less than a million
    bytes, however often the buffers grow, the parser finds the names and values of
    the headers in their order, then the length of the body if it is not empty, and
    that body. *)
Theorem event_wire_roundtrip ev : forallb portable (Event.headers ev) = true ->
  match Event.body ev with Some b => len b < 1000000 | None => True end ->
  exists text, switch_event_serialize ev true = Some text /\
    esl_parse_plain text = Some (map (fun h => (Event.name h, default "" (Event.value h))) (Event.headers ev) ++ length_pair (Event.body ev),
                                 match Event.body ev with Some (String _ _ as b) => Some b | _ => None end).
Proof.
  intros Hp Hb. exists (wire ev). split.
  - apply serialize_exact; [|done]. rewrite forallb_forall in *. intros h Hh. by apply Hp, andb_true_iff, proj1, andb_true_iff in Hh as [? _].
  - fold (pairs ev). pose proof (pairs_has_length ev Hp) as Hl. unfold esl_parse_plain. rewrite wire_pairs.
    destruct (decide (pairs ev = [])) as [E|Hne].
    + rewrite E in *. by destruct (Event.body ev) as [[|c b]|].
    + rewrite esl_lines_cat; [|done|by apply pairs_plain|pose proof (cat_lines_length (pairs ev) (String newline (default "" (Event.body ev)))); lia].
      cbn [mbind option_bind]. rewrite Hl. by destruct (Event.body ev) as [[|c b]|].
Qed.

(** Headers added one after the other. *)
Definition built (l : list (Z * string * string)) : option switch_event :=
  foldl (fun oev '(stack, n, v) => ev ← oev; snd <$> Event.switch_event_add_header_string ev stack n (Some v)) (Some (Event.switch_event_create_plain false)) l.

Definition sent (l : list (Z * string * string)) : option (list (string * string) * option string) :=
  ev ← built l; text ← switch_event_serialize ev true; esl_parse_plain text.

Fixpoint repeated (n : nat) (s : string) : string := match n with O => "" | S n => s +:+ repeated n s end.

(** For a header with an empty value, which is made by naming its first element, the code reserves room for an empty text and then
    writes _undef_: where the buffer is just large enough the line is cut, its end is lost
    and the next header is read as part of the value. *)
Theorem undef_cut :
  sent [(Event.SWITCH_STACK_BOTTOM, "a", repeated 1011 "x"); (Event.SWITCH_STACK_BOTTOM, "b[0]", ""); (Event.SWITCH_STACK_BOTTOM, "c", "1")] =
  Some ([("a", repeated 1011 "x"); ("b", "_undec: 1")], None).
Proof. vm_compute. reflexivity. Qed.

(** For an array the code reserves room for its elements, not for the text that joins
    them: an array of 300 elements of one character arrives with 218, the last of them
    with a piece of a separator. *)
Theorem array_cut : sent (repeat (Event.SWITCH_STACK_PUSH, "a", "x") 300) = Some ([("a", Event.drawn (repeat "x" 218) +:+ "|")], None).
Proof. vm_compute. reflexivity. Qed.

(** A value with a percent sign and two digits arrives decoded. *)
Theorem escapes_lost : sent [(Event.SWITCH_STACK_BOTTOM, "a", "100%25")] = Some ([("a", "100%")], None).
Proof. vm_compute. reflexivity. Qed.

Definition example_event : switch_event :=
  Event.switch_event_set_body (default (Event.switch_event_create_plain false) (built [(Event.SWITCH_STACK_BOTTOM, "Event-Name", "CUSTOM"); (Event.SWITCH_STACK_BOTTOM, "a", "x: 1% 2")])) (Some "hello").

Lemma event_wire_roundtrip_witness : exists text, switch_event_serialize example_event true = Some text /\
  esl_parse_plain text = Some ([("Event-Name", "CUSTOM"); ("a", "x: 1% 2"); ("Content-Length", "5")], Some "hello").
Proof. apply (event_wire_roundtrip example_event); [vm_compute; reflexivity|vm_compute; reflexivity]. Defined.

End EventWire.
