(* ===== verification/Caller.v ===== *)
(** * Caller profiles (src/src/switch_caller.c, src/src/include/switch_caller.h)

    A caller profile holds who calls whom: names and numbers, the dialplan and
    context, the times of the call, and a list of further name and value pairs
    (the soft list).  Its fields are read by name, and switch_channel_set_profile_var
    of switch_channel.c writes them by name.

    Profiles point to other profiles (originator, originatee and so on); these are
    never written through, so the pointers are options.  [None] as a string is a
    NULL pointer.  Every string is allocated from the profile's pool, which is
    freed as a whole; the pool is left out. *)

From S2P Require Import Prelude.
From S2P Require Import Text.
From stdpp Require Import strings pretty.
From Stdlib Require Import Ascii.

#[local] Open Scope string_scope.
#[local] Open Scope list_scope.
#[local] Open Scope Z_scope.

Module Caller.

Import Text.

(** ** Cleaning strings *)

(** Control characters become blanks. *)
Fixpoint switch_clean_string (s : string) : string :=
  match s with
  | EmptyString => EmptyString
  | String c s =>
      let x := N_of_ascii c in
      String (if (x <? 32)%N && negb (x =? 10)%N && negb (x =? 13)%N then blank else c) (switch_clean_string s)
  end.

(** The scan of switch_string_var_check_const for a dollar sign, any number of
    backslashes and a brace; [dol] says that a dollar sign is pending. *)
Fixpoint var_ref (dol : bool) (s : string) : bool :=
  match s with
  | EmptyString => false
  | String c s =>
      if Ascii.eqb c "$" then var_ref true s
      else if dol then
        if Ascii.eqb c "{" then true else if negb (Ascii.eqb c "\") then var_ref false s else var_ref dol s
      else var_ref dol s
  end.

Definition switch_string_var_check_const (s : string) : bool := var_ref false s.

Fixpoint set_char (s : string) (i : nat) (c : ascii) : string :=
  match s, i with
  | EmptyString, _ => EmptyString
  | String _ s, O => String c s
  | String d s, S i => String d (set_char s i c)
  end.

(** The loop of switch_string_var_check: [seen] is the string up to the position,
    [dol] the position of the pending dollar sign. *)
Fixpoint var_check_loop (disable : bool) (seen rest : string) (dol : option nat) : bool * string :=
  match rest with
  | EmptyString => (false, seen)
  | String c rest' =>
      let next := seen +:+ String c "" in
      if Ascii.eqb c "$" then var_check_loop disable next rest' (Some (String.length seen))
      else
        match dol with
        | Some d =>
            if Ascii.eqb c "{" then
              if disable then var_check_loop disable (set_char next d "%") rest' None else (true, seen +:+ rest)
            else if negb (Ascii.eqb c "\") then var_check_loop disable next rest' None
            else var_check_loop disable next rest' dol
        | None => var_check_loop disable next rest' dol
        end
  end.

(** The result and the string afterwards. *)
Definition switch_string_var_check (s : string) (disable : bool) : bool * string := var_check_loop disable "" s None.

Definition switch_var_clean_string (s : string) : string := (switch_string_var_check s true).2.

(** ** Data *)

Definition SWITCH_TON_UNDEF : Z := 255.
Definition SWITCH_NUMPLAN_UNDEF : Z := 255.
Definition SWITCH_DEFAULT_CLID_NAME : string := "".
Definition SWITCH_DEFAULT_CLID_NUMBER : string := "0000000000".
Definition SWITCH_CPF_SCREEN : Z := 1.
Definition SWITCH_CPF_HIDE_NAME : Z := 2.
Definition SWITCH_CPF_HIDE_NUMBER : Z := 4.
Definition SWITCH_CPF_SOFT_PREFIX : Z := 8.
Definition SWITCH_CPF_SOFT_LOOKUP : Z := 16.

Record switch_channel_timetable := mk_times {
  profile_created : Z; created : Z; answered : Z; progress : Z; progress_media : Z; hungup : Z; transferred : Z;
  resurrected : Z; bridged : Z; last_hold : Z; hold_accum : Z }.

Inductive switch_caller_profile := mk_profile {
  username : option string; dialplan : option string; caller_id_name : option string; caller_id_number : option string;
  orig_caller_id_name : option string; orig_caller_id_number : option string; callee_id_name : option string;
  callee_id_number : option string; caller_ton : Z; caller_numplan : Z; network_addr : option string; ani : option string;
  ani_ton : Z; ani_numplan : Z; aniii : option string; rdnis : option string; rdnis_ton : Z; rdnis_numplan : Z;
  destination_number : option string; destination_number_ton : Z; destination_number_numplan : Z; source : option string;
  chan_name : option string; uuid : option string; context : option string; profile_index : option string; profile_flags : Z;
  originator_caller_profile : option switch_caller_profile; originatee_caller_profile : option switch_caller_profile;
  hunt_caller_profile : option switch_caller_profile; times : option switch_channel_timetable;
  old_times : option switch_channel_timetable; soft : list (string * string); uuid_str : option string; clone_of : option string;
  transfer_source : option string }.

#[export] Instance rebuild_profile : Rebuild switch_caller_profile := fun p =>
  mk_profile (username p) (dialplan p) (caller_id_name p) (caller_id_number p) (orig_caller_id_name p) (orig_caller_id_number p)
    (callee_id_name p) (callee_id_number p) (caller_ton p) (caller_numplan p) (network_addr p) (ani p) (ani_ton p) (ani_numplan p)
    (aniii p) (rdnis p) (rdnis_ton p) (rdnis_numplan p) (destination_number p) (destination_number_ton p) (destination_number_numplan p)
    (source p) (chan_name p) (uuid p) (context p) (profile_index p) (profile_flags p) (originator_caller_profile p)
    (originatee_caller_profile p) (hunt_caller_profile p) (times p) (old_times p) (soft p) (uuid_str p) (clone_of p) (transfer_source p).
#[export] Instance set_username : Setter username := ltac:(derive_setter).
#[export] Instance set_dialplan : Setter dialplan := ltac:(derive_setter).
#[export] Instance set_caller_id_name : Setter caller_id_name := ltac:(derive_setter).
#[export] Instance set_caller_id_number : Setter caller_id_number := ltac:(derive_setter).
#[export] Instance set_callee_id_name : Setter callee_id_name := ltac:(derive_setter).
#[export] Instance set_callee_id_number : Setter callee_id_number := ltac:(derive_setter).
#[export] Instance set_caller_ton : Setter caller_ton := ltac:(derive_setter).
#[export] Instance set_caller_numplan : Setter caller_numplan := ltac:(derive_setter).
#[export] Instance set_destination_number_ton : Setter destination_number_ton := ltac:(derive_setter).
#[export] Instance set_destination_number_numplan : Setter destination_number_numplan := ltac:(derive_setter).
#[export] Instance set_ani : Setter ani := ltac:(derive_setter).
#[export] Instance set_aniii : Setter aniii := ltac:(derive_setter).
#[export] Instance set_network_addr : Setter network_addr := ltac:(derive_setter).
#[export] Instance set_rdnis : Setter rdnis := ltac:(derive_setter).
#[export] Instance set_destination_number : Setter destination_number := ltac:(derive_setter).
#[export] Instance set_uuid : Setter uuid := ltac:(derive_setter).
#[export] Instance set_source : Setter source := ltac:(derive_setter).
#[export] Instance set_context : Setter context := ltac:(derive_setter).
#[export] Instance set_chan_name : Setter chan_name := ltac:(derive_setter).
#[export] Instance set_soft : Setter soft := ltac:(derive_setter).
#[export] Instance set_times : Setter times := ltac:(derive_setter).

Implicit Types (p : switch_caller_profile) (t : switch_channel_timetable).

(** ** Making and copying *)

Definition zstr (s : option string) : bool := match s with None | Some EmptyString => true | Some _ => false end.

(** profile_dup_clean and profile_dup. *)
Definition dup_clean (s : option string) : option string :=
  match s with None | Some EmptyString => Some "" | Some s => Some (switch_var_clean_string (switch_clean_string s)) end.

Definition dup (s : option string) : option string := match s with None | Some EmptyString => Some "" | Some s => Some s end.

(** [uuid0] is the new unique id, [soft_prefix] and [soft_lookup] the core flags. *)
Definition switch_caller_profile_new (uuid0 : string) (soft_prefix soft_lookup : bool)
  (username0 dialplan0 caller_id_name0 caller_id_number0 network_addr0 ani0 aniii0 rdnis0 source0 context0 destination_number0 : option string)
  : switch_caller_profile :=
  let context0 := match context0 with None => Some "default" | c => c end in
  let caller_id_name0 := if zstr caller_id_name0 then Some SWITCH_DEFAULT_CLID_NAME else caller_id_name0 in
  let caller_id_number0 := if zstr caller_id_number0 then Some SWITCH_DEFAULT_CLID_NUMBER else caller_id_number0 in
  let ani0 := if zstr ani0 then caller_id_number0 else ani0 in
  let flags0 := SWITCH_CPF_SCREEN in
  let flags0 := if soft_prefix then Z.lor flags0 SWITCH_CPF_SOFT_PREFIX else flags0 in
  let flags0 := if soft_lookup then Z.lor flags0 SWITCH_CPF_SOFT_LOOKUP else flags0 in
  mk_profile (dup_clean username0) (dup_clean dialplan0) (dup_clean caller_id_name0) (dup_clean caller_id_number0)
    (dup_clean caller_id_name0) (dup_clean caller_id_number0) (Some "") (Some "") SWITCH_TON_UNDEF SWITCH_NUMPLAN_UNDEF
    (dup_clean network_addr0) (dup_clean ani0) SWITCH_TON_UNDEF SWITCH_NUMPLAN_UNDEF (dup_clean aniii0) (dup_clean rdnis0)
    SWITCH_TON_UNDEF SWITCH_NUMPLAN_UNDEF (dup_clean destination_number0) SWITCH_TON_UNDEF SWITCH_NUMPLAN_UNDEF (dup_clean source0)
    (Some "") (Some "") (dup_clean context0) None flags0 None None None None None [] (Some uuid0) None None.

(** The copy, and the original, which gets an empty timetable if it has none. *)
Definition no_times : switch_channel_timetable := mk_times 0 0 0 0 0 0 0 0 0 0 0.

Definition switch_caller_profile_dup (uuid0 : string) (tocopy : switch_caller_profile) : switch_caller_profile * switch_caller_profile :=
  let tocopy' := match times tocopy with Some _ => tocopy | None => tocopy <| times := Some no_times |> end in
  (mk_profile (dup (username tocopy)) (dup (dialplan tocopy)) (dup (caller_id_name tocopy)) (dup (caller_id_number tocopy))
    (dup (orig_caller_id_name tocopy)) (dup (orig_caller_id_number tocopy)) (dup (callee_id_name tocopy)) (dup (callee_id_number tocopy))
    (caller_ton tocopy) (caller_numplan tocopy) (dup (network_addr tocopy)) (dup (ani tocopy)) (ani_ton tocopy) (ani_numplan tocopy)
    (dup (aniii tocopy)) (dup (rdnis tocopy)) (rdnis_ton tocopy) (rdnis_numplan tocopy) (dup (destination_number tocopy))
    (destination_number_ton tocopy) (destination_number_numplan tocopy) (dup (source tocopy)) (dup (chan_name tocopy)) (dup (uuid tocopy))
    (dup (context tocopy)) None (profile_flags tocopy) None None None None (times tocopy) (soft tocopy) (Some uuid0) (uuid_str tocopy) None,
   tocopy').

(** ** Reading by name *)

Definition number (z : Z) : option (option string) := Some (Some (pretty z)).
Definition truth (b : bool) : option (option string) := Some (Some (if b then "true" else "false")).

(** A time is read through [times]; [None] is the access through NULL. *)
Definition time_of p (f : switch_channel_timetable -> Z) : option (option string) :=
  match times p with Some t => number (f t) | None => None end.

Definition profile_fields p : list (string * option (option string)) :=
  [("dialplan", Some (dialplan p)); ("username", Some (username p)); ("caller_id_name", Some (caller_id_name p));
   ("caller_id_number", Some (caller_id_number p)); ("orig_caller_id_name", Some (orig_caller_id_name p));
   ("orig_caller_id_number", Some (orig_caller_id_number p)); ("callee_id_name", Some (callee_id_name p));
   ("callee_id_number", Some (callee_id_number p)); ("ani", Some (ani p)); ("aniii", Some (aniii p));
   ("network_addr", Some (network_addr p)); ("rdnis", Some (rdnis p)); ("destination_number", Some (destination_number p));
   ("uuid", Some (uuid p)); ("source", Some (source p)); ("transfer_source", Some (transfer_source p)); ("context", Some (context p));
   ("chan_name", Some (chan_name p)); ("profile_index", Some (profile_index p)); ("caller_ton", number (caller_ton p));
   ("caller_numplan", number (caller_numplan p)); ("destination_number_ton", number (destination_number_ton p));
   ("destination_number_numplan", number (destination_number_numplan p)); ("ani_ton", number (ani_ton p));
   ("ani_numplan", number (ani_numplan p)); ("rdnis_ton", number (rdnis_ton p)); ("rdnis_numplan", number (rdnis_numplan p));
   ("screen_bit", truth (test_flag (profile_flags p) SWITCH_CPF_SCREEN));
   ("privacy_hide_name", truth (test_flag (profile_flags p) SWITCH_CPF_HIDE_NAME));
   ("privacy_hide_number", truth (test_flag (profile_flags p) SWITCH_CPF_HIDE_NUMBER));
   ("profile_created_time", time_of p profile_created); ("created_time", time_of p created); ("answered_time", time_of p answered);
   ("progress_time", time_of p progress); ("progress_media_time", time_of p progress_media); ("hungup_time", time_of p hungup);
   ("transferred_time", time_of p transferred)].

Definition soft_value (l : list (string * string)) (name : string) : option string :=
  snd <$> List.find (fun kv => strcasecmp_eq name kv.1) l.

Definition switch_caller_get_field_by_name p (name : string) : option (option string) :=
  match List.find (fun kv => strcasecmp_eq name kv.1) (profile_fields p) with
  | Some (_, v) => v
  | None => Some (if test_flag (profile_flags p) SWITCH_CPF_SOFT_LOOKUP then soft_value (soft p) name else None)
  end.

(** ** Writing by name *)

(** The soft list with the value of [name] replaced, or appended at its end. *)
Fixpoint soft_set (l : list (string * string)) (name v : string) : list (string * string) :=
  match l with
  | [] => [(name, v)]
  | (var, val) :: l => if strcasecmp_eq var name then (var, v) :: l else (var, val) :: soft_set l name v
  end.

(** The fields that can be written, with the value written; the numbers only if a
    value was given. *)
Definition field_setters (given : bool) (v : string) : list (string * (switch_caller_profile -> switch_caller_profile)) :=
  let num (f : Z -> switch_caller_profile -> switch_caller_profile) := f (u8 (atoi v)) in
  [("dialplan", fun p => p <| dialplan := Some v |>); ("username", fun p => p <| username := Some v |>);
   ("caller_id_name", fun p => p <| caller_id_name := Some v |>); ("caller_id_number", fun p => p <| caller_id_number := Some v |>);
   ("callee_id_name", fun p => p <| callee_id_name := Some v |>); ("callee_id_number", fun p => p <| callee_id_number := Some v |>)]
  ++ (if given then
        [("caller_ton", num (fun z p => p <| caller_ton := z |>)); ("caller_numplan", num (fun z p => p <| caller_numplan := z |>));
         ("destination_number_ton", num (fun z p => p <| destination_number_ton := z |>));
         ("destination_number_numplan", num (fun z p => p <| destination_number_numplan := z |>))]
      else [])
  ++ [("ani", fun p => p <| ani := Some v |>); ("aniii", fun p => p <| aniii := Some v |>);
      ("network_addr", fun p => p <| network_addr := Some v |>); ("rdnis", fun p => p <| rdnis := Some v |>);
      ("destination_number", fun p => p <| destination_number := Some v |>); ("uuid", fun p => p <| uuid := Some v |>);
      ("source", fun p => p <| source := Some v |>); ("context", fun p => p <| context := Some v |>);
      ("chan_name", fun p => p <| chan_name := Some v |>)].

(** [set_device_id] is switch_channel_set_device_id: the id, or NULL if the channel
    has one already. *)
Definition switch_channel_set_profile_var (set_device_id : string -> option string) p (name : string) (val : option string)
  : switch_caller_profile :=
  let write val :=
    let v := match val with Some v => v | None => "" end in
    match List.find (fun kv => strcasecmp_eq name kv.1) (field_setters (match val with Some _ => true | None => false end) v) with
    | Some (_, f) => f p
    | None => p <| soft := soft_set (soft p) name v |>
    end in
  if strcasecmp_eq name "device_id" && negb (zstr val) then
    match set_device_id (default "" val) with Some d => write (Some d) | None => p end
  else write val.

(** ** References to variables *)

(** The scan as an automaton: the state at the end, [None] once a reference is found. *)
Definition scan_char (dol : bool) (c : ascii) : option bool :=
  if Ascii.eqb c "$" then Some true
  else if dol then if Ascii.eqb c "{" then None else Some (Ascii.eqb c "\")
  else Some false.

Fixpoint scan (dol : bool) (s : string) : option bool :=
  match s with
  | EmptyString => Some dol
  | String c s => match scan_char dol c with Some dol => scan dol s | None => None end
  end.

Lemma var_ref_scan dol s : var_ref dol s = match scan dol s with Some _ => false | None => true end.
Proof.
  revert dol. induction s as [|c s IH]; intros dol; [done|]. cbn. unfold scan_char.
  destruct (Ascii.eqb c "$"); [apply IH|]. destruct dol; [|apply IH]. destruct (Ascii.eqb c "{"); [done|].
  destruct (Ascii.eqb c "\"); apply IH.
Qed.

Lemma scan_app dol a b : scan dol (a +:+ b) = match scan dol a with Some dol => scan dol b | None => None end.
Proof.
  revert dol. induction a as [|c a IH]; intros dol; [done|].
  change (String c a +:+ b) with (String c (a +:+ b)). cbn [scan]. destruct (scan_char dol c); [apply IH|done].
Qed.

(** Nothing is found later from the quiet state than from the pending one. *)
Lemma scan_quiet dol s : is_Some (scan dol s) -> is_Some (scan false s).
Proof.
  destruct dol; [|done]. destruct s as [|c s]; [by eexists|]. cbn. unfold scan_char.
  destruct (Ascii.eqb c "$"); [done|]. destruct (Ascii.eqb c "{"); [by intros [? ?]|]. revert s.
  assert (forall s, is_Some (scan true s) -> is_Some (scan false s)) as H.
  { intros s. induction s as [|d s IH]; [by eexists|]. cbn. unfold scan_char. destruct (Ascii.eqb d "$"); [done|].
    destruct (Ascii.eqb d "{"); [by intros [? ?]|]. destruct (Ascii.eqb d "\"); [exact IH|done]. }
  intros s. destruct (Ascii.eqb c "\"); [apply H|done].
Qed.

Fixpoint backslashes (n : nat) : string := match n with O => "" | S n => String "\" (backslashes n) end.

Lemma backslashes_snoc n : backslashes n +:+ "\" = backslashes (S n).
Proof. induction n as [|n IH]; [done|]. exact (f_equal (String "\") IH). Qed.

Lemma scan_backslashes dol n : scan dol (backslashes n) = Some dol.
Proof. induction n as [|n IH]; [done|]. cbn. unfold scan_char. cbn. by destruct dol. Qed.

Lemma set_char_mid a c b d : set_char (a +:+ String c b) (String.length a) d = a +:+ String d b.
Proof. induction a as [|x a IH]; [done|]. exact (f_equal (String x) IH). Qed.

(** The part of the string seen, with the pending dollar sign. *)
Definition seen_ok (seen : string) (dol : option nat) : Prop :=
  match dol with
  | None => scan false seen = Some false
  | Some d => exists a n, seen = a +:+ String "$" (backslashes n) /\ d = String.length a /\ is_Some (scan false a)
  end.

Lemma seen_scan seen dol : seen_ok seen dol -> scan false seen = Some (match dol with Some _ => true | None => false end).
Proof.
  destruct dol as [d|]; [|done]. intros (a & n & -> & _ & [b Hb]). rewrite scan_app, Hb. apply (scan_backslashes true).
Qed.

Lemma var_check_step seen dol c rest :
  seen_ok seen dol ->
  exists seen' dol', var_check_loop true seen (String c rest) dol = var_check_loop true seen' rest dol' /\ seen_ok seen' dol'
  /\ (is_Some (scan_char (match dol with Some _ => true | None => false end) c) ->
      seen' = seen +:+ String c "" /\ scan_char (match dol with Some _ => true | None => false end) c
                                       = Some (match dol' with Some _ => true | None => false end)).
Proof.
  intros Hs. pose proof (seen_scan _ _ Hs) as Hb. cbn [var_check_loop]. unfold scan_char. destruct (Ascii.eqb_spec c "$") as [->|H1].
  { eexists _, (Some (String.length seen)). split_and!; [done| |done]. exists seen, O. by rewrite Hb. }
  destruct dol as [d|].
  2:{ eexists _, None. split_and!; [done| |done]. cbn. rewrite scan_app, Hb. cbn. unfold scan_char. by destruct (Ascii.eqb_spec c "$"). }
  destruct Hs as (a & n & -> & -> & [b Ha]). destruct (Ascii.eqb_spec c "{") as [->|H2]; [|destruct (Ascii.eqb_spec c "\") as [->|H3]]; cbn [negb].
  - eexists _, None. split_and!; [done| |by intros [? ?]]. cbn [seen_ok]. rewrite append_assoc. change (String "$" ?x +:+ ?y) with (String "$" (x +:+ y)).
    rewrite set_char_mid, scan_app, Ha.
    cbn [scan]. assert (scan_char b "%" = Some false) as -> by (by destruct b). by rewrite scan_app, scan_backslashes.
  - eexists _, (Some (String.length a)). split_and!; [done| |done]. exists a, (S n). rewrite append_assoc.
    change (String "$" ?x +:+ ?y) with (String "$" (x +:+ y)). rewrite backslashes_snoc. split_and!; [done|done|by eexists].
  - eexists _, None. split_and!; [done| |done]. cbn [seen_ok]. rewrite scan_app, Hb. cbn. unfold scan_char.
    destruct (Ascii.eqb_spec c "$"), (Ascii.eqb_spec c "{"), (Ascii.eqb_spec c "\"); done.
Qed.

Lemma var_check_disables rest seen dol :
  seen_ok seen dol ->
  is_Some (scan false (var_check_loop true seen rest dol).2)
  /\ (is_Some (scan (match dol with Some _ => true | None => false end) rest) -> (var_check_loop true seen rest dol).2 = seen +:+ rest).
Proof.
  revert seen dol. induction rest as [|c rest IH]; intros seen dol Hs.
  { cbn. rewrite (seen_scan _ _ Hs), append_nil. split; [by eexists|done]. }
  destruct (var_check_step seen dol c rest Hs) as (seen' & dol' & -> & Hs' & Heq). destruct (IH seen' dol' Hs') as [H1 H2].
  split; [done|]. cbn [scan]. intros Hr. destruct (scan_char _ c) as [b|] eqn:Ec; [|by destruct Hr].
  destruct (Heq ltac:(by eexists)) as [E1 E2]. injection E2 as ->. rewrite H2 by done. rewrite E1, append_assoc. done.
Qed.

(** Cleaning removes every reference and leaves strings without one alone. *)
Lemma var_clean_spec s :
  switch_string_var_check_const (switch_var_clean_string s) = false
  /\ (switch_string_var_check_const s = false -> switch_var_clean_string s = s).
Proof.
  destruct (var_check_disables s "" None) as [H1 H2]; [done|]. unfold switch_var_clean_string, switch_string_var_check, switch_string_var_check_const.
  rewrite !var_ref_scan. split; [by destruct H1 as [? ->]|]. intros Hs. apply H2. cbn. by destruct (scan false s); [eexists|].
Qed.

(** ** Lists looked up without regard to case *)

Section ci_list.
Context {A : Type}.
Implicit Types (l : list (string * A)).

Definition ci_find (name : string) l : option (string * A) := List.find (fun kv => strcasecmp_eq name kv.1) l.

Definition ci_update (k : string) (v : A) l : list (string * A) := map (fun kv => if String.eqb kv.1 k then (kv.1, v) else kv) l.

(** Keys that differ by more than case. *)
Definition ci_distinct l : Prop := NoDup (map (fun kv => lower kv.1) l).

Lemma ci_find_update k v l name :
  ci_distinct l -> k ∈ map fst l -> ci_find name (ci_update k v l) = if strcasecmp_eq name k then Some (k, v) else ci_find name l.
Proof.
  unfold ci_find, ci_update, ci_distinct. induction l as [|[x w] l IH]; cbn; [by intros _ Hk%elem_of_nil|]. intros [Hx Hnd]%NoDup_cons Hk.
  destruct (String.eqb_spec x k) as [->|Hne]; cbn [fst].
  - destruct (strcasecmp_eq name k) eqn:E; [done|].
    assert (forall y, y ∈ l -> String.eqb y.1 k = false) as Hd.
    { intros y Hy. apply String.eqb_neq. intros E'. apply Hx. rewrite <- E'. by apply (list_elem_of_fmap_2 (fun kv => lower kv.1)). }
    clear -Hd name. induction l as [|y l IH]; [done|]. cbn. rewrite (Hd y) by (by left). destruct (strcasecmp_eq name y.1); [done|].
    apply IH. intros z Hz. apply Hd. by right.
  - apply elem_of_cons in Hk as [Hk|Hk]; [by exfalso; apply Hne; rewrite Hk|]. rewrite IH by done.
    destruct (strcasecmp_eq name x) eqn:Ex, (strcasecmp_eq name k) eqn:Ek; try done. exfalso. apply Hx.
    rewrite strcasecmp_lower in Ex, Ek. apply (list_elem_of_fmap fst) in Hk as (y & -> & Hy).
    apply (list_elem_of_fmap (fun kv => lower kv.1)). exists y. split; [congruence|done].
Qed.
End ci_list.

Lemma soft_set_value l name v other :
  soft_value (soft_set l name v) other = if strcasecmp_eq name other then Some v else soft_value l other.
Proof.
  unfold soft_value.
  induction l as [|[var val] l IH]; cbn; [by rewrite (strcasecmp_sym other name); destruct (strcasecmp_eq name other)|].
  destruct (strcasecmp_eq var name) eqn:Ev; cbn.
  - apply strcasecmp_lower in Ev. rewrite (strcasecmp_r other _ _ Ev), (strcasecmp_sym other name). by destruct (strcasecmp_eq name other).
  - destruct (strcasecmp_eq other var) eqn:Eo; [|exact IH]. cbn. destruct (strcasecmp_eq name other) eqn:En; [|done].
    apply strcasecmp_lower in Eo, En. assert (strcasecmp_eq var name = true) by (apply strcasecmp_lower; congruence). congruence.
Qed.

(** ** Reading what was written *)

Definition text_fields : list string :=
  ["dialplan"; "username"; "caller_id_name"; "caller_id_number"; "callee_id_name"; "callee_id_number"; "ani"; "aniii"; "network_addr";
   "rdnis"; "destination_number"; "uuid"; "source"; "context"; "chan_name"].
Definition number_fields : list string := ["caller_ton"; "caller_numplan"; "destination_number_ton"; "destination_number_numplan"].

Definition in_ci (name : string) (l : list string) : bool := existsb (strcasecmp_eq name) l.

Definition field_value (k v : string) : option (option string) := if in_ci k number_fields then number (u8 (atoi v)) else Some (Some v).

Lemma setter_updates given v k f p :
  (k, f) ∈ field_setters given v ->
  profile_fields (f p) = ci_update k (field_value k v) (profile_fields p) /\ soft (f p) = soft p /\ profile_flags (f p) = profile_flags p
  /\ k ∈ map fst (profile_fields p).
Proof.
  intros H. unfold field_setters in H. destruct given; cbn [app] in H;
    repeat (apply elem_of_cons in H as [H|H];
            [injection H as -> ->; split_and!; [reflexivity|reflexivity|reflexivity|apply (bool_decide_unpack _); vm_compute; exact I]|]);
    by apply elem_of_nil in H.
Qed.

Lemma profile_fields_distinct p : ci_distinct (profile_fields p).
Proof. apply (bool_decide_unpack _). vm_compute. exact I. Qed.

(** What a name reads as after it has been written: the text, the number in eight
    bits, or, for other names, the soft value if those are looked up.  The
    remaining fields cannot be written. *)
Definition read_after p (name : string) (val : option string) : option (option string) :=
  let v := default "" val in
  if in_ci name text_fields then Some (Some v)
  else if in_ci name number_fields && match val with Some _ => true | None => false end then number (u8 (atoi v))
  else if in_ci name (map fst (profile_fields p)) || negb (test_flag (profile_flags p) SWITCH_CPF_SOFT_LOOKUP)
  then switch_caller_get_field_by_name p name
  else Some (Some v).

Lemma setter_kind given v k f :
  (k, f) ∈ field_setters given v ->
  in_ci k text_fields = true /\ in_ci k number_fields = false \/ in_ci k text_fields = false /\ in_ci k number_fields = true /\ given = true.
Proof.
  intros H. unfold field_setters in H. destruct given; cbn [app] in H;
    repeat (apply elem_of_cons in H as [H|H]; [injection H as -> ->; vm_compute; tauto|]); by apply elem_of_nil in H.
Qed.

Lemma in_ci_find {A} name (l : list (string * A)) : in_ci name (map fst l) = match ci_find name l with Some _ => true | None => false end.
Proof. unfold ci_find, in_ci. induction l as [|[k a] l IH]; cbn; [done|]. by destruct (strcasecmp_eq name k). Qed.

Lemma in_ci_lower name k l : lower name = lower k -> in_ci name l = in_ci k l.
Proof. intros H. unfold in_ci. induction l as [|x l IH]; [done|]. cbn. by rewrite (strcasecmp_l x _ _ H), IH. Qed.

Lemma setter_missing given v name :
  ci_find name (field_setters given v) = None -> in_ci name text_fields = false /\ (given = true -> in_ci name number_fields = false).
Proof.
  intros H. assert (in_ci name (map fst (field_setters given v)) = false) as Hi by (by rewrite in_ci_find, H).
  destruct given; cbn in Hi |- *; repeat (apply orb_false_iff in Hi as [? Hi]); repeat match goal with E : _ = false |- _ => rewrite E; clear E end;
    by split.
Qed.

Lemma get_field_lower p a b : lower a = lower b -> switch_caller_get_field_by_name p a = switch_caller_get_field_by_name p b.
Proof.
  intros H. assert (forall B (l : list (string * B)), ci_find a l = ci_find b l) as HF.
  { intros B l. unfold ci_find. induction l as [|x l IH]; [done|]. cbn. by rewrite (strcasecmp_l x.1 _ _ H), IH. }
  unfold switch_caller_get_field_by_name, soft_value. fold (ci_find a (profile_fields p)) (ci_find a (soft p)). by rewrite !HF.
Qed.

Lemma get_field_find p name :
  switch_caller_get_field_by_name p name
  = match ci_find name (profile_fields p) with
    | Some (_, v) => v
    | None => Some (if test_flag (profile_flags p) SWITCH_CPF_SOFT_LOOKUP then soft_value (soft p) name else None)
    end.
Proof. done. Qed.

Lemma get_field_soft p name v other :
  switch_caller_get_field_by_name (p <| soft := soft_set (soft p) name v |>) other
  = if in_ci other (map fst (profile_fields p)) || negb (test_flag (profile_flags p) SWITCH_CPF_SOFT_LOOKUP)
    then switch_caller_get_field_by_name p other
    else if strcasecmp_eq name other then Some (Some v) else switch_caller_get_field_by_name p other.
Proof.
  rewrite !get_field_find, in_ci_find. change (profile_fields (p <| soft := ?x |>)) with (profile_fields p).
  change (profile_flags (p <| soft := ?x |>)) with (profile_flags p). change (soft (p <| soft := ?x |>)) with x.
  rewrite soft_set_value. destruct (ci_find other (profile_fields p)) as [[? ?]|]; [done|]. cbn [orb].
  destruct (test_flag _ _); [|done]. cbn [negb]. by destruct (strcasecmp_eq name other).
Qed.

(** Writing a profile field by name is read back by name: the fields that can
    be written, and other names in the soft list when those are looked up, read
    as what was written, numbers reduced to eight bits; the read-only fields and
    every name that differs by more than case read as before.  (The device id,
    which is set once for a channel, is left out.) *)
Theorem profile_var_roundtrip set_device_id p name val other :
  strcasecmp_eq name "device_id" = false ->
  switch_caller_get_field_by_name (switch_channel_set_profile_var set_device_id p name val) other
  = if strcasecmp_eq name other then read_after p name val else switch_caller_get_field_by_name p other.
Proof.
  intros Hd. unfold switch_channel_set_profile_var. rewrite Hd. cbn [andb]. unfold read_after.
  set (v := default "" val). change (match val with Some v => v | None => "" end) with v.
  set (given := match val with Some _ => true | None => false end). fold (ci_find name (field_setters given v)).
  destruct (ci_find name (field_setters given v)) as [[k f]|] eqn:Ef.
  - apply find_some in Ef as [Hin Hk]. apply list_elem_of_In in Hin. cbn in Hk.
    destruct (setter_updates given v k f p Hin) as (U1 & U2 & U3 & U4). apply strcasecmp_lower in Hk.
    rewrite !get_field_find, U1, U2, U3, ci_find_update by (done || apply profile_fields_distinct).
    rewrite (strcasecmp_r other k name) by done. rewrite (strcasecmp_sym other name).
    destruct (strcasecmp_eq name other); [|done]. rewrite !(in_ci_lower name k) by done. unfold field_value.
    by destruct (setter_kind given v k f Hin) as [[-> ->]|(-> & -> & ->)].
  - destruct (setter_missing given v name Ef) as [-> Hn].
    assert (in_ci name number_fields && given = false) as ->.
    { destruct given; [|apply andb_false_r]. by rewrite Hn. }
    rewrite get_field_soft. destruct (strcasecmp_eq name other) eqn:Eo; [|by destruct (_ || _)].
    apply strcasecmp_lower in Eo. by rewrite (in_ci_lower name other), (get_field_lower p name other).
Qed.

Definition profile_1 : switch_caller_profile :=
  switch_caller_profile_new "u-1" false true (Some "1000") (Some "XML") (Some "Alice") (Some "1000") None None None None
    (Some "mod_sofia") None (Some "9196").

Lemma profile_var_roundtrip_witness :
  switch_caller_get_field_by_name (switch_channel_set_profile_var (fun _ => None) profile_1 "Caller_ID_Name" (Some "Bob")) "caller_id_name"
  = Some (Some "Bob")
  /\ switch_caller_get_field_by_name (switch_channel_set_profile_var (fun _ => None) profile_1 "x-room" (Some "7")) "X-Room" = Some (Some "7")
  /\ switch_caller_get_field_by_name (switch_channel_set_profile_var (fun _ => None) profile_1 "caller_ton" (Some "257")) "ani"
     = Some (Some "1000").
Proof. split_and!; (rewrite profile_var_roundtrip; [vm_compute; reflexivity|reflexivity]). Defined.

(** The original caller id can be read by name; writing it by name goes to the
    soft list and is never read. *)
Example orig_caller_id_not_written :
  switch_caller_get_field_by_name
    (switch_channel_set_profile_var (fun _ => None) profile_1 "orig_caller_id_name" (Some "Bob")) "orig_caller_id_name" = Some (Some "Alice").
Proof. reflexivity. Qed.

(** A copied profile has no timetable; reading a time by name goes through NULL. *)
Example copy_has_no_times : switch_caller_get_field_by_name (switch_caller_profile_dup "u-2" profile_1).1 "created_time" = None.
Proof. reflexivity. Qed.

End Caller.
