(* ===== verification/Variables.v ===== *)
(** * Variables of channels and of the core (src/src/switch_channel.c, src/src/switch_core.c)

    A channel keeps its variables in an event with unique headers, and above it a
    stack of scopes, each an event of its own.  A variable is looked up in the
    scopes from the innermost, then among the variables of the channel, then as a
    field of the caller profile, and last among the global variables of the core,
    another event.

    [None] as the result of an operation that changes an event is the failed
    assertion of Event.v; as the result of a lookup it is an access through a NULL
    timetable.  The mutexes and the lock around each operation are left out. *)

From S2P Require Import Prelude.
From S2P Require Import Text Event Caller.
From stdpp Require Import strings.
From Stdlib Require Import Ascii.

#[local] Open Scope string_scope.
#[local] Open Scope list_scope.
#[local] Open Scope Z_scope.

Module Variables.

Import Text Event.
Import Caller(zstr, switch_caller_profile, switch_caller_get_field_by_name, switch_string_var_check_const, switch_var_clean_string,
  hunt_caller_profile, originator_caller_profile, originatee_caller_profile).

(** ** Global variables (switch_core.c) *)

Definition switch_core_get_variable (global_vars : switch_event) (varname : string) : option string :=
  switch_event_get_header global_vars varname.

Definition switch_core_get_variable_pdup (global_vars : switch_event) (varname : option string) : option string :=
  match varname with Some s => switch_event_get_header global_vars s | None => None end.

Definition switch_core_get_variables (global_vars : switch_event) : option switch_event := switch_event_dup global_vars.

Definition switch_core_unset_variables : switch_event := switch_event_create_plain true.

Definition add_string (ev : switch_event) (stack : Z) (header_name : string) (data : option string) : option switch_event :=
  snd <$> switch_event_add_header_string ev stack header_name data.

Definition switch_core_set_variable (global_vars : switch_event) (varname value0 : option string) : option switch_event :=
  match varname with
  | None => Some global_vars
  | Some varname =>
      match (match switch_event_get_header global_vars varname with
             | Some _ => switch_event_del_header global_vars varname
             | None => Some global_vars
             end) with
      | Some ev =>
          match value0 with
          | Some v => add_string ev SWITCH_STACK_BOTTOM varname (Some (switch_var_clean_string v))
          | None => switch_event_del_header ev varname
          end
      | None => None
      end
  end.

Definition switch_core_set_var_conditional (global_vars : switch_event) (varname value0 val2 : option string)
  : option (bool * switch_event) :=
  match varname with
  | None => Some (true, global_vars)
  | Some varname =>
      let store ev :=
        match (match value0 with
               | Some v => add_string ev SWITCH_STACK_BOTTOM varname (Some (switch_var_clean_string v))
               | None => switch_event_del_header ev varname
               end) with
        | Some ev => Some (true, ev)
        | None => None
        end in
      match switch_event_get_header global_vars varname with
      | Some val =>
          if match val2 with Some v2 => negb (String.eqb val v2) | None => true end then Some (false, global_vars)
          else match switch_event_del_header global_vars varname with Some ev => store ev | None => None end
      | None => if negb (zstr val2) then Some (false, global_vars) else store global_vars
      end
  end.

(** ** Variables of a channel (switch_channel.c) *)

Record channel_vars := mk_channel_vars {
  variables : option switch_event; scope_variables : list switch_event; caller_profile : option switch_caller_profile }.

#[export] Instance rebuild_channel_vars : Rebuild channel_vars := fun c =>
  mk_channel_vars (variables c) (scope_variables c) (caller_profile c).
#[export] Instance set_variables : Setter variables := ltac:(derive_setter).
#[export] Instance set_scope_variables : Setter scope_variables := ltac:(derive_setter).

Implicit Types (c : channel_vars).

Definition switch_channel_get_caller_profile c : option switch_caller_profile :=
  match caller_profile c with
  | Some p => match hunt_caller_profile p with Some h => Some h | None => Some p end
  | None => None
  end.

(** [None] as the event pops the innermost scope. *)
Definition switch_channel_set_scope_variables c (event : option switch_event) : channel_vars :=
  match event with
  | Some ev => c <| scope_variables := ev :: scope_variables c |>
  | None => match scope_variables c with _ :: l => c <| scope_variables := l |> | [] => c end
  end.

(** The loop over the headers of one scope.  A NULL value, which no header has,
    is looked up as no name. *)
Fixpoint add_scope (new_event : switch_event) (l : list switch_event_header) : option switch_event :=
  match l with
  | [] => Some new_event
  | hp :: l =>
      match (match value hp with Some v => switch_event_get_header new_event v | None => None end) with
      | Some _ => add_scope new_event l
      | None =>
          match add_string new_event SWITCH_STACK_BOTTOM (name hp) (value hp) with
          | Some ev => add_scope ev l
          | None => None
          end
      end
  end.

(** [Some None] if there are no scopes. *)
Definition switch_channel_get_scope_variables c : option (option switch_event) :=
  match scope_variables c with
  | [] => Some None
  | scopes =>
      match foldl (fun oev ep => match oev with Some ev => add_scope ev (headers ep) | None => None end)
              (Some (switch_event_create_plain true)) scopes with
      | Some ev => Some (Some ev)
      | None => None
      end
  end.

Fixpoint find_scope (l : list switch_event) (varname : string) (idx : Z) : option string :=
  match l with
  | [] => None
  | ep :: l => match switch_event_get_header_idx ep varname idx with Some v => Some v | None => find_scope l varname idx end
  end.

(** The profile a name is looked up in, and the name there. *)
Definition profile_of (cp : option switch_caller_profile) (varname : string) : option switch_caller_profile * string :=
  match cp with
  | Some p =>
      if String.prefix "aleg_" varname then (originator_caller_profile p, String.substring 5 (String.length varname - 5) varname)
      else if String.prefix "bleg_" varname then (originatee_caller_profile p, String.substring 5 (String.length varname - 5) varname)
      else (cp, varname)
  | None => (cp, varname)
  end.

Definition get_unset (global_vars : switch_event) c (varname : string) : option (option string) :=
  let '(cp, varname) := profile_of (switch_channel_get_caller_profile c) varname in
  match (match cp with Some p => switch_caller_get_field_by_name p varname | None => Some None end) with
  | Some (Some v) => Some (Some v)
  | Some None => Some (switch_core_get_variable_pdup global_vars (Some varname))
  | None => None
  end.

Definition switch_channel_get_variable_dup (global_vars : switch_event) c (varname : option string) (idx : Z) : option (option string) :=
  match varname with
  | None | Some EmptyString => Some None
  | Some varname =>
      match find_scope (scope_variables c) varname idx with
      | Some v => Some (Some v)
      | None =>
          match (match variables c with Some ev => switch_event_get_header_idx ev varname idx | None => None end) with
          | Some v => Some (Some v)
          | None => get_unset global_vars c varname
          end
      end
  end.

Definition switch_channel_get_variable (global_vars : switch_event) c (varname : option string) : option (option string) :=
  switch_channel_get_variable_dup global_vars c varname (-1).

(** Storing [data], or deleting if there is none, unless a check refuses it. *)
Definition store_variable c (stack : Z) (varname value0 : option string) (data : string -> string) (var_check : bool)
  : option (switch_status_t * channel_vars) :=
  match variables c, varname with
  | Some ev, Some (String _ _ as varname) =>
      match (match value0 with
             | None | Some EmptyString => switch_event_del_header ev varname
             | Some v =>
                 if var_check && switch_string_var_check_const (data v) then Some ev else add_string ev stack varname (Some (data v))
             end) with
      | Some ev => Some (SWITCH_STATUS_SUCCESS, c <| variables := Some ev |>)
      | None => None
      end
  | _, _ => Some (SWITCH_STATUS_FALSE, c)
  end.

Definition switch_channel_set_variable_var_check c (varname value0 : option string) (var_check : bool) :=
  store_variable c SWITCH_STACK_BOTTOM varname value0 id var_check.

Definition switch_channel_set_variable c (varname value0 : option string) := switch_channel_set_variable_var_check c varname value0 true.

Definition switch_channel_add_variable_var_check c (varname value0 : option string) (var_check : bool) (stack : Z) :=
  store_variable c stack varname value0 id var_check.

(** The text between two double quotes around it. *)
Definition strip_quotes (v : string) : string :=
  match v with
  | String q t =>
      if Ascii.eqb q dquote && bool_decide (String.get (String.length t - 1) t = Some dquote) then String.substring 0 (String.length t - 1) t
      else v
  | EmptyString => v
  end.

Definition switch_channel_set_variable_strip_quotes_var_check c (varname value0 : option string) (var_check : bool) :=
  store_variable c SWITCH_STACK_BOTTOM varname value0 strip_quotes var_check.

(** [data] is the formatted text. *)
Definition switch_channel_set_variable_printf c (varname : option string) (data : string) : option (switch_status_t * channel_vars) :=
  match variables c, varname with
  | Some ev, Some (String _ _ as s) =>
      match switch_event_del_header ev s with
      | Some ev => switch_channel_set_variable (c <| variables := Some ev |>) varname (Some data)
      | None => None
      end
  | _, _ => Some (SWITCH_STATUS_FALSE, c)
  end.

(** The copy, for a channel that has variables. *)
Definition switch_channel_get_variables c : option (option switch_event) :=
  match variables c with
  | Some ev => match switch_event_dup ev with Some ev => Some (Some ev) | None => None end
  | None => Some None
  end.

(** strncasecmp with the length of [prefix]. *)
Definition ci_prefix (prefix s : string) : bool := strcasecmp_eq (String.substring 0 (String.length prefix) s) prefix.

Definition has_prefix (prefix : option string) (s : string) : bool :=
  match prefix with None | Some EmptyString => true | Some p => ci_prefix p s end.

Definition for_headers (l : list switch_event_header) (f : channel_vars -> switch_event_header -> option (switch_status_t * channel_vars)) c
  : option channel_vars :=
  foldl (fun oc hp => match oc with Some c => snd <$> f c hp | None => None end) (Some c) l.

Definition switch_channel_del_variable_prefix c (prefix : option string) : option channel_vars :=
  match variables c with
  | Some ev =>
      match switch_event_dup ev with
      | Some event =>
          for_headers (headers event) (fun c hp =>
            if has_prefix prefix (name hp) then switch_channel_set_variable c (Some (name hp)) None else Some (SWITCH_STATUS_SUCCESS, c)) c
      | None => None
      end
  | None => Some c
  end.

Definition switch_channel_transfer_variable_prefix (orig_channel : channel_vars) (new_channel : channel_vars) (prefix : option string)
  : option (switch_status_t * channel_vars) :=
  let hs := match variables orig_channel with Some ev => headers ev | None => [] end in
  match for_headers hs (fun c hp =>
          if has_prefix prefix (name hp) then switch_channel_set_variable c (Some (name hp)) (value hp) else Some (SWITCH_STATUS_SUCCESS, c))
          new_channel with
  | Some c => Some (if existsb (fun hp => has_prefix prefix (name hp)) hs then SWITCH_STATUS_SUCCESS else SWITCH_STATUS_FALSE, c)
  | None => None
  end.

(** ** Exporting *)

(** The name without the marks that keep a variable off the own leg. *)
Definition export_name (s : string) : string :=
  if ci_prefix "nolocal:" s then String.substring 8 (String.length s - 8) s
  else if ci_prefix "_nolocal_" s then String.substring 9 (String.length s - 9) s
  else s.

Definition switch_channel_export_variable_var_check (global_vars : switch_event) c (varname val : option string) (export_varname : string)
  (var_check : bool) : option channel_vars :=
  match switch_channel_get_variable global_vars c (Some export_varname), switch_channel_set_variable_var_check c varname val var_check with
  | Some exports, Some (_, c) =>
      match varname, val with
      | Some var, Some _ =>
          snd <$> switch_channel_set_variable c (Some export_varname)
                    (Some (match exports with Some e => e +:+ "," +:+ var | None => var end))
      | _, _ => Some c
      end
  | _, _ => None
  end.

(** A variable to the event and to the other channel, where there is one. *)
Definition export_to (peer : option channel_vars) (var_event : option switch_event) (vvar vval : string)
  : option (option channel_vars * option switch_event) :=
  match (match var_event with
         | Some ev =>
             match switch_event_del_header ev vvar with
             | Some ev => match add_string ev SWITCH_STACK_BOTTOM vvar (Some vval) with Some ev => Some (Some ev) | None => None end
             | None => None
             end
         | None => Some None
         end),
        (match peer with
         | Some p => match switch_channel_set_variable p (Some vvar) (Some vval) with Some (_, p) => Some (Some p) | None => None end
         | None => Some None
         end) with
  | Some ev, Some p => Some (p, ev)
  | _, _ => None
  end.

Fixpoint export_each (global_vars : switch_event) c (peer : option channel_vars) (var_event : option switch_event) (argv : list string)
  : option (option channel_vars * option switch_event) :=
  match argv with
  | [] => Some (peer, var_event)
  | v :: argv =>
      match switch_channel_get_variable global_vars c (Some v) with
      | Some (Some vval) =>
          match export_to peer var_event (export_name v) vval with
          | Some (peer, var_event) => export_each global_vars c peer var_event argv
          | None => None
          end
      | Some None => export_each global_vars c peer var_event argv
      | None => None
      end
  end.

(** The peer is another channel. *)
Definition switch_channel_process_export (global_vars : switch_event) c (peer : option channel_vars) (var_event : option switch_event)
  (export_varname : string) : option (option channel_vars * option switch_event) :=
  match switch_channel_get_variable global_vars c (Some export_varname) with
  | Some None | Some (Some EmptyString) => Some (peer, var_event)
  | Some (Some export_vars) =>
      match export_to peer var_event export_varname export_vars with
      | Some (peer, var_event) =>
          match switch_separate_string (Some export_vars) "," 256 with
          | Some argv => export_each global_vars c peer var_event argv
          | None => None
          end
      | None => None
      end
  | None => None
  end.

(** ** Example: the outer scope wins when scopes are collected

    The collection asks for a header named like the value, not like the name, so a
    name of an inner scope is replaced by the outer one. *)

Definition scope_event (l : list (string * string)) : switch_event :=
  foldl (fun ev kv => default ev (add_string ev SWITCH_STACK_BOTTOM kv.1 (Some kv.2))) (switch_event_create_plain true) l.

Definition scoped_channel : channel_vars :=
  switch_channel_set_scope_variables
    (switch_channel_set_scope_variables (mk_channel_vars (Some (switch_event_create_plain true)) [] None) (Some (scope_event [("x", "outer")])))
    (Some (scope_event [("x", "inner")])).

Example scopes_collected_outer_wins :
  switch_channel_get_variable (switch_event_create_plain true) scoped_channel (Some "x") = Some (Some "inner")
  /\ match switch_channel_get_scope_variables scoped_channel with Some (Some ev) => switch_event_get_header ev "x" | _ => None end = Some "outer".
Proof. split; reflexivity. Qed.

End Variables.
