(* ===== verification/VariablesTheorems.v ===== *)
(** * Properties of variables

    The variables of a channel with its scopes and the global variables are layers
    of finite maps (over the refinement of events to maps), and a variable that
    was stored with the check for references never holds one. *)

From S2P Require Import Prelude.
From S2P Require Import Text Event EventTheorems Caller Variables.
From stdpp Require Import strings.
From Stdlib Require Import Ascii.

#[local] Open Scope string_scope.
#[local] Open Scope list_scope.
#[local] Open Scope Z_scope.

Module VariablesTheorems.

Import Text Event EventTheorems Variables.
Import Caller(zstr, switch_caller_profile, switch_caller_get_field_by_name, switch_string_var_check_const, switch_var_clean_string).

Implicit Types (ev g : switch_event) (c : channel_vars).

Notation entries := (gmap string (string * list string)).

(** ** Operations *)

Inductive var_op :=
  | SetVariable (varname val : option string) (var_check : bool)
  | SetStripQuotes (varname val : option string) (var_check : bool)
  | AddVariable (varname val : option string) (var_check : bool) (stack : Z)
  | SetPrintf (varname : option string) (data : string)
  | PushScope (event : switch_event)
  | PopScope
  | SetGlobal (varname val : option string)
  | SetGlobalIf (varname val val2 : option string).

Record state := mk_state { channel : channel_vars; global_vars : switch_event }.

Definition on_channel (st : state) (r : option (switch_status_t * channel_vars)) : option state :=
  match r with Some (_, c) => Some (mk_state c (global_vars st)) | None => None end.

Definition var_step (st : state) (o : var_op) : option state :=
  match o with
  | SetVariable n v check => on_channel st (switch_channel_set_variable_var_check (channel st) n v check)
  | SetStripQuotes n v check => on_channel st (switch_channel_set_variable_strip_quotes_var_check (channel st) n v check)
  | AddVariable n v check stack => on_channel st (switch_channel_add_variable_var_check (channel st) n v check stack)
  | SetPrintf n data => on_channel st (switch_channel_set_variable_printf (channel st) n data)
  | PushScope ev => Some (mk_state (switch_channel_set_scope_variables (channel st) (Some ev)) (global_vars st))
  | PopScope => Some (mk_state (switch_channel_set_scope_variables (channel st) None) (global_vars st))
  | SetGlobal n v => mk_state (channel st) <$> switch_core_set_variable (global_vars st) n v
  | SetGlobalIf n v v2 =>
      match switch_core_set_var_conditional (global_vars st) n v v2 with Some (_, g) => Some (mk_state (channel st) g) | None => None end
  end.

Fixpoint var_run (st : state) (l : list var_op) : option state :=
  match l with [] => Some st | o :: l => match var_step st o with Some st => var_run st l | None => None end end.

(** A channel and a core without variables, with a caller profile. *)
Definition new_state (cp : option switch_caller_profile) : state :=
  mk_state (mk_channel_vars (Some (switch_event_create_plain true)) [] cp) switch_core_unset_variables.

(** ** The same operations on maps *)

Record layers := mk_layers { scopes : list entries; own : entries; core : entries }.

Definition store_map (m : entries) (stack : Z) (varname val : option string) (data : string -> string) (check : bool) : entries :=
  match varname with
  | Some (String _ _ as n) =>
      match val with
      | None | Some EmptyString => delete (lower n) m
      | Some v => if check && switch_string_var_check_const (data v) then m else map_op m (AddHeader stack n (data v))
      end
  | _ => m
  end.

Definition global_map (m : entries) (n : string) (val : option string) : entries :=
  match val with
  | Some v => map_op (delete (lower n) m) (AddHeader SWITCH_STACK_BOTTOM n (switch_var_clean_string v))
  | None => delete (lower n) m
  end.

Definition layer_step (a : layers) (o : var_op) : layers :=
  match o with
  | SetVariable n v check => mk_layers (scopes a) (store_map (own a) SWITCH_STACK_BOTTOM n v id check) (core a)
  | SetStripQuotes n v check => mk_layers (scopes a) (store_map (own a) SWITCH_STACK_BOTTOM n v strip_quotes check) (core a)
  | AddVariable n v check stack => mk_layers (scopes a) (store_map (own a) stack n v id check) (core a)
  | SetPrintf n data =>
      mk_layers (scopes a)
        (match n with
         | Some (String _ _ as s) => store_map (delete (lower s) (own a)) SWITCH_STACK_BOTTOM n (Some data) id true
         | _ => own a
         end) (core a)
  | PushScope ev => mk_layers (vars ev :: scopes a) (own a) (core a)
  | PopScope => mk_layers (tail (scopes a)) (own a) (core a)
  | SetGlobal n v => mk_layers (scopes a) (own a) (match n with Some n => global_map (core a) n v | None => core a end)
  | SetGlobalIf n v v2 =>
      mk_layers (scopes a) (own a)
        (match n with
         | Some n =>
             match map_lookup (core a) n (-1) with
             | Some cur => if bool_decide (v2 = Some cur) then global_map (core a) n v else core a
             | None => if zstr v2 then global_map (core a) n v else core a
             end
         | None => core a
         end)
  end.

(** The value of a variable: the innermost layer that has it, then the caller
    profile (another one for names that begin with aleg_ or bleg_), then the core. *)
Fixpoint first_scope (l : list entries) (varname : string) (idx : Z) : option string :=
  match l with [] => None | m :: l => match map_lookup m varname idx with Some v => Some v | None => first_scope l varname idx end end.

(** The profile and the name in it that a name without a variable stands for: a name that begins with aleg_ or bleg_
    is looked for in the profile of the originator or originatee of the caller, without these five characters. *)
Inductive leg_of (cp : option switch_caller_profile) : string -> option switch_caller_profile -> string -> Prop :=
  | leg_a p t : cp = Some p -> leg_of cp ("aleg_" +:+ t) (Caller.originator_caller_profile p) t
  | leg_b p t : cp = Some p -> leg_of cp ("bleg_" +:+ t) (Caller.originatee_caller_profile p) t
  | leg_own s : cp = None \/ (forall t, s <> "aleg_" +:+ t /\ s <> "bleg_" +:+ t) -> leg_of cp s cp s.

Definition resolve (a : layers) (varname : string) (idx : Z) (p : option switch_caller_profile) (n : string) : option (option string) :=
  match first_scope (scopes a) varname idx with
  | Some v => Some (Some v)
  | None =>
      match map_lookup (own a) varname idx with
      | Some v => Some (Some v)
      | None =>
          match (match p with Some p => switch_caller_get_field_by_name p n | None => Some None end) with
          | Some None => Some (map_lookup (core a) n (-1))
          | r => r
          end
      end
  end.

(** Pushed scopes are intact events, and the name _body is not set conditionally. *)
Definition op_ok (o : var_op) : Prop :=
  match o with
  | PushScope ev => event_ok ev
  | SetGlobalIf n _ _ => n <> Some "_body"
  | _ => True
  end.

(** ** Simulation *)

(** An event that holds a map, with at most [n] headers. *)
Record holds (n : nat) ev (m : entries) : Prop := {
  h_ok : event_ok ev;
  h_uniq : uniq ev = true;
  h_length : (length (headers ev) <= n)%nat;
  h_vars : vars ev = m;
}.

Lemma holds_op n ev m o :
  holds n ev m -> Z.of_nat n < 1000000 ->
  exists ev', run_op ev o = Some ev' /\ holds (S n) ev' (map_op m o).
Proof.
  intros [K U L <-] Hn. destruct (run_op_spec ev o K U ltac:(lia)) as (ev' & E & K' & V & U' & L').
  exists ev'. split; [done|]. constructor; [done|done|lia|done].
Qed.

Lemma holds_del n ev m s :
  holds n ev m -> Z.of_nat n < 1000000 -> exists ev', switch_event_del_header ev s = Some ev' /\ holds n ev' (delete (lower s) m).
Proof.
  intros [K U L <-] Hn. destruct (del_header_spec ev s K ltac:(lia)) as (ev' & E & K' & V & [R _] & L' & _).
  exists ev'. split; [done|]. constructor; [done|unfold uniq; by rewrite R|lia|done].
Qed.

Lemma holds_S n ev m : holds n ev m -> holds (S n) ev m.
Proof. intros [K U L V]. constructor; [done|done|lia|done]. Qed.

Lemma holds_lookup n ev m s idx : holds n ev m -> s <> "_body" -> switch_event_get_header_idx ev s idx = map_lookup m s idx.
Proof. intros [K _ _ <-] Hs. by apply get_header_vars. Qed.

Lemma store_sim n c ev m stack varname val data check :
  variables c = Some ev -> holds n ev m -> Z.of_nat n < 1000000 ->
  exists st c' ev', store_variable c stack varname val data check = Some (st, c')
  /\ variables c' = Some ev' /\ holds (S n) ev' (store_map m stack varname val data check)
  /\ scope_variables c' = scope_variables c /\ caller_profile c' = caller_profile c.
Proof.
  intros Hv Hh Hn. unfold store_variable, store_map. rewrite Hv.
  destruct varname as [[|x s]|]; [eexists _, c, ev; split_and!; try done; by apply holds_S|
    |eexists _, c, ev; split_and!; try done; by apply holds_S].
  set (nm := String x s). assert (exists ev', switch_event_del_header ev nm = Some ev' /\ holds (S n) ev' (delete (lower nm) m)) as Hd.
  { destruct (holds_del n ev m nm Hh Hn) as (ev' & -> & H). exists ev'. split; [done|]. by apply holds_S. }
  destruct val as [[|y v]|]; [destruct Hd as (ev' & -> & H); by eexists _, _, ev'| |destruct Hd as (ev' & -> & H); by eexists _, _, ev'].
  destruct (check && switch_string_var_check_const (data (String y v))).
  - eexists _, _, ev. split_and!; try done. by apply holds_S.
  - destruct (holds_op n ev m (AddHeader stack nm (data (String y v))) Hh Hn) as (ev' & E & H). cbn [run_op] in E.
    unfold add_string. rewrite E. by eexists _, _, ev'.
Qed.

(** Storing after the old value has been deleted. *)
Lemma global_put n ev m nm val :
  holds n ev (delete (lower nm) m) -> Z.of_nat n < 1000000 ->
  exists g, match val with
            | Some v => add_string ev SWITCH_STACK_BOTTOM nm (Some (switch_var_clean_string v))
            | None => switch_event_del_header ev nm
            end = Some g /\ holds (S n) g (global_map m nm val).
Proof.
  intros H Hn. unfold global_map. destruct val as [v|].
  - exact (holds_op n ev _ (AddHeader SWITCH_STACK_BOTTOM nm (switch_var_clean_string v)) H Hn).
  - destruct (holds_del n ev _ nm H Hn) as (g & -> & H'). exists g. split; [done|]. rewrite delete_delete_eq in H'. by apply holds_S.
Qed.

Lemma get_none n ev m nm : holds n ev m -> switch_event_get_header ev nm = None -> holds n ev (delete (lower nm) m).
Proof.
  intros [K U L <-] H. rewrite delete_id; [done|]. rewrite (get_ptr_vars ev nm K).
  destruct (switch_event_get_header_ptr ev nm) as [hp|] eqn:E; [|done]. destruct (found_value ev nm hp K E) as [v Hv].
  unfold switch_event_get_header, switch_event_get_header_idx in H. rewrite E in H. cbn in H. congruence.
Qed.

Lemma set_global_sim n g m varname val :
  holds n g m -> Z.of_nat n < 1000000 ->
  exists g', switch_core_set_variable g varname val = Some g'
  /\ holds (S n) g' (match varname with Some nm => global_map m nm val | None => m end).
Proof.
  intros Hh Hn. destruct varname as [nm|]; [|exists g; split; [done|by apply holds_S]]. unfold switch_core_set_variable.
  destruct (switch_event_get_header g nm) eqn:E.
  - destruct (holds_del n g m nm Hh Hn) as (ev & -> & H). by apply global_put.
  - apply global_put; [by eapply get_none|done].
Qed.

Lemma set_global_if_sim n g m varname val val2 :
  holds n g m -> Z.of_nat n < 1000000 -> varname <> Some "_body" ->
  exists b g', switch_core_set_var_conditional g varname val val2 = Some (b, g')
  /\ holds (S n) g' (match varname with
                     | Some nm =>
                         match map_lookup m nm (-1) with
                         | Some cur => if bool_decide (val2 = Some cur) then global_map m nm val else m
                         | None => if zstr val2 then global_map m nm val else m
                         end
                     | None => m
                     end).
Proof.
  intros Hh Hn Hb. destruct varname as [nm|]; [|eexists _, g; split; [done|by apply holds_S]].
  unfold switch_core_set_var_conditional.
  assert (map_lookup m nm (-1) = switch_event_get_header g nm) as -> by (symmetry; eapply holds_lookup; [exact Hh|congruence]).
  destruct (switch_event_get_header g nm) as [cur|] eqn:E.
  - assert (match val2 with Some v2 => negb (String.eqb cur v2) | None => true end = negb (bool_decide (val2 = Some cur))) as ->.
    { destruct val2 as [v2|]; [|done]. destruct (String.eqb_spec cur v2) as [->|]; [by rewrite bool_decide_true|]. rewrite bool_decide_false; congruence. }
    destruct (bool_decide (val2 = Some cur)); [|eexists _, g; split; [done|by apply holds_S]]. cbn [negb].
    destruct (holds_del n g m nm Hh Hn) as (ev & -> & H). destruct (global_put n ev m nm val H Hn) as (g' & -> & H'). by eexists _, g'.
  - destruct (zstr val2); [|eexists _, g; split; [done|by apply holds_S]]. cbn [negb].
    destruct (global_put n g m nm val) as (g' & -> & H'); [by eapply get_none|done|]. by eexists _, g'.
Qed.

(** A state and the layers it implements. *)
Record sim (n : nat) (st : state) (a : layers) : Prop := {
  m_own : exists ev, variables (channel st) = Some ev /\ holds n ev (own a);
  m_core : holds n (global_vars st) (core a);
  m_scopes : Forall event_ok (scope_variables (channel st));
  m_layers : scopes a = map vars (scope_variables (channel st));
}.

Lemma store_step n st a stack varname val data check :
  sim n st a -> Z.of_nat n < 1000000 ->
  exists st', on_channel st (store_variable (channel st) stack varname val data check) = Some st'
  /\ sim (S n) st' (mk_layers (scopes a) (store_map (own a) stack varname val data check) (core a))
  /\ caller_profile (channel st') = caller_profile (channel st).
Proof.
  intros [(ev & Hv & Hh) Hc Hs Hl] Hn.
  destruct (store_sim n (channel st) ev (own a) stack varname val data check Hv Hh Hn) as (s & c' & ev' & -> & V & H & S & C).
  eexists. split; [done|]. split; [|done]. constructor; cbn; [by exists ev'|by apply holds_S|by rewrite S|by rewrite S].
Qed.

Lemma printf_step n st a varname data :
  sim n st a -> Z.of_nat n < 1000000 ->
  exists st', var_step st (SetPrintf varname data) = Some st' /\ sim (S n) st' (layer_step a (SetPrintf varname data))
  /\ caller_profile (channel st') = caller_profile (channel st).
Proof.
  intros Hsim Hn. pose proof Hsim as [(ev & Hv & Hh) Hc Hs Hl]. cbn [var_step layer_step].
  unfold switch_channel_set_variable_printf. rewrite Hv.
  assert (sim (S n) st (mk_layers (scopes a) (own a) (core a))) as Hsame.
  { constructor; cbn; [by exists ev; split; [|apply holds_S]|by apply holds_S|done|done]. }
  destruct varname as [[|x s]|]; [by eexists; split_and!; [reflexivity|destruct st|]| |by eexists; split_and!; [reflexivity|destruct st|]].
  destruct (holds_del n ev (own a) (String x s) Hh Hn) as (ev1 & -> & H1).
  destruct (store_step n (mk_state ((channel st) <| variables := Some ev1 |>) (global_vars st))
    (mk_layers (scopes a) (delete (lower (String x s)) (own a)) (core a)) SWITCH_STACK_BOTTOM (Some (String x s)) (Some data) id true)
    as (st' & E & S & C); [constructor; cbn; [by exists ev1|done|done|done]|done|].
  exists st'. split_and!; [exact E|exact S|done].
Qed.

Lemma var_step_sim n st a o :
  sim n st a -> Z.of_nat n < 1000000 -> op_ok o ->
  exists st', var_step st o = Some st' /\ sim (S n) st' (layer_step a o) /\ caller_profile (channel st') = caller_profile (channel st).
Proof.
  intros Hsim Hn Ho. pose proof Hsim as [(ev & Hv & Hh) Hc Hs Hl].
  assert (forall sc, Forall event_ok sc ->
    sim (S n) (mk_state ((channel st) <| scope_variables := sc |>) (global_vars st)) (mk_layers (map vars sc) (own a) (core a))) as HR.
  { intros sc E3. constructor; cbn; [exists ev; split; [done|by apply holds_S]|by apply holds_S|done|done]. }
  destruct o; cbn [op_ok] in Ho.
  - exact (store_step n st a SWITCH_STACK_BOTTOM varname val id var_check Hsim Hn).
  - exact (store_step n st a SWITCH_STACK_BOTTOM varname val strip_quotes var_check Hsim Hn).
  - exact (store_step n st a stack varname val id var_check Hsim Hn).
  - by apply printf_step.
  - eexists. split; [done|]. split; [|done]. cbn [layer_step]. rewrite Hl. exact (HR _ (Forall_cons_2 _ _ _ Ho Hs)).
  - eexists. split; [done|]. unfold switch_channel_set_scope_variables. cbn [layer_step]. rewrite Hl.
    destruct (scope_variables (channel st)) as [|e l] eqn:E; (split; [|done]).
    + constructor; cbn; [by exists ev; split; [|apply holds_S]|by apply holds_S|by rewrite E|by rewrite E].
    + apply Forall_cons in Hs as [_ Hs]. exact (HR l Hs).
  - destruct (set_global_sim n (global_vars st) (core a) varname val Hc Hn) as (g & E & H). cbn [var_step]. rewrite E.
    eexists. split; [done|]. split; [|done]. constructor; cbn; [by exists ev; split; [|apply holds_S]|done|done|done].
  - destruct (set_global_if_sim n (global_vars st) (core a) varname val val2 Hc Hn Ho) as (b & g & E & H).
    cbn [var_step]. rewrite E. eexists. split; [done|]. split; [|done].
    constructor; cbn; [by exists ev; split; [|apply holds_S]|done|done|done].
Qed.

Lemma var_run_sim l n st a :
  sim n st a -> Z.of_nat n + Z.of_nat (length l) <= 1000000 -> Forall op_ok l ->
  exists st' n', var_run st l = Some st' /\ sim n' st' (foldl layer_step a l) /\ caller_profile (channel st') = caller_profile (channel st).
Proof.
  revert n st a. induction l as [|o l IH]; intros n st a Hs Hl Hf; cbn [var_run foldl]; [by exists st, n|].
  apply Forall_cons in Hf as [Ho Hf]. cbn [length] in Hl. destruct (var_step_sim n st a o Hs ltac:(lia) Ho) as (st1 & -> & S1 & C1).
  destruct (IH (S n) st1 (layer_step a o) S1 ltac:(lia) Hf) as (st' & n' & E & S & C). exists st', n'. split_and!; [done|done|congruence].
Qed.

Lemma fresh_holds : holds 0 (switch_event_create_plain true) ∅.
Proof. constructor; [apply fresh_ok|done|done|done]. Qed.

Lemma prefix_split p s : String.prefix p s = true -> exists t, s = p +:+ t.
Proof.
  revert s. induction p as [|c p IH]; intros s; [by exists s|]. destruct s as [|d s]; [done|]. cbn. destruct (ascii_dec c d) as [->|]; [|done].
  intros (t & ->)%IH. by exists t.
Qed.

Lemma leg_rest (leg s : string) :
  String.length leg = 5%nat -> String.prefix leg s = true -> s = leg +:+ String.substring 5 (String.length s - 5) s.
Proof.
  intros Hl (t & ->)%prefix_split. do 6 (destruct leg as [|? leg]; try done). f_equal.
  change (String.substring 5 _ _) with (String.substring 0 (String.length t - 0) t). by rewrite Nat.sub_0_r, substring_all.
Qed.

Lemma prefix_app q t : String.prefix q (q +:+ t) = true.
Proof. induction q as [|c q IH]; [by destruct t|]. change (String c q +:+ t) with (String c (q +:+ t)). cbn [String.prefix]. by destruct (ascii_dec c c). Qed.

Lemma profile_leg cp s : exists p n, profile_of cp s = (p, n) /\ leg_of cp s p n.
Proof.
  unfold profile_of. destruct cp as [p|]; [|by eexists _, _; split; [|apply leg_own; left]].
  destruct (String.prefix "aleg_" s) eqn:Ea; [|destruct (String.prefix "bleg_" s) eqn:Eb]; eexists _, _; (split; [done|]).
  - rewrite (leg_rest "aleg_" s eq_refl Ea) at 1. by apply leg_a.
  - rewrite (leg_rest "bleg_" s eq_refl Eb) at 1. by apply leg_b.
  - apply leg_own. right. intros t. split; intros ->; by rewrite prefix_app in *.
Qed.

Lemma leg_body cp s p n : leg_of cp s p n -> s ∉ ["_body"; "aleg__body"; "bleg__body"] -> n <> "_body".
Proof. intros [q t _|q t _|t _] Hs ->; apply Hs; cbn; set_solver. Qed.

(** C18. Looking up a variable: over any sequence of settings (with or without
    the check for references, quotes stripped, pushed or unshifted, by index, array texts ARRAY::a|:b included),
    scopes entered and left, and global settings, conditional ones included, of at
    most a million operations on a new channel, every operation returns, and a
    lookup of any name but _body, aleg__body and bleg__body gives the value of the innermost scope that has the name, else the
    channel's own variable, else the field of the caller profile (for names that begin with aleg_ or bleg_ that
    of its originator or originatee under the rest of the name), else the global
    variable of that name, each layer being a finite map from names without regard to case.  The name _body is not set
    conditionally. *)
Theorem variables_resolve cp l :
  Z.of_nat (length l) <= 1000000 -> Forall op_ok l ->
  exists st, var_run (new_state cp) l = Some st
  /\ forall s idx, s ∉ [""; "_body"; "aleg__body"; "bleg__body"] ->
     exists p n, leg_of (switch_channel_get_caller_profile (channel (new_state cp))) s p n
     /\ switch_channel_get_variable_dup (global_vars st) (channel st) (Some s) idx = resolve (foldl layer_step (mk_layers [] ∅ ∅) l) s idx p n.
Proof.
  intros Hl Hf. destruct (var_run_sim l 0 (new_state cp) (mk_layers [] ∅ ∅)) as (st & n & E & [(ev & Hv & Hh) Hc Hs Hm] & C); [|done|done|].
  { constructor; cbn; [eexists; split; [done|apply fresh_holds]|apply fresh_holds|done|done]. }
  exists st. split; [done|]. intros s idx Hn. set (a := foldl layer_step _ l) in *.
  assert (s <> "" /\ s <> "_body") as [Hn1 Hn2] by (split; set_solver).
  destruct (profile_leg (switch_channel_get_caller_profile (channel (new_state cp))) s) as (p & n' & Ep & Hleg). exists p, n'. split; [exact Hleg|].
  unfold switch_channel_get_variable_dup, resolve. rewrite Hm.
  assert (first_scope (map vars (scope_variables (channel st))) s idx = find_scope (scope_variables (channel st)) s idx) as ->.
  { clear -Hs Hn2. induction Hs as [|e l' He _ IH]; [done|]. cbn. rewrite IH. unfold map_lookup. by rewrite <- (get_header_vars e s idx He Hn2). }
  destruct s as [|x s]; [done|]. set (nm := String x s) in *. destruct (find_scope _ nm idx); [done|].
  rewrite Hv, (holds_lookup n ev (own a) nm idx Hh Hn2). destruct (map_lookup (own a) nm idx); [done|].
  unfold get_unset, switch_channel_get_caller_profile. rewrite C. fold (switch_channel_get_caller_profile (channel (new_state cp))).
  rewrite Ep. unfold switch_core_get_variable_pdup, switch_event_get_header.
  rewrite (holds_lookup n (global_vars st) (core a) n' (-1) Hc) by (eapply leg_body; [exact Hleg|set_solver]).
  by destruct (match p with Some p => _ | None => _ end) as [[?|]|].
Qed.

Definition blue_scope : switch_event := Eval vm_compute in scope_event [("color", "blue")].

Lemma blue_scope_ok : event_ok blue_scope.
Proof.
  constructor; [by apply NoDup_singleton|repeat constructor; by eexists|reflexivity].
Qed.

Definition ops_2 : list var_op :=
  [SetVariable (Some "Color") (Some "red") true; SetGlobal (Some "domain") (Some "example.org"); PushScope blue_scope;
   SetVariable (Some "bad") (Some "${x}") true; AddVariable (Some "Color") (Some "green") true SWITCH_STACK_PUSH;
   SetGlobalIf (Some "domain") (Some "example.com") (Some "example.org")].

Lemma variables_resolve_witness :
  exists st, var_run (new_state (Some Caller.profile_1)) ops_2 = Some st
  /\ switch_channel_get_variable (global_vars st) (channel st) (Some "COLOR") = Some (Some "blue")
  /\ (exists p n, leg_of (Some Caller.profile_1) "aleg_domain" p n
       /\ switch_channel_get_variable (global_vars st) (channel st) (Some "aleg_domain") = resolve (foldl layer_step (mk_layers [] ∅ ∅) ops_2) "aleg_domain" (-1) p n).
Proof.
  destruct (variables_resolve (Some Caller.profile_1) ops_2) as (st & E & H).
  - by vm_compute.
  - unfold ops_2. repeat apply Forall_cons_2; [exact I|exact I|apply blue_scope_ok|exact I|exact I|discriminate|constructor].
  - exists st. unfold switch_channel_get_variable. split; [exact E|]. split.
    + destruct (H "COLOR" (-1)) as (p & n & _ & ->); [apply (bool_decide_unpack _); vm_compute; exact I|]. vm_compute. reflexivity.
    + apply H. apply (bool_decide_unpack _). vm_compute. exact I.
Defined.

(** ** No stored value refers to a variable *)

Notation clean s := (is_Some (Caller.scan false s)).

Lemma clean_check s : switch_string_var_check_const s = false <-> clean s.
Proof.
  unfold switch_string_var_check_const. rewrite Caller.var_ref_scan. by destruct (Caller.scan false s).
Qed.

Lemma clean_infix a t b : clean (a +:+ t +:+ b) -> clean t.
Proof.
  rewrite !Caller.scan_app. destruct (Caller.scan false a) as [x|]; [|by intros [? ?]]. rewrite Caller.scan_app.
  intros H. apply (Caller.scan_quiet x). destruct (Caller.scan x t); [by eexists|by destruct H].
Qed.

Lemma clean_join sep l : (forall b, Caller.scan b sep = Some false) -> Forall (fun s => clean s) l -> clean (String.concat sep l).
Proof.
  intros Hsep. induction 1 as [|s l [b Hb] _ IH]; [by eexists|]. destruct l as [|t l]; [by exists b|].
  change (String.concat sep (s :: t :: l)) with (s +:+ sep +:+ String.concat sep (t :: l)). by rewrite Caller.scan_app, Hb, Caller.scan_app, Hsep.
Qed.

Lemma clean_drawn l : Forall (fun s => clean s) l -> clean (drawn l).
Proof.
  intros H. unfold drawn. rewrite Caller.scan_app. apply (clean_join "|:") in H; [|by intros []]. by destruct (_ <? _)%nat.
Qed.

Lemma split_pieces_infix s :
  exists t l, split_pieces s = t :: l /\ (exists b, s = t +:+ b) /\ Forall (fun p => exists a b, s = a +:+ p +:+ b) (t :: l).
Proof.
  cut (forall n s, (String.length s <= n)%nat -> exists t l, split_pieces s = t :: l /\ (exists b, s = t +:+ b)
    /\ Forall (fun p => exists a b, s = a +:+ p +:+ b) (t :: l)); [intros H; by apply (H (String.length s) s)|].
  clear s. assert (forall s, exists a b, s = a +:+ "" +:+ b) as Hnil by (intros s; by exists "", s).
  induction n as [|n IH]; intros [|c s] Hn; cbn [String.length] in Hn; try lia;
    try (exists "", []; split_and!; [done|by exists ""|by repeat constructor]).
  cbn [split_pieces]. destruct (IH s ltac:(lia)) as (t & l & -> & (b & Hb) & Hl).
  assert (exists t' l', String c t :: l = t' :: l' /\ (exists b, String c s = t' +:+ b)
    /\ Forall (fun p => exists a b, String c s = a +:+ p +:+ b) (t' :: l')) as Hlong.
  { exists (String c t), l. split_and!; [done|exists b; by rewrite Hb|]. apply Forall_cons in Hl as [_ Hl]. constructor; [exists "", b; by rewrite Hb|].
    eapply Forall_impl; [exact Hl|]. intros p (a & b' & ->). by exists (String c a), b'. }
  destruct s as [|d s]; [exact Hlong|]. destruct (Ascii.eqb c "|" && Ascii.eqb d ":"); [|exact Hlong].
  cbn [String.length] in Hn. destruct (IH s ltac:(lia)) as (t2 & l2 & E2 & _ & Hl2). exists "", (split_pieces s). split_and!; [done|by exists (String c (String d s))|].
  constructor; [apply Hnil|]. rewrite E2. eapply Forall_impl; [exact Hl2|]. intros p (a & b' & ->). by exists (String c (String d a)), b'.
Qed.

Lemma clean_pieces s : clean s -> Forall (fun p => clean p) (split_pieces s).
Proof.
  intros Hs. destruct (split_pieces_infix s) as (t & l & -> & _ & H). eapply Forall_impl; [exact H|]. intros p (a & b & ->). by eapply clean_infix.
Qed.

Lemma substring_infix n m s : exists a b, s = a +:+ String.substring n m s +:+ b.
Proof.
  assert (forall m s, exists b, s = String.substring 0 m s +:+ b) as H0.
  { clear. induction m as [|m IH]; intros [|c s]; cbn [String.substring]; [by exists ""|by exists (String c s)|by exists ""|].
    destruct (IH s) as [b Hb]. exists b. by rewrite Hb at 1. }
  revert n. induction s as [|c s IH]; intros n.
  { exists "", "". by destruct n, m. }
  destruct n as [|n]; [destruct (H0 m (String c s)) as [b Hb]; by exists "", b|].
  destruct (IH n) as (a & b & E). exists (String c a), b. by rewrite E at 1.
Qed.

Record header_clean (h : switch_event_header) : Prop := {
  c_value : match value h with Some v => clean v | None => True end;
  c_array : Forall (fun s => clean s) (array h);
}.

Definition event_clean ev : Prop := Forall header_clean (headers ev).

Lemma clean_empty : clean "".
Proof. by eexists. Qed.

Lemma redraw_clean h l : Forall (fun s => clean s) l -> header_clean (redraw h l).
Proof. intros H. constructor; cbn; [by apply clean_drawn|done]. Qed.

Lemma write_index_clean h i d : header_clean h -> clean d -> header_clean (write_index h i d).
Proof.
  intros [H1 H2] Hd. unfold write_index. destruct (_ <? _).
  - constructor; cbn; [done|]. by apply Forall_insert.
  - apply redraw_clean, Forall_app. split; [done|]. apply Forall_app. split; [apply Forall_replicate, clean_empty|by constructor].
Qed.

Lemma push_value_clean h stack d : header_clean h -> clean d -> header_clean (push_value h stack d).
Proof.
  intros [H1 H2] Hd. unfold push_value. apply redraw_clean.
  assert (Forall (fun s => clean s) (match value h, array h with Some v, [] => [v] | _, l => l end)) as H.
  { destruct (value h); [|done]. destruct (array h); [by constructor|done]. }
  destruct (test_flag _ _); [apply Forall_app; split; [done|by constructor]|by constructor].
Qed.

Lemma new_header_clean ev s : header_clean (new_header ev s).1.
Proof. by constructor. Qed.

Lemma del_loop_sub test rest lp last x kept last' b :
  del_loop test rest lp last x = Some (kept, last', b) -> forall h, h ∈ kept -> h ∈ rest.
Proof.
  revert lp last x kept last' b. induction rest as [|hp rest IH]; intros lp last x kept last' b E h Hh; cbn [del_loop] in E; [by injection E as <- _ _|].
  destruct (negb _); [done|]. destruct (test hp).
  - destruct (del_loop test rest _ _ _) as [[[k l] b']|] eqn:E1; [|done]. injection E as <- _ _. right. by eapply IH.
  - destruct (del_loop test rest _ _ _) as [[[k l] b']|] eqn:E1; [|done]. injection E as <- _ _.
    apply elem_of_cons in Hh as [->|Hh]; [by left|right; by eapply IH].
Qed.

Lemma del_header_clean ev s ev' : event_clean ev -> switch_event_del_header ev s = Some ev' -> event_clean ev'.
Proof.
  intros Hc E. unfold switch_event_del_header, switch_event_del_header_val in E.
  destruct (del_loop _ _ _ _ _) as [[[kept l] b]|] eqn:E1; [|done]. injection E as <-. apply Forall_forall. intros h Hh. cbn in Hh.
  apply (proj1 (Forall_forall _ _) Hc). by eapply del_loop_sub.
Qed.

Lemma link_header_clean ev stack h : event_clean ev -> header_clean h -> event_clean (link_header ev stack h).
Proof.
  intros Hc Hh. unfold link_header. set (h' := h <| hash := _ |>). assert (header_clean h') as Hh' by (by destruct Hh). clearbody h'.
  unfold event_clean in *. destruct (test_flag _ _); cbn; [by constructor|]. destruct (last_header ev) as [a|]; cbn; [|by constructor].
  induction Hc as [|x l Hx Hl IH]; cbn; [constructor|]. destruct (_ =? _)%nat; [constructor; [done|by constructor]|by constructor].
Qed.

Lemma update_clean ev a f :
  event_clean ev -> (forall h, header_clean h -> header_clean (f h)) -> event_clean (ev <| headers := update_header a f (headers ev) |>).
Proof.
  intros Hc Hf. unfold event_clean in *. cbn. apply Forall_map. eapply Forall_impl; [exact Hc|]. intros h Hh. cbn. destruct (_ =? _)%nat; auto.
Qed.

Lemma fold_clean (add : switch_event -> string -> option switch_event) l ev ev' :
  (forall ev p ev', event_clean ev -> clean p -> add ev p = Some ev' -> event_clean ev') -> event_clean ev -> Forall (fun p => clean p) l ->
  foldl (fun o p => match o with Some ev => add ev p | None => None end) (Some ev) l = Some ev' -> event_clean ev'.
Proof.
  intros Hadd. revert ev. induction l as [|p l IH]; intros ev Hc Hl E; cbn [foldl] in E; [by injection E as <-|].
  apply Forall_cons in Hl as [Hp Hl]. destruct (add ev p) as [ev1|] eqn:E1; [by eapply IH; [eapply Hadd| |]|].
  exfalso. clear -E. induction l as [|q l IH]; [done|exact (IH E)].
Qed.

Lemma base_add_clean fuel ev stack s d ev' :
  event_clean ev -> clean d -> base_add_header fuel ev stack s d = Some ev' -> event_clean ev'.
Proof.
  revert ev stack s d ev'. induction fuel as [|fuel IH]; intros ev stack s d ev' Hc Hd; [done|]. cbn [base_add_header].
  destruct (split_bracket s) as [k ip]. set (ev0 := if String.eqb s "_body" then _ else ev).
  assert (event_clean ev0) as H0 by (unfold ev0; by destruct (String.eqb s "_body")). clearbody ev0. clear Hc.
  assert (forall x ev1, (if uniq x then switch_event_del_header x k else Some x) = Some ev1 -> event_clean x -> event_clean ev1) as Hdel.
  { intros x ev1 E Hx. destruct (uniq x); [by eapply del_header_clean|by injection E as <-]. }
  destruct ip as [ip|].
  - destruct (switch_event_get_header_ptr ev0 k) as [hp|].
    + destruct (_ && _); intros [= <-]; [|done]. apply update_clean; [done|]. intros h Hh. by apply write_index_clean.
    + cbn [new_header]. destruct (if uniq _ then _ else _) as [ev1|] eqn:E1; [|done]. apply Hdel in E1; [|done].
      destruct (_ && _); intros [= <-]; [|done]. apply link_header_clean; [done|]. apply write_index_clean; [by constructor|done].
  - destruct (if _ || _ then _ else None) as [hp|].
    { intros [= <-]. apply update_clean; [done|]. intros h Hh. by apply push_value_clean. }
    destruct (String.eqb d ""); [intros E; by eapply del_header_clean|]. destruct (if uniq _ then _ else _) as [ev1|] eqn:E1; [|done].
    apply Hdel in E1; [|done]. destruct (String.prefix "ARRAY::" d).
    + destruct (_ <? _)%nat; [by intros [= <-]|]. apply fold_clean; [|done|].
      * intros x p ev2 He Hp E. by eapply IH.
      * apply clean_pieces. destruct (substring_infix 7 (String.length d - 7) d) as (a & b & Es). rewrite Es in Hd. by eapply clean_infix.
    + cbn [new_header]. intros [= <-]. apply link_header_clean; [done|]. destruct (_ || _); [apply push_value_clean; [by constructor|done]|by constructor].
Qed.

(** The data an operation stores, and whether it is checked. *)
Definition op_data (o : var_op) : string :=
  match o with
  | SetVariable _ v _ | AddVariable _ v _ _ => default "" v
  | SetStripQuotes _ v _ => strip_quotes (default "" v)
  | SetPrintf _ d => d
  | PushScope _ | PopScope => ""
  | SetGlobal _ v | SetGlobalIf _ v _ => switch_var_clean_string (default "" v)
  end.

Definition op_checked (o : var_op) : bool :=
  match o with SetVariable _ _ b | SetStripQuotes _ _ b | AddVariable _ _ b _ => b | _ => true end.

Definition op_size (o : var_op) : nat := S (String.length (op_data o)).

(** An intact event of at most [n] headers without references. *)
Record safe (n : nat) ev : Prop := {
  f_ok : event_ok ev;
  f_clean : event_clean ev;
  f_length : (length (headers ev) <= n)%nat;
}.

Lemma safe_le n n' ev : safe n ev -> (n <= n')%nat -> safe n' ev.
Proof. intros [H1 H2 H3] Hn. constructor; [done|done|lia]. Qed.

Lemma safe_del n ev s : safe n ev -> Z.of_nat n < 1000000 -> exists ev', switch_event_del_header ev s = Some ev' /\ safe n ev'.
Proof.
  intros [H1 H2 H3] Hn. destruct (del_header_spec ev s H1 ltac:(lia)) as (ev' & E & K & _ & _ & L & _). exists ev'. split; [done|].
  constructor; [done|by eapply del_header_clean|lia].
Qed.

Lemma safe_add n ev stack s d :
  safe n ev -> clean d -> Z.of_nat n + Z.of_nat (String.length d) < 1000000 ->
  exists ev', add_string ev stack s (Some d) = Some ev' /\ safe (n + S (String.length d)) ev'.
Proof.
  intros [H1 H2 H3] Hd Hn. unfold add_string, switch_event_add_header_string, switch_event_base_add_header.
  destruct (base_add_returns (S (String.length d)) ev stack s d) as (ev' & E & K & L); [lia|done|lia|]. rewrite E. exists ev'. split; [done|].
  constructor; [done|by eapply base_add_clean|lia].
Qed.

Lemma store_safe n c ev stack varname val data :
  variables c = Some ev -> safe n ev -> Z.of_nat n + Z.of_nat (String.length (data (default "" val))) < 1000000 ->
  exists st c' ev', store_variable c stack varname val data true = Some (st, c') /\ variables c' = Some ev'
  /\ safe (n + S (String.length (data (default "" val)))) ev'.
Proof.
  intros Hv Hs Hn. unfold store_variable. rewrite Hv.
  assert (forall e, safe n e -> safe (n + S (String.length (data (default "" val)))) e) as Hw by (intros e He; apply (safe_le n); [done|lia]).
  destruct varname as [[|x s]|]; [by eexists _, c, ev; split_and!; auto| |by eexists _, c, ev; split_and!; auto].
  assert (exists ev', switch_event_del_header ev (String x s) = Some ev' /\ safe n ev') as Hd by (apply safe_del; [done|lia]).
  destruct val as [[|y v]|]; [destruct Hd as (ev' & -> & H); by eexists _, _, ev'; auto| |destruct Hd as (ev' & -> & H); by eexists _, _, ev'; auto].
  cbn [default from_option id] in *. destruct (switch_string_var_check_const (data (String y v))) eqn:Ec; cbn [andb].
  - by eexists _, _, ev; auto.
  - apply clean_check in Ec. destruct (safe_add n ev stack (String x s) (data (String y v)) Hs Ec Hn) as (ev' & -> & H'). by eexists _, _, ev'.
Qed.

Lemma global_put_safe n ev nm val :
  safe n ev -> Z.of_nat n + Z.of_nat (String.length (switch_var_clean_string (default "" val))) < 1000000 ->
  exists g, match val with
            | Some v => add_string ev SWITCH_STACK_BOTTOM nm (Some (switch_var_clean_string v))
            | None => switch_event_del_header ev nm
            end = Some g /\ safe (n + S (String.length (switch_var_clean_string (default "" val)))) g.
Proof.
  intros Hs Hn. destruct val as [v|].
  - apply safe_add; [done|apply clean_check, Caller.var_clean_spec|done].
  - destruct (safe_del n ev nm Hs ltac:(lia)) as (g & -> & H). exists g. split; [done|]. apply (safe_le n); [done|lia].
Qed.

Record state_safe (n : nat) (st : state) : Prop := {
  t_own : exists ev, variables (channel st) = Some ev /\ safe n ev;
  t_core : safe n (global_vars st);
}.

Lemma store_state n st stack varname val data :
  state_safe n st -> Z.of_nat n + Z.of_nat (String.length (data (default "" val))) < 1000000 ->
  exists st', on_channel st (store_variable (channel st) stack varname val data true) = Some st'
  /\ state_safe (n + S (String.length (data (default "" val)))) st'.
Proof.
  intros [(ev & Hv & Hs) Hg] Hn. destruct (store_safe n (channel st) ev stack varname val data Hv Hs Hn) as (s & c' & ev' & -> & V & S).
  eexists. split; [done|]. constructor; [by exists ev'|]. apply (safe_le n); [done|lia].
Qed.

Lemma printf_safe n st varname data :
  state_safe n st -> Z.of_nat n + Z.of_nat (String.length data) < 1000000 ->
  exists st', var_step st (SetPrintf varname data) = Some st' /\ state_safe (n + S (String.length data)) st'.
Proof.
  intros Hst Hn. pose proof Hst as [(ev & Hv & Hs) Hg]. cbn [var_step]. unfold switch_channel_set_variable_printf. rewrite Hv.
  assert (state_safe (n + S (String.length data)) (mk_state (channel st) (global_vars st))) as Hw.
  { constructor; [exists ev; split; [done|]|]; (apply (safe_le n); [done|lia]). }
  destruct varname as [[|x s]|]; [by eexists| |by eexists]. destruct (safe_del n ev (String x s) Hs ltac:(lia)) as (ev1 & -> & H1).
  destruct (store_state n (mk_state ((channel st) <| variables := Some ev1 |>) (global_vars st)) SWITCH_STACK_BOTTOM (Some (String x s)) (Some data) id)
    as (st' & E & S); [constructor; [by exists ev1|done]|done|]. exists st'. split; [exact E|exact S].
Qed.

Lemma set_global_safe n g varname val :
  safe n g -> Z.of_nat n + Z.of_nat (String.length (switch_var_clean_string (default "" val))) < 1000000 ->
  exists g', switch_core_set_variable g varname val = Some g' /\ safe (n + S (String.length (switch_var_clean_string (default "" val)))) g'.
Proof.
  intros Hs Hn. destruct varname as [nm|]; [|exists g; split; [done|]; apply (safe_le n); [done|lia]]. unfold switch_core_set_variable.
  destruct (switch_event_get_header g nm); [|by apply global_put_safe].
  destruct (safe_del n g nm Hs ltac:(lia)) as (ev & -> & H). by apply global_put_safe.
Qed.

Lemma set_global_if_safe n g varname val val2 :
  safe n g -> Z.of_nat n + Z.of_nat (String.length (switch_var_clean_string (default "" val))) < 1000000 ->
  exists b g', switch_core_set_var_conditional g varname val val2 = Some (b, g')
  /\ safe (n + S (String.length (switch_var_clean_string (default "" val)))) g'.
Proof.
  intros Hs Hn. assert (safe (n + S (String.length (switch_var_clean_string (default "" val)))) g) as Hw by (apply (safe_le n); [done|lia]).
  destruct varname as [nm|]; [|by eexists _, g]. unfold switch_core_set_var_conditional.
  destruct (switch_event_get_header g nm); [destruct (match val2 with Some _ => _ | None => _ end)|destruct (negb (zstr val2))]; try by eexists _, g.
  - destruct (safe_del n g nm Hs ltac:(lia)) as (ev & -> & H). destruct (global_put_safe n ev nm val H Hn) as (g' & -> & H'). by eexists _, g'.
  - destruct (global_put_safe n g nm val Hs Hn) as (g' & -> & H'). by eexists _, g'.
Qed.

Lemma var_step_safe n st o :
  state_safe n st -> op_checked o = true -> Z.of_nat n + Z.of_nat (String.length (op_data o)) < 1000000 ->
  exists st', var_step st o = Some st' /\ state_safe (n + op_size o) st'.
Proof.
  intros Hst Hc Hn. pose proof Hst as [(ev & Hv & Hs) Hg].
  assert (forall m e, safe n e -> safe (n + S m) e) as Hw by (intros m e He; apply (safe_le n); [done|lia]).
  destruct o; cbn [op_checked op_data op_size] in *; try subst var_check.
  - exact (store_state n st SWITCH_STACK_BOTTOM varname val id Hst Hn).
  - exact (store_state n st SWITCH_STACK_BOTTOM varname val strip_quotes Hst Hn).
  - exact (store_state n st stack varname val id Hst Hn).
  - by apply printf_safe.
  - eexists. split; [done|]. constructor; [exists ev; split; [done|]|]; by apply Hw.
  - eexists. split; [done|]. constructor; [exists ev; split; [|by apply Hw]|by apply Hw].
    cbn. unfold switch_channel_set_scope_variables. by destruct (scope_variables (channel st)).
  - destruct (set_global_safe n (global_vars st) varname val Hg Hn) as (g & E & H). cbn [var_step]. rewrite E. eexists. split; [done|].
    constructor; [exists ev; split; [done|by apply Hw]|done].
  - destruct (set_global_if_safe n (global_vars st) varname val val2 Hg Hn) as (b & g & E & H). cbn [var_step]. rewrite E. eexists. split; [done|].
    constructor; [exists ev; split; [done|by apply Hw]|done].
Qed.

Lemma var_run_safe l n st :
  state_safe n st -> forallb op_checked l = true -> Z.of_nat n + Z.of_nat (sum_list_with op_size l) <= 1000000 ->
  exists st' n', var_run st l = Some st' /\ state_safe n' st'.
Proof.
  revert n st. induction l as [|o l IH]; intros n st Hs Hc Hn; cbn [var_run]; [by exists st, n|]. cbn [forallb sum_list_with] in Hc, Hn.
  apply andb_true_iff in Hc as [Ho Hc]. assert (op_size o = S (String.length (op_data o))) as Hsz by done.
  destruct (var_step_safe n st o Hs Ho ltac:(lia)) as (st1 & -> & S1). apply (IH (n + op_size o)%nat); [done|done|lia].
Qed.

Lemma clean_lookup n ev s idx v :
  safe n ev -> s <> "_body" -> switch_event_get_header_idx ev s idx = Some v -> switch_string_var_check_const v = false.
Proof.
  intros [K Hc _] Hs E. apply clean_check. unfold switch_event_get_header_idx in E.
  destruct (switch_event_get_header_ptr ev s) as [hp|] eqn:Ef; [|by destruct (String.eqb_spec s "_body")].
  apply find_some in Ef as [Ef%list_elem_of_In _]. apply (proj1 (Forall_forall _ _) Hc) in Ef as [H1 H2].
  destruct (idx >? -1); [|by rewrite E in H1]. destruct (_ <? _); [|done]. by apply (proj1 (Forall_lookup _ _) H2 _ _ E).
Qed.

(** C19. No injection through stored variables: after any sequence of checked
    settings of channel variables (plain, quoted, formatted, pushed, by index, or
    as a whole array), scopes and global settings, whose data and one for each
    operation add up to at most a million, every operation has returned and no value or array
    element of a variable of the channel or of the core contains a reference
    ${...}: values that have one are refused on the channel and defused in the
    core, and joining array elements never makes one. *)
Theorem no_reference_stored cp l :
  forallb op_checked l = true -> Z.of_nat (sum_list_with op_size l) <= 1000000 ->
  exists st ev, var_run (new_state cp) l = Some st /\ variables (channel st) = Some ev
  /\ forall s idx v, s <> "_body" ->
     switch_event_get_header_idx ev s idx = Some v \/ switch_event_get_header_idx (global_vars st) s idx = Some v ->
     switch_string_var_check_const v = false.
Proof.
  intros Hc Hn. assert (safe 0 (switch_event_create_plain true)) as Hf by (constructor; [apply fresh_ok|constructor|done]).
  destruct (var_run_safe l 0 (new_state cp)) as (st & n & E & [(ev & Hv & Hs) Hg]); [constructor; [by eexists|done]|done|done|].
  exists st, ev. split_and!; [done|done|]. intros s idx v Hb [H|H]; [exact (clean_lookup n ev s idx v Hs Hb H)|exact (clean_lookup n (global_vars st) s idx v Hg Hb H)].
Qed.

Definition ops_3 : list var_op :=
  [SetVariable (Some "a") (Some "${x}") true; AddVariable (Some "b") (Some "$") true SWITCH_STACK_PUSH;
   AddVariable (Some "b") (Some "{x}") true SWITCH_STACK_PUSH; SetGlobal (Some "c") (Some "$\{x}"); SetVariable (Some "d") (Some "ARRAY::$|:{x}") true].

Lemma no_reference_stored_witness :
  exists st ev, var_run (new_state None) ops_3 = Some st /\ variables (channel st) = Some ev
  /\ switch_event_get_header_idx ev "b" (-1) = Some "ARRAY::$|:{x}" /\ switch_string_var_check_const "ARRAY::$|:{x}" = false
  /\ switch_event_get_header_idx (global_vars st) "c" (-1) = Some "%\{x}" /\ switch_string_var_check_const "%\{x}" = false.
Proof.
  destruct (no_reference_stored None ops_3) as (st & ev & E & V & H); [reflexivity|by vm_compute|].
  assert (switch_event_get_header_idx ev "b" (-1) = Some "ARRAY::$|:{x}"
    /\ switch_event_get_header_idx (global_vars st) "c" (-1) = Some "%\{x}") as [H1 H2].
  { clear H. vm_compute in E. injection E as <-. vm_compute in V. injection V as <-. split; reflexivity. }
  exists st, ev. split_and!; [exact E|exact V|exact H1|apply (H "b" (-1)); [discriminate|by left]|exact H2|apply (H "c" (-1)); [discriminate|by right]].
Defined.

End VariablesTheorems.
