(* ===== verification/ChannelNames.v ===== *)
(** * Names of channel states, call states and causes (src/src/switch_channel.c)

    The tables that translate between enumeration constants and the names used
    in events and in the dial plan, and the lookups in both directions.  A
    cause is its number. *)

From S2P Require Import Prelude.
From S2P Require Import Text.
From stdpp Require Import strings.
From Stdlib Require Import Ascii.

#[local] Open Scope string_scope.
#[local] Open Scope list_scope.
#[local] Open Scope Z_scope.

Module ChannelNames.

Import Text.

(** ** States *)

Inductive switch_channel_state_t :=
  | CS_NEW | CS_INIT | CS_ROUTING | CS_SOFT_EXECUTE | CS_EXECUTE | CS_EXCHANGE_MEDIA | CS_PARK
  | CS_CONSUME_MEDIA | CS_HIBERNATE | CS_RESET | CS_HANGUP | CS_REPORTING | CS_DESTROY | CS_NONE.

#[export] Instance state_eq_dec : EqDecision switch_channel_state_t.
Proof. solve_decision. Defined.

Definition states : list switch_channel_state_t :=
  [CS_NEW; CS_INIT; CS_ROUTING; CS_SOFT_EXECUTE; CS_EXECUTE; CS_EXCHANGE_MEDIA; CS_PARK; CS_CONSUME_MEDIA;
   CS_HIBERNATE; CS_RESET; CS_HANGUP; CS_REPORTING; CS_DESTROY; CS_NONE].

(** The value of the enumeration constant. *)
Definition cs (s : switch_channel_state_t) : Z :=
  match s with
  | CS_NEW => 0 | CS_INIT => 1 | CS_ROUTING => 2 | CS_SOFT_EXECUTE => 3 | CS_EXECUTE => 4
  | CS_EXCHANGE_MEDIA => 5 | CS_PARK => 6 | CS_CONSUME_MEDIA => 7 | CS_HIBERNATE => 8 | CS_RESET => 9
  | CS_HANGUP => 10 | CS_REPORTING => 11 | CS_DESTROY => 12 | CS_NONE => 13
  end.

Definition state_names : list string :=
  ["CS_NEW"; "CS_INIT"; "CS_ROUTING"; "CS_SOFT_EXECUTE"; "CS_EXECUTE"; "CS_EXCHANGE_MEDIA"; "CS_PARK";
   "CS_CONSUME_MEDIA"; "CS_HIBERNATE"; "CS_RESET"; "CS_HANGUP"; "CS_REPORTING"; "CS_DESTROY"; "CS_NONE"].

Definition switch_channel_state_name (s : switch_channel_state_t) : option string := state_names !! Z.to_nat (cs s).

(** The constant whose name is found first. *)
Fixpoint name_state_from (ss : list switch_channel_state_t) (names : list string) (name : string)
  : switch_channel_state_t :=
  match ss, names with
  | s :: ss, n :: names => if strcasecmp_eq n name then s else name_state_from ss names name
  | _, _ => CS_DESTROY
  end.

Definition switch_channel_name_state (name : string) : switch_channel_state_t := name_state_from states state_names name.

(** ** Call states *)

Inductive switch_channel_callstate_t :=
  | CCS_DOWN | CCS_DIALING | CCS_RINGING | CCS_EARLY | CCS_ACTIVE | CCS_HELD | CCS_RING_WAIT | CCS_HANGUP
  | CCS_UNHELD.

#[export] Instance callstate_eq_dec : EqDecision switch_channel_callstate_t.
Proof. solve_decision. Defined.

Definition ccs (s : switch_channel_callstate_t) : Z :=
  match s with
  | CCS_DOWN => 0 | CCS_DIALING => 1 | CCS_RINGING => 2 | CCS_EARLY => 3 | CCS_ACTIVE => 4 | CCS_HELD => 5
  | CCS_RING_WAIT => 6 | CCS_HANGUP => 7 | CCS_UNHELD => 8
  end.

Definition CALLSTATE_CHART : list (string * Z) :=
  [("DOWN", ccs CCS_DOWN); ("DIALING", ccs CCS_DIALING); ("RINGING", ccs CCS_RINGING); ("EARLY", ccs CCS_EARLY);
   ("ACTIVE", ccs CCS_ACTIVE); ("HELD", ccs CCS_HELD); ("RING_WAIT", ccs CCS_RING_WAIT); ("HANGUP", ccs CCS_HANGUP);
   ("UNHELD", ccs CCS_UNHELD)].

(** ** Causes *)

Definition CAUSE_CHART : list (string * Z) :=
  [("NONE", 0); ("UNALLOCATED_NUMBER", 1); ("NO_ROUTE_TRANSIT_NET", 2); ("NO_ROUTE_DESTINATION", 3);
   ("CHANNEL_UNACCEPTABLE", 6); ("CALL_AWARDED_DELIVERED", 7); ("NORMAL_CLEARING", 16); ("USER_BUSY", 17);
   ("NO_USER_RESPONSE", 18); ("NO_ANSWER", 19); ("SUBSCRIBER_ABSENT", 20); ("CALL_REJECTED", 21);
   ("NUMBER_CHANGED", 22); ("REDIRECTION_TO_NEW_DESTINATION", 23); ("EXCHANGE_ROUTING_ERROR", 25);
   ("DESTINATION_OUT_OF_ORDER", 27); ("INVALID_NUMBER_FORMAT", 28); ("FACILITY_REJECTED", 29);
   ("RESPONSE_TO_STATUS_ENQUIRY", 30); ("NORMAL_UNSPECIFIED", 31); ("NORMAL_CIRCUIT_CONGESTION", 34);
   ("NETWORK_OUT_OF_ORDER", 38); ("NORMAL_TEMPORARY_FAILURE", 41); ("SWITCH_CONGESTION", 42);
   ("ACCESS_INFO_DISCARDED", 43); ("REQUESTED_CHAN_UNAVAIL", 44); ("PRE_EMPTED", 45);
   ("FACILITY_NOT_SUBSCRIBED", 50); ("OUTGOING_CALL_BARRED", 52); ("INCOMING_CALL_BARRED", 54);
   ("BEARERCAPABILITY_NOTAUTH", 57); ("BEARERCAPABILITY_NOTAVAIL", 58); ("SERVICE_UNAVAILABLE", 63);
   ("BEARERCAPABILITY_NOTIMPL", 65); ("CHAN_NOT_IMPLEMENTED", 66); ("FACILITY_NOT_IMPLEMENTED", 69);
   ("SERVICE_NOT_IMPLEMENTED", 79); ("INVALID_CALL_REFERENCE", 81); ("INCOMPATIBLE_DESTINATION", 88);
   ("INVALID_MSG_UNSPECIFIED", 95); ("MANDATORY_IE_MISSING", 96); ("MESSAGE_TYPE_NONEXIST", 97);
   ("WRONG_MESSAGE", 98); ("IE_NONEXIST", 99); ("INVALID_IE_CONTENTS", 100); ("WRONG_CALL_STATE", 101);
   ("RECOVERY_ON_TIMER_EXPIRE", 102); ("MANDATORY_IE_LENGTH_ERROR", 103); ("PROTOCOL_ERROR", 111);
   ("INTERWORKING", 127); ("SUCCESS", 142); ("ORIGINATOR_CANCEL", 487); ("CRASH", 700);
   ("SYSTEM_SHUTDOWN", 701); ("LOSE_RACE", 702); ("MANAGER_REQUEST", 703); ("BLIND_TRANSFER", 800);
   ("ATTENDED_TRANSFER", 801); ("ALLOTTED_TIMEOUT", 802); ("USER_CHALLENGE", 803); ("MEDIA_TIMEOUT", 804);
   ("PICKED_OFF", 805); ("USER_NOT_REGISTERED", 806); ("PROGRESS_TIMEOUT", 807); ("INVALID_GATEWAY", 808);
   ("GATEWAY_DOWN", 809); ("INVALID_URL", 810); ("INVALID_PROFILE", 811); ("NO_PICKUP", 812);
   ("SRTP_READ_ERROR", 813); ("BOWOUT", 814); ("BUSY_EVERYWHERE", 815); ("DECLINE", 816);
   ("DOES_NOT_EXIST_ANYWHERE", 817); ("NOT_ACCEPTABLE", 818); ("UNWANTED", 819); ("NO_IDENTITY", 820);
   ("BAD_IDENTITY_INFO", 821); ("UNSUPPORTED_CERTIFICATE", 822); ("INVALID_IDENTITY", 823);
   ("STALE_DATE", 824)].

(** ** Lookups in a chart *)

Definition chart_name (chart : list (string * Z)) (n : Z) : string :=
  match filter (fun r => r.2 = n) chart with
  | r :: _ => r.1
  | [] => "UNKNOWN"
  end.

Definition chart_number (chart : list (string * Z)) (dflt : Z) (str : string) : Z :=
  match filter (fun r => strcasecmp_eq r.1 str = true) chart with
  | r :: _ => r.2
  | [] => dflt
  end.

Definition starts_with_digit (str : string) : bool :=
  match str with String c _ => bool_decide (is_Some (digit_of c)) | EmptyString => false end.

Definition switch_channel_cause2str (cause : Z) : string := chart_name CAUSE_CHART cause.

(** [None] is a NULL pointer. *)
Definition switch_channel_str2cause (str : option string) : Z :=
  match str with
  | None | Some EmptyString => 16
  | Some s => if starts_with_digit s then atoi s else chart_number CAUSE_CHART 16 s
  end.

Definition switch_channel_callstate2str (n : Z) : string := chart_name CALLSTATE_CHART n.

Definition switch_channel_str2callstate (s : string) : Z :=
  if starts_with_digit s then atoi s else chart_number CALLSTATE_CHART 0 s.

Definition switch_channel_cause_q850 (cause : Z) : Z := if cause <=? 127 then cause else 16.

(** ** Properties *)

Lemma chart_number_lower chart d a b : lower a = lower b -> chart_number chart d a = chart_number chart d b.
Proof.
  intros H. unfold chart_number. assert (filter (fun r => strcasecmp_eq r.1 a = true) chart
    = filter (fun r => strcasecmp_eq r.1 b = true) chart) as ->; [|done].
  apply list_filter_iff. intros r. by rewrite (strcasecmp_r r.1 a b H).
Qed.

Lemma digit_tolower c : digit_of (tolower c) = digit_of c.
Proof. destruct c as [[] [] [] [] [] [] [] []]; reflexivity. Qed.

Lemma digit_lower a b : lower a = lower b -> starts_with_digit a = starts_with_digit b.
Proof.
  destruct a as [|x a], b as [|y b]; simpl; try done. intros [= H _].
  apply (f_equal digit_of) in H. rewrite !digit_tolower in H. by rewrite H.
Qed.

(** A row is read back from its name in any case. *)
Definition row_ok (chart : list (string * Z)) (d : Z) (r : string * Z) : bool :=
  (chart_number chart d r.1 =? r.2) && negb (starts_with_digit r.1) && bool_decide (chart_name chart r.2 = r.1).

Lemma chart_roundtrip chart d r str :
  forallb (row_ok chart d) chart = true -> r ∈ chart -> strcasecmp_eq r.1 str = true ->
  starts_with_digit str = false /\ chart_number chart d str = r.2 /\ chart_name chart r.2 = r.1.
Proof.
  intros HF Hr Hs. apply strcasecmp_lower in Hs. rewrite forallb_forall in HF.
  assert (row_ok chart d r = true) as H by (apply HF; by apply list_elem_of_In).
  unfold row_ok in H. rewrite !andb_true_iff, negb_true_iff, Z.eqb_eq, bool_decide_eq_true in H.
  destruct H as [[H1 H2] H3]. by rewrite <- (digit_lower _ _ Hs), <- (chart_number_lower _ _ _ _ Hs).
Qed.

(** The name tables are consistent: every cause is printed with its own name
    and read back from it in any mix of upper and lower case, and the same
    holds for call states and for channel states. *)
Theorem names_roundtrip :
  (forall name cause str, (name, cause) ∈ CAUSE_CHART -> strcasecmp_eq name str = true ->
     switch_channel_cause2str cause = name /\ switch_channel_str2cause (Some str) = cause)
  /\ (forall s str, strcasecmp_eq (switch_channel_callstate2str (ccs s)) str = true ->
     switch_channel_str2callstate str = ccs s)
  /\ (forall s name str, switch_channel_state_name s = Some name -> strcasecmp_eq name str = true ->
     switch_channel_name_state str = s).
Proof.
  split_and!.
  - intros name cause str Hr Hs.
    destruct (chart_roundtrip CAUSE_CHART 16 (name, cause) str) as (H1 & H2 & H3); [by vm_compute|done|done|].
    split; [exact H3|]. unfold switch_channel_str2cause. destruct str as [|x str]; [|by rewrite H1].
    assert (Forall (fun r => r.1 <> "") CAUSE_CHART) as HN by (repeat (constructor; [done|]); constructor).
    rewrite Forall_forall in HN. specialize (HN _ Hr). simpl in *. by destruct name.
  - intros s str Hs.
    destruct (chart_roundtrip CALLSTATE_CHART 0 (switch_channel_callstate2str (ccs s), ccs s) str) as (H1 & H2 & _);
      [by vm_compute| |exact Hs|unfold switch_channel_str2callstate; by rewrite H1].
    apply list_elem_of_In. destruct s; vm_compute; tauto.
  - intros s name str Hn Hs. apply strcasecmp_lower in Hs. unfold switch_channel_name_state.
    assert (forall ss names, name_state_from ss names str = name_state_from ss names name) as ->.
    { induction ss as [|s0 ss IH]; intros [|n names]; simpl; try done. by rewrite (strcasecmp_r n name str), IH. }
    destruct s; vm_compute in Hn; injection Hn as <-; by vm_compute.
Qed.

Lemma names_roundtrip_witness :
  switch_channel_str2cause (Some "user_Busy") = 17 /\ switch_channel_name_state "cs_park" = CS_PARK.
Proof.
  destruct names_roundtrip as (H1 & _ & H3). split.
  - apply (H1 "USER_BUSY" 17); [|done]. apply list_elem_of_In. vm_compute. tauto.
  - by apply (H3 CS_PARK "CS_PARK").
Defined.

End ChannelNames.
