(* ===== verification/Channel.v ===== *)
(** * Channels (src/src/switch_channel.c)

    A channel is one leg of a call: its state in the state machine, the state
    of the call, the flag arrays, hold records and times, the state handlers.

    Each function of the source is a function on [switch_channel]; [None] is a
    failed [switch_assert], a NULL pointer that is followed or an index out of
    range.  What the function asks of the rest of the program (the clock, a
    channel variable, the session) is in the argument [env]; what it does to
    the rest (events, messages, session calls) is appended to [trace], in
    order.  Those calls are taken not to come back to the same channel, but for
    the hangup handlers that switch_channel_perform_hangup may call in the end,
    which StateMachine.v runs.  Other threads act between two operations; the
    functions lock and unlock the channel's mutexes several times, and an
    operation as one step is an approximation where a thread can come in between
    (for the hangup see [hangup_begin]).  Log output is left out. *)

From S2P Require Import Prelude.
From S2P Require Import Text ChannelNames.
From stdpp Require Import strings.

#[local] Open Scope string_scope.
#[local] Open Scope list_scope.
#[local] Open Scope Z_scope.

Module Channel.
Import ChannelNames.

(** ** Types *)

Inductive switch_call_direction_t := SWITCH_CALL_DIRECTION_INBOUND | SWITCH_CALL_DIRECTION_OUTBOUND.

#[export] Instance direction_eq_dec : EqDecision switch_call_direction_t.
Proof. solve_decision. Defined.

(** The channel flags that the modelled functions look at. *)
Definition CF_ANSWERED : Z := 1.
Definition CF_OUTBOUND : Z := 2.
Definition CF_EARLY_MEDIA : Z := 3.
Definition CF_BRIDGE_ORIGINATOR : Z := 4.
Definition CF_TRANSFER : Z := 6.
Definition CF_BRIDGED : Z := 9.
Definition CF_TAGGED : Z := 13.
Definition CF_PROXY_MODE : Z := 17.
Definition CF_RING_READY : Z := 22.
Definition CF_VIDEO : Z := 26.
Definition CF_BLOCK_STATE : Z := 38.
Definition CF_ORIGINATOR : Z := 43.
Definition CF_NOT_READY : Z := 48.
Definition CF_LEG_HOLDING : Z := 52.
Definition CF_PASSTHRU_PTIME_MISMATCH : Z := 57.
Definition CF_RECOVERED : Z := 59.
Definition CF_DIALPLAN : Z := 62.
Definition CF_RECOVERING : Z := 86.
Definition CF_VIDEO_PASSIVE : Z := 116.
Definition CF_VIDEO_ECHO : Z := 119.
Definition CF_VIDEO_BLANK : Z := 120.
Definition CF_HANGUP_HELD : Z := 129.
Definition CF_VIDEO_DECODED_READ : Z := 131.
Definition CF_NO_RECOVER : Z := 134.
Definition CF_VIDEO_READY : Z := 135.
Definition CF_VIDEO_MIRROR_INPUT : Z := 136.
Definition CF_RTT : Z := 158.
Definition CF_FLAG_MAX : Z := 172.

Definition SWITCH_CAUSE_NONE : Z := 0.
Definition SWITCH_CAUSE_NORMAL_CLEARING : Z := 16.
Definition OCF_HANGUP : Z := 1.
Definition SWITCH_MAX_STATE_HANDLERS : nat := 30.

(** Calls that leave the channel. *)
Inductive action :=
  | FireCallstate (old new : switch_channel_callstate_t)
  | FireState | FireHold | FireUnhold | FireHangup | FireProgress | FireProgressMedia | FireAnswer
  | CheckDeviceState (callstate : switch_channel_callstate_t)
  | RequestVideoRefresh | StartVideoThread | WakeVideoThread
  | RecoveryTrack | SignalStateChange | KillChannel | ThreadLaunch | HangupState
  | SetVariable (name : string) (val : option string)
  | SetVariablePartner (name : string) (val : string)
  | SetFlagPartner (flag : Z)
  | TransferRecordings
  | ExecuteOn (prefix : string) | ApiOn (prefix : string) | Presence (status : string)
  | RingEvent | ProgressEvent | AnswerEvent
  | CheckDtls | CheckAutoadj | EnableHeartbeat (seconds : Z)
  | BreakOriginator
  | CopyProgress (t : Z) | CopyProgressMedia (t : Z).

(** What the surrounding program answers during one call. *)
Record env := {
  now : Z;                               (* switch_time_now, switch_micro_time_now *)
  getvar : string -> option string;      (* switch_channel_get_variable *)
  partner_uuid : option string;          (* switch_channel_get_partner_uuid *)
  session_running : bool;
  session_started : bool;
  in_thread : bool;                      (* switch_core_session_in_thread *)
  session_locate : string -> bool;       (* switch_core_session_locate finds a session *)
  has_codecs : bool;                     (* read and write codec are set *)
}.

Definition var_true (e : env) (name : string) : bool :=
  Text.switch_true (getvar e name).

Record switch_hold_record_t := mk_hold { uuid : option string; on : Z; off : Z }.

Record switch_channel_timetable_t := mk_times {
  answered : Z; progress : Z; progress_media : Z; hungup : Z; bridged : Z; last_hold : Z; hold_accum : Z }.

#[export] Instance rebuild_times : Rebuild switch_channel_timetable_t := fun t =>
  mk_times (answered t) (progress t) (progress_media t) (hungup t) (bridged t) (last_hold t) (hold_accum t).
#[export] Instance set_answered : Setter answered := ltac:(derive_setter).
#[export] Instance set_progress : Setter progress := ltac:(derive_setter).
#[export] Instance set_progress_media : Setter progress_media := ltac:(derive_setter).
#[export] Instance set_hungup : Setter hungup := ltac:(derive_setter).
#[export] Instance set_bridged : Setter bridged := ltac:(derive_setter).
#[export] Instance set_last_hold : Setter last_hold := ltac:(derive_setter).
#[export] Instance set_hold_accum : Setter hold_accum := ltac:(derive_setter).

(** A state handler table is its address; [sticky] is its SSH_FLAG_STICKY. *)
Record switch_state_handler_table_t := mk_handler { handler_addr : nat; sticky : bool }.

#[export] Instance handler_eq_dec : EqDecision switch_state_handler_table_t.
Proof. solve_decision. Defined.

Record switch_channel := mk_channel {
  direction : switch_call_direction_t;
  logical_direction : switch_call_direction_t;
  state : switch_channel_state_t;
  running_state : switch_channel_state_t;
  callstate : switch_channel_callstate_t;
  flags : list Z;
  state_flags : list Z;
  private_flags : Z;
  times : option switch_channel_timetable_t;        (* caller_profile->times *)
  originator : bool;                                (* caller_profile->originator_caller_profile *)
  state_handlers : list (option switch_state_handler_table_t);
  state_handler_index : Z;
  app_flag_hash : option (gmap string Z);
  hangup_cause : Z;
  opaque_flags : Z;
  hold_record : list switch_hold_record_t;
  device_node : option (switch_channel_callstate_t * switch_call_direction_t);
  trace : list action;
}.

#[export] Instance rebuild_channel : Rebuild switch_channel := fun c =>
  mk_channel (direction c) (logical_direction c) (state c) (running_state c) (callstate c) (flags c) (state_flags c)
    (private_flags c) (times c) (originator c) (state_handlers c) (state_handler_index c) (app_flag_hash c)
    (hangup_cause c) (opaque_flags c) (hold_record c) (device_node c) (trace c).
#[export] Instance set_direction : Setter direction := ltac:(derive_setter).
#[export] Instance set_logical_direction : Setter logical_direction := ltac:(derive_setter).
#[export] Instance set_state : Setter state := ltac:(derive_setter).
#[export] Instance set_running_state : Setter running_state := ltac:(derive_setter).
#[export] Instance set_callstate : Setter callstate := ltac:(derive_setter).
#[export] Instance set_flags : Setter flags := ltac:(derive_setter).
#[export] Instance set_state_flags : Setter state_flags := ltac:(derive_setter).
#[export] Instance set_private_flags : Setter private_flags := ltac:(derive_setter).
#[export] Instance set_times : Setter times := ltac:(derive_setter).
#[export] Instance set_state_handlers : Setter state_handlers := ltac:(derive_setter).
#[export] Instance set_state_handler_index : Setter state_handler_index := ltac:(derive_setter).
#[export] Instance set_app_flag_hash : Setter app_flag_hash := ltac:(derive_setter).
#[export] Instance set_hangup_cause : Setter hangup_cause := ltac:(derive_setter).
#[export] Instance set_opaque_flags : Setter opaque_flags := ltac:(derive_setter).
#[export] Instance set_hold_record : Setter hold_record := ltac:(derive_setter).
#[export] Instance set_device_node : Setter device_node := ltac:(derive_setter).
#[export] Instance set_trace : Setter trace := ltac:(derive_setter).

Implicit Types (c : switch_channel) (e : env).

Definition act c (a : action) : switch_channel := c <| trace := trace c ++ [a] |>.

(** A flag array at an index, 0 outside of it. *)
Definition flag_at (l : list Z) (flag : Z) : Z := default 0 (l !! Z.to_nat flag).

(** ** Allocation *)

(** switch_channel_alloc and switch_channel_init, for a session with a caller
    profile.  The first state is CS_NEW; the queues are in ChannelDtmf. *)
Definition switch_channel_alloc (direction0 : switch_call_direction_t) : switch_channel :=
  mk_channel direction0 direction0 CS_NEW CS_NEW CCS_DOWN (replicate (Z.to_nat CF_FLAG_MAX) 0)
    (replicate (Z.to_nat CF_FLAG_MAX) 0) 0 None false (replicate SWITCH_MAX_STATE_HANDLERS None) 0 None
    SWITCH_CAUSE_NONE 0 [] None
    [SetVariable "direction" (Some (if bool_decide (direction0 = SWITCH_CALL_DIRECTION_OUTBOUND)
                                    then "outbound" else "inbound"))].

(** ** The state of the call *)

Definition switch_channel_perform_set_callstate c (cs0 : switch_channel_callstate_t) : switch_channel :=
  let o_callstate := callstate c in
  if bool_decide (o_callstate = cs0) || bool_decide (o_callstate = CCS_HANGUP) then c
  else
    let c := c <| callstate := cs0 |> in
    let c := match device_node c with Some (_, d) => c <| device_node := Some (cs0, d) |> | None => c end in
    let c := act c (CheckDeviceState cs0) in
    act c (FireCallstate o_callstate cs0).

(** ** Flags *)

Definition switch_channel_test_flag c (flag : Z) : Z := flag_at (flags c) flag.

Definition has_flag c (flag : Z) : bool := negb (switch_channel_test_flag c flag =? 0).

Definition up_nosig c : bool := cs (state c) <? cs CS_HANGUP.

Definition set_device_direction c (d : switch_call_direction_t) : switch_channel :=
  match device_node c with Some (s, _) => c <| device_node := Some (s, d) |> | None => c end.

(** The record of a hold that begins, with the time of the hold. *)
Definition begin_hold c e : option switch_channel :=
  let c := switch_channel_perform_set_callstate c CCS_HELD in
  t ← times c;
  let c := c <| times := Some (t <| last_hold := now e |>) |> in
  Some (c <| hold_record := mk_hold (partner_uuid e) (now e) 0 :: hold_record c |>).

Definition switch_channel_set_flag_value c e (flag value : Z) : option switch_channel :=
  let HELD := (flag =? CF_LEG_HOLDING) && negb (has_flag c flag) && has_flag c CF_ANSWERED in
  let just_set := negb (switch_channel_test_flag c flag =? value) in
  let c := if just_set then c <| flags := <[Z.to_nat flag := value]> (flags c) |> else c in
  let c := if (flag =? CF_VIDEO_READY) && just_set then act c RequestVideoRefresh else c in
  let c := if (flag =? CF_ORIGINATOR) && has_flag c CF_ANSWERED && up_nosig c
           then switch_channel_perform_set_callstate c CCS_RING_WAIT else c in
  let c :=
    if flag =? CF_DIALPLAN then
      if bool_decide (direction c = SWITCH_CALL_DIRECTION_INBOUND) then
        set_device_direction (c <| logical_direction := SWITCH_CALL_DIRECTION_OUTBOUND |>) SWITCH_CALL_DIRECTION_INBOUND
      else
        set_device_direction (c <| logical_direction := SWITCH_CALL_DIRECTION_INBOUND |>) SWITCH_CALL_DIRECTION_OUTBOUND
    else c in
  c ← (if HELD then begin_hold c e else Some c);
  let c := if flag =? CF_OUTBOUND then act c (SetVariable "is_outbound" (Some "true")) else c in
  let c := if flag =? CF_RECOVERED then act c (SetVariable "recovered" (Some "true")) else c in
  let c := if (flag =? CF_VIDEO_ECHO) || (flag =? CF_VIDEO_BLANK) || (flag =? CF_VIDEO_DECODED_READ)
              || (flag =? CF_VIDEO_PASSIVE) then act c StartVideoThread else c in
  Some (if (flag =? CF_VIDEO_DECODED_READ) && has_flag c CF_VIDEO then act c RequestVideoRefresh else c).

Definition switch_channel_set_flag c e (flag : Z) : option switch_channel := switch_channel_set_flag_value c e flag 1.

Definition switch_channel_set_flag_recursive c (flag : Z) : switch_channel :=
  let c := c <| flags := <[Z.to_nat flag := u32 (switch_channel_test_flag c flag + 1)]> (flags c) |> in
  let c := if flag =? CF_OUTBOUND then act c (SetVariable "is_outbound" (Some "true")) else c in
  if flag =? CF_RECOVERED then act c (SetVariable "recovered" (Some "true")) else c.

Definition switch_channel_set_private_flag c (flags0 : Z) : switch_channel :=
  c <| private_flags := set_flag (private_flags c) flags0 |>.
Definition switch_channel_clear_private_flag c (flags0 : Z) : switch_channel :=
  c <| private_flags := clear_flag (private_flags c) flags0 |>.
Definition switch_channel_test_private_flag c (flags0 : Z) : Z := Z.land (private_flags c) flags0.

(** Application flags, a word of flags per key. *)
Definition switch_channel_set_app_flag_key (key : string) c (flags0 : Z) : switch_channel :=
  let h := default ∅ (app_flag_hash c) in
  c <| app_flag_hash := Some (<[key := Z.lor (default 0 (h !! key)) flags0]> h) |>.

Definition switch_channel_clear_app_flag_key (key : string) c (flags0 : Z) : switch_channel :=
  match app_flag_hash c with
  | Some h =>
      match h !! key with
      | Some f => c <| app_flag_hash := Some (<[key := if flags0 =? 0 then 0 else clear_flag f flags0]> h) |>
      | None => c
      end
  | None => c
  end.

Definition switch_channel_test_app_flag_key (key : string) c (flags0 : Z) : Z :=
  match app_flag_hash c with
  | Some h => match h !! key with Some f => Z.land f flags0 | None => 0 end
  | None => 0
  end.

(** Flags to be set when the running state changes. *)
Definition switch_channel_set_state_flag c (flag : Z) : switch_channel :=
  c <| state_flags := <[Z.to_nat flag := 1]> (<[0%nat := 1]> (state_flags c)) |>.

Definition switch_channel_clear_state_flag c (flag : Z) : switch_channel :=
  c <| state_flags := <[Z.to_nat flag := 0]> (state_flags c) |>.

(** The end of a hold. *)
Definition end_hold c e : option switch_channel :=
  let c := switch_channel_perform_set_callstate c CCS_UNHELD in
  t ← times c;
  let t := if negb (last_hold t =? 0) then t <| hold_accum := hold_accum t + (now e - last_hold t) |> else t in
  let c := c <| times := Some t |> in
  let c := match hold_record c with
           | h :: l => c <| hold_record := mk_hold (uuid h) (on h) (now e) :: l |>
           | [] => c
           end in
  Some (if has_flag c CF_PROXY_MODE && has_flag c CF_BRIDGED
        then switch_channel_perform_set_callstate c CCS_ACTIVE else c).

Definition switch_channel_clear_flag c e (flag : Z) : option switch_channel :=
  let ACTIVE := (flag =? CF_LEG_HOLDING) && has_flag c flag && has_flag c CF_ANSWERED in
  let passive := (flag =? CF_VIDEO_PASSIVE) && has_flag c CF_VIDEO in
  let c := if passive then c <| flags := <[Z.to_nat CF_VIDEO_READY := 1]> (flags c) |> else c in
  let CLEAR := passive && has_flag c flag in
  let c := c <| flags := <[Z.to_nat flag := 0]> (flags c) |> in
  let c :=
    if (flag =? CF_DIALPLAN) && bool_decide (direction c = SWITCH_CALL_DIRECTION_OUTBOUND) then
      set_device_direction (c <| logical_direction := SWITCH_CALL_DIRECTION_OUTBOUND |>) SWITCH_CALL_DIRECTION_INBOUND
    else c in
  c ← (if ACTIVE then end_hold c e else Some c);
  let c := if (flag =? CF_ORIGINATOR) && has_flag c CF_ANSWERED && up_nosig c
           then switch_channel_perform_set_callstate c CCS_ACTIVE else c in
  let c := if flag =? CF_OUTBOUND then act c (SetVariable "is_outbound" None) else c in
  let c := if flag =? CF_RECOVERED then act c (SetVariable "recovered" None) else c in
  let c := if (flag =? CF_VIDEO_PASSIVE) && CLEAR then act c WakeVideoThread else c in
  Some (if (flag =? CF_RECOVERING) && (hangup_cause c =? 0) && negb (has_flag c CF_NO_RECOVER)
        then act c RecoveryTrack else c).

Definition switch_channel_clear_flag_recursive c (flag : Z) : switch_channel :=
  let c := if has_flag c flag
           then c <| flags := <[Z.to_nat flag := switch_channel_test_flag c flag - 1]> (flags c) |> else c in
  if flag =? CF_OUTBOUND then act c (SetVariable "is_outbound" None) else c.

(** ** The state machine *)

Definition switch_channel_get_state c : switch_channel_state_t := state c.
Definition switch_channel_get_running_state c : switch_channel_state_t := running_state c.

Definition switch_channel_state_change_pending c e : bool :=
  if negb (up_nosig c) || negb (in_thread e) then false
  else negb (bool_decide (running_state c = state c)).

(** Signals are looked at first (switch_channel_check_signal); this is what
    follows. *)
Definition switch_channel_test_ready c e (check_ready check_media : bool) : bool :=
  let media := (has_flag c CF_ANSWERED || has_flag c CF_EARLY_MEDIA) && negb (has_flag c CF_PROXY_MODE) && has_codecs e in
  if check_media && negb media then false
  else if negb check_ready then check_media && media
  else (hangup_cause c =? 0) && (cs CS_ROUTING <? cs (state c)) && (cs (state c) <? cs CS_HANGUP)
       && negb (bool_decide (state c = CS_RESET)) && negb (has_flag c CF_TRANSFER) && negb (has_flag c CF_NOT_READY)
       && negb (switch_channel_state_change_pending c e).

(** [for] over the requested flags: each one is set and its request removed. *)
Definition take_state_flags (l : list nat) (f sf : list Z) : list Z * list Z :=
  foldl (fun '(f, sf) x =>
           if negb (default 0 (sf !! x) =? 0) then (<[x := 1]> f, <[x := 0]> sf) else (f, sf)) (f, sf) l.

(** careful_set stores the value on every path of its lock attempts. *)
Definition switch_channel_perform_set_running_state c e (s : switch_channel_state_t) : option switch_channel :=
  let c :=
    if negb (flag_at (state_flags c) 0 =? 0) then
      let '(f, sf) := take_state_flags (seq 1 (Z.to_nat CF_FLAG_MAX - 1)) (flags c) (state_flags c) in
      let c := c <| flags := f |> in
      c <| state_flags := <[0%nat := 0]> sf |>
    else c in
  c ← switch_channel_clear_flag c e CF_TAGGED;
  let c := c <| running_state := s |> in
  if cs s <=? cs CS_DESTROY then
    let c :=
      if bool_decide (direction c = SWITCH_CALL_DIRECTION_INBOUND) && (cs s <? cs CS_HANGUP) then
        if bool_decide (s = CS_ROUTING) then switch_channel_perform_set_callstate c CCS_RINGING
        else if has_flag c CF_ANSWERED then switch_channel_perform_set_callstate c CCS_ACTIVE
        else if has_flag c CF_EARLY_MEDIA then switch_channel_perform_set_callstate c CCS_EARLY
        else c
      else c in
    Some (act c FireState)
  else Some c.

(** The table of transitions: [ok] for [last_state] and [state]. *)
Definition transition_ok (last_state state0 : switch_channel_state_t) : bool :=
  match last_state with
  | CS_NEW | CS_RESET => true
  | CS_INIT =>
      match state0 with
      | CS_EXCHANGE_MEDIA | CS_SOFT_EXECUTE | CS_ROUTING | CS_EXECUTE | CS_PARK | CS_CONSUME_MEDIA | CS_HIBERNATE
      | CS_RESET => true
      | _ => false
      end
  | CS_EXCHANGE_MEDIA =>
      match state0 with
      | CS_SOFT_EXECUTE | CS_ROUTING | CS_EXECUTE | CS_PARK | CS_CONSUME_MEDIA | CS_HIBERNATE | CS_RESET => true
      | _ => false
      end
  | CS_SOFT_EXECUTE =>
      match state0 with
      | CS_EXCHANGE_MEDIA | CS_ROUTING | CS_EXECUTE | CS_PARK | CS_CONSUME_MEDIA | CS_HIBERNATE | CS_RESET => true
      | _ => false
      end
  | CS_PARK =>
      match state0 with
      | CS_EXCHANGE_MEDIA | CS_ROUTING | CS_EXECUTE | CS_SOFT_EXECUTE | CS_HIBERNATE | CS_RESET | CS_CONSUME_MEDIA => true
      | _ => false
      end
  | CS_CONSUME_MEDIA =>
      match state0 with
      | CS_EXCHANGE_MEDIA | CS_ROUTING | CS_EXECUTE | CS_SOFT_EXECUTE | CS_HIBERNATE | CS_RESET | CS_PARK => true
      | _ => false
      end
  | CS_HIBERNATE =>
      match state0 with
      | CS_EXCHANGE_MEDIA | CS_INIT | CS_ROUTING | CS_EXECUTE | CS_SOFT_EXECUTE | CS_PARK | CS_CONSUME_MEDIA
      | CS_RESET => true
      | _ => false
      end
  | CS_ROUTING =>
      match state0 with
      | CS_EXCHANGE_MEDIA | CS_EXECUTE | CS_SOFT_EXECUTE | CS_PARK | CS_CONSUME_MEDIA | CS_HIBERNATE | CS_RESET => true
      | _ => false
      end
  | CS_EXECUTE =>
      match state0 with
      | CS_EXCHANGE_MEDIA | CS_SOFT_EXECUTE | CS_ROUTING | CS_PARK | CS_CONSUME_MEDIA | CS_HIBERNATE | CS_RESET => true
      | _ => false
      end
  | CS_HANGUP => match state0 with CS_REPORTING | CS_DESTROY => true | _ => false end
  | CS_REPORTING => match state0 with CS_DESTROY => true | _ => false end
  | CS_DESTROY | CS_NONE => false
  end.

Definition switch_channel_perform_set_state c (state0 : switch_channel_state_t) : option switch_channel :=
  let last_state := state c in
  if negb (cs state0 <=? cs CS_DESTROY) || negb (cs last_state <=? cs CS_DESTROY) then None
  else if bool_decide (last_state = state0) then Some c
  else if (cs CS_HANGUP <=? cs last_state) && (cs state0 <? cs last_state) then Some c
  else if transition_ok last_state state0 then
    let c := c <| state := state0 |> in
    let c := if bool_decide (state0 = CS_HANGUP) && (hangup_cause c =? 0)
             then c <| hangup_cause := SWITCH_CAUSE_NORMAL_CLEARING |> else c in
    Some (act c SignalStateChange)
  else if cs CS_HANGUP <=? cs (state c) then Some c else None.

(** ** Hold and hangup *)

Definition switch_channel_mark_hold c e (on0 : bool) : option switch_channel :=
  c ← (if bool_decide (on0 = has_flag c CF_LEG_HOLDING) then Some c
       else
         c ← (if on0 then switch_channel_set_flag c e CF_LEG_HOLDING else switch_channel_clear_flag c e CF_LEG_HOLDING);
         Some (act c (if on0 then FireHold else FireUnhold)));
  Some (if on0 && var_true e "flip_record_on_hold" && bool_decide (is_Some (partner_uuid e))
        then act c TransferRecordings else c).

Definition switch_channel_set_hangup_time c e : switch_channel :=
  match times c with
  | Some t => if hungup t =? 0 then c <| times := Some (t <| hungup := now e |>) |> else c
  | None => c
  end.

Definition switch_channel_set_bridge_time c e : switch_channel :=
  match times c with Some t => c <| times := Some (t <| bridged := now e |>) |> | None => c end.

(** The part of a hangup that is done once, in a state before CS_HANGUP. *)
Definition hangup_once c e (cause : Z) : switch_channel :=
  let c := match hold_record c with
           | h :: l => if off h =? 0 then c <| hold_record := mk_hold (uuid h) (on h) (now e) :: l |> else c
           | [] => c
           end in
  let c := c <| state := CS_HANGUP |> in
  let c := c <| hangup_cause := cause |> in
  let c := act c (SetVariablePartner "last_bridge_hangup_cause" (switch_channel_cause2str cause)) in
  let c := match getvar e "proto_specific_hangup_cause" with
           | Some v => act c (SetVariablePartner "last_bridge_proto_specific_hangup_cause" v)
           | None => c
           end in
  let c := if has_flag c CF_BRIDGE_ORIGINATOR then act c (SetVariable "last_bridge_role" (Some "originator"))
           else if has_flag c CF_BRIDGED then act c (SetVariable "last_bridge_role" (Some "originatee"))
           else c in
  let c := if negb (session_running e) && negb (session_started e) then act c ThreadLaunch else c in
  let c := act c FireHangup in
  let c := act c KillChannel in
  let c := act c SignalStateChange in
  act c HangupState.

(** The beginning of a hangup, up to the test of the state; the flag says whether
    the rest is done. *)
Definition hangup_begin c e : option (bool * switch_channel) :=
  let ok := negb (test_flag (opaque_flags c) OCF_HANGUP) in
  let c := if ok then c <| opaque_flags := set_flag (opaque_flags c) OCF_HANGUP |> else c in
  c ← (if has_flag c CF_LEG_HOLDING then
         c ← switch_channel_mark_hold c e false;
         switch_channel_set_flag c e CF_HANGUP_HELD
       else Some c);
  if negb ok then Some (false, c)
  else
    c ← switch_channel_clear_flag c e CF_BLOCK_STATE;
    Some (up_nosig c, c).

(** Both parts as one step.  The code does not hold the mutex from the test to the
    assignment of the state; [hangup_test_race] in ChannelTheorems.v puts another thread
    in between.  [HangupState] in the trace is the call of
    switch_core_session_hangup_state, the last thing that is done; StateMachine.v runs it. *)
Definition switch_channel_perform_hangup c e (cause : Z) : option switch_channel :=
  '(go, c) ← hangup_begin c e;
  Some (if go : bool then hangup_once c e cause else c).

(** ** Ringing and answering *)

(** The originator's channel, if it can be found, is given the time too. *)
Definition note_progress c e : switch_channel :=
  match times c with
  | Some t =>
      if progress t =? 0 then
        let c := c <| times := Some (t <| progress := now e |>) |> in
        if originator c then act c (CopyProgress (now e)) else c
      else c
  | None => c
  end.

Definition switch_channel_perform_mark_ring_ready_value c e (rv : Z) : option (switch_status_t * switch_channel) :=
  if negb (has_flag c CF_RING_READY) && negb (has_flag c CF_ANSWERED) then
    c ← switch_channel_set_flag_value c e CF_RING_READY rv;
    let c := note_progress c e in
    let c := act c FireProgress in
    let c := act c (ExecuteOn "execute_on_ring") in
    let c := act c (ApiOn "api_on_ring") in
    let c := switch_channel_perform_set_callstate c CCS_RINGING in
    Some (SWITCH_STATUS_SUCCESS, act c RingEvent)
  else Some (SWITCH_STATUS_FALSE, c).

Definition set_flag_if c e (b : bool) (flag : Z) : option switch_channel :=
  if b then switch_channel_set_flag c e flag else Some c.

(** The originator named by a variable is interrupted in its blocking read. *)
Definition break_originator c e : switch_channel :=
  match getvar e "originator" with
  | Some u => if session_locate e u then act c BreakOriginator else c
  | None => c
  end.

Definition switch_channel_perform_mark_pre_answered c e : option (switch_status_t * switch_channel) :=
  if negb (has_flag c CF_EARLY_MEDIA) && negb (has_flag c CF_ANSWERED) then
    let c := act c CheckDtls in
    c ← switch_channel_set_flag c e CF_EARLY_MEDIA;
    let c := act c (SetVariable "endpoint_disposition" (Some "EARLY MEDIA")) in
    c ← set_flag_if c e (var_true e "video_mirror_input") CF_VIDEO_MIRROR_INPUT;
    let c :=
      match times c with
      | Some t =>
          let c := c <| times := Some (t <| progress_media := now e |>) |> in
          if originator c then act c (CopyProgressMedia (now e)) else c
      | None => c
      end in
    let c := act c FireProgressMedia in
    let c := act c (ExecuteOn "execute_on_pre_answer") in
    let c := act c (ExecuteOn "execute_on_media") in
    let c := act c (ApiOn "api_on_pre_answer") in
    let c := act c (ApiOn "api_on_media") in
    c ← set_flag_if c e (var_true e "passthru_ptime_mismatch") CF_PASSTHRU_PTIME_MISMATCH;
    let c := break_originator c e in
    let c := switch_channel_perform_set_callstate c CCS_EARLY in
    let c := act c ProgressEvent in
    Some (SWITCH_STATUS_SUCCESS, act c CheckAutoadj)
  else Some (SWITCH_STATUS_FALSE, c).

Definition heartbeat_seconds (var : string) : Z :=
  if Text.switch_is_number var then let tmp := Text.atoi var in if tmp >? 0 then tmp else 60
  else if negb (Text.switch_true (Some var)) then 0 else 60.

(** What answering does after the flag is set. *)
Definition answered_actions c e : switch_channel :=
  let c :=
    match getvar e "enable_heartbeat_events" with
    | Some var => let seconds := heartbeat_seconds var in
                  if negb (seconds =? 0) then act c (EnableHeartbeat seconds) else c
    | None => c
    end in
  let c := act c (SetVariable "endpoint_disposition" (Some "ANSWER")) in
  let c := if bool_decide (is_Some (getvar e "absolute_codec_string")) && var_true e "inherit_codec"
           then act c (SetVariable "absolute_codec_string" None) else c in
  let c := act c (ExecuteOn "execute_on_answer") in
  let c := if negb (has_flag c CF_EARLY_MEDIA)
           then act (act c (ExecuteOn "execute_on_media")) (ApiOn "api_on_media") else c in
  let c := act c (ApiOn "api_on_answer") in
  let c := act c (Presence "answered") in
  let c := if negb (has_flag c CF_NO_RECOVER) then act c RecoveryTrack else c in
  let c := switch_channel_perform_set_callstate c CCS_ACTIVE in
  let c := act c AnswerEvent in
  let c := act c CheckAutoadj in
  if has_flag c CF_RTT then act c (SetFlagPartner CF_RTT) else c.

Definition switch_channel_perform_mark_answered c e : option (switch_status_t * switch_channel) :=
  if negb (hangup_cause c =? 0) || (cs CS_HANGUP <=? cs (state c)) then Some (SWITCH_STATUS_FALSE, c)
  else if has_flag c CF_ANSWERED then Some (SWITCH_STATUS_SUCCESS, c)
  else
    let c := act c CheckDtls in
    let c := match times c with Some t => c <| times := Some (t <| answered := now e |>) |> | None => c end in
    c ← switch_channel_set_flag c e CF_ANSWERED;
    c ← set_flag_if c e (var_true e "video_mirror_input") CF_VIDEO_MIRROR_INPUT;
    let c := act c FireAnswer in
    let c := break_originator c e in
    c ← set_flag_if c e (var_true e "passthru_ptime_mismatch") CF_PASSTHRU_PTIME_MISMATCH;
    Some (SWITCH_STATUS_SUCCESS, answered_actions c e).

(** ** State handlers *)

(** The index of the handler, or -1. *)
Definition switch_channel_add_state_handler c (h : option switch_state_handler_table_t) : option (Z * switch_channel) :=
  match list_find (fun x => x = h) (state_handlers c) with
  | Some (x, _) => Some (Z.of_nat x, c)
  | None =>
      let index := state_handler_index c in
      let c := c <| state_handler_index := s32 (state_handler_index c + 1) |> in
      if state_handler_index c >=? Z.of_nat SWITCH_MAX_STATE_HANDLERS then Some (-1, c)
      else if 0 <=? index then Some (index, c <| state_handlers := <[Z.to_nat index := h]> (state_handlers c) |>)
      else None
  end.

Definition switch_channel_get_state_handler c (index : Z) : option (option switch_state_handler_table_t) :=
  if (index >=? Z.of_nat SWITCH_MAX_STATE_HANDLERS) || (index >? state_handler_index c) then Some None
  else if index <? 0 then None
  else state_handlers c !! Z.to_nat index.

(** The handlers that stay. *)
Definition handler_stays (state_handler h : option switch_state_handler_table_t) : bool :=
  match state_handler with
  | Some _ => negb (bool_decide (h = state_handler))
  | None => match h with Some t => sticky t | None => false end
  end.

(** [None] when the loop reads past the end of the array. *)
Definition switch_channel_clear_state_handler c (state_handler : option switch_state_handler_table_t)
  : option switch_channel :=
  if state_handler_index c >? Z.of_nat (length (state_handlers c)) then None
  else
    let kept := filter (fun h => handler_stays state_handler h = true)
                  (take (Z.to_nat (state_handler_index c)) (state_handlers c)) in
    let c := c <| state_handler_index := Z.of_nat (length kept) |> in
    Some (c <| state_handlers := kept ++ replicate (SWITCH_MAX_STATE_HANDLERS - length kept) None |>).

End Channel.
