(* ===== verification/ChannelTheorems.v ===== *)
(** * Properties of channels

    The life cycle of a channel as the state machine of switch_channel.c
    enforces it, hangup, hold accounting, deferred flags and the table of state
    handlers. *)

From S2P Require Import Prelude.
From S2P Require Import ChannelNames Channel.
From stdpp Require Import strings.

#[local] Open Scope string_scope.
#[local] Open Scope list_scope.
#[local] Open Scope Z_scope.

Module ChannelTheorems.
Import ChannelNames Channel.

Implicit Types (c : switch_channel) (e : env).

(** ** Operations that leave the life cycle alone *)

(** State, cause, hangup mark and state handlers are kept, no hangup is announced or
    handled, a call state of CCS_HANGUP stays. *)
Record calm c c' : Prop := {
  q_state : state c' = state c;
  q_cause : hangup_cause c' = hangup_cause c;
  q_opaque : opaque_flags c' = opaque_flags c;
  q_trace : exists l, trace c' = trace c ++ l /\ FireHangup ∉ l /\ HangupState ∉ l;
  q_callstate : callstate c = CCS_HANGUP -> callstate c' = CCS_HANGUP;
  q_flags : length (flags c') = length (flags c);
  q_handlers : state_handlers c' = state_handlers c /\ state_handler_index c' = state_handler_index c;
}.

#[export] Instance calm_refl : Reflexive calm.
Proof. intros c. constructor; try done. exists []. rewrite app_nil_r. by split_and!; [|apply not_elem_of_nil..]. Qed.

#[export] Instance calm_trans : Transitive calm.
Proof.
  intros c1 c2 c3 [A1 A2 A3 (l1 & A4 & A4' & A4'') A5 A6 [A7 A8]] [B1 B2 B3 (l2 & B4 & B4' & B4'') B5 B6 [B7 B8]].
  constructor; try congruence; [|auto|split; congruence]. exists (l1 ++ l2).
  rewrite B4, A4, app_assoc, !not_elem_of_app. done.
Qed.

(** An update of other fields. *)
Lemma calm_update c c1 c2 :
  calm c c1 -> state c2 = state c1 -> hangup_cause c2 = hangup_cause c1 -> opaque_flags c2 = opaque_flags c1 ->
  trace c2 = trace c1 -> (callstate c1 = CCS_HANGUP -> callstate c2 = CCS_HANGUP) ->
  length (flags c2) = length (flags c1) -> state_handlers c2 = state_handlers c1 -> state_handler_index c2 = state_handler_index c1 -> calm c c2.
Proof.
  intros H H1 H2 H3 H4 H5 H6 H7 H8. etransitivity; [exact H|]. constructor; try done.
  exists []. rewrite H4, app_nil_r. by split_and!; [|apply not_elem_of_nil..].
Qed.

Lemma calm_act c c1 a : a <> FireHangup -> a <> HangupState -> calm c c1 -> calm c (act c1 a).
Proof.
  intros Ha Hb H. etransitivity; [exact H|]. constructor; try done. exists [a]. rewrite !list_elem_of_singleton. by split_and!.
Qed.

Lemma calm_if (b : bool) c c1 c2 : calm c c1 -> calm c c2 -> calm c (if b then c1 else c2).
Proof. by destruct b. Qed.

(** One step of a chain of updates, conditionals and actions. *)
Ltac calm_step :=
  lazymatch goal with
  | |- calm ?c ?c => reflexivity
  | H : calm ?c ?c1 |- calm ?c ?c1 => exact H
  | |- calm _ (if _ then _ else _) => apply calm_if
  | |- calm _ (act _ _) => apply calm_act; [discriminate|discriminate|]
  | |- calm ?c (setter _ ?c1) =>
      apply (calm_update c c1);
        [|reflexivity|reflexivity|reflexivity|reflexivity|intros Hq; exact Hq|cbn; by rewrite ?length_insert|reflexivity|reflexivity]
  | |- calm _ (match ?x with _ => _ end) => destruct x
  end.

(** The steps of a function body: local definitions become opaque channels that
    are calm, binds are split. *)
Ltac calm_let c0 tac :=
  lazymatch goal with
  | |- (let x := ?t in @?K x) = ?r -> ?G =>
      lazymatch type of t with
      | switch_channel =>
          let y := fresh "c" in
          pose (y := t); change (K y = r -> G); cbv beta;
          assert (calm c0 y) by (unfold y; repeat (calm_step || tac)); clearbody y
      | _ => let y := fresh "x" in pose (y := t); change (K y = r -> G); cbv beta; clearbody y
      end
  end.

Lemma calm_callstate c c1 s : calm c c1 -> calm c (switch_channel_perform_set_callstate c1 s).
Proof.
  intros Hc. unfold switch_channel_perform_set_callstate. cbv zeta.
  destruct (bool_decide (callstate c1 = s) || bool_decide (callstate c1 = CCS_HANGUP)) eqn:E; [done|].
  apply orb_false_iff in E as [_ E]. apply bool_decide_eq_false in E.
  repeat (apply calm_act; [discriminate|discriminate|]). etransitivity; [exact Hc|].
  assert (calm c1 (c1 <| callstate := s |>)) as H1 by (apply (calm_update c1 c1); done).
  set (c2 := c1 <| callstate := s |>) in *. clearbody c2. repeat calm_step.
Qed.

Lemma calm_device c c1 d : calm c c1 -> calm c (set_device_direction c1 d).
Proof. intros H. unfold set_device_direction. repeat calm_step. Qed.

Ltac calm_call := first [apply calm_callstate|apply calm_device].

Lemma calm_begin_hold c c1 e c' : calm c c1 -> begin_hold c1 e = Some c' -> calm c c'.
Proof.
  intros Hc. cbv beta delta [begin_hold]. calm_let c calm_call. destruct (times c0) as [t|]; [|done].
  cbv beta iota delta [mbind option_bind]. calm_let c calm_call. intros [= <-]. repeat calm_step.
Qed.

Lemma calm_set_flag_value c c1 e f v c' :
  calm c c1 -> switch_channel_set_flag_value c1 e f v = Some c' -> calm c c'.
Proof.
  intros Hc. cbv beta delta [switch_channel_set_flag_value]. repeat calm_let c calm_call.
  set (m := if x then _ else _). destruct m as [c6|] eqn:Em; [|done].
  assert (calm c c6) by (unfold m in Em; destruct x; [by eapply calm_begin_hold|congruence]).
  clear Em m. cbv beta iota delta [mbind option_bind]. repeat calm_let c calm_call. intros [= <-]. repeat calm_step.
Qed.

Lemma calm_end_hold c c1 e c' : calm c c1 -> end_hold c1 e = Some c' -> calm c c'.
Proof.
  intros Hc. cbv beta delta [end_hold]. calm_let c calm_call. destruct (times c0) as [t|]; [|done].
  cbv beta iota delta [mbind option_bind]. repeat calm_let c calm_call. intros [= <-]. repeat (calm_step || calm_call).
Qed.

Lemma calm_clear_flag c c1 e f c' : calm c c1 -> switch_channel_clear_flag c1 e f = Some c' -> calm c c'.
Proof.
  intros Hc. cbv beta delta [switch_channel_clear_flag]. repeat calm_let c calm_call.
  set (m := if x then _ else _). destruct m as [c6|] eqn:Em; [|done].
  assert (calm c c6) by (unfold m in Em; destruct x; [by eapply calm_end_hold|congruence]).
  clear Em m. cbv beta iota delta [mbind option_bind]. repeat calm_let c calm_call. intros [= <-]. repeat calm_step.
Qed.

(** Splitting the first bind of a function body; [tac] shows the bound channel
    calm. *)
Ltac calm_bind tac :=
  lazymatch goal with
  | |- (?m ≫= _) = _ -> calm ?c _ =>
      let y := fresh "c" in let E := fresh "E" in
      destruct m as [y|] eqn:E; [|done]; cbv beta iota delta [mbind option_bind];
      assert (calm c y); [revert E; tac|clear E]
  | |- match ?m with Some _ => _ | None => None end = _ -> calm ?c _ =>
      let y := fresh "c" in let E := fresh "E" in
      destruct m as [y|] eqn:E; [|done]; assert (calm c y); [revert E; tac|clear E]
  end.

Lemma calm_set_flag_if c c1 e b f c' : calm c c1 -> set_flag_if c1 e b f = Some c' -> calm c c'.
Proof. intros H. unfold set_flag_if. destruct b; [by apply calm_set_flag_value|by intros [= <-]]. Qed.

Lemma calm_mark_hold c c1 e b c' : calm c c1 -> switch_channel_mark_hold c1 e b = Some c' -> calm c c'.
Proof.
  intros Hc. cbv beta delta [switch_channel_mark_hold]. calm_bind idtac.
  - destruct (bool_decide _); [by intros [= <-]|].
    calm_bind ltac:(destruct b; [by apply calm_set_flag_value|by apply calm_clear_flag]).
    intros [= <-]. apply calm_act; [by destruct b|by destruct b|done].
  - intros [= <-]. repeat calm_step.
Qed.

Lemma calm_progress c c1 e : calm c c1 -> calm c (note_progress c1 e).
Proof. intros Hc. unfold note_progress. repeat calm_step. Qed.

Lemma calm_break c c1 e : calm c c1 -> calm c (break_originator c1 e).
Proof. intros Hc. unfold break_originator. repeat calm_step. Qed.

Ltac calm_call ::= first [apply calm_callstate|apply calm_device|apply calm_progress|apply calm_break].

Lemma calm_ring c e rv st c' :
  switch_channel_perform_mark_ring_ready_value c e rv = Some (st, c') -> calm c c'.
Proof.
  cbv beta delta [switch_channel_perform_mark_ring_ready_value].
  destruct (_ && _); [|by intros [= _ <-]]. assert (calm c c) by reflexivity.
  calm_bind ltac:(by apply calm_set_flag_value). repeat calm_let c calm_call. intros [= _ <-]. repeat calm_step.
Qed.

Lemma calm_pre_answer c e st c' : switch_channel_perform_mark_pre_answered c e = Some (st, c') -> calm c c'.
Proof.
  cbv beta delta [switch_channel_perform_mark_pre_answered].
  destruct (_ && _); [|by intros [= _ <-]]. assert (calm c c) by reflexivity.
  repeat calm_let c calm_call. calm_bind ltac:(by apply calm_set_flag_value).
  repeat calm_let c calm_call. calm_bind ltac:(by apply calm_set_flag_if).
  repeat calm_let c calm_call. calm_bind ltac:(by apply calm_set_flag_if).
  repeat calm_let c calm_call. intros [= _ <-]. repeat calm_step.
Qed.

Lemma calm_answered_actions c c1 e : calm c c1 -> calm c (answered_actions c1 e).
Proof.
  intros Hc. remember (answered_actions c1 e) as c' eqn:E. symmetry in E. revert E.
  cbv beta delta [answered_actions]. repeat calm_let c calm_call. intros <-. repeat calm_step.
Qed.

Lemma calm_answer c e st c' : switch_channel_perform_mark_answered c e = Some (st, c') -> calm c c'.
Proof.
  cbv beta delta [switch_channel_perform_mark_answered].
  destruct (_ || _); [by intros [= _ <-]|]. destruct (has_flag c CF_ANSWERED); [by intros [= _ <-]|].
  assert (calm c c) by reflexivity. repeat calm_let c calm_call.
  calm_bind ltac:(by apply calm_set_flag_value). calm_bind ltac:(by apply calm_set_flag_if).
  repeat calm_let c calm_call. calm_bind ltac:(by apply calm_set_flag_if).
  intros [= _ <-]. by apply calm_answered_actions.
Qed.

Lemma take_state_flags_length l f sf :
  length (take_state_flags l f sf).1 = length f /\ length (take_state_flags l f sf).2 = length sf.
Proof.
  unfold take_state_flags. revert f sf. induction l as [|x l IH]; intros f sf; cbn [foldl]; [done|].
  destruct (negb _); [|apply IH]. destruct (IH (<[x:=1]> f) (<[x:=0]> sf)) as [-> ->]. by rewrite !length_insert.
Qed.

Lemma calm_running_state c e s c' : switch_channel_perform_set_running_state c e s = Some c' -> calm c c'.
Proof.
  cbv beta delta [switch_channel_perform_set_running_state]. assert (calm c c) by reflexivity.
  assert (calm c (if negb (flag_at (state_flags c) 0 =? 0)
    then let '(f, sf) := take_state_flags (seq 1 (Z.to_nat CF_FLAG_MAX - 1)) (flags c) (state_flags c) in
         c <| flags := f |> <| state_flags := <[0%nat := 0]> sf |> else c)) as H0.
  { destruct (negb _); [|done]. destruct (take_state_flags_length (seq 1 (Z.to_nat CF_FLAG_MAX - 1)) (flags c) (state_flags c)) as [HL _].
    destruct (take_state_flags _ _ _) as [f sf]. apply (calm_update c c); done. }
  calm_let c ltac:(exact H0). calm_bind ltac:(by apply calm_clear_flag). repeat calm_let c calm_call.
  destruct (_ <=? _); [|by intros [= <-]]. repeat calm_let c calm_call. intros [= <-]. repeat calm_step.
Qed.

(** ** The state machine *)

Fixpoint set_states c (ss : list switch_channel_state_t) : option switch_channel :=
  match ss with
  | [] => Some c
  | s :: ss => c ← switch_channel_perform_set_state c s; set_states c ss
  end.

Lemma set_state_forward c s c' :
  switch_channel_perform_set_state c s = Some c' -> cs CS_HANGUP <= cs (state c) -> cs (state c) <= cs (state c').
Proof.
  unfold switch_channel_perform_set_state. destruct (_ || _); [done|]. case_bool_decide; [by intros [= <-]|].
  intros E Hh. rewrite (proj2 (Z.leb_le _ _) Hh) in E. cbn [andb] in E.
  destruct (Z.ltb_spec (cs s) (cs (state c))); [by simplify_eq|]. destruct (transition_ok _ _); simplify_eq; [|done].
  by destruct (_ && _).
Qed.

Lemma set_state_to c s :
  cs (state c) <= cs CS_DESTROY -> cs s <= cs CS_DESTROY -> transition_ok (state c) s = true \/ state c = s ->
  (cs CS_HANGUP <= cs (state c) -> cs (state c) <= cs s) ->
  exists c', switch_channel_perform_set_state c s = Some c' /\ state c' = s.
Proof.
  intros H1 H2 Ht Hd. unfold switch_channel_perform_set_state.
  rewrite (proj2 (Z.leb_le _ _) H1), (proj2 (Z.leb_le _ _) H2). cbn [negb orb].
  case_bool_decide; [by exists c|]. destruct Ht as [Ht|]; [|done]. rewrite Ht.
  destruct (Z.leb_spec (cs CS_HANGUP) (cs (state c))) as [E|E]; cbn [andb].
  - rewrite (proj2 (Z.ltb_ge _ _)) by auto. eexists. split; [reflexivity|]. by destruct (_ && _).
  - eexists. split; [reflexivity|]. by destruct (_ && _).
Qed.

Lemma transition_reset s : cs s < cs CS_HANGUP -> transition_ok s CS_RESET = true.
Proof. by destruct s. Qed.

Lemma transition_down s s' :
  cs CS_HANGUP <= cs s -> cs s <= cs s' -> cs s' <= cs CS_DESTROY -> transition_ok s s' = true \/ s = s'.
Proof. destruct s, s'; cbv; intros; try done; auto. Qed.

(** Which changes of state are open, in words: a new channel and one being reset may go anywhere; among the states in which
    a channel is at work, CS_ROUTING to CS_RESET, and from CS_INIT into them, every change is open; a hibernating
    channel may be initialised again; and a channel that is hung up may only go on to a later state. *)
Definition at_work (s : switch_channel_state_t) : Prop := cs CS_ROUTING <= cs s <= cs CS_RESET.

Inductive may_go : switch_channel_state_t -> switch_channel_state_t -> Prop :=
  | go_open s s' : s = CS_NEW \/ s = CS_RESET -> may_go s s'
  | go_work s s' : s = CS_INIT \/ at_work s -> at_work s' -> may_go s s'
  | go_wake : may_go CS_HIBERNATE CS_INIT
  | go_down s s' : cs CS_HANGUP <= cs s < cs s' -> may_go s s'.

Lemma transition_may s s' : s <> s' -> cs s <= cs CS_DESTROY -> cs s' <= cs CS_DESTROY -> transition_ok s s' = true <-> may_go s s'.
Proof.
  intros Hne H1 H2. split.
  - intros Ht. destruct (decide (s = CS_NEW \/ s = CS_RESET)) as [|Ho]; [by apply go_open|].
    destruct (Z.lt_ge_cases (cs s) (cs CS_HANGUP)).
    + destruct (decide (s = CS_HIBERNATE /\ s' = CS_INIT)) as [[-> ->]|Hw]; [apply go_wake|].
      apply go_work; unfold at_work; destruct s; try (by naive_solver); try done; destruct s'; try done; try (by cbv; naive_solver); naive_solver.
    + apply go_down. destruct s, s'; done.
  - destruct 1 as [t t' [-> | ->]|t t' [-> |Hw] Hw'| |t t' Hd]; try done; unfold at_work in *;
      [destruct t'; try done; vm_compute in Hw'; tauto|destruct t, t'; try done; vm_compute in Hw, Hw'; intuition congruence|destruct t, t'; try done; vm_compute in Hd; intuition congruence].
Qed.

Lemma may_go_forward s s' : may_go s s' -> cs CS_HANGUP <= cs s -> cs s <= cs s'.
Proof.
  destruct 1 as [t t' [-> | ->]|t t' [-> |Hw] _| |t t' Hd]; intros Hh; try (by vm_compute in Hh); [|lia]. unfold at_work in Hw. change (cs CS_RESET) with 9 in Hw. change (cs CS_HANGUP) with 10 in Hh. lia.
Qed.

(** C29. What a request for a state does and where requests can lead.  A request for the state a channel is in does nothing.  A
    request for another state is followed exactly if the change is one of those described; otherwise it is ignored
    if the channel is hung up and an assertion fails if it is not.  So from a channel that is not hung up
    some sequence of requests leads to every state, from one that is, exactly to the later
    states. *)
Theorem set_state_reachability c s :
  cs (state c) <= cs CS_DESTROY -> cs s <= cs CS_DESTROY ->
  (state c = s -> switch_channel_perform_set_state c s = Some c)
  /\ (state c <> s -> may_go (state c) s -> exists c', switch_channel_perform_set_state c s = Some c' /\ state c' = s)
  /\ (state c <> s -> ~ may_go (state c) s -> switch_channel_perform_set_state c s = if decide (cs CS_HANGUP <= cs (state c)) then Some c else None)
  /\ ((exists ss c', set_states c ss = Some c' /\ state c' = s)
     <-> cs (state c) < cs CS_HANGUP \/ cs (state c) <= cs s).
Proof.
  intros H1 H2. split_and!.
  - intros E. unfold switch_channel_perform_set_state. rewrite (proj2 (Z.leb_le _ _) H1), (proj2 (Z.leb_le _ _) H2). cbn [negb orb]. by rewrite bool_decide_true.
  - intros Hne Hm. assert (transition_ok (state c) s = true) as Ht by (by apply transition_may). apply set_state_to; [done|done|by left|].
    intros Hh. by apply may_go_forward.
  - intros Hne Hm. assert (transition_ok (state c) s = false) as Ht.
    { destruct (transition_ok (state c) s) eqn:E; [|done]. destruct Hm. by apply transition_may. }
    unfold switch_channel_perform_set_state. rewrite (proj2 (Z.leb_le _ _) H1), (proj2 (Z.leb_le _ _) H2), Ht. cbn [negb orb]. rewrite bool_decide_false by done.
    destruct (decide (cs CS_HANGUP <= cs (state c))) as [Hh|Hh]; [rewrite (proj2 (Z.leb_le _ _) Hh); by destruct (_ && _)|]. by rewrite (proj2 (Z.leb_gt _ _)) by lia.
  - split.
    + intros (ss & c' & E & <-). destruct (Z.lt_ge_cases (cs (state c)) (cs CS_HANGUP)) as [|Hh]; [by left|right].
      clear -E Hh. revert c E Hh. induction ss as [|s ss IH]; intros c E Hh; cbn [set_states] in E; [by simplify_eq|].
      destruct (switch_channel_perform_set_state c s) as [c1|] eqn:E1; [|done]. cbn in E.
      pose proof (set_state_forward _ _ _ E1 Hh). specialize (IH c1 E). lia.
    + intros Hr. destruct (Z.lt_ge_cases (cs (state c)) (cs CS_HANGUP)) as [Hh|Hh].
      * destruct (set_state_to c CS_RESET) as (c1 & E1 & S1); [done|done|left; by apply transition_reset|lia|].
        destruct (set_state_to c1 s) as (c2 & E2 & S2); rewrite ?S1; [done|done|by left|done|].
        exists [CS_RESET; s], c2. cbn [set_states]. rewrite E1. cbn. by rewrite E2.
      * destruct (set_state_to c s) as (c1 & E1 & S1); [done|done|apply transition_down; lia|lia|].
        exists [s], c1. cbn [set_states]. by rewrite E1.
Qed.

Lemma set_state_cases c s c' :
  switch_channel_perform_set_state c s = Some c' ->
  c' = c \/ (transition_ok (state c) s = true /\ state c' = s /\ opaque_flags c' = opaque_flags c
            /\ trace c' = trace c ++ [SignalStateChange] /\ callstate c' = callstate c
            /\ (cs CS_HANGUP <= cs (state c) -> cs (state c) <= cs s /\ hangup_cause c' = hangup_cause c)
            /\ flags c' = flags c).
Proof.
  unfold switch_channel_perform_set_state. destruct (_ || _); [done|]. case_bool_decide; [by intros [= <-]; left|].
  destruct (_ && _) eqn:E1; [by intros [= <-]; left|]. destruct (transition_ok _ _) eqn:Et.
  - intros [= <-]. right. rewrite andb_false_iff, Z.leb_gt, Z.ltb_ge in E1.
    assert (cs CS_HANGUP <= cs (state c) -> s <> CS_HANGUP) as Hs.
    { intros Hh ->. destruct (state c); done. }
    case_bool_decide as Eh; cbn [andb]; [destruct (_ =? _)|]; split_and!; try done; intros Hh; split; lia || done || (by destruct (Hs Hh)).
  - destruct (_ <=? _); [by intros [= <-]; left|done].
Qed.

(** ** Runs *)

Inductive channel_op :=
  | OpSetState (s : switch_channel_state_t)
  | OpRunning (s : switch_channel_state_t)
  | OpHangup (cause : Z)
  | OpSetFlag (flag value : Z)
  | OpClearFlag (flag : Z)
  | OpMarkHold (on0 : bool)
  | OpRing (rv : Z)
  | OpPreAnswer
  | OpAnswer.

Definition channel_step c (oe : channel_op * env) : option switch_channel :=
  let e := oe.2 in
  match oe.1 with
  | OpSetState s => switch_channel_perform_set_state c s
  | OpRunning s => switch_channel_perform_set_running_state c e s
  | OpHangup cause => switch_channel_perform_hangup c e cause
  | OpSetFlag flag value => switch_channel_set_flag_value c e flag value
  | OpClearFlag flag => switch_channel_clear_flag c e flag
  | OpMarkHold on0 => switch_channel_mark_hold c e on0
  | OpRing rv => '(_, c) ← switch_channel_perform_mark_ring_ready_value c e rv; Some c
  | OpPreAnswer => '(_, c) ← switch_channel_perform_mark_pre_answered c e; Some c
  | OpAnswer => '(_, c) ← switch_channel_perform_mark_answered c e; Some c
  end.

Fixpoint channel_run c (ops : list (channel_op * env)) : option switch_channel :=
  match ops with
  | [] => Some c
  | o :: ops => c ← channel_step c o; channel_run c ops
  end.

Lemma step_calm c o e c' :
  channel_step c (o, e) = Some c' -> (forall s, o <> OpSetState s) -> (forall cause, o <> OpHangup cause) -> calm c c'.
Proof.
  intros E H1 H2. destruct o; cbn [channel_step fst snd] in E; try (by destruct (H1 s)); try (by destruct (H2 cause)).
  - by eapply calm_running_state.
  - by eapply calm_set_flag_value.
  - by eapply calm_clear_flag.
  - by eapply calm_mark_hold.
  - destruct (switch_channel_perform_mark_ring_ready_value c e rv) as [[st c0]|] eqn:Er; [|done].
    injection E as <-. by eapply calm_ring.
  - destruct (switch_channel_perform_mark_pre_answered c e) as [[st c0]|] eqn:Er; [|done].
    injection E as <-. by eapply calm_pre_answer.
  - destruct (switch_channel_perform_mark_answered c e) as [[st c0]|] eqn:Er; [|done].
    injection E as <-. by eapply calm_answer.
Qed.

(** The beginning of a hangup marks the channel and is otherwise calm. *)
Lemma hangup_begin_cases c e go c1 (ok := negb (test_flag (opaque_flags c) OCF_HANGUP)) :
  hangup_begin c e = Some (go, c1) ->
  calm (if ok then c <| opaque_flags := set_flag (opaque_flags c) OCF_HANGUP |> else c) c1 /\ go = ok && up_nosig c.
Proof.
  cbv beta delta [hangup_begin]. fold ok. clearbody ok.
  lazymatch goal with |- (let x := ?t in @?K x) = ?r -> ?G => change (K t = r -> G); cbv beta end.
  lazymatch goal with |- (let x := ?t in @?K x) = ?r -> ?G => pose (c0 := t); change (K c0 = r -> calm c0 c1 /\ go = ok && up_nosig c); cbv beta end.
  assert (up_nosig c0 = up_nosig c) as <- by (unfold c0; by destruct ok).
  clearbody c0. assert (calm c0 c0) as HR by reflexivity.
  set (m := if has_flag c0 CF_LEG_HOLDING then _ else _). destruct m as [c2|] eqn:Em; [|done].
  assert (calm c0 c2) as H1.
  { unfold m in Em. destruct (has_flag c0 CF_LEG_HOLDING); [|by injection Em as <-].
    destruct (switch_channel_mark_hold c0 e false) as [c3|] eqn:E3; [|done].
    change (switch_channel_set_flag_value c3 e CF_HANGUP_HELD 1 = Some c2) in Em.
    eapply calm_set_flag_value; [eapply calm_mark_hold; [done|exact E3]|exact Em]. }
  clear Em m. cbv beta iota delta [mbind option_bind]. destruct ok; cbn [negb andb].
  2: { intros [= <- <-]. done. }
  destruct (switch_channel_clear_flag c2 e CF_BLOCK_STATE) as [c3|] eqn:E3; [|done].
  pose proof (calm_clear_flag _ _ _ _ _ H1 E3) as H2. intros [= <- <-]. split; [done|].
  unfold up_nosig. by rewrite (q_state _ _ H2).
Qed.

Lemma hangup_cases c e cause c' (ok := negb (test_flag (opaque_flags c) OCF_HANGUP)) :
  switch_channel_perform_hangup c e cause = Some c' ->
  exists c0 c1, c0 = (if ok then c <| opaque_flags := set_flag (opaque_flags c) OCF_HANGUP |> else c)
    /\ calm c0 c1
    /\ c' = (if ok && up_nosig c then hangup_once c1 e cause else c1).
Proof.
  unfold switch_channel_perform_hangup. destruct (hangup_begin c e) as [[go c1]|] eqn:E; [|done]. intros [= <-].
  apply hangup_begin_cases in E as [Hc ->]. eauto.
Qed.

Definition is_hangup (a : action) : bool := match a with FireHangup => true | _ => false end.

(** The number of hangups announced. *)
Definition hangups (l : list action) : Z := count is_hangup l.

Lemma hangups_app l1 l2 : hangups (l1 ++ l2) = hangups l1 + hangups l2.
Proof. unfold hangups. induction l1 as [|a l IH]; [done|]. cbn [app]. rewrite !count_cons, IH. lia. Qed.

Lemma hangups_none l : FireHangup ∉ l -> hangups l = 0.
Proof.
  induction l as [|a l IH]; [done|]. rewrite not_elem_of_cons. intros [Ha Hl]. unfold hangups in *.
  rewrite count_cons, IH by done. by destruct a.
Qed.

(** Hung up with the cause, [n] hangups announced on the way. *)
Record hung (n cause : Z) c c' : Prop := {
  h_state : state c' = CS_HANGUP;
  h_cause : hangup_cause c' = cause;
  h_opaque : opaque_flags c' = opaque_flags c;
  h_trace : hangups (trace c') = hangups (trace c) + n;
}.

Lemma hung_act n cause c c1 a : hung n cause c c1 -> hung (n + Z.b2z (is_hangup a)) cause c (act c1 a).
Proof.
  intros [H1 H2 H3 H4]. constructor; try done. change (trace (act c1 a)) with (trace c1 ++ [a]).
  assert (hangups [a] = Z.b2z (is_hangup a)) as Ha by (unfold hangups; rewrite count_cons; apply Z.add_0_r).
  rewrite hangups_app, H4, Ha. lia.
Qed.

Lemma hung_if (b : bool) n cause c c1 a :
  is_hangup a = false -> hung n cause c c1 -> hung n cause c (if b then act c1 a else c1).
Proof. intros Ha H. destruct b; [|done]. pose proof (hung_act _ _ _ _ a H) as H'. by rewrite Ha, Z.add_0_r in H'. Qed.

Lemma hangup_once_hung c e cause : hung 1 cause c (hangup_once c e cause).
Proof.
  unfold hangup_once. set (c1 := match hold_record c with [] => c | _ :: _ => _ end).
  assert (opaque_flags c1 = opaque_flags c /\ trace c1 = trace c) as [E1 E2].
  { unfold c1. destruct (hold_record c) as [|h l]; [done|]. by destruct (off h =? 0). }
  clearbody c1. set (c2 := c1 <| state := _ |> <| hangup_cause := _ |>).
  assert (hung 0 cause c c2) as H2 by (constructor; [done|done|exact E1|change (trace c2) with (trace c1); rewrite E2; lia]). clearbody c2. clear E1 E2 c1.
  assert (forall c3 a, hung 0 cause c c3 -> is_hangup a = false -> hung 0 cause c (act c3 a)) as HA.
  { intros c3 a H3 Ha. pose proof (hung_act _ _ _ _ a H3) as H'. by rewrite Ha in H'. }
  set (c3 := act c2 _). assert (hung 0 cause c c3) as H3 by (by apply HA). clearbody c3.
  set (c4 := match getvar e _ with Some _ => _ | None => _ end).
  assert (hung 0 cause c c4) as H4 by (unfold c4; destruct (getvar e _); [by apply HA|done]). clearbody c4.
  set (c5 := if has_flag c4 _ then _ else _).
  assert (hung 0 cause c c5) as H5 by (unfold c5; destruct (has_flag c4 _); [by apply HA|by apply hung_if]). clearbody c5.
  set (c6 := if negb _ && _ then _ else c5). assert (hung 0 cause c c6) as H6 by (by apply hung_if). clearbody c6.
  exact (hung_act _ _ _ _ HangupState (hung_act _ _ _ _ SignalStateChange (hung_act _ _ _ _ KillChannel (hung_act _ _ _ _ FireHangup H6)))).
Qed.

(** ** Life cycle *)

Lemma calm_hangups c c' : calm c c' -> hangups (trace c') = hangups (trace c).
Proof. intros [_ _ _ (l & -> & Hl & _) _ _ _]. rewrite hangups_app, (hangups_none l) by done. lia. Qed.

(** The part of a step that matters for the life cycle. *)
Record advances c c' : Prop := {
  a_final : cs CS_HANGUP <= cs (state c) -> cs (state c) <= cs (state c') /\ hangup_cause c' = hangup_cause c;
  a_mark : test_flag (opaque_flags c) OCF_HANGUP = true -> test_flag (opaque_flags c') OCF_HANGUP = true;
  a_once : hangups (trace c') <= hangups (trace c)
           \/ hangups (trace c') = hangups (trace c) + 1 /\ test_flag (opaque_flags c) OCF_HANGUP = false
              /\ test_flag (opaque_flags c') OCF_HANGUP = true /\ cs (state c) < cs CS_HANGUP /\ state c' = CS_HANGUP;
}.

Lemma step_advances c o c' : channel_step c o = Some c' -> advances c c'.
Proof.
  destruct o as [o e]. intros E.
  assert (forall c', calm c c' -> advances c c') as HC.
  { intros c1 HQ. pose proof (calm_hangups _ _ HQ). destruct HQ as [Q1 Q2 Q3 _ _ _ _].
    constructor; [|congruence|left; lia]. intros _. split; [|done]. rewrite Q1. lia. }
  assert ((exists s, o = OpSetState s) \/ (exists cause, o = OpHangup cause)
    \/ ((forall s, o <> OpSetState s) /\ forall cause, o <> OpHangup cause)) as [[s ->]|[[cause ->]|[N1 N2]]].
  { destruct o; try (right; right; by split); eauto. }
  - cbn in E. apply set_state_cases in E as [->|(_ & E1 & E2 & E3 & _ & E5 & _)]; [by apply HC|].
    constructor; [intros Hh; rewrite E1; by apply E5|congruence|left]. rewrite E3, hangups_app.
    change (hangups [SignalStateChange]) with 0. lia.
  - cbn in E. apply hangup_cases in E as (c0 & c1 & E0 & HQ & ->).
    destruct (test_flag (opaque_flags c) OCF_HANGUP) eqn:Em; cbn [negb andb] in *; [subst c0; by apply HC|].
    pose proof (calm_hangups _ _ HQ) as Ht. destruct HQ as [Q1 Q2 Q3 _ _ _ _].
    assert (state c0 = state c /\ hangup_cause c0 = hangup_cause c /\ trace c0 = trace c
      /\ opaque_flags c0 = set_flag (opaque_flags c) OCF_HANGUP) as (S1 & S2 & S3 & S4) by (by rewrite E0).
    assert (test_flag (opaque_flags c1) OCF_HANGUP = true) as Hm by (by rewrite Q3, S4, test_set_flag).
    rewrite S3 in Ht. unfold up_nosig. destruct (Z.ltb_spec (cs (state c)) (cs CS_HANGUP)) as [Hlt|Hge].
    + pose proof (hangup_once_hung c1 e cause) as [H1 H2 H3 H4].
      constructor; [lia|congruence|right]. rewrite H1, H3, H4. split_and!; try done. lia.
    + constructor; [|done|left; lia]. intros _. rewrite Q1, Q2, S1, S2. split; [lia|done].
  - apply HC. by eapply step_calm.
Qed.

Lemma run_advances ops c c' :
  channel_run c ops = Some c' ->
  (cs CS_HANGUP <= cs (state c) -> cs (state c) <= cs (state c') /\ hangup_cause c' = hangup_cause c)
  /\ (test_flag (opaque_flags c) OCF_HANGUP = true -> hangups (trace c') <= hangups (trace c))
  /\ hangups (trace c') <= hangups (trace c) + 1
  /\ (hangups (trace c') = hangups (trace c) + 1 -> cs CS_HANGUP <= cs (state c')).
Proof.
  revert c. induction ops as [|o ops IH]; intros c.
  { intros [= <-]. split_and!; intros; lia || done. }
  cbn [channel_run]. destruct (channel_step c o) as [c1|] eqn:E1; [|done]. cbn [mbind option_bind]. intros Hr.
  apply step_advances in E1 as [F1 M1 O1]. apply IH in Hr as (F2 & M2 & O2 & S2). split_and!.
  - intros Hh. destruct (F1 Hh) as [L1 C1]. destruct F2 as [L2 C2]; [lia|]. split; [lia|congruence].
  - intros Hm. specialize (M2 (M1 Hm)). destruct O1 as [|(_ & ? & _)]; [lia|congruence].
  - destruct O1 as [|(H1 & _ & H3 & _)]; [lia|]. specialize (M2 H3). lia.
  - intros Hn. destruct O1 as [|(H1 & _ & H3 & _ & H5)].
    + apply S2. lia.
    + destruct F2 as [L2 _]; rewrite H5 in *; lia.
Qed.

(** ** What a step leaves alone *)

(** Did the operation call switch_core_session_hangup_state. *)
Definition calls_hangup_state c c' : bool :=
  existsb (fun a => match a with HangupState => true | _ => false end) (drop (length (trace c)) (trace c')).

Lemma hangup_once_rest c e cause (c' := hangup_once c e cause) :
  state_handlers c' = state_handlers c /\ state_handler_index c' = state_handler_index c.
Proof.
  unfold c', hangup_once. cbv zeta. set (c1 := match hold_record c with [] => c | _ :: _ => _ end).
  assert (state_handlers c1 = state_handlers c /\ state_handler_index c1 = state_handler_index c) as [<- <-].
  { unfold c1. destruct (hold_record c) as [|h l]; [done|]. by destruct (off h =? 0). }
  clearbody c1. set (c2 := match getvar e _ with Some _ => _ | None => _ end).
  assert (state_handlers c2 = state_handlers c1 /\ state_handler_index c2 = state_handler_index c1) as [<- <-]
    by (unfold c2; by destruct (getvar e _)).
  clearbody c2. destruct (has_flag c2 _); [|destruct (has_flag c2 _)]; by destruct (negb _ && _).
Qed.

(** The operations of [channel_op] keep the table of state handlers. *)
Lemma step_handlers c o c' : channel_step c o = Some c' -> state_handlers c' = state_handlers c /\ state_handler_index c' = state_handler_index c.
Proof.
  destruct o as [o e]. intros E.
  destruct o; try (apply step_calm in E; [by destruct E|done|done]); cbn in E.
  - revert E. unfold switch_channel_perform_set_state. destruct (_ || _); [done|]. case_bool_decide; [by intros [= <-]|].
    destruct (_ && _); [by intros [= <-]|]. destruct (transition_ok _ _); [|destruct (_ <=? _); [by intros [= <-]|done]].
    intros [= <-]. by destruct (_ && _).
  - apply hangup_cases in E as (c0 & c1 & E0 & [_ _ _ _ _ _ [H1 H2]] & ->).
    assert (state_handlers c0 = state_handlers c /\ state_handler_index c0 = state_handler_index c) as [F1 F2] by (rewrite E0; by destruct (negb _)).
    destruct (_ && _); [|split; congruence]. destruct (hangup_once_rest c1 e cause) as [G1 G2]. split; congruence.
Qed.

Lemma not_called c c' l : trace c' = trace c ++ l -> HangupState ∉ l -> calls_hangup_state c c' = false.
Proof.
  intros E Hl. unfold calls_hangup_state. rewrite E, drop_app_length. apply not_true_iff_false.
  intros (a & Ha & Hb)%existsb_exists. apply Hl. apply list_elem_of_In. by destruct a.
Qed.

(** The hangup handlers are asked for only when a channel that was up gets hung up. *)
Lemma step_calls c o c' : channel_step c o = Some c' -> calls_hangup_state c c' = true -> cs (state c) < cs CS_HANGUP /\ state c' = CS_HANGUP.
Proof.
  destruct o as [o e]. intros E Hc.
  assert (calm c c' -> False) as HN by (intros [_ _ _ (l & T & _ & Hl) _ _ _]; rewrite (not_called _ _ _ T Hl) in Hc; done).
  destruct o; try (by apply step_calm in E; [destruct (HN E)|..]); cbn in E.
  - apply set_state_cases in E as [->|(_ & _ & _ & E3 & _)]; [by destruct HN|]. exfalso.
    rewrite (not_called _ _ _ E3) in Hc; [done|]. by rewrite list_elem_of_singleton.
  - apply hangup_cases in E as (c0 & c1 & E0 & HQ & ->).
    destruct (negb _ && up_nosig c) eqn:Eu.
    + apply andb_true_iff in Eu as [_ Eu]. split; [by apply Z.ltb_lt|]. apply (h_state _ _ _ _ (hangup_once_hung c1 e cause)).
    + exfalso. destruct HQ as [_ _ _ (l & T & _ & Hl) _ _ _]. assert (trace c0 = trace c) as E1 by (rewrite E0; by destruct (negb _)).
      rewrite E1 in T. rewrite (not_called _ _ _ T Hl) in Hc. done.
Qed.

(** C4. Hangup is final.  Once a channel is in CS_HANGUP or later, no sequence of
    operations of any thread takes it back to an earlier state or changes the
    hangup cause.  (Of operations that begin after that, each as one step; for a hangup
    that has begun before see [hangup_test_race].) *)
Theorem hangup_is_final c ops c' :
  cs CS_HANGUP <= cs (state c) -> channel_run c ops = Some c' ->
  cs (state c) <= cs (state c') /\ hangup_cause c' = hangup_cause c.
Proof. intros Hh Hr. by apply run_advances in Hr as (H & _); auto. Qed.

(** A channel announces its hangup at most once, whatever the number of
    threads that hang it up and whatever happens in between, and then it is in
    CS_HANGUP or a later state. *)
Theorem hangup_announced_once d ops c' :
  channel_run (switch_channel_alloc d) ops = Some c' ->
  hangups (trace c') <= 1 /\ (hangups (trace c') = 1 -> cs CS_HANGUP <= cs (state c')).
Proof.
  intros Hr. apply run_advances in Hr as (_ & _ & H1 & H2).
  change (hangups (trace (switch_channel_alloc d))) with 0 in *. split; [lia|]. intros H. apply H2. lia.
Qed.

(** ** Hold *)

(** Conditions on concrete flags. *)
Ltac decide_flags :=
  repeat match goal with
         | |- context [?a =? ?b] =>
             let v := eval vm_compute in (a =? b) in
             lazymatch v with true => idtac | false => idtac end;
             change (a =? b) with v
         end; cbn [andb orb negb].

Lemma callstate_frame c s (c' := switch_channel_perform_set_callstate c s) :
  times c' = times c /\ hold_record c' = hold_record c /\ flags c' = flags c.
Proof.
  unfold c', switch_channel_perform_set_callstate. destruct (_ || _); [done|]. cbv zeta.
  change (device_node (c <| callstate := s |>)) with (device_node c). by destruct (device_node c) as [[? ?]|].
Qed.

Lemma has_flag_insert c l f g v :
  length l = Z.to_nat CF_FLAG_MAX -> 0 <= f < CF_FLAG_MAX -> 0 <= g < CF_FLAG_MAX ->
  negb (flag_at (<[Z.to_nat f := v]> l) g =? 0) = if f =? g then negb (v =? 0) else negb (flag_at l g =? 0).
Proof.
  intros Hl Hf Hg. unfold flag_at. destruct (Z.eqb_spec f g) as [->|Hne].
  - rewrite list_lookup_insert_eq by lia. done.
  - rewrite list_lookup_insert_ne by lia. done.
Qed.

Lemma set_leg_holding c e t :
  times c = Some t -> has_flag c CF_LEG_HOLDING = false -> has_flag c CF_ANSWERED = true ->
  exists c', switch_channel_set_flag c e CF_LEG_HOLDING = Some c'
  /\ times c' = Some (t <| last_hold := now e |>)
  /\ hold_record c' = mk_hold (partner_uuid e) (now e) 0 :: hold_record c
  /\ flags c' = <[Z.to_nat CF_LEG_HOLDING := 1]> (flags c).
Proof.
  intros Ht Hl Ha. unfold switch_channel_set_flag, switch_channel_set_flag_value. rewrite Hl, Ha. decide_flags.
  assert (negb (switch_channel_test_flag c CF_LEG_HOLDING =? 1) = true) as ->.
  { unfold has_flag in Hl. apply negb_false_iff, Z.eqb_eq in Hl. by rewrite Hl. }
  set (c1 := c <| flags := _ |>). unfold begin_hold. cbv zeta.
  destruct (callstate_frame c1 CCS_HELD) as (F1 & F2 & F3). set (c2 := switch_channel_perform_set_callstate _ _) in *.
  clearbody c2. rewrite F1. change (times c1) with (times c). rewrite Ht. cbn [mbind option_bind].
  eexists. split; [reflexivity|]. split; [done|]. cbn. by rewrite F2, F3.
Qed.

Lemma clear_leg_holding c e t :
  times c = Some t -> has_flag c CF_LEG_HOLDING = true -> has_flag c CF_ANSWERED = true ->
  exists c', switch_channel_clear_flag c e CF_LEG_HOLDING = Some c'
  /\ times c' = Some (if negb (last_hold t =? 0) then t <| hold_accum := hold_accum t + (now e - last_hold t) |> else t)
  /\ hold_record c' = match hold_record c with h :: l => mk_hold (uuid h) (on h) (now e) :: l | [] => [] end
  /\ flags c' = <[Z.to_nat CF_LEG_HOLDING := 0]> (flags c).
Proof.
  intros Ht Hl Ha. unfold switch_channel_clear_flag. rewrite Hl, Ha. decide_flags.
  set (c1 := c <| flags := _ |>). unfold end_hold. cbv zeta.
  destruct (callstate_frame c1 CCS_UNHELD) as (F1 & F2 & F3). set (c2 := switch_channel_perform_set_callstate c1 _) in *.
  clearbody c2. rewrite F1. change (times c1) with (times c). rewrite Ht. cbn [mbind option_bind].
  set (t1 := if negb _ then _ else t). set (c3 := c2 <| times := Some t1 |>).
  change (hold_record c3) with (hold_record c2). rewrite F2. change (hold_record c1) with (hold_record c).
  set (c4 := match hold_record c with [] => c3 | _ :: _ => _ end).
  assert (times c4 = Some t1 /\ hold_record c4 = match hold_record c with h :: l => mk_hold (uuid h) (on h) (now e) :: l | [] => [] end
    /\ flags c4 = flags c2) as (G1 & G2 & G3).
  { unfold c4. destruct (hold_record c) as [|h l] eqn:Eh; split_and!; try done.
    change (hold_record c3) with (hold_record c2). rewrite F2. exact Eh. }
  clearbody c4. eexists. split; [reflexivity|]. destruct (callstate_frame c4 CCS_ACTIVE) as (K1 & K2 & K3).
  destruct (_ && _); rewrite ?K1, ?K2, ?K3, ?G1, ?G2, ?G3, ?F3; done.
Qed.

Definition closed (h : switch_hold_record_t) : Prop := off h <> 0.

(** The time spent on hold according to the records. *)
Definition held_time (l : list switch_hold_record_t) : Z := foldr (fun h a => off h - on h + a) 0 l.

(** What the records, the flag and the times of an answered channel say about
    its holds: one open record, the first, exactly while the flag is set, and
    an accumulated time that is the sum over the others. *)
Definition hold_times (holding : bool) (t : switch_channel_timetable_t) (l : list switch_hold_record_t) : Prop :=
  if holding then
    exists h l', l = h :: l' /\ off h = 0 /\ on h = last_hold t /\ last_hold t <> 0
      /\ Forall closed l' /\ hold_accum t = held_time l'
  else Forall closed l /\ hold_accum t = held_time l.

Record hold_ok c : Prop := {
  o_length : length (flags c) = Z.to_nat CF_FLAG_MAX;
  o_answered : has_flag c CF_ANSWERED = true;
  o_times : exists t, times c = Some t /\ hold_times (has_flag c CF_LEG_HOLDING) t (hold_record c);
}.

Lemma hold_ok_same c c' :
  hold_ok c -> length (flags c') = length (flags c) -> has_flag c' CF_ANSWERED = has_flag c CF_ANSWERED ->
  has_flag c' CF_LEG_HOLDING = has_flag c CF_LEG_HOLDING -> times c' = times c -> hold_record c' = hold_record c ->
  hold_ok c'.
Proof. intros [H1 H2 H3] E1 E2 E3 E4 E5. constructor; rewrite ?E3, ?E4, ?E5; congruence || done. Qed.

Lemma mark_hold_ok c e b :
  hold_ok c -> now e <> 0 ->
  exists c', switch_channel_mark_hold c e b = Some c' /\ hold_ok c' /\ has_flag c' CF_LEG_HOLDING = b.
Proof.
  intros HO Hn. unfold switch_channel_mark_hold.
  assert (forall c1, hold_ok c1 -> has_flag c1 CF_LEG_HOLDING = b -> exists c',
    Some (if b && var_true e "flip_record_on_hold" && bool_decide (is_Some (partner_uuid e)) then act c1 TransferRecordings else c1)
      = Some c' /\ hold_ok c' /\ has_flag c' CF_LEG_HOLDING = b) as HE.
  { intros c1 H1 H2. eexists. split; [reflexivity|]. destruct (_ && _); [|done]. split; [|done]. by apply (hold_ok_same c1). }
  destruct (bool_decide (b = has_flag c CF_LEG_HOLDING)) eqn:Eb.
  { apply bool_decide_eq_true in Eb. cbn [mbind option_bind]. by apply HE. }
  apply bool_decide_eq_false in Eb.
  destruct HO as [H1 H2 (t & Ht & HT)]. destruct b, (has_flag c CF_LEG_HOLDING) eqn:Eh; try done.
  - destruct (set_leg_holding c e t Ht Eh H2) as (c1 & -> & T1 & R1 & F1). cbn [mbind option_bind].
    assert (has_flag c1 CF_LEG_HOLDING = true /\ has_flag c1 CF_ANSWERED = true) as [G1 G2].
    { unfold has_flag, switch_channel_test_flag in *. rewrite F1, !has_flag_insert by (exact c || done). done. }
    apply HE; [|done]. constructor; [change (length (flags c1) = Z.to_nat CF_FLAG_MAX); by rewrite F1, length_insert|done|].
    exists (t <| last_hold := now e |>). split; [done|]. change (has_flag (act c1 FireHold) CF_LEG_HOLDING) with (has_flag c1 CF_LEG_HOLDING).
    rewrite G1. destruct HT as [HT1 HT2]. exists (mk_hold (partner_uuid e) (now e) 0), (hold_record c). by split_and!.
  - destruct (clear_leg_holding c e t Ht Eh H2) as (c1 & -> & T1 & R1 & F1). cbn [mbind option_bind].
    assert (has_flag c1 CF_LEG_HOLDING = false /\ has_flag c1 CF_ANSWERED = true) as [G1 G2].
    { unfold has_flag, switch_channel_test_flag in *. rewrite F1, !has_flag_insert by (exact c || done). done. }
    apply HE; [|done]. destruct HT as (h & l & El & Ho & Hon & Hl & Hc & Ha). rewrite El in R1.
    rewrite (proj2 (Z.eqb_neq _ _) Hl) in T1. cbn [negb] in T1.
    constructor; [change (length (flags c1) = Z.to_nat CF_FLAG_MAX); by rewrite F1, length_insert|done|].
    eexists. split; [exact T1|]. change (has_flag (act c1 FireUnhold) CF_LEG_HOLDING) with (has_flag c1 CF_LEG_HOLDING).
    rewrite G1. change (hold_record (act c1 FireUnhold)) with (hold_record c1). rewrite R1. split; [by constructor|].
    change (hold_accum t + (now e - last_hold t) = now e - on h + held_time l). lia.
Qed.

Lemma hangup_once_frame c e cause (c' := hangup_once c e cause) :
  Forall closed (hold_record c) ->
  times c' = times c /\ flags c' = flags c /\ hold_record c' = hold_record c.
Proof.
  intros HC. unfold c', hangup_once. cbv zeta. clear c'.
  assert (match hold_record c with
          | h :: l => if off h =? 0 then c <| hold_record := mk_hold (uuid h) (on h) (now e) :: l |> else c
          | [] => c end = c) as ->.
  { destruct (hold_record c) as [|h l]; [done|]. inversion HC as [|? ? Hh _]; subst. unfold closed in Hh.
    by rewrite (proj2 (Z.eqb_neq _ _) Hh). }
  set (c1 := act (c <| state := _ |> <| hangup_cause := _ |>) _).
  assert (times c1 = times c /\ flags c1 = flags c /\ hold_record c1 = hold_record c) as (<- & <- & <-) by done. clearbody c1.
  set (c2 := match getvar e _ with Some _ => _ | None => _ end).
  assert (times c2 = times c1 /\ flags c2 = flags c1 /\ hold_record c2 = hold_record c1) as (<- & <- & <-)
    by (unfold c2; by destruct (getvar e _)).
  clearbody c2. destruct (has_flag c2 _); [|destruct (has_flag c2 _)]; by destruct (negb _ && _).
Qed.

Lemma hangup_hold_ok c e cause :
  hold_ok c -> now e <> 0 -> exists c', switch_channel_perform_hangup c e cause = Some c' /\ hold_ok c'.
Proof.
  intros HO Hn. cbv delta [switch_channel_perform_hangup hangup_begin]. cbv beta.
  set (ok := negb (test_flag (opaque_flags c) OCF_HANGUP)). cbv zeta.
  set (c0 := if ok then c <| opaque_flags := _ |> else c).
  assert (hold_ok c0) as H0 by (unfold c0; destruct ok; [by apply (hold_ok_same c)|done]).
  clearbody c0. clearbody ok. clear HO.
  assert (exists c1, (if has_flag c0 CF_LEG_HOLDING then c1 ← switch_channel_mark_hold c0 e false; switch_channel_set_flag c1 e CF_HANGUP_HELD
    else Some c0) = Some c1 /\ hold_ok c1 /\ has_flag c1 CF_LEG_HOLDING = false) as (c1 & -> & H1 & L1).
  { destruct (has_flag c0 CF_LEG_HOLDING) eqn:El; [|by exists c0].
    destruct (mark_hold_ok c0 e false H0 Hn) as (c1 & -> & H1 & L1). cbn [mbind option_bind].
    unfold switch_channel_set_flag, switch_channel_set_flag_value. decide_flags.
    set (c2 := if negb _ then _ else c1). exists c2. split; [done|]. pose proof (o_length _ H1).
    unfold c2. destruct (negb _); [|done]. unfold has_flag, switch_channel_test_flag in *.
    split; [|change (negb (flag_at (<[Z.to_nat CF_HANGUP_HELD := 1]> (flags c1)) CF_LEG_HOLDING =? 0) = false);
             rewrite has_flag_insert by (exact c1 || done); done].
    apply (hold_ok_same c1); try done; [apply length_insert| |]; unfold has_flag, switch_channel_test_flag;
      change (flags (c1 <| flags := ?l |>)) with l; rewrite has_flag_insert by (exact c1 || done); done. }
  cbn [mbind option_bind]. destruct ok; cbn [negb]; [|by exists c1].
  unfold switch_channel_clear_flag. decide_flags. cbn [mbind option_bind].
  set (c2 := c1 <| flags := _ |>). pose proof (o_length _ H1).
  assert (hold_ok c2 /\ has_flag c2 CF_LEG_HOLDING = false) as [H2 L2].
  { assert (forall f, f = CF_ANSWERED \/ f = CF_LEG_HOLDING -> has_flag c2 f = has_flag c1 f) as HF.
    { intros f Hf. unfold has_flag, switch_channel_test_flag, c2. change (flags (c1 <| flags := ?l |>)) with l.
      destruct Hf as [-> | ->]; rewrite has_flag_insert by (exact c1 || done); done. }
    split; [|rewrite HF by auto; done]. apply (hold_ok_same c1); try done; [apply length_insert| |]; apply HF; auto. }
  clearbody c2. eexists. split; [reflexivity|]. destruct (up_nosig c2); [|done].
  destruct H2 as [K1 K2 (t & K3 & K4)]. rewrite L2 in K4. destruct (hangup_once_frame c2 e cause) as (F1 & F2 & F3).
  { by destruct K4 as [K4 _]. }
  apply (hold_ok_same c2); try done; [|by rewrite F2|unfold has_flag, switch_channel_test_flag; by rewrite F2..].
  constructor; [done|done|]. exists t. by rewrite L2.
Qed.

(** Hold accounting.  On an answered channel, however often it is put on hold,
    taken off it and hung up, every operation returns, there is an open hold
    record exactly while the channel is on hold (none after a hangup), and the
    accumulated hold time is the sum of the closed records. *)
Theorem hold_accounting c ops :
  hold_ok c -> Forall (fun oe => now oe.2 <> 0 /\ match oe.1 with OpMarkHold _ | OpHangup _ => True | _ => False end) ops ->
  exists c', channel_run c ops = Some c' /\ hold_ok c'.
Proof.
  revert c. induction ops as [|[o e] ops IH]; intros c HO HF; [by exists c|].
  inversion HF as [|? ? [Hn Ho] HF']; subst. cbn [fst snd] in *. cbn [channel_run].
  destruct o; try done; cbn [channel_step fst snd].
  - destruct (hangup_hold_ok c e cause HO Hn) as (c1 & -> & H1). cbn [mbind option_bind]. by apply IH.
  - destruct (mark_hold_ok c e on0 HO Hn) as (c1 & -> & H1 & _). cbn [mbind option_bind]. by apply IH.
Qed.

(** ** Deferred flags *)

Lemma take_state_flags_spec l f sf x :
  Forall (fun y => (y < length f)%nat /\ (y < length sf)%nat) l -> NoDup l ->
  default 0 ((take_state_flags l f sf).1 !! x)
    = (if bool_decide (x ∈ l) && negb (default 0 (sf !! x) =? 0) then 1 else default 0 (f !! x))
  /\ default 0 ((take_state_flags l f sf).2 !! x) = (if bool_decide (x ∈ l) then 0 else default 0 (sf !! x)).
Proof.
  unfold take_state_flags. revert f sf. induction l as [|y l IH]; intros f sf HL HN; cbn [foldl]; [done|].
  apply Forall_cons in HL as [[Hy1 Hy2] HL']. apply NoDup_cons in HN as [Hy HN].
  set (b := negb (default 0 (sf !! y) =? 0)).
  assert (forall f' sf' : list Z, length f' = length f -> length sf' = length sf ->
    Forall (fun y => (y < length f')%nat /\ (y < length sf')%nat) l) as HL2 by (intros f' sf' -> ->; done).
  assert ((bool_decide (x ∈ y :: l)) = bool_decide (x = y) || bool_decide (x ∈ l)) as ->.
  { destruct (decide (x = y)) as [->|Hne].
    - by rewrite (bool_decide_true (y ∈ y :: l)), (bool_decide_true (y = y)) by (done || left).
    - rewrite (bool_decide_false (x = y)) by done. apply bool_decide_ext. rewrite elem_of_cons. naive_solver. }
  destruct b eqn:Eb.
  - destruct (IH (<[y:=1]> f) (<[y:=0]> sf)) as [-> ->]; [by apply HL2; rewrite length_insert|done|].
    destruct (decide (x = y)) as [->|Hne].
    + rewrite (bool_decide_false (y ∈ l)), (bool_decide_true (y = y)) by done. cbn [andb orb].
      rewrite !list_lookup_insert_eq by lia. fold b. by rewrite Eb.
    + rewrite (bool_decide_false (x = y)), !list_lookup_insert_ne by done. done.
  - destruct (IH f sf) as [-> ->]; [by apply HL2|done|]. destruct (decide (x = y)) as [->|Hne].
    + rewrite (bool_decide_false (y ∈ l)), (bool_decide_true (y = y)) by done. cbn [andb orb]. fold b. rewrite Eb.
      split; [done|]. unfold b in Eb. apply negb_false_iff, Z.eqb_eq in Eb. done.
    + by rewrite (bool_decide_false (x = y)) by done.
Qed.

(** The flag array once the requested flags are set, and the requests left. *)
Definition requested c (f : Z) : bool := negb (flag_at (state_flags c) 0 =? 0) && negb (flag_at (state_flags c) f =? 0).

Lemma running_state_eq c e s :
  exists c', switch_channel_perform_set_running_state c e s = Some c' /\ running_state c' = s
  /\ let '(f, sf) := if negb (flag_at (state_flags c) 0 =? 0)
                     then let '(f, sf) := take_state_flags (seq 1 (Z.to_nat CF_FLAG_MAX - 1)) (flags c) (state_flags c)
                          in (f, <[0%nat := 0]> sf)
                     else (flags c, state_flags c) in
     flags c' = <[Z.to_nat CF_TAGGED := 0]> f /\ state_flags c' = sf.
Proof.
  cbv beta delta [switch_channel_perform_set_running_state].
  lazymatch goal with |- exists c', (let x := ?t in @?K x) = _ /\ ?P => pose (c1 := t) end.
  set (fsf := if negb _ then let '(f, sf) := take_state_flags _ _ _ in (f, <[0%nat := 0]> sf) else _).
  assert (flags c1 = fsf.1 /\ state_flags c1 = fsf.2) as [F1 F2].
  { unfold c1, fsf. destruct (negb _); [|done]. by destruct (take_state_flags _ _ _). }
  lazymatch goal with |- exists c', (let x := ?t in @?K x) = _ /\ @?P c' =>
    change (exists c', K c1 = Some c' /\ P c') end. cbv beta.
  clearbody c1. destruct fsf as [f sf]. cbn [fst snd] in *.
  unfold switch_channel_clear_flag. decide_flags. cbn [mbind option_bind]. cbv zeta.
  set (c2 := c1 <| flags := _ |> <| running_state := s |>).
  assert (flags c2 = <[Z.to_nat CF_TAGGED := 0]> f /\ state_flags c2 = sf /\ running_state c2 = s) as (G1 & G2 & G3).
  { unfold c2. rewrite <- F1, <- F2. done. }
  clearbody c2. assert (forall cs0, flags (switch_channel_perform_set_callstate c2 cs0) = flags c2
    /\ state_flags (switch_channel_perform_set_callstate c2 cs0) = state_flags c2
    /\ running_state (switch_channel_perform_set_callstate c2 cs0) = running_state c2) as HC.
  { intros cs0. unfold switch_channel_perform_set_callstate. destruct (_ || _); [done|]. cbv zeta.
    change (device_node (c2 <| callstate := cs0 |>)) with (device_node c2). by destruct (device_node c2) as [[? ?]|]. }
  destruct (cs s <=? cs CS_DESTROY); [|by exists c2]. eexists. split; [reflexivity|].
  match goal with |- running_state (act ?t FireState) = s /\ _ => assert (flags t = flags c2 /\ state_flags t = state_flags c2
    /\ running_state t = running_state c2) as (K1 & K2 & K3) by (destruct (_ && _); [|done];
      destruct (bool_decide _); [apply HC|]; destruct (has_flag c2 _); [apply HC|]; destruct (has_flag c2 _); [apply HC|done]) end.
  change (running_state (act ?t FireState)) with (running_state t). change (flags (act ?t FireState)) with (flags t).
  change (state_flags (act ?t FireState)) with (state_flags t). rewrite K1, K2, K3. done.
Qed.

(** Flags requested with switch_channel_set_state_flag take effect when the
    running state changes: exactly the requested flags are set, CF_TAGGED is
    cleared, the other flags stay and no request is left behind. *)
Theorem running_state_sets_flags c e s :
  length (flags c) = Z.to_nat CF_FLAG_MAX -> length (state_flags c) = Z.to_nat CF_FLAG_MAX ->
  exists c', switch_channel_perform_set_running_state c e s = Some c' /\ running_state c' = s
  /\ forall f, 0 < f < CF_FLAG_MAX ->
       switch_channel_test_flag c' f
         = (if f =? CF_TAGGED then 0 else if requested c f then 1 else switch_channel_test_flag c f)
       /\ requested c' f = false.
Proof.
  intros L1 L2. destruct (running_state_eq c e s) as (c' & E & Hr & HF). exists c'. split_and!; [done|done|].
  intros f Hf. assert (1 <= Z.to_nat f < Z.to_nat CF_FLAG_MAX)%nat as Hn by lia.
  unfold requested, switch_channel_test_flag in *. destruct (negb (flag_at (state_flags c) 0 =? 0)) eqn:E0; cbn [andb].
  - pose proof (take_state_flags_spec (seq 1 (Z.to_nat CF_FLAG_MAX - 1)) (flags c) (state_flags c) (Z.to_nat f)) as HS.
    pose proof (take_state_flags_length (seq 1 (Z.to_nat CF_FLAG_MAX - 1)) (flags c) (state_flags c)) as [HL1 HL2].
    destruct (take_state_flags _ _ _) as [g sg]. cbn [fst snd] in *. destruct HF as [-> ->].
    rewrite bool_decide_true in HS by (apply elem_of_seq; lia). cbn [andb] in HS.
    destruct HS as [HS1 HS2]; [|apply NoDup_seq|].
    { apply Forall_forall. intros y Hy. apply elem_of_seq in Hy. rewrite L1, L2. lia. }
    unfold flag_at. rewrite (list_lookup_insert_eq _ 0%nat), (list_lookup_insert_ne _ 0%nat) by lia. cbn [default from_option id].
    rewrite HS2. split; [|done]. destruct (Z.eqb_spec f CF_TAGGED) as [->|Hne].
    + by rewrite list_lookup_insert_eq by lia.
    + rewrite list_lookup_insert_ne by lia. exact HS1.
  - destruct HF as [-> ->]. rewrite E0. split; [|done]. unfold flag_at. destruct (Z.eqb_spec f CF_TAGGED) as [->|Hne].
    + by rewrite list_lookup_insert_eq by lia.
    + by rewrite list_lookup_insert_ne by lia.
Qed.

(** ** State handlers *)

(** The table holds the handlers [hs] in order. *)
Record handlers c (hs : list switch_state_handler_table_t) : Prop := {
  s_table : state_handlers c = map Some hs ++ replicate (SWITCH_MAX_STATE_HANDLERS - length hs) None;
  s_index : state_handler_index c = Z.of_nat (length hs);
  s_distinct : NoDup hs;
  s_room : (length hs < SWITCH_MAX_STATE_HANDLERS)%nat;
}.

Lemma table_find hs n (h : switch_state_handler_table_t) :
  match list_find (fun x => x = Some h) (map Some hs ++ replicate n None) with
  | Some (x, _) => hs !! x = Some h
  | None => h ∉ hs
  end.
Proof.
  destruct (list_find _ _) as [[x y]|] eqn:E.
  - apply list_find_Some in E as (E & -> & _). apply lookup_app_Some in E as [E|[_ E]].
    + change (map Some hs) with (Some <$> hs) in E. rewrite list_lookup_fmap in E. destruct (hs !! x); [|done]. by injection E as ->.
    + by apply lookup_replicate in E as [? _].
  - apply list_find_None in E. rewrite Forall_app in E. destruct E as [E _]. intros Hin.
    rewrite Forall_forall in E. eapply E; [|reflexivity]. by apply list_elem_of_fmap_2.
Qed.

Lemma filter_table (P : switch_state_handler_table_t -> Prop) (Q : option switch_state_handler_table_t -> Prop)
    `{!forall h, Decision (P h), !forall o, Decision (Q o)} hs :
  (forall h, P h <-> Q (Some h)) -> filter Q (map Some hs) = map Some (filter P hs).
Proof.
  intros HPQ. induction hs as [|h hs IH]; [done|]. cbn [map]. rewrite !filter_cons.
  destruct (decide (P h)) as [Hp|Hp]; rewrite HPQ in Hp; [rewrite decide_True by done|rewrite decide_False by done]; by rewrite IH.
Qed.

Lemma clear_handlers c hs sh (P : switch_state_handler_table_t -> Prop) `{!forall h, Decision (P h)} :
  handlers c hs -> (forall h, P h <-> handler_stays sh (Some h) = true) ->
  exists c', switch_channel_clear_state_handler c sh = Some c' /\ handlers c' (filter P hs).
Proof.
  intros [H1 H2 H3 H4] HP. unfold switch_channel_clear_state_handler. cbv zeta.
  assert (length (state_handlers c) = SWITCH_MAX_STATE_HANDLERS) as HL.
  { rewrite H1, length_app, length_map, length_replicate. unfold SWITCH_MAX_STATE_HANDLERS in *. lia. }
  rewrite HL, H2, Z.gtb_ltb, (proj2 (Z.ltb_ge _ _)) by lia. rewrite Nat2Z.id, H1.
  rewrite take_app_length' by (symmetry; apply length_map).
  rewrite (filter_table P _ hs HP), length_map. eexists. split; [reflexivity|].
  pose proof (length_filter P hs). constructor; try done; [|lia]. by apply NoDup_filter.
Qed.

Lemma add_handlers c hs h :
  handlers c hs ->
  exists r c', switch_channel_add_state_handler c (Some h) = Some (r, c')
     /\ if bool_decide (h ∈ hs) then c' = c /\ hs !! Z.to_nat r = Some h
        else if (length hs <? SWITCH_MAX_STATE_HANDLERS - 1)%nat
             then r = Z.of_nat (length hs) /\ handlers c' (hs ++ [h]) else r = -1.
Proof.
  intros [H1 H2 H3 H4]. unfold switch_channel_add_state_handler. rewrite H1.
  pose proof (table_find hs (SWITCH_MAX_STATE_HANDLERS - length hs) h) as HF.
  destruct (list_find _ _) as [[x y]|].
  { eexists _, c. split; [reflexivity|]. rewrite bool_decide_true by (by eapply list_elem_of_lookup_2). by rewrite Nat2Z.id. }
  rewrite bool_decide_false by done. cbv zeta. set (c1 := c <| state_handler_index := _ |>).
  assert (state_handler_index c1 = Z.of_nat (length hs) + 1) as Hi.
  { unfold c1. cbn. rewrite H2. apply s32_small. unfold SWITCH_MAX_STATE_HANDLERS in H4. lia. }
  rewrite Hi, Z.geb_leb. destruct (Z.leb_spec (Z.of_nat SWITCH_MAX_STATE_HANDLERS) (Z.of_nat (length hs) + 1)) as [Hf|Hf].
  { eexists _, _. split; [reflexivity|]. rewrite (proj2 (Nat.ltb_ge _ _)); [done|]. lia. }
  rewrite H2, (proj2 (Z.leb_le 0 _)) by lia. eexists _, _. split; [reflexivity|]. rewrite (proj2 (Nat.ltb_lt _ _)) by lia.
  split; [done|]. rewrite Nat2Z.id. constructor.
  + change (state_handlers (c1 <| state_handlers := ?l |>)) with l. change (state_handlers c1) with (state_handlers c).
    rewrite H1, length_app, map_app. cbn [length map].
    replace (length hs) with (length (map Some hs) + 0)%nat at 1 by (rewrite length_map; lia). rewrite insert_app_r.
    destruct (SWITCH_MAX_STATE_HANDLERS - length hs)%nat as [|n] eqn:En; [lia|]. cbn [replicate].
    replace (SWITCH_MAX_STATE_HANDLERS - (length hs + 1))%nat with n by lia. by rewrite <- app_assoc.
  + change (state_handler_index (c1 <| state_handlers := ?l |>)) with (state_handler_index c1). rewrite Hi, length_app. cbn. lia.
  + apply NoDup_app. split_and!; [done| |apply NoDup_singleton]. intros x Hx Hx2%list_elem_of_singleton. by subst.
  + rewrite length_app. cbn. lia.
Qed.

Lemma get_handlers c hs k : handlers c hs -> switch_channel_get_state_handler c (Z.of_nat k) = Some (hs !! k).
Proof.
  intros [H1 H2 H3 H4]. unfold switch_channel_get_state_handler. rewrite H2, Z.geb_leb, Z.gtb_ltb.
  destruct (Z.leb_spec (Z.of_nat SWITCH_MAX_STATE_HANDLERS) (Z.of_nat k)), (Z.ltb_spec (Z.of_nat (length hs)) (Z.of_nat k)); cbn [orb];
    try (rewrite lookup_ge_None_2 by lia; done).
  rewrite (proj2 (Z.ltb_ge _ 0)) by lia. rewrite Nat2Z.id, H1.
  destruct (decide (k < length hs)%nat) as [Hlt|Hge].
  + rewrite lookup_app_l by (by rewrite length_map). change (map Some hs) with (Some <$> hs). rewrite list_lookup_fmap.
    apply lookup_lt_is_Some_2 in Hlt as [y ->]. done.
  + rewrite lookup_app_r by (rewrite length_map; lia). rewrite length_map, (lookup_ge_None_2 hs k) by lia.
    apply lookup_replicate_2. lia.
Qed.

Lemma handlers_step c o c' hs : channel_step c o = Some c' -> handlers c hs -> handlers c' hs.
Proof. intros [E1 E2]%step_handlers [H1 H2 H3 H4]. constructor; try done; congruence. Qed.

(** While fewer than SWITCH_MAX_STATE_HANDLERS - 1 handlers are registered the
    table behaves as a list without duplicates: adding a known handler returns
    its place, adding a new one appends it, reading an index reads the list,
    clearing a handler removes exactly that one and clearing without argument
    keeps exactly the sticky ones. *)
Theorem state_handlers_list c hs h :
  handlers c hs ->
  (exists r c', switch_channel_add_state_handler c (Some h) = Some (r, c')
     /\ if bool_decide (h ∈ hs) then c' = c /\ hs !! Z.to_nat r = Some h
        else if (length hs <? SWITCH_MAX_STATE_HANDLERS - 1)%nat
             then r = Z.of_nat (length hs) /\ handlers c' (hs ++ [h]) else r = -1)
  /\ (forall i, switch_channel_get_state_handler c (Z.of_nat i) = Some (hs !! i))
  /\ (exists c', switch_channel_clear_state_handler c (Some h) = Some c' /\ handlers c' (filter (fun x => x <> h) hs))
  /\ (exists c', switch_channel_clear_state_handler c None = Some c' /\ handlers c' (filter (fun x => sticky x = true) hs)).
Proof.
  intros HH. split_and!.
  - by apply add_handlers.
  - intros i. by apply get_handlers.
  - apply clear_handlers; [done|]. intros x. unfold handler_stays. rewrite negb_true_iff, bool_decide_eq_false. naive_solver.
  - by apply clear_handlers.
Qed.

(** When the table is full, every further attempt to add a handler still
    increments state_handler_index; after two of them clearing any handler
    reads (and writes its copy) past the end of the arrays. *)
Theorem state_handlers_overflow c hs h1 h2 sh :
  handlers c hs -> length hs = (SWITCH_MAX_STATE_HANDLERS - 1)%nat -> h1 ∉ hs -> h2 ∉ hs ->
  exists c1 c2, switch_channel_add_state_handler c (Some h1) = Some (-1, c1)
  /\ switch_channel_add_state_handler c1 (Some h2) = Some (-1, c2)
  /\ switch_channel_clear_state_handler c2 sh = None.
Proof.
  intros [H1 H2 H3 H4] HL N1 N2. unfold switch_channel_add_state_handler at 1. rewrite H1.
  assert (forall h, h ∉ hs -> list_find (fun x => x = Some h) (map Some hs ++ replicate (SWITCH_MAX_STATE_HANDLERS - length hs) None) = None) as HN.
  { intros h Hh. pose proof (table_find hs (SWITCH_MAX_STATE_HANDLERS - length hs) h) as HF.
    destruct (list_find _ _) as [[x y]|]; [|done]. by apply list_elem_of_lookup_2 in HF. }
  rewrite HN by done. cbv zeta. set (c1 := c <| state_handler_index := _ |>).
  assert (state_handler_index c1 = 30 /\ state_handlers c1 = state_handlers c) as [E1 E2].
  { split; [|done]. unfold c1. cbn. by rewrite H2, HL. }
  clearbody c1. rewrite E1. exists c1, (c1 <| state_handler_index := s32 (state_handler_index c1 + 1) |>). split; [done|].
  unfold switch_channel_add_state_handler. rewrite E2, H1, HN by done. cbv zeta.
  set (c2 := c1 <| state_handler_index := s32 (state_handler_index c1 + 1) |>).
  assert (state_handler_index c2 = 31 /\ state_handlers c2 = state_handlers c) as [E3 E4].
  { split; [|by rewrite <- E2]. unfold c2. cbn. by rewrite E1. }
  clearbody c2. rewrite E3. split; [done|]. unfold switch_channel_clear_state_handler.
  rewrite E3, E4, H1, length_app, length_map, length_replicate, HL. done.
Qed.

(** ** Sample channels *)

Definition sample_env (t : Z) : env :=
  {| now := t; getvar := fun _ => None; partner_uuid := None; session_running := true; session_started := true; in_thread := true;
     session_locate := fun _ => false; has_codecs := true |}.

Definition sample_channel : switch_channel :=
  (switch_channel_alloc SWITCH_CALL_DIRECTION_INBOUND) <| times := Some (mk_times 0 0 0 0 0 0 0) |>.

Definition answered_channel : switch_channel :=
  sample_channel <| flags := <[Z.to_nat CF_ANSWERED := 1]> (flags sample_channel) |>.

Definition hung_channel : switch_channel :=
  default sample_channel (switch_channel_perform_hangup sample_channel (sample_env 5) 17).

(** switch_channel_perform_hangup tests the state before it takes the mutex for the
    assignment (switch_channel.c:3389 and 3401-3404).  A thread that sets CS_DESTROY in
    between, which is allowed from CS_NEW and CS_RESET, is overwritten: the channel goes
    back from CS_DESTROY to CS_HANGUP. *)
Theorem hangup_test_race :
  let c := switch_channel_alloc SWITCH_CALL_DIRECTION_INBOUND in
  exists c1 c2, hangup_begin c (sample_env 5) = Some (true, c1) /\ switch_channel_perform_set_state c1 CS_DESTROY = Some c2 /\
    state c2 = CS_DESTROY /\ state (hangup_once c2 (sample_env 5) SWITCH_CAUSE_NORMAL_CLEARING) = CS_HANGUP.
Proof. eexists _, _. by split_and!; [reflexivity..|]. Qed.

Lemma set_state_reachability_witness :
  (exists ss c', set_states (sample_channel <| state := CS_EXECUTE |>) ss = Some c' /\ state c' = CS_DESTROY)
  /\ (exists c', switch_channel_perform_set_state (sample_channel <| state := CS_INIT |>) CS_ROUTING = Some c' /\ state c' = CS_ROUTING).
Proof.
  split.
  - destruct (set_state_reachability (sample_channel <| state := CS_EXECUTE |>) CS_DESTROY) as (_ & _ & _ & H); [vm_compute; discriminate|vm_compute; discriminate|].
    apply H. left. by vm_compute.
  - destruct (set_state_reachability (sample_channel <| state := CS_INIT |>) CS_ROUTING) as (_ & H & _); [vm_compute; discriminate|vm_compute; discriminate|].
    apply H; [discriminate|]. apply go_work; [by left|]. split; vm_compute; discriminate.
Defined.

Lemma hangup_is_final_witness :
  exists c', channel_run hung_channel [(OpSetState CS_EXECUTE, sample_env 6); (OpSetState CS_REPORTING, sample_env 7)] = Some c'
  /\ hangup_cause c' = 17.
Proof.
  destruct (channel_run hung_channel [(OpSetState CS_EXECUTE, sample_env 6); (OpSetState CS_REPORTING, sample_env 7)]) as [c'|] eqn:E;
    [|by vm_compute in E]. exists c'. split; [done|].
  assert (cs CS_HANGUP <= cs (state hung_channel)) as Hs by (vm_compute; discriminate).
  destruct (hangup_is_final hung_channel _ c' Hs E) as [_ ->]. by vm_compute.
Defined.

Lemma hangup_announced_once_witness :
  exists c', channel_run (switch_channel_alloc SWITCH_CALL_DIRECTION_OUTBOUND)
    [(OpHangup 16, sample_env 1); (OpHangup 17, sample_env 2)] = Some c' /\ hangups (trace c') <= 1.
Proof.
  destruct (channel_run (switch_channel_alloc SWITCH_CALL_DIRECTION_OUTBOUND)
    [(OpHangup 16, sample_env 1); (OpHangup 17, sample_env 2)]) as [c'|] eqn:E; [|by vm_compute in E].
  exists c'. split; [done|]. apply (hangup_announced_once _ _ _ E).
Defined.

Lemma answered_channel_ok : hold_ok answered_channel.
Proof.
  constructor; [by vm_compute|by vm_compute|]. exists (mk_times 0 0 0 0 0 0 0). split; [done|].
  assert (has_flag answered_channel CF_LEG_HOLDING = false) as -> by (by vm_compute). by split.
Qed.

Lemma hold_accounting_witness :
  exists c', channel_run answered_channel [(OpMarkHold true, sample_env 10); (OpMarkHold false, sample_env 25)] = Some c'
  /\ hold_ok c' /\ (hold_accum <$> times c') = Some 15.
Proof.
  destruct (hold_accounting answered_channel [(OpMarkHold true, sample_env 10); (OpMarkHold false, sample_env 25)] answered_channel_ok)
    as (c' & E & HO); [by repeat constructor|]. exists c'. split_and!; [done|done|].
  assert (((fun c => hold_accum <$> times c) <$> channel_run answered_channel
    [(OpMarkHold true, sample_env 10); (OpMarkHold false, sample_env 25)]) = Some (Some 15)) as Er by (by vm_compute).
  rewrite E in Er. by injection Er as ->.
Defined.

Lemma running_state_sets_flags_witness :
  exists c', switch_channel_perform_set_running_state (switch_channel_set_state_flag sample_channel CF_TRANSFER) (sample_env 1) CS_EXECUTE
    = Some c' /\ switch_channel_test_flag c' CF_TRANSFER = 1.
Proof.
  destruct (running_state_sets_flags (switch_channel_set_state_flag sample_channel CF_TRANSFER) (sample_env 1) CS_EXECUTE)
    as (c' & E & _ & HF); [by vm_compute|by vm_compute|]. exists c'. split; [done|].
  destruct (HF CF_TRANSFER) as [-> _]; [unfold CF_TRANSFER, CF_FLAG_MAX; lia|]. by vm_compute.
Defined.

(** A table with [n] handlers. *)
Definition sample_handlers (n : nat) : list switch_state_handler_table_t := map (fun k => mk_handler k false) (seq 0 n).

Definition full_channel (n : nat) : switch_channel :=
  sample_channel <| state_handlers := map Some (sample_handlers n) ++ replicate (SWITCH_MAX_STATE_HANDLERS - n) None |>
    <| state_handler_index := Z.of_nat n |>.

Lemma full_channel_ok n : (n < SWITCH_MAX_STATE_HANDLERS)%nat -> handlers (full_channel n) (sample_handlers n).
Proof.
  intros Hn. assert (length (sample_handlers n) = n) as HL by (unfold sample_handlers; by rewrite length_map, length_seq).
  constructor; rewrite ?HL; try done. apply (NoDup_fmap_2_strong (fun k => mk_handler k false)); [by intros x y _ _ [= ->]|apply NoDup_seq].
Qed.

Lemma state_handlers_list_witness :
  exists c', switch_channel_clear_state_handler (full_channel 3) (Some (mk_handler 1 false)) = Some c'
  /\ handlers c' [mk_handler 0 false; mk_handler 2 false].
Proof.
  destruct (state_handlers_list (full_channel 3) (sample_handlers 3) (mk_handler 1 false)) as (_ & _ & (c' & E & HH) & _);
    [apply full_channel_ok; unfold SWITCH_MAX_STATE_HANDLERS; lia|]. by exists c'.
Defined.

Lemma state_handlers_overflow_witness :
  exists c1 c2, switch_channel_add_state_handler (full_channel 29) (Some (mk_handler 29 false)) = Some (-1, c1)
  /\ switch_channel_add_state_handler c1 (Some (mk_handler 30 false)) = Some (-1, c2)
  /\ switch_channel_clear_state_handler c2 None = None.
Proof.
  apply (state_handlers_overflow (full_channel 29) (sample_handlers 29));
    [apply full_channel_ok; unfold SWITCH_MAX_STATE_HANDLERS; lia|done|..]; by apply (bool_decide_unpack _); vm_compute.
Defined.

End ChannelTheorems.
