(* ===== verification/ChannelDtmf.v ===== *)
(** * DTMF digits of a channel (src/src/switch_channel.c, src/src/switch_core.c)

    Digits received on a channel wait in [dtmf_queue]; digits read from it go to
    [dtmf_log_queue], from which the call record takes them.  Both are queues
    of switch_apr_queue.c with room for SWITCH_DTMF_LOG_LEN pointers, used only
    with the non-blocking operations and under the channel's dtmf_mutex; the
    interface [TryQueue] says what those promise, and the blocking queue of
    Queue.v implements it.

    A digit is allocated when it is queued; [live] is the number of digits
    allocated and not freed. *)

From S2P Require Import Prelude.
From S2P Require Import Text Queue.
From stdpp Require Import strings.
From Stdlib Require Import Ascii.

#[local] Open Scope string_scope.
#[local] Open Scope list_scope.
#[local] Open Scope Z_scope.

Module ChannelDtmf.

(** ** Queues with non-blocking operations *)

Class TryQueue (Q : Type) (V : Type) := {
  tq_push : Q -> V -> bool * Q;
  tq_pop : Q -> option V * Q;
  tq_size : Q -> Z;
}.

Class TryQueueLaws (Q V : Type) `{!TryQueue Q V} := {
  tq_ok : Z -> Q -> Prop;   (* a queue with this capacity *)
  tq_list : Q -> list V;
  tq_bound n q : tq_ok n q -> Z.of_nat (length (tq_list q)) <= n;
  tq_push_full n q d : tq_ok n q -> Z.of_nat (length (tq_list q)) = n -> tq_push q d = (false, q);
  tq_push_room n q d : tq_ok n q -> Z.of_nat (length (tq_list q)) < n ->
    exists q', tq_push q d = (true, q') /\ tq_ok n q' /\ tq_list q' = tq_list q ++ [d];
  tq_pop_empty n q : tq_ok n q -> tq_list q = [] -> tq_pop q = (None, q);
  tq_pop_some n q d l : tq_ok n q -> tq_list q = d :: l ->
    exists q', tq_pop q = (Some d, q') /\ tq_ok n q' /\ tq_list q' = l;
  tq_size_list n q : tq_ok n q -> tq_size q = Z.of_nat (length (tq_list q));
}.

(** switch_queue_trypush and switch_queue_trypop on the queue of Queue.v: whether
    SWITCH_STATUS_SUCCESS is returned, and the pointer. *)
Section apr.
Import Queue.
Context {V : Type}.

Definition switch_queue_trypush (q : switch_apr_queue_t V) (d : V) : bool * switch_apr_queue_t V :=
  if terminated q then (false, q)
  else match trypush_locked q (Some d) with
       | (Return rv _ _, q') => (bool_decide (rv = APR_SUCCESS), q')
       | (_, q') => (false, q')
       end.

Definition switch_queue_trypop (q : switch_apr_queue_t V) : option V * switch_apr_queue_t V :=
  if terminated q then (None, q)
  else match trypop_locked q with
       | (Return APR_SUCCESS (Some (Some d)) _, q') => (Some d, q')
       | (_, q') => (None, q')
       end.

#[export] Instance apr_try_queue : TryQueue (switch_apr_queue_t V) V := {
  tq_push := switch_queue_trypush;
  tq_pop := switch_queue_trypop;
  tq_size := switch_apr_queue_size;
}.

(** A ring in use, without NULL elements. *)
Definition apr_ok (n : Z) (q : switch_apr_queue_t V) : Prop :=
  ring q /\ bounds q = n /\ terminated q = false /\ Forall is_Some (contents q).

Definition apr_list (q : switch_apr_queue_t V) : list V := omap id (contents q).

Lemma omap_some (l : list (option V)) : Forall is_Some l -> map Some (omap id l) = l.
Proof.
  induction 1 as [|x l [y ->] Hl IH]; [done|]. cbn [omap list_omap id]. cbn. by rewrite IH.
Qed.

Lemma apr_length n q : apr_ok n q -> Z.of_nat (length (apr_list q)) = nelts q.
Proof.
  intros (R & _ & _ & HS). rewrite <- (contents_length q R), <- (omap_some _ HS) at 1. by rewrite length_map.
Qed.

Lemma apr_push_room n q d :
  apr_ok n q -> Z.of_nat (length (apr_list q)) < n ->
  exists q', switch_queue_trypush q d = (true, q') /\ apr_ok n q' /\ apr_list q' = apr_list q ++ [d].
Proof.
  intros Hok Hlt. rewrite (apr_length n q Hok) in Hlt. destruct Hok as (R & Hb & Ht & HS).
  assert (apr_queue_full q = false) as Hf by (unfold apr_queue_full; apply Z.eqb_neq; lia).
  destruct (put_spec q (Some d) R Hf) as [R' C']. unfold switch_queue_trypush, trypush_locked. rewrite Ht, Hf.
  exists (put q (Some d)).2. split; [done|]. split.
  - split_and!; [done|by rewrite <- Hb|by rewrite <- Ht|]. rewrite C'. apply Forall_app. split; [done|]. by repeat constructor.
  - unfold apr_list. rewrite C', omap_app. done.
Qed.

Lemma apr_pop_some n q d l :
  apr_ok n q -> apr_list q = d :: l ->
  exists q', switch_queue_trypop q = (Some d, q') /\ apr_ok n q' /\ apr_list q' = l.
Proof.
  intros Hok Hl. pose proof (apr_length n q Hok) as HL. rewrite Hl in HL. cbn [length] in HL.
  destruct Hok as (R & Hb & Ht & HS).
  assert (apr_queue_empty q = false) as Hf by (unfold apr_queue_empty; apply Z.eqb_neq; lia).
  destruct (take_spec q R Hf) as (R' & x & Hx & C'). unfold switch_queue_trypop, trypop_locked. rewrite Ht, Hf.
  unfold apr_list in Hl. rewrite C' in Hl, HS. apply Forall_cons in HS as [[y ->] HS]. injection Hl as -> Hl.
  exists (take_ q).2. split; [unfold take_; by rewrite Hx|]. split; [by split_and!; [|rewrite <- Hb|rewrite <- Ht|]|done].
Qed.

End apr.

#[export] Program Instance apr_try_queue_laws {V} : TryQueueLaws (Queue.switch_apr_queue_t V) V := {
  tq_ok := apr_ok;
  tq_list := apr_list;
}.
Next Obligation. intros V n q Hok. rewrite (apr_length n q Hok). destruct Hok as ([] & <- & _). lia. Qed.
Next Obligation.
  intros V n q d Hok HL. rewrite (apr_length n q Hok) in HL. destruct Hok as (R & Hb & Ht & _).
  cbn. unfold switch_queue_trypush, Queue.trypush_locked. rewrite Ht.
  assert (Queue.apr_queue_full q = true) as -> by (unfold Queue.apr_queue_full; apply Z.eqb_eq; congruence). done.
Qed.
Next Obligation. intros V. apply apr_push_room. Qed.
Next Obligation.
  intros V n q Hok HL. pose proof (apr_length n q Hok) as Hn. rewrite HL in Hn. destruct Hok as (R & Hb & Ht & _).
  cbn. unfold switch_queue_trypop, Queue.trypop_locked. rewrite Ht.
  assert (Queue.apr_queue_empty q = true) as -> by (unfold Queue.apr_queue_empty; apply Z.eqb_eq; done). done.
Qed.
Next Obligation. intros V. apply apr_pop_some. Qed.
Next Obligation. intros V n q Hok. by rewrite (apr_length n q Hok). Qed.

(** ** Durations (switch_core.c) *)

Definition SWITCH_MIN_DTMF_DURATION : Z := 400.
Definition SWITCH_DEFAULT_DTMF_DURATION : Z := 2000.
Definition SWITCH_MAX_DTMF_DURATION : Z := 192000.

Record runtime := mk_runtime { max_dtmf_duration : Z; default_dtmf_duration : Z; min_dtmf_duration : Z }.

#[export] Instance rebuild_runtime : Rebuild runtime := fun r =>
  mk_runtime (max_dtmf_duration r) (default_dtmf_duration r) (min_dtmf_duration r).
#[export] Instance set_max : Setter max_dtmf_duration := ltac:(derive_setter).
#[export] Instance set_default : Setter default_dtmf_duration := ltac:(derive_setter).
#[export] Instance set_min : Setter min_dtmf_duration := ltac:(derive_setter).

Definition initial_runtime : runtime :=
  mk_runtime SWITCH_MAX_DTMF_DURATION SWITCH_DEFAULT_DTMF_DURATION SWITCH_MIN_DTMF_DURATION.

Definition limit_duration (duration : Z) : Z :=
  let duration := if duration >? SWITCH_MAX_DTMF_DURATION then SWITCH_MAX_DTMF_DURATION else duration in
  if duration <? SWITCH_MIN_DTMF_DURATION then SWITCH_MIN_DTMF_DURATION else duration.

Definition switch_core_max_dtmf_duration (r : runtime) (duration : Z) : Z * runtime :=
  let r :=
    if negb (duration =? 0) then
      let duration := limit_duration duration in
      let r := r <| max_dtmf_duration := duration |> in
      if duration <? min_dtmf_duration r then r <| min_dtmf_duration := duration |> else r
    else r in
  (max_dtmf_duration r, r).

Definition switch_core_default_dtmf_duration (r : runtime) (duration : Z) : Z * runtime :=
  let r :=
    if negb (duration =? 0) then
      let duration := limit_duration duration in
      let r := r <| default_dtmf_duration := duration |> in
      let r := if duration <? min_dtmf_duration r then r <| min_dtmf_duration := duration |> else r in
      if duration >? max_dtmf_duration r then r <| max_dtmf_duration := duration |> else r
    else r in
  (default_dtmf_duration r, r).

Definition switch_core_min_dtmf_duration (r : runtime) (duration : Z) : Z * runtime :=
  let r :=
    if negb (duration =? 0) then
      let duration := limit_duration duration in
      let r := r <| min_dtmf_duration := duration |> in
      if duration >? max_dtmf_duration r then r <| max_dtmf_duration := duration |> else r
    else r in
  (min_dtmf_duration r, r).

(** ** Digits *)

Definition DTMF_FLAG_SKIP_PROCESS : Z := 1.
Definition DTMF_FLAG_SENSITIVE : Z := 2.

Inductive switch_dtmf_source_t :=
  | SWITCH_DTMF_UNKNOWN | SWITCH_DTMF_INBAND_AUDIO | SWITCH_DTMF_RTP | SWITCH_DTMF_ENDPOINT | SWITCH_DTMF_APP.

(** [digit] is a character code. *)
Record switch_dtmf_t := mk_dtmf { digit : Z; duration : Z; flags : Z; source : switch_dtmf_source_t }.

#[export] Instance rebuild_dtmf : Rebuild switch_dtmf_t := fun d => mk_dtmf (digit d) (duration d) (flags d) (source d).
#[export] Instance set_digit : Setter digit := ltac:(derive_setter).
#[export] Instance set_duration : Setter duration := ltac:(derive_setter).
#[export] Instance set_flags : Setter flags := ltac:(derive_setter).

Definition is_dtmf (key : Z) : bool :=
  ((key >? 47) && (key <? 58)) || ((key >? 64) && (key <? 69)) || ((key >? 96) && (key <? 101))
  || (key =? 35) || (key =? 42) || (key =? 87) || (key =? 119) || (key =? 70) || (key =? 102).

Section dtmf.
Context {Q : Type} `{!TryQueue Q switch_dtmf_t}.

Inductive action :=
  | MediaBreak                                          (* switch_core_media_break *)
  | FireDtmf (digit duration : Z) (source : switch_dtmf_source_t). (* the DTMF event *)

Record dtmf_state := mk_dtmfs { dtmf_queue : Q; dtmf_log_queue : Q; live : Z; trace : list action }.

#[export] Instance rebuild_dtmfs : Rebuild dtmf_state := fun s =>
  mk_dtmfs (dtmf_queue s) (dtmf_log_queue s) (live s) (trace s).
#[export] Instance set_dtmf_queue : Setter dtmf_queue := ltac:(derive_setter).
#[export] Instance set_dtmf_log_queue : Setter dtmf_log_queue := ltac:(derive_setter).
#[export] Instance set_live : Setter live := ltac:(derive_setter).
#[export] Instance set_trace : Setter trace := ltac:(derive_setter).

(** What the rest of the program answers: the durations in force, the variable
    sensitive_dtmf, the session's switch_core_session_recv_dtmf, whether the
    channel is in CS_HANGUP or later. *)
Record env := {
  rt : runtime;
  sensitive_dtmf : bool;
  recv_dtmf : switch_dtmf_t -> switch_status_t;
  down : bool;
}.

Implicit Types (s : dtmf_state) (e : env).

Definition max_duration e : Z := (switch_core_max_dtmf_duration (rt e) 0).1.
Definition min_duration e : Z := (switch_core_min_dtmf_duration (rt e) 0).1.
Definition default_duration e : Z := (switch_core_default_dtmf_duration (rt e) 0).1.

Definition switch_channel_has_dtmf s : Z := tq_size (dtmf_queue s).

(** The [while] loop of switch_channel_queue_dtmf: push, popping the oldest digit
    when the queue is full, at most 101 times.  The result: was it pushed. *)
Fixpoint push_loop (fuel : nat) s (d : switch_dtmf_t) (x : Z) : option (bool * dtmf_state) :=
  match fuel with
  | O => None
  | S fuel =>
      let '(ok, q) := tq_push (dtmf_queue s) d in
      let s := s <| dtmf_queue := q |> in
      if ok then Some (true, s)
      else
        let '(pop, q) := tq_pop (dtmf_queue s) in
        let s := s <| dtmf_queue := q |> in
        let s := match pop with Some _ => s <| live := live s - 1 |> | None => s end in
        let x := x + 1 in
        if x >? 100 then Some (false, s <| live := live s - 1 |>) else push_loop fuel s d x
  end.

(** The duration a digit is queued with. *)
Definition queued_duration e (d : switch_dtmf_t) : Z :=
  let dur :=
    if negb (digit d =? 119) && negb (digit d =? 87) then
      if duration d >? max_duration e then max_duration e
      else if duration d <? min_duration e then min_duration e
      else duration d
    else duration d in
  if dur =? 0 then default_duration e else dur.

(** A failing switch_core_session_recv_dtmf gives SWITCH_STATUS_FALSE: the status
    is assigned the value of the comparison. *)
Definition switch_channel_queue_dtmf s e (dtmf : switch_dtmf_t) : option (switch_status_t * dtmf_state) :=
  let new_dtmf := if sensitive_dtmf e then dtmf <| flags := set_flag (flags dtmf) DTMF_FLAG_SENSITIVE |> else dtmf in
  match (if negb (bool_decide (recv_dtmf e dtmf = SWITCH_STATUS_SUCCESS)) then Some (SWITCH_STATUS_FALSE, s)
       else if is_dtmf (digit new_dtmf) then
         let new_dtmf := new_dtmf <| duration := queued_duration e new_dtmf |> in
         let s := s <| live := live s + 1 |> in
         match push_loop 101 s new_dtmf 0 with
         | Some (ok, s) => Some (if ok then SWITCH_STATUS_SUCCESS else SWITCH_STATUS_FALSE, s)
         | None => None
         end
       else Some (SWITCH_STATUS_SUCCESS, s)) with
  | Some (status, s) => Some (status, s <| trace := trace s ++ [MediaBreak] |>)
  | None => None
  end.

(** The duration a digit is read with. *)
Definition read_duration e (d : switch_dtmf_t) : Z :=
  if duration d >? max_duration e then max_duration e
  else if duration d <? min_duration e then min_duration e
  else if duration d =? 0 then default_duration e
  else duration d.

(** The digit goes to the log unless it is sensitive; a digit that does not fit
    there is freed. *)
Definition switch_channel_dequeue_dtmf s e : switch_status_t * option switch_dtmf_t * dtmf_state :=
  match tq_pop (dtmf_queue s) with
  | (Some dt, q) =>
      let s := s <| dtmf_queue := q |> in
      let sensitive := test_flag (flags dt) DTMF_FLAG_SENSITIVE in
      let s :=
        if negb sensitive then
          let '(ok, q) := tq_push (dtmf_log_queue s) dt in
          let s := s <| dtmf_log_queue := q |> in
          if ok then s else s <| live := live s - 1 |>
        else s in
      let dtmf := dt <| duration := read_duration e dt |> in
      let s := if negb sensitive then s <| trace := trace s ++ [FireDtmf (digit dtmf) (duration dtmf) (source dtmf)] |> else s in
      (SWITCH_STATUS_SUCCESS, Some dtmf, s)
  | (None, q) => (SWITCH_STATUS_FALSE, None, s <| dtmf_queue := q |>)
  end.

(** [len - 1] reads at most, the digits as characters. *)
Fixpoint dequeue_digits (n : nat) s e : list Z * dtmf_state :=
  match n with
  | O => ([], s)
  | S n =>
      match switch_channel_dequeue_dtmf s e with
      | (SWITCH_STATUS_SUCCESS, Some d, s) => let '(l, s) := dequeue_digits n s e in (digit d :: l, s)
      | (_, _, s) => ([], s)
      end
  end.

(** For a buffer of [len] > 0 bytes. *)
Definition switch_channel_dequeue_dtmf_string s e (len : Z) : list Z * dtmf_state :=
  dequeue_digits (Z.to_nat (len - 1)) s e.

(** [while] there is a digit: to the log, or freed.  [fuel] exceeds the number of
    digits. *)
Fixpoint flush_loop (fuel : nat) s e : option dtmf_state :=
  match fuel with
  | O => None
  | S fuel =>
      match tq_pop (dtmf_queue s) with
      | (Some dt, q) =>
          let s := s <| dtmf_queue := q |> in
          if down e then flush_loop fuel (s <| live := live s - 1 |>) e
          else
            let '(ok, q) := tq_push (dtmf_log_queue s) dt in
            let s := s <| dtmf_log_queue := q |> in
            flush_loop fuel (if ok then s else s <| live := live s - 1 |>) e
      | (None, q) => Some (s <| dtmf_queue := q |>)
      end
  end.

Definition switch_channel_flush_dtmf s e : option dtmf_state :=
  flush_loop (S (Z.to_nat (tq_size (dtmf_queue s)))) s e.

(** ** Digits given as a string *)

Fixpoint chars (str : string) : list Z :=
  match str with String c str => Z.of_N (N_of_ascii c) :: chars str | EmptyString => [] end.

(** strchr for '@': the parts before and after it. *)
Fixpoint split_at (str : string) : string * option string :=
  match str with
  | EmptyString => ("", None)
  | String c str =>
      if Ascii.eqb c "@"%char then ("", Some str)
      else let '(a, b) := split_at str in (String c a, b)
  end.

(** The digits of one piece.  [sent] and [bad_input] are counted. *)
Fixpoint queue_chars s e (dtmf : switch_dtmf_t) (cs : list Z) (sent bad_input : Z) : option (Z * Z * dtmf_state) :=
  match cs with
  | [] => Some (sent, bad_input, s)
  | p :: cs =>
      if is_dtmf p then
        let dtmf := dtmf <| digit := p |> in
        let dtmf := dtmf <| duration := read_duration e dtmf |> in
        match switch_channel_queue_dtmf s e dtmf with
        | Some (status, s) =>
            queue_chars s e dtmf cs (if bool_decide (status = SWITCH_STATUS_SUCCESS) then sent + 1 else sent) bad_input
        | None => None
        end
      else queue_chars s e dtmf cs sent (bad_input + 1)
  end.

Fixpoint queue_pieces s e (flags0 : Z) (argv : list string) (sent bad_input : Z) : option (Z * Z * dtmf_state) :=
  match argv with
  | [] => Some (sent, bad_input, s)
  | arg :: argv =>
      let '(digits, at_) := split_at arg in
      let dur := match at_ with
                 | Some p => if Text.atoi p >? s32 (min_duration e) / 8 then u32 (Text.atoi p * 8) else default_duration e
                 | None => default_duration e
                 end in
      match queue_chars s e (mk_dtmf 0 dur flags0 SWITCH_DTMF_APP) (chars digits) sent bad_input with
      | Some (sent, bad_input, s) => queue_pieces s e flags0 argv sent bad_input
      | None => None
      end
  end.

Definition switch_channel_queue_dtmf_string s e (dtmf_string : option string) : option (switch_status_t * dtmf_state) :=
  match dtmf_string with
  | None | Some EmptyString => Some (SWITCH_STATUS_GENERR, s)
  | Some (String c rest as str) =>
      let '(flags0, str) := if Ascii.eqb c "~"%char then (0, rest) else (DTMF_FLAG_SKIP_PROCESS, str) in
      match Text.switch_separate_string (Some str) "+" 256 with
      | Some argv =>
          match queue_pieces s e flags0 argv 0 0 with
          | Some (sent, bad_input, s) =>
              Some (if negb (sent =? 0) then SWITCH_STATUS_SUCCESS
                    else if negb (bad_input =? 0) then SWITCH_STATUS_GENERR else SWITCH_STATUS_FALSE, s)
          | None => None
          end
      | None => None
      end
  end.

End dtmf.

(** ** Properties *)

Section properties.
Context {Q : Type} `{!TryQueue Q switch_dtmf_t, !TryQueueLaws Q switch_dtmf_t}.
Implicit Types (s : dtmf_state (Q := Q)) (e : env) (d : switch_dtmf_t).

Record dtmf_ok (n : Z) s : Prop := { k_queue : tq_ok n (dtmf_queue s); k_log : tq_ok n (dtmf_log_queue s) }.

Definition digits s : list switch_dtmf_t := tq_list (dtmf_queue s).
Definition logged s : list switch_dtmf_t := tq_list (dtmf_log_queue s).

(** The newest [n] of the elements. *)
Definition newest {A} (n : Z) (l : list A) : list A := drop (length l - Z.to_nat n) l.

(** Two passes are enough. *)
Lemma push_loop_spec k n s d :
  1 <= n -> dtmf_ok n s ->
  exists s', push_loop (S (S k)) s d 0 = Some (true, s') /\ dtmf_ok n s'
  /\ digits s' = newest n (digits s ++ [d]) /\ logged s' = logged s
  /\ live s' = live s + Z.of_nat (length (digits s')) - Z.of_nat (length (digits s)) - 1.
Proof.
  intros Hn [H1 H2]. cbn [push_loop]. pose proof (tq_bound n _ H1) as HB. fold (digits s) in *.
  unfold newest. rewrite length_app. cbn [length].
  destruct (Z.eq_dec (Z.of_nat (length (digits s))) n) as [E|E].
  - rewrite (tq_push_full n _ d H1 E). change (dtmf_queue (s <| dtmf_queue := ?q |>)) with q.
    destruct (digits s) as [|d0 l] eqn:El; [cbn in E; lia|]. destruct (tq_pop_some n _ d0 l H1 El) as (q & -> & Hq & Lq).
    cbn [length] in E. change (0 + 1 >? 100) with false. cbn [dtmf_queue].
    change (dtmf_queue (s <| dtmf_queue := dtmf_queue s |> <| dtmf_queue := q |> <| live := ?x |>)) with q.
    destruct (tq_push_room n q d Hq) as (q' & -> & Hq' & Lq'); [rewrite Lq; lia|].
    eexists. split; [reflexivity|]. split; [by constructor|]. unfold digits, logged. cbn.
    rewrite Lq', Lq. replace (S (length l + 1) - Z.to_nat n)%nat with 1%nat by lia. split_and!; [done|done|].
    rewrite length_app. cbn. lia.
  - destruct (tq_push_room n _ d H1) as (q & -> & Hq & Lq); [fold (digits s); lia|]. eexists. split; [reflexivity|].
    split; [by constructor|]. unfold digits, logged in *. cbn. rewrite Lq.
    replace (length (tq_list (dtmf_queue s)) + 1 - Z.to_nat n)%nat with 0%nat by lia. split_and!; [done|done|].
    rewrite length_app. cbn. lia.
Qed.

(** A digit as it is stored. *)
Definition prepared e d : switch_dtmf_t :=
  let d := if sensitive_dtmf e then d <| flags := set_flag (flags d) DTMF_FLAG_SENSITIVE |> else d in
  d <| duration := queued_duration e d |>.

Definition accepted e d : bool := bool_decide (recv_dtmf e d = SWITCH_STATUS_SUCCESS) && is_dtmf (digit d).

Lemma queue_dtmf_spec n s e d :
  1 <= n -> dtmf_ok n s ->
  exists st s', switch_channel_queue_dtmf s e d = Some (st, s') /\ dtmf_ok n s' /\ logged s' = logged s
  /\ digits s' = (if accepted e d then newest n (digits s ++ [prepared e d]) else digits s)
  /\ live s' - Z.of_nat (length (digits s')) = live s - Z.of_nat (length (digits s)).
Proof.
  intros Hn Hok. unfold switch_channel_queue_dtmf, accepted. case_bool_decide as Hr; cbn [negb andb].
  2: { eexists _, _. split; [reflexivity|]. destruct Hok. by split. }
  assert (digit (if sensitive_dtmf e then d <| flags := set_flag (flags d) DTMF_FLAG_SENSITIVE |> else d) = digit d) as ->
    by (by destruct (sensitive_dtmf e)).
  destruct (is_dtmf (digit d)).
  2: { eexists _, _. split; [reflexivity|]. destruct Hok. by split. }
  fold (prepared e d). set (s1 := s <| live := live s + 1 |>).
  assert (dtmf_ok n s1) as H1 by (by destruct Hok).
  destruct (push_loop_spec 99 n s1 (prepared e d) Hn H1) as (s' & -> & H2 & H3 & H4 & H5).
  eexists _, _. split; [reflexivity|]. unfold digits, logged in *. split; [by destruct H2|]. split; [exact H4|].
  split; [exact H3|]. cbn. change (live s1) with (live s + 1) in H5. change (dtmf_queue s1) with (dtmf_queue s) in H5. lia.
Qed.

Lemma dequeue_spec n s e :
  dtmf_ok n s ->
  match digits s with
  | [] => exists s', switch_channel_dequeue_dtmf s e = (SWITCH_STATUS_FALSE, None, s') /\ dtmf_ok n s'
            /\ digits s' = [] /\ logged s' = logged s /\ live s' = live s
  | d :: l => exists s', switch_channel_dequeue_dtmf s e = (SWITCH_STATUS_SUCCESS, Some (d <| duration := read_duration e d |>), s')
            /\ dtmf_ok n s' /\ digits s' = l
            /\ live s' - Z.of_nat (length (logged s')) - Z.of_nat (length (digits s'))
               = live s - Z.of_nat (length (logged s)) - Z.of_nat (length (digits s))
                 + Z.b2z (test_flag (flags d) DTMF_FLAG_SENSITIVE)
  end.
Proof.
  intros [H1 H2]. unfold switch_channel_dequeue_dtmf. destruct (digits s) as [|d l] eqn:El; unfold digits in El.
  { rewrite (tq_pop_empty n _ H1 El). eexists. split; [reflexivity|]. by split. }
  destruct (tq_pop_some n _ d l H1 El) as (q & -> & Hq & Lq). cbv zeta. unfold digits, logged.
  destruct (test_flag (flags d) DTMF_FLAG_SENSITIVE); cbn [negb].
  { eexists. split; [reflexivity|]. split; [by constructor|]. cbn. rewrite Lq. cbn. split; [done|lia]. }
  change (dtmf_log_queue (s <| dtmf_queue := q |>)) with (dtmf_log_queue s).
  pose proof (tq_bound n _ H2) as HB.
  destruct (Z.eq_dec (Z.of_nat (length (tq_list (dtmf_log_queue s)))) n) as [E|E].
  - rewrite (tq_push_full n _ d H2 E). eexists. split; [reflexivity|]. split; [by constructor|]. cbn. rewrite Lq. cbn. split; [done|lia].
  - destruct (tq_push_room n _ d H2) as (q' & -> & Hq' & Lq'); [lia|]. eexists. split; [reflexivity|]. split; [by constructor|].
    cbn. rewrite Lq, Lq', length_app. cbn. split; [done|lia].
Qed.

Fixpoint queue_all s e (ds : list switch_dtmf_t) : option dtmf_state :=
  match ds with
  | [] => Some s
  | d :: ds => match switch_channel_queue_dtmf s e d with Some (_, s) => queue_all s e ds | None => None end
  end.

Lemma newest_app {A} n (l1 l2 : list A) x : newest n (newest n (l1 ++ [x]) ++ l2) = newest n (l1 ++ x :: l2).
Proof.
  change (l1 ++ x :: l2) with (l1 ++ [x] ++ l2). rewrite app_assoc. generalize (l1 ++ [x]) as l. intros l.
  unfold newest. rewrite !length_app, length_drop. rewrite !drop_app, drop_drop, length_drop. f_equal; f_equal; lia.
Qed.

Lemma newest_short {A} n (l : list A) : Z.of_nat (length l) <= n -> newest n l = l.
Proof. intros H. unfold newest. replace (length l - Z.to_nat n)%nat with 0%nat by lia. done. Qed.

Lemma queue_all_spec n s e ds :
  1 <= n -> dtmf_ok n s -> Forall (fun d => accepted e d = true) ds ->
  exists s', queue_all s e ds = Some s' /\ dtmf_ok n s' /\ digits s' = newest n (digits s ++ map (prepared e) ds).
Proof.
  intros Hn. revert s. induction ds as [|d ds IH]; intros s Hok HF; cbn [queue_all map].
  { exists s. split_and!; [done|done|]. rewrite app_nil_r, newest_short; [done|]. apply tq_bound, Hok. }
  apply Forall_cons in HF as [Hd HF]. destruct (queue_dtmf_spec n s e d Hn Hok) as (st & s1 & -> & H1 & _ & H2 & _).
  rewrite Hd in H2. destruct (IH s1 H1 HF) as (s' & E & H3 & H4). exists s'. split_and!; [done|done|].
  by rewrite H4, H2, newest_app.
Qed.

Lemma dequeue_digits_spec n s e : dtmf_ok n s -> (dequeue_digits (length (digits s)) s e).1 = map digit (digits s).
Proof.
  remember (digits s) as l eqn:El. revert s El. induction l as [|d l IH]; intros s El Hok; [done|]. cbn [length dequeue_digits].
  pose proof (dequeue_spec n s e Hok) as HD. rewrite <- El in HD. destruct HD as (s' & -> & H1 & H2 & _).
  specialize (IH s' (eq_sym H2) H1). destruct (dequeue_digits (length l) s' e) as [l' s2]. cbn in *. by rewrite IH.
Qed.

(** The limits of durations that the core keeps: positive and in order. *)
Definition limits_ok (r : runtime) : Prop := 0 < min_dtmf_duration r <= max_dtmf_duration r.

Lemma limits_kept r (d : Z) : limits_ok r ->
  limits_ok (switch_core_max_dtmf_duration r d).2 /\ limits_ok (switch_core_default_dtmf_duration r d).2 /\ limits_ok (switch_core_min_dtmf_duration r d).2.
Proof.
  unfold limits_ok, switch_core_max_dtmf_duration, switch_core_default_dtmf_duration, switch_core_min_dtmf_duration. intros H.
  assert (0 < limit_duration d) as Hd by (unfold limit_duration, SWITCH_MIN_DTMF_DURATION, SWITCH_MAX_DTMF_DURATION; cbv zeta; destruct (Z.gtb_spec d 192000); match goal with |- context [?u <? ?w] => destruct (Z.ltb_spec u w) end; lia).
  cbv zeta. set (x := limit_duration d) in *. clearbody x. destruct (negb (d =? 0)); [|done].
  split_and!; cbn; repeat match goal with |- context [?u <? ?w] => destruct (Z.ltb_spec u w) | |- context [?u >? ?w] => destruct (Z.gtb_spec u w) end; cbn in *; lia.
Qed.

(** A digit and how it is stored: the same key from the same source, marked if the channel says so, and for a duration that
    is brought between the limits; for a pause (w or W) the duration is kept, and it is the default one if there is none. *)
Record stored e (d d' : switch_dtmf_t) : Prop := {
  st_digit : digit d' = digit d;
  st_source : source d' = source d;
  st_flags : flags d' = if sensitive_dtmf e then Z.lor (flags d) 2 else flags d;
  st_duration : duration d' =
    if decide (digit d = 119 \/ digit d = 87)
    then if decide (duration d = 0) then default_dtmf_duration (rt e) else duration d
    else Z.max (min_dtmf_duration (rt e)) (Z.min (duration d) (max_dtmf_duration (rt e)));
}.

Lemma prepared_stored e d : limits_ok (rt e) -> stored e d (prepared e d).
Proof.
  intros [H0 H1]. unfold prepared. set (d1 := if sensitive_dtmf e then _ else d).
  assert (digit d1 = digit d /\ source d1 = source d /\ duration d1 = duration d /\ flags d1 = if sensitive_dtmf e then Z.lor (flags d) 2 else flags d) as (E1 & E2 & E3 & E4)
    by (unfold d1; by destruct (sensitive_dtmf e)).
  constructor; cbn; [done..|]. unfold queued_duration, max_duration, min_duration, default_duration. cbn. rewrite E1, E3.
  destruct (Z.eqb_spec (digit d) 119), (Z.eqb_spec (digit d) 87); cbn [negb andb];
    try (rewrite decide_True by lia; destruct (Z.eqb_spec (duration d) 0); destruct (decide _); done || lia).
  rewrite decide_False by lia. destruct (Z.gtb_spec (duration d) (max_dtmf_duration (rt e))); [|destruct (Z.ltb_spec (duration d) (min_dtmf_duration (rt e)))];
    rewrite (proj2 (Z.eqb_neq _ 0)) by lia; lia.
Qed.

(** C30. The digit queue keeps the latest digits.  Digits that the session accepts
    are stored in order, with their durations brought between the shortest and the longest one (pauses keep theirs, or get the
    default if they have none); when the queue (of [n]
    places) is full the oldest one makes room, so that after any number of
    digits it holds the newest [n], and reading returns them first in first
    out. *)
Theorem dtmf_queue_keeps_newest n s e ds :
  1 <= n -> limits_ok (rt e) -> dtmf_ok n s -> Forall (fun d => accepted e d = true) ds ->
  exists s' ds', queue_all s e ds = Some s' /\ dtmf_ok n s' /\ Forall2 (stored e) ds ds' /\ digits s' = newest n (digits s ++ ds')
  /\ switch_channel_has_dtmf s' = Z.of_nat (length (digits s'))
  /\ (dequeue_digits (length (digits s')) s' e).1 = map digit (digits s').
Proof.
  intros Hn Hlim Hok HF. destruct (queue_all_spec n s e ds Hn Hok HF) as (s' & E & H1 & H2).
  exists s', (map (prepared e) ds). split_and!; [done|done| |done| |by apply (dequeue_digits_spec n)]; [|apply (tq_size_list n), H1].
  apply Forall2_fmap_r. apply Forall_Forall2_diag. apply Forall_true. intros d. by apply prepared_stored.
Qed.

(** ** Ownership *)

Inductive dtmf_op := OpQueue (d : switch_dtmf_t) | OpDequeue | OpFlush.

(** The new state and the number of sensitive digits read. *)
Definition dtmf_step s e (o : dtmf_op) : option (dtmf_state * Z) :=
  match o with
  | OpQueue d => match switch_channel_queue_dtmf s e d with Some (_, s) => Some (s, 0) | None => None end
  | OpDequeue =>
      let '(_, d, s) := switch_channel_dequeue_dtmf s e in
      Some (s, match d with Some d => Z.b2z (test_flag (flags d) DTMF_FLAG_SENSITIVE) | None => 0 end)
  | OpFlush => match switch_channel_flush_dtmf s e with Some s => Some (s, 0) | None => None end
  end.

Fixpoint dtmf_run s (ops : list (dtmf_op * env)) : option (dtmf_state * Z) :=
  match ops with
  | [] => Some (s, 0)
  | (o, e) :: ops =>
      match dtmf_step s e o with
      | Some (s, x) => match dtmf_run s ops with Some (s, y) => Some (s, x + y) | None => None end
      | None => None
      end
  end.

(** Digits that are allocated but in neither queue. *)
Definition lost s : Z := live s - Z.of_nat (length (logged s)) - Z.of_nat (length (digits s)).

Lemma flush_loop_spec n fuel s e :
  dtmf_ok n s -> (length (digits s) < fuel)%nat ->
  exists s', flush_loop fuel s e = Some s' /\ dtmf_ok n s' /\ digits s' = [] /\ lost s' = lost s.
Proof.
  revert s. induction fuel as [|fuel IH]; intros s [H1 H2] Hf; [lia|]. cbn [flush_loop].
  destruct (digits s) as [|d l] eqn:El; unfold digits in El.
  { rewrite (tq_pop_empty n _ H1 El). eexists. split; [reflexivity|]. by split_and!. }
  destruct (tq_pop_some n _ d l H1 El) as (q & -> & Hq & Lq). cbv zeta. cbn [length] in Hf.
  assert (forall s1, dtmf_queue s1 = q -> tq_ok n (dtmf_log_queue s1) -> lost s1 = lost s ->
    exists s', flush_loop fuel s1 e = Some s' /\ dtmf_ok n s' /\ digits s' = [] /\ lost s' = lost s) as HI.
  { intros s1 E1 K1 E2. destruct (IH s1) as (s' & E & I1 & I2 & I3); [by constructor; rewrite ?E1|unfold digits; rewrite E1, Lq; lia|].
    exists s'. split_and!; congruence || done. }
  unfold lost, logged, digits in *. rewrite El in *. cbn [length] in *.
  destruct (down e). { apply HI; [done|done|]. cbn. rewrite Lq. lia. }
  change (dtmf_log_queue (s <| dtmf_queue := q |>)) with (dtmf_log_queue s). pose proof (tq_bound n _ H2) as HB.
  destruct (Z.eq_dec (Z.of_nat (length (tq_list (dtmf_log_queue s)))) n) as [E|E].
  - rewrite (tq_push_full n _ d H2 E). apply HI; [done|done|]. cbn. rewrite Lq. lia.
  - destruct (tq_push_room n _ d H2) as (q' & -> & Hq' & Lq'); [lia|]. apply HI; [done|done|].
    cbn. rewrite Lq, Lq', length_app. cbn. lia.
Qed.

Lemma dtmf_step_lost n s e o :
  1 <= n -> dtmf_ok n s -> exists s' x, dtmf_step s e o = Some (s', x) /\ dtmf_ok n s' /\ lost s' = lost s + x.
Proof.
  intros Hn Hok. unfold lost. destruct o; cbn [dtmf_step].
  - destruct (queue_dtmf_spec n s e d Hn Hok) as (st & s' & -> & H1 & H2 & _ & H4). exists s', 0. split_and!; [done|done|].
    rewrite H2. lia.
  - pose proof (dequeue_spec n s e Hok) as HD. destruct (digits s) as [|d l] eqn:El.
    + destruct HD as (s' & -> & H1 & H2 & H3 & H4). exists s', 0. split_and!; [done|done|]. rewrite H2, H3, H4. cbn. lia.
    + destruct HD as (s' & -> & H1 & H2 & H3). eexists s', _. split_and!; [reflexivity|done|].
      change (flags (d <| duration := ?x |>)) with (flags d). lia.
  - unfold switch_channel_flush_dtmf. rewrite (tq_size_list n) by apply Hok.
    destruct (flush_loop_spec n (S (Z.to_nat (Z.of_nat (length (tq_list (dtmf_queue s)))))) s e Hok) as (s' & -> & H1 & H2 & H3).
    { unfold digits. lia. }
    exists s', 0. split_and!; [done|done|]. unfold lost in H3. lia.
Qed.

(** C37. Ownership of digits.  Every operation returns, and over any sequence of
    them every digit allocated is in one of the two queues or freed, except
    that a digit marked sensitive is lost (never freed) when it is read. *)
Theorem dtmf_sensitive_digits_leak n s ops :
  1 <= n -> dtmf_ok n s ->
  exists s' x, dtmf_run s ops = Some (s', x) /\ dtmf_ok n s' /\ lost s' = lost s + x.
Proof.
  intros Hn. revert s. induction ops as [|[o e] ops IH]; intros s Hok; cbn [dtmf_run].
  { exists s, 0. split_and!; [done|done|lia]. }
  destruct (dtmf_step_lost n s e o Hn Hok) as (s1 & x & -> & H1 & H2).
  destruct (IH s1 H1) as (s2 & y & -> & H3 & H4). exists s2, (x + y). split_and!; [done|done|lia].
Qed.

End properties.

(** ** Examples *)

(** A channel whose queues have room for three digits. *)
Definition demo_state : dtmf_state (Q := Queue.switch_apr_queue_t switch_dtmf_t) :=
  mk_dtmfs (Queue.switch_apr_queue_create 3) (Queue.switch_apr_queue_create 3) 0 [].

Definition demo_env (sensitive : bool) : env := {|
  rt := initial_runtime; sensitive_dtmf := sensitive; recv_dtmf := fun _ => SWITCH_STATUS_SUCCESS;
  down := false |}.

Definition demo_digit (c : Z) : switch_dtmf_t := mk_dtmf c 0 0 SWITCH_DTMF_RTP.

Lemma demo_ok : dtmf_ok 3 demo_state.
Proof.
  assert (apr_ok 3 (Queue.switch_apr_queue_create (V := switch_dtmf_t) 3)) as H.
  { split; [|done]. exact (Queue.v_ring _ _ _ (Queue.inv_start 3 0 ltac:(lia))). }
  by constructor.
Qed.

(** Five digits in a queue of three: the last three are read. *)
Lemma dtmf_queue_keeps_newest_witness :
  exists s' ds', queue_all demo_state (demo_env false) (map demo_digit [49; 50; 51; 52; 53]) = Some s'
  /\ Forall2 (stored (demo_env false)) (map demo_digit [49; 50; 51; 52; 53]) ds' /\ digits s' = newest 3 ds'.
Proof.
  destruct (dtmf_queue_keeps_newest 3 demo_state (demo_env false) (map demo_digit [49; 50; 51; 52; 53]))
    as (s' & ds' & H1 & _ & H3 & H2 & _); [lia|by vm_compute|apply demo_ok|by repeat constructor|].
  exists s', ds'. split; [exact H1|]. split; [exact H3|exact H2].
Defined.

(** One sensitive digit queued and read: one digit is lost. *)
Lemma dtmf_sensitive_digits_leak_witness :
  exists s', dtmf_run demo_state [(OpQueue (demo_digit 49), demo_env true); (OpDequeue, demo_env true)] = Some (s', 1)
  /\ lost s' = 1.
Proof.
  destruct (dtmf_sensitive_digits_leak 3 demo_state [(OpQueue (demo_digit 49), demo_env true); (OpDequeue, demo_env true)])
    as (s' & x & H1 & _ & H2); [lia|apply demo_ok|].
  assert (x = 1) as -> by (assert (snd <$> dtmf_run demo_state [(OpQueue (demo_digit 49), demo_env true); (OpDequeue, demo_env true)] = Some 1)
    as E by (vm_compute; reflexivity); rewrite H1 in E; cbn in E; congruence).
  exists s'. split; [exact H1|]. rewrite H2. vm_compute. reflexivity.
Defined.

End ChannelDtmf.
