(* ===== verification/StateMachine.v ===== *)
(** * The session state machine (src/src/switch_core_state_machine.c)

    Every session has a thread that runs switch_core_session_run: as long as the
    channel is not in CS_DESTROY it enters the state the channel is in, calls the
    handlers for that state and sleeps until the state changes.  A state has up to
    five groups of handlers, called in this order: those of the channel and those
    of the core that are marked SSH_FLAG_PRE_EXEC, the one of the endpoint driver,
    the other ones of the channel and of the core, and the standard behaviour,
    which any of the others can veto.

    The channel is that of Channel.v.  Handlers, applications, hooks and the other
    threads are outside of this file: [behaviour] says what each of them returns
    and which operations it performs on the channel, and may depend on everything
    so far.  [calls] records the calls with their results, in the order in which
    they return, with a marker for every state entered.  [None] is a failed
    assertion.  The calls to the media engine, presence and event notification do
    not touch the channel and are left out.

    switch_channel_perform_hangup ends with a call of
    switch_core_session_hangup_state, which comes back here: when the early hangup
    is enabled and the thread is that of the session, the hangup handlers run at
    once, inside of the handler that hung up.  [perform] makes that call with
    [nested], the parameter of the definitions of this file; [early_hangup] is what
    it stands for in the whole machine.  A handler that runs inside cannot get
    there again ([early_hangup_enough]), so that one level is enough.  [depth] is
    the number of early hangups the thread is inside of, 0 or 1, and is noted with
    every call. *)

From S2P Require Import Prelude.
From S2P Require Import Text ChannelNames Channel ChannelTheorems.
From stdpp Require Import strings.
From Stdlib Require Import Ascii.

#[local] Open Scope string_scope.
#[local] Open Scope list_scope.
#[local] Open Scope Z_scope.

Module StateMachine.
Import ChannelNames Channel ChannelTheorems.

Definition CF_REDIRECT : Z := 8.
Definition CF_REPORTING : Z := 40.
Definition CF_THREAD_SLEEPING : Z := 46.
Definition CF_EARLY_HANGUP : Z := 54.
Definition CF_RECOVERING_BRIDGE : Z := 87.
Definition CF_NO_CDR : Z := 90.
Definition CF_STATE_REPEAT : Z := 165.
Definition SWITCH_CAUSE_WRONG_CALL_STATE : Z := 101.

(** Who handles a state. *)
Inductive party :=
  | Driver
  | App (h : switch_state_handler_table_t)
  | Core (h : switch_state_handler_table_t).

Inductive call :=
  | Enter (phase : switch_channel_state_t)
  | Handler (p : party) (phase : switch_channel_state_t)
  | Standard (phase : switch_channel_state_t)
  | WaitBlock | ParseMessages | StateRun | ParseEvents | Sleep | StopMedia | HangupHook | ReportingHook.

(** A call that has returned. *)
Record returned := mk_returned { at_depth : nat; what : call; result : switch_status_t }.

#[export] Instance party_eq_dec : EqDecision party.
Proof. solve_decision. Defined.
#[export] Instance call_eq_dec : EqDecision call.
Proof. solve_decision. Defined.

Record session := mk_session {
  channel : switch_channel;
  ssf_hangup : bool;                          (* SSF_HANGUP *)
  ssf_thread_running : bool;                  (* SSF_THREAD_RUNNING *)
  depth : nat;
  calls : list returned;
}.

#[export] Instance rebuild_session : Rebuild session := fun s =>
  mk_session (channel s) (ssf_hangup s) (ssf_thread_running s) (depth s) (calls s).
#[export] Instance set_session_channel : Setter channel := ltac:(derive_setter).
#[export] Instance set_ssf_hangup : Setter ssf_hangup := ltac:(derive_setter).
#[export] Instance set_ssf_thread_running : Setter ssf_thread_running := ltac:(derive_setter).
#[export] Instance set_depth : Setter depth := ltac:(derive_setter).
#[export] Instance set_calls : Setter calls := ltac:(derive_setter).

Implicit Types (s : session) (phase : switch_channel_state_t) (h : switch_state_handler_table_t).

Section machine.

(** The handler tables: those of the core, the flag SSH_FLAG_PRE_EXEC, and whether
    a table has a function for a state. *)
Context (core_handlers : list switch_state_handler_table_t).
Context (pre_exec : switch_state_handler_table_t -> bool).
Context (implements : party -> switch_channel_state_t -> bool).
Context (behaviour : session -> call -> switch_status_t * list (channel_op * env)).
Context (env_at : session -> env).

(** switch_core_session_hangup_state(session, SWITCH_FALSE), called from inside of
    switch_channel_perform_hangup. *)
Context (nested : env -> session -> option session).

Definition note s (k : call) (st : switch_status_t) : session := s <| calls := calls s ++ [mk_returned (depth s) k st] |>.

(** An operation on the channel, with the call that a hangup ends with. *)
Definition perform (oe : channel_op * env) s : option session :=
  match channel_step (channel s) oe with
  | Some c =>
      let s' := s <| channel := c |> in
      if calls_hangup_state (channel s) c then nested oe.2 s' else Some s'
  | None => None
  end.

Fixpoint perform_all (ops : list (channel_op * env)) s : option session :=
  match ops with
  | [] => Some s
  | oe :: ops => s ← perform oe s; perform_all ops s
  end.

Definition do_call (k : call) s : option (switch_status_t * session) :=
  let '(st, ops) := behaviour s k in
  match perform_all ops s with
  | Some s => Some (st, note s k st)
  | None => None
  end.

Definition do_ s (k : call) : option session := snd <$> do_call k s.

(** An operation of the channel that is not a hangup. *)
Definition on_channel s (r : option switch_channel) : option session :=
  match r with Some c => Some (s <| channel := c |>) | None => None end.

(** ** Calling the handlers of a state: STATE_MACRO *)

(** One handler: its absence counts as success. *)
Definition try_handler (p : party) phase s : option (bool * session) :=
  if implements p phase then
    match do_call (Handler p phase) s with
    | Some (st, s) => Some (bool_decide (st = SWITCH_STATUS_SUCCESS), s)
    | None => None
    end
  else Some (true, s).

(** The loop over the handlers of the channel from [index]; at most
    SWITCH_MAX_STATE_HANDLERS rounds, since there is no handler at that index. *)
Fixpoint channel_loop (rounds : nat) (index : Z) (pre : bool) phase (proceed : Z) s : option (Z * session) :=
  match rounds with
  | O => Some (proceed, s)
  | S rounds =>
      match switch_channel_get_state_handler (channel s) index with
      | None => None
      | Some None => Some (proceed, s)
      | Some (Some h) =>
          if Bool.eqb (pre_exec h) pre then
            match try_handler (App h) phase s with
            | Some (true, s) => channel_loop rounds (index + 1) pre phase (proceed + 1) s
            | Some (false, s) => Some (0, s)
            | None => None
            end
          else channel_loop rounds (index + 1) pre phase proceed s
      end
  end.

Fixpoint core_loop (l : list switch_state_handler_table_t) (pre : bool) phase (proceed : Z) s : option (Z * session) :=
  match l with
  | [] => Some (proceed, s)
  | h :: l =>
      if proceed =? 0 then Some (proceed, s)
      else if Bool.eqb (pre_exec h) pre then
        match try_handler (Core h) phase s with
        | Some (true, s) => core_loop l pre phase (proceed + 1) s
        | Some (false, s) => Some (0, s)
        | None => None
        end
      else core_loop l pre phase proceed s
  end.

(** [do_extra_handlers] turns the loops off. *)
Definition channel_part (do_extra : bool) (pre : bool) phase (proceed : Z) s : option (Z * session) :=
  if do_extra then channel_loop (S SWITCH_MAX_STATE_HANDLERS) 0 pre phase proceed s else Some (proceed, s).

Definition core_part (do_extra : bool) (pre : bool) phase (proceed : Z) s : option (Z * session) :=
  if do_extra then core_loop core_handlers pre phase proceed s else Some (proceed, s).

(** switch_core_standard_on_init. *)
Definition switch_core_standard_on_init s : option session :=
  let c := channel s in
  match (if has_flag c CF_RECOVERING_BRIDGE then switch_channel_perform_set_state c CS_RESET
         else if has_flag c CF_RECOVERING then switch_channel_perform_set_state c CS_EXECUTE
         else switch_channel_perform_set_state c CS_ROUTING) with
  | Some c => on_channel (note s (Standard CS_INIT) SWITCH_STATUS_SUCCESS) (switch_channel_clear_flag c (env_at s) CF_RECOVERING)
  | None => None
  end.

(** The recovery flag, then the remaining applications of a channel that runs
    them after its hangup. *)
Definition switch_core_standard_on_hangup s : option session :=
  match on_channel s (switch_channel_clear_flag (channel s) (env_at s) CF_RECOVERING) with
  | Some s => do_ s (Standard CS_HANGUP)
  | None => None
  end.

(** The standard behaviours: those of routing, execution, reset and park work
    through applications and dialplans, the others only write a log line. *)
Definition standard phase s : option session :=
  match phase with
  | CS_INIT => switch_core_standard_on_init s
  | CS_HANGUP => switch_core_standard_on_hangup s
  | CS_ROUTING | CS_EXECUTE | CS_RESET | CS_PARK => do_ s (Standard phase)
  | _ => Some (note s (Standard phase) SWITCH_STATUS_SUCCESS)
  end.

(** [state0] is the caller's local variable [state]. *)
Definition state_macro phase (state0 : switch_channel_state_t) (do_extra : bool) s : option session :=
  let midstate := state0 in
  let s := note s (Enter phase) SWITCH_STATUS_SUCCESS in
  let s := if (cs state0 <? cs CS_HANGUP) && bool_decide (callstate (channel s) = CCS_UNHELD)
           then s <| channel := switch_channel_perform_set_callstate (channel s) CCS_ACTIVE |> else s in
  '(proceed, s) ← channel_part do_extra true phase 1 s;
  let global_proceed := negb (proceed =? 0) in
  '(proceed, s) ← core_part do_extra true phase 1 s;
  let global_proceed := global_proceed && negb (proceed =? 0) in
  '(ok, s) ← try_handler Driver phase s;
  if ok : bool then
    '(proceed, s) ← channel_part do_extra false phase proceed s;
    let global_proceed := global_proceed && negb (proceed =? 0) in
    '(proceed, s) ← core_part do_extra false phase 1 s;
    let global_proceed := global_proceed && negb (proceed =? 0) && bool_decide (midstate = state (channel s)) in
    if global_proceed then standard phase s else Some s
  else Some s.

(** ** The states at the end of a call *)

(** Is the early hangup enabled for the core. *)
Context (scf_early_hangup : bool).

Definition switch_core_session_hangup_state (e : env) s (force : bool) : option session :=
  let c := channel s in
  if negb force && ((negb (has_flag c CF_EARLY_HANGUP) && negb scf_early_hangup) || negb (in_thread e)) then Some s
  else if ssf_hangup s then Some s
  else
    let state0 := state c in
    let s := s <| channel := switch_channel_set_hangup_time c e |> in
    s ← do_ s StopMedia;
    let s := s <| channel := switch_channel_perform_set_callstate (channel s) CCS_HANGUP |> in
    s ← state_macro CS_HANGUP state0 true s;
    s ← do_ s HangupHook;
    Some (s <| ssf_hangup := true |>).

(** The originatee's profile, for process_cdr. *)
Context (has_originatee : session -> bool).

(** Whether the handlers of the channel and of the core are called for the call
    detail record; no result where the list of causes cannot be split. *)
Definition cdr_wanted s : option bool :=
  let e := env_at s in
  let wanted :=
    match getvar e "process_cdr" with
    | None | Some EmptyString => true
    | Some var =>
        if Text.strcasecmp_eq var "a_only" then negb (originator (channel s))
        else if Text.strcasecmp_eq var "b_only" then negb (has_originatee s)
        else Text.switch_true (Some var)
    end in
  causes ← match getvar e "skip_cdr_causes" with
           | None | Some EmptyString => Some []
           | skip_var => Text.switch_separate_string skip_var "|"%char 128
           end;
  Some (wanted && negb (existsb (fun name => switch_channel_str2cause (Some name) =? hangup_cause (channel s)) causes)
        && negb (has_flag (channel s) CF_NO_CDR)).

Definition switch_core_session_reporting_state s : option session :=
  let state0 := state (channel s) in
  if has_flag (channel s) CF_REPORTING then Some s
  else
    s ← on_channel s (switch_channel_set_flag (channel s) (env_at s) CF_REPORTING);
    do_extra ← cdr_wanted s;
    s ← state_macro CS_REPORTING state0 do_extra s;
    do_ s ReportingHook.

Definition switch_core_session_destroy_state s : option session :=
  let s := s <| channel := switch_channel_perform_set_callstate (channel s) CCS_DOWN |> in
  s ← on_channel s (switch_channel_perform_set_running_state (channel s) (env_at s) CS_DESTROY);
  s ← on_channel s (switch_channel_clear_flag (channel s) (env_at s) CF_TRANSFER);
  s ← on_channel s (switch_channel_clear_flag (channel s) (env_at s) CF_REDIRECT);
  state_macro CS_DESTROY CS_DESTROY true s.

(** ** The loop *)

Inductive outcome := Exit s | Again (new_loops : Z) s.

(** Entering the state [state0] that was read at the head of the loop. *)
Definition enter_state (state0 : switch_channel_state_t) (new_loops : Z) s : option outcome :=
  s ← on_channel s (switch_channel_perform_set_running_state (channel s) (env_at s) state0);
  s ← on_channel s (switch_channel_clear_flag (channel s) (env_at s) CF_TRANSFER);
  s ← on_channel s (switch_channel_clear_flag (channel s) (env_at s) CF_REDIRECT);
  s ← do_ s ParseMessages;
  s ← do_ s StateRun;
  match state0 with
  | CS_NEW => Some (Again new_loops s)
  | CS_DESTROY => Some (Exit s)
  | CS_REPORTING =>
      s ← switch_core_session_reporting_state s;
      s ← on_channel s (switch_channel_perform_set_state (channel s) CS_DESTROY);
      Some (Exit s)
  | CS_HANGUP =>
      s ← switch_core_session_hangup_state (env_at s) s true;
      s ← on_channel s (switch_channel_perform_set_state (channel s) CS_REPORTING);
      Some (Again new_loops s)
  | CS_NONE => None
  | _ => s ← state_macro state0 state0 true s; Some (Again new_loops s)
  end.

(** The end of a round: a new channel waits for its first instructions, five
    hundred times at most; another one sleeps until it is woken. *)
Definition end_round (new_loops : Z) s : option outcome :=
  if bool_decide (state (channel s) = running_state (channel s)) then
    if bool_decide (state (channel s) = CS_NEW) then
      s ← do_ s ParseEvents;
      let new_loops := u32 (new_loops - 1) in
      if new_loops =? 0 then
        s ← on_channel s (switch_channel_set_flag (channel s) (env_at s) CF_NO_CDR);
        s ← perform (OpHangup SWITCH_CAUSE_WRONG_CALL_STATE, env_at s) s;
        Some (Again new_loops s)
      else Some (Again new_loops s)
    else
      s ← do_ s ParseEvents;
      s ← (if has_flag (channel s) CF_STATE_REPEAT then on_channel s (switch_channel_clear_flag (channel s) (env_at s) CF_STATE_REPEAT)
           else if bool_decide (state (channel s) = running_state (channel s)) then
             s ← on_channel s (switch_channel_set_flag (channel s) (env_at s) CF_THREAD_SLEEPING);
             s ← do_ s Sleep;
             on_channel s (switch_channel_clear_flag (channel s) (env_at s) CF_THREAD_SLEEPING)
           else Some s);
      s ← do_ s ParseEvents;
      Some (Again new_loops s)
  else Some (Again new_loops s).

Definition iterate (new_loops : Z) s : option outcome :=
  if bool_decide (state (channel s) = CS_DESTROY) then Some (Exit s)
  else
    s ← (if has_flag (channel s) CF_BLOCK_STATE then do_ s WaitBlock else Some s);
    let state0 := state (channel s) in
    if bool_decide (state0 = CS_DESTROY) then Some (Exit s)
    else if negb (bool_decide (state0 = running_state (channel s))) || (cs CS_HANGUP <=? cs state0) then
      r ← enter_state state0 new_loops s;
      match r with Exit s => Some (Exit s) | Again new_loops s => end_round new_loops s end
    else end_round new_loops s.

(** [rounds] rounds of the loop; the result says whether it has been left. *)
Fixpoint session_loop (rounds : nat) (new_loops : Z) s : option outcome :=
  match rounds with
  | O => Some (Again new_loops s)
  | S rounds =>
      r ← iterate new_loops s;
      match r with Exit s => Some (Exit s) | Again new_loops s => session_loop rounds new_loops s end
  end.

Definition switch_core_session_run (rounds : nat) s : option outcome :=
  let s := s <| ssf_thread_running := true |> in
  r ← session_loop rounds 500 s;
  Some (match r with Exit s => Exit (s <| ssf_thread_running := false |>) | r => r end).

(** ** What calls leave behind *)

Implicit Types (l : list (call * switch_status_t)).

Definition stage s : Z := cs (state (channel s)).

(** The states entered, in order. *)
Definition phases s : list switch_channel_state_t :=
  omap (fun x : returned => match what x with Enter phase => Some phase | _ => None end) (calls s).

(** The hangup handlers have been called early. *)
Definition early_entered s : Prop := exists d st, mk_returned (S d) (Enter CS_HANGUP) st ∈ calls s.

Definition same_handlers s s' : Prop :=
  state_handlers (channel s') = state_handlers (channel s) /\ state_handler_index (channel s') = state_handler_index (channel s).

(** The calls made from [s] to [s'] at depth [d] or deeper. *)
Definition adds (d : nat) s s' : Prop := exists es, calls s' = calls s ++ es /\ Forall (fun x => (d <= at_depth x)%nat) es.

(** The hangup handlers have been called in between, early. *)
Definition hung_early s s' : Prop :=
  ssf_hangup s = false /\ ssf_hangup s' = true /\ phases s' = phases s ++ [CS_HANGUP] /\ early_entered s'.

Definition same_log s s' : Prop := phases s' = phases s /\ ssf_hangup s' = ssf_hangup s.

(** What a call from inside of switch_channel_perform_hangup does. *)
Record inner s s' : Prop := {
  i_stage : stage s <= stage s';
  i_depth : depth s' = depth s;
  i_calls : adds (S (depth s)) s s';
  i_handlers : same_handlers s s';
  i_log : same_log s s' \/ hung_early s s';
}.

Context (nested_inner : forall e s s', nested e s = Some s' -> cs CS_HANGUP <= stage s -> inner s s').

Lemma adds_none d s s' : calls s' = calls s -> adds d s s'.
Proof. intros E. exists []. by rewrite app_nil_r. Qed.

Lemma adds_trans d s1 s2 s3 : adds d s1 s2 -> adds d s2 s3 -> adds d s1 s3.
Proof. intros (l1 & E1 & F1) (l2 & E2 & F2). exists (l1 ++ l2). rewrite E2, E1, app_assoc. split; [done|by apply Forall_app]. Qed.

Lemma adds_le d d' s s' : (d <= d')%nat -> adds d' s s' -> adds d s s'.
Proof. intros Hd (l & E & F). exists l. split; [done|]. eapply Forall_impl; [exact F|]. cbn. lia. Qed.

Lemma adds_early d s s' : adds d s s' -> early_entered s -> early_entered s'.
Proof. intros (l & E & _) (d0 & st & H). exists d0, st. rewrite E. set_solver. Qed.

Lemma same_handlers_trans s1 s2 s3 : same_handlers s1 s2 -> same_handlers s2 s3 -> same_handlers s1 s3.
Proof. intros [A1 A2] [B1 B2]. split; congruence. Qed.

(** ** The order of the handlers *)

(** The calls that were made in the thread's present depth. *)
Definition level s : list (call * switch_status_t) := (fun x => (what x, result x)) <$> filter (fun x => at_depth x = depth s) (calls s).

(** Nothing happens at this depth. *)
Record quiet s s' : Prop := {
  q_depth : depth s' = depth s;
  q_calls : adds (S (depth s)) s s';
  q_same : same_handlers s s';
}.

Lemma quiet_trans s1 s2 s3 : quiet s1 s2 -> quiet s2 s3 -> quiet s1 s3.
Proof.
  intros [D1 C1 H1] [D2 C2 H2]. constructor; [congruence| |by eapply same_handlers_trans]. rewrite D1 in C2. by eapply adds_trans.
Qed.

Lemma quiet_level s s' : quiet s s' -> level s' = level s.
Proof.
  intros [D (l & E & F) _]. unfold level. rewrite D, E, filter_app, fmap_app.
  enough (filter (fun x => at_depth x = depth s) l = []) as -> by apply app_nil_r.
  clear E. induction F as [|x l Hx _ IH]; [done|]. rewrite filter_cons, decide_False by lia. exact IH.
Qed.

Lemma perform_quiet oe s s' : perform oe s = Some s' -> quiet s s'.
Proof.
  unfold perform. destruct (channel_step (channel s) oe) as [c|] eqn:E; [|done]. set (s1 := s <| channel := c |>).
  assert (quiet s s1) as H1 by (constructor; [done|by apply adds_none|by eapply step_handlers]).
  destruct (calls_hangup_state _ _) eqn:Ec; [|by intros [= <-]]. intros HN. apply (step_calls _ _ _ E) in Ec as [_ Ec].
  apply nested_inner in HN as [_ D C H _]; [|unfold stage; by rewrite (Ec : state (channel s1) = _)]. eapply quiet_trans; [exact H1|by constructor].
Qed.

Lemma perform_all_quiet ops s s' : perform_all ops s = Some s' -> quiet s s'.
Proof.
  revert s. induction ops as [|oe ops IH]; intros s.
  { intros [= <-]. constructor; [done|by apply adds_none|done]. }
  cbn [perform_all]. destruct (perform oe s) as [s1|] eqn:E; [|done]. intros H. eapply quiet_trans; [by eapply perform_quiet|by apply IH].
Qed.

(** A call at the depth of the session. *)
Record noted (k : list (call * switch_status_t)) s s' : Prop := {
  o_depth : depth s' = depth s;
  o_level : level s' = level s ++ k;
  o_same : same_handlers s s';
}.

Lemma note_level s k st : level (note s k st) = level s ++ [(k, st)].
Proof. unfold level. cbn. rewrite filter_app, fmap_app, filter_cons, decide_True by done. done. Qed.

Lemma noted_nil s : noted [] s s.
Proof. constructor; [done|by rewrite app_nil_r|done]. Qed.

Lemma noted_trans l1 l2 s1 s2 s3 : noted l1 s1 s2 -> noted l2 s2 s3 -> noted (l1 ++ l2) s1 s3.
Proof. intros [D1 L1 H1] [D2 L2 H2]. constructor; [congruence|by rewrite L2, L1, app_assoc|by eapply same_handlers_trans]. Qed.

Lemma do_call_noted k s st s' : do_call k s = Some (st, s') -> noted [(k, st)] s s'.
Proof.
  unfold do_call. destruct (behaviour s k) as [st0 ops]. destruct (perform_all ops s) as [s1|] eqn:E; [|done]. intros [= <- <-].
  apply perform_all_quiet in E. pose proof (quiet_level _ _ E) as L. destruct E as [D _ H]. constructor; [done|by rewrite note_level, L|done].
Qed.

Definition succeeded l : bool := forallb (fun ks => bool_decide (ks.2 = SWITCH_STATUS_SUCCESS)) l.

Lemma succeeded_app l1 l2 : succeeded (l1 ++ l2) = succeeded l1 && succeeded l2.
Proof. apply forallb_app. Qed.

(** The parties [ps] are called for a state in turn until one fails: each call is the
    next one of the list, only the last one called can have failed, and if none
    fails all are called. *)
Record group (ps : list party) phase l : Prop := {
  g_order : l.*1 `prefix_of` ((fun p => Handler p phase) <$> ps);
  g_stops i k st : l !! i = Some (k, st) -> st <> SWITCH_STATUS_SUCCESS -> S i = length l;
  g_all : succeeded l = true -> length l = length ps;
}.

(** Of the tables [hs], those of a kind that have a function for a state. *)
Definition parties (mk : switch_state_handler_table_t -> party) (hs : list switch_state_handler_table_t) (pre : bool) phase : list party :=
  filter (fun p => implements p phase = true) (mk <$> filter (fun h => pre_exec h = pre) hs).

Definition driver phase : list party := if implements Driver phase then [Driver] else [].

Lemma group_nil phase : group [] phase [].
Proof. constructor; [done|by intros i k st; rewrite lookup_nil|done]. Qed.

Lemma group_ok p ps phase l : group ps phase l -> group (p :: ps) phase ((Handler p phase, SWITCH_STATUS_SUCCESS) :: l).
Proof.
  intros [G1 G2 G3]. constructor; [by apply prefix_cons| |intros H; cbn; by rewrite G3].
  intros [|i] k st; cbn; [by intros [= <- <-]|]. intros Hi Hs. by rewrite (G2 i k st Hi Hs).
Qed.

Lemma group_fails p ps phase st : st <> SWITCH_STATUS_SUCCESS -> group (p :: ps) phase [(Handler p phase, st)].
Proof.
  intros Hs. constructor; [apply prefix_cons, prefix_nil| |].
  - by intros [|i] k st0.
  - cbn. by rewrite bool_decide_false.
Qed.

Lemma try_handler_noted p phase s ok s' :
  try_handler p phase s = Some (ok, s') ->
  if implements p phase then exists st, noted [(Handler p phase, st)] s s' /\ ok = bool_decide (st = SWITCH_STATUS_SUCCESS) else s' = s /\ ok = true.
Proof.
  unfold try_handler. destruct (implements p phase); [|by intros [= <- <-]].
  destruct (do_call _ s) as [[st s1]|] eqn:E; [|done]. intros [= <- <-]. apply do_call_noted in E. by exists st.
Qed.

Lemma parties_cons mk h hs pre phase :
  parties mk (h :: hs) pre phase =
    (if Bool.eqb (pre_exec h) pre && implements (mk h) phase then [mk h] else []) ++ parties mk hs pre phase.
Proof.
  unfold parties. rewrite filter_cons. destruct (Bool.eqb_spec (pre_exec h) pre) as [E|E]; [rewrite decide_True by done|by rewrite decide_False by done].
  cbn [andb]. rewrite fmap_cons, filter_cons. destruct (implements (mk h) phase); [by rewrite decide_True|by rewrite decide_False].
Qed.

(** One handler of a table, and the rest if it does not fail. *)
Lemma group_step (p : party) phase s s1 (ok : bool) ps (Q : list (call * switch_status_t) -> Prop) :
  try_handler p phase s = Some (ok, s1) ->
  (if ok then exists l, group ps phase l /\ Q l else Q []) ->
  exists l1 l, noted l1 s s1 /\ succeeded l1 = ok /\ group ((if implements p phase then [p] else []) ++ ps) phase (l1 ++ l) /\ Q l.
Proof.
  intros E%try_handler_noted HQ. destruct (implements p phase).
  - destruct E as (st & HN & ->). exists [(Handler p phase, st)].
    assert (succeeded [(Handler p phase, st)] = bool_decide (st = SWITCH_STATUS_SUCCESS)) as Hs by apply andb_true_r.
    destruct (decide (st = SWITCH_STATUS_SUCCESS)) as [->|Hst].
    + destruct HQ as (l & G & HQ). exists l. split_and!; [done|done|by apply group_ok|done].
    + rewrite bool_decide_false in * by done. exists []. split_and!; [done|done|by apply group_fails|done].
  - destruct E as [-> ->]. destruct HQ as (l & G & HQ). exists [], l. by split_and!; [apply noted_nil|..].
Qed.

Lemma kept_handlers s s' hs : same_handlers s s' -> handlers (channel s) hs -> handlers (channel s') hs.
Proof. intros [E1 E2] [H1 H2 H3 H4]. constructor; try done; congruence. Qed.

Lemma channel_loop_group rounds i hs pre phase proceed s p s' :
  channel_loop rounds (Z.of_nat i) pre phase proceed s = Some (p, s') -> handlers (channel s) hs -> 0 <= proceed ->
  (length hs < rounds + i)%nat ->
  exists l, noted l s s' /\ group (parties App (drop i hs) pre phase) phase l /\ 0 <= p /\ (0 < proceed -> (p =? 0) = negb (succeeded l)).
Proof.
  revert i proceed s. induction rounds as [|rounds IH]; intros i proceed s E Hh Hp Hr; cbn [channel_loop] in E.
  { injection E as <- <-. exists []. rewrite drop_ge by lia. split_and!; [apply noted_nil|apply group_nil|lia|intros; apply Z.eqb_neq; lia]. }
  rewrite (get_handlers _ _ i Hh) in E. destruct (hs !! i) as [h|] eqn:Ei.
  2:{ injection E as <- <-. exists []. rewrite drop_ge by (by apply lookup_ge_None). split_and!; [apply noted_nil|apply group_nil|lia|intros; apply Z.eqb_neq; lia]. }
  rewrite (drop_S _ h _ Ei), parties_cons. replace (Z.of_nat i + 1) with (Z.of_nat (S i)) in E by lia.
  destruct (Bool.eqb (pre_exec h) pre); cbn [andb]; [|by apply (IH (S i) proceed); [..|lia]].
  destruct (try_handler (App h) phase s) as [[ok s1]|] eqn:E1; [|done]. pose proof E1 as E1'.
  destruct (group_step (App h) phase s s1 ok (parties App (drop (S i) hs) pre phase)
    (fun l => noted l s1 s' /\ 0 <= p /\ (p =? 0) = negb (ok && succeeded l)) E1) as (l1 & l & N1 & S1 & G & N2 & P & Z0).
  - assert (same_handlers s s1) as Hk.
    { apply try_handler_noted in E1'. destruct (implements _ _); [by destruct E1' as (st & [_ _ ?] & _)|by destruct E1' as [-> _]]. }
    destruct ok.
    + apply IH in E as (l & A1 & A2 & A3 & A4); [exists l|by eapply kept_handlers|lia|lia]. split_and!; [done..|]. apply A4. lia.
    + injection E as <- <-. split_and!; [apply noted_nil|lia|done].
  - exists (l1 ++ l). rewrite succeeded_app, S1. split_and!; [by eapply noted_trans|done|done|done].
Qed.

Lemma core_loop_group hs pre phase proceed s p s' :
  core_loop hs pre phase proceed s = Some (p, s') -> 0 < proceed ->
  exists l, noted l s s' /\ group (parties Core hs pre phase) phase l /\ 0 <= p /\ (p =? 0) = negb (succeeded l).
Proof.
  revert proceed s. induction hs as [|h hs IH]; intros proceed s E Hp; cbn [core_loop] in E.
  { injection E as <- <-. exists []. split_and!; [apply noted_nil|apply group_nil|lia|apply Z.eqb_neq; lia]. }
  rewrite (proj2 (Z.eqb_neq proceed 0)) in E by lia. rewrite parties_cons.
  destruct (Bool.eqb (pre_exec h) pre); cbn [andb]; [|by apply (IH proceed)].
  destruct (try_handler (Core h) phase s) as [[ok s1]|] eqn:E1; [|done].
  destruct (group_step (Core h) phase s s1 ok (parties Core hs pre phase)
    (fun l => noted l s1 s' /\ 0 <= p /\ (p =? 0) = negb (ok && succeeded l)) E1) as (l1 & l & N1 & S1 & G & N2 & P & Z0).
  - destruct ok.
    + apply IH in E as (l & A1 & A2 & A3 & A4); [by exists l|lia].
    + injection E as <- <-. split_and!; [apply noted_nil|lia|done].
  - exists (l1 ++ l). rewrite succeeded_app, S1. split_and!; [by eapply noted_trans|done|done|done].
Qed.

Lemma channel_part_group extra hs pre phase proceed s p s' :
  channel_part extra pre phase proceed s = Some (p, s') -> handlers (channel s) hs -> 0 <= proceed ->
  exists l, noted l s s' /\ group (if extra then parties App hs pre phase else []) phase l /\ (0 < proceed -> (p =? 0) = negb (succeeded l)).
Proof.
  unfold channel_part. destruct extra; intros E Hh Hp.
  - apply (channel_loop_group _ 0 hs) in E as (l & N & G & _ & S); [by exists l|done|done|]. destruct Hh. lia.
  - injection E as <- <-. exists []. split_and!; [apply noted_nil|apply group_nil|intros; apply Z.eqb_neq; lia].
Qed.

Lemma core_part_group extra pre phase proceed s p s' :
  core_part extra pre phase proceed s = Some (p, s') -> 0 < proceed ->
  exists l, noted l s s' /\ group (if extra then parties Core core_handlers pre phase else []) phase l /\ 0 <= p /\ (p =? 0) = negb (succeeded l).
Proof.
  unfold core_part. destruct extra; intros E Hp.
  - by apply core_loop_group in E.
  - injection E as <- <-. exists []. split_and!; [apply noted_nil|apply group_nil|lia|apply Z.eqb_neq; lia].
Qed.

Lemma driver_group phase s ok s' : try_handler Driver phase s = Some (ok, s') ->
  exists l, noted l s s' /\ group (driver phase) phase l /\ ok = succeeded l.
Proof.
  intros E. destruct (group_step Driver phase s s' ok [] (fun l => l = []) E) as (l1 & l & N & S & G & ->).
  { destruct ok; [|done]. exists []. by split; [apply group_nil|]. }
  rewrite !app_nil_r in G. by exists l1.
Qed.

(** The calls of the handlers of a state, at the depth of the session. *)
Lemma state_macro_groups phase state0 extra hs s s' :
  handlers (channel s) hs -> state_macro phase state0 extra s = Some s' ->
  exists s1 l1 l2 d l3 l4,
    depth s1 = depth s
    /\ level s1 = level s ++ (Enter phase, SWITCH_STATUS_SUCCESS) :: l1 ++ l2 ++ d ++ l3 ++ l4
    /\ group (if extra then parties App hs true phase else []) phase l1
    /\ group (if extra then parties Core core_handlers true phase else []) phase l2
    /\ group (driver phase) phase d
    /\ (if succeeded d
        then group (if extra then parties App hs false phase else []) phase l3 /\ group (if extra then parties Core core_handlers false phase else []) phase l4
        else l3 = [] /\ l4 = [])
    /\ (if succeeded (l1 ++ l2 ++ d ++ l3 ++ l4) && bool_decide (state0 = state (channel s1)) then standard phase s1 else Some s1) = Some s'.
Proof.
  unfold state_macro. intros Hh H. revert H. set (s0 := if (cs state0 <? cs CS_HANGUP) && _ then _ else _).
  assert (noted [(Enter phase, SWITCH_STATUS_SUCCESS)] s s0) as N0.
  { pose proof (note_level s (Enter phase) SWITCH_STATUS_SUCCESS) as HL.
    unfold s0. destruct (_ && _); constructor; try done. unfold switch_channel_perform_set_callstate, same_handlers. cbn.
    destruct (_ || _); [done|]. by destruct (device_node _) as [[? ?]|]. }
  clearbody s0. pose proof (kept_handlers _ _ _ (o_same _ _ _ N0) Hh) as Hh0.
  cbv beta iota delta [mbind option_bind]. destruct (channel_part extra true phase 1 s0) as [[p1 s1]|] eqn:E1; [|done].
  apply (channel_part_group _ hs) in E1 as (l1 & N1 & G1 & S1); [|done|lia]. specialize (S1 ltac:(lia)).
  destruct (core_part extra true phase 1 s1) as [[p2 s2]|] eqn:E2; [|done]. apply core_part_group in E2 as (l2 & N2 & G2 & P2 & S2); [|lia].
  destruct (try_handler Driver phase s2) as [[ok s3]|] eqn:E3; [|done]. apply driver_group in E3 as (d & N3 & G3 & ->).
  pose proof (noted_trans _ _ _ _ _ N0 (noted_trans _ _ _ _ _ N1 (noted_trans _ _ _ _ _ N2 N3))) as N.
  rewrite S1, S2, !negb_involutive. destruct (succeeded d) eqn:Ed.
  2:{ intros [= <-]. destruct N as [D L _]. exists s3, l1, l2, d, [], []. rewrite Ed, !app_nil_r. split_and!; try done.
      by rewrite !succeeded_app, Ed, !andb_false_r. }
  destruct (channel_part extra false phase p2 s3) as [[p3 s4]|] eqn:E4; [|done].
  apply (channel_part_group _ hs) in E4 as (l3 & N4 & G4 & S4); [|by eapply kept_handlers; [apply N|]|done].
  destruct (core_part extra false phase 1 s4) as [[p4 s5]|] eqn:E5; [|done]. apply core_part_group in E5 as (l4 & N5 & G5 & P5 & S5); [|lia].
  pose proof (noted_trans _ _ _ _ _ N (noted_trans _ _ _ _ _ N4 N5)) as [D L _].
  intros H. exists s5, l1, l2, d, l3, l4. rewrite Ed. split_and!; try done; [by rewrite L, <- !app_assoc|].
  rewrite <- H, S5, negb_involutive, !succeeded_app, Ed, andb_true_l. destruct (succeeded l1); [|done]. destruct (succeeded l2) eqn:Es2; [|done].
  cbn [andb negb] in *. rewrite S4 by (apply Z.eqb_neq in S2; lia). by rewrite negb_involutive.
Qed.

(** ** The life of a session *)

(** What happens between two states entered: once hung up, no way back; the hangup
    handlers may be called early, but only by what hangs the channel up. *)
Record moves s s' : Prop := {
  v_final : cs CS_HANGUP <= stage s -> stage s <= stage s';
  v_depth : depth s' = depth s;
  v_calls : adds (depth s) s s';
  v_handlers : same_handlers s s';
  v_log : same_log s s' \/ stage s < cs CS_HANGUP <= stage s' /\ hung_early s s';
}.

Lemma moves_refl s : moves s s.
Proof. constructor; [lia|done|by apply adds_none|done|by left]. Qed.

Lemma hung_early_before s1 s2 s3 : same_log s1 s2 -> hung_early s2 s3 -> hung_early s1 s3.
Proof. intros [P1 G1] (A & B & C & D). split_and!; [congruence|done|congruence|done]. Qed.

Lemma hung_early_after d s1 s2 s3 : hung_early s1 s2 -> same_log s2 s3 -> adds d s2 s3 -> hung_early s1 s3.
Proof. intros (A & B & C & D) [P2 G2] H. split_and!; [done|congruence|congruence|by eapply adds_early]. Qed.

Lemma moves_trans s1 s2 s3 : moves s1 s2 -> moves s2 s3 -> moves s1 s3.
Proof.
  intros [F1 D1 C1 H1 L1] [F2 D2 C2 H2 L2]. rewrite D1 in C2.
  constructor; [intros H; specialize (F1 H); lia|congruence|by eapply adds_trans|by eapply same_handlers_trans|].
  destruct L1 as [[P1 G1]|[S1 E1]], L2 as [[P2 G2]|[S2 E2]].
  - left. split; congruence.
  - right. split; [|by eapply hung_early_before]. destruct (Z.lt_ge_cases (stage s1) (cs CS_HANGUP)); lia.
  - right. split; [lia|by eapply hung_early_after].
  - destruct E1 as (_ & E1 & _), E2 as (E2 & _). congruence.
Qed.

(** A channel that is hung up. *)
Lemma moves_down s s' : moves s s' -> cs CS_HANGUP <= stage s -> stage s <= stage s' /\ same_log s s'.
Proof. intros [F _ _ _ L] Hh. split; [by apply F|]. destruct L as [L|[L _]]; [done|lia]. Qed.

Lemma moves_channel s c : (cs CS_HANGUP <= stage s -> stage s <= cs (state c)) ->
  state_handlers c = state_handlers (channel s) -> state_handler_index c = state_handler_index (channel s) -> moves s (s <| channel := c |>).
Proof. intros H H1 H2. constructor; [done|done|by apply adds_none|done|by left]. Qed.

Lemma step_moves s o e s' : on_channel s (channel_step (channel s) (o, e)) = Some s' -> moves s s'.
Proof.
  unfold on_channel. destruct (channel_step (channel s) (o, e)) as [c|] eqn:E; [|done]. intros [= <-].
  apply moves_channel; [|by eapply step_handlers..]. apply step_advances in E as [F _ _]. intros H. by apply F.
Qed.

Lemma callstate_moves s cst : moves s (s <| channel := switch_channel_perform_set_callstate (channel s) cst |>).
Proof.
  apply moves_channel; unfold switch_channel_perform_set_callstate; (destruct (_ || _); [done|]); by destruct (device_node _) as [[? ?]|].
Qed.

Lemma perform_moves oe s s' : perform oe s = Some s' -> moves s s'.
Proof.
  intros H. pose proof (perform_quiet _ _ _ H) as [D C Hs]. revert H. unfold perform.
  destruct (channel_step (channel s) oe) as [c|] eqn:E; [|done]. destruct (calls_hangup_state _ _) eqn:Ec.
  - intros HN. apply (step_calls _ _ _ E) in Ec as [E1 E2]. apply nested_inner in HN as [I1 _ _ _ I2]; [|unfold stage; cbn; by rewrite E2].
    unfold stage in I1. cbn in I1. rewrite E2 in I1. constructor; [unfold stage; lia|done|by eapply adds_le; [|exact C]; lia|done|].
    destruct I2 as [I2|I2]; [by left|right]. split; [split; [exact E1|exact I1]|exact I2].
  - intros [= <-]. apply (step_moves s oe.1 oe.2). unfold on_channel. by rewrite <- surjective_pairing, E.
Qed.

Lemma perform_all_moves ops s s' : perform_all ops s = Some s' -> moves s s'.
Proof.
  revert s. induction ops as [|oe ops IH]; intros s; [intros [= <-]; apply moves_refl|].
  cbn [perform_all]. destruct (perform oe s) as [s1|] eqn:E; [|done]. intros H. eapply moves_trans; [by eapply perform_moves|by apply IH].
Qed.

Lemma note_phases s k st : phases (note s k st) = phases s ++ match k with Enter phase => [phase] | _ => [] end.
Proof. unfold phases. cbn. rewrite omap_app. cbn. by destruct k. Qed.

Lemma note_adds s k st : adds (depth s) s (note s k st).
Proof. exists [mk_returned (depth s) k st]. split; [done|]. by repeat constructor. Qed.

Lemma note_moves s k st : (forall phase, k <> Enter phase) -> moves s (note s k st).
Proof.
  intros Hk. constructor; [unfold stage; cbn; lia|done|apply note_adds|done|left]. split; [|done]. rewrite note_phases.
  destruct k; try apply app_nil_r. by destruct (Hk phase).
Qed.

Lemma do_call_moves k s st s' : do_call k s = Some (st, s') -> (forall phase, k <> Enter phase) -> moves s s'.
Proof.
  intros E Hk. unfold do_call in E. destruct (behaviour s k) as [st0 ops]. destruct (perform_all ops s) as [s1|] eqn:Er; [|done].
  injection E as <- <-. eapply moves_trans; [by eapply perform_all_moves|by apply note_moves].
Qed.

Lemma do_moves s k s' : do_ s k = Some s' -> (forall phase, k <> Enter phase) -> moves s s'.
Proof.
  unfold do_. destruct (do_call k s) as [[st s1]|] eqn:E; [|done]. intros [= <-]. by eapply do_call_moves.
Qed.

Lemma try_moves p phase s ok s' : try_handler p phase s = Some (ok, s') -> moves s s'.
Proof.
  unfold try_handler. destruct (implements p phase); [|intros [= _ <-]; apply moves_refl].
  destruct (do_call _ s) as [[st s1]|] eqn:E; [|done]. intros [= _ <-]. by eapply do_call_moves.
Qed.

Lemma channel_loop_moves rounds index pre phase proceed s p s' :
  channel_loop rounds index pre phase proceed s = Some (p, s') -> moves s s'.
Proof.
  revert index proceed s. induction rounds as [|rounds IH]; intros index proceed s E; cbn [channel_loop] in E; [injection E as _ <-; apply moves_refl|].
  destruct (switch_channel_get_state_handler _ _) as [[h|]|]; [|injection E as _ <-; apply moves_refl|done].
  destruct (Bool.eqb _ _); [|by eapply IH]. destruct (try_handler (App h) phase s) as [[[] s1]|] eqn:E1; [| |done]; apply try_moves in E1.
  - eapply moves_trans; [exact E1|by eapply IH].
  - by injection E as _ <-.
Qed.

Lemma core_loop_moves hs pre phase proceed s p s' : core_loop hs pre phase proceed s = Some (p, s') -> moves s s'.
Proof.
  revert proceed s. induction hs as [|h hs IH]; intros proceed s E; cbn [core_loop] in E; [injection E as _ <-; apply moves_refl|].
  destruct (_ =? _); [injection E as _ <-; apply moves_refl|].
  destruct (Bool.eqb _ _); [|by eapply IH]. destruct (try_handler (Core h) phase s) as [[[] s1]|] eqn:E1; [| |done]; apply try_moves in E1.
  - eapply moves_trans; [exact E1|by eapply IH].
  - by injection E as _ <-.
Qed.

Lemma channel_part_moves extra pre phase proceed s p s' : channel_part extra pre phase proceed s = Some (p, s') -> moves s s'.
Proof. unfold channel_part. destruct extra; [apply channel_loop_moves|intros [= _ <-]; apply moves_refl]. Qed.

Lemma core_part_moves extra pre phase proceed s p s' : core_part extra pre phase proceed s = Some (p, s') -> moves s s'.
Proof. unfold core_part. destruct extra; [apply core_loop_moves|intros [= _ <-]; apply moves_refl]. Qed.

Lemma standard_moves phase s s' : standard phase s = Some s' -> moves s s'.
Proof.
  unfold standard. destruct phase; try (intros [= <-]; by apply note_moves); try (intros E; by eapply do_moves).
  - unfold switch_core_standard_on_init. intros E. revert E.
    set (r := if has_flag _ _ then _ else _). destruct r as [c|] eqn:Er; [|done]. intros E.
    assert (moves s (s <| channel := c |>)) as H1.
    { assert (exists x, switch_channel_perform_set_state (channel s) x = Some c) as [x Hx].
      { unfold r in Er. destruct (has_flag _ _); [by eexists|]. destruct (has_flag _ _); by eexists. }
      apply (step_moves s (OpSetState x) (env_at s)). unfold on_channel, channel_step. cbn [fst snd]. by rewrite Hx. }
    eapply moves_trans; [exact H1|]. eapply moves_trans; [apply (note_moves _ (Standard CS_INIT) SWITCH_STATUS_SUCCESS); done|].
    apply (step_moves _ (OpClearFlag CF_RECOVERING) (env_at s)). exact E.
  - unfold switch_core_standard_on_hangup. destruct (on_channel s _) as [s1|] eqn:E1; [|done]. intros E.
    apply (step_moves s (OpClearFlag CF_RECOVERING) (env_at s)) in E1. eapply moves_trans; [exact E1|]. by eapply do_moves.
Qed.

(** Entering a state: the marker, then as above. *)
Lemma state_macro_moves phase state0 extra s s' : state_macro phase state0 extra s = Some s' -> moves (note s (Enter phase) SWITCH_STATUS_SUCCESS) s'.
Proof.
  unfold state_macro. intros H. revert H. set (n := note s (Enter phase) SWITCH_STATUS_SUCCESS). set (s0 := if (cs state0 <? cs CS_HANGUP) && _ then _ else _).
  assert (moves n s0) as H0 by (unfold s0; destruct (_ && _); [apply callstate_moves|apply moves_refl]).
  clearbody s0. cbv beta iota delta [mbind option_bind].
  destruct (channel_part extra true phase 1 s0) as [[p1 s1]|] eqn:E1; [|done]. apply channel_part_moves in E1.
  destruct (core_part extra true phase 1 s1) as [[p2 s2]|] eqn:E2; [|done]. apply core_part_moves in E2.
  destruct (try_handler Driver phase s2) as [[ok s3]|] eqn:E3; [|done]. apply try_moves in E3.
  pose proof (moves_trans _ _ _ H0 (moves_trans _ _ _ E1 (moves_trans _ _ _ E2 E3))) as H3. destruct ok; [|by intros [= <-]].
  destruct (channel_part extra false phase p2 s3) as [[p3 s4]|] eqn:E4; [|done]. apply channel_part_moves in E4.
  destruct (core_part extra false phase 1 s4) as [[p4 s5]|] eqn:E5; [|done]. apply core_part_moves in E5.
  pose proof (moves_trans _ _ _ H3 (moves_trans _ _ _ E4 E5)) as H5.
  destruct (_ && _); [|by intros [= <-]]. intros E. apply standard_moves in E. by eapply moves_trans.
Qed.

(** The channel operations of the loop. *)
Lemma clear_flag_moves s e f s' : on_channel s (switch_channel_clear_flag (channel s) e f) = Some s' -> moves s s'.
Proof. exact (step_moves s (OpClearFlag f) e s'). Qed.
Lemma set_flag_moves s e f s' : on_channel s (switch_channel_set_flag (channel s) e f) = Some s' -> moves s s'.
Proof. exact (step_moves s (OpSetFlag f 1) e s'). Qed.
Lemma running_moves s e x s' : on_channel s (switch_channel_perform_set_running_state (channel s) e x) = Some s' -> moves s s'.
Proof. exact (step_moves s (OpRunning x) e s'). Qed.
Lemma set_state_moves s x s' : on_channel s (switch_channel_perform_set_state (channel s) x) = Some s' -> moves s s'.
Proof. exact (step_moves s (OpSetState x) (env_at s) s'). Qed.

(** One step of a sequence: the equation of its result becomes a fact about it. *)
Ltac next_step :=
  lazymatch goal with
  | |- context [match ?m with Some _ => _ | None => None end = Some _] =>
      let E := fresh "E" in
      destruct m eqn:E; [|discriminate];
      first [apply clear_flag_moves in E | apply set_flag_moves in E | apply running_moves in E | apply perform_moves in E
            | (apply do_moves in E; [|discriminate]) | idtac]
  end.

(** Composing the facts from the first state to the last. *)
Ltac chain :=
  repeat match goal with
         | H1 : moves ?a ?b, H2 : moves ?b ?d |- _ =>
             let H := fresh "H" in pose proof (moves_trans _ _ _ H1 H2) as H; clear H1 H2
         end.

Lemma end_round_moves n s r : end_round n s = Some r -> exists n' s', r = Again n' s' /\ moves s s'.
Proof.
  unfold end_round. cbv beta iota delta [mbind option_bind]. case_bool_decide as H1.
  2:{ intros [= <-]. eexists _, _. split; [done|apply moves_refl]. }
  case_bool_decide as H2.
  - next_step. destruct (_ =? 0).
    + next_step. next_step. intros [= <-]. chain. eexists _, _. by split.
    + intros [= <-]. by eexists _, _.
  - next_step. lazymatch goal with |- context [match ?m with Some _ => _ | None => None end = Some _] => set (x := m) end.
    destruct x as [s1|] eqn:Ex; [|done]. next_step. intros [= <-]. assert (moves s0 s1) as Hm.
    { revert Ex. unfold x. destruct (has_flag _ _); [apply clear_flag_moves|]. case_bool_decide; [|intros [= <-]; apply moves_refl].
      next_step. next_step. intros HC%clear_flag_moves.
      eapply moves_trans; [eassumption|]. eapply moves_trans; [eassumption|exact HC]. }
    eexists _, _. split; [done|]. eapply moves_trans; [exact E|]. by eapply moves_trans.
Qed.

(** Setting the state forward. *)
Lemma set_state_stage s x s' :
  on_channel s (switch_channel_perform_set_state (channel s) x) = Some s' -> cs CS_HANGUP <= stage s ->
  x = CS_REPORTING \/ x = CS_DESTROY -> cs x <= stage s' <= cs CS_DESTROY.
Proof.
  unfold on_channel. destruct (switch_channel_perform_set_state (channel s) x) as [c|] eqn:E; [|done]. intros [= <-] Hh Hx.
  unfold stage in *. cbn. revert E. unfold switch_channel_perform_set_state. destruct (_ || _) eqn:E0; [done|]. apply orb_false_iff in E0 as [_ E0].
  destruct (state (channel s)) eqn:Es; cbn in Hh, E0; try lia; destruct Hx as [-> | ->]; cbn; intros [= <-]; rewrite ?Es; cbn; lia.
Qed.

(** The hangup handlers, of a channel that is hung up: called at most once. *)
Lemma hangup_state_runs e s force s' :
  switch_core_session_hangup_state e s force = Some s' -> cs CS_HANGUP <= stage s ->
  (stage s <= stage s' /\ depth s' = depth s /\ adds (depth s) s s' /\ same_handlers s s') /\ (force = true -> ssf_hangup s' = true) /\
  (same_log s s' \/ ssf_hangup s = false /\ ssf_hangup s' = true /\ phases s' = phases s ++ [CS_HANGUP]
                    /\ mk_returned (depth s) (Enter CS_HANGUP) SWITCH_STATUS_SUCCESS ∈ calls s').
Proof.
  unfold switch_core_session_hangup_state. intros H Hh. revert H. destruct (negb force && _) eqn:Ef.
  { intros [= <-]. split_and!; [lia|done|by apply adds_none|done| |by left]. by destruct force. }
  destruct (ssf_hangup s) eqn:Eh.
  { intros [= <-]. split_and!; [lia|done|by apply adds_none|done|done|by left]. }
  clear Ef. cbv beta iota delta [mbind option_bind]. set (s0 := s <| channel := _ |>). assert (moves s s0) as H0.
  { apply moves_channel; unfold switch_channel_set_hangup_time; (destruct (Channel.times (channel s)); [|done]); by destruct (_ =? _). }
  clearbody s0. next_step. set (s2 := _ <| channel := _ |>).
  assert (moves s s2) as H2 by (eapply moves_trans; [exact H0|]; eapply moves_trans; [exact E|apply callstate_moves]). clearbody s2.
  destruct (moves_down _ _ H2 Hh) as [F2 [P2 _]].
  destruct (state_macro CS_HANGUP _ true s2) as [s3|] eqn:E3; [|done]. apply state_macro_moves in E3. next_step. intros [= <-].
  pose proof (moves_trans _ _ _ E3 E0) as H3. destruct (moves_down _ _ H3 (Z.le_trans _ _ _ Hh F2)) as [F3 [P3 _]].
  destruct H2 as [_ D2 C2 S2 _], H3 as [_ D3 C3 S3 _]. change (depth (note s2 (Enter CS_HANGUP) SWITCH_STATUS_SUCCESS)) with (depth s2) in *.
  rewrite D2 in *. pose proof (adds_trans _ _ _ _ (note_adds s2 (Enter CS_HANGUP) SWITCH_STATUS_SUCCESS) ltac:(by rewrite D2)) as CN.
  split_and!; try done.
  - etransitivity; [exact F2|exact F3].
  - eapply adds_trans; [exact C2|]. rewrite D2 in CN. exact CN.
  - eapply same_handlers_trans; [exact S2|exact S3].
  - right. split_and!; [done|done| |].
    + change (phases (?x <| ssf_hangup := true |>)) with (phases x). by rewrite P3, note_phases, P2.
    + destruct C3 as (es & Ec & _). change (calls (?x <| ssf_hangup := true |>)) with (calls x). rewrite Ec. cbn. rewrite D2. set_solver.
Qed.

Lemma reporting_state_runs s s' :
  switch_core_session_reporting_state s = Some s' -> cs CS_HANGUP <= stage s ->
  stage s <= stage s' /\ ssf_hangup s' = ssf_hangup s /\ adds (depth s) s s'
  /\ (phases s' = phases s \/ phases s' = phases s ++ [CS_REPORTING]).
Proof.
  unfold switch_core_session_reporting_state. intros H Hh. revert H. destruct (has_flag _ _).
  { intros [= <-]. split_and!; [lia|done|by apply adds_none|by left]. }
  cbv beta iota delta [mbind option_bind]. next_step. destruct (cdr_wanted _) as [b|]; [|done].
  destruct (moves_down _ _ E Hh) as [F1 [P1 G1]].
  destruct (state_macro CS_REPORTING _ b _) as [s3|] eqn:E3; [|done]. apply state_macro_moves in E3. intros H4%do_moves; [|done].
  pose proof (moves_trans _ _ _ E3 H4) as H. destruct (moves_down _ _ H (Z.le_trans _ _ _ Hh F1)) as [F2 [P2 G2]].
  destruct E as [_ D1 C1 _ _], H as [_ _ C2 _ _]. pose proof (note_adds s0 (Enter CS_REPORTING) SWITCH_STATUS_SUCCESS) as CN.
  change (depth (note s0 _ _)) with (depth s0) in C2. rewrite D1 in *. split_and!.
  - etransitivity; [exact F1|exact F2].
  - rewrite G2. exact G1.
  - eapply adds_trans; [exact C1|]. by eapply adds_trans.
  - right. by rewrite P2, note_phases, P1.
Qed.

(** The state that is entered after an early hangup. *)
Definition late_ok s (late : list switch_channel_state_t) : Prop :=
  late = [] \/ early_entered s /\ exists phase, late = [phase] /\ cs phase < cs CS_HANGUP.

(** The states entered before the next round: the hangup at most once, and after it,
    if it was early, at most one more. *)
Record alive s : Prop := {
  l_phases : exists pre late, Forall (fun phase => cs phase < cs CS_HANGUP) pre /\ late_ok s late
             /\ phases s = pre ++ (if ssf_hangup s then CS_HANGUP :: late else []);
  l_hangup : ssf_hangup s = true -> cs CS_HANGUP <= stage s;
}.

(** The states entered in a whole life. *)
Definition whole_life s : Prop :=
  exists pre hup late rep, phases s = pre ++ hup ++ late ++ rep /\ Forall (fun phase => cs phase < cs CS_HANGUP) pre
  /\ (hup = [] \/ hup = [CS_HANGUP]) /\ late_ok s late /\ (late = [] \/ hup = [CS_HANGUP]) /\ (rep = [] \/ rep = [CS_REPORTING]).

Lemma late_ok_adds d s s' late : adds d s s' -> late_ok s late -> late_ok s' late.
Proof. intros H [->|[He Hl]]; [by left|right]. split; [by eapply adds_early|done]. Qed.

Lemma moves_alive s s' : moves s s' -> alive s -> alive s'.
Proof.
  intros M [(pre & late & H1 & H2 & H3) H4]. pose proof M as [F _ C _ L]. destruct L as [[P G]|[S (G & G' & P & _)]].
  - constructor; [exists pre, late; rewrite P, G; split_and!; [done|by eapply late_ok_adds|done]|]. rewrite G. intros Hh. specialize (H4 Hh). lia.
  - rewrite G in H3. constructor; [|intros _; lia]. exists pre, []. rewrite P, G', H3, app_nil_r. split_and!; [done|by left|done].
Qed.

Lemma alive_reports d s s' : alive s -> adds d s s' -> phases s' = phases s \/ phases s' = phases s ++ [CS_REPORTING] -> whole_life s'.
Proof.
  intros [(pre & late & H1 & H2 & H3) _] C P. apply (late_ok_adds d _ s') in H2; [|done].
  assert (exists rep, phases s' = phases s ++ rep /\ (rep = [] \/ rep = [CS_REPORTING])) as (rep & E & Hr).
  { destruct P as [P|P]; [exists []|exists [CS_REPORTING]]; rewrite P, ?app_nil_r; auto. }
  unfold whole_life. rewrite E, H3. destruct (ssf_hangup s).
  - exists pre, [CS_HANGUP], late, rep. rewrite <- app_assoc. split_and!; auto.
  - exists pre, [], [], rep. rewrite app_nil_r. split_and!; auto. by left.
Qed.

Lemma alive_whole s : alive s -> whole_life s.
Proof. intros H. eapply (alive_reports 0 s s H); [by apply adds_none|by left]. Qed.

(** The marker of a state before the hangup. *)
Lemma enter_note_alive s s1 phase : moves s s1 -> alive s -> ssf_hangup s = false -> cs phase < cs CS_HANGUP ->
  alive (note s1 (Enter phase) SWITCH_STATUS_SUCCESS).
Proof.
  intros M Ha Hf Hp. pose proof (moves_alive _ _ M Ha) as [_ K]. destruct Ha as [(pre & late & H1 & H2 & H3) _].
  rewrite Hf, app_nil_r in H3. destruct M as [_ _ C _ L]. pose proof (note_adds s1 (Enter phase) SWITCH_STATUS_SUCCESS) as CN.
  constructor; [|exact K]. change (ssf_hangup (note s1 _ _)) with (ssf_hangup s1). rewrite note_phases.
  destruct L as [[P G]|[_ (_ & G & P & He)]]; rewrite P, G, H3.
  - rewrite Hf. exists (pre ++ [phase]), []. rewrite app_nil_r. split_and!; [|by left|done]. apply Forall_app. split; [done|by repeat constructor].
  - exists pre, [phase]. rewrite <- app_assoc. split_and!; [done| |done]. right. split; [by eapply adds_early|by exists phase].
Qed.

(** Entering a state in a round: the loop is left exactly from CS_REPORTING. *)
Lemma enter_alive state0 n s r :
  enter_state state0 n s = Some r -> alive s -> state0 <> CS_DESTROY -> stage s = cs state0 ->
  match r with
  | Exit s' => stage s' = cs CS_DESTROY /\ whole_life s'
  | Again _ s' => alive s' /\ (cs CS_HANGUP <= stage s -> cs CS_REPORTING <= stage s' /\ stage s < cs CS_REPORTING)
  end.
Proof.
  unfold enter_state. cbv beta iota delta [mbind option_bind]. do 5 next_step. intros H Ha Hd Hst. chain.
  match goal with Hm : moves s ?x |- _ => rename Hm into M; rename x into sx end. pose proof (moves_alive _ _ M Ha) as Hx.
  assert (forall sy, state_macro state0 state0 true sx = Some sy -> cs state0 < cs CS_HANGUP -> alive sy) as Hplain.
  { intros sy EY%state_macro_moves Hlt. eapply moves_alive; [exact EY|]. eapply enter_note_alive; [exact M|done| |done].
    destruct (ssf_hangup s) eqn:Eh; [|done]. pose proof (l_hangup _ Ha Eh). lia. }
  change (cs CS_REPORTING) with 11. change (cs CS_HANGUP) with 10 in *.
  destruct state0; try done;
    try (destruct (state_macro _ _ true sx) as [sy|] eqn:EY; [|done]; injection H as <-; split; [by apply Hplain|cbn in Hst; lia]).
  - injection H as <-. split; [done|cbn in Hst; lia].
  - destruct (switch_core_session_hangup_state (env_at sx) sx true) as [sy|] eqn:EY; [|done]. cbn in Hst.
    destruct (moves_down _ _ M ltac:(cbn; lia)) as [FX _].
    apply hangup_state_runs in EY as ((FY & _ & CY & _) & GY & LY); [|cbn; lia]. specialize (GY eq_refl).
    destruct (on_channel sy _) as [sz|] eqn:EZ; [|done]. injection H as <-.
    pose proof (set_state_stage _ _ _ EZ ltac:(cbn; lia) (or_introl eq_refl)) as HL. cbn in HL. split; [|lia].
    eapply moves_alive; [by eapply set_state_moves|]. constructor; [|cbn; lia]. destruct Hx as [(pre & late & H1 & H2 & H3) _]. rewrite GY.
    destruct LY as [[PY GY']|(GX & _ & PY & _)].
    + exists pre, late. rewrite PY, H3, <- GY', GY. split_and!; [done|by eapply late_ok_adds|done].
    + exists pre, []. rewrite PY, H3, GX, app_nil_r. split_and!; [done|by left|done].
  - destruct (switch_core_session_reporting_state sx) as [sy|] eqn:EY; [|done]. cbn in Hst. destruct (moves_down _ _ M ltac:(cbn; lia)) as [FX _].
    apply reporting_state_runs in EY as (FY & GY & CY & PY); [|cbn; lia].
    destruct (on_channel sy _) as [sz|] eqn:EZ; [|done]. injection H as <-.
    pose proof (set_state_stage _ _ _ EZ ltac:(cbn; lia) (or_intror eq_refl)) as HL. apply set_state_moves in EZ as [_ _ CZ _ LZ].
    split; [lia|]. destruct LZ as [[PZ _]|[[LZ _] _]]; [|cbn in LZ; lia].
    eapply alive_reports; [exact Hx|eapply adds_trans; eapply (adds_le 0); [lia|exact CY|lia|exact CZ]|]. by rewrite PZ.
Qed.

(** A round: it ends in a channel that is destroyed, or keeps the session alive
    and takes a channel that hangs up one state further. *)
Lemma iterate_runs n s r :
  iterate n s = Some r -> alive s ->
  match r with
  | Exit s' => stage s' = cs CS_DESTROY /\ whole_life s'
  | Again _ s' => alive s' /\ (cs CS_HANGUP <= stage s -> cs CS_REPORTING <= stage s' /\ stage s < cs CS_REPORTING)
  end.
Proof.
  unfold iterate. intros H Ha. revert H. case_bool_decide as Hd.
  { intros [= <-]. split; [unfold stage; by rewrite Hd|by apply alive_whole]. }
  cbv beta iota delta [mbind option_bind].
  lazymatch goal with |- match ?m with Some _ => _ | None => None end = Some _ -> _ => destruct m as [s1|] eqn:E1; [|done] end.
  assert (moves s s1) as M1.
  { destruct (has_flag _ _); [by eapply do_moves|]. injection E1 as <-. apply moves_refl. }
  pose proof (moves_alive _ _ M1 Ha) as Ha1. case_bool_decide as Hd1.
  { intros [= <-]. split; [unfold stage; by rewrite Hd1|by apply alive_whole]. }
  destruct M1 as [F1 _ _ _ _]. change (cs CS_REPORTING) with 11 in *. change (cs CS_HANGUP) with 10 in *.
  destruct (negb _ || _) eqn:Eb.
  - destruct (enter_state _ n s1) as [[s2|n2 s2]|] eqn:E2; [| |done]; apply enter_alive in E2; try done.
    + by intros [= <-].
    + intros (n3 & s3 & -> & M3)%end_round_moves. destruct E2 as [A2 L2]. split; [by eapply moves_alive|].
      destruct M3 as [F3 _ _ _ _]. change (cs CS_REPORTING) with 11 in *. change (cs CS_HANGUP) with 10 in *. lia.
  - intros (n3 & s3 & -> & M3)%end_round_moves. split; [by eapply moves_alive|]. apply orb_false_iff in Eb as [_ Eb].
    apply Z.leb_gt in Eb. unfold stage in *. lia.
Qed.

Lemma session_loop_runs rounds n s s' :
  session_loop rounds n s = Some (Exit s') -> alive s -> stage s' = cs CS_DESTROY /\ whole_life s'.
Proof.
  revert n s. induction rounds as [|rounds IH]; intros n s; [done|]. cbn [session_loop]. cbv beta iota delta [mbind option_bind].
  destruct (iterate n s) as [r|] eqn:E; [|done]. intros H Ha. apply iterate_runs in E; [|done].
  destruct r as [s1|n1 s1]; [by injection H as <-|]. destruct E as [A _]. by eapply IH.
Qed.

Lemma run_whole_life rounds s s' :
  calls s = [] -> ssf_hangup s = false -> switch_core_session_run rounds s = Some (Exit s') ->
  state (channel s') = CS_DESTROY /\ ssf_thread_running s' = false /\ whole_life s'.
Proof.
  intros Hc Hh. unfold switch_core_session_run. cbv beta iota delta [mbind option_bind].
  destruct (session_loop rounds 500 _) as [[s1|n1 s1]|] eqn:E; [| |done]; [|done]. intros [= <-].
  apply session_loop_runs in E as [E1 E2].
  - split_and!; [|done|exact E2]. unfold stage in E1. cbn. destruct (state (channel s1)); done.
  - constructor; [|cbn; by rewrite Hh]. exists [], []. cbn. rewrite Hh. split_and!; [constructor|by left|]. unfold phases. cbn. by rewrite Hc.
Qed.

Lemma hung_run_ends_session n s r :
  alive s -> cs CS_HANGUP <= stage s -> session_loop 2 n s = Some r -> exists s', r = Exit s' /\ stage s' = cs CS_DESTROY.
Proof.
  intros Ha Hh. cbn [session_loop]. cbv beta iota delta [mbind option_bind]. destruct (iterate n s) as [r1|] eqn:E1; [|done].
  apply iterate_runs in E1; [|done]. destruct r1 as [s1|n1 s1]; [intros [= <-]; exists s1; by split; [|apply E1]|].
  destruct E1 as [A1 L1]. destruct (L1 Hh) as [L2 _]. destruct (iterate n1 s1) as [r2|] eqn:E2; [|done]. apply iterate_runs in E2; [|done].
  destruct r2 as [s2|n2 s2]; [intros [= <-]; exists s2; by split; [|apply E2]|]. exfalso. destruct E2 as [_ L3].
  change (cs CS_REPORTING) with 11 in *. change (cs CS_HANGUP) with 10 in *. destruct (L3 ltac:(lia)) as [_ L4]. lia.
Qed.

End machine.

(** ** The early hangup *)

(** switch_core_session_hangup_state as switch_channel_perform_hangup calls it, at most
    [n] levels deep. *)
Fixpoint early_hangup core_handlers pre_exec implements behaviour env_at scf_early_hangup (n : nat) (e : env) s : option session :=
  match n with
  | O => None
  | S n =>
      s' ← switch_core_session_hangup_state core_handlers pre_exec implements behaviour env_at
             (early_hangup core_handlers pre_exec implements behaviour env_at scf_early_hangup n) scf_early_hangup e
             (s <| depth := S (depth s) |>) false;
      Some (s' <| depth := depth s |>)
  end.

(** Two machines that differ in the nested call do the same on a channel that is hung up. *)
Section levels.

Context (core_handlers : list switch_state_handler_table_t).
Context (pre_exec : switch_state_handler_table_t -> bool).
Context (implements : party -> switch_channel_state_t -> bool).
Context (behaviour : session -> call -> switch_status_t * list (channel_op * env)).
Context (env_at : session -> env).
Context (n1 n2 : env -> session -> option session).

(** Equal results, and a session that is hung up stays so. *)
Definition agree {A} (at_ : A -> session) (r1 r2 : option A) : Prop := r1 = r2 /\ forall x, r1 = Some x -> cs CS_HANGUP <= stage (at_ x).

Lemma agree_bind {A B} (p : A -> session) (q : B -> session) r1 r2 (f1 f2 : A -> option B) :
  agree p r1 r2 -> (forall x, cs CS_HANGUP <= stage (p x) -> agree q (f1 x) (f2 x)) -> agree q (r1 ≫= f1) (r2 ≫= f2).
Proof. intros [<- H] Hf. destruct r1 as [x|]; [by apply Hf, H|]. by split. Qed.

Lemma agree_some {A} (p : A -> session) (x : A) : cs CS_HANGUP <= stage (p x) -> agree p (Some x) (Some x).
Proof. intros H. split; [done|]. by intros ? [= <-]. Qed.

Lemma agree_moves s r : (forall s', r = Some s' -> moves s s') -> cs CS_HANGUP <= stage s -> agree id r r.
Proof. intros H Hs. split; [done|]. intros s' E. destruct (moves_down _ _ (H _ E) Hs). by etransitivity. Qed.

Lemma perform_agree oe s : cs CS_HANGUP <= stage s -> agree id (perform n1 oe s) (perform n2 oe s).
Proof.
  intros Hs. assert (forall n, perform n oe s = on_channel s (channel_step (channel s) oe)) as H.
  { intros n. unfold perform. destruct (channel_step (channel s) oe) as [c|] eqn:E; [|done].
    destruct (calls_hangup_state _ _) eqn:Ec; [|done]. apply (step_calls _ _ _ E) in Ec as [Ec _]. unfold stage in Hs. lia. }
  rewrite !H. apply (agree_moves s); [|done]. intros s'. destruct oe. apply step_moves.
Qed.

Lemma perform_all_agree ops s : cs CS_HANGUP <= stage s -> agree id (perform_all n1 ops s) (perform_all n2 ops s).
Proof.
  revert s. induction ops as [|oe ops IH]; intros s Hs; [by apply agree_some|].
  cbn [perform_all]. eapply agree_bind; [by apply perform_agree|]. intros x. apply IH.
Qed.

Lemma do_call_agree k s : cs CS_HANGUP <= stage s -> agree snd (do_call behaviour n1 k s) (do_call behaviour n2 k s).
Proof.
  intros Hs. unfold do_call. destruct (behaviour s k) as [st ops]. destruct (perform_all_agree ops s Hs) as [<- H].
  destruct (perform_all n1 ops s) as [s1|]; [|by split]. apply agree_some. exact (H s1 eq_refl).
Qed.

Lemma do_agree k s : cs CS_HANGUP <= stage s -> agree id (do_ behaviour n1 s k) (do_ behaviour n2 s k).
Proof.
  intros Hs. unfold do_. destruct (do_call_agree k s Hs) as [<- H]. destruct (do_call behaviour n1 k s) as [[st s1]|]; [|by split].
  apply agree_some. exact (H _ eq_refl).
Qed.

Lemma try_agree p phase s : cs CS_HANGUP <= stage s -> agree snd (try_handler implements behaviour n1 p phase s) (try_handler implements behaviour n2 p phase s).
Proof.
  intros Hs. unfold try_handler. destruct (implements p phase); [|by apply agree_some].
  destruct (do_call_agree (Handler p phase) s Hs) as [<- H]. destruct (do_call behaviour n1 _ s) as [[st s1]|]; [|by split].
  apply agree_some. exact (H _ eq_refl).
Qed.

Lemma channel_loop_agree rounds i pre phase proceed s : cs CS_HANGUP <= stage s ->
  agree snd (channel_loop pre_exec implements behaviour n1 rounds i pre phase proceed s) (channel_loop pre_exec implements behaviour n2 rounds i pre phase proceed s).
Proof.
  revert i proceed s. induction rounds as [|rounds IH]; intros i proceed s Hs; cbn [channel_loop]; [by apply agree_some|].
  destruct (switch_channel_get_state_handler _ _) as [[h|]|]; [|by apply agree_some|by split].
  destruct (Bool.eqb _ _); [|by apply IH]. destruct (try_agree (App h) phase s Hs) as [<- H].
  destruct (try_handler _ _ n1 _ _ s) as [[[] s1]|]; [| |by split]; specialize (H _ eq_refl); [by apply IH|by apply agree_some].
Qed.

Lemma core_loop_agree hs pre phase proceed s : cs CS_HANGUP <= stage s ->
  agree snd (core_loop pre_exec implements behaviour n1 hs pre phase proceed s) (core_loop pre_exec implements behaviour n2 hs pre phase proceed s).
Proof.
  revert proceed s. induction hs as [|h hs IH]; intros proceed s Hs; cbn [core_loop]; [by apply agree_some|].
  destruct (_ =? _); [by apply agree_some|].
  destruct (Bool.eqb _ _); [|by apply IH]. destruct (try_agree (Core h) phase s Hs) as [<- H].
  destruct (try_handler _ _ n1 _ _ s) as [[[] s1]|]; [| |by split]; specialize (H _ eq_refl); [by apply IH|by apply agree_some].
Qed.

Lemma channel_part_agree extra pre phase proceed s : cs CS_HANGUP <= stage s ->
  agree snd (channel_part pre_exec implements behaviour n1 extra pre phase proceed s) (channel_part pre_exec implements behaviour n2 extra pre phase proceed s).
Proof. intros Hs. unfold channel_part. destruct extra; [by apply channel_loop_agree|by apply agree_some]. Qed.

Lemma core_part_agree extra pre phase proceed s : cs CS_HANGUP <= stage s ->
  agree snd (core_part core_handlers pre_exec implements behaviour n1 extra pre phase proceed s)
    (core_part core_handlers pre_exec implements behaviour n2 extra pre phase proceed s).
Proof. intros Hs. unfold core_part. destruct extra; [by apply core_loop_agree|by apply agree_some]. Qed.

(** The standard behaviour of CS_HANGUP. *)
Lemma standard_agree s : cs CS_HANGUP <= stage s -> agree id (standard behaviour env_at n1 CS_HANGUP s) (standard behaviour env_at n2 CS_HANGUP s).
Proof.
  intros Hs. cbn [standard]. unfold switch_core_standard_on_hangup. destruct (on_channel s _) as [s1|] eqn:E; [|by split].
  apply do_agree. apply clear_flag_moves in E. destruct (moves_down _ _ E Hs). lia.
Qed.

Lemma state_macro_agree state0 extra s : cs CS_HANGUP <= stage s ->
  agree id (state_macro core_handlers pre_exec implements behaviour env_at n1 CS_HANGUP state0 extra s)
    (state_macro core_handlers pre_exec implements behaviour env_at n2 CS_HANGUP state0 extra s).
Proof.
  intros Hs. unfold state_macro. set (s0 := if (cs state0 <? cs CS_HANGUP) && _ then _ else _).
  assert (cs CS_HANGUP <= stage s0) as H0.
  { unfold s0. destruct (_ && _); [|done].
    destruct (moves_down _ _ (callstate_moves (note s (Enter CS_HANGUP) SWITCH_STATUS_SUCCESS) CCS_ACTIVE) Hs). by etransitivity. }
  clearbody s0. eapply agree_bind; [by apply channel_part_agree|]. intros [p1 s1] H1. eapply agree_bind; [by apply core_part_agree|].
  intros [p2 s2] H2. eapply agree_bind; [by apply try_agree|]. intros [[] s3] H3; [|by apply agree_some].
  eapply agree_bind; [by apply channel_part_agree|]. intros [p4 s4] H4. eapply agree_bind; [by apply core_part_agree|].
  intros [p5 s5] H5. destruct (_ && _); [by apply standard_agree|by apply agree_some].
Qed.

Lemma hangup_state_agree scf e s force : cs CS_HANGUP <= stage s ->
  agree id (switch_core_session_hangup_state core_handlers pre_exec implements behaviour env_at n1 scf e s force)
    (switch_core_session_hangup_state core_handlers pre_exec implements behaviour env_at n2 scf e s force).
Proof.
  intros Hs. unfold switch_core_session_hangup_state. destruct (negb force && _); [by apply agree_some|].
  destruct (ssf_hangup s); [by apply agree_some|]. set (s0 := s <| channel := _ |>).
  assert (cs CS_HANGUP <= stage s0) as H0.
  { unfold s0, stage. cbn -[cs]. unfold switch_channel_set_hangup_time. destruct (Channel.times (channel s)); [|done]. by destruct (_ =? _). }
  clearbody s0. eapply agree_bind; [by apply do_agree|]. intros s1 H1.
  assert (cs CS_HANGUP <= stage (s1 <| channel := switch_channel_perform_set_callstate (channel s1) CCS_HANGUP |>)) as H2.
  { destruct (moves_down _ _ (callstate_moves s1 CCS_HANGUP) H1). by etransitivity. }
  eapply agree_bind; [by apply state_macro_agree|]. intros s2 H3. eapply agree_bind; [by apply do_agree|]. intros s3 H4. by apply agree_some.
Qed.

End levels.

Section session.

Context (core_handlers : list switch_state_handler_table_t).
Context (pre_exec : switch_state_handler_table_t -> bool).
Context (implements : party -> switch_channel_state_t -> bool).
Context (behaviour : session -> call -> switch_status_t * list (channel_op * env)).
Context (env_at : session -> env).
Context (scf_early_hangup : bool).
Context (has_originatee : session -> bool).

#[local] Notation early := (early_hangup core_handlers pre_exec implements behaviour env_at scf_early_hangup).

(** One level is enough: inside of the hangup handlers the channel is hung up, and
    nothing that is done to it then calls them again. *)
Theorem early_hangup_enough n e s : cs CS_HANGUP <= stage s -> early (S n) e s = early 1 e s.
Proof.
  intros Hs. cbn [early_hangup]. destruct (hangup_state_agree core_handlers pre_exec implements behaviour env_at (early n) (early 0)
    scf_early_hangup e (s <| depth := S (depth s) |>) false) as [H _]; [exact Hs|]. by rewrite H.
Qed.

Lemma early_inner n e s s' : early n e s = Some s' -> cs CS_HANGUP <= stage s -> inner s s'.
Proof.
  revert e s s'. induction n as [|n IH]; intros e s s' E Hs; [done|]. cbn [early_hangup] in E.
  destruct (switch_core_session_hangup_state _ _ _ _ _ _ _ _ _ _) as [s1|] eqn:E1; [|done]. injection E as <-.
  apply (hangup_state_runs core_handlers pre_exec implements behaviour env_at (early n) scf_early_hangup has_originatee IH) in E1
    as ((F & _ & C & H) & _ & L); [|exact Hs].
  constructor; [exact F|done|exact C|exact H|]. destruct L as [L|(G1 & G2 & P & Hin)]; [by left|right].
  split_and!; [exact G1|exact G2|exact P|]. exists (depth s), SWITCH_STATUS_SUCCESS. exact Hin.
Qed.

(** C5. The life of a session.  Whatever the handlers, hooks and other threads do
    to the channel between the session's own operations, and whether or not the early
    hangup is enabled, a session thread that ends has a channel in CS_DESTROY, and
    the states it has entered are states before the hangup, then CS_HANGUP at most
    once, then CS_REPORTING at most once and last.  The hangup and reporting handlers
    are started at most once.  Between CS_HANGUP and CS_REPORTING at most one earlier
    state is entered, and only if the hangup handlers have been called early, from
    inside of switch_channel_perform_hangup; without an early hangup none. *)
Theorem session_life rounds s s' :
  calls s = [] -> ssf_hangup s = false ->
  switch_core_session_run core_handlers pre_exec implements behaviour env_at (early 1) scf_early_hangup has_originatee rounds s = Some (Exit s') ->
  state (channel s') = CS_DESTROY /\ ssf_thread_running s' = false /\
  exists pre hup late rep,
    phases s' = pre ++ hup ++ late ++ rep /\ Forall (fun phase => cs phase < cs CS_HANGUP) pre
    /\ (hup = [] \/ hup = [CS_HANGUP]) /\ (rep = [] \/ rep = [CS_REPORTING])
    /\ (late = [] \/ (exists phase, late = [phase] /\ cs phase < cs CS_HANGUP) /\ hup = [CS_HANGUP] /\ early_entered s').
Proof.
  intros Hc Hh HR. apply (run_whole_life _ _ _ _ _ _ _ _ (early_inner 1)) in HR as (H1 & H2 & pre & hup & late & rep & W1 & W2 & W3 & W4 & W5 & W6);
    [|done|done].
  split; [done|]. split; [done|]. exists pre, hup, late, rep. split_and!; try done.
  destruct W4 as [->|(W4 & phase & -> & Hlt)]; [by left|right]. destruct W5 as [W5|W5]; [done|]. split; [by exists phase|done].
Qed.

(** C20. A hangup ends the session: from a round that begins with the channel in
    CS_HANGUP or later the loop is left within two rounds, whatever the handlers
    and other threads do (unless an assertion fails on the way); the thread does
    not go back to sleep. *)
Theorem hangup_ends_session n s r :
  alive s -> cs CS_HANGUP <= stage s ->
  session_loop core_handlers pre_exec implements behaviour env_at (early 1) scf_early_hangup has_originatee 2 n s = Some r ->
  exists s', r = Exit s' /\ stage s' = cs CS_DESTROY.
Proof. apply hung_run_ends_session, early_inner. Qed.


End session.

(** ** A call *)

(** A driver with handlers for all states and one handler of the channel that runs
    before the others; routing finds an extension and its execution hangs up. *)
Definition demo_implements (p : party) (phase : switch_channel_state_t) : bool :=
  match p with Driver => true | App _ => bool_decide (phase = CS_HANGUP) | Core _ => false end.

Definition demo_behaviour (s : session) (k : call) : switch_status_t * list (channel_op * env) :=
  (SWITCH_STATUS_SUCCESS,
   match k with
   | Standard CS_ROUTING => [(OpSetState CS_EXECUTE, sample_env 10)]
   | Standard CS_EXECUTE => [(OpHangup SWITCH_CAUSE_NORMAL_CLEARING, sample_env 20)]
   | _ => []
   end).

Definition demo_handler : switch_state_handler_table_t := mk_handler 7 false.

Definition demo_channel : switch_channel :=
  let c := switch_channel_alloc SWITCH_CALL_DIRECTION_INBOUND in
  let c := default c (switch_channel_perform_set_state c CS_INIT) in
  default c (snd <$> switch_channel_add_state_handler c (Some demo_handler)).

Definition demo_session : session := mk_session demo_channel false false 0 [].

(** The parameters of the theorems, and with them those of the machine. *)
#[local] Notation in_demo f := (f [] (fun _ => true) demo_implements demo_behaviour (fun _ => sample_env 5)) (only parsing).
#[local] Notation demo f := (in_demo f (in_demo early_hangup false 1%nat)) (only parsing).
#[local] Notation demo_run rounds := (demo switch_core_session_run false (fun _ => false) rounds demo_session) (only parsing).

Definition demo_end : session := Eval vm_compute in match demo_run 6 with Some (Exit s) => s | _ => demo_session end.

Lemma demo_run_ends : demo_run 6 = Some (Exit demo_end).
Proof. vm_compute. reflexivity. Qed.

Lemma session_life_witness :
  demo_run 6 = Some (Exit demo_end) /\ state (channel demo_end) = CS_DESTROY
  /\ phases demo_end = [CS_INIT; CS_ROUTING; CS_EXECUTE; CS_HANGUP; CS_REPORTING].
Proof.
  destruct (in_demo session_life false (fun _ => false) 6%nat demo_session demo_end eq_refl eq_refl demo_run_ends) as (H1 & _ & _).
  split; [exact demo_run_ends|]. split; [exact H1|]. vm_compute; reflexivity.
Defined.

(** The same call with the early hangup enabled, hung up by a hook that runs when the
    session is about to enter CS_EXECUTE. *)
Definition hook_behaviour (s : session) (k : call) : switch_status_t * list (channel_op * env) :=
  (SWITCH_STATUS_SUCCESS,
   match k, state (channel s) with
   | Standard CS_ROUTING, _ => [(OpSetState CS_EXECUTE, sample_env 10)]
   | StateRun, CS_EXECUTE => [(OpHangup SWITCH_CAUSE_NORMAL_CLEARING, sample_env 20)]
   | _, _ => []
   end).

#[local] Notation in_hook f := (f [] (fun _ => true) demo_implements hook_behaviour (fun _ => sample_env 5)) (only parsing).
#[local] Notation hook_run := (in_hook switch_core_session_run (in_hook early_hangup true 1%nat) true (fun _ => false) 6%nat demo_session) (only parsing).

Definition hook_end : session := Eval vm_compute in match hook_run with Some (Exit s) => s | _ => demo_session end.

(** With an early hangup a state is entered after CS_HANGUP: the hangup handlers run
    inside of the hook, and the session goes on with the state it was about to enter. *)
Theorem early_hangup_order :
  hook_run = Some (Exit hook_end) /\ phases hook_end = [CS_INIT; CS_ROUTING; CS_HANGUP; CS_EXECUTE; CS_REPORTING]
  /\ (what <$> filter (fun x => at_depth x = 1%nat) (calls hook_end))
     = [StopMedia; Enter CS_HANGUP; Handler (App demo_handler) CS_HANGUP; Handler Driver CS_HANGUP; Standard CS_HANGUP; HangupHook].
Proof. split_and!; vm_compute; reflexivity. Qed.

(** The session after three rounds, when the channel has been hung up, and its end. *)
Definition hung_session : session :=
  Eval vm_compute in match demo_run 3 with Some (Again _ s) => s | _ => demo_session end.

#[local] Notation hung_run := (demo session_loop false (fun _ => false) 2%nat 497 hung_session) (only parsing).

Definition hung_end : outcome := Eval vm_compute in match hung_run with Some r => r | None => Exit demo_session end.

Lemma hung_run_ends : hung_run = Some hung_end.
Proof. vm_compute. reflexivity. Qed.

Lemma hung_alive : alive hung_session.
Proof.
  constructor; [exists [CS_INIT; CS_ROUTING; CS_EXECUTE], []|by vm_compute].
  split_and!; [by repeat constructor|by left|vm_compute; reflexivity].
Qed.

Lemma hangup_ends_session_witness : exists s', hung_run = Some (Exit s') /\ stage s' = cs CS_DESTROY.
Proof.
  destruct (in_demo hangup_ends_session false (fun _ => false) 497 hung_session hung_end hung_alive ltac:(by vm_compute) hung_run_ends)
    as (s' & H1 & H2). exists s'. rewrite <- H1. split; [exact hung_run_ends|exact H2].
Defined.

#[local] Notation macro_run := (demo state_macro CS_HANGUP CS_INIT true demo_session) (only parsing).

Definition macro_end : session := Eval vm_compute in default demo_session macro_run.

Lemma macro_run_ends : macro_run = Some macro_end.
Proof. vm_compute. reflexivity. Qed.

Lemma demo_handlers : handlers (channel demo_session) [demo_handler].
Proof. constructor; [reflexivity|reflexivity|apply NoDup_singleton|cbn; unfold SWITCH_MAX_STATE_HANDLERS; lia]. Qed.


End StateMachine.
