(* ===== verification/Device.v ===== *)
(** * Devices (src/src/switch_channel.c, switch_core.h)

    Channels that belong to the same telephone share a device record: a list of
    legs, one per channel that ever joined, from which the state of the device
    (ringing, active, held, ...) and its times are computed.  A record is found
    by its device id in a hash, lives in a memory pool of its own and is shared
    by all channels of the device; the channel that hangs up last takes it out of
    the hash and destroys the pool when it is destroyed itself.

    A record has an address, which is never used again; [records] are the pools
    that exist.  A [device_node] pointer of a channel is the address of the record
    with the position in the list of legs.  Reading a destroyed record or the
    missing profile of a leg is [None].  The hash is a finite map (CoreHash.v).
    The clock gives a time for every call of switch_micro_time_now in a function,
    in textual order.  Handlers of state changes are called with the record and do
    not change it.  A channel is reduced to what this code uses; its caller profile
    is that of Caller.v. *)

From S2P Require Import Prelude.
From S2P Require Import Text Caller ChannelNames Channel.
From stdpp Require Import strings pretty.

#[local] Open Scope string_scope.
#[local] Open Scope list_scope.
#[local] Open Scope Z_scope.

Module Device.
Import ChannelNames.
Import Channel (switch_call_direction_t(..)).
#[local] Existing Instance Channel.direction_eq_dec.

(** ** Data *)

Inductive switch_device_state_t :=
  | SDS_DOWN | SDS_RINGING | SDS_ACTIVE | SDS_ACTIVE_MULTI | SDS_HELD | SDS_UNHELD | SDS_HANGUP.

#[export] Instance device_state_eq_dec : EqDecision switch_device_state_t.
Proof. solve_decision. Defined.

Definition sds (s : switch_device_state_t) : Z :=
  match s with
  | SDS_DOWN => 0 | SDS_RINGING => 1 | SDS_ACTIVE => 2 | SDS_ACTIVE_MULTI => 3 | SDS_HELD => 4 | SDS_UNHELD => 5 | SDS_HANGUP => 6
  end.

Definition DEVICE_STATE_CHART : list (string * Z) :=
  [("DOWN", sds SDS_DOWN); ("RINGING", sds SDS_RINGING); ("ACTIVE", sds SDS_ACTIVE); ("ACTIVE_MULTI", sds SDS_ACTIVE_MULTI);
   ("HELD", sds SDS_HELD); ("UNHELD", sds SDS_UNHELD); ("HANGUP", sds SDS_HANGUP)].

Definition switch_channel_device_state2str (n : Z) : string := chart_name DEVICE_STATE_CHART n.

Record switch_device_stats := mk_stats {
  total : Z; total_in : Z; total_out : Z;
  offhook : Z; offhook_in : Z; offhook_out : Z;
  active : Z; active_in : Z; active_out : Z;
  held : Z; held_in : Z; held_out : Z;
  unheld : Z; unheld_in : Z; unheld_out : Z;
  hup : Z; hup_in : Z; hup_out : Z;
  ringing : Z; ringing_in : Z; ringing_out : Z;
  early : Z; early_in : Z; early_out : Z;
  ring_wait : Z }.

#[export] Instance rebuild_stats : Rebuild switch_device_stats := fun s =>
  mk_stats (total s) (total_in s) (total_out s) (offhook s) (offhook_in s) (offhook_out s) (active s) (active_in s) (active_out s)
    (held s) (held_in s) (held_out s) (unheld s) (unheld_in s) (unheld_out s) (hup s) (hup_in s) (hup_out s)
    (ringing s) (ringing_in s) (ringing_out s) (early s) (early_in s) (early_out s) (ring_wait s).
#[export] Instance set_total : Setter total := ltac:(derive_setter).
#[export] Instance set_total_in : Setter total_in := ltac:(derive_setter).
#[export] Instance set_total_out : Setter total_out := ltac:(derive_setter).
#[export] Instance set_offhook : Setter offhook := ltac:(derive_setter).
#[export] Instance set_offhook_in : Setter offhook_in := ltac:(derive_setter).
#[export] Instance set_offhook_out : Setter offhook_out := ltac:(derive_setter).
#[export] Instance set_active : Setter active := ltac:(derive_setter).
#[export] Instance set_active_in : Setter active_in := ltac:(derive_setter).
#[export] Instance set_active_out : Setter active_out := ltac:(derive_setter).
#[export] Instance set_held : Setter held := ltac:(derive_setter).
#[export] Instance set_held_in : Setter held_in := ltac:(derive_setter).
#[export] Instance set_held_out : Setter held_out := ltac:(derive_setter).
#[export] Instance set_unheld : Setter unheld := ltac:(derive_setter).
#[export] Instance set_unheld_in : Setter unheld_in := ltac:(derive_setter).
#[export] Instance set_unheld_out : Setter unheld_out := ltac:(derive_setter).
#[export] Instance set_hup : Setter hup := ltac:(derive_setter).
#[export] Instance set_hup_in : Setter hup_in := ltac:(derive_setter).
#[export] Instance set_hup_out : Setter hup_out := ltac:(derive_setter).
#[export] Instance set_ringing : Setter ringing := ltac:(derive_setter).
#[export] Instance set_ringing_in : Setter ringing_in := ltac:(derive_setter).
#[export] Instance set_ringing_out : Setter ringing_out := ltac:(derive_setter).
#[export] Instance set_early : Setter early := ltac:(derive_setter).
#[export] Instance set_early_in : Setter early_in := ltac:(derive_setter).
#[export] Instance set_early_out : Setter early_out := ltac:(derive_setter).
#[export] Instance set_ring_wait : Setter ring_wait := ltac:(derive_setter).

Definition no_stats : switch_device_stats := mk_stats 0 0 0 0 0 0 0 0 0 0 0 0 0 0 0 0 0 0 0 0 0 0 0 0 0.

(** A leg of a device; [xml_cdr] and [event] are pointers. *)
Record switch_device_node := mk_node {
  uuid : string;
  xml_cdr : option Z;
  event : option Z;
  callstate : switch_channel_callstate_t;
  hold_record : list Channel.switch_hold_record_t;
  hup_profile : option Caller.switch_caller_profile;
  direction : switch_call_direction_t;
}.

#[export] Instance rebuild_node : Rebuild switch_device_node := fun n =>
  mk_node (uuid n) (xml_cdr n) (event n) (callstate n) (hold_record n) (hup_profile n) (direction n).
#[export] Instance set_xml_cdr : Setter xml_cdr := ltac:(derive_setter).
#[export] Instance set_event : Setter event := ltac:(derive_setter).
#[export] Instance set_callstate : Setter callstate := ltac:(derive_setter).
#[export] Instance set_hold_record : Setter hold_record := ltac:(derive_setter).
#[export] Instance set_hup_profile : Setter hup_profile := ltac:(derive_setter).
#[export] Instance set_direction : Setter direction := ltac:(derive_setter).

(** [uuid_list] is the list of legs from the first to [uuid_tail]. *)
Record switch_device_record := mk_record {
  device_id : string;
  first_uuid : option string;              (* uuid *)
  refs : Z;
  stats : switch_device_stats;
  last_stats : switch_device_stats;
  state : switch_device_state_t;
  last_state : switch_device_state_t;
  active_start : Z;
  active_stop : Z;
  last_call_time : Z;
  ring_start : Z;
  ring_stop : Z;
  hold_start : Z;
  hold_stop : Z;
  call_start : Z;
  uuid_list : list switch_device_node;
}.

#[export] Instance rebuild_record : Rebuild switch_device_record := fun d =>
  mk_record (device_id d) (first_uuid d) (refs d) (stats d) (last_stats d) (state d) (last_state d) (active_start d) (active_stop d)
    (last_call_time d) (ring_start d) (ring_stop d) (hold_start d) (hold_stop d) (call_start d) (uuid_list d).
#[export] Instance set_first_uuid : Setter first_uuid := ltac:(derive_setter).
#[export] Instance set_refs : Setter refs := ltac:(derive_setter).
#[export] Instance set_stats : Setter stats := ltac:(derive_setter).
#[export] Instance set_last_stats : Setter last_stats := ltac:(derive_setter).
#[export] Instance set_state : Setter state := ltac:(derive_setter).
#[export] Instance set_last_state : Setter last_state := ltac:(derive_setter).
#[export] Instance set_active_start : Setter active_start := ltac:(derive_setter).
#[export] Instance set_active_stop : Setter active_stop := ltac:(derive_setter).
#[export] Instance set_last_call_time : Setter last_call_time := ltac:(derive_setter).
#[export] Instance set_ring_start : Setter ring_start := ltac:(derive_setter).
#[export] Instance set_ring_stop : Setter ring_stop := ltac:(derive_setter).
#[export] Instance set_hold_start : Setter hold_start := ltac:(derive_setter).
#[export] Instance set_hold_stop : Setter hold_stop := ltac:(derive_setter).
#[export] Instance set_call_start : Setter call_start := ltac:(derive_setter).
#[export] Instance set_uuid_list : Setter uuid_list := ltac:(derive_setter).

(** The event SWITCH_EVENT_DEVICE_STATE; the talk time is the stop time with the
    milliseconds. *)
Record device_event := mk_event {
  ev_device_id : string; ev_last_state : string; ev_state : string; ev_callstate : string; ev_stats : switch_device_stats;
  ev_talk_start : Z; ev_talk_stop : option (Z * Z) }.

(** What leaves the device records. *)
Inductive notice :=
  | Handler (function : Z) (callstate : switch_channel_callstate_t) (drec : switch_device_record)
  | FireDeviceState (ev : device_event)
  | FireCallDetail (device_id : string) (calls : list (string * Caller.switch_caller_profile))
  | FreeXml (xml : Z)
  | DestroyEvent (ev : Z).

Record globals := mk_globals {
  device_hash : gmap string Z;
  device_bindings : list Z;                (* the functions *)
  records : gmap Z switch_device_record;
  next_addr : Z;
  notices : list notice;
}.

#[export] Instance rebuild_globals : Rebuild globals := fun g =>
  mk_globals (device_hash g) (device_bindings g) (records g) (next_addr g) (notices g).
#[export] Instance set_device_hash : Setter device_hash := ltac:(derive_setter).
#[export] Instance set_device_bindings : Setter device_bindings := ltac:(derive_setter).
#[export] Instance set_records : Setter records := ltac:(derive_setter).
#[export] Instance set_next_addr : Setter next_addr := ltac:(derive_setter).
#[export] Instance set_notices : Setter notices := ltac:(derive_setter).

(** The part of a channel that has to do with devices. *)
Record switch_channel := mk_channel {
  session_uuid : string;
  caller_profile : Caller.switch_caller_profile;
  chan_callstate : switch_channel_callstate_t;
  chan_direction : switch_call_direction_t;
  logical_direction : switch_call_direction_t;
  cf_device_leg : bool;                    (* CF_DEVICE_LEG *)
  cf_final_device_leg : bool;              (* CF_FINAL_DEVICE_LEG *)
  chan_device_id : option string;
  chan_hold_record : list Channel.switch_hold_record_t;
  device_node : option (Z * nat);
}.

#[export] Instance rebuild_channel : Rebuild switch_channel := fun c =>
  mk_channel (session_uuid c) (caller_profile c) (chan_callstate c) (chan_direction c) (logical_direction c) (cf_device_leg c)
    (cf_final_device_leg c) (chan_device_id c) (chan_hold_record c) (device_node c).
#[export] Instance set_caller_profile : Setter caller_profile := ltac:(derive_setter).
#[export] Instance set_chan_callstate : Setter chan_callstate := ltac:(derive_setter).
#[export] Instance set_logical_direction : Setter logical_direction := ltac:(derive_setter).
#[export] Instance set_cf_device_leg : Setter cf_device_leg := ltac:(derive_setter).
#[export] Instance set_cf_final_device_leg : Setter cf_final_device_leg := ltac:(derive_setter).
#[export] Instance set_chan_device_id : Setter chan_device_id := ltac:(derive_setter).
#[export] Instance set_chan_hold_record : Setter chan_hold_record := ltac:(derive_setter).
#[export] Instance set_device_node : Setter device_node := ltac:(derive_setter).

Implicit Types (np : switch_device_node) (drec : switch_device_record) (s : switch_device_stats) (g : globals) (c : switch_channel)
  (clock : nat -> Z) (d : switch_call_direction_t).

(** ** Counting the legs *)

Definition inc (f : switch_device_stats -> Z) `{!Setter f} s : switch_device_stats := setter (proj := f) (fun x => u32 (x + 1)) s.

Definition bump (f f_in f_out : switch_device_stats -> Z) `{!Setter f, !Setter f_in, !Setter f_out} d s : switch_device_stats :=
  let s := inc f s in
  if bool_decide (d = SWITCH_CALL_DIRECTION_INBOUND) then inc f_in s else inc f_out s.

Definition count_leg s np : switch_device_stats :=
  let d := direction np in
  let s := bump total total_in total_out d s in
  match hup_profile np with
  | None =>
      let s := bump offhook offhook_in offhook_out d s in
      match callstate np with
      | CCS_HELD => bump held held_in held_out d s
      | CCS_UNHELD => bump unheld unheld_in unheld_out d s
      | CCS_EARLY => bump early early_in early_out d s
      | CCS_RINGING => bump ringing ringing_in ringing_out d s
      | CCS_RING_WAIT => inc ring_wait s
      | CCS_HANGUP => bump hup hup_in hup_out d s
      | CCS_DOWN => s
      | _ => bump active active_in active_out d s
      end
  | Some _ => bump hup hup_in hup_out d s
  end.

Definition fetch_device_stats drec : switch_device_record := drec <| stats := foldl count_leg no_stats (uuid_list drec) |>.

(** ** The state of a device *)

Definition next_state s (st : switch_device_state_t) : switch_device_state_t :=
  if bool_decide (st = SDS_HANGUP) then st
  else if (offhook s =? 0) || (hup s =? total s) then SDS_HANGUP
  else if active s =? 0 then
    if (u32 (ringing_out s + early_out s) >? 0) || (ring_wait s >? 0) then SDS_RINGING
    else if held s >? 0 then SDS_HELD
    else if unheld s >? 0 then SDS_UNHELD
    else SDS_DOWN
  else if active s =? 1 then SDS_ACTIVE
  else SDS_ACTIVE_MULTI.

Definition is_active (st : switch_device_state_t) : bool := match st with SDS_ACTIVE | SDS_ACTIVE_MULTI => true | _ => false end.
Definition is_ringing (st : switch_device_state_t) : bool := bool_decide (st = SDS_RINGING).
Definition is_held (st : switch_device_state_t) : bool := bool_decide (st = SDS_HELD).

Definition start_call clock drec : switch_device_record :=
  if call_start drec =? 0 then drec <| call_start := clock 0%nat |> else drec.

Definition start_timer clock drec : switch_device_record :=
  match state drec with
  | SDS_RINGING => if ring_start drec =? 0 then drec <| ring_start := clock 1%nat |> <| ring_stop := 0 |> else drec
  | SDS_ACTIVE | SDS_ACTIVE_MULTI => if active_start drec =? 0 then drec <| active_start := clock 2%nat |> <| active_stop := 0 |> else drec
  | SDS_HELD => if hold_start drec =? 0 then drec <| hold_start := clock 3%nat |> <| hold_stop := 0 |> else drec
  | _ => drec
  end.

Definition start_times clock drec : switch_device_record := start_timer clock (start_call clock drec).

Definition stop_active clock (cs0 : switch_channel_callstate_t) drec : switch_device_record :=
  if bool_decide (cs0 <> CCS_UNHELD) && negb (active_start drec =? 0) && negb (is_active (state drec))
  then drec <| active_stop := clock 4%nat |> else drec.

Definition stop_ring clock drec : switch_device_record :=
  if negb (ring_start drec =? 0) && (ring_stop drec =? 0) && negb (is_ringing (state drec))
  then drec <| ring_stop := clock 5%nat |> else drec.

Definition stop_hold clock drec : switch_device_record :=
  if negb (hold_start drec =? 0) && (hold_stop drec =? 0) && negb (is_held (state drec))
  then drec <| hold_stop := clock 6%nat |> else drec.

Definition stop_times clock (cs0 : switch_channel_callstate_t) drec : switch_device_record :=
  stop_hold clock (stop_ring clock (stop_active clock cs0 drec)).

Definition reset_active clock drec : switch_device_record :=
  if active_stop drec =? 0 then drec
  else drec <| active_start := if is_active (state drec) then clock 7%nat else 0 |> <| active_stop := 0 |>.

Definition reset_hold clock drec : switch_device_record :=
  if hold_stop drec =? 0 then drec
  else drec <| hold_start := if is_held (state drec) then clock 8%nat else 0 |> <| hold_stop := 0 |>.

Definition reset_ring clock drec : switch_device_record :=
  if ring_stop drec =? 0 then drec
  else drec <| ring_start := if is_ringing (state drec) then clock 9%nat else 0 |> <| ring_stop := 0 |>.

Definition reset_times clock drec : switch_device_record := reset_ring clock (reset_hold clock (reset_active clock drec)).

(** The milliseconds are computed from a difference that is cut to 32 bits. *)
Definition milliseconds (stop start : Z) : Z := u32 (stop - start) / 1000.

Definition state_event (cs0 : switch_channel_callstate_t) drec : device_event :=
  mk_event (device_id drec) (switch_channel_device_state2str (sds (last_state drec))) (switch_channel_device_state2str (sds (state drec)))
    (switch_channel_callstate2str (ccs cs0)) (stats drec) (active_start drec)
    (if active_stop drec =? 0 then None else Some (active_stop drec, milliseconds (active_stop drec) (active_start drec))).

Definition refresh_state drec : switch_device_record := drec <| state := next_state (stats drec) (state drec) |>.

(** A device that is down, or hung up, and was so before. *)
Definition unchanged drec : bool :=
  (bool_decide (state drec = SDS_DOWN) && bool_decide (last_state drec = SDS_DOWN))
  || (bool_decide (state drec = SDS_HANGUP) && bool_decide (last_state drec = SDS_HANGUP)).

Definition announce (created : bool) (cs0 : switch_channel_callstate_t) (bindings : list Z) drec : list notice :=
  map (fun f => Handler f cs0 drec) bindings ++ (if created then [FireDeviceState (state_event cs0 drec)] else []).

Definition settle clock drec : switch_device_record :=
  let drec := drec <| last_stats := stats drec |> in
  let drec := reset_times clock drec in
  let drec := drec <| last_call_time := clock 10%nat |> in
  drec <| last_state := state drec |>.

(** The part of switch_channel_check_device_state under the locks, and the event,
    which is fired after them; [created] says whether it could be created. *)
Definition update_device clock (created : bool) (cs0 : switch_channel_callstate_t) (bindings : list Z) drec
  : switch_device_record * list notice :=
  let drec := refresh_state (fetch_device_stats drec) in
  if unchanged drec then (drec, [])
  else
    let drec := stop_times clock cs0 (start_times clock drec) in
    (settle clock drec, announce created cs0 bindings drec).

Definition store (a : Z) drec g : globals := g <| records := <[a := drec]> (records g) |>.

Definition say (out : list notice) g : globals := g <| notices := notices g ++ out |>.

(** The two reads of device_node before the locks are taken: it is tested and then followed. *)
Definition device_parent (tested followed : option (Z * nat)) : option (option Z) :=
  match tested with None => Some None | Some _ => match followed with Some (a, _) => Some (Some a) | None => None end end.

(** What is done with the record at [a] once it is locked. *)
Definition check_device_record clock (created : bool) (a : Z) (cs0 : switch_channel_callstate_t) g : option globals :=
  drec ← records g !! a;
  let '(drec, out) := update_device clock created cs0 (device_bindings g) drec in
  Some (say out (store a drec g)).

(** The function where no other thread comes between these parts. *)
Definition switch_channel_check_device_state clock (created : bool) c (cs0 : switch_channel_callstate_t) g : option globals :=
  parent ← device_parent (device_node c) (device_node c);
  match parent with None => Some g | Some a => check_device_record clock created a cs0 g end.

(** ** Joining a device *)

Definition add_uuid (a : Z) drec c : switch_device_record * switch_channel :=
  let c := c <| cf_device_leg := true |> in
  let node := mk_node (session_uuid c) None None (chan_callstate c) [] None
    (if bool_decide (logical_direction c = SWITCH_CALL_DIRECTION_INBOUND) then SWITCH_CALL_DIRECTION_OUTBOUND
     else SWITCH_CALL_DIRECTION_INBOUND) in
  let c := c <| device_node := Some (a, length (uuid_list drec)) |> in
  let drec := match uuid_list drec with [] => drec <| first_uuid := Some (uuid node) |> | _ => drec end in
  (drec <| uuid_list := uuid_list drec ++ [node] |> <| refs := refs drec + 1 |>, c).

Definition create_device_record (id : string) : switch_device_record :=
  mk_record id None 0 no_stats no_stats SDS_DOWN SDS_DOWN 0 0 0 0 0 0 0 0 [].

(** The part of switch_channel_set_device_id under the lock. *)
Definition join_device (id : string) c g : option (switch_channel * globals) :=
  let c := c <| chan_device_id := Some id |> in
  let '(a, g) :=
    match device_hash g !! id with
    | Some a => (a, g)
    | None =>
        let a := next_addr g in
        (a, store a (create_device_record id) g <| next_addr := a + 1 |> <| device_hash := <[id := a]> (device_hash g) |>)
    end in
  drec ← records g !! a;
  let '(drec, c) := add_uuid a drec c in
  Some (c, store a drec g).

Definition switch_channel_set_device_id clock (created : bool) c (id : string) g : option (option string * switch_channel * globals) :=
  match device_node c with
  | Some _ => Some (None, c, g)
  | None =>
      '(c, g) ← join_device id c g;
      g ← switch_channel_check_device_state clock created c (chan_callstate c) g;
      Some (Some id, c, g)
  end.

(** ** Changes of a leg *)

Definition alter_node (a : Z) (i : nat) (f : switch_device_node -> switch_device_node) g : option globals :=
  drec ← records g !! a;
  np ← uuid_list drec !! i;
  Some (store a (drec <| uuid_list := <[i := f np]> (uuid_list drec) |>) g).

Definition on_node (f : switch_device_node -> switch_device_node) c g : option globals :=
  match device_node c with None => Some g | Some (a, i) => alter_node a i f g end.

(** The writes of switch_channel_perform_set_callstate, and the whole function;
    the channel event that it fires is in Channel.v. *)
Definition write_callstate (cs0 : switch_channel_callstate_t) c g : option (switch_channel * globals) :=
  g ← on_node (fun np => np <| callstate := cs0 |>) c g;
  Some (c <| chan_callstate := cs0 |>, g).

Definition switch_channel_perform_set_callstate clock (created : bool) c (cs0 : switch_channel_callstate_t) g
  : option (switch_channel * globals) :=
  if bool_decide (chan_callstate c = cs0) || bool_decide (chan_callstate c = CCS_HANGUP) then Some (c, g)
  else
    '(c, g) ← write_callstate cs0 c g;
    g ← switch_channel_check_device_state clock created c (chan_callstate c) g;
    Some (c, g).

(** CF_DIALPLAN: setting it in switch_channel_set_flag_value, clearing it in
    switch_channel_clear_flag. *)
Definition set_dialplan c g : option (switch_channel * globals) :=
  if bool_decide (chan_direction c = SWITCH_CALL_DIRECTION_INBOUND) then
    g ← on_node (fun np => np <| direction := SWITCH_CALL_DIRECTION_INBOUND |>) c g;
    Some (c <| logical_direction := SWITCH_CALL_DIRECTION_OUTBOUND |>, g)
  else
    g ← on_node (fun np => np <| direction := SWITCH_CALL_DIRECTION_OUTBOUND |>) c g;
    Some (c <| logical_direction := SWITCH_CALL_DIRECTION_INBOUND |>, g).

Definition clear_dialplan c g : option (switch_channel * globals) :=
  if bool_decide (chan_direction c = SWITCH_CALL_DIRECTION_OUTBOUND) then
    g ← on_node (fun np => np <| direction := SWITCH_CALL_DIRECTION_INBOUND |>) c g;
    Some (c <| logical_direction := SWITCH_CALL_DIRECTION_OUTBOUND |>, g)
  else Some (c, g).

(** ** Leaving a device *)

(** What the surrounding program gives a hangup: the id of the copied profile,
    the call detail record and the event, when they can be made. *)
Record hup_env := mk_hup_env { new_uuid : string; cdr : option Z; detail : option Z }.

Definition hup_node (e : hup_env) (profile : Caller.switch_caller_profile) (holds : list Channel.switch_hold_record_t) np
  : switch_device_node :=
  let np := np <| hup_profile := Some profile |> in
  let np := match cdr e with Some x => np <| xml_cdr := Some x |> | None => np end in
  let np := match detail e with Some x => np <| event := Some x |> | None => np end in
  match hold_record np with [] => np <| hold_record := holds |> | _ => np end.

Definition process_device_hup (e : hup_env) c g : option (switch_channel * globals) :=
  match device_node c with
  | None => Some (c, g)
  | Some (a, i) =>
      let '(profile, original) := Caller.switch_caller_profile_dup (new_uuid e) (caller_profile c) in
      let c := c <| caller_profile := original |> in
      g ← alter_node a i (hup_node e profile (chan_hold_record c)) g;
      drec ← records g !! a;
      let drec := fetch_device_stats drec in
      let '(c, g) :=
        if offhook (stats drec) =? 0 then
          (c <| cf_final_device_leg := true |>, g <| device_hash := delete (device_id drec) (device_hash g) |>)
        else (c <| device_node := None |>, g) in
      Some (c, store a (drec <| refs := refs drec - 1 |>) g)
  end.

Definition switch_channel_process_device_hangup clock (created : bool) (e : hup_env) c g : option (switch_channel * globals) :=
  g ← switch_channel_check_device_state clock created c (chan_callstate c) g;
  process_device_hup e c g.

(** How often the loop of switch_channel_clear_device_record sleeps: [reads] are
    the values of the reference count that it sees. *)
Fixpoint naps (sanity : nat) (reads : nat -> Z) : nat :=
  match sanity with
  | O | S O => O
  | S sanity => if reads O =? 0 then O else S (naps sanity (fun i => reads (S i)))
  end.

Definition call_prefix (x : nat) : string := "Call-" ++ pretty (Z.of_nat x).

Definition freed_by np : list notice :=
  match xml_cdr np with Some x => [FreeXml x] | None => [] end ++ match event np with Some x => [DestroyEvent x] | None => [] end.

Definition switch_channel_clear_device_record (created : bool) c g : option globals :=
  match device_node c with
  | None => Some g
  | Some (a, _) =>
      if cf_final_device_leg c then
        drec ← records g !! a;
        out ← (if created then
                 profiles ← mapM hup_profile (uuid_list drec);
                 Some [FireCallDetail (device_id drec) (imap (fun x p => (call_prefix (S x), p)) profiles)]
               else Some []);
        Some (say (out ++ concat (map freed_by (uuid_list drec))) g <| records := delete a (records g) |>)
      else Some g
  end.

(** ** Handlers of state changes *)

Definition switch_channel_bind_device_state_handler (function : Z) g : switch_status_t * globals :=
  (SWITCH_STATUS_SUCCESS, g <| device_bindings := device_bindings g ++ [function] |>).

(** The loop of switch_channel_unbind_device_state_handler: [seen] are the
    bindings in the list before [ptr], [last] whether [last] is a binding that is
    still in the list ([Some true]), one that was just taken out ([Some false]) or
    NULL.  After a removal [last] is the binding that was removed, so the next one
    is unlinked from that and stays in the list. *)
Fixpoint unbind_loop (function : Z) (last : option bool) (seen ptr : list Z) (status : switch_status_t) : switch_status_t * list Z :=
  match ptr with
  | [] => (status, seen)
  | f :: ptr =>
      if f =? function then
        match last with
        | Some true => unbind_loop function (Some false) seen ptr SWITCH_STATUS_SUCCESS
        | Some false => unbind_loop function (Some true) (seen ++ [f]) ptr SWITCH_STATUS_SUCCESS
        | None => unbind_loop function None seen ptr SWITCH_STATUS_SUCCESS
        end
      else unbind_loop function (Some true) (seen ++ [f]) ptr status
  end.

Definition switch_channel_unbind_device_state_handler (function : Z) g : switch_status_t * globals :=
  let '(status, l) := unbind_loop function None [] (device_bindings g) SWITCH_STATUS_FALSE in
  (status, g <| device_bindings := l |>).

End Device.
