(* ===== verification/DeviceTheorems.v ===== *)
(** * Theorems about devices (src/src/switch_channel.c)

    The numbers of a device record are those of its legs, the state of the device
    is the one the legs are in, and the times follow the state.  For any
    interleaving of the channels of a program no channel reads a record that has
    been destroyed, the record of a device exists exactly as long as one of its
    legs has not hung up or the last of them has not been destroyed, and the last
    one never has to wait. *)

From S2P Require Import Prelude.
From S2P Require Import Text Caller ChannelNames Channel Device.
From stdpp Require Import strings.

#[local] Open Scope string_scope.
#[local] Open Scope list_scope.
#[local] Open Scope Z_scope.

Module DeviceTheorems.
Import ChannelNames Device.
Import Channel (switch_call_direction_t(..)).
#[local] Existing Instance Channel.direction_eq_dec.

Implicit Types (np : switch_device_node) (drec : switch_device_record) (s : switch_device_stats) (g : globals) (c : switch_channel)
  (clock : nat -> Z) (l : list switch_device_node) (a : Z).

(** ** The numbers of a device *)

(** What a leg counts as, and the legs that do in one direction or both. *)
Definition is_up np : bool := match hup_profile np with None => true | Some _ => false end.

Definition in_state (cs1 : switch_channel_callstate_t) np : bool := is_up np && bool_decide (callstate np = cs1).

Definition is_hup np : bool := negb (is_up np) || bool_decide (callstate np = CCS_HANGUP).

Definition is_talking np : bool := is_up np && match callstate np with CCS_DIALING | CCS_ACTIVE => true | _ => false end.

Definition inbound (p : switch_device_node -> bool) np : bool := p np && bool_decide (direction np = SWITCH_CALL_DIRECTION_INBOUND).
Definition outbound (p : switch_device_node -> bool) np : bool := p np && bool_decide (direction np = SWITCH_CALL_DIRECTION_OUTBOUND).

Definition number (p : switch_device_node -> bool) l : Z := u32 (count p l).

Definition counted l : switch_device_stats :=
  let all := fun _ : switch_device_node => true in
  mk_stats (number all l) (number (inbound all) l) (number (outbound all) l)
    (number is_up l) (number (inbound is_up) l) (number (outbound is_up) l)
    (number is_talking l) (number (inbound is_talking) l) (number (outbound is_talking) l)
    (number (in_state CCS_HELD) l) (number (inbound (in_state CCS_HELD)) l) (number (outbound (in_state CCS_HELD)) l)
    (number (in_state CCS_UNHELD) l) (number (inbound (in_state CCS_UNHELD)) l) (number (outbound (in_state CCS_UNHELD)) l)
    (number is_hup l) (number (inbound is_hup) l) (number (outbound is_hup) l)
    (number (in_state CCS_RINGING) l) (number (inbound (in_state CCS_RINGING)) l) (number (outbound (in_state CCS_RINGING)) l)
    (number (in_state CCS_EARLY) l) (number (inbound (in_state CCS_EARLY)) l) (number (outbound (in_state CCS_EARLY)) l)
    (number (in_state CCS_RING_WAIT) l).

Lemma number_snoc p l np : number p (l ++ [np]) = if p np then u32 (number p l + 1) else number p l.
Proof.
  unfold number. rewrite count_app, count_cons. change (count p []) with 0. destruct (p np); cbn [Z.b2z].
  - unfold u32. rewrite Z.add_mod_idemp_l by lia. f_equal; lia.
  - f_equal; lia.
Qed.

Lemma fetch_counted l : foldl count_leg no_stats l = counted l.
Proof.
  induction l as [|np l IH] using rev_ind; [done|]. rewrite foldl_app. cbn [foldl]. rewrite IH.
  destruct np as [u x ev cst h hp di]. unfold counted. rewrite !number_snoc.
  destruct hp, di, cst; reflexivity.
Qed.


(** ** The state of a device *)

Definition rings np : bool := outbound (in_state CCS_RINGING) np || outbound (in_state CCS_EARLY) np || in_state CCS_RING_WAIT np.

(** The state that the legs of a device stand for. *)
Definition state_of_legs l : switch_device_state_t :=
  if forallb is_hup l then SDS_HANGUP
  else match filter (fun np => is_talking np = true) l with
  | [] =>
      if existsb rings l then SDS_RINGING
      else if existsb (in_state CCS_HELD) l then SDS_HELD
      else if existsb (in_state CCS_UNHELD) l then SDS_UNHELD
      else SDS_DOWN
  | [_] => SDS_ACTIVE
  | _ => SDS_ACTIVE_MULTI
  end.

Definition fits l : Prop := Z.of_nat (length l) < 2 ^ 32.

Lemma number_fits p l : fits l -> number p l = count p l.
Proof. intros H. apply u32_small. pose proof (count_nonneg p l). pose proof (count_length p l). unfold fits in H. lia. Qed.

Lemma count_existsb {A} (p : A -> bool) (k : list A) : (count p k >? 0) = existsb p k.
Proof.
  induction k as [|x k IH]; [done|]. rewrite count_cons. cbn [existsb]. rewrite <- IH. pose proof (count_nonneg p k).
  destruct (p x); cbn [Z.b2z orb]; [apply Z.gtb_lt; lia|done].
Qed.

Lemma count_forallb {A} (p : A -> bool) (k : list A) : (count p k =? Z.of_nat (length k)) = forallb p k.
Proof.
  induction k as [|x k IH]; [done|]. rewrite count_cons. cbn [forallb]. rewrite <- IH. pose proof (count_length p k).
  destruct (p x); cbn [Z.b2z andb length]; [apply eq_true_iff_eq; rewrite !Z.eqb_eq; lia|apply Z.eqb_neq; lia].
Qed.

Lemma existsb_or {A} (p q : A -> bool) (k : list A) : existsb (fun x => p x || q x) k = existsb p k || existsb q k.
Proof. induction k as [|x k IH]; [done|]. cbn [existsb]. rewrite IH. by destruct (p x), (q x), (existsb p k). Qed.

Lemma all_true l : count (fun _ => true) l = Z.of_nat (length l).
Proof. apply Z.eqb_eq. rewrite count_forallb. by apply forallb_forall. Qed.

Lemma ended_spec l : (count is_up l =? 0) || (count is_hup l =? count (fun _ => true) l) = forallb is_hup l.
Proof.
  rewrite all_true, count_forallb. destruct (count is_up l =? 0) eqn:E; [|done]. symmetry. apply forallb_forall.
  intros np [i Hi]%list_elem_of_In%list_elem_of_lookup. unfold is_hup. destruct (is_up np) eqn:Hu; [|done].
  pose proof (count_lookup is_up l i np Hi Hu). apply Z.eqb_eq in E. lia.
Qed.

Lemma ringing_spec l : fits l ->
  (u32 (number (outbound (in_state CCS_RINGING)) l + number (outbound (in_state CCS_EARLY)) l) >? 0)
  || (number (in_state CCS_RING_WAIT) l >? 0) = existsb rings l.
Proof.
  intros Hf. rewrite !number_fits by done. unfold rings. rewrite !existsb_or, <- !count_existsb. f_equal.
  assert (count (outbound (in_state CCS_RINGING)) l + count (outbound (in_state CCS_EARLY)) l <= Z.of_nat (length l)) as Hle.
  { clear Hf. induction l as [|np l IH]; [done|]. rewrite !count_cons. cbn [length].
    enough (Z.b2z (outbound (in_state CCS_RINGING) np) + Z.b2z (outbound (in_state CCS_EARLY) np) <= 1) by lia.
    unfold outbound, in_state. repeat case_bool_decide; try congruence; by destruct (is_up np). }
  pose proof (count_nonneg (outbound (in_state CCS_RINGING)) l). pose proof (count_nonneg (outbound (in_state CCS_EARLY)) l).
  unfold fits in Hf. rewrite u32_small by lia. apply eq_true_iff_eq. rewrite orb_true_iff, !Z.gtb_lt. lia.
Qed.

Lemma next_state_spec l st : fits l -> st <> SDS_HANGUP -> next_state (counted l) st = state_of_legs l.
Proof.
  intros Hf Hst. unfold next_state, state_of_legs, counted. cbn [offhook hup total active held unheld ringing_out early_out ring_wait].
  rewrite bool_decide_false by done. rewrite ringing_spec by done. rewrite !number_fits, ended_spec, !count_existsb by done.
  destruct (forallb is_hup l); [done|]. unfold count. destruct (filter _ l) as [|n1 [|n2 k]]; [done..|].
  cbn [length]. destruct (Z.eqb_spec (Z.of_nat (S (S (length k)))) 0); [lia|]. by destruct (Z.eqb_spec (Z.of_nat (S (S (length k)))) 1); [lia|].
Qed.

(** What setting the times of a record leaves alone. *)
Record timed drec drec' : Prop := {
  timed_state : state drec' = state drec;
  timed_last_state : last_state drec' = last_state drec;
  timed_legs : uuid_list drec' = uuid_list drec;
  timed_refs : refs drec' = refs drec;
  timed_id : device_id drec' = device_id drec;
}.

#[export] Instance timed_preorder : PreOrder timed.
Proof. split; [by constructor|]. intros d1 d2 d3 [] []. constructor; congruence. Qed.

Lemma start_timed clock drec : timed drec (start_times clock drec).
Proof.
  transitivity (start_call clock drec); [unfold start_call|unfold start_times, start_timer]; by repeat case_match; constructor.
Qed.

Lemma stop_timed clock cs0 drec : timed drec (stop_times clock cs0 drec).
Proof.
  transitivity (stop_active clock cs0 drec); [unfold stop_active; by case_match; constructor|]. unfold stop_times.
  generalize (stop_active clock cs0 drec). intros d1. transitivity (stop_ring clock d1); [unfold stop_ring|unfold stop_hold]; by case_match; constructor.
Qed.

Lemma reset_timed clock drec : timed drec (reset_times clock drec).
Proof.
  transitivity (reset_active clock drec); [unfold reset_active; by case_match; constructor|]. unfold reset_times.
  generalize (reset_active clock drec). intros d1. transitivity (reset_hold clock d1); [unfold reset_hold|unfold reset_ring]; by case_match; constructor.
Qed.

Lemma refreshed_state drec : state (refresh_state (fetch_device_stats drec)) = next_state (counted (uuid_list drec)) (state drec).
Proof. unfold refresh_state, fetch_device_stats. cbn. by rewrite fetch_counted. Qed.

Lemma unchanged_last drec : unchanged drec = true -> last_state drec = state drec.
Proof.
  unfold unchanged. intros [H|H]%orb_true_iff; apply andb_true_iff in H as [?%bool_decide_eq_true ?%bool_decide_eq_true]; congruence.
Qed.

Lemma settle_timed clock drec drec' :
  timed drec drec' ->
  state (settle clock drec') = state drec /\ last_state (settle clock drec') = state drec /\
  uuid_list (settle clock drec') = uuid_list drec /\ refs (settle clock drec') = refs drec /\
  device_id (settle clock drec') = device_id drec.
Proof.
  intros [Hs _ Hu Hr Hi]. unfold settle. set (d1 := drec' <| last_stats := stats drec' |>).
  destruct (reset_timed clock d1) as [Ts Tl Tu Tr Ti]. generalize dependent (reset_times clock d1). intros d2 ?????.
  change (state d2 = state drec /\ state d2 = state drec /\ uuid_list d2 = uuid_list drec /\ refs d2 = refs drec /\ device_id d2 = device_id drec).
  subst d1. split_and!; etrans; eassumption.
Qed.

Lemma update_frame clock created cs0 fs drec drec' out :
  update_device clock created cs0 fs drec = (drec', out) ->
  state drec' = next_state (counted (uuid_list drec)) (state drec) /\ last_state drec' = state drec' /\
  uuid_list drec' = uuid_list drec /\ refs drec' = refs drec /\ device_id drec' = device_id drec.
Proof.
  unfold update_device. rewrite <- refreshed_state.
  change (uuid_list drec) with (uuid_list (refresh_state (fetch_device_stats drec))).
  change (refs drec) with (refs (refresh_state (fetch_device_stats drec))).
  change (device_id drec) with (device_id (refresh_state (fetch_device_stats drec))).
  generalize (refresh_state (fetch_device_stats drec)). clear drec. intros drec. destruct (unchanged drec) eqn:E.
  - intros [= <- _]. by rewrite (unchanged_last drec).
  - intros [= <- _]. destruct (settle_timed clock drec (stop_times clock cs0 (start_times clock drec))) as (-> & -> & ? & ? & ?); [|done].
    etrans; [apply start_timed|apply stop_timed].
Qed.

(** ** The times of a device *)

(** The state of a record with its three timers, a start and a stop time each. *)
Definition timer : Type := Z * Z.
Definition timers_of drec : switch_device_state_t * timer * timer * timer :=
  (state drec, (ring_start drec, ring_stop drec), (hold_start drec, hold_stop drec), (active_start drec, active_stop drec)).

Definition start_one (on : bool) (now : Z) (t : timer) : timer := if on && (t.1 =? 0) then (now, 0) else t.
Definition stop_one (on always : bool) (now : Z) (t : timer) : timer :=
  if negb (t.1 =? 0) && (always || (t.2 =? 0)) && negb on then (t.1, now) else t.
Definition reset_one (on : bool) (now : Z) (t : timer) : timer := if t.2 =? 0 then t else (if on then now else 0, 0).

Lemma start_timers clock drec :
  timers_of (start_times clock drec) =
  let '(st, r, h, t) := timers_of drec in
  (st, start_one (is_ringing st) (clock 1%nat) r, start_one (is_held st) (clock 3%nat) h, start_one (is_active st) (clock 2%nat) t).
Proof.
  transitivity (timers_of (start_timer clock drec)).
  { unfold start_times, start_call. case_match; [|done]. unfold start_timer. 
    change (state (drec <| call_start := clock 0%nat |>)) with (state drec).
    change (ring_start (drec <| call_start := clock 0%nat |>)) with (ring_start drec).
    change (hold_start (drec <| call_start := clock 0%nat |>)) with (hold_start drec).
    change (active_start (drec <| call_start := clock 0%nat |>)) with (active_start drec). by repeat case_match. }
  destruct drec as [? ? ? ? ? st ? talk ? ? ring ? hold ? ? ?]. unfold start_timer, timers_of, start_one. cbn [fst snd state ring_start hold_start active_start].
  destruct st, (ring =? 0), (hold =? 0), (talk =? 0); reflexivity.
Qed.

Lemma stop_active_timers clock cs0 drec :
  timers_of (stop_active clock cs0 drec) =
  let '(st, r, h, t) := timers_of drec in (st, r, h, if bool_decide (cs0 = CCS_UNHELD) then t else stop_one (is_active st) true (clock 4%nat) t).
Proof.
  unfold stop_active, timers_of, stop_one. cbn [fst snd orb]. rewrite bool_decide_not.
  destruct (bool_decide (cs0 = CCS_UNHELD)); [done|]. cbn [negb andb]. rewrite andb_true_r. by case_match.
Qed.

Lemma stop_ring_timers clock drec :
  timers_of (stop_ring clock drec) = let '(st, r, h, t) := timers_of drec in (st, stop_one (is_ringing st) false (clock 5%nat) r, h, t).
Proof. unfold stop_ring, timers_of, stop_one. cbn [fst snd orb]. by case_match. Qed.

Lemma stop_hold_timers clock drec :
  timers_of (stop_hold clock drec) = let '(st, r, h, t) := timers_of drec in (st, r, stop_one (is_held st) false (clock 6%nat) h, t).
Proof. unfold stop_hold, timers_of, stop_one. cbn [fst snd orb]. by case_match. Qed.

Lemma reset_active_timers clock drec :
  timers_of (reset_active clock drec) = let '(st, r, h, t) := timers_of drec in (st, r, h, reset_one (is_active st) (clock 7%nat) t).
Proof. unfold reset_active, timers_of, reset_one. cbn [fst snd]. by case_match. Qed.

Lemma reset_hold_timers clock drec :
  timers_of (reset_hold clock drec) = let '(st, r, h, t) := timers_of drec in (st, r, reset_one (is_held st) (clock 8%nat) h, t).
Proof. unfold reset_hold, timers_of, reset_one. cbn [fst snd]. by case_match. Qed.

Lemma reset_ring_timers clock drec :
  timers_of (reset_ring clock drec) = let '(st, r, h, t) := timers_of drec in (st, reset_one (is_ringing st) (clock 9%nat) r, h, t).
Proof. unfold reset_ring, timers_of, reset_one. cbn [fst snd]. by case_match. Qed.

Lemma settle_timers clock drec :
  timers_of (settle clock drec) =
  let '(st, r, h, t) := timers_of drec in
  (st, reset_one (is_ringing st) (clock 9%nat) r, reset_one (is_held st) (clock 8%nat) h, reset_one (is_active st) (clock 7%nat) t).
Proof.
  change (timers_of (settle clock drec)) with (timers_of (reset_times clock (drec <| last_stats := stats drec |>))).
  unfold reset_times. by rewrite reset_ring_timers, reset_hold_timers, reset_active_timers.
Qed.

(** Between two checks a timer runs exactly when the device is in its state; the
    one for talking may also run on while a leg comes back from hold. *)
Definition runs (on : bool) (t : timer) : Prop := t.2 = 0 /\ (t.1 =? 0) = negb on.

Record timers_ok drec : Prop := {
  ring_timer : runs (is_ringing (last_state drec)) (ring_start drec, ring_stop drec);
  hold_timer : runs (is_held (last_state drec)) (hold_start drec, hold_stop drec);
  talk_timer : exists b, runs b (active_start drec, active_stop drec) /\ (is_active (last_state drec) = true -> b = true);
}.

Lemma timer_cycle was on now now' now'' always t :
  now <> 0 -> now' <> 0 -> runs was t -> runs on (reset_one on now'' (stop_one on always now' (start_one on now t))).
Proof.
  intros Hn Hn' [H2 H1]. destruct t as [a b]. cbn in *. subst b.
  assert (stop_one on always now' (start_one on now (a, 0)) =
          if on then (if a =? 0 then now else a, 0) else (a, if a =? 0 then 0 else now')) as ->.
  { unfold stop_one, start_one. cbn [fst snd]. destruct on, (a =? 0) eqn:E, always; cbn -[Z.eqb]; rewrite ?E, ?andb_false_r; done. }
  apply Z.eqb_neq in Hn, Hn'. unfold reset_one, runs.
  destruct on, (a =? 0) eqn:E; cbn [fst snd negb]; rewrite ?Hn, ?Hn'; cbn [Z.eqb fst snd]; rewrite ?Hn, ?E; done.
Qed.

Lemma timer_hold was on now now'' t :
  now <> 0 -> runs was t -> exists b, runs b (reset_one on now'' (start_one on now t)) /\ (on = true -> b = true).
Proof.
  intros Hn [H2 H1]. destruct t as [a b]. cbn in *. subst b. apply Z.eqb_neq in Hn. exists (on || was).
  split; [|by intros ->]. unfold reset_one, start_one, runs. cbn [fst snd].
  destruct on, (a =? 0) eqn:E, was; cbn [andb orb negb fst snd Z.eqb] in *; rewrite ?Hn, ?E; done.
Qed.

Lemma timers_of_eq drec st r h t : timers_of drec = (st, r, h, t) ->
  state drec = st /\ (ring_start drec, ring_stop drec) = r /\ (hold_start drec, hold_stop drec) = h /\ (active_start drec, active_stop drec) = t.
Proof. by intros [= <- <- <- <-]. Qed.

Lemma update_keeps_timers clock created cs0 fs drec drec' out :
  (forall i, clock i <> 0) -> timers_ok drec -> update_device clock created cs0 fs drec = (drec', out) ->
  timers_ok drec' /\ (cs0 <> CCS_UNHELD -> out <> [] -> runs (is_active (last_state drec')) (active_start drec', active_stop drec')).
Proof.
  intros Hc [Hr Hh (b & Ht & Hb)] Hu. pose proof (update_frame _ _ _ _ _ _ _ Hu) as (_ & Hl & _).
  unfold update_device in Hu. set (d0 := refresh_state (fetch_device_stats drec)) in *.
  change (runs (is_ringing (last_state d0)) (ring_start d0, ring_stop d0)) in Hr.
  change (runs (is_held (last_state d0)) (hold_start d0, hold_stop d0)) in Hh.
  change (runs b (active_start d0, active_stop d0)) in Ht. change (is_active (last_state d0) = true -> b = true) in Hb.
  clearbody d0. clear drec. destruct (unchanged d0) eqn:E; injection Hu as <- <-.
  { split; [|done]. constructor; eauto. }
  pose proof (settle_timers clock (stop_times clock cs0 (start_times clock d0))) as Hs. unfold stop_times in Hs at 2.
  rewrite stop_hold_timers, stop_ring_timers, stop_active_timers, start_timers in Hs.
  generalize dependent (settle clock (stop_times clock cs0 (start_times clock d0))). intros d1 Hl Hs.
  apply timers_of_eq in Hs as (Hs & Er & Eh & Et). rewrite Hs in Hl. clear Hs.
  split; [constructor; rewrite Hl|].
  - rewrite Er. by eapply timer_cycle.
  - rewrite Eh. by eapply timer_cycle.
  - rewrite Et. case_bool_decide; [by eapply timer_hold|]. exists (is_active (state d0)). split; [by eapply timer_cycle|done].
  - intros Hn _. rewrite Hl, Et, bool_decide_false by done. by eapply timer_cycle.
Qed.

(** ** All channels of a program *)

(** [hung] are the channels that switch_channel_process_device_hangup was called
    for; the session state machine does it once (StateMachine.v). *)
Record world := mk_world { chans : gmap Z switch_channel; hung : gset Z; glob : globals }.

Definition world_start : world := mk_world ∅ ∅ (mk_globals ∅ [] ∅ 0 []).

(** What a channel does at a time, between taking and releasing the mutex of the
    devices or, where the code takes none, in one statement. *)
Inductive op :=
  | New (k : Z) (uuid : string) (p : Caller.switch_caller_profile) (d : switch_call_direction_t)
  | Join (k : Z) (id : string)
  | CheckState (k : Z) (clock : nat -> Z) (created : bool) (cs0 : switch_channel_callstate_t)
  | Callstate (k : Z) (cs0 : switch_channel_callstate_t)
  | Dialplan (k : Z) (set : bool)
  | Profile (k : Z) (p : Caller.switch_caller_profile)
  | Holds (k : Z) (h : list Channel.switch_hold_record_t)
  | Hangup (k : Z) (e : hup_env)
  | Destroy (k : Z) (created : bool)
  | Bind (function : Z)
  | Unbind (function : Z).

Implicit Types (w : world) (k : Z) (o : op).

Definition on_channel k (f : switch_channel -> globals -> option (switch_channel * globals)) w : option world :=
  match chans w !! k with
  | None => Some w
  | Some c => '(c, g) ← f c (glob w); Some (mk_world (<[k := c]> (chans w)) (hung w) g)
  end.

(** A record has room for a leg as long as its number fits the counters. *)
Definition has_room (id : string) g : bool :=
  match a ← device_hash g !! id; records g !! a with
  | Some drec => Z.of_nat (length (uuid_list drec)) + 1 <? 2 ^ 32
  | None => true
  end.

Definition step o w : option world :=
  match o with
  | New k u p d =>
      match chans w !! k with
      | Some _ => Some w
      | None => Some (mk_world (<[k := mk_channel u p CCS_DOWN d d false false None [] None]> (chans w)) (hung w ∖ {[k]}) (glob w))
      end
  | Join k id =>
      on_channel k (fun c g => match device_node c with
                               | Some _ => Some (c, g)
                               | None => if has_room id g then join_device id c g else Some (c, g)
                               end) w
  | CheckState k clock created cs0 =>
      on_channel k (fun c g => g ← switch_channel_check_device_state clock created c cs0 g; Some (c, g)) w
  | Callstate k cs0 =>
      on_channel k (fun c g => if bool_decide (chan_callstate c = cs0) || bool_decide (chan_callstate c = CCS_HANGUP) then Some (c, g)
                               else write_callstate cs0 c g) w
  | Dialplan k set => on_channel k (if set then set_dialplan else clear_dialplan) w
  | Profile k p => on_channel k (fun c g => Some (c <| caller_profile := p |>, g)) w
  | Holds k h => on_channel k (fun c g => Some (c <| chan_hold_record := h |>, g)) w
  | Hangup k e =>
      if bool_decide (k ∈ hung w) then Some w
      else w ← on_channel k (process_device_hup e) w; Some (mk_world (chans w) ({[k]} ∪ hung w) (glob w))
  | Destroy k created =>
      match chans w !! k with
      | None => Some w
      | Some c => g ← switch_channel_clear_device_record created c (glob w); Some (mk_world (delete k (chans w)) (hung w) g)
      end
  | Bind f => Some (mk_world (chans w) (hung w) (switch_channel_bind_device_state_handler f (glob w)).2)
  | Unbind f => Some (mk_world (chans w) (hung w) (switch_channel_unbind_device_state_handler f (glob w)).2)
  end.

Fixpoint run (ops : list op) w : option world :=
  match ops with [] => Some w | o :: ops => w ← step o w; run ops w end.

(** ** Sharing *)

(** The pointers: of each channel to its leg, with the flag CF_FINAL_DEVICE_LEG,
    and of each record its id, its reference count and which legs are up. *)
Definition link_of c : option (Z * nat) * bool := (device_node c, cf_final_device_leg c).
Definition legs_of drec : string * Z * list bool := (device_id drec, refs drec, is_up <$> uuid_list drec).

Record view := mk_view {
  links : gmap Z (option (Z * nat) * bool);
  recs : gmap Z (string * Z * list bool);
  ids : gmap string Z;
  fresh : Z;
  over : gset Z;
}.

Definition view_of w : view :=
  mk_view (link_of <$> chans w) (legs_of <$> records (glob w)) (device_hash (glob w)) (next_addr (glob w)) (hung w).

Definition up_legs (bs : list bool) : Z := count (fun b => b) bs.

Record shared (V : view) : Prop := {
  (* a channel has a leg of a record that exists, which is up unless it is the last one *)
  shared_link k a i fin : links V !! k = Some (Some (a, i), fin) ->
    exists id r bs, recs V !! a = Some (id, r, bs) /\ bs !! i = Some (negb fin) /\ (fin = true -> up_legs bs = 0);
  shared_final k n : links V !! k = Some (n, true) -> k ∈ over V /\ is_Some n;
  (* channels do not share legs, and the last one has the record alone *)
  shared_apart k k' a i j fin fin' : k <> k' ->
    links V !! k = Some (Some (a, i), fin) -> links V !! k' = Some (Some (a, j), fin') -> i <> j /\ fin = false;
  (* the references are the legs that are up; the hash has the record as long as there are some, and then the last one has it *)
  shared_rec a id r bs : recs V !! a = Some (id, r, bs) ->
    r = up_legs bs /\ Z.of_nat (length bs) < 2 ^ 32 /\ a < fresh V /\
    if r =? 0 then exists k i, links V !! k = Some (Some (a, i), true) else ids V !! id = Some a;
  shared_id id a : ids V !! id = Some a -> exists r bs, recs V !! a = Some (id, r, bs) /\ 0 < r;
}.

Lemma up_legs_snoc bs b : up_legs (bs ++ [b]) = up_legs bs + Z.b2z b.
Proof. unfold up_legs. rewrite count_app, count_cons. change (count _ []) with 0. lia. Qed.

Lemma up_legs_hup bs i : bs !! i = Some true -> up_legs (<[i := false]> bs) = up_legs bs - 1.
Proof. intros H. unfold up_legs. rewrite (count_insert _ _ _ _ _ H). cbn. lia. Qed.

Lemma up_legs_at bs i : bs !! i = Some true -> 0 < up_legs bs.
Proof. intros H. by apply (count_lookup _ _ _ _ H). Qed.

(** Case analysis on the keys of updated maps. *)
Ltac keys :=
  repeat match goal with
  | H : <[?k := _]> _ !! ?k = Some _ |- _ => rewrite lookup_insert_eq in H; simplify_eq
  | H : <[?k := _]> _ !! ?j = Some _ |- _ => destruct (decide (k = j)) as [->|]; [try congruence|rewrite lookup_insert_ne in H by done]
  | H : delete ?k _ !! ?j = Some _ |- _ => apply lookup_delete_Some in H as [? H]
  end.

Lemma shared_new V k : shared V -> links V !! k = None ->
  shared (mk_view (<[k := (None, false)]> (links V)) (recs V) (ids V) (fresh V) (over V ∖ {[k]})).
Proof.
  intros [L F A R I] Hk. constructor; cbn.
  - intros ????. intros; keys. eauto.
  - intros ??. intros; keys. destruct (F _ _ H). split; [set_solver|done].
  - intros ???????. intros; keys. eauto.
  - intros a id r bs Ha. destruct (R a id r bs Ha) as (? & ? & ? & Hr). split_and!; try done. destruct (r =? 0); [|done].
    destruct Hr as (k' & i & Hk'). exists k', i. rewrite lookup_insert_ne; [done|]. intros ->. congruence.
  - eauto.
Qed.

Lemma shared_join V k id a r bs f :
  shared V -> links V !! k = Some (None, false) ->
  (ids V !! id = Some a /\ recs V !! a = Some (id, r, bs) \/ ids V !! id = None /\ a = fresh V /\ r = 0 /\ bs = []) ->
  Z.of_nat (length bs) + 1 < 2 ^ 32 -> fresh V <= f -> a < f ->
  shared (mk_view (<[k := (Some (a, length bs), false)]> (links V)) (<[a := (id, r + 1, bs ++ [true])]> (recs V)) (<[id := a]> (ids V)) f (over V)).
Proof.
  intros [L F A R I] Hk Hcase Hlen Hf Haf.
  assert (r = up_legs bs /\ 0 <= r) as [Hr Hr0].
  { destruct Hcase as [[_ H]|(_ & _ & -> & ->)]; [|done]. destruct (R _ _ _ _ H) as (-> & _). split; [done|apply count_nonneg]. }
  assert (forall k' i fin, links V !! k' = Some (Some (a, i), fin) -> (i < length bs)%nat /\ fin = false) as Hin.
  { intros k' i fin Hk'. destruct (L _ _ _ _ Hk') as (id' & r' & bs' & Ha & Hi & Hfin). destruct Hcase as [[Hid H]|(_ & -> & _)].
    - rewrite H in Ha. injection Ha as <- <- <-. split; [by eapply lookup_lt_Some|]. destruct fin; [|done].
      destruct (I _ _ Hid) as (r' & bs' & H' & ?). rewrite H in H'. injection H' as <- <-. specialize (Hfin eq_refl). lia.
    - destruct (R _ _ _ _ Ha) as (_ & _ & ? & _). lia. }
  constructor; cbn.
  - intros k' a' i fin H. keys.
    + eexists _, _, _. rewrite lookup_insert_eq. split_and!; [done| |done]. by rewrite lookup_app_r, Nat.sub_diag by lia.
    + destruct (decide (a = a')) as [<-|Ha'].
      * destruct (Hin _ _ _ H) as [Hi ->]. eexists _, _, _. rewrite lookup_insert_eq. split_and!; [done| |done].
        destruct (L _ _ _ _ H) as (? & ? & bs' & Ha & Hi' & _). destruct Hcase as [[_ H']|(_ & _ & _ & ->)]; [|cbn in Hi; lia].
        rewrite H' in Ha. injection Ha as <- <- <-. by apply lookup_app_l_Some.
      * rewrite lookup_insert_ne by done. eauto.
  - intros k' n H. keys. eauto.
  - intros k1 k2 a' i j f1 f2 Hne H1 H2. keys.
    + destruct (Hin _ _ _ H1) as [? ->]. split; [lia|done].
    + destruct (Hin _ _ _ H2). split; [lia|done].
    + eauto.
  - intros a' id' r' bs' H. keys.
    + rewrite up_legs_snoc, length_app. cbn. split_and!; [lia..|]. rewrite (proj2 (Z.eqb_neq _ _)) by lia. by rewrite lookup_insert_eq.
    + destruct (R _ _ _ _ H) as (? & ? & ? & Hr'). split_and!; [done..|lia|]. destruct (Z.eqb_spec r' 0).
      * destruct Hr' as (k' & i & Hk'). exists k', i. rewrite lookup_insert_ne; [done|]. intros ->. congruence.
      * rewrite lookup_insert_ne; [done|]. intros ->. destruct Hcase as [[? _]|[? _]]; congruence.
  - intros id' a' H. keys.
    + rewrite lookup_insert_eq. eexists _, _. split; [done|]. lia.
    + destruct (decide (a = a')) as [<-|Ha']; [|rewrite lookup_insert_ne by done; eauto].
      destruct (I _ _ H) as (r' & bs' & Ha & _). destruct Hcase as [[_ H']|(_ & -> & _)]; [congruence|].
      destruct (R _ _ _ _ Ha) as (_ & _ & ? & _). lia.
Qed.

Lemma shared_hup_last V k a i id r bs :
  shared V -> links V !! k = Some (Some (a, i), false) -> recs V !! a = Some (id, r, bs) -> up_legs (<[i := false]> bs) = 0 ->
  shared (mk_view (<[k := (Some (a, i), true)]> (links V)) (<[a := (id, r - 1, <[i := false]> bs)]> (recs V)) (delete id (ids V)) (fresh V)
            ({[k]} ∪ over V)).
Proof.
  intros [L F A R I] Hk Ha Hup.
  destruct (L _ _ _ _ Hk) as (? & ? & ? & Ha' & Hi & _). rewrite Ha in Ha'. injection Ha' as <- <- <-. cbn in Hi.
  destruct (R _ _ _ _ Ha) as (-> & Hlen & Hfr & Hid). pose proof (up_legs_at _ _ Hi) as Hpos.
  rewrite (proj2 (Z.eqb_neq _ _)) in Hid by lia. rewrite up_legs_hup in Hup by done.
  assert (forall k' j fin, k' <> k -> links V !! k' <> Some (Some (a, j), fin)) as Halone.
  { intros k' j fin Hne Hk'. destruct (A _ _ _ _ _ _ _ Hne Hk' Hk) as [Hij ->].
    destruct (L _ _ _ _ Hk') as (? & ? & ? & Ha' & Hj & _). rewrite Ha in Ha'. injection Ha' as <- <- <-. cbn in Hj.
    pose proof (up_legs_at (<[i := false]> bs) j) as Hj'. rewrite list_lookup_insert_ne, up_legs_hup in Hj' by done. specialize (Hj' Hj). lia. }
  constructor; cbn.
  - intros k' a' j fin H. keys.
    + eexists _, _, _. rewrite lookup_insert_eq. split_and!; [done| |intros _; rewrite up_legs_hup by done; lia].
      apply list_lookup_insert_eq. by eapply lookup_lt_Some.
    + rewrite lookup_insert_ne; [eauto|]. intros ->. by eapply Halone.
  - intros k' n H. keys; [split; [set_solver|done]|]. destruct (F _ _ H). split; [set_solver|done].
  - intros k1 k2 a' i1 i2 f1 f2 Hne H1 H2. keys.
    + by apply Halone in H1.
    + by apply Halone in H2.
    + eauto.
  - intros a' id' r' bs' H. keys.
    + rewrite up_legs_hup, length_insert by done. split_and!; [lia..|]. rewrite Hup. cbn. exists k, i. by rewrite lookup_insert_eq.
    + destruct (R _ _ _ _ H) as (? & ? & ? & Hr'). split_and!; [done..|]. destruct (Z.eqb_spec r' 0).
      * destruct Hr' as (k' & j & Hk'). exists k', j. rewrite lookup_insert_ne; [done|]. intros ->. congruence.
      * rewrite lookup_delete_ne; [done|]. intros ->. congruence.
  - intros id' a' H. keys. rewrite lookup_insert_ne; [eauto|]. intros ->.
    destruct (I _ _ H) as (? & ? & Ha' & _). congruence.
Qed.

Lemma shared_hup_other V k a i id r bs :
  shared V -> links V !! k = Some (Some (a, i), false) -> recs V !! a = Some (id, r, bs) -> up_legs (<[i := false]> bs) <> 0 ->
  shared (mk_view (<[k := (None, false)]> (links V)) (<[a := (id, r - 1, <[i := false]> bs)]> (recs V)) (ids V) (fresh V) ({[k]} ∪ over V)).
Proof.
  intros [L F A R I] Hk Ha Hup.
  destruct (L _ _ _ _ Hk) as (? & ? & ? & Ha' & Hi & _). rewrite Ha in Ha'. injection Ha' as <- <- <-. cbn in Hi.
  destruct (R _ _ _ _ Ha) as (-> & Hlen & Hfr & Hid). pose proof (up_legs_at _ _ Hi) as Hpos.
  rewrite (proj2 (Z.eqb_neq _ _)) in Hid by lia. rewrite up_legs_hup in Hup by done.
  constructor; cbn.
  - intros k' a' j fin H. keys. destruct (decide (a = a')) as [<-|]; [|rewrite lookup_insert_ne by done; eauto].
    destruct (A k k' _ _ _ _ _ ltac:(done) Hk H) as [Hij _].
    destruct (L _ _ _ _ H) as (? & ? & ? & Ha' & Hj & Hfin). rewrite Ha in Ha'. injection Ha' as <- <- <-.
    eexists _, _, _. rewrite lookup_insert_eq. split_and!; [done|by rewrite list_lookup_insert_ne|]. intros E. specialize (Hfin E). lia.
  - intros k' n H. keys. destruct (F _ _ H). split; [set_solver|done].
  - intros k1 k2 a' i1 i2 f1 f2 Hne H1 H2. keys. eauto.
  - intros a' id' r' bs' H. keys.
    + rewrite up_legs_hup, length_insert by done. split_and!; [lia..|]. by rewrite (proj2 (Z.eqb_neq _ _)) by lia.
    + destruct (R _ _ _ _ H) as (? & ? & ? & Hr'). split_and!; [done..|]. destruct (Z.eqb_spec r' 0); [|done].
      destruct Hr' as (k' & j & Hk'). exists k', j. rewrite lookup_insert_ne; [done|]. intros ->. congruence.
  - intros id' a' H. destruct (I _ _ H) as (r' & bs' & Ha' & Hr'). destruct (decide (a = a')) as [<-|].
    + rewrite Ha in Ha'. injection Ha' as <- <- <-. rewrite lookup_insert_eq. eexists _, _. split; [done|lia].
    + rewrite lookup_insert_ne by done. eauto.
Qed.

Lemma shared_destroy_last V k a i :
  shared V -> links V !! k = Some (Some (a, i), true) ->
  shared (mk_view (delete k (links V)) (delete a (recs V)) (ids V) (fresh V) (over V)).
Proof.
  intros [L F A R I] Hk. constructor; cbn.
  - intros k' a' j fin H. keys. rewrite lookup_delete_ne; [eauto|]. intros ->. destruct (A _ _ _ _ _ _ _ ltac:(done) Hk H); done.
  - intros k' n H. keys. eauto.
  - intros. keys. eauto.
  - intros a' id' r' bs' H. keys. destruct (R _ _ _ _ H) as (? & ? & ? & Hr'). split_and!; [done..|]. destruct (Z.eqb_spec r' 0); [|done].
    destruct Hr' as (k' & j & Hk'). exists k', j. rewrite lookup_delete_ne; [done|]. intros ->. congruence.
  - intros id' a' H. destruct (I _ _ H) as (r' & bs' & Ha' & Hr'). rewrite lookup_delete_ne; [eauto|]. intros ->.
    destruct (L _ _ _ _ Hk) as (? & ? & ? & Ha & _ & Hfin). rewrite Ha' in Ha. injection Ha as <- <- <-.
    destruct (R _ _ _ _ Ha') as (-> & _). specialize (Hfin eq_refl). lia.
Qed.

Lemma shared_destroy_other V k n :
  shared V -> links V !! k = Some (n, false) -> shared (mk_view (delete k (links V)) (recs V) (ids V) (fresh V) (over V)).
Proof.
  intros [L F A R I] Hk. constructor; cbn; [..|done].
  - intros k' a' j fin H. keys. eauto.
  - intros k' m H. keys. eauto.
  - intros. keys. eauto.
  - intros a' id' r' bs' H. destruct (R _ _ _ _ H) as (? & ? & ? & Hr'). split_and!; [done..|]. destruct (Z.eqb_spec r' 0); [|done].
    destruct Hr' as (k' & j & Hk'). exists k', j. rewrite lookup_delete_ne; [done|]. intros ->. congruence.
Qed.

(** ** Every operation keeps it *)

Definition same_records g g' : Prop :=
  legs_of <$> records g' = legs_of <$> records g /\ device_hash g' = device_hash g /\ next_addr g' = next_addr g.

Lemma store_same a drec drec' g : records g !! a = Some drec -> legs_of drec' = legs_of drec -> same_records g (store a drec' g).
Proof.
  intros Ha E. split; [|done]. cbn. rewrite fmap_insert. apply insert_id. by rewrite lookup_fmap, Ha, E.
Qed.

Lemma quiet_step k f w :
  (forall c, chans w !! k = Some c -> exists c' g', f c (glob w) = Some (c', g') /\ link_of c' = link_of c /\ same_records (glob w) g') ->
  exists w', on_channel k f w = Some w' /\ view_of w' = view_of w.
Proof.
  intros H. unfold on_channel. destruct (chans w !! k) as [c|] eqn:Hc; [|by eauto].
  destruct (H c eq_refl) as (c' & g' & -> & Hl & Hr & Hh & Hn). eexists. split; [done|]. unfold view_of. cbn. rewrite Hr, Hh, Hn. f_equal.
  rewrite fmap_insert. apply insert_id. by rewrite lookup_fmap, Hc, Hl.
Qed.

Lemma link_record w k c a i : shared (view_of w) -> chans w !! k = Some c -> device_node c = Some (a, i) ->
  exists drec np, records (glob w) !! a = Some drec /\ uuid_list drec !! i = Some np /\ is_up np = negb (cf_final_device_leg c) /\
    (cf_final_device_leg c = true -> up_legs (is_up <$> uuid_list drec) = 0).
Proof.
  intros [L _ _ _ _] Hc Hn. destruct (L k a i (cf_final_device_leg c)) as (id & r & bs & Ha & Hi & Hf).
  { cbn. by rewrite lookup_fmap, Hc, <- Hn. }
  cbn in Ha. apply lookup_fmap_Some in Ha as (drec & [= <- <- <-] & Ha). apply list_lookup_fmap_Some in Hi as (np & Hy & Hi).
  by exists drec, np.
Qed.

Lemma check_quiet w k c clock created cs0 : shared (view_of w) -> chans w !! k = Some c ->
  exists g', switch_channel_check_device_state clock created c cs0 (glob w) = Some g' /\ same_records (glob w) g'.
Proof.
  intros HS Hc. unfold switch_channel_check_device_state. destruct (device_node c) as [[a i]|] eqn:Hn; [|by eexists]. cbn [device_parent mbind option_bind]. unfold check_device_record.
  destruct (link_record w k c a i HS Hc Hn) as (drec & np & Ha & _). rewrite Ha. cbn.
  destruct (update_device _ _ _ _ _) as [drec' out] eqn:Hu. apply update_frame in Hu as (_ & _ & Hl & Hr & Hi).
  eexists. split; [done|]. apply (store_same a drec); [done|]. unfold legs_of. by rewrite Hl, Hr, Hi.
Qed.

Lemma node_quiet w k c f : shared (view_of w) -> chans w !! k = Some c -> (forall np, is_up (f np) = is_up np) ->
  exists g', on_node f c (glob w) = Some g' /\ same_records (glob w) g'.
Proof.
  intros HS Hc Hf. unfold on_node. destruct (device_node c) as [[a i]|] eqn:Hn; [|by eexists].
  destruct (link_record w k c a i HS Hc Hn) as (drec & np & Ha & Hi & _). unfold alter_node. rewrite Ha. cbn. rewrite Hi. cbn.
  eexists. split; [done|]. apply (store_same a drec); [done|]. unfold legs_of. f_equal.
  change (is_up <$> <[i := f np]> (uuid_list drec) = is_up <$> uuid_list drec). rewrite list_fmap_insert, Hf. apply list_insert_id.
  by rewrite list_lookup_fmap, Hi.
Qed.

Lemma add_uuid_view a drec c drec' c' : add_uuid a drec c = (drec', c') ->
  link_of c' = (Some (a, length (is_up <$> uuid_list drec)), cf_final_device_leg c) /\
  legs_of drec' = (device_id drec, refs drec + 1, (is_up <$> uuid_list drec) ++ [true]).
Proof.
  rewrite length_fmap. unfold add_uuid. intros [= <- <-]. split; [done|]. unfold legs_of.
  destruct (uuid_list drec) as [|np l] eqn:E; cbn; [by rewrite E|]. rewrite E. cbn. do 2 f_equal. by rewrite fmap_app.
Qed.

Lemma store_legs a drec g : legs_of <$> records (store a drec g) = <[a := legs_of drec]> (legs_of <$> records g).
Proof. apply fmap_insert. Qed.

Lemma store_records a drec g : records (store a drec g) = <[a := drec]> (records g).
Proof. done. Qed.

Lemma link_at w k c : chans w !! k = Some c -> links (view_of w) !! k = Some (link_of c).
Proof. intros H. cbn. by rewrite lookup_fmap, H. Qed.

Lemma join_view w k c id : shared (view_of w) -> chans w !! k = Some c -> device_node c = None -> has_room id (glob w) = true ->
  exists c' g', join_device id c (glob w) = Some (c', g') /\ shared (view_of (mk_world (<[k := c']> (chans w)) (hung w) g')).
Proof.
  intros HS Hc Hn Hroom. pose proof (link_at _ _ _ Hc) as Hk. unfold link_of in Hk. rewrite Hn in Hk.
  destruct (cf_final_device_leg c) eqn:Hfin; [by destruct (shared_final _ HS k None Hk) as [_ []]|].
  unfold join_device, has_room in *. set (c1 := c <| chan_device_id := Some id |>).
  change (cf_final_device_leg c) with (cf_final_device_leg c1) in Hfin.
  destruct (device_hash (glob w) !! id) as [a|] eqn:Hid; cbn [mbind option_bind] in Hroom.
  - destruct (shared_id _ HS id a Hid) as (r & bs & Ha & _). pose proof Ha as Ha'. cbn in Ha'.
    apply lookup_fmap_Some in Ha' as (drec & Hd & Hrec). rewrite Hrec in *. cbn [mbind option_bind]. apply Z.ltb_lt in Hroom.
    destruct (add_uuid a drec c1) as [drec' c'] eqn:Hadd. apply add_uuid_view in Hadd as [El Er]. eexists _, _. split; [done|].
    injection Hd as <- <- <-. destruct (shared_rec _ HS _ _ _ _ Ha) as (_ & _ & Hfr & _).
    rewrite <- (length_fmap is_up) in Hroom.
    pose proof (shared_join _ k _ a _ _ (next_addr (glob w)) HS Hk (or_introl (conj Hid Ha)) Hroom ltac:(done) Hfr) as HJ.
    unfold view_of in *. cbn [chans hung glob links recs ids fresh over] in *.
    rewrite store_legs, fmap_insert, El, Er, Hfin. by rewrite (insert_id (device_hash (glob w)) _ _ Hid) in HJ.
  - set (g1 := store _ _ _ <| next_addr := _ |> <| device_hash := _ |>).
    assert (records g1 = <[next_addr (glob w) := create_device_record id]> (records (glob w))) as Hg1 by done.
    rewrite Hg1, lookup_insert_eq. cbn [mbind option_bind].
    destruct (add_uuid _ _ c1) as [drec' c'] eqn:Hadd. apply add_uuid_view in Hadd as [El Er]. eexists _, _. split; [done|].
    pose proof (shared_join _ k id (next_addr (glob w)) 0 [] (next_addr (glob w) + 1) HS Hk ltac:(by right) ltac:(done) ltac:(cbn; lia) ltac:(lia)) as HJ.
    unfold view_of in *. cbn [chans hung glob links recs ids fresh over] in *.
    rewrite store_legs, fmap_insert, El, Er, Hfin, Hg1. by rewrite fmap_insert, insert_insert_eq.
Qed.

Lemma up_number l : fits l -> offhook (counted l) = up_legs (is_up <$> l).
Proof.
  intros H. change (offhook (counted l)) with (number is_up l). rewrite number_fits by done. unfold up_legs.
  induction l as [|np l IH]; [done|]. cbn [fmap list_fmap]. rewrite !count_cons. f_equal. apply IH. unfold fits in *. cbn in H. lia.
Qed.

Lemma hup_node_up e p h np : is_up (hup_node e p h np) = false.
Proof. unfold hup_node. by repeat case_match. Qed.

Lemma hup_view w k c e : shared (view_of w) -> chans w !! k = Some c -> k ∉ hung w ->
  exists c' g', process_device_hup e c (glob w) = Some (c', g') /\ shared (view_of (mk_world (<[k := c']> (chans w)) ({[k]} ∪ hung w) g')).
Proof.
  intros HS Hc Hk. pose proof (link_at _ _ _ Hc) as Hl.
  destruct (cf_final_device_leg c) eqn:Hfin; [destruct (shared_final _ HS k (device_node c)); [by rewrite Hl; unfold link_of; rewrite Hfin|done]|].
  unfold process_device_hup. destruct (device_node c) as [[a i]|] eqn:Hn.
  2: { eexists _, _. split; [done|]. destruct HS as [L F A R I]. constructor; cbn; rewrite ?fmap_insert, ?insert_id by by rewrite lookup_fmap, Hc.
       1,3-5: done. intros k' n H. destruct (F _ _ H). split; [set_solver|done]. }
  destruct (Caller.switch_caller_profile_dup (new_uuid e) (caller_profile c)) as [p p'].
  destruct (link_record _ _ _ _ _ HS Hc Hn) as (drec & np & Ha & Hi & Hup & _). rewrite Hfin in Hup. unfold alter_node.
  rewrite Ha. cbn [mbind option_bind]. rewrite Hi. cbn [mbind option_bind].
  set (np' := hup_node e p _ np). set (drec1 := drec <| uuid_list := <[i := np']> (uuid_list drec) |>).
  rewrite store_records, lookup_insert_eq. cbn [mbind option_bind].
  change (offhook (stats (fetch_device_stats drec1))) with (offhook (foldl count_leg no_stats (uuid_list drec1))).
  assert (recs (view_of w) !! a = Some (legs_of drec)) as Hr by (cbn; by rewrite lookup_fmap, Ha).
  assert (is_up <$> uuid_list drec1 = <[i := false]> (is_up <$> uuid_list drec)) as Hlegs.
  { change (is_up <$> <[i := np']> (uuid_list drec) = <[i := false]> (is_up <$> uuid_list drec)). rewrite list_fmap_insert. subst np'. by rewrite hup_node_up. }
  assert (fits (uuid_list drec1)) as Hf.
  { unfold fits. rewrite <- (length_fmap is_up), Hlegs, length_insert. by destruct (shared_rec _ HS _ _ _ _ Hr) as (_ & ? & _). }
  rewrite fetch_counted, up_number, Hlegs by done. unfold link_of in Hl. rewrite Hn, Hfin in Hl.
  assert (forall d, legs_of (d <| refs := refs d - 1 |>) = (device_id d, refs d - 1, is_up <$> uuid_list d)) as Hlo by done.
  destruct (Z.eqb_spec (up_legs (<[i := false]> (is_up <$> uuid_list drec))) 0) as [E|E]; eexists _, _; (split; [done|]).
  - pose proof (shared_hup_last _ _ _ _ _ _ _ HS Hl Hr E) as HJ. unfold view_of. cbn [chans hung glob].
    rewrite store_legs, fmap_insert, Hlo. change (uuid_list (fetch_device_stats drec1)) with (uuid_list drec1). rewrite Hlegs.
    match goal with |- context [legs_of <$> records ?g] => change (records g) with (records (store a drec1 (glob w))) end. rewrite store_legs, insert_insert_eq.
    match goal with |- context [<[k := link_of ?c1]> _] => change (link_of c1) with (device_node c, true) end. rewrite Hn. exact HJ.
  - pose proof (shared_hup_other _ _ _ _ _ _ _ HS Hl Hr E) as HJ. unfold view_of. cbn [chans hung glob].
    rewrite store_legs, fmap_insert, Hlo. change (uuid_list (fetch_device_stats drec1)) with (uuid_list drec1). rewrite Hlegs.
    match goal with |- context [legs_of <$> records ?g] => change (records g) with (records (store a drec1 (glob w))) end. rewrite store_legs, insert_insert_eq.
    match goal with |- context [<[k := link_of ?c1]> _] => change (link_of c1) with (@None (Z * nat), cf_final_device_leg c) end.
    rewrite Hfin. exact HJ.
Qed.

Lemma no_legs_up l : up_legs (is_up <$> l) = 0 -> exists ps, mapM hup_profile l = Some ps.
Proof.
  intros H. apply mapM_is_Some. apply Forall_forall. intros np [i Hi]%list_elem_of_lookup.
  destruct (hup_profile np) as [p|] eqn:E; [by eexists|]. pose proof (up_legs_at (is_up <$> l) i) as Hup.
  rewrite list_lookup_fmap, Hi in Hup. cbn in Hup. unfold is_up at 1 in Hup. rewrite E in Hup. specialize (Hup eq_refl). lia.
Qed.

Lemma destroy_view w k c created : shared (view_of w) -> chans w !! k = Some c ->
  exists g', switch_channel_clear_device_record created c (glob w) = Some g' /\ shared (view_of (mk_world (delete k (chans w)) (hung w) g')).
Proof.
  intros HS Hc. pose proof (link_at _ _ _ Hc) as Hl. unfold link_of in Hl. unfold switch_channel_clear_device_record.
  assert (cf_final_device_leg c = false -> shared (view_of (mk_world (delete k (chans w)) (hung w) (glob w)))) as Hother.
  { intros Hfin. rewrite Hfin in Hl. pose proof (shared_destroy_other _ _ _ HS Hl) as HJ. unfold view_of in *. cbn in *. by rewrite fmap_delete. }
  destruct (device_node c) as [[a i]|] eqn:Hn; [|].
  - destruct (cf_final_device_leg c) eqn:Hfin; [|by eauto].
    destruct (link_record _ _ _ _ _ HS Hc Hn) as (drec & np & Ha & _ & _ & Hup). rewrite Ha. cbn [mbind option_bind].
    destruct (no_legs_up _ (Hup Hfin)) as [ps Hps]. rewrite Hps.
    pose proof (shared_destroy_last _ _ _ _ HS Hl) as HJ. unfold view_of in *. cbn [chans hung glob links recs ids fresh over] in *.
    destruct created; eexists; (split; [done|]); cbn in HJ |- *; by rewrite !fmap_delete.
  - eexists. split; [done|]. apply Hother. destruct (cf_final_device_leg c) eqn:Hfin; [|done].
    by destruct (shared_final _ HS k None Hl) as [_ []].
Qed.

Lemma quiet_shared w w' : view_of w' = view_of w -> shared (view_of w) -> shared (view_of w').
Proof. by intros ->. Qed.

Lemma step_shared o w : shared (view_of w) -> exists w', step o w = Some w' /\ shared (view_of w').
Proof.
  intros HS.
  assert (forall k f, (forall c, chans w !! k = Some c -> exists c' g', f c (glob w) = Some (c', g') /\ link_of c' = link_of c /\
    same_records (glob w) g') -> exists w', on_channel k f w = Some w' /\ shared (view_of w')) as Hquiet.
  { intros k f H. destruct (quiet_step k f w H) as (w' & ? & Hv). exists w'. split; [done|]. by rewrite Hv. }
  destruct o as [k u p d|k id|k clock created cs0|k cs0|k set|k p|k h|k e|k created|f|f]; cbn [step].
  - destruct (chans w !! k) as [c|] eqn:Hc; [by eauto|]. eexists. split; [done|].
    unfold view_of. cbn [chans hung glob]. rewrite fmap_insert. apply (shared_new _ k HS). cbn. by rewrite lookup_fmap, Hc.
  - unfold on_channel. destruct (chans w !! k) as [c|] eqn:Hc; [|by eauto]. destruct (device_node c) as [n|] eqn:Hn.
    { eexists. split; [done|]. destruct w. cbn in *. by rewrite insert_id. }
    destruct (has_room id (glob w)) eqn:Hr.
    + destruct (join_view _ _ _ _ HS Hc Hn Hr) as (c' & g' & -> & ?). by eexists.
    + eexists. split; [done|]. destruct w. cbn in *. by rewrite insert_id.
  - apply Hquiet. intros c Hc. destruct (check_quiet w k c clock created cs0 HS Hc) as (g' & -> & ?). by eexists _, _.
  - apply Hquiet. intros c Hc. destruct (_ || _); [by eexists _, _|]. unfold write_callstate.
    destruct (node_quiet w k c (fun np => np <| callstate := cs0 |>) HS Hc) as (g' & -> & ?); [done|]. by eexists _, _.
  - apply Hquiet. intros c Hc.
    destruct (node_quiet w k c (fun np => np <| direction := SWITCH_CALL_DIRECTION_INBOUND |>) HS Hc) as (g1 & H1 & ?); [done|].
    destruct (node_quiet w k c (fun np => np <| direction := SWITCH_CALL_DIRECTION_OUTBOUND |>) HS Hc) as (g2 & H2 & ?); [done|].
    destruct set; unfold set_dialplan, clear_dialplan; case_bool_decide; rewrite ?H1, ?H2; by eexists _, _.
  - apply Hquiet. intros c Hc. by eexists _, _.
  - apply Hquiet. intros c Hc. by eexists _, _.
  - case_bool_decide as Hk; [by eauto|]. unfold on_channel. destruct (chans w !! k) as [c|] eqn:Hc.
    + destruct (hup_view _ _ _ e HS Hc Hk) as (c' & g' & -> & ?). by eexists.
    + eexists. split; [done|]. destruct HS as [L F A R I]. constructor; cbn; [done| |done..].
      intros k' n H. destruct (F _ _ H). split; [set_solver|done].
  - destruct (chans w !! k) as [c|] eqn:Hc; [|by eauto]. destruct (destroy_view _ _ _ created HS Hc) as (g' & -> & ?). by eexists.
  - by eexists.
  - unfold switch_channel_unbind_device_state_handler. destruct (unbind_loop _ _ _ _ _). by eexists.
Qed.

Lemma run_shared ops w : shared (view_of w) -> exists w', run ops w = Some w' /\ shared (view_of w').
Proof.
  revert w. induction ops as [|o ops IH]; intros w HS; [by eauto|]. cbn [run].
  destruct (step_shared o w HS) as (w1 & -> & HS1). by apply IH.
Qed.

Lemma start_shared : shared (view_of world_start).
Proof. by constructor. Qed.

(** ** What holds in every program *)


(** The channel that destroys a device record does not wait for it: in every
    reachable state a channel with CF_FINAL_DEVICE_LEG sees a reference count of 0, so
    the loop of switch_channel_clear_device_record does not sleep; the record is in
    no entry of the hash and no other channel has a leg of it, and destroying it
    leaves every other record as it is. *)
Theorem last_leg_never_waits ops w k c a i :
  run ops world_start = Some w -> chans w !! k = Some c -> device_node c = Some (a, i) -> cf_final_device_leg c = true ->
  exists drec, records (glob w) !! a = Some drec /\ refs drec = 0 /\ naps 100 (fun _ => refs drec) = O /\
    (forall id, device_hash (glob w) !! id <> Some a) /\
    (forall k' c' j, k' <> k -> chans w !! k' = Some c' -> device_node c' <> Some (a, j)) /\
    (forall created, exists g', switch_channel_clear_device_record created c (glob w) = Some g' /\ records g' = delete a (records (glob w))).
Proof.
  intros Hrun Hc Hn Hf. destruct (run_shared ops world_start start_shared) as (w' & Hrun' & HS). rewrite Hrun in Hrun'. injection Hrun' as <-.
  destruct (link_record _ _ _ _ _ HS Hc Hn) as (drec & np & Ha & _ & _ & Hup). specialize (Hup Hf).
  assert (recs (view_of w) !! a = Some (legs_of drec)) as Hr by (cbn; by rewrite lookup_fmap, Ha).
  destruct (shared_rec _ HS _ _ _ _ Hr) as (Hrefs & _). rewrite Hup in Hrefs.
  pose proof (link_at _ _ _ Hc) as Hl. unfold link_of in Hl. rewrite Hn, Hf in Hl.
  exists drec. split_and!; [done|done|by rewrite Hrefs|..].
  - intros id Hid. destruct (shared_id _ HS id a Hid) as (r & bs & Hr' & ?). rewrite Hr in Hr'. injection Hr' as _ Hr' _. lia.
  - intros k' c' j Hne Hc' Hn'. pose proof (link_at _ _ _ Hc') as Hl'. unfold link_of in Hl'. rewrite Hn' in Hl'.
    by destruct (shared_apart _ HS _ _ _ _ _ _ _ (not_eq_sym Hne) Hl Hl') as [_ [=]].
  - intros created. unfold switch_channel_clear_device_record. rewrite Hn, Hf, Ha. cbn [mbind option_bind].
    destruct (no_legs_up _ Hup) as [ps ->]. destruct created; by eexists.
Qed.

(** C25. A check of a device that has not hung up computes its numbers and its state
    from the legs as they are: it has hung up when every leg has, otherwise it is
    active with one or several legs that talk, ringing, held, or taken from hold by
    the first kind of leg there is, in this order.  (A leg that rings counts as
    ringing towards the device only when it is outbound.) *)
Theorem device_state_of_legs clock created cs0 fs drec drec' out :
  fits (uuid_list drec) -> state drec <> SDS_HANGUP -> update_device clock created cs0 fs drec = (drec', out) ->
  state drec' = state_of_legs (uuid_list drec) /\ last_state drec' = state drec' /\ uuid_list drec' = uuid_list drec.
Proof.
  intros Hf Hs Hu. destruct (update_frame _ _ _ _ _ _ _ Hu) as (Hst & Hl & Hlegs & _). by rewrite next_state_spec in Hst.
Qed.

(** A check keeps the timers of a device in step with its state: afterwards the
    timer for ringing runs exactly when the device rings, the one for holding exactly
    when it is held and the one for talking whenever it is active; if the check was
    not for a leg that comes back from hold and something was announced, exactly then. *)
Theorem device_timers clock created cs0 fs drec drec' out :
  (forall i, clock i <> 0) -> timers_ok drec -> update_device clock created cs0 fs drec = (drec', out) ->
  timers_ok drec' /\ (cs0 <> CCS_UNHELD -> out <> [] -> runs (is_active (last_state drec')) (active_start drec', active_stop drec')).
Proof. apply update_keeps_timers. Qed.

(** ** Findings *)

Lemma hangup_sticks clock created cs0 fs drec :
  state drec = SDS_HANGUP -> last_state drec = SDS_HANGUP ->
  exists drec', update_device clock created cs0 fs drec = (drec', []) /\ state drec' = SDS_HANGUP /\ uuid_list drec' = uuid_list drec.
Proof.
  intros Hs Hl. unfold update_device.
  assert (state (refresh_state (fetch_device_stats drec)) = SDS_HANGUP) as E by (rewrite refreshed_state, Hs; done).
  assert (unchanged (refresh_state (fetch_device_stats drec)) = true) as ->.
  { unfold unchanged. rewrite E. change (last_state (refresh_state (fetch_device_stats drec))) with (last_state drec). by rewrite Hl. }
  by eexists.
Qed.

(** A run in which a second channel joins the device of a first one that has hung
    up but is not yet taken out. *)
#[local] Notation late_run :=
  [New 1 "a" Caller.profile_1 SWITCH_CALL_DIRECTION_INBOUND; Join 1 "phone"; Callstate 1 CCS_ACTIVE;
   CheckState 1 (fun _ => 5) true CCS_ACTIVE; Callstate 1 CCS_HANGUP; CheckState 1 (fun _ => 6) true CCS_HANGUP;
   New 2 "b" Caller.profile_1 SWITCH_CALL_DIRECTION_INBOUND; Join 2 "phone"; CheckState 2 (fun _ => 7) true CCS_DOWN;
   Hangup 1 (mk_hup_env "x" None None); Callstate 2 CCS_ACTIVE; CheckState 2 (fun _ => 8) true CCS_ACTIVE].

(** A device that has hung up stays so: a channel that joins it after its last leg
    has reached CCS_HANGUP and before that leg is processed keeps the record, talks, and
    the device is reported as hung up, and no change is reported any more. *)
Theorem late_leg_is_hidden :
  exists w drec, run late_run world_start = Some w /\ records (glob w) !! 0 = Some drec /\
    state_of_legs (uuid_list drec) = SDS_ACTIVE /\ state drec = SDS_HANGUP /\
    forall clock created cs0 fs, (update_device clock created cs0 fs drec).2 = [].
Proof.
  eexists _, _. split; [vm_compute; reflexivity|]. split; [vm_compute; reflexivity|]. split; [vm_compute; reflexivity|].
  split; [reflexivity|]. intros clock created cs0 fs.
  match goal with |- (update_device _ _ _ _ ?d).2 = _ => destruct (hangup_sticks clock created cs0 fs d) as (d' & -> & _) end; reflexivity.
Qed.

#[local] Notation hup_run :=
  [New 1 "a" Caller.profile_1 SWITCH_CALL_DIRECTION_INBOUND; Join 1 "phone"; New 2 "b" Caller.profile_1 SWITCH_CALL_DIRECTION_INBOUND; Join 2 "phone";
   Callstate 1 CCS_ACTIVE; Callstate 2 CCS_ACTIVE; Callstate 1 CCS_HANGUP].

(** The check of the state of a device tests and follows device_node before it takes the locks.  If the hangup of the
    leg is processed by another thread between the two, the pointer that is followed is NULL; if the channel is destroyed after them,
    the record that is then locked does not exist any more. *)
Theorem check_reads_unlocked :
  (exists w w' c c', run hup_run world_start = Some w /\ chans w !! 1 = Some c /\ step (Hangup 1 (mk_hup_env "x" None None)) w = Some w' /\ chans w' !! 1 = Some c' /\
     device_parent (device_node c) (device_node c') = None) /\
  (exists w w' c a, run (hup_run ++ [Hangup 1 (mk_hup_env "x" None None); Callstate 2 CCS_HANGUP]) world_start = Some w /\ chans w !! 2 = Some c /\
     device_parent (device_node c) (device_node c) = Some (Some a) /\ run [Hangup 2 (mk_hup_env "y" None None); Destroy 2 true] w = Some w' /\
     check_device_record (fun _ => 9) true a CCS_HANGUP (glob w') = None).
Proof.
  split.
  - eexists _, _, _, _. split; [vm_compute; reflexivity|]. split; [vm_compute; reflexivity|]. split; [vm_compute; reflexivity|]. split; [vm_compute; reflexivity|]. reflexivity.
  - eexists _, _, _, _. split; [vm_compute; reflexivity|]. split; [vm_compute; reflexivity|]. split; [reflexivity|]. split; [vm_compute; reflexivity|]. vm_compute. reflexivity.
Qed.

(** Unbinding a handler that was bound twice in a row, after another one, takes out
    only one of the two. *)
Theorem unbind_leaves_second g f h :
  f <> h -> device_bindings g = [h; f; f] ->
  let '(status, g') := switch_channel_unbind_device_state_handler f g in
  status = SWITCH_STATUS_SUCCESS /\ device_bindings g' = [h; f].
Proof.
  intros Hne E. unfold switch_channel_unbind_device_state_handler. rewrite E. cbn [unbind_loop].
  rewrite (proj2 (Z.eqb_neq h f)), Z.eqb_refl by done. done.
Qed.

(** The talk time of a device is cut to 32 bits of microseconds before it is
    divided: a call of 2^32 microseconds (71.6 minutes) and a bit is reported as the bit. *)
Theorem talk_time_wraps start x : 0 <= x < 2 ^ 32 -> milliseconds (start + 2 ^ 32 + x) start = x / 1000.
Proof. intros H. unfold milliseconds, u32. replace (start + 2 ^ 32 + x - start) with (x + 1 * 2 ^ 32) by lia. rewrite Z.mod_add, Z.mod_small; [done|lia..]. Qed.

(** ** Witnesses *)

#[local] Notation last_run :=
  [New 1 "a" Caller.profile_1 SWITCH_CALL_DIRECTION_INBOUND; New 2 "b" Caller.profile_1 SWITCH_CALL_DIRECTION_OUTBOUND;
   Join 1 "phone"; Join 2 "phone"; Callstate 1 CCS_ACTIVE; CheckState 1 (fun _ => 5) true CCS_ACTIVE;
   Hangup 1 (mk_hup_env "x" (Some 1) (Some 2)); Destroy 1 true; Hangup 2 (mk_hup_env "y" None None)].

Definition last_world : world := Eval vm_compute in default world_start (run last_run world_start).

Definition last_channel : switch_channel :=
  Eval vm_compute in default (mk_channel "" Caller.profile_1 CCS_DOWN SWITCH_CALL_DIRECTION_INBOUND SWITCH_CALL_DIRECTION_INBOUND false false None [] None)
                       (chans last_world !! 2).

Lemma last_leg_never_waits_witness :
  chans last_world !! 2 = Some last_channel /\ device_node last_channel = Some (0, 1%nat) /\
  exists drec, records (glob last_world) !! 0 = Some drec /\ refs drec = 0.
Proof.
  split; [vm_compute; reflexivity|]. split; [reflexivity|].
  destruct (last_leg_never_waits last_run last_world 2 last_channel 0 1) as (drec & Ha & Hr & _).
  - vm_compute. reflexivity.
  - vm_compute. reflexivity.
  - reflexivity.
  - reflexivity.
  - exists drec. split; [exact Ha|exact Hr].
Defined.

Definition leg (cs0 : switch_channel_callstate_t) (d : switch_call_direction_t) : switch_device_node := mk_node "u" None None cs0 [] None d.

Definition two_legs : switch_device_record :=
  (create_device_record "phone") <| uuid_list := [leg CCS_HELD SWITCH_CALL_DIRECTION_INBOUND; leg CCS_RINGING SWITCH_CALL_DIRECTION_OUTBOUND] |>.

Lemma device_state_of_legs_witness :
  fits (uuid_list two_legs) /\ state (update_device (fun _ => 7) true CCS_RINGING [3] two_legs).1 = SDS_RINGING.
Proof.
  split; [reflexivity|].
  destruct (device_state_of_legs (fun _ => 7) true CCS_RINGING [3] two_legs
              (update_device (fun _ => 7) true CCS_RINGING [3] two_legs).1 (update_device (fun _ => 7) true CCS_RINGING [3] two_legs).2) as (H & _).
  - reflexivity.
  - discriminate.
  - apply surjective_pairing.
  - rewrite H. vm_compute. reflexivity.
Defined.

Lemma device_timers_witness :
  timers_ok two_legs /\ timers_ok (update_device (fun _ => 7) true CCS_RINGING [3] two_legs).1.
Proof.
  assert (timers_ok two_legs) as H.
  { constructor; [vm_compute; done|vm_compute; done|]. exists false. vm_compute. done. }
  split; [exact H|].
  apply (device_timers (fun _ => 7) true CCS_RINGING [3] two_legs _ (update_device (fun _ => 7) true CCS_RINGING [3] two_legs).2).
  - discriminate.
  - exact H.
  - apply surjective_pairing.
Defined.

End DeviceTheorems.
