(* ===== verification/Session.v ===== *)
(** * Sessions (src/src/switch_core_session.c, switch_core_rwlock.c)

    A session is the memory of a call.  Sessions are found by their unique id, and
    by an external id if they have one, in a table that session_hash_mutex guards;
    finding one takes its read lock.  At the end of a call the session's own thread
    takes the write lock, which waits for all readers, marks the session, takes it
    out of the table and frees it.

    A session has an address, which is never used again; [sessions] are the ones in
    memory.  [phase] says how far the end of a session has come.  A thread that looks
    for a session is in one of the places of [place]; the code of a thread that holds
    the mutex is cut at the operations on the lock, which other threads can observe,
    and [mutex_free] says that no thread is in between.  A try for a read lock fails
    if there is a writer, and may fail otherwise.  The table is a finite map
    (CoreHash.v).  Media, events, messages and variables are left out. *)

From S2P Require Import Prelude.
From S2P Require Import Text ChannelNames.
From stdpp Require Import strings.

#[local] Open Scope string_scope.
#[local] Open Scope list_scope.
#[local] Open Scope Z_scope.

Module Session.
Import ChannelNames.

Definition SWITCH_UUID_FORMATTED_LENGTH : nat := 256.

(** The end of a session: running; marked as destroyed under the write lock; the
    lock released; out of the table. *)
Inductive phase := Live | Marked | Released | Removed.

#[export] Instance phase_eq_dec : EqDecision phase.
Proof. solve_decision. Defined.

Record switch_core_session := mk_session {
  id : Z;
  uuid_str : string;
  external_id : option string;
  ssf_destroyed : bool;                (* SSF_DESTROYED *)
  ssf_thread_started : bool;           (* SSF_THREAD_STARTED *)
  ssf_thread_running : bool;           (* SSF_THREAD_RUNNING *)
  ssf_destroyable : bool;              (* SSF_DESTROYABLE *)
  state : switch_channel_state_t;      (* of the channel *)
  readers : Z;                         (* of rwlock *)
  writer : bool;
  at_ : phase;
}.

#[export] Instance rebuild_session : Rebuild switch_core_session := fun s =>
  mk_session (id s) (uuid_str s) (external_id s) (ssf_destroyed s) (ssf_thread_started s) (ssf_thread_running s) (ssf_destroyable s)
    (state s) (readers s) (writer s) (at_ s).
#[export] Instance set_uuid_str : Setter uuid_str := ltac:(derive_setter).
#[export] Instance set_external_id : Setter external_id := ltac:(derive_setter).
#[export] Instance set_ssf_destroyed : Setter ssf_destroyed := ltac:(derive_setter).
#[export] Instance set_ssf_thread_started : Setter ssf_thread_started := ltac:(derive_setter).
#[export] Instance set_ssf_thread_running : Setter ssf_thread_running := ltac:(derive_setter).
#[export] Instance set_ssf_destroyable : Setter ssf_destroyable := ltac:(derive_setter).
#[export] Instance set_state : Setter state := ltac:(derive_setter).
#[export] Instance set_readers : Setter readers := ltac:(derive_setter).
#[export] Instance set_writer : Setter writer := ltac:(derive_setter).
#[export] Instance set_at_ : Setter at_ := ltac:(derive_setter).

Record switch_session_manager := mk_manager {
  session_table : gmap string Z;
  session_count : Z;
  session_limit : Z;
  session_id : Z;
  sessions : gmap Z switch_core_session;
  next_addr : Z;
}.

#[export] Instance rebuild_manager : Rebuild switch_session_manager := fun m =>
  mk_manager (session_table m) (session_count m) (session_limit m) (session_id m) (sessions m) (next_addr m).
#[export] Instance set_session_table : Setter session_table := ltac:(derive_setter).
#[export] Instance set_session_count : Setter session_count := ltac:(derive_setter).
#[export] Instance set_session_limit : Setter session_limit := ltac:(derive_setter).
#[export] Instance set_session_id : Setter session_id := ltac:(derive_setter).
#[export] Instance set_sessions : Setter sessions := ltac:(derive_setter).
#[export] Instance set_next_addr : Setter next_addr := ltac:(derive_setter).

Implicit Types (s : switch_core_session) (m : switch_session_manager) (a : Z).

(** switch_core_session_init. *)
Definition switch_core_session_init : switch_session_manager := mk_manager ∅ 0 1000 1 ∅ 0.

Definition switch_core_session_limit (new_limit : Z) m : Z * switch_session_manager :=
  let m := if new_limit =? 0 then m else m <| session_limit := new_limit |> in (session_limit m, m).

Definition switch_core_session_id_dec m : Z * switch_session_manager :=
  let m := m <| session_id := u64 (session_id m - 1) |> in (session_id m, m).

(** ** The read/write lock *)

Definition tryrdlock s : option switch_core_session := if writer s then None else Some (s <| readers := readers s + 1 |>).

Definition rdunlock s : switch_core_session := s <| readers := readers s - 1 |>.

Definition channel_down s : bool := cs CS_HANGUP <=? cs (state s).

(** Whether a reader that has the lock gives it back. *)
Definition refused s : bool := ssf_destroyed s || channel_down s.

Definition switch_core_session_read_lock s : switch_status_t * switch_core_session :=
  match tryrdlock s with
  | Some s => if refused s then (SWITCH_STATUS_FALSE, rdunlock s) else (SWITCH_STATUS_SUCCESS, s)
  | None => (SWITCH_STATUS_FALSE, s)
  end.

Definition switch_core_session_read_lock_hangup s : switch_status_t * switch_core_session :=
  match tryrdlock s with
  | Some s => if ssf_destroyed s || (cs CS_DESTROY <=? cs (state s)) then (SWITCH_STATUS_FALSE, rdunlock s) else (SWITCH_STATUS_SUCCESS, s)
  | None => (SWITCH_STATUS_FALSE, s)
  end.

Definition switch_core_session_rwunlock s : switch_core_session := if writer s then s <| writer := false |> else rdunlock s.

(** ** Finding a session *)

Definition at_addr a (f : switch_core_session -> switch_core_session) m : switch_session_manager := m <| sessions := alter f a (sessions m) |>.

(** The whole function, undisturbed; [None] is a table entry without a session. *)
Definition switch_core_session_perform_locate (uuid : option string) m : option (option Z * switch_session_manager) :=
  match uuid with
  | None => Some (None, m)
  | Some uuid =>
      match session_table m !! uuid with
      | None => Some (None, m)
      | Some a =>
          s ← sessions m !! a;
          let '(status, s) := switch_core_session_read_lock s in
          let m := at_addr a (fun _ => s) m in
          Some (if bool_decide (status = SWITCH_STATUS_SUCCESS) then Some a else None, m)
      end
  end.

(** The lock is tried after the flag has been tested. *)
Definition switch_core_session_perform_force_locate (uuid : option string) m : option (option Z * switch_session_manager) :=
  match uuid with
  | None => Some (None, m)
  | Some uuid =>
      match session_table m !! uuid with
      | None => Some (None, m)
      | Some a =>
          s ← sessions m !! a;
          if ssf_destroyed s then Some (None, m)
          else match tryrdlock s with
          | Some s => Some (Some a, at_addr a (fun _ => s) m)
          | None => Some (None, m)
          end
      end
  end.

(** ** New sessions *)

(** What decides whether the system takes another session. *)
Record request_env := mk_request {
  outbound : bool; ready_inbound : bool; ready_outbound : bool; ready : bool; has_endpoint : bool; idle_enough : bool;
  no_limits : bool;                    (* SOF_NO_LIMITS *)
  sps : Z;                             (* --runtime.sps *)
}.

(** The tests of switch_core_session_request_uuid, which are made before the mutex
    is taken. *)
Definition request_allowed (e : request_env) (use_uuid : option string) m : bool :=
  if match use_uuid with Some u => bool_decide (is_Some (session_table m !! u)) | None => false end then false
  else if negb (outbound e) && negb (ready_inbound e) then false
  else if outbound e && negb (ready_outbound e) then false
  else if negb (ready e) || negb (has_endpoint e) then false
  else if negb (idle_enough e) then false
  else if no_limits e then true
  else if sps e <=? 0 then false
  else negb (u32 (session_count m + 1) >? session_limit m).

(** switch_set_string on an array of SWITCH_UUID_FORMATTED_LENGTH + 1 bytes. *)
Definition cut (u : string) : string := String.substring 0 SWITCH_UUID_FORMATTED_LENGTH u.

(** The part under the mutex; [uuid] is the id that was asked for or a new one. *)
Definition insert_session (uuid : string) m : switch_session_manager :=
  let a := next_addr m in
  let s := mk_session (session_id m) (cut uuid) None false false false false CS_NEW 0 false Live in
  m <| session_table := <[uuid_str s := a]> (session_table m) |>
    <| sessions := <[a := s]> (sessions m) |>
    <| next_addr := a + 1 |>
    <| session_id := u64 (session_id m + 1) |>
    <| session_count := u32 (session_count m + 1) |>.

Definition switch_core_session_request_uuid (e : request_env) (use_uuid : option string) (new_uuid : string) m
  : option Z * switch_session_manager :=
  if request_allowed e use_uuid m then (Some (next_addr m), insert_session (default new_uuid use_uuid) m) else (None, m).

(** ** Ids *)

Definition switch_core_session_set_uuid a (use_uuid : string) m : option (switch_status_t * switch_session_manager) :=
  s ← sessions m !! a;
  if String.eqb use_uuid (uuid_str s) then Some (SWITCH_STATUS_SUCCESS, m)
  else if bool_decide (is_Some (session_table m !! use_uuid)) then Some (SWITCH_STATUS_FALSE, m)
  else
    let m := m <| session_table := delete (uuid_str s) (session_table m) |> in
    let m := at_addr a (fun s => s <| uuid_str := cut use_uuid |>) m in
    Some (SWITCH_STATUS_SUCCESS, m <| session_table := <[cut use_uuid := a]> (session_table m) |>).

Definition switch_core_session_set_external_id a (use_external_id : string) m : option (switch_status_t * switch_session_manager) :=
  s ← sessions m !! a;
  if bool_decide (external_id s = Some use_external_id) then Some (SWITCH_STATUS_SUCCESS, m)
  else if negb (String.eqb use_external_id (uuid_str s)) && bool_decide (is_Some (session_table m !! use_external_id))
  then Some (SWITCH_STATUS_FALSE, m)
  else
    let m := match external_id s with
             | Some x => if String.eqb x (uuid_str s) then m else m <| session_table := delete x (session_table m) |>
             | None => m
             end in
    let m := at_addr a (fun s => s <| external_id := Some use_external_id |>) m in
    Some (SWITCH_STATUS_SUCCESS,
          if String.eqb use_external_id (uuid_str s) then m else m <| session_table := <[use_external_id := a]> (session_table m) |>).

(** ** The thread of a session *)

Definition launched s : bool := ssf_thread_running s || ssf_thread_started s.

(** The part of switch_core_session_thread_launch under session->mutex: [created]
    says whether the thread could be created; the flag in the result whether it runs. *)
Definition launch_locked (created : bool) s : switch_status_t * bool * switch_core_session :=
  if launched s then (SWITCH_STATUS_FALSE, false, s)
  else
    let s := s <| ssf_thread_running := true |> <| ssf_thread_started := true |> in
    if created then (SWITCH_STATUS_SUCCESS, true, s <| ssf_thread_started := true |>)
    else (SWITCH_STATUS_FALSE, false, s <| ssf_thread_running := false |> <| ssf_thread_started := false |>).

(** Without the thread pool (ThreadPool.v), which the flag SCF_SESSION_THREAD_POOL
    turns on. *)
Definition switch_core_session_thread_launch (created : bool) s : switch_status_t * bool * switch_core_session :=
  if launched s then (SWITCH_STATUS_INUSE, false, s) else launch_locked created s.

(** switch_core_session_thread after switch_core_session_run: the write lock with
    the flag, and the unlock. *)
Definition mark_destroyed s : switch_core_session := s <| writer := true |> <| ssf_destroyed := true |> <| at_ := Marked |>.

Definition release_session s : switch_core_session :=
  (switch_core_session_rwunlock s) <| ssf_destroyable := true |> <| at_ := Released |>.

(** switch_core_session_perform_destroy: the part under the mutex, and the rest,
    which ends with the pool of the session. *)
Definition without_ids s (t : gmap string Z) : gmap string Z :=
  let t := delete (uuid_str s) t in
  match external_id s with Some x => delete x t | None => t end.

Definition remove_session a m : option switch_session_manager :=
  s ← sessions m !! a;
  let m := m <| session_table := without_ids s (session_table m) |> in
  let m := if session_count m =? 0 then m else m <| session_count := session_count m - 1 |> in
  Some (at_addr a (fun s => s <| at_ := Removed |>) m).

Definition free_session a m : switch_session_manager := m <| sessions := delete a (sessions m) |>.

Definition switch_core_session_perform_destroy a m : option switch_session_manager := free_session a <$> remove_session a m.

End Session.
