(* ===== verification/SessionTheorems.v ===== *)
(** * Theorems about sessions (src/src/switch_core_session.c, switch_core_rwlock.c)

    Any number of threads look sessions up, lock, rename and unlock them while the
    threads of the sessions end them.  A session that was located stays in memory
    until it is unlocked; every entry of the table leads to a session that exists and
    has that id; the number of sessions is right; a thread is launched once. *)

From S2P Require Import Prelude.
From S2P Require Import Text ChannelNames Session.
From stdpp Require Import strings.

#[local] Open Scope string_scope.
#[local] Open Scope list_scope.
#[local] Open Scope Z_scope.

Module SessionTheorems.
Import ChannelNames Session.

Implicit Types (s : switch_core_session) (m : switch_session_manager) (a : Z).

(** ** Threads *)

(** A thread that looks a session up, or has it. *)
Inductive place :=
  | Found (a : Z)                     (* has the mutex and the address *)
  | Tried (a : Z)                     (* has the mutex and the read lock *)
  | Forced (a : Z)                    (* has the mutex and has seen that the session is not marked *)
  | Holding (a : Z).                  (* has the read lock *)

#[export] Instance place_eq_dec : EqDecision place.
Proof. solve_decision. Defined.

Record system := mk_system { manager : switch_session_manager; threads : list place }.

Implicit Types (w : system) (ts : list place).

Definition has_mutex (p : place) : bool := match p with Holding _ => false | _ => true end.

Definition mutex_free ts : Prop := Forall (fun p => has_mutex p = false) ts.

Definition system_start : system := mk_system switch_core_session_init [].

(** Whose step it is: [Forcing] the steps of switch_core_session_perform_force_locate,
    [Unlaunched] the end of a session whose thread was never started.  The claims below
    are about executions of [Normal] steps only; the findings at the end of the file show
    what the others can do. *)
Inductive kind := Normal | Forcing | Unlaunched.

(** A session may be changed by its own thread, while it is live, and by a reader. *)
Definition may_change a m ts : Prop := (exists s, sessions m !! a = Some s /\ at_ s = Live) \/ Holding a ∈ ts.

Inductive step : kind -> system -> system -> Prop :=
  (* new sessions and ids *)
  | step_insert m ts uuid : mutex_free ts -> session_count m + 1 < 2 ^ 32 -> step Normal (mk_system m ts) (mk_system (insert_session uuid m) ts)
  | step_set_uuid m ts a u st m' : mutex_free ts -> may_change a m ts -> switch_core_session_set_uuid a u m = Some (st, m') ->
      step Normal (mk_system m ts) (mk_system m' ts)
  | step_set_external_id m ts a u st m' : mutex_free ts -> may_change a m ts ->
      switch_core_session_set_external_id a u m = Some (st, m') -> step Normal (mk_system m ts) (mk_system m' ts)
  | step_state m ts a s st : sessions m !! a = Some s -> step Normal (mk_system m ts) (mk_system (at_addr a (fun s => s <| state := st |>) m) ts)
  (* switch_core_session_perform_locate *)
  | step_find m ts u a : mutex_free ts -> session_table m !! u = Some a -> step Normal (mk_system m ts) (mk_system m (Found a :: ts))
  | step_try m ts1 ts2 a s s' : sessions m !! a = Some s -> tryrdlock s = Some s' ->
      step Normal (mk_system m (ts1 ++ Found a :: ts2)) (mk_system (at_addr a (fun _ => s') m) (ts1 ++ Tried a :: ts2))
  | step_try_fails m ts1 ts2 a : step Normal (mk_system m (ts1 ++ Found a :: ts2)) (mk_system m (ts1 ++ ts2))
  | step_refused m ts1 ts2 a s : sessions m !! a = Some s -> refused s = true ->
      step Normal (mk_system m (ts1 ++ Tried a :: ts2)) (mk_system (at_addr a rdunlock m) (ts1 ++ ts2))
  | step_located m ts1 ts2 a s : sessions m !! a = Some s -> refused s = false ->
      step Normal (mk_system m (ts1 ++ Tried a :: ts2)) (mk_system m (ts1 ++ Holding a :: ts2))
  | step_unlock m ts1 ts2 a s : sessions m !! a = Some s ->
      step Normal (mk_system m (ts1 ++ Holding a :: ts2)) (mk_system (at_addr a switch_core_session_rwunlock m) (ts1 ++ ts2))
  (* switch_core_session_perform_force_locate *)
  | step_force m ts u a s : mutex_free ts -> session_table m !! u = Some a -> sessions m !! a = Some s -> ssf_destroyed s = false ->
      step Forcing (mk_system m ts) (mk_system m (Forced a :: ts))
  | step_forced m ts1 ts2 a s s' : sessions m !! a = Some s -> tryrdlock s = Some s' ->
      step Forcing (mk_system m (ts1 ++ Forced a :: ts2)) (mk_system (at_addr a (fun _ => s') m) (ts1 ++ Holding a :: ts2))
  | step_force_fails m ts1 ts2 a : step Forcing (mk_system m (ts1 ++ Forced a :: ts2)) (mk_system m (ts1 ++ ts2))
  (* the thread of a session, from the write lock on *)
  | step_mark m ts a s : sessions m !! a = Some s -> at_ s = Live -> readers s = 0 -> writer s = false ->
      step Normal (mk_system m ts) (mk_system (at_addr a mark_destroyed m) ts)
  | step_release m ts a s : sessions m !! a = Some s -> at_ s = Marked ->
      step Normal (mk_system m ts) (mk_system (at_addr a release_session m) ts)
  | step_remove m ts a s m' : sessions m !! a = Some s -> at_ s = Released -> mutex_free ts -> remove_session a m = Some m' ->
      step Normal (mk_system m ts) (mk_system m' ts)
  | step_free m ts a s : sessions m !! a = Some s -> at_ s = Removed -> step Normal (mk_system m ts) (mk_system (free_session a m) ts)
  (* the end of a session that was never started: perform_destroy without the lock *)
  | step_destroy m ts a s m' : sessions m !! a = Some s -> at_ s = Live -> ssf_thread_started s = false -> mutex_free ts ->
      remove_session a m = Some m' -> step Unlaunched (mk_system m ts) (mk_system m' ts).

Definition normal_step w w' : Prop := step Normal w w'.

(** ** The invariant *)

Definition uses a (p : place) : bool := match p with Tried b | Holding b => a =? b | _ => false end.

(** A session is in the table, or can be found, until it is removed. *)
Definition listed s : bool := negb (bool_decide (at_ s = Removed)).

Definition named (k : string) s : Prop := uuid_str s = k \/ external_id s = Some k.

Record session_ok a ts s : Prop := {
  ok_readers : readers s = count (uses a) ts;
  ok_writer : writer s = bool_decide (at_ s = Marked);
  ok_marked : ssf_destroyed s = negb (bool_decide (at_ s = Live));
  ok_no_readers : writer s = true -> readers s = 0;
}.

Definition place_ok m (p : place) : Prop :=
  match p with
  | Found a | Tried a => exists s, sessions m !! a = Some s /\ listed s = true
  | Forced a => False
  | Holding a => exists s, sessions m !! a = Some s /\ at_ s = Live
  end.

Record ok w : Prop := {
  ok_sessions a s : sessions (manager w) !! a = Some s -> session_ok a (threads w) s /\ a < next_addr (manager w);
  ok_places p : p ∈ threads w -> place_ok (manager w) p;
  ok_table k a : session_table (manager w) !! k = Some a -> exists s, sessions (manager w) !! a = Some s /\ named k s /\ listed s = true;
}.

Lemma alter_at a s f m : sessions m !! a = Some s -> sessions (at_addr a f m) = <[a := f s]> (sessions m).
Proof.
  intros H. change (alter f a (sessions m) = <[a := f s]> (sessions m)). apply map_eq. intros b. destruct (decide (a = b)) as [<-|Hn].
  - by rewrite lookup_alter_eq, lookup_insert_eq, H.
  - by rewrite lookup_alter_ne, lookup_insert_ne.
Qed.

Lemma alter_ext a s f g m : sessions m !! a = Some s -> f s = g s -> at_addr a f m = at_addr a g m.
Proof.
  intros H E. unfold at_addr. enough (alter f a (sessions m) = alter g a (sessions m)) as -> by done.
  apply map_eq. intros b. destruct (decide (a = b)) as [<-|Hn]; [rewrite !lookup_alter_eq, H; cbn; by rewrite E|by rewrite !lookup_alter_ne].
Qed.

Lemma place_ok_alter m p a f s : sessions m !! a = Some s -> place_ok m p -> (listed s = true -> listed (f s) = true) ->
  (at_ (f s) = Live \/ p <> Holding a) -> place_ok (at_addr a f m) p.
Proof.
  intros Ha Hp Hl Hf.
  assert (forall b, (exists s0, sessions m !! b = Some s0 /\ listed s0 = true) -> exists s0, sessions (at_addr a f m) !! b = Some s0 /\ listed s0 = true)
    as Hlisted.
  { intros b (s0 & Hb & Hs0). rewrite (alter_at _ _ _ _ Ha). destruct (decide (a = b)) as [<-|Hn].
    - rewrite lookup_insert_eq. exists (f s). split; [done|]. apply Hl. congruence.
    - rewrite lookup_insert_ne by done. by exists s0. }
  destruct p as [b|b|b|b]; cbn [place_ok] in *; [by apply Hlisted|by apply Hlisted|done|].
  destruct Hp as (s0 & Hb & Hs0). rewrite (alter_at _ _ _ _ Ha). destruct (decide (a = b)) as [<-|Hn].
  - rewrite lookup_insert_eq. exists (f s). split; [done|]. by destruct Hf.
  - rewrite lookup_insert_ne by done. by exists s0.
Qed.

(** One session changes, and its readers. *)
Lemma ok_alter m ts ts' a s f :
  ok (mk_system m ts) -> sessions m !! a = Some s -> session_ok a ts' (f s) -> (forall b, b <> a -> count (uses b) ts' = count (uses b) ts) ->
  (forall p, p ∈ ts' -> place_ok (at_addr a f m) p) -> uuid_str (f s) = uuid_str s -> external_id (f s) = external_id s ->
  (listed s = true -> listed (f s) = true) -> ok (mk_system (at_addr a f m) ts').
Proof.
  intros [HS HP HT] Ha Hs Hc Hp Hu He Hl. constructor; cbn [manager threads] in *.
  - intros b s0. rewrite (alter_at _ _ _ _ Ha). destruct (decide (a = b)) as [<-|Hn].
    + rewrite lookup_insert_eq. intros [= <-]. split; [done|]. by apply (HS a s).
    + rewrite lookup_insert_ne by done. intros [[A B C D] ?]%HS. split; [|done]. constructor; [rewrite Hc by done|..]; done.
  - done.
  - intros k b. change (session_table (at_addr a f m)) with (session_table m). intros (s0 & Hb & Hn & Hl0)%HT. rewrite (alter_at _ _ _ _ Ha).
    destruct (decide (a = b)) as [<-|Hne]; [|rewrite lookup_insert_ne by done; by exists s0].
    rewrite lookup_insert_eq. rewrite Ha in Hb. injection Hb as <-. exists (f s). unfold named. rewrite Hu, He. auto.
Qed.

Lemma uses_swap b ts1 ts2 p p' : uses b p = uses b p' -> count (uses b) (ts1 ++ p :: ts2) = count (uses b) (ts1 ++ p' :: ts2).
Proof. intros H. by rewrite !count_app, !count_cons, H. Qed.

Lemma uses_drop b ts1 ts2 p : uses b p = false -> count (uses b) (ts1 ++ ts2) = count (uses b) (ts1 ++ p :: ts2).
Proof. intros H. rewrite !count_app, !count_cons, H. done. Qed.

(** Only the threads change. *)
Lemma ok_threads m ts ts' : ok (mk_system m ts) -> (forall b, count (uses b) ts' = count (uses b) ts) ->
  (forall p, p ∈ ts' -> p ∈ ts \/ place_ok m p) -> ok (mk_system m ts').
Proof.
  intros [HS HP HT] Hc Hp. constructor; cbn [manager threads] in *; [|intros p [?%HP|?]%Hp; done|done].
  intros a s [[A B C D] ?]%HS. split; [|done]. constructor; [by rewrite Hc|..]; done.
Qed.

Lemma live_listed s : at_ s = Live -> listed s = true.
Proof. unfold listed. by intros ->. Qed.

Lemma not_refused_live a ts s : session_ok a ts s -> refused s = false -> at_ s = Live.
Proof. intros [_ _ Hm _] Hr. unfold refused in Hr. rewrite Hm in Hr. by destruct (at_ s). Qed.

Lemma mid_elem {A} (p q : A) (l1 l2 : list A) : p ∈ l1 ++ q :: l2 -> p = q \/ p ∈ l1 ++ l2.
Proof. set_solver. Qed.

Lemma mid_keep {A} (p q : A) (l1 l2 : list A) : p ∈ l1 ++ l2 -> p ∈ l1 ++ q :: l2.
Proof. set_solver. Qed.

(** ** Locking keeps it *)

Lemma try_ok m ts1 ts2 a s s' : ok (mk_system m (ts1 ++ Found a :: ts2)) -> sessions m !! a = Some s -> tryrdlock s = Some s' ->
  ok (mk_system (at_addr a (fun _ => s') m) (ts1 ++ Tried a :: ts2)).
Proof.
  intros Hok Ha Ht. destruct (ok_sessions _ Hok a s Ha) as [[A B C D] _]. cbn [threads] in *.
  unfold tryrdlock in Ht. assert (writer s = false) as Hw by (by destruct (writer s)). rewrite Hw in Ht. injection Ht as <-.
  apply (ok_alter m (ts1 ++ Found a :: ts2) _ a s); try done.
  - constructor; [|exact B|exact C|change (writer s = true -> readers s + 1 = 0); congruence].
    change (readers s + 1 = count (uses a) (ts1 ++ Tried a :: ts2)). rewrite A, !count_app, !count_cons.
    cbn [uses]. rewrite Z.eqb_refl. cbn. lia.
  - intros b Hb. apply uses_swap. cbn. by apply Z.eqb_neq.
  - intros p Hp. apply (place_ok_alter _ _ _ _ s Ha); [|done|].
    + apply mid_elem in Hp as [->|Hp]; [|by apply (ok_places _ Hok p), mid_keep].
      by apply (ok_places _ Hok (Found a)); set_solver.
    + cbn. destruct (decide (p = Holding a)) as [->|]; [left|by right].
      apply mid_elem in Hp as [[=]|Hp]. destruct (ok_places _ Hok (Holding a)) as (s0 & Hs0 & ?); [by apply mid_keep|]. cbn in Hs0. congruence.
Qed.

(** A reader goes. *)
Lemma unlock_ok m ts1 ts2 p a s : (p = Tried a \/ p = Holding a) -> ok (mk_system m (ts1 ++ p :: ts2)) -> sessions m !! a = Some s ->
  ok (mk_system (at_addr a rdunlock m) (ts1 ++ ts2)).
Proof.
  intros Hp Hok Ha. destruct (ok_sessions _ Hok a s Ha) as [[A B C D] _]. cbn [threads] in *.
  assert (forall b, uses b p = (b =? a)) as Hu by (intros b; by destruct Hp as [-> | ->]).
  assert (readers s = count (uses a) (ts1 ++ ts2) + 1) as Hr by (rewrite A, !count_app, !count_cons, Hu, Z.eqb_refl; cbn; lia).
  apply (ok_alter m (ts1 ++ p :: ts2) _ a s); try done.
  - constructor; [change (readers s - 1 = count (uses a) (ts1 ++ ts2)); lia|done|done|].
    intros Hw. specialize (D Hw). pose proof (count_nonneg (uses a) (ts1 ++ ts2)). lia.
  - intros b Hb. apply uses_drop. rewrite Hu. by apply Z.eqb_neq.
  - intros q Hq. apply (place_ok_alter _ _ _ _ s Ha); [by apply (ok_places _ Hok q), mid_keep|done|].
    destruct (decide (q = Holding a)) as [->|]; [left|by right].
    destruct (ok_places _ Hok (Holding a)) as (s0 & Hs0 & ?); [by apply mid_keep|]. cbn in Hs0. change (at_ s = Live). congruence.
Qed.

Lemma no_holder m ts a s p : ok (mk_system m ts) -> sessions m !! a = Some s -> at_ s <> Live -> p ∈ ts -> p <> Holding a.
Proof. intros Hok Ha Hs Hp ->. destruct (ok_places _ Hok _ Hp) as (s0 & Hs0 & ?). cbn in Hs0. congruence. Qed.

Lemma unread_holder m ts a s p : ok (mk_system m ts) -> sessions m !! a = Some s -> readers s = 0 -> p ∈ ts -> p <> Holding a.
Proof.
  intros Hok Ha Hr [i Hi]%list_elem_of_lookup ->. destruct (ok_sessions _ Hok a s Ha) as [[A _ _ _] _]. cbn in A.
  pose proof (count_lookup (uses a) ts i (Holding a) Hi) as H. cbn in H. rewrite Z.eqb_refl in H. specialize (H eq_refl). lia.
Qed.

Lemma mark_ok m ts a s : ok (mk_system m ts) -> sessions m !! a = Some s -> at_ s = Live -> readers s = 0 ->
  ok (mk_system (at_addr a mark_destroyed m) ts).
Proof.
  intros Hok Ha Hl Hr. destruct (ok_sessions _ Hok a s Ha) as [[A B C D] _]. apply (ok_alter m ts _ a s); try done.
  intros p Hp. apply (place_ok_alter _ _ _ _ s Ha); [by apply (ok_places _ Hok)|done|right; by eapply unread_holder].
Qed.

Lemma release_ok m ts a s : ok (mk_system m ts) -> sessions m !! a = Some s -> at_ s = Marked ->
  ok (mk_system (at_addr a release_session m) ts).
Proof.
  intros Hok Ha Hl. destruct (ok_sessions _ Hok a s Ha) as [[A B C D] _]. rewrite Hl in B. cbn in B.
  assert (release_session s = s <| writer := false |> <| ssf_destroyable := true |> <| at_ := Released |>) as E.
  { unfold release_session, switch_core_session_rwunlock. by rewrite B. }
  apply (ok_alter m ts _ a s); rewrite ?E; try done.
  - constructor; [exact A|done| |done]. change (ssf_destroyed s = true). rewrite C, Hl. done.
  - intros p Hp. apply (place_ok_alter _ _ _ _ s Ha); [by apply (ok_places _ Hok)|by rewrite E|right].
    eapply no_holder; [done..| |done]. by rewrite Hl.
Qed.

Lemma state_ok m ts a s st : ok (mk_system m ts) -> sessions m !! a = Some s -> ok (mk_system (at_addr a (fun s => s <| state := st |>) m) ts).
Proof.
  intros Hok Ha. destruct (ok_sessions _ Hok a s Ha) as [[A B C D] _]. apply (ok_alter m ts _ a s); try done.
  intros p Hp. apply (place_ok_alter _ _ _ _ s Ha); [by apply (ok_places _ Hok)|done|].
  destruct (decide (p = Holding a)) as [->|]; [left|by right]. destruct (ok_places _ Hok _ Hp) as (s0 & Hs0 & ?). cbn in Hs0.
  change (at_ s = Live). congruence.
Qed.

(** ** The table keeps it *)

(** Two managers with the same sessions but for their ids. *)
Definition same_but_ids s s' : Prop :=
  readers s' = readers s /\ writer s' = writer s /\ at_ s' = at_ s /\ ssf_destroyed s' = ssf_destroyed s.

Lemma ids_ok m m' ts a s f :
  ok (mk_system m ts) -> sessions m !! a = Some s -> sessions m' = <[a := f s]> (sessions m) -> same_but_ids s (f s) ->
  next_addr m' = next_addr m ->
  (forall k b, session_table m' !! k = Some b -> (b = a /\ named k (f s) /\ listed s = true) \/ (b <> a /\ session_table m !! k = Some b)) ->
  ok (mk_system m' ts).
Proof.
  intros Hok Ha Hm (Er & Ew & Ep & Ed) Hn Ht. constructor; cbn [manager threads].
  - intros b s0. rewrite Hm, Hn. destruct (decide (a = b)) as [<-|Hne].
    + rewrite lookup_insert_eq. intros [= <-]. destruct (ok_sessions _ Hok a s Ha) as [[A B C D] ?]. split; [|done].
      constructor; rewrite ?Er, ?Ew, ?Ep, ?Ed; done.
    + rewrite lookup_insert_ne by done. apply (ok_sessions _ Hok).
  - intros p Hp%(ok_places _ Hok). cbn in Hp.
    assert (forall b s0, sessions m !! b = Some s0 -> exists s1, sessions m' !! b = Some s1 /\ at_ s1 = at_ s0) as H.
    { intros b s0 Hb. rewrite Hm. destruct (decide (a = b)) as [<-|Hne]; [|rewrite lookup_insert_ne by done; by exists s0].
      rewrite lookup_insert_eq. exists (f s). split; [done|]. congruence. }
    unfold listed in *. destruct p; cbn in Hp |- *; [..|done|].
    1,2: destruct Hp as (s0 & Hb & Hl); destruct (H _ _ Hb) as (s1 & ? & E1); exists s1; unfold listed; by rewrite E1.
    destruct Hp as (s0 & Hb & Hl). destruct (H _ _ Hb) as (s1 & ? & E1). exists s1. by rewrite E1.
  - intros k b Hk. destruct (Ht k b Hk) as [(-> & Hna & Hl)|[Hne Hk']].
    + exists (f s). rewrite Hm, lookup_insert_eq. split; [done|]. split; [done|]. unfold listed in *. by rewrite Ep.
    + destruct (ok_table _ Hok k b Hk') as (s0 & Hb & ?). exists s0. by rewrite Hm, lookup_insert_ne by done.
Qed.

Lemma changeable m ts a s : ok (mk_system m ts) -> may_change a m ts -> sessions m !! a = Some s -> at_ s = Live.
Proof.
  intros Hok [(s0 & Hs0 & ?)|Hp] Ha; [congruence|]. destruct (ok_places _ Hok _ Hp) as (s0 & Hs0 & ?). cbn in Hs0. congruence.
Qed.

Lemma entry_named m ts a s k : ok (mk_system m ts) -> sessions m !! a = Some s -> session_table m !! k = Some a -> named k s.
Proof. intros Hok Ha Hk. destruct (ok_table _ Hok k a Hk) as (s0 & Hs0 & ? & _). cbn in Hs0. congruence. Qed.

Lemma set_uuid_ok m ts a u st m' : ok (mk_system m ts) -> may_change a m ts -> switch_core_session_set_uuid a u m = Some (st, m') ->
  ok (mk_system m' ts).
Proof.
  intros Hok Hmay. unfold switch_core_session_set_uuid. destruct (sessions m !! a) as [s|] eqn:Ha; [|done]. cbn [mbind option_bind].
  destruct (String.eqb u (uuid_str s)); [by intros [= _ <-]|]. destruct (bool_decide (is_Some (session_table m !! u))); [by intros [= _ <-]|].
  intros [= _ <-]. apply (ids_ok m _ ts a s (fun s => s <| uuid_str := cut u |>) Hok Ha); 
    [change (sessions (at_addr a (fun s => s <| uuid_str := cut u |>) m) = <[a := s <| uuid_str := cut u |>]> (sessions m)); by apply alter_at|done|done|].
  intros k b Hk. change (<[cut u := a]> (delete (uuid_str s) (session_table m)) !! k = Some b) in Hk.
  apply lookup_insert_Some in Hk as [[<- <-]|[Hne Hk]].
  - left. split; [done|]. split; [by left|]. apply live_listed. by eapply changeable.
  - apply lookup_delete_Some in Hk as [Hold Hk]. destruct (decide (b = a)) as [->|]; [left|right; done]. split; [done|].
    split; [|apply live_listed; by eapply changeable]. right. destruct (entry_named _ _ _ _ _ Hok Ha Hk); [congruence|done].
Qed.

Lemma set_external_id_ok m ts a u st m' : ok (mk_system m ts) -> may_change a m ts ->
  switch_core_session_set_external_id a u m = Some (st, m') -> ok (mk_system m' ts).
Proof.
  intros Hok Hmay. unfold switch_core_session_set_external_id. destruct (sessions m !! a) as [s|] eqn:Ha; [|done]. cbn [mbind option_bind].
  assert (listed s = true) as Hl by (apply live_listed; by eapply changeable).
  destruct (bool_decide (external_id s = Some u)); [by intros [= _ <-]|]. destruct (_ && _); [by intros [= _ <-]|].
  set (m1 := match external_id s with Some x => _ | None => m end).
  assert (sessions m1 = sessions m /\ next_addr m1 = next_addr m) as [Es En] by (subst m1; by repeat case_match).
  assert (forall k b, session_table m1 !! k = Some b -> session_table m !! k = Some b /\ (external_id s = Some k -> uuid_str s = k)) as Et.
  { subst m1. intros k b. destruct (external_id s) as [x|] eqn:Ex; [|by split]. destruct (String.eqb_spec x (uuid_str s)) as [E|Hne].
    - intros H. split; [done|]. by intros [= <-].
    - intros H. change (delete x (session_table m) !! k = Some b) in H. apply lookup_delete_Some in H as [? H]. split; [done|]. congruence. }
  set (f := fun s : switch_core_session => s <| external_id := Some u |>).
  assert (forall m2, sessions m2 = sessions (at_addr a f m1) -> next_addr m2 = next_addr m1 ->
    (forall k b, session_table m2 !! k = Some b -> (k = u /\ b = a) \/ session_table m1 !! k = Some b) -> ok (mk_system m2 ts)) as H.
  { intros m2 H1 H2 H3. apply (ids_ok m m2 ts a s f Hok Ha).
    - rewrite H1. rewrite (alter_at a s); [by rewrite Es|by rewrite Es].
    - done.
    - by rewrite H2.
    - intros k b [[-> ->]|[Hk Hx]%Et]%H3; [left; split; [done|]; split; [by right|done]|].
      destruct (decide (b = a)) as [->|]; [left|right; done]. split; [done|]. split; [|done]. left.
      destruct (entry_named _ _ _ _ _ Hok Ha Hk); [done|by apply Hx]. }
  intros [= _ <-]. destruct (String.eqb u (uuid_str s)); apply H; try done; [by right|].
  intros k b Hk. change (<[u := a]> (session_table m1) !! k = Some b) in Hk. apply lookup_insert_Some in Hk as [[<- <-]|[_ ?]]; auto.
Qed.

Lemma insert_ok m ts u : ok (mk_system m ts) -> ok (mk_system (insert_session u m) ts).
Proof.
  intros Hok. set (a := next_addr m). set (s := mk_session (session_id m) (cut u) None false false false false CS_NEW 0 false Live).
  assert (sessions m !! a = None) as Hnew.
  { destruct (sessions m !! a) as [s0|] eqn:E; [|done]. destruct (ok_sessions _ Hok a s0 E) as [_ Hlt]. cbn in Hlt. lia. }
  assert (sessions (insert_session u m) = <[a := s]> (sessions m)) as Es by done.
  assert (forall b s0, sessions m !! b = Some s0 -> <[a := s]> (sessions m) !! b = Some s0) as Hold.
  { intros b s0 Hb. rewrite lookup_insert_ne; [done|]. intros <-. congruence. }
  constructor; cbn [manager threads].
  - intros b s0. rewrite Es. change (next_addr (insert_session u m)) with (a + 1). destruct (decide (a = b)) as [<-|Hne].
    + rewrite lookup_insert_eq. intros [= <-]. split; [|lia]. constructor; try done. cbn [readers]. symmetry. apply count_zero.
      apply Forall_forall. intros p Hp%(ok_places _ Hok). cbn in Hp. destruct p as [b|b|b|b]; try done; cbn;
        apply Z.eqb_neq; intros ->; destruct Hp as (s1 & ? & _); congruence.
    + rewrite lookup_insert_ne by done. intros Hb%(ok_sessions _ Hok). cbn in Hb. split; [apply Hb|]. destruct Hb. lia.
  - intros p Hp%(ok_places _ Hok). destruct p; cbn [place_ok manager] in *; [..|done|]; destruct Hp as (s0 & ? & ?); exists s0; rewrite Es; auto.
  - intros k b Hk. change (<[cut u := a]> (session_table m) !! k = Some b) in Hk. rewrite Es. apply lookup_insert_Some in Hk as [[<- <-]|[_ Hk]].
    + exists s. rewrite lookup_insert_eq. split; [done|]. split; [by left|done].
    + destruct (ok_table _ Hok k b Hk) as (s0 & ? & ?). exists s0. auto.
Qed.

Lemma without_ids_spec s (t : gmap string Z) k b : without_ids s t !! k = Some b -> t !! k = Some b /\ ~ named k s.
Proof.
  unfold without_ids, named. destruct (external_id s) as [x|]; intros H; repeat (apply lookup_delete_Some in H as [? H]); split; naive_solver.
Qed.

Lemma remove_ok m ts a s m' : ok (mk_system m ts) -> sessions m !! a = Some s -> at_ s = Released -> mutex_free ts ->
  remove_session a m = Some m' -> ok (mk_system m' ts).
Proof.
  intros Hok Ha Hs Hmx. unfold remove_session. rewrite Ha. cbn [mbind option_bind]. set (m1 := m <| session_table := _ |>).
  set (m2 := if session_count m1 =? 0 then _ else _). intros [= <-]. set (f := fun s : switch_core_session => s <| at_ := Removed |>).
  assert (sessions m2 = sessions m /\ next_addr m2 = next_addr m /\ session_table m2 = without_ids s (session_table m)) as (Es & En & Et)
    by (subst m2; by case_match).
  assert (sessions (at_addr a f m2) = <[a := f s]> (sessions m)) as Em by (rewrite (alter_at a s), Es; [done|by rewrite Es]).
  destruct (ok_sessions _ Hok a s Ha) as [[A B C D] Hlt]. constructor; cbn [manager threads] in *.
  - intros b s0. rewrite Em. change (next_addr (at_addr a f m2)) with (next_addr m2). rewrite En. destruct (decide (a = b)) as [<-|Hne].
    + rewrite lookup_insert_eq. intros [= <-]. split; [|done]. rewrite Hs in B, C. constructor; try done.
    + rewrite lookup_insert_ne by done. apply (ok_sessions _ Hok).
  - intros p Hp. pose proof (proj1 (Forall_forall _ _) Hmx p Hp) as Hm. pose proof (ok_places _ Hok p Hp) as Hpl. destruct p as [b|b|b|b]; try done.
    destruct Hpl as (s0 & Hb & Hl). cbn in Hb. exists s0. rewrite Em, lookup_insert_ne; [done|]. intros <-. congruence.
  - intros k b Hk. change (session_table m2 !! k = Some b) in Hk. rewrite Et in Hk. apply without_ids_spec in Hk as [Hk Hn].
    destruct (ok_table _ Hok k b Hk) as (s0 & Hb & Hnm & Hl). cbn in Hb. exists s0. rewrite Em, lookup_insert_ne; [done|]. intros <-. congruence.
Qed.

Lemma free_ok m ts a s : ok (mk_system m ts) -> sessions m !! a = Some s -> at_ s = Removed -> ok (mk_system (free_session a m) ts).
Proof.
  intros Hok Ha Hs. assert (listed s = false) as Hl by (unfold listed; by rewrite Hs).
  assert (sessions (free_session a m) = delete a (sessions m)) as Em by done.
  constructor; cbn [manager threads].
  - intros b s0. rewrite Em. intros [_ Hb]%lookup_delete_Some. by apply (ok_sessions _ Hok).
  - intros p Hp%(ok_places _ Hok). cbn in Hp. destruct p as [b|b|b|b]; cbn [place_ok manager] in *; [..|done|]; destruct Hp as (s0 & Hb & Hx); exists s0;
      rewrite Em, lookup_delete_ne; [done| |done| |done|]; intros <-; congruence.
  - intros k b Hk. destruct (ok_table _ Hok k b Hk) as (s0 & Hb & Hn & Hx). exists s0. rewrite Em, lookup_delete_ne; [done|]. intros <-.
    cbn in Hb. congruence.
Qed.

Lemma step_ok w w' : step Normal w w' -> ok w -> ok w'.
Proof.
  intros Hst Hok. remember Normal as kd eqn:E. destruct Hst; try discriminate E.
  - by apply insert_ok.
  - by eapply set_uuid_ok.
  - by eapply set_external_id_ok.
  - by eapply state_ok.
  - apply (ok_threads m ts); [done|intros b; by rewrite count_cons|]. intros p [->|?]%elem_of_cons; [right|by left].
    destruct (ok_table _ Hok u a) as (s0 & ? & _ & ?); [done|]. by exists s0.
  - by eapply try_ok.
  - apply (ok_threads _ _ _ Hok); [intros b; by apply uses_drop|]. intros p Hp. left. by apply mid_keep.
  - by eapply (unlock_ok _ _ _ (Tried a)); [left|..].
  - apply (ok_threads _ _ _ Hok); [intros b; by apply uses_swap|]. intros p [->|Hp]%mid_elem; [right|left; by apply mid_keep].
    exists s. split; [done|]. destruct (ok_sessions _ Hok a s) as [Hs _]; [done|]. by eapply not_refused_live.
  - destruct (ok_places _ Hok (Holding a)) as (s0 & Hs0 & Hl); [set_solver|]. cbn in Hs0. destruct (ok_sessions _ Hok a s0 Hs0) as [[_ B _ _] _].
    rewrite Hl in B. cbn in B.
    rewrite (alter_ext a s0 _ rdunlock m Hs0) by (unfold switch_core_session_rwunlock; by rewrite B).
    by eapply (unlock_ok _ _ _ (Holding a)); [right|..].
  - by eapply mark_ok.
  - by eapply release_ok.
  - by eapply remove_ok.
  - by eapply free_ok.
Qed.

(** ** The number of sessions *)

Definition is_listed (x : Z * switch_core_session) : Prop := listed x.2 = true.

Definition number_listed m : nat := size (filter is_listed (sessions m)).

Lemma listed_same (M : gmap Z switch_core_session) a s s' :
  M !! a = Some s -> listed s' = listed s -> size (filter is_listed (<[a := s']> M)) = size (filter is_listed M).
Proof.
  intros Ha E. destruct (listed s) eqn:Hl.
  - rewrite map_filter_insert_True by done. apply map_size_insert_Some. exists s. by apply map_lookup_filter_Some.
  - rewrite map_filter_insert_False by (unfold is_listed; cbn; congruence). f_equal. rewrite map_filter_delete. apply delete_id.
    apply map_lookup_filter_None. right. intros s0 Hs0. rewrite Ha in Hs0. injection Hs0 as <-. unfold is_listed. cbn. congruence.
Qed.

Lemma listed_gone (M : gmap Z switch_core_session) a s s' :
  M !! a = Some s -> listed s = true -> listed s' = false ->
  S (size (filter is_listed (<[a := s']> M))) = size (filter is_listed M).
Proof.
  intros Ha E E'. rewrite map_filter_insert_False by (unfold is_listed; cbn; congruence). rewrite map_filter_delete.
  assert (filter is_listed M !! a = Some s) as H by (by apply map_lookup_filter_Some).
  rewrite map_size_delete_Some by done. apply Nat.succ_pred. intros H0%map_size_empty_inv. by rewrite H0, lookup_empty in H.
Qed.

Definition well_counted w : Prop := session_count (manager w) = Z.of_nat (number_listed (manager w)).

Lemma alter_counted m ts ts' a s f : well_counted (mk_system m ts) -> sessions m !! a = Some s -> listed (f s) = listed s ->
  well_counted (mk_system (at_addr a f m) ts').
Proof.
  unfold well_counted, number_listed. cbn [manager]. intros H Ha Hl. rewrite (alter_at a s f m Ha), (listed_same _ _ _ _ Ha Hl). exact H.
Qed.

Lemma set_ids_counted m a u st m' :
  switch_core_session_set_uuid a u m = Some (st, m') \/ switch_core_session_set_external_id a u m = Some (st, m') ->
  session_count m' = session_count m /\ number_listed m' = number_listed m.
Proof.
  unfold number_listed.
  assert (forall f s m2, sessions m !! a = Some s -> listed (f s) = listed s -> sessions m2 = sessions (at_addr a f m) ->
    size (filter is_listed (sessions m2)) = size (filter is_listed (sessions m))) as H.
  { intros f s m2 Ha Hl E. by rewrite E, (alter_at a s f m Ha), (listed_same _ _ _ _ Ha Hl). }
  intros [Hs|Hs]; unfold switch_core_session_set_uuid, switch_core_session_set_external_id in Hs;
    destruct (sessions m !! a) as [s|] eqn:Ha; try discriminate Hs; cbn [mbind option_bind] in Hs.
  - destruct (String.eqb u (uuid_str s)); [by injection Hs as _ <-|]. destruct (bool_decide _); [by injection Hs as _ <-|].
    injection Hs as _ <-. split; [done|]. by apply (H (fun s => s <| uuid_str := cut u |>) s).
  - destruct (bool_decide _); [by injection Hs as _ <-|]. destruct (_ && _); [by injection Hs as _ <-|]. injection Hs as _ <-.
    set (m1 := match external_id s with Some x => _ | None => m end).
    assert (sessions m1 = sessions m /\ session_count m1 = session_count m) as [E1 E2] by (subst m1; by repeat case_match).
    set (m2 := if String.eqb _ _ then _ else _).
    assert (sessions m2 = alter (fun s => s <| external_id := Some u |>) a (sessions m1) /\ session_count m2 = session_count m1) as [F1 F2]
      by (subst m2; by case_match).
    split; [congruence|]. apply (H (fun s => s <| external_id := Some u |>) s); [done|done|]. by rewrite F1, E1.
Qed.

Lemma remove_counted m ts a s m' : well_counted (mk_system m ts) -> sessions m !! a = Some s -> listed s = true ->
  remove_session a m = Some m' -> well_counted (mk_system m' ts).
Proof.
  intros Hw Ha Hl. unfold remove_session. rewrite Ha. cbn [mbind option_bind]. set (m1 := m <| session_table := _ |>).
  set (m2 := if session_count m1 =? 0 then _ else _). intros [= <-]. unfold well_counted, number_listed in *. cbn [manager] in *.
  pose proof (listed_gone (sessions m) a s (s <| at_ := Removed |>) Ha Hl eq_refl) as Hg.
  assert (sessions m2 = sessions m /\ session_count m2 = session_count m - 1) as [Es Ec].
  { subst m2. change (session_count m1) with (session_count m). rewrite (proj2 (Z.eqb_neq (session_count m) 0)) by lia. done. }
  rewrite (alter_at a s) by (by rewrite Es). rewrite Es. change (session_count (at_addr a (fun s => s <| at_ := Removed |>) m2)) with (session_count m2). lia.
Qed.

Lemma step_well_counted w w' : step Normal w w' -> ok w -> well_counted w -> well_counted w'.
Proof.
  intros Hst Hok Hw. remember Normal as kd eqn:E. destruct Hst; try discriminate E; try exact Hw.
  - unfold well_counted, number_listed in *. cbn [manager] in *.
    change (session_count (insert_session uuid m)) with (u32 (session_count m + 1)). rewrite u32_small by lia.
    set (s := mk_session (session_id m) (cut uuid) None false false false false CS_NEW 0 false Live).
    change (sessions (insert_session uuid m)) with (<[next_addr m := s]> (sessions m)).
    assert (sessions m !! next_addr m = None) as Hn.
    { destruct (sessions m !! next_addr m) as [s0|] eqn:H1; [|done]. destruct (ok_sessions _ Hok _ _ H1) as [_ Hlt]. cbn in Hlt. lia. }
    rewrite map_filter_insert_True by done. rewrite map_size_insert_None; [lia|]. apply map_lookup_filter_None. by left.
  - destruct (set_ids_counted m a u st m') as [E1 E2]; [by left|]. unfold well_counted in *. cbn in *. congruence.
  - destruct (set_ids_counted m a u st m') as [E1 E2]; [by right|]. unfold well_counted in *. cbn in *. congruence.
  - by eapply alter_counted.
  - eapply alter_counted; [done..|]. unfold tryrdlock in *. by destruct (writer s); simplify_eq.
  - by eapply alter_counted.
  - eapply alter_counted; [done..|]. unfold switch_core_session_rwunlock. by destruct (writer s).
  - eapply alter_counted; [done..|]. by rewrite (live_listed s).
  - eapply alter_counted; [done..|]. unfold listed, release_session. cbn. by rewrite H0.
  - eapply remove_counted; [done..| |done]. unfold listed. by rewrite H0.
  - unfold well_counted, number_listed in *. cbn [manager] in *. change (sessions (free_session a m)) with (delete a (sessions m)).
    change (session_count (free_session a m)) with (session_count m). rewrite map_filter_delete, delete_id; [done|].
    apply map_lookup_filter_None. right. intros s0 Hs0. rewrite H in Hs0. injection Hs0 as <-.
    unfold is_listed, listed. cbn. by rewrite H0.
Qed.

(** ** The sessions in the table *)

(** No two sessions in memory have an id in common. *)
Definition distinct_ids m : Prop :=
  forall a b s t k, sessions m !! a = Some s -> sessions m !! b = Some t -> named k s -> named k t -> a = b.

(** A step after which no id is shared. *)
Definition unshared_step w w' : Prop := normal_step w w' /\ distinct_ids (manager w').

(** The sessions that the table leads to. *)
Definition in_table m : gset Z := map_img (session_table m).

Definition findable m : Prop := forall a s, sessions m !! a = Some s -> listed s = true -> session_table m !! uuid_str s = Some a.

Lemma findable_alter m a s f : findable m -> sessions m !! a = Some s -> uuid_str (f s) = uuid_str s -> listed (f s) = listed s ->
  findable (at_addr a f m).
Proof.
  intros Hf Ha Hu Hl b t. rewrite (alter_at a s f m Ha). destruct (decide (a = b)) as [<-|Hne].
  - rewrite lookup_insert_eq. intros [= <-] H. rewrite Hu. apply Hf; congruence.
  - rewrite lookup_insert_ne by done. apply Hf.
Qed.

(** A session gets other ids, or is taken out of the table: [t'] is the table with
    only entries of its ids removed or added. *)
Lemma findable_ids m m' a s f :
  findable m -> distinct_ids m -> distinct_ids m' -> sessions m !! a = Some s -> sessions m' = <[a := f s]> (sessions m) ->
  (listed (f s) = true -> session_table m' !! uuid_str (f s) = Some a) ->
  (forall k, ~ named k s -> ~ named k (f s) -> session_table m' !! k = session_table m !! k) -> findable m'.
Proof.
  intros Hf Hd Hd' Ha Em Hself Hrest b t. rewrite Em. destruct (decide (a = b)) as [<-|Hne].
  - rewrite lookup_insert_eq. intros [= <-]. exact Hself.
  - rewrite lookup_insert_ne by done. intros Hb Hl. rewrite Hrest; [by apply Hf|..]; intros Hk; apply Hne.
    + by eapply (Hd a b s t); [..|left].
    + eapply (Hd' a b (f s) t (uuid_str t)); [rewrite Em; by rewrite lookup_insert_eq|by rewrite Em, lookup_insert_ne|done|by left].
Qed.

Lemma findable_insert m u : findable m -> distinct_ids (insert_session u m) -> (forall a s, sessions m !! a = Some s -> a < next_addr m) ->
  findable (insert_session u m).
Proof.
  intros Hf Hd Hn b t. set (s := mk_session (session_id m) (cut u) None false false false false CS_NEW 0 false Live).
  change (sessions (insert_session u m)) with (<[next_addr m := s]> (sessions m)).
  change (session_table (insert_session u m)) with (<[cut u := next_addr m]> (session_table m)).
  destruct (decide (next_addr m = b)) as [<-|Hne].
  - rewrite lookup_insert_eq. intros [= <-] _. by rewrite lookup_insert_eq.
  - rewrite lookup_insert_ne by done. intros Hb Hl. rewrite lookup_insert_ne; [by apply Hf|]. intros E. apply Hne.
    eapply (Hd (next_addr m) b s t (cut u)); [apply lookup_insert_eq|by apply lookup_insert_Some; right|by left|by left].
Qed.

Lemma findable_uuid m a u st m' : findable m -> distinct_ids m -> distinct_ids m' -> switch_core_session_set_uuid a u m = Some (st, m') -> findable m'.
Proof.
  intros Hf Hd Hd'. unfold switch_core_session_set_uuid. destruct (sessions m !! a) as [s|] eqn:Ha; [|done]. cbn [mbind option_bind].
  destruct (String.eqb u (uuid_str s)); [by intros [= _ <-]|]. destruct (bool_decide (is_Some (session_table m !! u))); [by intros [= _ <-]|].
  set (m1 := m <| session_table := _ |>). set (m2 := (at_addr a _ m1) <| session_table := _ |>). intros [= _ <-].
  assert (sessions m2 = <[a := s <| uuid_str := cut u |>]> (sessions m)) as Es by (by apply (alter_at a s _ m)).
  assert (session_table m2 = <[cut u := a]> (delete (uuid_str s) (session_table m))) as Et by done.
  apply (findable_ids m m2 a s (fun s => s <| uuid_str := cut u |>)); try done; rewrite Et.
  - intros _. apply lookup_insert_eq.
  - intros k Hk Hk'. rewrite lookup_insert_ne by (intros <-; apply Hk'; by left). apply lookup_delete_ne. intros <-. apply Hk. by left.
Qed.

Lemma findable_external m a u st m' : findable m -> distinct_ids m -> distinct_ids m' ->
  (forall s, sessions m !! a = Some s -> listed s = true) -> switch_core_session_set_external_id a u m = Some (st, m') -> findable m'.
Proof.
  intros Hf Hd Hd' Hl. unfold switch_core_session_set_external_id. destruct (sessions m !! a) as [s|] eqn:Ha; [|done]. cbn [mbind option_bind].
  destruct (bool_decide _); [by intros [= _ <-]|]. destruct (_ && _); [by intros [= _ <-]|].
  set (m1 := match external_id s with Some x => _ | None => m end).
  assert (sessions m1 = sessions m) as Es1 by (subst m1; by repeat case_match).
  assert (forall k, external_id s <> Some k \/ k = uuid_str s -> session_table m1 !! k = session_table m !! k) as Et1.
  { intros k Hk. subst m1. destruct (external_id s) as [x|]; [|done]. destruct (String.eqb_spec x (uuid_str s)) as [|Hx]; [done|].
    apply lookup_delete_ne. intros ->. by destruct Hk. }
  set (f := fun s : switch_core_session => s <| external_id := Some u |>). set (m2 := at_addr a f m1).
  assert (sessions m2 = <[a := f s]> (sessions m)) as Es2 by (unfold m2; rewrite (alter_at a s); by rewrite Es1).
  set (m3 := if String.eqb u (uuid_str s) then m2 else _). intros [= _ <-].
  assert (sessions m3 = sessions m2) as Es3 by (subst m3; by case_match).
  assert (forall k, k <> u \/ k = uuid_str s -> session_table m3 !! k = session_table m1 !! k) as Et3.
  { intros k Hk. subst m3. destruct (String.eqb_spec u (uuid_str s)) as [|Hu]; [done|]. apply lookup_insert_ne. intros <-. by destruct Hk. }
  apply (findable_ids m m3 a s f); try done; [by rewrite Es3|..].
  - intros _. change (uuid_str (f s)) with (uuid_str s). rewrite Et3, Et1 by (by right). by apply Hf; [|apply Hl].
  - intros k Hk Hk'. rewrite Et3, Et1; [done|left|left]; intros E; [apply Hk; by right|apply Hk'; right; cbn; by rewrite E].
Qed.

Lemma findable_remove m a s m' : findable m -> distinct_ids m -> distinct_ids m' -> sessions m !! a = Some s -> remove_session a m = Some m' ->
  findable m'.
Proof.
  intros Hf Hd Hd' Ha. unfold remove_session. rewrite Ha. cbn [mbind option_bind]. set (m1 := m <| session_table := _ |>).
  set (m2 := if session_count m1 =? 0 then _ else _). set (f := fun s : switch_core_session => s <| at_ := Removed |>). intros [= <-].
  assert (sessions m2 = sessions m /\ session_table m2 = without_ids s (session_table m)) as [Es Et] by (subst m2; by case_match).
  apply (findable_ids m _ a s f); try done; [by rewrite (alter_at a s), Es by (by rewrite Es)|].
  intros k Hk _. change (session_table (at_addr a f m2)) with (session_table m2). rewrite Et. unfold without_ids, named in *.
  destruct (external_id s); rewrite ?lookup_delete_ne; naive_solver.
Qed.

Lemma step_findable w w' : step Normal w w' -> ok w -> distinct_ids (manager w) -> distinct_ids (manager w') ->
  findable (manager w) -> findable (manager w').
Proof.
  intros Hst Hok Hd Hd' Hf. remember Normal as kd eqn:E. destruct Hst; try discriminate E; try exact Hf; cbn [manager] in *.
  - apply findable_insert; [done..|]. intros a s Ha. by apply (ok_sessions _ Hok a s).
  - by eapply findable_uuid.
  - eapply findable_external; [done..| |done]. intros s Ha. apply live_listed. by eapply changeable.
  - by eapply findable_alter.
  - eapply findable_alter; [done..| |]; unfold tryrdlock in *; by destruct (writer s); simplify_eq.
  - by eapply findable_alter.
  - eapply findable_alter; [done..| |]; unfold switch_core_session_rwunlock; by destruct (writer s).
  - eapply findable_alter; [done..|]. by rewrite (live_listed s).
  - eapply findable_alter; [done..| |]; unfold listed, release_session, switch_core_session_rwunlock; [by destruct (writer s)|].
    cbn. by rewrite H0.
  - by eapply findable_remove.
  - intros b t. change (sessions (free_session a m)) with (delete a (sessions m)). intros [_ Hb]%lookup_delete_Some. by apply Hf.
Qed.

Lemma findable_counted w : ok w -> findable (manager w) -> number_listed (manager w) = size (in_table (manager w)).
Proof.
  intros Hok Hf. unfold number_listed. rewrite <- (size_dom (D := gset Z)). f_equal. apply set_eq. intros a.
  unfold in_table. rewrite elem_of_dom, elem_of_map_img. split.
  - intros [s [Ha Hl]%map_lookup_filter_Some]. exists (uuid_str s). by apply Hf.
  - intros [k Hk]. destruct (ok_table _ Hok k a Hk) as (s & Ha & _ & Hl). exists s. by apply map_lookup_filter_Some.
Qed.

Lemma run_ok w : rtc normal_step system_start w -> ok w /\ well_counted w.
Proof.
  intros H. remember system_start as w0 eqn:E. assert (ok w0 /\ well_counted w0) as H0.
  { subst. split; [|done]. constructor; cbn; intros *; by rewrite ?lookup_empty || intros ?%elem_of_nil. }
  clear E. induction H as [|w0 w1 w2 Hst _ IH]; [done|]. apply IH. destruct H0 as [Hok Hc]. split; [by eapply step_ok|by eapply step_well_counted].
Qed.

Lemma unshared_run w : rtc unshared_step system_start w -> rtc normal_step system_start w /\ distinct_ids (manager w) /\ findable (manager w).
Proof.
  revert w. apply rtc_ind_r.
  - split; [apply rtc_refl|]. split; [intros a b s t k H|intros a s H]; by destruct (lookup_empty_Some (M := gmap Z) a s).
  - intros w1 w2 _ [Hst Hd'] (Hrun & Hd & Hf). split; [by eapply rtc_r|]. split; [done|]. apply (step_findable w1 w2); try done. by apply run_ok.
Qed.

(** ** What holds in every program *)

(** C12. A session that a thread has located stays in memory, and live, until the
    thread unlocks it.  This is for the executions in which sessions are found with
    switch_core_session_locate and ended by their own threads after
    switch_core_session_run, any number of threads at once; lookups with
    switch_core_session_force_locate and the destruction of sessions that were never
    launched are not among their steps, and can free a session that is held
    ([force_locate_race], [destroy_unlaunched_race]).  In these executions a thread that
    holds a read lock holds it on a session that has not been marked as destroyed and that
    no writer has; a thread that is still inside of the lookup has the address of a session
    that exists; and every entry of the table leads to a session in memory that has
    that unique or external id. *)
Theorem located_session_alive w :
  rtc normal_step system_start w ->
  (forall a, Holding a ∈ threads w ->
     exists s, sessions (manager w) !! a = Some s /\ ssf_destroyed s = false /\ writer s = false /\ 0 < readers s) /\
  (forall a, Found a ∈ threads w \/ Tried a ∈ threads w -> is_Some (sessions (manager w) !! a)) /\
  (forall k a, session_table (manager w) !! k = Some a -> exists s, sessions (manager w) !! a = Some s /\ named k s).
Proof.
  intros [Hok _]%run_ok. split_and!.
  - intros a Hp. destruct (ok_places _ Hok _ Hp) as (s & Ha & Hl). destruct (ok_sessions _ Hok a s Ha) as [[A B C _] _].
    exists s. rewrite B, C, Hl. split_and!; [done..|]. rewrite A. apply list_elem_of_lookup in Hp as [i Hi].
    apply (count_lookup _ _ i _ Hi). cbn. apply Z.eqb_refl.
  - intros a [Hp|Hp]; destruct (ok_places _ Hok _ Hp) as (s & Ha & _); by exists s.
  - intros k a (s & Ha & Hn & _)%(ok_table _ Hok). by exists s.
Qed.

(** C24. The number of sessions, in every execution in which sessions are located with
    switch_core_session_locate, ended by their own threads, and fewer than 2^32: the
    counter is the number of sessions that were created and have not been through the
    removal of switch_core_session_perform_destroy; no session is counted twice and the
    counter never goes below zero.  If moreover no two sessions in memory ever have a
    unique or external id in common, the counter is the number of different sessions that
    the table leads to.  (Ids that are shared take sessions out of the table that are still
    counted: [external_id_removes_other], [request_race].) *)
Theorem session_count_right w :
  rtc normal_step system_start w ->
  session_count (manager w) = Z.of_nat (number_listed (manager w)) /\
  (rtc unshared_step system_start w -> session_count (manager w) = Z.of_nat (size (in_table (manager w)))).
Proof.
  intros [Hok Hc]%run_ok. split; [done|]. intros (_ & _ & Hf)%unshared_run. rewrite <- findable_counted by done. exact Hc.
Qed.

Lemma lock_unlock s : rdunlock (s <| readers := readers s + 1 |>) = s.
Proof. destruct s as [i u x d t r b st n w p]. cbv -[Z.add Z.sub]. f_equal. lia. Qed.

(** The states of a channel that is being torn down. *)
Definition hung_up s : Prop := state s ∈ [CS_HANGUP; CS_REPORTING; CS_DESTROY; CS_NONE].

Lemma refused_spec s : refused s = true <-> ssf_destroyed s = true \/ hung_up s.
Proof.
  unfold refused, channel_down, hung_up. rewrite orb_true_iff.
  enough ((cs CS_HANGUP <=? cs (state s)) = true <-> state s ∈ [CS_HANGUP; CS_REPORTING; CS_DESTROY; CS_NONE]) as -> by done.
  destruct (state s); cbn; (split; intros; [by try done; set_solver|by try done; set_solver]).
Qed.

(** C23. What switch_core_session_perform_locate does when no other thread has the
    mutex, in any state that is reached by locating sessions with it and ending them in
    their own threads: it always returns; it finds exactly the session that the table has
    under the id, unless that is locked by a writer, marked as destroyed, or its channel
    is in CS_HANGUP or a later state; then and only then one reader more is counted, and
    nothing else changes. *)
Theorem locate_spec w u :
  rtc normal_step system_start w ->
  exists r m', switch_core_session_perform_locate (Some u) (manager w) = Some (r, m') /\
    session_table m' = session_table (manager w) /\
    match r with
    | Some a => exists s, session_table (manager w) !! u = Some a /\ sessions (manager w) !! a = Some s /\ named u s /\
        writer s = false /\ ssf_destroyed s = false /\ ~ hung_up s /\
        sessions m' = <[a := s <| readers := readers s + 1 |>]> (sessions (manager w))
    | None => sessions m' = sessions (manager w) /\
        forall a s, session_table (manager w) !! u = Some a -> sessions (manager w) !! a = Some s ->
          writer s = true \/ ssf_destroyed s = true \/ hung_up s
    end.
Proof.
  intros [Hok _]%run_ok. unfold switch_core_session_perform_locate. destruct (session_table (manager w) !! u) as [a|] eqn:Hu.
  2: { eexists _, _. split; [done|]. split; [done|]. split; [done|]. intros ? ? [=]. }
  destruct (ok_table _ Hok u a Hu) as (s & Ha & Hn & _). rewrite Ha. cbn [mbind option_bind]. unfold switch_core_session_read_lock, tryrdlock.
  assert (forall s', sessions (at_addr a (fun _ => s') (manager w)) = <[a := s']> (sessions (manager w))) as Hat by (intros s'; by apply (alter_at a s)).
  destruct (writer s) eqn:Hw.
  - eexists _, _. split; [done|]. split; [done|]. split; [rewrite Hat; by apply insert_id|]. intros ? ? [= <-] H. rewrite Ha in H. injection H as <-. by left.
  - change (refused (s <| readers := readers s + 1 |>)) with (refused s). destruct (refused s) eqn:Hr; (eexists _, _; split; [done|]; split; [done|]).
    + split; [|intros ? ? [= <-] H; rewrite Ha in H; injection H as <-; right; by apply refused_spec]. rewrite Hat. apply insert_id. by rewrite lock_unlock.
    + assert (~ (ssf_destroyed s = true \/ hung_up s)) as Hn' by (rewrite <- refused_spec; congruence).
      exists s. split_and!; try done; [destruct (ssf_destroyed s); tauto|tauto].
Qed.

(** Renaming: after switch_core_session_set_uuid has succeeded with another id of
    at most 256 characters the session is found under the new id and nothing is found
    under the old one. *)
Theorem set_uuid_roundtrip a u s m m' :
  sessions m !! a = Some s -> u <> uuid_str s -> (String.length u <= SWITCH_UUID_FORMATTED_LENGTH)%nat ->
  switch_core_session_set_uuid a u m = Some (SWITCH_STATUS_SUCCESS, m') ->
  session_table m' !! u = Some a /\ session_table m' !! uuid_str s = None /\
  (exists s', sessions m' !! a = Some s' /\ uuid_str s' = u).
Proof.
  intros Ha Hne Hlen. unfold switch_core_session_set_uuid. rewrite Ha. cbn [mbind option_bind].
  destruct (String.eqb_spec u (uuid_str s)); [done|]. destruct (bool_decide _); [done|]. intros [= <-].
  assert (cut u = u) as Hc.
  { unfold cut. revert Hlen. generalize SWITCH_UUID_FORMATTED_LENGTH. clear. induction u as [|c u IH]; intros [|n] Hl; cbn in *; try done; [lia|].
    f_equal. apply IH. lia. }
  rewrite Hc. split_and!.
  - change (<[u := a]> (delete (uuid_str s) (session_table m)) !! u = Some a). by rewrite lookup_insert_eq.
  - change (<[u := a]> (delete (uuid_str s) (session_table m)) !! uuid_str s = None). by rewrite lookup_insert_ne, lookup_delete_eq.
  - exists (s <| uuid_str := u |>). split; [|done]. change (sessions (at_addr a (fun s => s <| uuid_str := u |>) m) !! a = Some (s <| uuid_str := u |>)).
    by rewrite (alter_at a s), lookup_insert_eq.
Qed.

(** ** Launching *)

(** Attempts to launch the thread of a session, and the end of its run. *)
Inductive launch_op := Launch (created : bool) | RunEnds.

Fixpoint launches (ops : list launch_op) s : nat :=
  match ops with
  | [] => 0
  | Launch created :: ops =>
      let '(_, runs, s) := switch_core_session_thread_launch created s in
      ((if runs then 1 else 0) + launches ops s)%nat
  | RunEnds :: ops => launches ops (s <| ssf_thread_running := false |>)
  end.

Lemma launched_never_again ops s : ssf_thread_started s = true -> launches ops s = 0%nat.
Proof.
  revert s. induction ops as [|[created|] ops IH]; intros s Hs; cbn [launches]; [done| |by apply IH].
  unfold switch_core_session_thread_launch, launched. rewrite Hs, orb_true_r. cbn [Nat.add]. by apply IH.
Qed.

(** The thread of a session is launched at most once, whatever the threads are that
    try, and if one attempt fails another one can succeed. *)
Theorem launched_once ops s : (launches ops s <= 1)%nat.
Proof.
  revert s. induction ops as [|[created|] ops IH]; intros s; cbn [launches]; [lia| |apply IH].
  unfold switch_core_session_thread_launch, launch_locked. destruct (launched s); [apply IH|].
  destruct created; [|apply IH]. rewrite launched_never_again by done. lia.
Qed.

(** ** Findings *)

Definition any_step w w' : Prop := exists k, step k w w'.

#[local] Notation m_one := (insert_session "u" switch_core_session_init).
#[local] Notation s_one := (mk_session 1 "u" None false false false false CS_NEW 0 false Live).

Lemma reach_one : step Normal system_start (mk_system m_one []).
Proof. apply step_insert; [constructor|reflexivity]. Qed.

(** switch_core_session_perform_force_locate tests SSF_DESTROYED before it takes the
    lock.  The session's thread can take and release the write lock in between, which
    nobody waits for any more: the read lock is granted, and the session is freed while
    the caller has it. *)
Theorem force_locate_race : exists w, rtc any_step system_start w /\ Holding 0 ∈ threads w /\ sessions (manager w) !! 0 = None.
Proof.
  eexists. split.
  - eapply rtc_l; [exists Normal; apply reach_one|].
    eapply rtc_l; [exists Forcing; apply (step_force m_one [] "u" 0 s_one); [constructor|reflexivity..]|].
    eapply rtc_l; [exists Normal; apply (step_mark _ _ 0 s_one); reflexivity|].
    eapply rtc_l; [exists Normal; apply (step_release _ _ 0 (mark_destroyed s_one)); reflexivity|].
    eapply rtc_l; [exists Forcing; apply (step_forced _ [] [] 0 (release_session (mark_destroyed s_one))
      (release_session (mark_destroyed s_one) <| readers := 1 |>)); reflexivity|].
    eapply rtc_l; [exists Normal; eapply (step_remove _ _ 0); [reflexivity|reflexivity|by constructor|reflexivity]|].
    eapply rtc_l; [exists Normal; eapply (step_free _ _ 0); reflexivity|]. apply rtc_refl.
  - split; [left|reflexivity].
Qed.

(** switch_core_session_perform_destroy takes no lock itself.  A session that was
    never started is in the table from its creation on; if its creator destroys it, a
    thread that has located it is left with freed memory. *)
Theorem destroy_unlaunched_race : exists w, rtc any_step system_start w /\ Holding 0 ∈ threads w /\ sessions (manager w) !! 0 = None.
Proof.
  eexists. split.
  - eapply rtc_l; [exists Normal; apply reach_one|].
    eapply rtc_l; [exists Normal; apply (step_find m_one [] "u" 0); [constructor|reflexivity]|].
    eapply rtc_l; [exists Normal; apply (step_try _ [] [] 0 s_one (s_one <| readers := 1 |>)); reflexivity|].
    eapply rtc_l; [exists Normal; apply (step_located _ [] [] 0 (s_one <| readers := 1 |>)); reflexivity|].
    eapply rtc_l; [exists Unlaunched; eapply (step_destroy _ _ 0 (s_one <| readers := 1 |>)); [reflexivity..|by constructor|reflexivity]|].
    eapply rtc_l; [exists Normal; eapply (step_free _ _ 0); reflexivity|]. apply rtc_refl.
  - split; [left|reflexivity].
Qed.

#[local] Notation reused_id :=
  (m ← snd <$> switch_core_session_set_external_id 0 "u" m_one; m ← snd <$> switch_core_session_set_uuid 0 "v" m;
   remove_session 0 (insert_session "u" m)).

Definition reused_end : switch_session_manager := Eval vm_compute in default switch_core_session_init reused_id.

(** A session keeps an external id that was its unique id when it gets another
    unique id.  A new session may take that id; when the first one ends, it deletes the
    table entry of the second, which cannot be found any more. *)
Theorem external_id_removes_other :
  reused_id = Some reused_end /\
  (uuid_str <$> sessions reused_end !! 1) = Some "u" /\ (at_ <$> sessions reused_end !! 1) = Some Live /\ session_table reused_end !! "u" = None.
Proof. split_and!; vm_compute; reflexivity. Qed.

Definition busy_request : request_env := mk_request true true true true true true false 10.

#[local] Notation limit_one := ((switch_core_session_limit 1 switch_core_session_init).2).

(** Two requests that were both allowed. *)
Definition twice : switch_session_manager := Eval vm_compute in insert_session "u" (insert_session "u" limit_one).

(** switch_core_session_request_uuid looks for a duplicate and tests the limit before
    it takes the mutex: two requests at the same time can both be allowed.  With the same
    id the second session replaces the first one in the table, and when the first one ends
    it takes out the second one; with a limit of one, two sessions exist. *)
Theorem request_race :
  request_allowed busy_request (Some "u") limit_one = true /\ insert_session "u" (insert_session "u" limit_one) = twice /\
  session_table twice !! "u" = Some 1 /\ session_count twice = 2 /\ session_limit twice = 1 /\
  (m ← remove_session 0 twice; sessions m !! 1) = sessions twice !! 1 /\ (m ← remove_session 0 twice; session_table m !! "u") = None.
Proof. split_and!; vm_compute; reflexivity. Qed.

(** ** Witnesses *)

Definition holding_system : system := mk_system (at_addr 0 (fun _ => s_one <| readers := 1 |>) m_one) [Holding 0].

Lemma reach_holding : rtc normal_step system_start holding_system.
Proof.
  eapply rtc_l; [apply reach_one|]. eapply rtc_l; [apply (step_find m_one [] "u" 0); [constructor|reflexivity]|].
  eapply rtc_l; [apply (step_try _ [] [] 0 s_one (s_one <| readers := 1 |>)); reflexivity|].
  eapply rtc_l; [apply (step_located _ [] [] 0 (s_one <| readers := 1 |>)); reflexivity|]. apply rtc_refl.
Qed.

Lemma located_session_alive_witness : exists s, sessions (manager holding_system) !! 0 = Some s /\ 0 < readers s.
Proof.
  destruct (located_session_alive holding_system reach_holding) as (H & _). destruct (H 0) as (s & ? & _ & _ & ?); [left|].
  exists s. by split.
Defined.

Lemma one_distinct m s : sessions m = {[0 := s]} -> distinct_ids m.
Proof. intros E a b s1 s2 k Ha Hb _ _. rewrite E in Ha, Hb. apply lookup_singleton_Some in Ha as [<- _], Hb as [<- _]. done. Qed.

Lemma reach_holding_unshared : rtc unshared_step system_start holding_system.
Proof.
  eapply rtc_l; [split; [apply reach_one|by apply (one_distinct _ s_one)]|].
  eapply rtc_l; [split; [apply (step_find m_one [] "u" 0); [constructor|reflexivity]|by apply (one_distinct _ s_one)]|].
  eapply rtc_l; [split; [apply (step_try _ [] [] 0 s_one (s_one <| readers := 1 |>)); reflexivity|by apply (one_distinct _ (s_one <| readers := 1 |>))]|].
  eapply rtc_l; [split; [apply (step_located _ [] [] 0 (s_one <| readers := 1 |>)); reflexivity|by apply (one_distinct _ (s_one <| readers := 1 |>))]|].
  apply rtc_refl.
Qed.

Lemma session_count_right_witness : number_listed (manager holding_system) = 1%nat /\ size (in_table (manager holding_system)) = 1%nat.
Proof.
  destruct (session_count_right holding_system reach_holding) as [H1 H2]. specialize (H2 reach_holding_unshared).
  change (session_count (manager holding_system)) with 1 in H1, H2. lia.
Defined.

Lemma locate_spec_witness :
  exists r m', switch_core_session_perform_locate (Some "u") (manager holding_system) = Some (r, m') /\ r = Some 0.
Proof.
  destruct (locate_spec holding_system "u" reach_holding) as (r & m' & E & _). exists r, m'. split; [exact E|].
  vm_compute in E. by injection E as <- _.
Defined.

Lemma set_uuid_roundtrip_witness :
  exists m', switch_core_session_set_uuid 0 "v" m_one = Some (SWITCH_STATUS_SUCCESS, m') /\ session_table m' !! "v" = Some 0.
Proof.
  eexists. split; [reflexivity|]. refine (proj1 (set_uuid_roundtrip 0 "v" s_one m_one _ _ _ _ eq_refl)).
  - reflexivity.
  - discriminate.
  - cbn. unfold SWITCH_UUID_FORMATTED_LENGTH. lia.
Defined.

End SessionTheorems.
