(* ===== verification/ThreadPool.v ===== *)
(** * The thread pool (src/src/switch_core_session.c)

    Sessions and other work are run by worker threads that take their tasks from
    one queue.  switch_thread_pool_launch_thread and
    switch_core_session_thread_pool_launch push a task and call check_queue, which
    starts another worker if there are more tasks than workers; a worker that finds
    no task for five seconds ends if there are more workers than tasks.  A task may
    last as long as a call, so a task must never have to wait for another one to end.

    A thread is in one of the places of [place]; the code between a lock and an
    unlock of session_manager.mutex is one step.  The queue is the one of Queue.v, a
    bounded FIFO; taking from it may time out at any moment.  Starting a thread may
    fail.  Termination of the queue at shutdown is left out. *)

From S2P Require Import Prelude.

#[local] Open Scope Z_scope.

Module ThreadPool.

(** switch_thread_data_t; a task of a session is allocated in the session. *)
Record switch_thread_data := mk_td { td_addr : Z; of_session : bool; has_pool : bool; alloc : bool }.

#[export] Instance td_eq_dec : EqDecision switch_thread_data.
Proof. solve_decision. Defined.

Inductive place :=
  | Checking                          (* a task is pushed, check_queue is to be called *)
  | Creating                          (* check_queue is to create a thread *)
  | Failing                           (* ... and could not *)
  | Popping                           (* a worker at the queue *)
  | TimedOut                          (* a worker that has found no task *)
  | Working (td : switch_thread_data)
  | Returned (td : switch_thread_data)
  | Done.                             (* a worker that is to decrement busy *)

Record manager := mk_manager {
  thread_queue : list switch_thread_data;
  running : Z;
  busy : Z;
  threads : list place;
  failures : Z;                       (* threads that could not be created *)
  memory : gset Z;                    (* the tasks that are allocated *)
  stale : bool;                       (* a task was used after it was freed *)
}.

#[export] Instance rebuild_manager : Rebuild manager := fun s =>
  mk_manager (thread_queue s) (running s) (busy s) (threads s) (failures s) (memory s) (stale s).
#[export] Instance set_thread_queue : Setter thread_queue := ltac:(derive_setter).
#[export] Instance set_running : Setter running := ltac:(derive_setter).
#[export] Instance set_busy : Setter busy := ltac:(derive_setter).
#[export] Instance set_threads : Setter threads := ltac:(derive_setter).
#[export] Instance set_failures : Setter failures := ltac:(derive_setter).
#[export] Instance set_memory : Setter memory := ltac:(derive_setter).
#[export] Instance set_stale : Setter stale := ltac:(derive_setter).

Implicit Types (s : manager) (td : switch_thread_data) (p : place) (ts : list place).

Definition thread_queue_size : Z := 100000.

(** switch_core_session_init. *)
Definition start : manager := mk_manager [] 0 0 [] 0 ∅ false.

(** ** The code under the mutex *)

(** check_queue: whether a thread is to be created. *)
Definition check_queue s : bool * manager :=
  let s := s <| busy := busy s + 1 |> in
  if running s >=? busy s then (false, s) else (true, s <| running := running s + 1 |>).

Definition thread_gone s : manager := s <| running := running s - 1 |>.

(** A worker that has timed out: whether it ends. *)
Definition worker_timeout s : bool * manager :=
  if running s >? busy s then (true, thread_gone s) else (false, s).

Definition worker_done s : manager := s <| busy := busy s - 1 |>.

(** The end of a task's function: the last thing a session does is to destroy its
    pool. *)
Definition func_returns td s : manager := if of_session td then s <| memory := memory s ∖ {[td_addr td]} |> else s.

(** td->running = 0 and the release of the task. *)
Definition release td s : manager :=
  let s := if bool_decide (td_addr td ∈ memory s) then s else s <| stale := true |> in
  if has_pool td || alloc td then s <| memory := memory s ∖ {[td_addr td]} |> else s.

(** ** Steps *)

Definition push td s : manager :=
  s <| thread_queue := thread_queue s ++ [td] |> <| threads := Checking :: threads s |> <| memory := {[td_addr td]} ∪ memory s |>.


Definition move s ts : manager := s <| threads := ts |>.

(** Who takes a step: a thread that gives a task to the pool, one that is between
    check_queue and the end of thread creation, a worker, a task that ends, or the
    system, which refuses a thread. *)
Inductive actor := Client | Producer | Worker | Task | System.

Inductive step : actor -> manager -> manager -> Prop :=
  | step_push s td : Z.of_nat (length (thread_queue s)) < thread_queue_size -> td_addr td ∉ memory s ->
      step Client s (push td s)
  | step_check s ts1 ts2 create s' : threads s = ts1 ++ Checking :: ts2 -> check_queue s = (create, s') ->
      step Producer s (move s' (ts1 ++ (if create then [Creating] else []) ++ ts2))
  | step_create s ts1 ts2 : threads s = ts1 ++ Creating :: ts2 -> step Producer s (move s (ts1 ++ Popping :: ts2))
  | step_create_fails s ts1 ts2 : threads s = ts1 ++ Creating :: ts2 -> step System s (move s (ts1 ++ Failing :: ts2))
  | step_failed s ts1 ts2 : threads s = ts1 ++ Failing :: ts2 ->
      step Producer s (move (thread_gone s <| failures := failures s + 1 |>) (ts1 ++ ts2))
  | step_pop s ts1 ts2 td q : threads s = ts1 ++ Popping :: ts2 -> thread_queue s = td :: q ->
      step Worker s (move (s <| thread_queue := q |>) (ts1 ++ Working td :: ts2))
  | step_timeout s ts1 ts2 : threads s = ts1 ++ Popping :: ts2 -> step Worker s (move s (ts1 ++ TimedOut :: ts2))
  | step_timed_out s ts1 ts2 ends s' : threads s = ts1 ++ TimedOut :: ts2 -> worker_timeout s = (ends, s') ->
      step Worker s (move s' (ts1 ++ (if ends then [] else [Popping]) ++ ts2))
  | step_return s ts1 ts2 td : threads s = ts1 ++ Working td :: ts2 -> step Task s (move (func_returns td s) (ts1 ++ Returned td :: ts2))
  | step_release s ts1 ts2 td : threads s = ts1 ++ Returned td :: ts2 -> step Task s (move (release td s) (ts1 ++ Done :: ts2))
  | step_done s ts1 ts2 : threads s = ts1 ++ Done :: ts2 -> step Task s (move (worker_done s) (ts1 ++ Popping :: ts2)).

Definition any_step s s' : Prop := exists a, step a s s'.

(** Steps of the pool alone: no task is given to it and none ends. *)
Definition pool_step s s' : Prop := step Producer s s' \/ step Worker s s'.

Definition reachable s : Prop := rtc any_step start s.

(** ** Counting threads *)

Definition is_checking p : bool := match p with Checking => true | _ => false end.
Definition is_idle p : bool := match p with Creating | Failing | Popping | TimedOut => true | _ => false end.
Definition is_busy p : bool := match p with Working _ | Returned _ | Done => true | _ => false end.

(** What the counters mean: [running] counts the threads that are workers or about
    to be, [busy] the tasks that are queued or run, but for those whose producer has not
    yet called check_queue; and there are enough workers but for the ones that could
    not be created. *)
Record counted s : Prop := {
  counted_running : running s = count is_idle (threads s) + count is_busy (threads s);
  counted_busy : busy s = Z.of_nat (length (thread_queue s)) + count is_busy (threads s) - count is_checking (threads s);
  counted_enough : busy s <= running s + failures s;
  counted_failures : 0 <= failures s;
}.

Ltac counting :=
  rewrite ?count_app, ?count_cons, ?length_app in *; cbn [app is_idle is_busy is_checking Z.b2z length] in *; rewrite ?count_cons in *;
  cbn [is_idle is_busy is_checking Z.b2z] in *; lia.

Lemma step_counted a s s' : step a s s' -> counted s -> counted s'.
Proof.
  intros Hst [A B C D]. destruct Hst as [s td Hroom _|s ts1 ts2 create s' Ht Hc|s ts1 ts2 Ht|s ts1 ts2 Ht|s ts1 ts2 Ht|s ts1 ts2 td q Ht Hq
    |s ts1 ts2 Ht|s ts1 ts2 ends s' Ht Hw|s ts1 ts2 td Ht|s ts1 ts2 td Ht|s ts1 ts2 Ht]; try rewrite Ht in *.
  - constructor; cbn; counting.
  - unfold check_queue in Hc. cbn in Hc. destruct (Z.geb_spec (running s) (busy s + 1)); injection Hc as <- <-; constructor; cbn; counting.
  - constructor; cbn; counting.
  - constructor; cbn; counting.
  - constructor; cbn; counting.
  - rewrite Hq in *. constructor; cbn; counting.
  - constructor; cbn; counting.
  - unfold worker_timeout in Hw. destruct (Z.gtb_spec (running s) (busy s)); injection Hw as <- <-; constructor; cbn; counting.
  - unfold func_returns. destruct (of_session td); constructor; cbn; counting.
  - unfold release. destruct (bool_decide _), (_ || _); constructor; cbn; counting.
  - constructor; cbn; counting.
Qed.

Lemma reachable_counted s : reachable s -> counted s.
Proof.
  intros H. unfold reachable in H. remember start as s0 eqn:E. assert (counted s0) as H0 by (subst; by constructor).
  clear E. induction H as [|s0 s1 s2 [a Hst] _ IH]; [done|]. apply IH. by apply (step_counted a s0).
Qed.

(** ** Every task gets a worker *)

Definition no_failure s : Prop := failures s = 0 /\ Failing ∉ threads s.

(** How far the threads of the pool are from the queue. *)
Definition distance p : nat := match p with Checking => 4 | Creating => 3 | TimedOut => 2 | _ => 0 end%nat.

Fixpoint distances ts : nat := match ts with [] => 0 | p :: ts => distance p + distances ts end%nat.

Lemma distances_app ts ts' : distances (ts ++ ts') = (distances ts + distances ts')%nat.
Proof. induction ts as [|p ts IH]; cbn; lia. Qed.

Lemma waiting_thread s td q : counted s -> no_failure s -> thread_queue s = td :: q ->
  exists ts1 p ts2, threads s = ts1 ++ p :: ts2 /\ (p = Popping \/ distance p <> 0%nat).
Proof.
  intros [A B C D] [Hf Hn] Hq. rewrite Hq in B. cbn [length] in B.
  assert (0 < count (fun p => is_idle p || is_checking p) (threads s)) as H.
  { enough (count (fun p => is_idle p || is_checking p) (threads s) = count is_idle (threads s) + count is_checking (threads s)) by lia.
    generalize (threads s). intros ts. induction ts as [|p ts IH]; [done|]. rewrite !count_cons, IH. destruct p; cbn; lia. }
  destruct (list_find (fun p => is_idle p || is_checking p = true) (threads s)) as [[i p]|] eqn:E.
  - apply list_find_Some in E as (Hi & Hp & _). destruct (list_elem_of_split_length (threads s) i p Hi) as (ts1 & ts2 & Ht & _).
    exists ts1, p, ts2. split; [done|]. destruct p; cbn in *; try done; auto. exfalso. apply Hn. rewrite Ht. set_solver.
  - apply list_find_None in E. rewrite count_zero in H; [lia|]. eapply Forall_impl; [exact E|]. intros p Hp. by apply not_true_is_false.
Qed.

Lemma nearer s td q : counted s -> no_failure s -> thread_queue s = td :: q ->
  (exists s', pool_step s s' /\ Working td ∈ threads s') \/
  (exists s', pool_step s s' /\ no_failure s' /\ thread_queue s' = td :: q /\ (distances (threads s') < distances (threads s))%nat).
Proof.
  intros Hc Hf Hq. destruct (waiting_thread s td q Hc Hf Hq) as (ts1 & p & ts2 & Ht & Hp). destruct Hf as [Hf Hn]. rewrite Ht in Hn.
  destruct p; cbn in Hp; try by destruct Hp.
  - right. destruct (check_queue s) as [create s1] eqn:E. eexists. split; [left; by eapply step_check|].
    unfold check_queue in E. cbn in E. destruct (_ >=? _); injection E as <- <-; (split; [split; [done|cbn; set_solver]|split; [done|]]);
      cbn; rewrite Ht, !distances_app; cbn; lia.
  - right. eexists. split; [left; by eapply step_create|]. split; [split; [done|cbn; set_solver]|]. split; [done|].
    cbn. rewrite Ht, !distances_app. cbn. lia.
  - left. eexists. split; [right; by eapply step_pop|]. cbn. set_solver.
  - right. destruct (worker_timeout s) as [ends s1] eqn:E. eexists. split; [right; by eapply step_timed_out|].
    unfold worker_timeout in E. destruct (_ >? _); injection E as <- <-; (split; [split; [done|cbn; set_solver]|split; [done|]]);
      cbn; rewrite Ht, !distances_app; cbn; lia.
Qed.

Lemma pool_step_counted s s' : pool_step s s' -> counted s -> counted s'.
Proof. by intros [H|H]; eapply step_counted. Qed.

Lemma task_starts n s td q : (distances (threads s) < n)%nat -> counted s -> no_failure s -> thread_queue s = td :: q ->
  exists s', rtc pool_step s s' /\ Working td ∈ threads s'.
Proof.
  revert s. induction n as [|n IH]; intros s Hd Hc Hf Hq; [lia|].
  destruct (nearer s td q Hc Hf Hq) as [(s1 & Hs & Hw)|(s1 & Hs & Hf1 & Hq1 & Hd1)].
  - exists s1. split; [by apply rtc_once|done].
  - destruct (IH s1) as (s2 & Hr & Hw); [lia|by eapply pool_step_counted|done|done|]. exists s2. split; [by eapply rtc_l|done].
Qed.

(** C22. A queued task does not have to wait for another one to end: in every
    reachable state of the pool in which no thread could not be created, the first
    task of the queue is started by steps of the pool alone, of threads that check the
    queue, are created, time out or pop, while no running task ends. *)
Theorem queued_task_starts s td q :
  reachable s -> no_failure s -> thread_queue s = td :: q -> exists s', rtc pool_step s s' /\ Working td ∈ threads s'.
Proof. intros Hr. eapply task_starts; [apply Nat.lt_succ_diag_r|by apply reachable_counted]. Qed.

(** The counters of the pool mean what their names say, for any interleaving:
    running is the number of threads that are workers or about to be, busy the number of
    tasks that are queued or run, less the ones that are just being added; and there
    are at least as many idle workers as queued tasks, but for the tasks just being
    added and one for every thread that could not be created. *)
Theorem pool_counters s :
  reachable s ->
  running s = count is_idle (threads s) + count is_busy (threads s) /\
  busy s = Z.of_nat (length (thread_queue s)) + count is_busy (threads s) - count is_checking (threads s) /\
  Z.of_nat (length (thread_queue s)) <= count is_idle (threads s) + count is_checking (threads s) + failures s.
Proof. intros [A B C D]%reachable_counted. split_and!; [done..|lia]. Qed.

(** ** The memory of tasks *)

Definition task_of p : option Z := match p with Working td | Returned td => Some (td_addr td) | _ => None end.

Definition held s : list Z := (td_addr <$> thread_queue s) ++ omap task_of (threads s).

(** A task that is not of a session and is released by the worker. *)
Definition owned td : Prop := of_session td = false.

Definition place_owned p : Prop := match p with Working td | Returned td => owned td | _ => True end.

Record intact s : Prop := {
  intact_held : NoDup (held s);
  intact_memory a : a ∈ held s -> a ∈ memory s;
  intact_stale : stale s = false;
  intact_queue : Forall owned (thread_queue s);
  intact_threads : Forall place_owned (threads s);
}.

(** Steps that give only such tasks to the pool. *)
Definition plain_step s s' : Prop := exists a, step a s s' /\ Forall owned (thread_queue s').

Lemma held_at s ts1 p ts2 : threads s = ts1 ++ p :: ts2 -> held s ≡ₚ option_list (task_of p) ++ (td_addr <$> thread_queue s) ++ omap task_of (ts1 ++ ts2).
Proof.
  intros Ht. unfold held. rewrite Ht, !omap_app. cbn. destruct (task_of p); cbn; [|done].
  rewrite <- !Permutation_middle. done.
Qed.

Lemma intact_same s s' : intact s -> held s' ≡ₚ held s -> memory s' = memory s -> stale s' = stale s ->
  Forall owned (thread_queue s') -> Forall place_owned (threads s') -> intact s'.
Proof.
  intros [A B C D E] Hh Hm Hs Hq Ht. constructor; [by rewrite Hh| |congruence|done|done].
  intros a. rewrite Hh, Hm. apply B.
Qed.

(** One thread changes its place and keeps its task. *)
Lemma intact_move s s' ts1 p mid ts2 : intact s -> threads s = ts1 ++ p :: ts2 -> option_list (task_of p) = omap task_of mid ->
  (place_owned p -> Forall place_owned mid) -> thread_queue s' = thread_queue s -> memory s' = memory s -> stale s' = stale s ->
  intact (move s' (ts1 ++ mid ++ ts2)).
Proof.
  intros HI Ht Hp Hm Hq Hmem Hst. pose proof (intact_threads _ HI) as HF. rewrite Ht in HF.
  apply Forall_app in HF as [H1 H2]. apply Forall_cons in H2 as [Hpo H2]. apply (intact_same s); [done| |done|done|..].
  - rewrite (held_at s _ _ _ Ht), Hp. unfold held. cbn. rewrite Hq, !omap_app.
    symmetry. by rewrite Permutation_app_swap_app, (Permutation_app_swap_app (omap task_of mid)).
  - cbn. rewrite Hq. apply (intact_queue _ HI).
  - cbn. rewrite !Forall_app. auto.
Qed.

Ltac moved HI Ht :=
  match goal with |- intact (move _ (?ts1 ++ ?p :: ?ts2)) => change (p :: ts2) with ([p] ++ ts2) | |- intact (move _ (?ts1 ++ ?ts2)) => try change ts2 with ([] ++ ts2) | _ => idtac end;
  eapply (intact_move _ _ _ _ _ _ HI Ht); [done|cbn; by repeat constructor|done..].

Lemma step_intact s s' : plain_step s s' -> intact s -> intact s'.
Proof.
  intros (a & Hst & Hq') HI. destruct Hst as [s td Hroom Hm|s ts1 ts2 create s' Ht Hc|s ts1 ts2 Ht|s ts1 ts2 Ht|s ts1 ts2 Ht|s ts1 ts2 td q Ht Hq
    |s ts1 ts2 Ht|s ts1 ts2 ends s' Ht Hw|s ts1 ts2 td Ht|s ts1 ts2 td Ht|s ts1 ts2 Ht].
  - destruct HI as [A B C D E]. assert (held (push td s) ≡ₚ td_addr td :: held s) as Hh.
    { unfold held. cbn. rewrite fmap_app. cbn. rewrite <- (assoc_L (++)). cbn. by rewrite <- Permutation_middle. }
    constructor; [rewrite Hh; apply NoDup_cons; split; [intros ?%B; done|done]| |done|done|by constructor].
    intros b. rewrite Hh, elem_of_cons. cbn. intros [->|?%B]; set_solver.
  - unfold check_queue in Hc. cbn in Hc. destruct (_ >=? _); injection Hc as <- <-; moved HI Ht.
  - moved HI Ht.
  - moved HI Ht.
  - moved HI Ht.
  - pose proof (intact_queue _ HI) as HQ. rewrite Hq in HQ. apply Forall_cons in HQ as [Ho HQ]. pose proof (intact_threads _ HI) as HF.
    rewrite Ht in HF. apply Forall_app in HF as [H1 H2]. apply Forall_cons in H2 as [_ H2]. apply (intact_same s); [done| |done|done|done|].
    + rewrite (held_at s _ _ _ Ht), Hq. unfold held. cbn. rewrite !omap_app. cbn. by rewrite !(assoc_L (++)), <- Permutation_middle.
    + cbn. apply Forall_app. split; [done|]. by constructor.
  - moved HI Ht.
  - unfold worker_timeout in Hw. destruct (_ >? _); injection Hw as <- <-; moved HI Ht.
  - assert (owned td) as Ho. { pose proof (intact_threads _ HI) as HF. rewrite Ht in HF. by apply Forall_app in HF as [_ [? _]%Forall_cons]. }
    unfold func_returns. rewrite Ho. moved HI Ht.
  - pose proof (intact_threads _ HI) as HF. rewrite Ht in HF. apply Forall_app in HF as [H1 [_ H2]%Forall_cons].
    pose proof (held_at s _ _ _ Ht) as Hh. cbn in Hh. pose proof (intact_held _ HI) as HN. rewrite Hh in HN. apply NoDup_cons in HN as [Hnin HN].
    pose proof (intact_memory _ HI (td_addr td)) as Hm. rewrite Hh in Hm. specialize (Hm ltac:(left)). unfold release.
    rewrite bool_decide_true by done. set (s1 := if _ || _ then _ else _).
    assert (thread_queue s1 = thread_queue s /\ stale s1 = stale s) as [Eq Es] by (subst s1; by case_match).
    assert (forall b, b ∈ memory s -> b <> td_addr td -> b ∈ memory s1) as Em by (subst s1; case_match; cbn; set_solver).
    assert (held (move s1 (ts1 ++ Done :: ts2)) = (td_addr <$> thread_queue s) ++ omap task_of (ts1 ++ ts2)) as Hh'.
    { unfold held. cbn. by rewrite Eq, !omap_app. }
    constructor.
    + by rewrite Hh'.
    + intros b. rewrite Hh'. cbn. intros Hb. apply Em; [|by intros ->]. apply (intact_memory _ HI). rewrite Hh. by right.
    + cbn. rewrite Es. apply (intact_stale _ HI).
    + cbn. rewrite Eq. apply (intact_queue _ HI).
    + cbn. apply Forall_app. split; [done|]. by constructor.
  - moved HI Ht.
Qed.

(** As long as only tasks that are not of a session are given to the pool, no task
    is used after it was freed and no two workers have the same one. *)
Theorem plain_tasks_intact s : rtc plain_step start s -> stale s = false /\ NoDup (held s) /\ forall a, a ∈ held s -> a ∈ memory s.
Proof.
  intros H. assert (intact s) as [A B C _ _]; [|done]. remember start as s0 eqn:E.
  assert (intact s0) as H0 by (subst; constructor; [constructor|intros a Ha; by apply elem_of_nil in Ha|done|constructor|constructor]).
  clear E. induction H as [|s0 s1 s2 Hst _ IH]; [done|]. apply IH. by apply (step_intact s0).
Qed.

(** ** Findings *)

#[local] Notation call_1 := (mk_td 1 true false false).
#[local] Notation call_2 := (mk_td 2 true false false).
#[local] Notation both_calls := ({[td_addr call_2]} ∪ {[td_addr call_1]}).
#[local] Notation one_call := (mk_manager [] 1 1 [Working call_1] 0 {[td_addr call_1]} false).

Lemma reach_step a s s' : reachable s -> step a s s' -> reachable s'.
Proof. intros H Hs. eapply rtc_r; [exact H|]. by exists a. Qed.

(** One worker that runs a task. *)
Lemma reach_working td : reachable (mk_manager [] 1 1 [Working td] 0 {[td_addr td]} false).
Proof.
  assert (reachable (mk_manager [td] 0 0 [Checking] 0 ({[td_addr td]} ∪ ∅) false)) as H1.
  { apply (reach_step Client start); [apply rtc_refl|]. apply (step_push start td); [done|set_solver]. }
  rewrite union_empty_r_L in H1.
  apply (reach_step Producer _ (mk_manager [td] 1 1 [Creating] 0 {[td_addr td]} false)) in H1; 
    [|by refine (step_check _ [] [] true (mk_manager [td] 1 1 [Checking] 0 {[td_addr td]} false) _ _)].
  apply (reach_step Producer _ (mk_manager [td] 1 1 [Popping] 0 {[td_addr td]} false)) in H1; 
    [|by refine (step_create _ [] [] _)].
  apply (reach_step Worker _ (mk_manager [] 1 1 [Working td] 0 {[td_addr td]} false)) in H1; 
    [done|by refine (step_pop _ [] [] td [] _ _)].
Qed.

(** When a thread cannot be created, check_queue takes back its count of threads but
    not the task, which stays in the queue; the session that it belongs to does not
    start before another call ends, although it was launched with success. *)
Theorem stranded_task : exists s td,
  reachable s /\ thread_queue s = [td] /\ failures s = 1 /\ running s < busy s /\
  forall a s', step a s s' -> a = Client \/ a = Task.
Proof.
  exists (mk_manager [call_2] 1 2 [Working call_1] 1 both_calls false), call_2. split_and!; [|done..|].
  - pose proof (reach_working call_1) as H.
    apply (reach_step Client _ (mk_manager [call_2] 1 1 [Checking; Working call_1] 0 both_calls false)) in H;
      [|change (step Client one_call (push call_2 one_call)); apply step_push; [done|cbn; set_solver]].
    apply (reach_step Producer _ (mk_manager [call_2] 2 2 [Creating; Working call_1] 0 both_calls false)) in H;
      [|by refine (step_check _ [] _ true (mk_manager [call_2] 2 2 [Checking; Working call_1] 0 both_calls false) _ _)].
    apply (reach_step System _ (mk_manager [call_2] 2 2 [Failing; Working call_1] 0 both_calls false)) in H;
      [|by refine (step_create_fails _ [] _ _)].
    apply (reach_step Producer _ (mk_manager [call_2] 1 2 [Working call_1] 1 both_calls false)) in H; 
      [done|by refine (step_failed _ [] _ _)].
  - intros a s' H. inversion H as [| ? ? ? ? ? Ht | ? ? ? Ht | ? ? ? Ht | ? ? ? Ht | ? ? ? ? ? Ht | ? ? ? Ht | ? ? ? ? ? Ht | | |]; subst; auto;
      cbn in Ht; exfalso; apply (list_elem_of_singleton (Working call_1)) in Ht || (destruct ts1 as [|? [|]]; done).
Qed.

(** The task of a session is allocated in the session's pool, which is destroyed at
    the end of its function; the worker then writes and reads the task. *)
Theorem session_task_stale : exists s, reachable s /\ stale s = true.
Proof.
  exists (mk_manager [] 1 1 [Done] 0 ({[td_addr call_1]} ∖ {[td_addr call_1]}) true). split; [|done]. pose proof (reach_working call_1) as H.
  apply (reach_step Task _ (mk_manager [] 1 1 [Returned call_1] 0 ({[td_addr call_1]} ∖ {[td_addr call_1]}) false)) in H; 
    [|by refine (step_return _ [] [] call_1 _)].
  apply (reach_step Task _ (mk_manager [] 1 1 [Done] 0 ({[td_addr call_1]} ∖ {[td_addr call_1]}) true)) in H; [done|].
  change (mk_manager [] 1 1 [Done] 0 ({[td_addr call_1]} ∖ {[td_addr call_1]}) true) with
    (move (release call_1 (mk_manager [] 1 1 [Returned call_1] 0 ({[td_addr call_1]} ∖ {[td_addr call_1]}) false)) [Done]).
  by refine (step_release _ [] [] call_1 _).
Qed.

(** ** Witnesses *)

Lemma queued_task_starts_witness :
  let s := mk_manager [call_2] 1 1 [Checking; Working call_1] 0 both_calls false in
  reachable s /\ exists s', rtc pool_step s s' /\ Working call_2 ∈ threads s'.
Proof.
  assert (reachable (mk_manager [call_2] 1 1 [Checking; Working call_1] 0 both_calls false)) as H.
  { apply (reach_step Client _ _ (reach_working call_1)). change (step Client one_call (push call_2 one_call)); apply step_push; [done|cbn; set_solver]. }
  split; [exact H|]. apply (queued_task_starts _ call_2 [] H).
  - split; [done|]. cbn. set_solver.
  - reflexivity.
Defined.

Lemma pool_counters_witness :
  running (mk_manager [] 1 1 [Working call_1] 0 {[td_addr call_1]} false) = count is_idle [Working call_1] + count is_busy [Working call_1].
Proof. apply (pool_counters (mk_manager [] 1 1 [Working call_1] 0 {[td_addr call_1]} false)). apply (reach_working call_1). Defined.

End ThreadPool.
