(* ===== verification/Scheduler.v ===== *)
(** * The scheduler (src/src/switch_scheduler.c)

    Tasks wait in a linked list until their time; a thread of its own looks at
    the list, runs the tasks that are due, itself or in a thread per task, and
    frees the ones that are over.  Any thread can add and delete tasks.

    The list is guarded by [task_mutex]; a stretch of code between a lock and an
    unlock is a step of its own, except the two loops of task_thread_loop, which
    take one step per task while the thread holds the mutex ([holds_mutex]), because
    a task that runs in its own thread clears [in_thread] without the mutex.  A
    function that runs may change the time and the repetition of its task at any
    moment.  Every step that pushes to the event queue needs room in it: the
    push blocks.

    A container has an address, which is never used again; the list is in the
    order of the [next] pointers.  Allocation succeeds (the source asserts it),
    thread creation may fail.  Memory pools, log output and the overflow of
    64-bit times are left out. *)

From S2P Require Import Prelude.
From S2P Require Import Text Event.
From stdpp Require Import strings.

#[local] Open Scope string_scope.
#[local] Open Scope list_scope.
#[local] Open Scope Z_scope.

Module Scheduler.

Definition SSHF_OWN_THREAD : Z := 1.
Definition SSHF_FREE_ARG : Z := 2.
Definition SSHF_NO_DEL : Z := 4.

(** The length of the event queue. *)
Definition event_queue_size : Z := 250000.

Record switch_scheduler_task := mk_task {
  created : Z;
  runtime : Z;
  cmd_id : Z;
  repeat : Z;
  group : string;
  cmd_arg : option Z;                  (* a pointer *)
  task_id : Z;
  task_hash : Z;
}.

#[export] Instance rebuild_task : Rebuild switch_scheduler_task := fun t =>
  mk_task (created t) (runtime t) (cmd_id t) (repeat t) (group t) (cmd_arg t) (task_id t) (task_hash t).
#[export] Instance set_runtime : Setter runtime := ltac:(derive_setter).
#[export] Instance set_repeat : Setter repeat := ltac:(derive_setter).

Record container := mk_container {
  addr : Z;
  task : switch_scheduler_task;
  executed : Z;
  in_thread : bool;
  destroyed : Z;
  running : bool;
  destroy_requested : Z;
  func : Z;                            (* a function pointer *)
  flags : Z;
  desc : string;
}.

#[export] Instance rebuild_container : Rebuild container := fun c =>
  mk_container (addr c) (task c) (executed c) (in_thread c) (destroyed c) (running c) (destroy_requested c) (func c) (flags c) (desc c).
#[export] Instance set_task : Setter task := ltac:(derive_setter).
#[export] Instance set_executed : Setter executed := ltac:(derive_setter).
#[export] Instance set_in_thread : Setter in_thread := ltac:(derive_setter).
#[export] Instance set_destroyed : Setter destroyed := ltac:(derive_setter).
#[export] Instance set_running : Setter running := ltac:(derive_setter).
#[export] Instance set_destroy_requested : Setter destroy_requested := ltac:(derive_setter).

(** The events the scheduler fires. *)
Inductive notice_kind := SWITCH_EVENT_ADD_SCHEDULE | SWITCH_EVENT_RE_SCHEDULE | SWITCH_EVENT_DEL_SCHEDULE.

Record notice := mk_notice { kind : notice_kind; n_id : Z; n_desc : string; n_group : string; n_runtime : Z }.

Definition notice_of (k : notice_kind) (tp : container) : notice :=
  mk_notice k (task_id (task tp)) (desc tp) (group (task tp)) (runtime (task tp)).

Record globals := mk_globals {
  task_list : list container;
  last_task_id : Z;                    (* globals.task_id *)
  task_thread_running : Z;
  event_queue : list notice;
  next_addr : Z;
  freed : list Z;                      (* arguments freed *)
}.

#[export] Instance rebuild_globals : Rebuild globals := fun g =>
  mk_globals (task_list g) (last_task_id g) (task_thread_running g) (event_queue g) (next_addr g) (freed g).
#[export] Instance set_task_list : Setter task_list := ltac:(derive_setter).
#[export] Instance set_last_task_id : Setter last_task_id := ltac:(derive_setter).
#[export] Instance set_task_thread_running : Setter task_thread_running := ltac:(derive_setter).
#[export] Instance set_event_queue : Setter event_queue := ltac:(derive_setter).
#[export] Instance set_next_addr : Setter next_addr := ltac:(derive_setter).
#[export] Instance set_freed : Setter freed := ltac:(derive_setter).

Definition room (g : globals) : Prop := Z.of_nat (length (event_queue g)) < event_queue_size.

Definition push (n : notice) (g : globals) : globals := g <| event_queue := event_queue g ++ [n] |>.

Implicit Types (l : list container) (c tp : container) (g : globals) (a now : Z).

(** ** The list *)

Definition tp_at a l : option container := List.find (fun c => addr c =? a) l.

Definition update a (f : container -> container) l : list container :=
  map (fun c => if addr c =? a then f c else c) l.

Fixpoint next_after a l : option Z :=
  match l with
  | c :: l' => if addr c =? a then addr <$> head l' else next_after a l'
  | [] => None
  end.

Definition on_task a (f : container -> container) g : globals := g <| task_list := update a f (task_list g) |>.

(** ** Adding and deleting tasks *)

(** The counter is never 0 in a task: the loop of the source takes one more step
    when it wraps. *)
Definition next_task_id (last : Z) : Z := let id := u32 (last + 1) in if id =? 0 then u32 (id + 1) else id.

Definition new_task (task_runtime func cmd_id : Z) (desc group : option string) (cmd_arg : option Z) (flags now : Z) g : container :=
  let '(rep, task_runtime) := if task_runtime <? now then (u32 task_runtime, task_runtime + now) else (0, task_runtime) in
  let group := default "none" group in
  mk_container (next_addr g)
    (mk_task now task_runtime cmd_id rep group cmd_arg (next_task_id (last_task_id g)) (Event.switch_ci_hashfunc_default group))
    0 false 0 false 0 func flags (default "none" desc).

Definition switch_scheduler_add_task_ex (task_runtime func : Z) (desc group : option string) (cmd_id : Z) (cmd_arg : option Z)
    (flags now : Z) g : Z * globals :=
  let tp := new_task task_runtime func cmd_id desc group cmd_arg flags now g in
  let g := g <| task_list := task_list g ++ [tp] |> <| last_task_id := task_id (task tp) |> <| next_addr := next_addr g + 1 |> in
  (task_id (task tp), push (notice_of SWITCH_EVENT_ADD_SCHEDULE tp) g).

Definition switch_scheduler_add_task (task_runtime func : Z) (desc group : option string) (cmd_id : Z) (cmd_arg : option Z)
    (flags now : Z) g : Z * globals :=
  switch_scheduler_add_task_ex task_runtime func desc group cmd_id cmd_arg flags now g.

(** A deletion that is counted: [running] tasks are only marked. *)
Definition request_delete tp : container :=
  if running tp then tp <| destroy_requested := destroy_requested tp + 1 |> else tp <| destroyed := destroyed tp + 1 |>.

Fixpoint del_by_id (id : Z) l : Z * list container :=
  match l with
  | [] => (0, [])
  | tp :: l =>
      if task_id (task tp) =? id then
        if test_flag (flags tp) SSHF_NO_DEL then (0, tp :: l) else (1, request_delete tp :: l)
      else let '(delcnt, l) := del_by_id id l in (delcnt, tp :: l)
  end.

Definition switch_scheduler_del_task_id (id : Z) g : Z * globals :=
  let '(delcnt, l) := del_by_id id (task_list g) in (delcnt, g <| task_list := l |>).

Definition in_group (hash : Z) (grp : string) tp : bool :=
  (destroyed tp =? 0) && (hash =? task_hash (task tp)) && String.eqb (group (task tp)) grp.

Fixpoint del_by_group (hash : Z) (grp : string) l : Z * list container :=
  match l with
  | [] => (0, [])
  | tp :: l =>
      let '(delcnt, l) := del_by_group hash grp l in
      if in_group hash grp tp && negb (test_flag (flags tp) SSHF_NO_DEL) then (u32 (delcnt + 1), request_delete tp :: l)
      else (delcnt, tp :: l)
  end.

Definition switch_scheduler_del_task_group (grp : option string) g : Z * globals :=
  match grp with
  | None | Some EmptyString => (0, g)
  | Some grp => let '(delcnt, l) := del_by_group (Event.switch_ci_hashfunc_default grp) grp (task_list g) in (delcnt, g <| task_list := l |>)
  end.

(** ** Running tasks *)

(** What task_thread_loop does with a task: nothing, run it in a new thread, or
    run it itself. *)
Inductive verdict := Pass | Launch | Call.

Definition visit (done : bool) now tp : verdict * container :=
  if done then (Pass, tp <| destroyed := 1 |>)
  else if destroyed tp =? 0 then
    if (runtime (task tp) <=? now) && negb (in_thread tp) then
      let tp := tp <| executed := now |> in
      if test_flag (flags tp) SSHF_OWN_THREAD then (Launch, tp <| in_thread := true |>) else (Call, tp <| running := true |>)
    else (Pass, tp)
  else (Pass, tp).

(** switch_scheduler_execute after the function has returned; the flag says whether
    the task is scheduled again. *)
Definition execute_end now tp : bool * container :=
  let tp := if repeat (task tp) =? 0 then tp else tp <| task := (task tp) <| runtime := now + repeat (task tp) |> |> in
  if (destroy_requested tp =? 0) && (executed tp <? runtime (task tp)) then (true, tp <| executed := 0 |>)
  else (false, tp <| destroyed := 1 |>).

Definition switch_scheduler_execute now tp g : bool * globals :=
  let '(again, tp') := execute_end now tp in
  let g := on_task (addr tp) (fun _ => tp') g in
  (again, if again then push (notice_of SWITCH_EVENT_RE_SCHEDULE tp') g else g).

(** The second loop: a task that is over is unlinked and freed. *)
Definition reapable tp : bool := negb (destroyed tp =? 0) && negb (in_thread tp).

Definition reap tp g : globals :=
  push (notice_of SWITCH_EVENT_DEL_SCHEDULE tp) g
    <| task_list := List.filter (fun c => negb (addr c =? addr tp)) (task_list g) |>
    <| freed := freed g ++ (if test_flag (flags tp) SSHF_FREE_ARG then match cmd_arg (task tp) with Some x => [x] | None => [] end else []) |>.

(** ** Threads *)

(** Where the scheduler's thread is.  In [SScan] and [SReap] it holds the mutex;
    the address is that of the next task to look at. *)
Inductive place :=
  | SStart                                      (* before the thread sets task_thread_running *)
  | STest                                       (* at the condition of the loop *)
  | SScan (done : bool) (tp : option Z)
  | SFunc (tp : Z)                              (* in the function of the task *)
  | SFinish (tp : Z)                            (* the function has returned *)
  | SAfter (tp : Z)                             (* switch_scheduler_execute has returned *)
  | SGap (done : bool)                          (* between the two loops *)
  | SReap (done : bool) (tp : option Z)
  | SWait                                       (* waiting for an event *)
  | SDrain
  | SEnd.

Definition holds_mutex (p : place) : bool := match p with SScan _ _ | SReap _ _ => true | _ => false end.

(** A thread of task_own_thread. *)
Inductive phase := OFunc | OFinish | OAfter.

Record system := mk_system { shared : globals; at_ : place; own : list (Z * phase) }.

Definition system_start : system := mk_system (mk_globals [] 0 0 [] 0 []) SStart [].

(** What happens to tasks, by their addresses. *)
Inductive event :=
  | Added (a : Z)
  | Started (a : Z) (due now : Z)               (* the function is called *)
  | Again (a : Z)                               (* it has run and is scheduled again *)
  | Over (a : Z)                                (* it has run for the last time *)
  | Marked (a : Z) (while_running : bool)       (* a deletion was counted *)
  | Freed (a : Z).

Definition marks l l' : list event :=
  concat (zip_with (fun c c' =>
    if negb (destroyed c =? destroyed c') || negb (destroy_requested c =? destroy_requested c') then [Marked (addr c) (running c)] else []) l l').

Definition done_event (again : bool) a : event := if again then Again a else Over a.

Inductive sched_step : system -> list event -> system -> Prop :=
  (* other threads, and functions of tasks *)
  | step_add g p o rt f d gr id arg fl now : holds_mutex p = false -> room g ->
      sched_step (mk_system g p o) [Added (next_addr g)] (mk_system (switch_scheduler_add_task_ex rt f d gr id arg fl now g).2 p o)
  | step_del_id g p o id g' : holds_mutex p = false -> (switch_scheduler_del_task_id id g).2 = g' ->
      sched_step (mk_system g p o) (marks (task_list g) (task_list g')) (mk_system g' p o)
  | step_del_group g p o grp g' : holds_mutex p = false -> (switch_scheduler_del_task_group grp g).2 = g' ->
      sched_step (mk_system g p o) (marks (task_list g) (task_list g')) (mk_system g' p o)
  | step_stop g p o : task_thread_running g = 1 ->
      sched_step (mk_system g p o) [] (mk_system (g <| task_thread_running := -1 |>) p o)
  | step_write g p o a rt rep : p = SFunc a \/ (a, OFunc) ∈ o ->
      sched_step (mk_system g p o) []
        (mk_system (on_task a (fun c => c <| task := (task c) <| runtime := rt |> <| repeat := rep |> |>) g) p o)
  (* a thread for a task *)
  | step_own_return g p o1 o2 a : sched_step (mk_system g p (o1 ++ (a, OFunc) :: o2)) [] (mk_system g p (o1 ++ (a, OFinish) :: o2))
  | step_own_finish g p o1 o2 a tp now again g' : holds_mutex p = false -> tp_at a (task_list g) = Some tp ->
      switch_scheduler_execute now tp g = (again, g') -> (again = true -> room g) ->
      sched_step (mk_system g p (o1 ++ (a, OFinish) :: o2)) [done_event again a] (mk_system g' p (o1 ++ (a, OAfter) :: o2))
  | step_own_end g p o1 o2 a :
      sched_step (mk_system g p (o1 ++ (a, OAfter) :: o2)) [] (mk_system (on_task a (fun c => c <| in_thread := false |>) g) p (o1 ++ o2))
  (* the scheduler's thread *)
  | step_start g o : sched_step (mk_system g SStart o) [] (mk_system (g <| task_thread_running := 1 |>) STest o)
  | step_test g o : sched_step (mk_system g STest o) []
      (mk_system g (SScan (negb (task_thread_running g =? 1)) (addr <$> head (task_list g))) o)
  | step_pass g done a o tp now tp' : tp_at a (task_list g) = Some tp -> visit done now tp = (Pass, tp') ->
      sched_step (mk_system g (SScan done (Some a)) o) []
        (mk_system (on_task a (fun _ => tp') g) (SScan done (next_after a (task_list g))) o)
  | step_launch g done a o tp now tp' : tp_at a (task_list g) = Some tp -> visit done now tp = (Launch, tp') ->
      sched_step (mk_system g (SScan done (Some a)) o) [Started a (runtime (task tp)) now]
        (mk_system (on_task a (fun _ => tp') g) (SScan done (next_after a (task_list g))) ((a, OFunc) :: o))
  | step_launch_fails g done a o tp now tp' : tp_at a (task_list g) = Some tp -> visit done now tp = (Launch, tp') ->
      sched_step (mk_system g (SScan done (Some a)) o) []
        (mk_system (on_task a (fun _ => tp') g) (SScan done (next_after a (task_list g))) o)
  | step_call g done a o tp now tp' : tp_at a (task_list g) = Some tp -> visit done now tp = (Call, tp') ->
      sched_step (mk_system g (SScan done (Some a)) o) [Started a (runtime (task tp)) now]
        (mk_system (on_task a (fun _ => tp') g) (SFunc a) o)
  | step_return g a o : sched_step (mk_system g (SFunc a) o) [] (mk_system g (SFinish a) o)
  | step_finish g a o tp now again g' : tp_at a (task_list g) = Some tp ->
      switch_scheduler_execute now tp g = (again, g') -> (again = true -> room g) ->
      sched_step (mk_system g (SFinish a) o) [done_event again a] (mk_system g' (SAfter a) o)
  | step_relock g a o : sched_step (mk_system g (SAfter a) o) []
      (mk_system (on_task a (fun c => c <| running := false |>) g) (SScan false (next_after a (task_list g))) o)
  | step_scanned g done o : sched_step (mk_system g (SScan done None) o) [] (mk_system g (SGap done) o)
  | step_gap g done o : sched_step (mk_system g (SGap done) o) [] (mk_system g (SReap done (addr <$> head (task_list g))) o)
  | step_reap g done a o tp : room g -> tp_at a (task_list g) = Some tp -> reapable tp = true ->
      sched_step (mk_system g (SReap done (Some a)) o) [Freed a] (mk_system (reap tp g) (SReap done (next_after a (task_list g))) o)
  | step_keep g done a o tp : tp_at a (task_list g) = Some tp -> reapable tp = false ->
      sched_step (mk_system g (SReap done (Some a)) o) [] (mk_system g (SReap done (next_after a (task_list g))) o)
  | step_reaped g done o : sched_step (mk_system g (SReap done None) o) [] (mk_system g (if done then SDrain else SWait) o)
  | step_fire g n q o : event_queue g = n :: q -> sched_step (mk_system g SWait o) [] (mk_system (g <| event_queue := q |>) STest o)
  | step_timeout g o : event_queue g = [] -> sched_step (mk_system g SWait o) [] (mk_system g STest o)
  | step_drain g o : sched_step (mk_system g SDrain o) []
      (mk_system (g <| event_queue := [] |> <| task_thread_running := 0 |>) SEnd o).

(** Executions, with their events. *)
Inductive run : system -> list event -> system -> Prop :=
  | run_nil s : run s [] s
  | run_step s es s1 es' s2 : sched_step s es s1 -> run s1 es' s2 -> run s (es ++ es') s2.

Definition exec (es : list event) (s : system) : Prop := run system_start es s.

(** ** The list of tasks *)

Lemma tp_at_addr a l c : tp_at a l = Some c -> addr c = a.
Proof. intros [_ H]%List.find_some. by apply Z.eqb_eq in H. Qed.

Lemma tp_at_elem a l : is_Some (tp_at a l) <-> a ∈ addr <$> l.
Proof.
  induction l as [|c l IH]; cbn; [split; [by intros [? [=]]|intros H; by apply elem_of_nil in H]|].
  destruct (Z.eqb_spec (addr c) a) as [->|Hn]; [split; [intros _; left|by eauto]|].
  rewrite IH. rewrite elem_of_cons. split; [by right|intros [->|H]; done].
Qed.

Definition keeps b (f : container -> container) : Prop := forall c, addr c = b -> addr (f c) = b.

Lemma tp_at_update a b f l : keeps b f -> tp_at a (update b f l) = if a =? b then f <$> tp_at a l else tp_at a l.
Proof.
  intros Hf. unfold tp_at, update. induction l as [|c l IH]; cbn; [by destruct (a =? b)|].
  destruct (Z.eqb_spec (addr c) b) as [E|Hn].
  - rewrite (Hf c E), E. destruct (Z.eqb_spec b a) as [->|Hba]; [by rewrite Z.eqb_refl|exact IH].
  - destruct (Z.eqb_spec (addr c) a) as [<-|Hca]; [by rewrite (proj2 (Z.eqb_neq (addr c) b))|exact IH].
Qed.

Lemma update_addr b f l : keeps b f -> addr <$> update b f l = addr <$> l.
Proof.
  intros Hf. unfold update. rewrite <- list_fmap_compose. apply list_fmap_ext. intros _ c _. cbn.
  destruct (Z.eqb_spec (addr c) b) as [E|]; [by rewrite (Hf c E)|done].
Qed.

Lemma tp_at_app a l c : tp_at a (l ++ [c]) = match tp_at a l with Some d => Some d | None => if addr c =? a then Some c else None end.
Proof. unfold tp_at. induction l as [|d l IH]; [done|]. cbn. by destruct (addr d =? a). Qed.

Lemma tp_at_filter a b l :
  tp_at a (List.filter (fun c => negb (addr c =? b)) l) = if a =? b then None else tp_at a l.
Proof.
  unfold tp_at. induction l as [|c l IH]; cbn; [by destruct (a =? b)|].
  destruct (Z.eqb_spec (addr c) b) as [E|Hn]; cbn; rewrite IH; destruct (Z.eqb_spec a b), (Z.eqb_spec (addr c) a); try done; congruence.
Qed.

Lemma filter_addr b l : addr <$> List.filter (fun c => negb (addr c =? b)) l = List.filter (fun x => negb (x =? b)) (addr <$> l).
Proof. induction l as [|c l IH]; [done|]. cbn. destruct (addr c =? b); cbn; by rewrite IH. Qed.

Lemma NoDup_filter_bool (f : Z -> bool) (l : list Z) : NoDup l -> NoDup (List.filter f l).
Proof.
  induction 1 as [|x l Hx _ IH]; cbn; [constructor|]. destruct (f x); [|done]. constructor; [|done].
  rewrite list_elem_of_In, List.filter_In, <- list_elem_of_In. tauto.
Qed.

Lemma next_after_elem a l b : next_after a l = Some b -> b ∈ addr <$> l.
Proof.
  induction l as [|c l IH]; [done|]. cbn. destruct (addr c =? a).
  - destruct l as [|d l]; [done|]. intros [= <-]. cbn. right. left.
  - intros H. right. by apply IH.
Qed.

Lemma next_after_ne a l b : NoDup (addr <$> l) -> next_after a l = Some b -> b <> a.
Proof.
  induction l as [|c l IH]; [done|]. cbn. intros [Hc Hl]%NoDup_cons. destruct (Z.eqb_spec (addr c) a) as [<-|Hn]; [|by apply IH].
  destruct l as [|d l]; [done|]. intros [= <-] E. apply Hc. cbn. rewrite <- E. left.
Qed.

Lemma head_elem l a : addr <$> head l = Some a -> a ∈ addr <$> l.
Proof. destruct l as [|c l]; [done|]. intros [= <-]. left. Qed.

(** ** The life of a task *)

Inductive life := Absent | Waiting | Executing | Ended | Gone.

Definition life_step a (ph : life) (e : event) : option life :=
  match e with
  | Added b => if b =? a then match ph with Absent => Some Waiting | _ => None end else Some ph
  | Started b due now =>
      if b =? a then match ph with Waiting => if due <=? now then Some Executing else None | _ => None end else Some ph
  | Again b => if b =? a then match ph with Executing => Some Waiting | _ => None end else Some ph
  | Over b => if b =? a then match ph with Executing => Some Ended | _ => None end else Some ph
  | Marked b _ => if b =? a then match ph with Absent | Gone => None | _ => Some ph end else Some ph
  | Freed b => if b =? a then match ph with Waiting | Ended => Some Gone | _ => None end else Some ph
  end.

Fixpoint life_from a (ph : life) (es : list event) : option life :=
  match es with
  | [] => Some ph
  | e :: es => match life_step a ph e with Some ph => life_from a ph es | None => None end
  end.

Definition life_of a (es : list event) : option life := life_from a Absent es.

Lemma life_app a ph es es' : life_from a ph (es ++ es') = match life_from a ph es with Some ph => life_from a ph es' | None => None end.
Proof. revert ph. induction es as [|e es IH]; intros ph; [done|]. cbn. destruct (life_step a ph e); [apply IH|done]. Qed.

(** Who refers to a task. *)
Definition doing (p : place) a : bool := match p with SFunc b | SFinish b | SAfter b => b =? a | _ => false end.
Definition in_place (p : place) a : bool := match p with SFunc b | SFinish b => b =? a | _ => false end.
Definition looking (p : place) a : bool := match p with SScan _ (Some b) | SReap _ (Some b) => b =? a | _ => false end.
Definition has_thread (o : list (Z * phase)) a : bool := existsb (fun x => x.1 =? a) o.
Definition in_own (o : list (Z * phase)) a : bool := existsb (fun x => (x.1 =? a) && match x.2 with OAfter => false | _ => true end) o.
Definition executing (s : system) a : bool := in_place (at_ s) a || in_own (own s) a.

Record core (s : system) a c : Prop := {
  core_bound : a < next_addr (shared s);
  core_destroyed : 0 <= destroyed c;
  core_requested : 0 <= destroy_requested c;
  core_running : running c = doing (at_ s) a;
  core_thread : has_thread (own s) a = true -> in_thread c = true;
  core_own : in_thread c = true -> test_flag (flags c) SSHF_OWN_THREAD = true;
  core_call : running c = true -> test_flag (flags c) SSHF_OWN_THREAD = false;
}.

Definition quiet (s : system) a : Prop :=
  doing (at_ s) a = false /\ has_thread (own s) a = false /\ looking (at_ s) a = false.

Definition good a (ph : life) (s : system) : Prop :=
  match tp_at a (task_list (shared s)), ph with
  | None, Absent => (next_addr (shared s) <= a \/ a < 0) /\ quiet s a
  | None, Gone => a < next_addr (shared s) /\ quiet s a
  | Some c, Waiting => core s a c /\ executing s a = false
  | Some c, Executing => core s a c /\ executing s a = true
  | Some c, Ended => core s a c /\ executing s a = false /\ destroyed c <> 0
  | _, _ => False
  end.

Definition distinct (s : system) : Prop := NoDup (addr <$> task_list (shared s)) /\ NoDup (own s).*1.

(** A step that does not concern a task. *)
Record aside a (s s' : system) : Prop := {
  aside_tp : tp_at a (task_list (shared s')) = tp_at a (task_list (shared s));
  aside_next : next_addr (shared s) <= next_addr (shared s');
  aside_absent : next_addr (shared s) <= a -> next_addr (shared s') <= a;
  aside_doing : doing (at_ s') a = doing (at_ s) a;
  aside_place : in_place (at_ s') a = in_place (at_ s) a;
  aside_thread : has_thread (own s') a = has_thread (own s) a;
  aside_own : in_own (own s') a = in_own (own s) a;
  aside_looking : looking (at_ s') a = true -> is_Some (tp_at a (task_list (shared s)));
}.

Lemma core_aside a s s' c : aside a s s' -> core s a c -> core s' a c.
Proof.
  intros [H1 H2 H3 H4 H5 H6 H7 H8] [C1 C2 C3 C4 C5 C6 C7].
  constructor; [lia|done|done|by rewrite H4|by rewrite H6|done|done].
Qed.

Lemma good_aside a ph s s' : aside a s s' -> good a ph s -> good a ph s'.
Proof.
  intros H G. pose proof (fun c => core_aside a s s' c H) as HC. destruct H as [H1 H2 H3 H4 H5 H6 H7 H8]. unfold good, quiet, executing in *.
  rewrite H1, H4, H5, H6, H7. destruct (tp_at a (task_list (shared s))) as [c|] eqn:E.
  - destruct ph; try done; destruct G as [G1 G2]; split; auto.
  - assert (looking (at_ s') a = false) as Hl by (destruct (looking (at_ s') a); [by destruct H8 as [? [=]]|done]).
    destruct ph; try done; destruct G as [G1 (G2 & G3 & G4)]; split_and!; auto; [|lia]. destruct G1; auto.
Qed.

(** Everything that holds in a system after the events [es]. *)
Definition sound (es : list event) (s : system) : Prop :=
  distinct s /\ forall a, exists ph, life_of a es = Some ph /\ good a ph s.

(** A step that yields events and keeps the rest apart from one task. *)
Lemma sound_step es s es' s' :
  sound es s -> distinct s' -> (forall a ph, good a ph s -> exists ph', life_from a ph es' = Some ph' /\ good a ph' s') -> sound (es ++ es') s'.
Proof.
  intros [_ H] D G. split; [done|]. intros a. destruct (H a) as (ph & L & Ha). destruct (G a ph Ha) as (ph' & L' & Ha').
  exists ph'. split; [|done]. unfold life_of. rewrite life_app. unfold life_of in L. by rewrite L.
Qed.

Lemma good_some a ph s c : tp_at a (task_list (shared s)) = Some c -> good a ph s -> core s a c.
Proof. unfold good. intros ->. destruct ph; naive_solver. Qed.

Lemma good_none a ph s : tp_at a (task_list (shared s)) = None -> good a ph s -> quiet s a.
Proof. unfold good. intros ->. destruct ph; naive_solver. Qed.

(** The places of a step from [p] to [p'] and of the threads, as others see them. *)
Definition apart (l : list container) a p o p' o' : Prop :=
  doing p' a = doing p a /\ in_place p' a = in_place p a /\ has_thread o' a = has_thread o a /\ in_own o' a = in_own o a
  /\ (looking p' a = true -> is_Some (tp_at a l)).

Lemma move_sound es g g' p p' o o' :
  sound es (mk_system g p o) -> task_list g' = task_list g -> next_addr g' = next_addr g -> NoDup o'.*1 ->
  (forall a, apart (task_list g) a p o p' o') -> sound es (mk_system g' p' o').
Proof.
  intros S El En Ho H. rewrite <- (app_nil_r es). eapply sound_step; [exact S| |].
  - destruct S as [[D1 D2] _]. split; [by cbn; rewrite El|done].
  - intros a ph G. exists ph. split; [done|]. eapply good_aside; [|exact G]. destruct (H a) as (H1 & H2 & H3 & H4 & H5).
    constructor; cbn; rewrite ?El, ?En; done.
Qed.

Lemma task_sound es g g' p p' o o' b tp f es' :
  sound es (mk_system g p o) -> tp_at b (task_list g) = Some tp -> keeps b f ->
  task_list g' = update b f (task_list g) -> next_addr g' = next_addr g -> NoDup o'.*1 ->
  (forall a, a <> b -> apart (task_list g) a p o p' o') -> (forall a ph, a <> b -> life_from a ph es' = Some ph) ->
  (forall ph, good b ph (mk_system g p o) -> exists ph', life_from b ph es' = Some ph' /\ good b ph' (mk_system g' p' o')) ->
  sound (es ++ es') (mk_system g' p' o').
Proof.
  intros S Hb Hf El En Ho Ha Hl HG. eapply sound_step; [exact S| |].
  - destruct S as [[D1 D2] _]. split; [|done]. cbn. by rewrite El, update_addr.
  - intros a ph G. destruct (decide (a = b)) as [->|Hn]; [by apply HG|]. exists ph. split; [by apply Hl|].
    eapply good_aside; [|exact G]. destruct (Ha a Hn) as (H1 & H2 & H3 & H4 & H5).
    constructor; cbn; rewrite ?El, ?En, ?tp_at_update by done; rewrite ?(proj2 (Z.eqb_neq a b)) by done; done.
Qed.

(** The threads of tasks. *)
Lemma has_thread_mid o1 o2 b ph a : has_thread (o1 ++ (b, ph) :: o2) a = (b =? a) || has_thread (o1 ++ o2) a.
Proof. unfold has_thread. rewrite !existsb_app. cbn. destruct (b =? a), (existsb _ o1); done. Qed.

Lemma in_own_mid o1 o2 b ph a :
  in_own (o1 ++ (b, ph) :: o2) a = (b =? a) && match ph with OAfter => false | _ => true end || in_own (o1 ++ o2) a.
Proof. unfold in_own. rewrite !existsb_app. cbn. destruct ((b =? a) && _), (existsb _ o1); done. Qed.

Lemma own_mid_fresh o1 o2 b ph : NoDup (o1 ++ (b, ph) :: o2).*1 -> has_thread (o1 ++ o2) b = false /\ NoDup (o1 ++ o2).*1.
Proof.
  rewrite !fmap_app. cbn. intros H. apply NoDup_app in H as (H1 & H2 & [H3 H4]%NoDup_cons). split.
  - apply not_true_is_false. intros (x & Hx & <-%Z.eqb_eq)%List.existsb_exists. apply List.in_app_or in Hx as [Hx|Hx].
    + apply (H2 x.1); [|left]. apply list_elem_of_fmap. exists x. by rewrite list_elem_of_In.
    + apply H3. apply list_elem_of_fmap. exists x. by rewrite list_elem_of_In.
  - apply NoDup_app. split_and!; try done. intros x Hx ?. apply (H2 x); [done|by right].
Qed.

Lemma in_own_thread o a : has_thread o a = false -> in_own o a = false.
Proof.
  unfold has_thread, in_own. induction o as [|x o IH]; [done|]. cbn. intros [-> H]%orb_false_iff. by apply IH.
Qed.

Lemma own_mid_in o1 o2 b ph a x : (a, x) ∈ o1 ++ (b, ph) :: o2 -> has_thread (o1 ++ (b, ph) :: o2) a = true.
Proof. intros H. apply List.existsb_exists. exists (a, x). rewrite <- list_elem_of_In. split; [done|apply Z.eqb_refl]. Qed.

Lemma in_place_doing p a : doing p a = false -> in_place p a = false.
Proof. by destruct p; cbn. Qed.

Lemma quiet_executing s a : doing (at_ s) a = false -> has_thread (own s) a = false -> executing s a = false.
Proof. intros H1 H2. unfold executing. by rewrite in_place_doing, in_own_thread. Qed.

Lemma apart_refl l a p o : (looking p a = true -> is_Some (tp_at a l)) -> apart l a p o p o.
Proof. by intros. Qed.

(** What a good task says about looking at it. *)
Lemma sound_looking es s a : sound es s -> looking (at_ s) a = true -> is_Some (tp_at a (task_list (shared s))).
Proof.
  intros [_ H] L. destruct (H a) as (ph & _ & G). destruct (tp_at _ _) as [c|] eqn:E; [by eauto|].
  apply good_none in G as (_ & _ & G); [|done]. congruence.
Qed.

Lemma sound_core es s a c : sound es s -> tp_at a (task_list (shared s)) = Some c -> core s a c.
Proof. intros [_ H] E. destruct (H a) as (ph & _ & G). by apply (good_some a ph). Qed.

(** *** Adding *)
Lemma add_sound es g p o tp g' :
  sound es (mk_system g p o) -> tp = mk_container (next_addr g) (task tp) 0 false 0 false 0 (func tp) (flags tp) (desc tp) ->
  task_list g' = task_list g ++ [tp] -> next_addr g' = next_addr g + 1 ->
  sound (es ++ [Added (next_addr g)]) (mk_system g' p o).
Proof.
  intros S Et El En. assert (addr tp = next_addr g) as Ea by (rewrite Et; done).
  assert (tp_at (next_addr g) (task_list g) = None) as Hn.
  { destruct (tp_at _ _) as [c|] eqn:E; [|done]. pose proof (core_bound _ _ _ (sound_core _ _ _ _ S E)). cbn in *. lia. }
  eapply sound_step; [exact S| |].
  - destruct S as [[D1 D2] _]. split; [|done]. cbn in *. rewrite El, fmap_app. apply NoDup_app. split_and!; [done| |by apply NoDup_singleton].
    intros x Hx%tp_at_elem ->%list_elem_of_singleton. rewrite Ea, Hn in Hx. by destruct Hx.
  - intros a ph G. cbn [life_from life_step]. destruct (Z.eqb_spec (next_addr g) a) as [<-|Hna].
    + pose proof (good_none (next_addr g) ph (mk_system g p o) Hn G) as Q. unfold good in *. cbn in *. rewrite Hn in G. rewrite El, tp_at_app, Hn, Ea, Z.eqb_refl.
      destruct ph; try done; [|lia]. exists Waiting. split; [done|]. destruct Q as (Q1 & Q2 & Q3). split.
      * rewrite Et. constructor; cbn in *; try done; [lia|congruence].
      * by apply quiet_executing.
    + exists ph. split; [done|]. eapply good_aside; [|exact G]. cbn in *. constructor; cbn; try done; try lia.
      * rewrite El, tp_at_app, Ea. rewrite (proj2 (Z.eqb_neq (next_addr g) a)) by done. by destruct (tp_at a _).
      * intros L. by apply (sound_looking es _ a S).
Qed.

(** *** Deleting *)
Definition deletes l l' : Prop := Forall2 (fun c c' => c' = c \/ c' = request_delete c) l l'.

Lemma deletes_refl l : deletes l l.
Proof. unfold deletes. induction l; constructor; auto. Qed.

Lemma del_by_id_deletes id l : deletes l (del_by_id id l).2.
Proof.
  induction l as [|c l IH]; cbn; [constructor|]. destruct (task_id (task c) =? id).
  - destruct (test_flag _ _); cbn; (constructor; [by auto|apply deletes_refl]).
  - destruct (del_by_id id l) as [n l']. constructor; [by left|exact IH].
Qed.

Lemma del_by_group_deletes h grp l : deletes l (del_by_group h grp l).2.
Proof.
  induction l as [|c l IH]; cbn; [constructor|]. destruct (del_by_group h grp l) as [n l']. cbn in IH.
  destruct (_ && _); cbn; (constructor; [by auto|exact IH]).
Qed.

Lemma del_id_deletes id g (g' := (switch_scheduler_del_task_id id g).2) : deletes (task_list g) (task_list g') /\ next_addr g' = next_addr g.
Proof.
  unfold g', switch_scheduler_del_task_id. pose proof (del_by_id_deletes id (task_list g)) as H. by destruct (del_by_id id (task_list g)).
Qed.

Lemma del_group_deletes grp g (g' := (switch_scheduler_del_task_group grp g).2) :
  deletes (task_list g) (task_list g') /\ next_addr g' = next_addr g.
Proof.
  unfold g', switch_scheduler_del_task_group. destruct grp as [[|x grp]|]; [split; [apply deletes_refl|done]| |split; [apply deletes_refl|done]].
  pose proof (del_by_group_deletes (Event.switch_ci_hashfunc_default (String x grp)) (String x grp) (task_list g)) as H.
  by destruct (del_by_group (Event.switch_ci_hashfunc_default (String x grp)) (String x grp) (task_list g)).
Qed.

Lemma request_delete_addr c : addr (request_delete c) = addr c.
Proof. unfold request_delete. by destruct (running c). Qed.

Lemma deletes_addr l l' : deletes l l' -> addr <$> l' = addr <$> l.
Proof. induction 1 as [|c c' l l' H _ IH]; [done|]. cbn. rewrite IH. destruct H as [->| ->]; [done|by rewrite request_delete_addr]. Qed.

Lemma deletes_at l l' a :
  deletes l l' -> match tp_at a l with Some c => tp_at a l' = Some c \/ tp_at a l' = Some (request_delete c) | None => tp_at a l' = None end.
Proof.
  unfold tp_at. induction 1 as [|c c' l l' H _ IH]; [done|]. cbn. assert (addr c' = addr c) as ->.
  { destruct H as [->| ->]; [done|apply request_delete_addr]. }
  destruct (addr c =? a); [destruct H as [->| ->]; auto|exact IH].
Qed.

Lemma life_marks a ph l l' :
  deletes l l' -> (a ∈ addr <$> l -> ph <> Absent /\ ph <> Gone) -> life_from a ph (marks l l') = Some ph.
Proof.
  intros H. unfold marks. induction H as [|c c' l l' H _ IH]; intros Hp; [done|]. cbn [zip_with concat]. rewrite life_app.
  assert (life_from a ph (concat (zip_with _ l l')) = Some ph) as IH' by (apply IH; intros Ha; apply Hp; by right).
  destruct (_ || _); [|exact IH']. cbn [life_from life_step]. destruct (Z.eqb_spec (addr c) a) as [<-|]; [|exact IH'].
  destruct Hp as [H1 H2]; [by left|]. by destruct ph.
Qed.

Lemma delete_sound es g p o g' :
  sound es (mk_system g p o) -> deletes (task_list g) (task_list g') -> next_addr g' = next_addr g ->
  sound (es ++ marks (task_list g) (task_list g')) (mk_system g' p o).
Proof.
  intros S H En. eapply sound_step; [exact S| |].
  - destruct S as [[D1 D2] _]. split; [|done]. cbn. by rewrite (deletes_addr _ _ H).
  - intros a ph G. exists ph. split.
    + apply life_marks; [done|]. intros [c E]%tp_at_elem. unfold good in G. cbn in G. rewrite E in G. by destruct ph.
    + pose proof (deletes_at _ _ a H) as Ha. unfold good in *. cbn in *. destruct (tp_at a (task_list g)) as [c|].
      * assert (forall c', core (mk_system g p o) a c -> c' = c \/ c' = request_delete c ->
                  core (mk_system g' p o) a c' /\ (destroyed c <> 0 -> destroyed c' <> 0)) as Hc.
        { intros c' [C1 C2 C3 C4 C5 C6 C7] [->| ->]; [split; [constructor; cbn in *; rewrite ?En; done|done]|]. unfold request_delete.
          destruct (running c) eqn:Er; (split; [constructor; cbn in *; rewrite ?En, ?Er; try done; try congruence; lia|cbn; try done; lia]). }
        assert (exists c', tp_at a (task_list g') = Some c' /\ (c' = c \/ c' = request_delete c)) as (c' & -> & E)
          by (destruct Ha; eauto).
        destruct ph; try done; (destruct G as [G1 G2]; destruct (Hc _ G1 E) as [G1' G3]; split; [exact G1'|]; unfold executing in *; cbn in *; tauto).
      * rewrite Ha. destruct ph; try done; cbn in *; by rewrite En.
Qed.

(** *** Freeing *)
Lemma reap_sound es g done b o tp :
  sound es (mk_system g (SReap done (Some b)) o) -> tp_at b (task_list g) = Some tp -> reapable tp = true ->
  sound (es ++ [Freed b]) (mk_system (reap tp g) (SReap done (next_after b (task_list g))) o).
Proof.
  intros S E R. pose proof (sound_core _ _ _ _ S E) as C. pose proof (tp_at_addr _ _ _ E) as Eb. pose proof S as [[D1 D2] _].
  assert (has_thread o b = false) as Ht.
  { destruct (has_thread o b) eqn:Ho; [|done]. apply (core_thread _ _ _ C) in Ho. unfold reapable in R. rewrite Ho, andb_false_r in R. done. }
  assert (forall x, tp_at x (task_list (reap tp g)) = if x =? b then None else tp_at x (task_list g)) as Hat.
  { intros x. change (task_list (reap tp g)) with (List.filter (fun c => negb (addr c =? addr tp)) (task_list g)). by rewrite Eb, tp_at_filter. }
  eapply sound_step; [exact S| |].
  - split; [|exact D2]. cbn in *. rewrite Eb, filter_addr. by apply NoDup_filter_bool.
  - intros a ph G. cbn [life_from life_step]. destruct (Z.eqb_spec b a) as [<-|Hn].
    + pose proof (quiet_executing (mk_system g (SReap done (Some b)) o) b eq_refl Ht) as Hx. exists Gone. unfold good in *. cbn [shared] in *.
      rewrite E in G. rewrite Hat, Z.eqb_refl. split.
      * destruct ph; try done. destruct G as [_ G]. congruence.
      * split; [apply C|]. split_and!; [done|exact Ht|]. cbn. destruct (next_after b (task_list g)) as [x|] eqn:Ex; [|done].
        apply Z.eqb_neq. by apply (next_after_ne b (task_list g)).
    + exists ph. split; [done|]. eapply good_aside; [|exact G]. constructor; try done.
      * cbn [shared]. rewrite Hat. by rewrite (proj2 (Z.eqb_neq a b)).
      * cbn. intros H. destruct (next_after b (task_list g)) as [x|] eqn:Ex; [|done]. apply Z.eqb_eq in H as ->.
        apply tp_at_elem. by apply (next_after_elem b).
Qed.

(** *** Running *)
Lemma visit_spec done now tp v tp' :
  visit done now tp = (v, tp') ->
  addr tp' = addr tp /\ flags tp' = flags tp /\ (0 <= destroyed tp -> 0 <= destroyed tp') /\ (destroyed tp <> 0 -> destroyed tp' <> 0)
  /\ destroy_requested tp' = destroy_requested tp
  /\ match v with
     | Pass => in_thread tp' = in_thread tp /\ running tp' = running tp
     | Launch => destroyed tp = 0 /\ in_thread tp = false /\ in_thread tp' = true /\ running tp' = running tp
         /\ test_flag (flags tp) SSHF_OWN_THREAD = true /\ runtime (task tp) <= now
     | Call => destroyed tp = 0 /\ in_thread tp = false /\ in_thread tp' = false /\ running tp' = true
         /\ test_flag (flags tp) SSHF_OWN_THREAD = false /\ runtime (task tp) <= now
     end.
Proof.
  unfold visit. destruct done; [intros [= <- <-]; cbn; split_and!; done|]. destruct (Z.eqb_spec (destroyed tp) 0) as [Ed|Ed].
  - destruct (Z.leb_spec (runtime (task tp)) now); cbn [andb]; [|intros [= <- <-]; done].
    destruct (in_thread tp) eqn:Ei; cbn [negb]; [intros [= <- <-]; by rewrite Ei|].
    cbn. destruct (test_flag (flags tp) SSHF_OWN_THREAD) eqn:Ef; intros [= <- <-]; cbn; split_and!; done.
  - intros [= <- <-]; done.
Qed.

Lemma execute_end_spec now tp again tp' :
  execute_end now tp = (again, tp') ->
  addr tp' = addr tp /\ flags tp' = flags tp /\ in_thread tp' = in_thread tp /\ running tp' = running tp
  /\ destroy_requested tp' = destroy_requested tp /\ (if again then destroyed tp' = destroyed tp /\ destroy_requested tp = 0 else destroyed tp' = 1).
Proof.
  unfold execute_end. set (tp1 := if repeat (task tp) =? 0 then tp else _).
  assert (addr tp1 = addr tp /\ flags tp1 = flags tp /\ in_thread tp1 = in_thread tp /\ running tp1 = running tp
    /\ destroy_requested tp1 = destroy_requested tp /\ destroyed tp1 = destroyed tp) as (H1 & H2 & H3 & H4 & H5 & H6) by (unfold tp1; by case_match).
  clearbody tp1. destruct (Z.eqb_spec (destroy_requested tp1) 0) as [E|E]; cbn [andb].
  - destruct (executed tp1 <? runtime (task tp1)); intros [= <- <-]; cbn; split_and!; congruence.
  - intros [= <- <-]; cbn; split_and!; congruence.
Qed.

(** The good states of the task a step works on. *)
Lemma good_intro a ph s c :
  tp_at a (task_list (shared s)) = Some c -> core s a c ->
  match ph with Waiting => executing s a = false | Executing => executing s a = true
  | Ended => executing s a = false /\ destroyed c <> 0 | _ => False end -> good a ph s.
Proof. intros E C H. unfold good. rewrite E. destruct ph; try done; tauto. Qed.

Lemma good_elim a ph s c :
  tp_at a (task_list (shared s)) = Some c -> good a ph s ->
  core s a c /\ match ph with Waiting => executing s a = false | Executing => executing s a = true
  | Ended => executing s a = false /\ destroyed c <> 0 | _ => False end.
Proof. intros E. unfold good. rewrite E. destruct ph; try done; tauto. Qed.

Lemma tp_at_set b l tp tp' : tp_at b l = Some tp -> addr tp' = b -> tp_at b (update b (fun _ => tp') l) = Some tp'.
Proof. intros E Hb. rewrite tp_at_update by (by intros c _). by rewrite Z.eqb_refl, E. Qed.

Lemma next_looking l a b : match next_after a l with Some x => x =? b | None => false end = true -> is_Some (tp_at b l).
Proof. destruct (next_after a l) as [x|] eqn:E; [|done]. intros ->%Z.eqb_eq. apply tp_at_elem. by apply (next_after_elem a). Qed.

Lemma life_other a b ph e :
  a <> b -> (exists x y, e = Started b x y) \/ e = Again b \/ e = Over b -> life_from a ph [e] = Some ph.
Proof. intros Hn [(x & y & ->)|[->| ->]]; cbn; by rewrite (proj2 (Z.eqb_neq b a)). Qed.

Lemma done_event_other a b again ph : a <> b -> life_from a ph [done_event again b] = Some ph.
Proof. intros Hn. apply (life_other a b); [done|]. destruct again; auto. Qed.

Lemma done_event_life b again tp tp' now :
  execute_end now tp = (again, tp') -> exists ph, life_from b Executing [done_event again b] = Some ph
  /\ match ph with Waiting => True | Ended => destroyed tp' <> 0 | _ => False end.
Proof.
  intros (_ & _ & _ & _ & _ & H)%execute_end_spec. destruct again; cbn; rewrite Z.eqb_refl; [by exists Waiting|]. exists Ended. split; [done|lia].
Qed.

(** A step of another task's place or thread. *)
Lemma apart_own l a b ph ph' p o1 o2 :
  a <> b -> (looking p a = true -> is_Some (tp_at a l)) -> apart l a p (o1 ++ (b, ph) :: o2) p (o1 ++ (b, ph') :: o2).
Proof.
  intros Hn Hl. unfold apart. rewrite !has_thread_mid, !in_own_mid. rewrite (proj2 (Z.eqb_neq b a)) by done. by split_and!.
Qed.

Lemma finish_core s s' b tp now again tp' :
  core s b tp -> execute_end now tp = (again, tp') -> next_addr (shared s') = next_addr (shared s) ->
  doing (at_ s') b = doing (at_ s) b -> has_thread (own s') b = has_thread (own s) b -> core s' b tp'.
Proof.
  intros [C1 C2 C3 C4 C5 C6 C7] (H1 & H2 & H3 & H4 & H5 & H6)%execute_end_spec En Ed Eh.
  constructor; rewrite ?En, ?Ed, ?Eh, ?H2, ?H3, ?H4, ?H5; try done. destruct again; [destruct H6 as [-> _]; done|lia].
Qed.

Lemma finish_good b ph s s' tp now again tp' :
  tp_at b (task_list (shared s)) = Some tp -> tp_at b (task_list (shared s')) = Some tp' -> execute_end now tp = (again, tp') ->
  next_addr (shared s') = next_addr (shared s) -> doing (at_ s') b = doing (at_ s) b -> has_thread (own s') b = has_thread (own s) b ->
  executing s b = true -> executing s' b = false -> good b ph s ->
  exists ph', life_from b ph [done_event again b] = Some ph' /\ good b ph' s'.
Proof.
  intros E E' X En Ed Eh Hx Hx' G. apply (good_elim b ph s tp E) in G as [C Hp].
  assert (ph = Executing) as -> by (destruct ph; try done; [congruence|destruct Hp; congruence]).
  destruct (done_event_life b again tp tp' now X) as (ph' & L & H). exists ph'. split; [exact L|].
  apply (good_intro b ph' s' tp' E'); [by eapply finish_core|]. destruct ph'; try done.
Qed.

Lemma execute_list now tp g again g' :
  switch_scheduler_execute now tp g = (again, g') ->
  exists tp', execute_end now tp = (again, tp') /\ task_list g' = update (addr tp) (fun _ => tp') (task_list g) /\ next_addr g' = next_addr g.
Proof.
  unfold switch_scheduler_execute. destruct (execute_end now tp) as [ag tp'] eqn:X. intros [= <- <-]. exists tp'. by destruct ag.
Qed.

Lemma own_finish_sound es g p o1 o2 b tp now again g' :
  sound es (mk_system g p (o1 ++ (b, OFinish) :: o2)) -> tp_at b (task_list g) = Some tp -> switch_scheduler_execute now tp g = (again, g') ->
  sound (es ++ [done_event again b]) (mk_system g' p (o1 ++ (b, OAfter) :: o2)).
Proof.
  intros S E (tp' & X & El & En)%execute_list. pose proof (tp_at_addr _ _ _ E) as Eb. rewrite Eb in El.
  pose proof (execute_end_spec _ _ _ _ X) as (Xa & _). pose proof (sound_core _ _ _ _ S E) as C. pose proof S as [[_ D2] _]. cbn in D2.
  destruct (own_mid_fresh _ _ _ _ D2) as [Hf _].
  eapply task_sound; [exact S|exact E| |exact El|exact En| | |by intros; apply done_event_other|].
  - by intros c _; rewrite Xa.
  - rewrite fmap_app in *. exact D2.
  - intros a Hn. apply apart_own; [done|]. apply (sound_looking es _ a S).
  - intros ph G.
    assert (in_place p b = false) as Hp.
    { apply in_place_doing. pose proof (core_running _ _ _ C) as Er'. cbn in Er'. rewrite <- Er'. destruct (running tp) eqn:Er; [|done]. apply (core_call _ _ _ C) in Er.
      assert (in_thread tp = true) as Hi by (apply (core_thread _ _ _ C); cbn [own]; by rewrite has_thread_mid, Z.eqb_refl).
      apply (core_own _ _ _ C) in Hi. congruence. }
    eapply (finish_good b ph (mk_system g p (o1 ++ (b, OFinish) :: o2))); [exact E| |exact X|exact En|done| | | |exact G]; cbn [shared at_ own]; unfold executing; cbn [at_ own].
    + rewrite El. apply (tp_at_set _ _ tp); congruence.
    + by rewrite !has_thread_mid.
    + rewrite in_own_mid, Z.eqb_refl. by destruct (in_place p b).
    + rewrite in_own_mid, Hp, andb_false_r. by apply in_own_thread.
Qed.

Lemma finish_sound es g o b tp now again g' :
  sound es (mk_system g (SFinish b) o) -> tp_at b (task_list g) = Some tp -> switch_scheduler_execute now tp g = (again, g') ->
  sound (es ++ [done_event again b]) (mk_system g' (SAfter b) o).
Proof.
  intros S E (tp' & X & El & En)%execute_list. pose proof (tp_at_addr _ _ _ E) as Eb. rewrite Eb in El.
  pose proof (execute_end_spec _ _ _ _ X) as (Xa & _). pose proof (sound_core _ _ _ _ S E) as C. pose proof S as [[_ D2] _].
  assert (in_own o b = false) as Ho.
  { apply in_own_thread. destruct (has_thread o b) eqn:Ht; [|done]. apply (core_thread _ _ _ C) in Ht. apply (core_own _ _ _ C) in Ht.
    assert (running tp = true) as Hr by (rewrite (core_running _ _ _ C); apply Z.eqb_refl). apply (core_call _ _ _ C) in Hr. congruence. }
  eapply task_sound; [exact S|exact E| |exact El|exact En|exact D2| |by intros; apply done_event_other|].
  - by intros c _; rewrite Xa.
  - intros a Hn. split_and!; try done. cbn. by rewrite (proj2 (Z.eqb_neq b a)).
  - intros ph G. eapply (finish_good b ph (mk_system g (SFinish b) o)); [exact E| |exact X|exact En|done|done| | |exact G]; cbn [shared]; unfold executing; cbn.
    + rewrite El. apply (tp_at_set _ _ tp); congruence.
    + by rewrite Z.eqb_refl.
    + exact Ho.
Qed.

(** A step that changes a task and leaves who executes it. *)
Lemma touch_sound es g g' p p' o o' b tp f :
  sound es (mk_system g p o) -> tp_at b (task_list g) = Some tp -> keeps b f ->
  task_list g' = update b f (task_list g) -> next_addr g' = next_addr g -> NoDup o'.*1 ->
  (forall a, a <> b -> apart (task_list g) a p o p' o') -> executing (mk_system g' p' o') b = executing (mk_system g p o) b ->
  (destroyed tp <> 0 -> destroyed (f tp) <> 0) -> (core (mk_system g p o) b tp -> core (mk_system g' p' o') b (f tp)) ->
  sound es (mk_system g' p' o').
Proof.
  intros S E K El En Ho Ha Hx Hd HC. rewrite <- (app_nil_r es). eapply task_sound; [exact S|exact E|exact K|exact El|exact En|exact Ho|exact Ha|done|].
  intros ph G. exists ph. split; [done|]. apply (good_elim b ph (mk_system g p o) tp E) in G as [C Hp].
  apply (good_intro b ph (mk_system g' p' o') (f tp)); [|by apply HC|rewrite Hx; destruct ph; tauto].
  cbn [shared]. by rewrite El, tp_at_update, Z.eqb_refl, E.
Qed.

Lemma executes_known es s a : sound es s -> doing (at_ s) a = true \/ has_thread (own s) a = true -> is_Some (tp_at a (task_list (shared s))).
Proof.
  intros [_ H] Hx. destruct (H a) as (ph & _ & G). destruct (tp_at _ _) as [c|] eqn:E; [by eauto|].
  apply good_none in G as (G1 & G2 & _); [|done]. destruct Hx; congruence.
Qed.

Lemma write_sound es g p o b rt rep :
  sound es (mk_system g p o) -> p = SFunc b \/ (b, OFunc) ∈ o ->
  sound es (mk_system (on_task b (fun c => c <| task := (task c) <| runtime := rt |> <| repeat := rep |> |>) g) p o).
Proof.
  intros S Hb. destruct (executes_known es _ b S) as [tp E].
  { cbn [at_ own]. destruct Hb as [->|Hb]; [left; apply Z.eqb_refl|right]. apply List.existsb_exists. exists (b, OFunc).
    rewrite <- list_elem_of_In. split; [done|apply Z.eqb_refl]. }
  pose proof S as [[_ D2] _]. eapply touch_sound; [exact S|exact E| |reflexivity|reflexivity|exact D2| |done|done|].
  - by intros c ?.
  - intros a _. apply apart_refl. apply (sound_looking es _ a S).
  - intros [C1 C2 C3 C4 C5 C6 C7]. by constructor.
Qed.

Lemma own_end_sound es g p o1 o2 b :
  sound es (mk_system g p (o1 ++ (b, OAfter) :: o2)) ->
  sound es (mk_system (on_task b (fun c => c <| in_thread := false |>) g) p (o1 ++ o2)).
Proof.
  intros S. pose proof S as [[_ D2] _]. destruct (own_mid_fresh _ _ _ _ D2) as [Hf Ho].
  destruct (executes_known es _ b S) as [tp E]; [right; cbn [own]; by rewrite has_thread_mid, Z.eqb_refl|].
  eapply touch_sound; [exact S|exact E| |reflexivity|reflexivity|exact Ho| | |done|].
  - by intros c ?.
  - intros a Hn. unfold apart. rewrite has_thread_mid, in_own_mid. rewrite (proj2 (Z.eqb_neq b a)) by done.
    split_and!; try done. apply (sound_looking es _ a S).
  - unfold executing. cbn [at_ own]. by rewrite in_own_mid, andb_false_r.
  - intros [C1 C2 C3 C4 C5 C6 C7]. constructor; try done. cbn [own]. congruence.
Qed.

Lemma relock_sound es g o b :
  sound es (mk_system g (SAfter b) o) ->
  sound es (mk_system (on_task b (fun c => c <| running := false |>) g) (SScan false (next_after b (task_list g))) o).
Proof.
  intros S. destruct (executes_known es _ b S) as [tp E]; [left; apply Z.eqb_refl|]. pose proof S as [[_ D2] _].
  eapply touch_sound; [exact S|exact E| |reflexivity|reflexivity|exact D2| |done|done|].
  - by intros c ?.
  - intros a Hn. split_and!; try done; [by cbn; rewrite (proj2 (Z.eqb_neq b a))|apply next_looking].
  - intros [C1 C2 C3 C4 C5 C6 C7]. by constructor.
Qed.

(** Looking at a task without running it, or failing to create its thread. *)
Lemma pass_sound es g done b o tp now v tp' :
  sound es (mk_system g (SScan done (Some b)) o) -> tp_at b (task_list g) = Some tp -> visit done now tp = (v, tp') -> v <> Call ->
  sound es (mk_system (on_task b (fun _ => tp') g) (SScan done (next_after b (task_list g))) o).
Proof.
  intros S E (V1 & V2 & V3 & V4 & V5 & V)%visit_spec Hv. pose proof (tp_at_addr _ _ _ E) as Eb. pose proof S as [[_ D2] _].
  eapply touch_sound; [exact S|exact E| |reflexivity|reflexivity|exact D2| |done|exact V4|].
  - by intros c _; rewrite V1.
  - intros a Hn. split_and!; try done. apply next_looking.
  - intros [C1 C2 C3 C4 C5 C6 C7]. destruct v; [destruct V as [Vi Vr]|destruct V as (_ & Vi & Vi' & Vr & Vf & _)|done];
      constructor; cbn in *; rewrite ?V2, ?V5, ?Vr, ?Vi, ?Vi'; auto.
Qed.

Lemma start_sound es g done b o tp now v tp' p' o' :
  sound es (mk_system g (SScan done (Some b)) o) -> tp_at b (task_list g) = Some tp -> visit done now tp = (v, tp') ->
  (v = Launch /\ p' = SScan done (next_after b (task_list g)) /\ o' = (b, OFunc) :: o) \/ (v = Call /\ p' = SFunc b /\ o' = o) ->
  sound (es ++ [Started b (runtime (task tp)) now]) (mk_system (on_task b (fun _ => tp') g) p' o').
Proof.
  intros S E (V1 & V2 & V3 & V4 & V5 & V)%visit_spec Hv. pose proof (tp_at_addr _ _ _ E) as Eb. pose proof S as [[_ D2] _].
  pose proof (sound_core _ _ _ _ S E) as C.
  assert (destroyed tp = 0 /\ in_thread tp = false /\ runtime (task tp) <= now) as (Ed & Ei & Er) by (destruct v; [naive_solver|tauto|tauto]).
  assert (has_thread o b = false) as Ht.
  { destruct (has_thread o b) eqn:Ht; [|done]. apply (core_thread _ _ _ C) in Ht. congruence. }
  eapply task_sound; [exact S|exact E| |reflexivity|reflexivity| | |intros; apply (life_other a b); [done|by eauto]|].
  - by intros c _; rewrite V1.
  - destruct Hv as [(-> & -> & ->)|(-> & -> & ->)]; [|done]. cbn in *. constructor; [|done]. intros (x & Hx & Hin)%list_elem_of_fmap.
    assert (has_thread o b = true); [|congruence]. apply List.existsb_exists. exists x. rewrite <- list_elem_of_In. split; [done|by apply Z.eqb_eq].
  - intros a Hn. assert ((b =? a) = false) as Hba by (by apply Z.eqb_neq).
    destruct Hv as [(-> & -> & ->)|(-> & -> & ->)]; unfold apart; cbn; rewrite ?Hba; split_and!; try done. apply next_looking.
  - intros ph G. apply (good_elim b ph (mk_system g (SScan done (Some b)) o) tp E) in G as [_ Hp].
    assert (executing (mk_system g (SScan done (Some b)) o) b = false) as Hx by (by apply quiet_executing). exists Executing. split.
    + destruct ph; try done; [|congruence|tauto]. cbn. rewrite Z.eqb_refl. by rewrite (proj2 (Z.leb_le _ _)).
    + eapply good_intro; [cbn [shared]; apply (tp_at_set _ _ tp); congruence| |].
      * destruct C as [C1 C2 C3 C4 C5 C6 C7]. cbn [shared at_ own doing] in *.
        destruct Hv as [(-> & -> & ->)|(-> & -> & ->)]; destruct V as (_ & _ & Vi & Vr & Vf & _); constructor; cbn [shared at_ own doing];
          rewrite ?V2, ?V5, ?Vr, ?Z.eqb_refl; auto; intros; congruence.
      * destruct Hv as [(-> & -> & ->)|(-> & -> & ->)]; unfold executing; cbn; by rewrite Z.eqb_refl.
Qed.

Lemma sched_step_sound es s es' s' : sound es s -> sched_step s es' s' -> sound (es ++ es') s'.
Proof.
  intros S H. pose proof (fun a => sound_looking es s a S) as HL. pose proof S as [[_ D2] _].
  destruct H; cbn [shared at_ own] in *; rewrite ?app_nil_r.
  - eapply add_sound; [exact S| |reflexivity|reflexivity]. unfold new_task. by destruct (rt <? now).
  - destruct (del_id_deletes id g) as [H1 H2]. subst g'. by apply delete_sound.
  - destruct (del_group_deletes grp g) as [H1 H2]. subst g'. by apply delete_sound.
  - eapply move_sound; [exact S|done|done|exact D2|intros a; apply apart_refl, HL].
  - by apply write_sound.
  - eapply move_sound; [exact S|done|done|by rewrite fmap_app in *|]. intros x. unfold apart. rewrite !has_thread_mid, !in_own_mid. split_and!; try done. apply HL.
  - by eapply own_finish_sound.
  - by apply own_end_sound.
  - eapply move_sound; [exact S|done|done|exact D2|]. intros x. split_and!; done.
  - eapply move_sound; [exact S|done|done|exact D2|]. intros x. split_and!; try done. cbn. destruct (task_list g) as [|c l]; cbn; [done|].
    intros ->. eauto.
  - by eapply pass_sound.
  - eapply start_sound; eauto.
  - by eapply pass_sound.
  - eapply start_sound; eauto.
  - eapply move_sound; [exact S|done|done|exact D2|]. intros x. split_and!; done.
  - by eapply finish_sound.
  - by apply relock_sound.
  - eapply move_sound; [exact S|done|done|exact D2|]. intros x. split_and!; done.
  - eapply move_sound; [exact S|done|done|exact D2|]. intros x. split_and!; try done. cbn. destruct (task_list g) as [|c l]; cbn; [done|].
    intros ->. eauto.
  - by apply reap_sound.
  - eapply move_sound; [exact S|done|done|exact D2|]. intros x. split_and!; try done. apply next_looking.
  - eapply move_sound; [exact S|done|done|exact D2|]. intros x. destruct done; split_and!; done.
  - eapply move_sound; [exact S|done|done|exact D2|]. intros x. split_and!; done.
  - eapply move_sound; [exact S|done|done|exact D2|]. intros x. split_and!; done.
  - eapply move_sound; [exact S|done|done|exact D2|]. intros x. split_and!; done.
Qed.

Lemma run_sound s es' s' : run s es' s' -> forall es, sound es s -> sound (es ++ es') s'.
Proof.
  induction 1 as [s|s es1 s1 es2 s2 H _ IH]; intros es S; [by rewrite app_nil_r|]. rewrite app_assoc. apply IH. by eapply sched_step_sound.
Qed.

Lemma start_is_sound : sound [] system_start.
Proof.
  split; [by split; constructor|]. intros a. exists Absent. split; [done|]. split; [cbn; lia|by split_and!].
Qed.

Lemma sched_exec_sound es s : exec es s -> sound es s.
Proof. intros H. apply (run_sound _ _ _ H [] start_is_sound). Qed.

(** ** Deletion *)

(** The task at [a] will be started at most [k] more times. *)
Definition ending c (k : Z) (here : bool) : Prop :=
  destroyed c <> 0 \/ (0 < destroy_requested c /\ test_flag (flags c) SSHF_OWN_THREAD = false /\ (k = 1 \/ here = true)).

Definition doomed a (k : Z) (s : system) : Prop :=
  a < next_addr (shared s) /\ forall c, tp_at a (task_list (shared s)) = Some c -> ending c k (in_place (at_ s) a).

Definition starts a (es : list event) : Z := count (fun e => match e with Started b _ _ => b =? a | _ => false end) es.

Lemma starts_app a es es' : starts a (es ++ es') = starts a es + starts a es'.
Proof. unfold starts. induction es as [|e es IH]; [done|]. cbn [app]. rewrite !count_cons, IH. lia. Qed.

Lemma starts_marks a l l' : starts a (marks l l') = 0.
Proof.
  unfold marks. revert l'. induction l as [|c l IH]; intros [|c' l']; cbn [zip_with concat]; try done. rewrite starts_app, IH.
  by destruct (_ || _).
Qed.

Lemma starts_done a b again : starts a [done_event again b] = 0.
Proof. by destruct again. Qed.

(** A step in which the task stays as it is, for the purposes of [ending]. *)
Lemma doomed_same a k s s' :
  doomed a k s -> next_addr (shared s) <= next_addr (shared s') -> (in_place (at_ s) a = true -> in_place (at_ s') a = true) ->
  (forall c', tp_at a (task_list (shared s')) = Some c' -> exists c, tp_at a (task_list (shared s)) = Some c /\ flags c' = flags c
    /\ (destroyed c <> 0 -> destroyed c' <> 0) /\ destroy_requested c <= destroy_requested c') ->
  doomed a k s'.
Proof.
  intros [H1 H2] Hn Hp Hc. split; [lia|]. intros c' E'. destruct (Hc c' E') as (c & E & Hf & Hd & Hr).
  destruct (H2 c E) as [?|(R1 & R2 & R3)]; [by left; auto|]. right. rewrite Hf. split_and!; [lia|done|]. destruct R3; auto.
Qed.

Lemma doomed_move a k s s' :
  doomed a k s -> task_list (shared s') = task_list (shared s) -> next_addr (shared s') = next_addr (shared s) ->
  (in_place (at_ s) a = true -> in_place (at_ s') a = true) -> doomed a k s'.
Proof. intros D El En Hp. eapply doomed_same; [exact D|lia|exact Hp|]. rewrite El. intros c E. by exists c. Qed.

Lemma doomed_update a k s s' b f :
  doomed a k s -> task_list (shared s') = update b f (task_list (shared s)) -> keeps b f -> next_addr (shared s') = next_addr (shared s) ->
  (in_place (at_ s) a = true -> in_place (at_ s') a = true) ->
  (a = b -> forall c, tp_at b (task_list (shared s)) = Some c ->
     flags (f c) = flags c /\ (destroyed c <> 0 -> destroyed (f c) <> 0) /\ destroy_requested c <= destroy_requested (f c)) ->
  doomed a k s'.
Proof.
  intros D El K En Hp Hf. eapply doomed_same; [exact D|lia|exact Hp|]. rewrite El, tp_at_update by done. intros c' E.
  destruct (Z.eqb_spec a b) as [->|]; [|by exists c'].
  destruct (tp_at b (task_list (shared s))) as [c|] eqn:Ec; [|done]. injection E as <-. exists c. split; [done|]. by apply Hf.
Qed.

(** The scheduler's own run of the task ends its life when a deletion was requested. *)
Lemma doomed_finish a k g p p' o o' now tp again g' :
  doomed a k (mk_system g p o) -> tp_at (addr tp) (task_list g) = Some tp -> switch_scheduler_execute now tp g = (again, g') ->
  (forall b, b <> addr tp -> in_place p' b = in_place p b) -> doomed a k (mk_system g' p' o').
Proof.
  intros [H1 H2] E (tp' & X & El & En)%execute_list Hp. apply execute_end_spec in X as (X1 & X2 & X3 & X4 & X5 & X6).
  split; [cbn in *; lia|]. cbn [shared at_ own] in *. intros c. rewrite El, tp_at_update by (by intros ? _).
  destruct (Z.eqb_spec a (addr tp)) as [->|Hn]; [|rewrite Hp by done; apply H2]. rewrite E. intros [= <-]. destruct (H2 tp E) as [Hd|(R1 & R2 & R3)].
  - left. destruct again; [destruct X6 as [-> _]; done|lia].
  - destruct again; [lia|]. left. lia.
Qed.

Lemma doomed_deletes es a k g g' p o :
  sound es (mk_system g p o) -> doomed a k (mk_system g p o) -> deletes (task_list g) (task_list g') -> next_addr g' = next_addr g ->
  doomed a k (mk_system g' p o).
Proof.
  intros S D H En. eapply doomed_same; [exact D|cbn; lia|done|]. cbn [shared]. intros c' E'. pose proof (deletes_at _ _ a H) as Ha.
  destruct (tp_at a (task_list g)) as [c|] eqn:E; [|congruence]. exists c. split; [done|].
  pose proof (core_destroyed _ _ _ (sound_core _ _ _ _ S E)) as Hd. rewrite E' in Ha.
  destruct Ha as [[= ->]|[= ->]]; [done|]. unfold request_delete. destruct (running c); cbn; split_and!; try done; lia.
Qed.

Lemma doomed_visit a k es g done b o tp now v tp' p' o' :
  sound es (mk_system g (SScan done (Some b)) o) -> doomed a k (mk_system g (SScan done (Some b)) o) ->
  tp_at b (task_list g) = Some tp -> visit done now tp = (v, tp') -> in_place p' a = false \/ a <> b ->
  (forall x, x <> b -> in_place p' x = false) ->
  doomed a k (mk_system (on_task b (fun _ => tp') g) p' o').
Proof.
  intros S D E (V1 & V2 & V3 & V4 & V5 & V)%visit_spec Hp Hp'. pose proof (tp_at_addr _ _ _ E) as Eb.
  eapply doomed_update; [exact D|reflexivity|by intros ? _; rewrite V1|reflexivity|done|].
  intros -> c Ec. cbn [shared] in Ec. rewrite E in Ec. injection Ec as <-. split_and!; [done|done|cbn; lia].
Qed.

Lemma doomed_start a k es g done b o tp now v tp' p' o' :
  sound es (mk_system g (SScan done (Some b)) o) -> doomed a k (mk_system g (SScan done (Some b)) o) -> 0 <= k ->
  tp_at b (task_list g) = Some tp -> visit done now tp = (v, tp') -> (v = Launch /\ (forall x, in_place p' x = false)) \/ (v = Call /\ p' = SFunc b) ->
  starts a [Started b (runtime (task tp)) now] <= k
  /\ doomed a (k - starts a [Started b (runtime (task tp)) now]) (mk_system (on_task b (fun _ => tp') g) p' o').
Proof.
  intros S D Hk E Hv Hp. assert (starts a [Started b (runtime (task tp)) now] = Z.b2z (b =? a)) as ->.
  { unfold starts. rewrite count_cons. unfold count. cbn [filter list_filter length]. lia. }
  destruct (Z.eqb_spec b a) as [<-|Hn]; cbn [Z.b2z].
  - pose proof (visit_spec _ _ _ _ _ Hv) as (V1 & V2 & V3 & V4 & V5 & V). destruct D as [D1 D2].
    destruct (D2 tp E) as [Hd|(R1 & R2 & R3)]; [destruct v; [destruct Hp as [[? _]|[? _]]; done|tauto|tauto]|].
    destruct Hp as [[-> _]|[-> ->]]; [destruct V as (_ & _ & _ & _ & V & _); congruence|]. destruct R3 as [->|R3]; [|done].
    split; [lia|]. split; [exact D1|]. cbn [shared at_]. pose proof (tp_at_addr _ _ _ E) as Eb.
    intros c. change (task_list (on_task b (fun _ => tp') g)) with (update b (fun _ => tp') (task_list g)). rewrite (tp_at_set b _ tp tp') by congruence. intros [= <-]. right. split_and!; [lia|congruence|right; apply Z.eqb_refl].
  - split; [lia|]. rewrite Z.sub_0_r. eapply doomed_visit; [exact S|exact D|exact E|exact Hv|by right|].
    intros x Hx. destruct Hp as [[_ Hp]|[_ ->]]; [done|cbn; by apply Z.eqb_neq].
Qed.

Lemma doomed_step es a k s es' s' : sound es s -> 0 <= k -> doomed a k s -> sched_step s es' s' ->
  starts a es' <= k /\ doomed a (k - starts a es') s'.
Proof.
  intros S Hk D H.
  assert (starts a es' = 0 /\ doomed a k s' -> starts a es' <= k /\ doomed a (k - starts a es') s') as Hz
    by (intros [-> ?]; rewrite Z.sub_0_r; done).
  destruct H.
  - apply Hz. split; [done|]. eapply doomed_same; [exact D|cbn; lia|done|]. destruct D as [D1 _]. cbn [shared] in *.
    unfold switch_scheduler_add_task_ex. cbn [snd task_list push]. intros c'.
    change (tp_at a (task_list g ++ [new_task rt f id d gr arg fl now g]) = Some c' -> exists c, tp_at a (task_list g) = Some c /\ flags c' = flags c
      /\ (destroyed c <> 0 -> destroyed c' <> 0) /\ destroy_requested c <= destroy_requested c').
    rewrite tp_at_app. destruct (tp_at a (task_list g)) as [c|]; [intros [= <-]; by exists c|].
    assert (addr (new_task rt f id d gr arg fl now g) = next_addr g) as -> by (unfold new_task; by destruct (rt <? now)).
    rewrite (proj2 (Z.eqb_neq (next_addr g) a)) by lia. done.
  - apply Hz. split; [apply starts_marks|]. destruct (del_id_deletes id g) as [H1 H2]. subst g'. by eapply doomed_deletes.
  - apply Hz. split; [apply starts_marks|]. destruct (del_group_deletes grp g) as [H1 H2]. subst g'. by eapply doomed_deletes.
  - apply Hz. split; [done|]. by eapply doomed_move.
  - apply Hz. split; [done|]. eapply doomed_update; [exact D|reflexivity|by intros ?|reflexivity|done|]. intros -> c Ec. split_and!; [done|done|cbn; lia].
  - apply Hz. split; [done|]. by eapply doomed_move.
  - apply Hz. split; [apply starts_done|]. eapply doomed_finish; [exact D| |done|done].
    match goal with E : tp_at _ _ = Some tp |- _ => rewrite (tp_at_addr _ _ _ E); exact E end.
  - apply Hz. split; [done|]. eapply doomed_update; [exact D|reflexivity|by intros ?|reflexivity|done|]. intros -> c Ec. split_and!; [done|done|cbn; lia].
  - apply Hz. split; [done|]. by eapply doomed_move.
  - apply Hz. split; [done|]. by eapply doomed_move.
  - apply Hz. split; [done|]. eapply doomed_visit; eauto.
  - eapply doomed_start; eauto.
  - apply Hz. split; [done|]. eapply doomed_visit; eauto.
  - eapply doomed_start; eauto.
  - apply Hz. split; [done|]. by eapply doomed_move.
  - apply Hz. split; [apply starts_done|]. eapply doomed_finish; [exact D| |done|].
    + match goal with E : tp_at _ _ = Some tp |- _ => rewrite (tp_at_addr _ _ _ E); exact E end.
    + match goal with E : tp_at _ _ = Some tp |- _ => rewrite (tp_at_addr _ _ _ E) end. intros b Hb. cbn. symmetry. by apply Z.eqb_neq.
  - apply Hz. split; [done|]. eapply doomed_update; [exact D|reflexivity|by intros ?|reflexivity|done|]. intros -> c Ec. split_and!; [done|done|cbn; lia].
  - apply Hz. split; [done|]. by eapply doomed_move.
  - apply Hz. split; [done|]. by eapply doomed_move.
  - apply Hz. split; [done|]. eapply doomed_same; [exact D|cbn; lia|done|]. cbn [shared]. intros c'.
    change (task_list (reap tp g)) with (List.filter (fun c => negb (addr c =? addr tp)) (task_list g)). rewrite tp_at_filter.
    destruct (a =? addr tp); [done|]. intros E. by exists c'.
  - apply Hz. split; [done|]. by eapply doomed_move.
  - apply Hz. split; [done|]. by eapply doomed_move.
  - apply Hz. split; [done|]. by eapply doomed_move.
  - apply Hz. split; [done|]. by eapply doomed_move.
  - apply Hz. split; [done|]. by eapply doomed_move.
Qed.

Lemma doomed_run s es' s' : run s es' s' -> forall es a k, sound es s -> 0 <= k -> doomed a k s -> starts a es' <= k.
Proof.
  induction 1 as [s|s es1 s1 es2 s2 H _ IH]; intros es a k S Hk D; [done|].
  destruct (doomed_step es a k s es1 s1 S Hk D H) as [H1 H2]. rewrite starts_app.
  specialize (IH (es ++ es1) a (k - starts a es1) (sched_step_sound _ _ _ _ S H) ltac:(lia) H2). lia.
Qed.

Lemma marks_in l l' a w :
  deletes l l' -> NoDup (addr <$> l) -> Marked a w ∈ marks l l' -> exists c, tp_at a l = Some c /\ tp_at a l' = Some (request_delete c) /\ w = running c.
Proof.
  intros H. unfold marks. induction H as [|c c' l l' H F IH]; [by intros _ ?%elem_of_nil|]. cbn [zip_with concat fmap list_fmap].
  intros [Hn Hd]%NoDup_cons [Hm|Hm]%elem_of_app.
  - destruct (negb _ || _) eqn:Eb; [|by apply elem_of_nil in Hm]. apply list_elem_of_singleton in Hm as [= -> ->].
    assert (c' = request_delete c) as -> by (destruct H as [->|H]; [by rewrite !Z.eqb_refl in Eb|done]).
    exists c. unfold tp_at. cbn. by rewrite request_delete_addr, Z.eqb_refl.
  - destruct (IH Hd Hm) as (d & E & E' & ->). exists d. unfold tp_at in *. cbn.
    assert (addr c <> a) as Ha by (intros <-; apply Hn, tp_at_elem; by eauto).
    assert (addr c' = addr c) as -> by (destruct H as [->| ->]; [done|apply request_delete_addr]).
    by rewrite (proj2 (Z.eqb_neq (addr c) a)).
Qed.

Lemma marked_doomed es g p o g' a w :
  sound es (mk_system g p o) -> deletes (task_list g) (task_list g') -> next_addr g' = next_addr g ->
  Marked a w ∈ marks (task_list g) (task_list g') -> doomed a (if w then 1 else 0) (mk_system g' p o).
Proof.
  intros S H En Hm. pose proof S as [[D1 _] _]. destruct (marks_in _ _ _ _ H D1 Hm) as (c & E & E' & ->).
  destruct (sound_core _ _ _ _ S E) as [C1 C2 C3 C4 C5 C6 C7]. split; [cbn in *; lia|]. cbn [shared at_] in *. rewrite E'. intros ? [= <-].
  unfold request_delete. destruct (running c); [right|left]; cbn; [split_and!; [lia|by apply C7|by left]|lia].
Qed.

Lemma step_marked es s es' s' a w : sound es s -> sched_step s es' s' -> Marked a w ∈ es' -> doomed a (if w then 1 else 0) s'.
Proof.
  intros S H Hm. destruct H; try (by rewrite ?elem_of_nil, ?list_elem_of_singleton in Hm);
    try (destruct again; by rewrite list_elem_of_singleton in Hm).
  - destruct (del_id_deletes id g) as [H1 H2]. subst g'. by eapply marked_doomed.
  - destruct (del_group_deletes grp g) as [H1 H2]. subst g'. by eapply marked_doomed.
Qed.

(** ** Theorems *)

(** C13. Every execution of the scheduler, with any number of threads adding and
    deleting tasks and tasks running in threads of their own, treats every task in
    order: it is added once, its function is called only when it is due and never
    while it is still running, after its last run or its deletion it is freed, at
    most once and never while it runs, and nothing happens to it afterwards. *)
Theorem task_life es s a :
  exec es s -> exists ph, life_of a es = Some ph /\ (ph = Executing <-> executing s a = true)
    /\ (ph = Absent \/ ph = Gone <-> tp_at a (task_list (shared s)) = None).
Proof.
  intros H. destruct (sched_exec_sound _ _ H) as [_ G]. destruct (G a) as (ph & L & Ga). exists ph. split; [exact L|].
  destruct (tp_at a (task_list (shared s))) as [c|] eqn:E.
  - destruct (good_elim a ph s c E Ga) as [_ Hp]. clear G Ga L E. destruct (executing s a), ph; naive_solver.
  - destruct (good_none a ph s E Ga) as (Q1 & Q2 & _). rewrite (quiet_executing s a Q1 Q2).
    unfold good in Ga. rewrite E in Ga. destruct ph; naive_solver.
Qed.

(** No thread of the scheduler ever uses a task that has been freed, and no
    task runs twice at a time: the task the scheduler's thread is running or
    looking at, and those that run in threads of their own, are in the list,
    addresses in the list are different, a task has at most one thread, and the
    scheduler's thread does not run a task that has one. *)
Theorem no_stale_task es s a :
  exec es s -> doing (at_ s) a = true \/ looking (at_ s) a = true \/ has_thread (own s) a = true ->
  (exists tp, tp_at a (task_list (shared s)) = Some tp /\ (doing (at_ s) a = true <-> running tp = true)
     /\ (has_thread (own s) a = true -> in_thread tp = true /\ doing (at_ s) a = false))
  /\ NoDup (addr <$> task_list (shared s)) /\ NoDup (own s).*1.
Proof.
  intros H Ha. pose proof (sched_exec_sound _ _ H) as S. pose proof S as [D _]. split; [|exact D].
  assert (is_Some (tp_at a (task_list (shared s)))) as [tp E].
  { destruct Ha as [Ha|[Ha|Ha]]; [by apply (executes_known es); auto|by apply (sound_looking es)|by apply (executes_known es); auto]. }
  exists tp. split; [exact E|]. destruct (sound_core _ _ _ _ S E) as [C1 C2 C3 C4 C5 C6 C7]. rewrite <- C4. split; [done|].
  intros Ht%C5. split; [done|]. apply C6 in Ht. destruct (running tp); [|done]. rewrite C7 in Ht by done. done.
Qed.

(** Deletion.  A task whose deletion was counted by switch_scheduler_del_task_id
    or switch_scheduler_del_task_group is never started again, in any execution
    that follows; only if the scheduler's thread was busy with it at that moment
    (its [running] flag was set) it may be started one more time. *)
Theorem deleted_task_stops es s es1 s1 es2 s2 a w :
  exec es s -> sched_step s es1 s1 -> Marked a w ∈ es1 -> run s1 es2 s2 -> starts a es2 <= if w then 1 else 0.
Proof.
  intros H H1 Hm H2. pose proof (sched_exec_sound _ _ H) as S. apply (doomed_run _ _ _ H2 (es ++ es1) a (if w then 1 else 0)).
  - by eapply sched_step_sound.
  - by destruct w.
  - by eapply step_marked.
Qed.

(** ** An execution *)

Lemma run_quiet s s1 es s2 : sched_step s [] s1 -> run s1 es s2 -> run s es s2.
Proof. intros H1 H2. by apply (run_step _ [] _ es _ H1). Qed.

Lemma run_event s e s1 es s2 : sched_step s [e] s1 -> run s1 es s2 -> run s (e :: es) s2.
Proof. intros H1 H2. by apply (run_step _ [e] _ es _ H1). Qed.

(** One step, whose conditions hold by computation. *)
Tactic Notation "take" uconstr(c) :=
  first [refine c|refine (c _)|refine (c _ _)|refine (c _ _ _)|refine (c _ _ _ _)|refine (c _ _ _ _ _)|refine (c _ _ _ _ _ _)];
  try (vm_compute; reflexivity); by intros.

Tactic Notation "go" uconstr(c) :=
  first [eapply run_event; [take c|]|eapply run_quiet; [take c|]];
  lazymatch goal with |- run ?s ?es ?t => let s' := eval vm_compute in s in change (run s' es t) end.

(** A task that is to run every five seconds, from 105 on. *)
Definition beat (rt ex : Z) (busy : bool) (requested : Z) : container :=
  mk_container 0 (mk_task 100 rt 0 5 "none" None 1 (Event.switch_ci_hashfunc_default "none")) ex false 0 busy requested 77 0 "beat".

Definition beat_system (p : place) (tp : container) (q : list notice_kind) : system :=
  mk_system (mk_globals [tp] 1 1 (map (fun k => mk_notice k 1 "beat" "none" (match k with SWITCH_EVENT_ADD_SCHEDULE => 105 | _ => 111 end)) q) 1 []) p [].

(** It is added and run once, and its function returns at 106. *)
Lemma beat_exec :
  exec [Added 0; Started 0 105 105; Again 0]
    (beat_system (SAfter 0) (beat 111 0 true 0) [SWITCH_EVENT_ADD_SCHEDULE; SWITCH_EVENT_RE_SCHEDULE]).
Proof.
  unfold exec. go step_start. go (step_add _ _ _ 5 77 (Some "beat") None 0 None 0 100). go step_test.
  go (step_call _ _ _ _ (beat 105 0 false 0) 105). go step_return. go (step_finish _ _ _ _ 106 true). vm_compute. apply run_nil.
Qed.

(** Deleting it before the thread has taken the mutex again only requests the
    deletion; the task is started once more when it is due. *)
Lemma beat_marked :
  sched_step (beat_system (SAfter 0) (beat 111 0 true 0) [SWITCH_EVENT_ADD_SCHEDULE; SWITCH_EVENT_RE_SCHEDULE]) [Marked 0 true]
    (beat_system (SAfter 0) (beat 111 0 true 1) [SWITCH_EVENT_ADD_SCHEDULE; SWITCH_EVENT_RE_SCHEDULE]).
Proof.
  refine (step_del_id _ _ _ 1 (shared (beat_system (SAfter 0) (beat 111 0 true 1) [SWITCH_EVENT_ADD_SCHEDULE; SWITCH_EVENT_RE_SCHEDULE])) _ _);
    vm_compute; reflexivity.
Qed.

Lemma beat_again :
  run (beat_system (SAfter 0) (beat 111 0 true 1) [SWITCH_EVENT_ADD_SCHEDULE; SWITCH_EVENT_RE_SCHEDULE]) [Started 0 111 111]
    (beat_system (SFunc 0) (beat 111 111 true 1) [SWITCH_EVENT_RE_SCHEDULE]).
Proof.
  go step_relock. go step_scanned. go step_gap. go (step_keep _ _ _ _ (beat 111 0 false 1)). go step_reaped. go step_fire. go step_test.
  go (step_call _ _ _ _ (beat 111 0 false 1) 111). vm_compute. apply run_nil.
Qed.

Lemma task_life_witness : exists ph, life_of 0 [Added 0; Started 0 105 105; Again 0] = Some ph /\ ph = Waiting.
Proof.
  destruct (task_life _ _ 0 beat_exec) as (ph & H & _). exists ph. split; [exact H|]. cbn in H. congruence.
Defined.

Lemma no_stale_task_witness : exists tp, tp_at 0 [beat 111 0 true 0] = Some tp /\ running tp = true.
Proof.
  destruct (no_stale_task _ _ 0 beat_exec ltac:(left; reflexivity)) as [(tp & H1 & H2 & _) _]. exists tp.
  split; [exact H1|]. apply H2. reflexivity.
Defined.

Lemma deleted_task_stops_witness : starts 0 [Started 0 111 111] <= 1 /\ starts 0 [Started 0 111 111] = 1.
Proof.
  split; [|reflexivity].
  exact (deleted_task_stops _ _ _ _ _ _ 0 true beat_exec beat_marked ltac:(by apply list_elem_of_singleton) beat_again).
Defined.

(** A deletion that is counted, and the task still starts once more. *)
Lemma deleted_task_runs_again :
  exists es s s1 es2 s2, exec es s /\ (switch_scheduler_del_task_id 1 (shared s)).1 = 1 /\ sched_step s [Marked 0 true] s1 /\ at_ s = SAfter 0
    /\ run s1 es2 s2 /\ starts 0 es2 = 1.
Proof.
  do 5 eexists. split; [exact beat_exec|]. split; [reflexivity|]. split; [exact beat_marked|]. split; [reflexivity|].
  split; [exact beat_again|reflexivity].
Qed.

(** A time that has already passed is taken for an interval: a task for 1000
    seconds after the epoch runs 1000 seconds from now, and again and again. *)
Lemma past_time_repeats now g : 1000 < now ->
  let tp := new_task 1000 77 0 None None None 0 now g in runtime (task tp) = now + 1000 /\ repeat (task tp) = 1000.
Proof. intros H. unfold new_task. rewrite (proj2 (Z.ltb_lt 1000 now)) by done. cbn. split; [lia|reflexivity]. Qed.

End Scheduler.
