(* ===== verification/Stun.v ===== *)
(** * STUN packets (src/src/switch_stun.c, src/src/include/switch_stun.h)

    A packet is a header of twenty bytes and attributes, each with a type, a length
    and a value padded to a multiple of four bytes.  The code works on the packet in
    place: switch_stun_packet_parse checks a received packet and turns its numbers
    into host byte order, the other functions build a packet to be sent or read an
    attribute of a parsed one.

    Memory is the list of the bytes of the buffer and a pointer is an offset in it;
    an access outside of the buffer gives no result ([None]).  The host is little
    endian.  inet_pton, inet_ntop, HMAC and the random characters are parameters.
    The lookup over the network (switch_stun_lookup and its callers) is left out. *)

From S2P Require Import Prelude.
From S2P Require Import Crc32.
From stdpp Require Import strings pretty.
From Stdlib Require Import Btauto.

#[local] Open Scope list_scope.
#[local] Open Scope Z_scope.

Module Stun.

(** ** Memory *)

Notation mem := (list Z).

Implicit Types (b : mem) (i a len : Z).

Definition get b i : option Z := if 0 <=? i then b !! Z.to_nat i else None.

Definition put b i v : option mem :=
  if (0 <=? i) && (i <? Z.of_nat (length b)) then Some (<[Z.to_nat i := u8 v]> b) else None.

(** A uint16_t and a uint32_t of the host. *)
Definition rd16 b i : option Z := lo ← get b i; hi ← get b (i + 1); Some (lo + 256 * hi).
Definition wr16 b i v : option mem := b ← put b i v; put b (i + 1) (v / 256).
Definition rd32 b i : option Z := lo ← rd16 b i; hi ← rd16 b (i + 2); Some (lo + 65536 * hi).
Definition wr32 b i v : option mem := b ← wr16 b i v; wr16 b (i + 2) (v / 65536).

(** memcpy to and from the buffer. *)
Fixpoint write_bytes b i (l : list Z) : option mem :=
  match l with [] => Some b | x :: l => b ← put b i x; write_bytes b (i + 1) l end.
Fixpoint read_bytes b i (n : nat) : option (list Z) :=
  match n with O => Some [] | S n => x ← get b i; l ← read_bytes b (i + 1) n; Some (x :: l) end.

(** [x = ntohs(x)] and [x = ntohl(x)]. *)
Definition swap16 b i : option mem := v ← rd16 b i; wr16 b i (ntohs v).
Definition swap32 b i : option mem := v ← rd32 b i; wr32 b i (ntohl v).


(** ** Packets *)

Definition SWITCH_STUN_PACKET_MIN_LEN : Z := 20.
Definition SWITCH_STUN_ATTRIBUTE_MIN_LEN : Z := 8.
Definition STUN_MAGIC_COOKIE : Z := 0x2112A442.

Definition SWITCH_STUN_ATTR_MAPPED_ADDRESS : Z := 0x0001.
Definition SWITCH_STUN_ATTR_RESPONSE_ADDRESS : Z := 0x0002.
Definition SWITCH_STUN_ATTR_CHANGE_REQUEST : Z := 0x0003.
Definition SWITCH_STUN_ATTR_SOURCE_ADDRESS : Z := 0x0004.
Definition SWITCH_STUN_ATTR_CHANGED_ADDRESS : Z := 0x0005.
Definition SWITCH_STUN_ATTR_USERNAME : Z := 0x0006.
Definition SWITCH_STUN_ATTR_PASSWORD : Z := 0x0007.
Definition SWITCH_STUN_ATTR_MESSAGE_INTEGRITY : Z := 0x0008.
Definition SWITCH_STUN_ATTR_ERROR_CODE : Z := 0x0009.
Definition SWITCH_STUN_ATTR_UNKNOWN_ATTRIBUTES : Z := 0x000a.
Definition SWITCH_STUN_ATTR_REFLECTED_FROM : Z := 0x000b.
Definition SWITCH_STUN_ATTR_LIFETIME : Z := 0x000d.
Definition SWITCH_STUN_ATTR_ALTERNATE_SERVER : Z := 0x000e.
Definition SWITCH_STUN_ATTR_MAGIC_COOKIE : Z := 0x000f.
Definition SWITCH_STUN_ATTR_BANDWIDTH : Z := 0x0010.
Definition SWITCH_STUN_ATTR_DESTINATION_ADDRESS : Z := 0x0011.
Definition SWITCH_STUN_ATTR_SOURCE_ADDRESS2 : Z := 0x0012.
Definition SWITCH_STUN_ATTR_OPTIONS : Z := 0x8001.
Definition SWITCH_STUN_ATTR_XOR_MAPPED_ADDRESS : Z := 0x0020.
Definition SWITCH_STUN_ATTR_PRIORITY : Z := 0x0024.
Definition SWITCH_STUN_ATTR_USE_CAND : Z := 0x0025.
Definition SWITCH_STUN_ATTR_SOFTWARE : Z := 0x8022.
Definition SWITCH_STUN_ATTR_FINGERPRINT : Z := 0x8028.
Definition SWITCH_STUN_ATTR_CONTROLLED : Z := 0x8029.
Definition SWITCH_STUN_ATTR_CONTROLLING : Z := 0x802a.

(** The messages of switch_stun_message_t. *)
Definition messages : list Z :=
  [0x0001; 0x0101; 0x0111; 0x0002; 0x0102; 0x0112; 0x0003; 0x0103; 0x0113; 0x0004; 0x0104; 0x0114; 0x0115].

Definition SWITCH_STUN_BINDING_REQUEST : Z := 0x0001.
Definition SWITCH_STUN_BINDING_RESPONSE : Z := 0x0101.

(** The cases of the switch on the type of an attribute. *)
Inductive attr_class := Address | Address2 | Word | ErrorCode | Sized (n : Z) | Pairs | Bytes.

Definition class_of (type : Z) : attr_class :=
  if existsb (Z.eqb type) [SWITCH_STUN_ATTR_MAPPED_ADDRESS; SWITCH_STUN_ATTR_XOR_MAPPED_ADDRESS; SWITCH_STUN_ATTR_RESPONSE_ADDRESS;
       SWITCH_STUN_ATTR_SOURCE_ADDRESS; SWITCH_STUN_ATTR_CHANGED_ADDRESS; SWITCH_STUN_ATTR_REFLECTED_FROM;
       SWITCH_STUN_ATTR_ALTERNATE_SERVER; SWITCH_STUN_ATTR_DESTINATION_ADDRESS; SWITCH_STUN_ATTR_PRIORITY] then Address
  else if type =? SWITCH_STUN_ATTR_SOURCE_ADDRESS2 then Address2
  else if existsb (Z.eqb type) [SWITCH_STUN_ATTR_CHANGE_REQUEST; SWITCH_STUN_ATTR_LIFETIME; SWITCH_STUN_ATTR_BANDWIDTH;
       SWITCH_STUN_ATTR_OPTIONS] then Word
  else if type =? SWITCH_STUN_ATTR_ERROR_CODE then ErrorCode
  else if type =? SWITCH_STUN_ATTR_MESSAGE_INTEGRITY then Sized 20
  else if type =? SWITCH_STUN_ATTR_MAGIC_COOKIE then Sized 4
  else if type =? SWITCH_STUN_ATTR_UNKNOWN_ATTRIBUTES then Pairs
  else Bytes.

(** switch_stun_attribute_padded_length, of a length in host byte order. *)
Definition padded_length (length : Z) : Z :=
  s16 (if Z.land length 3 =? 0 then length else 4 + Z.land length (Z.lnot 3)).

(** ** Parsing *)

(** An attribute at [a] whose header has been converted; the flag is false where
    the packet is refused. *)
Definition check_attribute b a : option (bool * mem) :=
  type ← rd16 b a;
  length ← rd16 b (a + 2);
  match class_of type with
  | Address => b ← swap16 b (a + 6); Some (true, b)
  | Address2 =>
      family ← get b (a + 5);
      let addr_length := if family =? 1 then 4 else if family =? 2 then 16 else 0 in
      if addr_length =? 0 then Some (false, b)
      else if negb (length =? addr_length + 4) then Some (false, b)
      else b ← swap16 b (a + 6); Some (true, b)
  | Word => if negb (length =? 4) then Some (false, b) else b ← swap32 b (a + 4); Some (true, b)
  | ErrorCode => b ← swap32 b (a + 4); Some (true, b)
  | Sized n => Some (length =? n, b)
  | Pairs => Some (length mod 2 =? 0, b)
  | Bytes => Some (true, b)
  end.

(** The loop over the attributes; the result is whether it was left regularly, and
    [bytes_left].  Every round uses up at least four bytes, so [len] rounds are
    enough; [None] is an access outside of the buffer. *)
Fixpoint parse_loop (rounds : nat) len (hlen : Z) b a (bytes_left xlen : Z) : option (bool * mem * Z) :=
  match rounds with
  | O => None
  | S rounds =>
      if bytes_left <? 4 then Some (false, b, bytes_left)
      else
        b ← swap16 b (a + 2);
        b ← swap16 b a;
        let bytes_left := bytes_left - 4 in
        length ← rd16 b (a + 2);
        let alen := padded_length length in
        if (alen >? s32 bytes_left) || (alen <? 0) then Some (false, b, bytes_left)
        else
          '(ok, b) ← check_attribute b a;
          if negb ok then Some (false, b, bytes_left)
          else
            let bytes_left := bytes_left - alen in
            let xlen := xlen + 4 + alen in
            let a := a + 4 + alen in
            if a >? len then Some (true, b, bytes_left)
            else if xlen <? hlen then parse_loop rounds len hlen b a bytes_left xlen
            else Some (true, b, bytes_left)
  end.

Definition switch_stun_packet_parse b len : option (bool * mem) :=
  if len <? SWITCH_STUN_PACKET_MIN_LEN then Some (false, b)
  else
    b ← swap16 b 0;
    b ← swap16 b 2;
    type ← rd16 b 0;
    hlen ← rd16 b 2;
    let bytes_left := len - 20 in
    if hlen >? bytes_left then Some (false, b)
    else if negb (existsb (Z.eqb type) messages) then Some (false, b)
    else if (bytes_left <=? 0) || (hlen =? 0) || (bytes_left <? SWITCH_STUN_ATTRIBUTE_MIN_LEN) then Some (false, b)
    else
      '(ok, b, bytes_left) ← parse_loop (Z.to_nat len) len hlen b 20 bytes_left 0;
      if negb ok then Some (false, b)
      else if hlen + 20 >? len - bytes_left then b ← wr16 b 2 (len - bytes_left - 20); Some (true, b)
      else Some (true, b).

(** ** Building *)

Section build.

(** inet_pton and inet_ntop, for IPv6 and IPv4; HMAC with SHA-1. *)
Context (inet_pton : bool -> string -> option (list Z)).
Context (inet_ntop6 : list Z -> string).
Context (HMAC : string -> list Z -> list Z).

(** [id] are the twelve bytes of the caller or random ones. *)
Definition switch_stun_packet_build_header (type : Z) (id : list Z) b : option mem :=
  b ← wr16 b 0 (htons type);
  b ← wr16 b 2 0;
  b ← wr32 b 4 (htonl STUN_MAGIC_COOKIE);
  bytes ← read_bytes id 0 12;
  write_bytes b 8 bytes.

(** The place of the next attribute, and its header. *)
Definition next_attribute b : option Z := l ← rd16 b 2; Some (20 + ntohs l).

Definition open_attribute b a (type length : Z) : option mem := b ← wr16 b a (htons type); wr16 b (a + 2) (htons length).

(** [packet->header.length += htons(4 + padding) + attribute->length]. *)
Definition grow_length b (padding length : Z) : option mem :=
  l ← rd16 b 2; wr16 b 2 (u16 (l + (htons (4 + padding) + htons length))).

(** add_username, add_software and add_password; [value] is the text or random. *)
Definition add_text (type : Z) (value : list Z) (ulen : Z) b : option mem :=
  let m := ulen mod 4 in
  let padding := if m =? 0 then 0 else 4 - m in
  a ← next_attribute b;
  b ← open_attribute b a type ulen;
  bytes ← read_bytes value 0 (Z.to_nat ulen);
  b ← write_bytes b (a + 4) bytes;
  grow_length b padding ulen.

Definition switch_stun_packet_attribute_add_username := add_text SWITCH_STUN_ATTR_USERNAME.
Definition switch_stun_packet_attribute_add_software := add_text SWITCH_STUN_ATTR_SOFTWARE.
Definition switch_stun_packet_attribute_add_password := add_text SWITCH_STUN_ATTR_PASSWORD.

(** An attribute whose value is copied. *)
Definition add_value (type : Z) (value : list Z) b : option mem :=
  a ← next_attribute b;
  b ← open_attribute b a type (Z.of_nat (length value));
  b ← write_bytes b (a + 4) value;
  grow_length b 0 (Z.of_nat (length value)).

(** The bytes of a uint32_t in memory. *)
Definition bytes32 (v : Z) : list Z := [u8 v; u8 (v / 2 ^ 8); u8 (v / 2 ^ 16); u8 (v / 2 ^ 24)].

Definition switch_stun_packet_attribute_add_priority (priority : Z) := add_value SWITCH_STUN_ATTR_PRIORITY (bytes32 (htonl priority)).
Definition switch_stun_packet_attribute_add_use_candidate := add_value SWITCH_STUN_ATTR_USE_CAND [].
(** [rnd] are the eight random characters. *)
Definition switch_stun_packet_attribute_add_controlling (rnd : list Z) b : option mem :=
  bytes ← read_bytes rnd 0 8; add_value SWITCH_STUN_ATTR_CONTROLLING bytes b.
Definition switch_stun_packet_attribute_add_controlled (rnd : list Z) b : option mem :=
  bytes ← read_bytes rnd 0 8; add_value SWITCH_STUN_ATTR_CONTROLLED bytes b.

(** The HMAC and the check sum are taken after the header has its new length, of
    the bytes in front of the attribute. *)
Definition switch_stun_packet_attribute_add_integrity (pass : string) b : option mem :=
  a ← next_attribute b;
  b ← open_attribute b a SWITCH_STUN_ATTR_MESSAGE_INTEGRITY 20;
  l ← rd16 b 2;
  b ← grow_length b 0 20;
  bytes ← read_bytes b 0 (Z.to_nat (u16 (ntohs l + 20)));
  write_bytes b (a + 4) (HMAC pass bytes).

Definition switch_stun_packet_attribute_add_fingerprint b : option mem :=
  a ← next_attribute b;
  b ← open_attribute b a SWITCH_STUN_ATTR_FINGERPRINT 4;
  l ← rd16 b 2;
  b ← grow_length b 0 4;
  bytes ← read_bytes b 0 (Z.to_nat (u16 (ntohs l + 20)));
  write_bytes b (a + 4) (bytes32 (htonl (Z.lxor (Crc32.switch_crc32_8bytes bytes) 0x5354554e))).

(** v6_xor: the address at [a] with the cookie and the transaction id at [id]. *)
Definition v6_key (id : list Z) : list Z := [0x21; 0x12; 0xa4; 0x42] ++ id.

Definition v6_xor b a (id : Z) : option mem :=
  addr ← read_bytes b a 16;
  key ← read_bytes b id 12;
  write_bytes b a (zip_with Z.lxor addr (v6_key key)).

(** The address of the client; a failing inet_pton leaves the memory as it is. *)
Definition open_address (ipstr : string) (port : Z) (v6 : bool) b : option (Z * mem) :=
  a ← next_attribute b;
  b ← open_attribute b a SWITCH_STUN_ATTR_XOR_MAPPED_ADDRESS (if v6 then 20 else 8);
  b ← wr16 b (a + 6) (htons (Z.lxor port (Z.shiftr STUN_MAGIC_COOKIE 16)));
  b ← put b (a + 5) (if v6 then 2 else 1);
  b ← match inet_pton v6 ipstr with Some addr => write_bytes b (a + 8) addr | None => Some b end;
  Some (a, b).

Definition switch_stun_packet_attribute_add_binded_address (ipstr : string) (port : Z) (v6 : bool) b : option mem :=
  '(a, b) ← open_address ipstr port v6 b;
  grow_length b 0 (if v6 then 20 else 8).

Definition switch_stun_packet_attribute_add_xor_binded_address (ipstr : string) (port : Z) (v6 : bool) b : option mem :=
  '(a, b) ← open_address ipstr port v6 b;
  b ← (if v6 then v6_xor b (a + 8) 8
       else x ← rd32 b (a + 8); wr32 b (a + 8) (htonl (Z.lxor (ntohl x) STUN_MAGIC_COOKIE)));
  grow_length b 0 (if v6 then 20 else 8).

(** ** Reading the attribute at [a] of a parsed packet *)

Definition dotted (i : list Z) : string := String.concat "." (map pretty i).

(** The address as text, the port, and the packet afterwards. *)
Definition switch_stun_packet_attribute_get_mapped_address b a : option (string * Z) :=
  i ← read_bytes b (a + 8) 4;
  port ← rd16 b (a + 6);
  Some (dotted i, port).

Definition switch_stun_packet_attribute_get_xor_mapped_address b a : option (string * Z * mem) :=
  family ← get b (a + 5);
  cookie ← rd32 b 4;
  '(ipstr, b) ← (if family =? 2 then
                   b ← v6_xor b (a + 8) 8;
                   addr ← read_bytes b (a + 8) 16;
                   Some (inet_ntop6 addr, b)
                 else
                   x ← rd32 b (a + 8);
                   b ← wr32 b (a + 8) (Z.lxor x cookie);
                   i ← read_bytes b (a + 8) 4;
                   Some (dotted i, b));
  port ← rd16 b (a + 6);
  let port := Z.lxor port (Z.shiftr (ntohl cookie) 16) in
  b ← wr16 b (a + 6) port;
  Some (ipstr, port, b).

Definition switch_stun_packet_attribute_get_username b a len : option (list Z) :=
  length ← rd16 b (a + 2);
  read_bytes b (a + 4) (Z.to_nat (Z.min length len)).

End build.

(** ** Memory *)

Definition byte (x : Z) : Prop := 0 <= x < 256.
Notation zlen l := (Z.of_nat (length l)).

Lemma u8_byte x : byte x -> u8 x = x.
Proof. apply Z.mod_small. Qed.

Lemma get_at p x q i : i = zlen p -> get (p ++ x :: q) i = Some x.
Proof. intros ->. unfold get. rewrite (proj2 (Z.leb_le _ _)) by lia. by rewrite Nat2Z.id, lookup_app_r, Nat.sub_diag by lia. Qed.

Lemma put_at p x q i v : i = zlen p -> put (p ++ x :: q) i v = Some (p ++ u8 v :: q).
Proof.
  intros ->. unfold put. rewrite length_app. cbn [length]. rewrite (proj2 (Z.leb_le _ _)), (proj2 (Z.ltb_lt _ _)) by lia. cbn [andb].
  by rewrite Nat2Z.id, insert_app_r_alt, Nat.sub_diag by lia.
Qed.

Lemma shift1 {A} (p : list A) x q : p ++ x :: q = (p ++ [x]) ++ q.
Proof. by rewrite <- app_assoc. Qed.

Lemma zlen_snoc {A} (p : list A) x : zlen (p ++ [x]) = zlen p + 1.
Proof. rewrite length_app. cbn. lia. Qed.

Lemma rd16_at p x y q i : i = zlen p -> rd16 (p ++ x :: y :: q) i = Some (x + 256 * y).
Proof.
  intros ->. unfold rd16. rewrite (get_at p x (y :: q) (zlen p)) by done. cbn [mbind option_bind].
  rewrite (shift1 p x), (get_at _ y) by (rewrite zlen_snoc; lia). done.
Qed.

Lemma wr16_at p x y q i v : i = zlen p -> wr16 (p ++ x :: y :: q) i v = Some (p ++ u8 v :: u8 (v / 256) :: q).
Proof.
  intros ->. unfold wr16. rewrite put_at by done. cbn [mbind option_bind]. rewrite (shift1 p (u8 v)), put_at by (rewrite zlen_snoc; lia).
  by rewrite <- shift1.
Qed.

Lemma rd32_at p x y z w q i : i = zlen p -> rd32 (p ++ x :: y :: z :: w :: q) i = Some (x + 256 * y + 65536 * (z + 256 * w)).
Proof.
  intros ->. unfold rd32. rewrite (rd16_at p x y (z :: w :: q) (zlen p)) by done. cbn [mbind option_bind].
  rewrite (shift1 p x), (shift1 _ y), (rd16_at _ z w) by (rewrite !zlen_snoc; lia). done.
Qed.

Lemma wr32_at p x y z w q i v :
  i = zlen p -> wr32 (p ++ x :: y :: z :: w :: q) i v = Some (p ++ u8 v :: u8 (v / 256) :: u8 (v / 65536) :: u8 (v / 65536 / 256) :: q).
Proof.
  intros ->. unfold wr32. rewrite wr16_at by done. cbn [mbind option_bind].
  rewrite (shift1 p (u8 v)), (shift1 _ (u8 (v / 256))), wr16_at by (rewrite !zlen_snoc; lia). by rewrite <- !shift1.
Qed.

Lemma swap16_at p x y q i : i = zlen p -> byte x -> byte y -> swap16 (p ++ x :: y :: q) i = Some (p ++ y :: x :: q).
Proof.
  intros Hi Hx Hy. unfold swap16. rewrite rd16_at by done. cbn [mbind option_bind]. rewrite wr16_at by done. do 3 f_equal; unfold u8, ntohs, byte in *; [|f_equal]; dlia.
Qed.

Lemma swap32_at p x y z w q i :
  i = zlen p -> byte x -> byte y -> byte z -> byte w -> swap32 (p ++ x :: y :: z :: w :: q) i = Some (p ++ w :: z :: y :: x :: q).
Proof.
  intros Hi Hx Hy Hz Hw. unfold swap32. rewrite rd32_at by done. cbn [mbind option_bind]. rewrite wr32_at by done.
  set (v := ntohl _). assert (u8 v = w /\ u8 (v / 256) = z /\ u8 (v / 65536) = y /\ u8 (v / 65536 / 256) = x) as (-> & -> & -> & ->); [|done].
  unfold v, u8, ntohl, byte in *. split_and!; dlia.
Qed.

Lemma write_at p m q i l : i = zlen p -> length m = length l -> write_bytes (p ++ m ++ q) i l = Some (p ++ map u8 l ++ q).
Proof.
  revert p m i. induction l as [|x l IH]; intros p [|y m] i Hi Hl; try done. cbn [write_bytes app map]. rewrite put_at by done. cbn [mbind option_bind].
  rewrite (shift1 p (u8 x)), IH; [by rewrite <- shift1|rewrite zlen_snoc; lia|by injection Hl].
Qed.

Lemma read_at p l q i : i = zlen p -> read_bytes (p ++ l ++ q) i (length l) = Some l.
Proof.
  revert p i. induction l as [|x l IH]; intros p i Hi; [done|]. cbn [read_bytes app length]. rewrite get_at by done. cbn [mbind option_bind].
  rewrite (shift1 p x), IH by (rewrite zlen_snoc; lia). done.
Qed.

(** ** The format of packets *)

(** An attribute: its type, its value and its padding. *)
Record attribute := mk_attribute { type : Z; value : list Z; pad : list Z }.

Implicit Types (xs : list attribute).

(** The value after parsing: ports and words are in host byte order. *)
Definition host_value (t : Z) (v : list Z) : list Z :=
  match class_of t, v with
  | (Address | Address2), w :: x :: y :: z :: v => w :: x :: z :: y :: v
  | (Word | ErrorCode), w :: x :: y :: z :: v => z :: y :: x :: w :: v
  | _, _ => v
  end.

Definition big16 (z : Z) : list Z := [z / 256; z mod 256].
Definition little16 (z : Z) : list Z := [z mod 256; z / 256].

Definition wire (x : attribute) : list Z := big16 (type x) ++ big16 (zlen (value x)) ++ value x ++ pad x.
Definition host (x : attribute) : list Z := little16 (type x) ++ little16 (zlen (value x)) ++ host_value (type x) (value x) ++ pad x.

Definition size (x : attribute) : Z := 4 + zlen (value x) + zlen (pad x).
Definition total xs : Z := foldr (fun x n => size x + n) 0 xs.

(** What the parser asks of the value of an attribute. *)
Definition acceptable (t : Z) (v : list Z) : Prop :=
  match class_of t with
  | Address | ErrorCode => 4 <= zlen v
  | Address2 => (exists w y z r, v = w :: 1 :: y :: z :: r /\ zlen r = 4) \/ (exists w y z r, v = w :: 2 :: y :: z :: r /\ zlen r = 16)
  | Word => zlen v = 4
  | Sized n => zlen v = n
  | Pairs => zlen v mod 2 = 0
  | Bytes => True
  end.

Record proper (x : attribute) : Prop := {
  proper_type : 0 <= type x < 65536;
  proper_value : Forall byte (value x);
  proper_pad : zlen (pad x) < 4 /\ (zlen (value x) + zlen (pad x)) mod 4 = 0;
  proper_size : zlen (value x) + zlen (pad x) < 2 ^ 15;
  proper_class : acceptable (type x) (value x);
}.

Lemma host_value_length t v : length (host_value t v) = length v.
Proof. unfold host_value. destruct (class_of t), v as [|? [|? [|? [|? v]]]]; done. Qed.

Lemma wire_length (x : attribute) : zlen (wire x) = size x.
Proof. unfold wire, size. rewrite !length_app. cbn. lia. Qed.

Lemma host_length (x : attribute) : zlen (host x) = size x.
Proof. unfold host, size. rewrite !length_app, host_value_length. cbn. lia. Qed.

Lemma size_pos (x : attribute) : 4 <= size x.
Proof. unfold size. lia. Qed.

Lemma total_nonneg xs : 0 <= total xs.
Proof. unfold total. induction xs as [|x xs IH]; cbn [foldr]; [lia|]. pose proof (size_pos x). lia. Qed.

Lemma padded_length_spec n k : 0 <= n -> 0 <= k < 4 -> (n + k) mod 4 = 0 -> n + k < 2 ^ 15 -> padded_length n = n + k.
Proof.
  intros Hn Hk Hm Hl. unfold padded_length. assert (Z.land n 3 = n mod 4) as -> by (exact (Z.land_ones n 2 ltac:(lia))).
  assert (Z.land n (Z.lnot 3) = n / 4 * 4) as ->.
  { rewrite <- Z.ldiff_land. change 3 with (Z.ones 2). by rewrite Z.ldiff_ones_r, Z.shiftr_div_pow2, Z.shiftl_mul_pow2 by lia. }
  assert ((if n mod 4 =? 0 then n else 4 + n / 4 * 4) = n + k) as -> by (destruct (Z.eqb_spec (n mod 4) 0); dlia).
  unfold s16. change (2 ^ 15) with 32768 in *. change (2 ^ 16) with 65536. rewrite Z.mod_small; lia.
Qed.

Lemma split16 z : 0 <= z < 65536 -> byte (z / 256) /\ byte (z mod 256) /\ z mod 256 + 256 * (z / 256) = z.
Proof. unfold byte. intros H. split_and!; dlia. Qed.

(** The parser accepts an acceptable attribute and puts it in host order. *)
Lemma check_attribute_at p t l v q :
  0 <= t < 65536 -> l = zlen v -> l < 65536 -> Forall byte v -> acceptable t v ->
  check_attribute (p ++ little16 t ++ little16 l ++ v ++ q) (zlen p) = Some (true, p ++ little16 t ++ little16 l ++ host_value t v ++ q).
Proof.
  intros Ht El Hl Hv Ha. destruct (split16 t Ht) as (_ & _ & Et). destruct (split16 l ltac:(lia)) as (_ & _ & El').
  unfold check_attribute. set (b := p ++ little16 t ++ little16 l ++ v ++ q).
  assert (rd16 b (zlen p) = Some t) as -> by (unfold b, little16; cbn [app]; rewrite rd16_at by done; by rewrite Et).
  assert (rd16 b (zlen p + 2) = Some l) as ->.
  { unfold b, little16. cbn [app]. rewrite (shift1 p), (shift1 (p ++ _)), rd16_at by (rewrite !zlen_snoc; lia). by rewrite El'. }
  cbn [mbind option_bind]. unfold acceptable, host_value in *.
  assert (forall w x y z r, v = w :: x :: y :: z :: r ->
    swap16 b (zlen p + 6) = Some (p ++ little16 t ++ little16 l ++ (w :: x :: z :: y :: r) ++ q)
    /\ swap32 b (zlen p + 4) = Some (p ++ little16 t ++ little16 l ++ (z :: y :: x :: w :: r) ++ q) /\ get b (zlen p + 5) = Some x) as Hs.
  { intros w x y z r E. rewrite E in Hv. apply Forall_cons in Hv as [Hw Hv]. apply Forall_cons in Hv as [Hx Hv].
    apply Forall_cons in Hv as [Hy Hv]. apply Forall_cons in Hv as [Hz Hv]. unfold b, little16. rewrite E. cbn [app].
    rewrite (shift1 p), (shift1 (p ++ _)), (shift1 ((p ++ _) ++ _)), (shift1 (((p ++ _) ++ _) ++ _)).
    set (p4 := (((p ++ _) ++ _) ++ _) ++ _). assert (zlen p4 = zlen p + 4) as L4 by (unfold p4; rewrite !zlen_snoc; lia).
    rewrite swap32_at by (done || lia). rewrite (shift1 p4 w), (get_at _ x) by (rewrite zlen_snoc; lia).
    rewrite (shift1 _ x), swap16_at by (done || (rewrite !zlen_snoc; lia)). unfold p4. rewrite <- !app_assoc. by split_and!. }
  destruct (class_of t).
  - destruct v as [|w [|x [|y [|z r]]]]; cbn [length] in Ha; try lia. destruct (Hs w x y z r eq_refl) as (-> & _ & _). done.
  - destruct Ha as [(w & y & z & r & E & Lr)|(w & y & z & r & E & Lr)]; destruct (Hs w _ y z r E) as (-> & _ & ->); cbn [mbind option_bind].
    + cbn. replace l with 8 by (rewrite E in El; cbn [length] in El; lia). cbn. by rewrite E.
    + cbn. replace l with 20 by (rewrite E in El; cbn [length] in El; lia). cbn. by rewrite E.
  - destruct v as [|w [|x [|y [|z r]]]]; cbn [length] in Ha; try lia. destruct (Hs w x y z r eq_refl) as (_ & -> & _).
    cbn [length] in El. replace l with 4 by lia. done.
  - destruct v as [|w [|x [|y [|z r]]]]; cbn [length] in Ha; try lia. by destruct (Hs w x y z r eq_refl) as (_ & -> & _).
  - by rewrite (proj2 (Z.eqb_eq l n)) by lia.
  - by rewrite (proj2 (Z.eqb_eq (l mod 2) 0)) by congruence.
  - done.
Qed.

Lemma parse_loop_at xs rounds len hlen p q bl n :
  xs <> [] -> Forall proper xs -> (length xs <= rounds)%nat -> n + total xs = hlen -> total xs <= bl -> bl < 2 ^ 31 -> zlen p + total xs <= len ->
  parse_loop rounds len hlen (p ++ concat (map wire xs) ++ q) (zlen p) bl n = Some (true, p ++ concat (map host xs) ++ q, bl - total xs).
Proof.
  revert xs p bl n. induction rounds as [|rounds IH]; intros xs p bl n Hx Hp Hr Hn Hb Hbig Hl; [destruct xs; [done|cbn in Hr; lia]|].
  destruct xs as [|x xs]; [done|]. apply Forall_cons in Hp as [[P1 P2 P3 P4 P5] Hp]. cbn [total foldr] in *. fold (total xs) in *.
  pose proof (total_nonneg xs) as Hnn. pose proof (size_pos x) as Hs. set (L := zlen (value x)) in *.
  assert (0 <= L) as HL by (unfold L; lia).
  destruct (split16 (type x) P1) as (T1 & T2 & T3). destruct (split16 L ltac:(lia)) as (L1 & L2 & L3).
  cbn [parse_loop]. rewrite (proj2 (Z.ltb_ge bl 4)) by lia. cbn [map concat]. set (r := concat (map wire xs) ++ q).
  assert ((p ++ (wire x ++ concat (map wire xs)) ++ q) = p ++ type x / 256 :: type x mod 256 :: L / 256 :: L mod 256 :: value x ++ pad x ++ r) as ->
    by (unfold wire, r, big16; cbn [app]; by rewrite <- !app_assoc).
  rewrite (shift1 p (type x / 256)), (shift1 _ (type x mod 256)), swap16_at by (done || (rewrite !zlen_snoc; lia)).
  cbn [mbind option_bind]. rewrite <- !shift1. rewrite (swap16_at p) by done. cbn [mbind option_bind].
  rewrite (shift1 p (type x mod 256)), (shift1 _ (type x / 256)). rewrite rd16_at by (rewrite !zlen_snoc; lia). cbn [mbind option_bind]. rewrite <- !shift1.
  rewrite L3, (padded_length_spec L (zlen (pad x))) by lia.
  assert (L + zlen (pad x) = size x - 4) as -> by (unfold size, L; lia).
  rewrite (s32_small (bl - 4)) by lia. rewrite (Z.gtb_ltb _ (bl - 4)), (proj2 (Z.ltb_ge (bl - 4) _)), (proj2 (Z.ltb_ge _ 0)) by lia. cbn [orb].
  change (type x mod 256 :: type x / 256 :: L mod 256 :: L / 256 :: value x ++ pad x ++ r)
    with (little16 (type x) ++ little16 L ++ value x ++ pad x ++ r).
  rewrite check_attribute_at by (done || lia). cbn [mbind option_bind negb].
  replace (zlen p + 4 + (size x - 4)) with (zlen (p ++ host x)) by (rewrite length_app, Nat2Z.inj_add, host_length; lia).
  replace (bl - 4 - (size x - 4)) with (bl - size x) by lia. replace (n + 4 + (size x - 4)) with (n + size x) by lia.
  assert (p ++ little16 (type x) ++ little16 L ++ host_value (type x) (value x) ++ pad x ++ r = (p ++ host x) ++ concat (map wire xs) ++ q) as ->
    by (unfold host, L, r; by rewrite <- !app_assoc).
  rewrite Z.gtb_ltb, (proj2 (Z.ltb_ge len _)) by (rewrite length_app, Nat2Z.inj_add, host_length; lia).
  destruct xs as [|y xs].
  - cbn in *. rewrite (proj2 (Z.ltb_ge _ hlen)) by lia. rewrite app_nil_r, <- app_assoc. do 2 f_equal. lia.
  - assert (4 <= total (y :: xs)) by (cbn; pose proof (size_pos y); pose proof (total_nonneg xs); unfold total in *; lia).
    rewrite (proj2 (Z.ltb_lt _ hlen)) by lia. rewrite IH; [|done|done|cbn in *; lia|lia|lia|lia|rewrite length_app, Nat2Z.inj_add, host_length; lia].
    rewrite <- !app_assoc. do 2 f_equal. lia.
Qed.

(** ** Packets *)

Definition cookie_bytes : list Z := [0x21; 0x12; 0xa4; 0x42].

(** A packet to be sent, and after parsing; [id] is the transaction id. *)
Definition packet (ty : Z) (id : list Z) xs : list Z := big16 ty ++ big16 (total xs) ++ cookie_bytes ++ id ++ concat (map wire xs).
Definition parsed (ty : Z) (id : list Z) xs : list Z := little16 ty ++ little16 (total xs) ++ cookie_bytes ++ id ++ concat (map host xs).

Lemma concat_wire_length xs : zlen (concat (map wire xs)) = total xs.
Proof.
  induction xs as [|x xs IH]; [done|]. cbn [map concat]. rewrite length_app, Nat2Z.inj_add, IH, wire_length. done.
Qed.

Lemma packet_length ty id xs : length id = 12%nat -> zlen (packet ty id xs) = 20 + total xs.
Proof. intros Hi. unfold packet. rewrite !length_app, !Nat2Z.inj_add, concat_wire_length, Hi. cbn. lia. Qed.

Lemma total_length xs : 4 * Z.of_nat (length xs) <= total xs.
Proof. unfold total. induction xs as [|x xs IH]; [done|]. cbn [foldr length]. pose proof (size_pos x). lia. Qed.

Lemma messages_small ty : existsb (Z.eqb ty) messages = true -> 0 <= ty < 65536.
Proof. intros (m & Hm & ->%Z.eqb_eq)%List.existsb_exists. cbn in Hm. intuition lia. Qed.

Lemma parse_packet ty id xs q len :
  existsb (Z.eqb ty) messages = true -> length id = 12%nat -> xs <> [] -> Forall proper xs -> total xs < 65536 ->
  28 <= len < 2 ^ 31 -> 20 + total xs <= len ->
  switch_stun_packet_parse (packet ty id xs ++ q) len = Some (true, parsed ty id xs ++ q).
Proof.
  intros Hty Hid Hx Hp Ht H28 Hl. pose proof (messages_small ty Hty) as Hm. destruct (split16 ty Hm) as (T1 & T2 & T3).
  pose proof (total_length xs) as Hn. assert (1 <= zlen xs) as Hx1 by (destruct xs; [done|cbn [length]; lia]).
  destruct (split16 (total xs) ltac:(lia)) as (L1 & L2 & L3).
  unfold switch_stun_packet_parse, SWITCH_STUN_PACKET_MIN_LEN, SWITCH_STUN_ATTRIBUTE_MIN_LEN. rewrite (proj2 (Z.ltb_ge len 20)) by lia.
  unfold packet, big16. rewrite <- !app_assoc. cbn [app]. set (r := cookie_bytes ++ id ++ concat (map wire xs) ++ q).
  change (ty / 256 :: ty mod 256 :: total xs / 256 :: total xs mod 256 :: r)
    with ([] ++ ty / 256 :: ty mod 256 :: total xs / 256 :: total xs mod 256 :: r).
  rewrite swap16_at by done. cbn [mbind option_bind app].
  change (ty mod 256 :: ty / 256 :: total xs / 256 :: total xs mod 256 :: r)
    with ([ty mod 256; ty / 256] ++ total xs / 256 :: total xs mod 256 :: r).
  rewrite swap16_at by done. cbn [mbind option_bind app].
  set (b := ty mod 256 :: ty / 256 :: total xs mod 256 :: total xs / 256 :: r).
  assert (rd16 b 0 = Some ty) as -> by (change b with ([] ++ b); unfold b; rewrite rd16_at by done; by rewrite T3).
  assert (rd16 b 2 = Some (total xs)) as ->.
  { change b with ([ty mod 256; ty / 256] ++ total xs mod 256 :: total xs / 256 :: r). rewrite rd16_at by done. by rewrite L3. }
  cbn [mbind option_bind]. rewrite Hty, Z.gtb_ltb, (proj2 (Z.ltb_ge (len - 20) _)), (proj2 (Z.leb_gt (len - 20) 0)) by lia.
  rewrite (proj2 (Z.eqb_neq (total xs) 0)), (proj2 (Z.ltb_ge (len - 20) 8)) by lia. cbn [negb orb].
  assert (b = (little16 ty ++ little16 (total xs) ++ cookie_bytes ++ id) ++ concat (map wire xs) ++ q) as -> by (unfold b, r; by rewrite <- !app_assoc).
  replace 20 with (zlen (little16 ty ++ little16 (total xs) ++ cookie_bytes ++ id)) at 1 by (rewrite !length_app, Hid; done).
  rewrite parse_loop_at; [|done|done|lia|lia|lia|lia|rewrite !length_app, Hid; cbn; lia]. cbn [mbind option_bind negb].
  rewrite Z.gtb_ltb, (proj2 (Z.ltb_ge _ (total xs + 20))) by lia. unfold parsed. by rewrite <- !app_assoc.
Qed.

(** ** Building a packet *)

Lemma wr_big16 p x y q i v : i = zlen p -> 0 <= v < 65536 -> wr16 (p ++ x :: y :: q) i (htons v) = Some (p ++ big16 v ++ q).
Proof. intros Hi Hv. rewrite wr16_at by done. unfold big16. cbn [app]. do 3 f_equal; unfold u8, htons, ntohs; [|f_equal]; dlia. Qed.

Lemma next_attribute_at ty id xs q : total xs < 65536 -> next_attribute (packet ty id xs ++ q) = Some (20 + total xs).
Proof.
  intros Ht. pose proof (total_nonneg xs). unfold next_attribute, packet, big16. rewrite <- !app_assoc. cbn [app].
  match goal with |- context [rd16 (?x :: ?y :: ?z :: ?w :: ?r) 2] => change (x :: y :: z :: w :: r) with ([x; y] ++ z :: w :: r) end.
  rewrite rd16_at by done. cbn [mbind option_bind]. do 2 f_equal. unfold ntohs. dlia.
Qed.

Lemma grow_length_at ty n padding len r : 0 <= n -> 0 <= padding -> 0 <= len -> n + 4 + padding + len < 256 ->
  grow_length (big16 ty ++ big16 n ++ r) padding len = Some (big16 ty ++ big16 (n + 4 + padding + len) ++ r).
Proof.
  intros Hn Hp Hl Hs. unfold grow_length, big16. cbn [app].
  match goal with |- context [rd16 (?x :: ?y :: ?z :: ?w :: ?r) 2] => change (x :: y :: z :: w :: r) with ([x; y] ++ z :: w :: r) end.
  rewrite rd16_at by done. cbn [mbind option_bind]. rewrite wr16_at by done. cbn [app]. do 4 f_equal; unfold u8, u16, htons, ntohs; [|f_equal]; dlia.
Qed.

Lemma total_snoc xs x : total (xs ++ [x]) = total xs + size x.
Proof. unfold total. induction xs as [|y xs IH]; cbn [foldr app]; [lia|]. rewrite IH. lia. Qed.

Lemma packet_snoc ty id xs x q :
  big16 ty ++ big16 (total xs + size x) ++ cookie_bytes ++ id ++ concat (map wire xs) ++ wire x ++ q = packet ty id (xs ++ [x]) ++ q.
Proof. unfold packet. rewrite total_snoc, map_app, concat_app. cbn [map concat]. by rewrite app_nil_r, <- !app_assoc. Qed.

(** The header of an attribute behind a packet. *)
Lemma open_at ty id xs h1 h2 h3 h4 r t len :
  length id = 12%nat -> 0 <= t < 65536 -> 0 <= len < 65536 ->
  open_attribute (packet ty id xs ++ h1 :: h2 :: h3 :: h4 :: r) (20 + total xs) t len = Some (packet ty id xs ++ big16 t ++ big16 len ++ r).
Proof.
  intros Hi Ht Hl. unfold open_attribute. rewrite wr_big16 by (done || by rewrite packet_length). cbn [mbind option_bind].
  rewrite (app_assoc _ (big16 t)), wr_big16 by (done || (rewrite length_app, Nat2Z.inj_add, packet_length by done; cbn; lia)).
  by rewrite <- app_assoc.
Qed.

(** Adding an attribute behind a packet: [h1] to [h4], [old] and [pd] are the bytes
    that were there. *)
Record roomy ty id xs h1 h2 h3 h4 (old pd q : list Z) (v : list Z) b : Prop := {
  roomy_is : b = packet ty id xs ++ h1 :: h2 :: h3 :: h4 :: old ++ pd ++ q;
  roomy_id : length id = 12%nat;
  roomy_old : length old = length v;
  roomy_small : total xs + 4 + zlen v + zlen pd < 256;
}.

Lemma grow_packet ty id xs t v pd q :
  total xs + 4 + zlen v + zlen pd < 256 ->
  grow_length (packet ty id xs ++ big16 t ++ big16 (zlen v) ++ v ++ pd ++ q) (zlen pd) (zlen v)
  = Some (packet ty id (xs ++ [mk_attribute t v pd]) ++ q).
Proof.
  intros Hs. pose proof (total_nonneg xs). rewrite <- packet_snoc. unfold packet. rewrite <- !app_assoc. rewrite grow_length_at by lia.
  replace (total xs + 4 + zlen pd + zlen v) with (total xs + size (mk_attribute t v pd)) by (unfold size; cbn; lia).
  unfold wire. cbn [type value pad]. by rewrite <- !app_assoc.
Qed.

Lemma map_u8 l : Forall byte l -> map u8 l = l.
Proof. induction 1 as [|x l Hx _ IH]; [done|]. cbn. by rewrite IH, u8_byte. Qed.

Lemma write_value ty id xs t len old v r :
  length id = 12%nat -> length old = length v -> Forall byte v ->
  write_bytes (packet ty id xs ++ big16 t ++ big16 len ++ old ++ r) (20 + total xs + 4) v
  = Some (packet ty id xs ++ big16 t ++ big16 len ++ v ++ r).
Proof.
  intros Hi Hl Hv. rewrite !app_assoc, <- (app_assoc _ old), write_at; [|rewrite !length_app, !Nat2Z.inj_add, packet_length by done; cbn; lia|done].
  by rewrite map_u8, <- !app_assoc.
Qed.

Lemma add_value_at ty id xs h1 h2 h3 h4 old q v b t :
  roomy ty id xs h1 h2 h3 h4 old [] q v b -> 0 <= t < 65536 -> Forall byte v ->
  add_value t v b = Some (packet ty id (xs ++ [mk_attribute t v []]) ++ q).
Proof.
  intros [-> Hi Ho Hs] Ht Hv. pose proof (total_nonneg xs). cbn [length] in Hs. unfold add_value. rewrite next_attribute_at by lia. cbn [mbind option_bind].
  rewrite open_at by (done || lia). cbn [mbind option_bind]. rewrite write_value by done. cbn [mbind option_bind].
  exact (grow_packet ty id xs t v [] q ltac:(cbn [length]; lia)).
Qed.

Lemma add_text_at ty id xs h1 h2 h3 h4 old pd q v b t text :
  roomy ty id xs h1 h2 h3 h4 old pd q v b -> 0 <= t < 65536 -> Forall byte v -> zlen pd < 4 -> (zlen v + zlen pd) mod 4 = 0 ->
  add_text t (v ++ text) (zlen v) b = Some (packet ty id (xs ++ [mk_attribute t v pd]) ++ q).
Proof.
  intros [-> Hi Ho Hs] Ht Hv Hp Hm. pose proof (total_nonneg xs). unfold add_text. rewrite next_attribute_at by lia. cbn [mbind option_bind].
  rewrite open_at by (done || lia). cbn [mbind option_bind]. rewrite Nat2Z.id, (read_at [] v text) by done. cbn [mbind option_bind].
  rewrite write_value by done. cbn [mbind option_bind].
  replace (if zlen v mod 4 =? 0 then 0 else 4 - zlen v mod 4) with (zlen pd) by (destruct (Z.eqb_spec (zlen v mod 4) 0); dlia).
  by rewrite grow_packet.
Qed.

(** *** Addresses *)

Lemma le32_sum x y z w : Crc32.le32 x y z w = x + 256 * y + 65536 * (z + 256 * w).
Proof. unfold Crc32.le32. rewrite !Z.shiftl_mul_pow2 by lia. lia. Qed.

Lemma rd32_le p x y z w q i : i = zlen p -> rd32 (p ++ x :: y :: z :: w :: q) i = Some (Crc32.le32 x y z w).
Proof. intros Hi. rewrite rd32_at by done. by rewrite le32_sum. Qed.

Lemma wr32_le p x y z w q i (a b c d : Z) :
  i = zlen p -> byte a -> byte b -> byte c -> byte d -> wr32 (p ++ x :: y :: z :: w :: q) i (Crc32.le32 a b c d) = Some (p ++ a :: b :: c :: d :: q).
Proof.
  intros Hi Ha Hb Hc Hd. rewrite wr32_at, le32_sum by done. set (v := _ + _).
  assert (u8 v = a /\ u8 (v / 256) = b /\ u8 (v / 65536) = c /\ u8 (v / 65536 / 256) = d) as (-> & -> & -> & ->); [|done].
  unfold v, u8, byte in *. split_and!; dlia.
Qed.

Lemma ntohl_le (a b c d : Z) : byte a -> byte b -> byte c -> byte d -> ntohl (Crc32.le32 a b c d) = Crc32.le32 d c b a.
Proof. intros. rewrite !le32_sum. unfold ntohl, byte in *. dlia. Qed.

Lemma byte_lxor x y : byte x -> byte y -> byte (Z.lxor x y).
Proof. apply (Crc32.lxor_range 8). lia. Qed.

Lemma le32_is (a b c d : Z) : byte a -> byte b -> byte c -> byte d ->
  Crc32.le32 a b c d = Z.lxor a (Z.lxor (Z.shiftl b 8) (Z.lxor (Z.shiftl c 16) (Z.shiftl d 24))).
Proof. intros. by apply Crc32.le32_lxor. Qed.

Lemma bytes4 (a b c d : Z) : byte a -> byte b -> byte c -> byte d -> Forall byte [a; b; c; d].
Proof. intros. by repeat (apply Forall_cons; split). Qed.

Lemma lxor_le (a b c d a' b' c' d' : Z) : Forall byte [a; b; c; d] -> Forall byte [a'; b'; c'; d'] ->
  Z.lxor (Crc32.le32 a b c d) (Crc32.le32 a' b' c' d') = Crc32.le32 (Z.lxor a a') (Z.lxor b b') (Z.lxor c c') (Z.lxor d d').
Proof.
  intros H H'. repeat (apply Forall_cons in H as [? H]). repeat (apply Forall_cons in H' as [? H']).
  rewrite !le32_is by (done || by apply byte_lxor). rewrite !Z.shiftl_lxor.
  apply Z.bits_inj'. intros i _. rewrite !Z.lxor_spec. btauto.
Qed.

Lemma cookie_le : STUN_MAGIC_COOKIE = Crc32.le32 0x42 0xa4 0x12 0x21.
Proof. reflexivity. Qed.

Lemma cookie_byte : Forall byte [0x42; 0xa4; 0x12; 0x21] /\ Forall byte cookie_bytes.
Proof. split; repeat constructor; unfold byte; lia. Qed.

(** The key an address is masked with: the cookie and the transaction id. *)
Definition masked (addr id : list Z) : list Z := zip_with Z.lxor addr (cookie_bytes ++ id).

Lemma masked4 (a b c d : Z) id : masked [a; b; c; d] id = [Z.lxor a 0x21; Z.lxor b 0x12; Z.lxor c 0xa4; Z.lxor d 0x42].
Proof. reflexivity. Qed.

Lemma masked_byte addr id : Forall byte addr -> Forall byte id -> Forall byte (masked addr id).
Proof.
  intros Ha Hi. unfold masked. assert (Forall byte (cookie_bytes ++ id)) as Hk by (apply Forall_app; split; [apply cookie_byte|done]).
  revert Ha Hk. generalize (cookie_bytes ++ id). induction addr as [|x addr IH]; intros [|k key] Ha Hk; try constructor.
  - apply Forall_cons in Ha as [? _]. apply Forall_cons in Hk as [? _]. by apply byte_lxor.
  - apply Forall_cons in Ha as [_ ?]. apply Forall_cons in Hk as [_ ?]. by apply IH.
Qed.

Lemma masked_length addr id : (length addr <= 4 + length id)%nat -> length (masked addr id) = length addr.
Proof. intros H. unfold masked. rewrite length_zip_with, length_app. cbn [length cookie_bytes]. lia. Qed.

Lemma masked_masked addr id : (length addr <= 4 + length id)%nat -> masked (masked addr id) id = addr.
Proof.
  unfold masked. assert (length (cookie_bytes ++ id) = 4 + length id)%nat as <- by done. generalize (cookie_bytes ++ id).
  induction addr as [|x addr IH]; intros [|k key] H; cbn in *; try done; try lia.
  rewrite IH by lia. by rewrite Z.lxor_assoc, Z.lxor_nilpotent, Z.lxor_0_r.
Qed.

(** The masking of the four or sixteen bytes of an address behind [p]. *)
Lemma xor_v4_at p addr q i : i = zlen p -> length addr = 4%nat -> Forall byte addr ->
  (x ← rd32 (p ++ addr ++ q) i; wr32 (p ++ addr ++ q) i (htonl (Z.lxor (ntohl x) STUN_MAGIC_COOKIE))) = Some (p ++ masked addr [] ++ q).
Proof.
  intros Hi Hl Ha. destruct addr as [|a [|b [|c [|d [|? ?]]]]]; try done. pose proof Ha as Ha'. repeat (apply Forall_cons in Ha' as [? Ha']).
  destruct cookie_byte as [K _]. pose proof K as K'. repeat (apply Forall_cons in K' as [? K']).
  cbn [app]. rewrite rd32_le by done. cbn [mbind option_bind]. rewrite ntohl_le, cookie_le, lxor_le by (done || by apply bytes4).
  unfold htonl. rewrite ntohl_le, wr32_le by (done || by apply byte_lxor). by rewrite masked4.
Qed.

Lemma v6_xor_at (hd id r addr q : list Z) i :
  let p := hd ++ cookie_bytes ++ id ++ r in
  length hd = 4%nat -> i = zlen p -> length id = 12%nat -> length addr = 16%nat -> Forall byte addr -> Forall byte id ->
  v6_xor (p ++ addr ++ q) i 8 = Some (p ++ masked addr id ++ q).
Proof.
  intros p Hh Hi Hid Hl Ha Hb. unfold v6_xor. rewrite <- Hl, (read_at p addr q i Hi). cbn [mbind option_bind].
  assert (read_bytes (p ++ addr ++ q) 8 12 = Some id) as ->.
  { rewrite <- Hid. unfold p. assert ((hd ++ cookie_bytes ++ id ++ r) ++ addr ++ q = (hd ++ cookie_bytes) ++ id ++ r ++ addr ++ q) as ->
      by (by rewrite <- !app_assoc). apply read_at. rewrite length_app, Hh. done. }
  cbn [mbind option_bind]. change (zip_with Z.lxor addr (v6_key id)) with (masked addr id).
  rewrite write_at; [|done|by rewrite masked_length by (rewrite Hl, Hid; lia)]. by rewrite map_u8 by (by apply masked_byte).
Qed.

Section ops.
Context (inet_pton : bool -> string -> option (list Z)).

Notation add_xor_address := (switch_stun_packet_attribute_add_xor_binded_address inet_pton).

(** The value of an address attribute; its first byte [w] is not written. *)
Definition address_value (w : Z) (v6 : bool) (port : Z) (addr : list Z) : list Z :=
  w :: (if v6 then 2 else 1) :: big16 (Z.lxor port 0x2112) ++ addr.

Lemma open_address_at ty id xs h1 h2 h3 h4 w f p0 p1 old q ipstr port (v6 : bool) addr :
  inet_pton v6 ipstr = Some addr -> length addr = (if v6 then 16 else 4)%nat -> length old = length addr -> Forall byte addr ->
  length id = 12%nat -> 0 <= port < 65536 -> total xs < 256 ->
  open_address inet_pton ipstr port v6 (packet ty id xs ++ h1 :: h2 :: h3 :: h4 :: w :: f :: p0 :: p1 :: old ++ q)
  = Some (20 + total xs, packet ty id xs ++ big16 SWITCH_STUN_ATTR_XOR_MAPPED_ADDRESS ++ big16 (if v6 then 20 else 8)
      ++ address_value w v6 port addr ++ q).
Proof.
  intros Hpton Hl Hold Ha Hid Hport Ht. pose proof (total_nonneg xs). unfold open_address. rewrite next_attribute_at by lia. cbn [mbind option_bind].
  rewrite open_at by (done || (unfold SWITCH_STUN_ATTR_XOR_MAPPED_ADDRESS; lia) || (destruct v6; lia)). cbn [mbind option_bind].
  set (P := packet ty id xs ++ big16 SWITCH_STUN_ATTR_XOR_MAPPED_ADDRESS ++ big16 (if v6 then 20 else 8)).
  assert (zlen P = 24 + total xs) as LP by (unfold P; rewrite !length_app, !Nat2Z.inj_add, packet_length by done; cbn; lia).
  assert (forall r, packet ty id xs ++ big16 SWITCH_STUN_ATTR_XOR_MAPPED_ADDRESS ++ big16 (if v6 then 20 else 8) ++ r = P ++ r) as HP
    by (intros r; unfold P; by rewrite <- !app_assoc). rewrite !HP.
  change (Z.shiftr STUN_MAGIC_COOKIE 16) with 0x2112.
  assert (0 <= Z.lxor port 0x2112 < 65536) as Hx by (apply (Crc32.lxor_range 16); lia).
  rewrite (shift1 P w), (shift1 _ f), wr_big16 by (done || (rewrite !zlen_snoc; lia)). cbn [mbind option_bind]. rewrite <- (shift1 (P ++ [w])).
  rewrite put_at by (rewrite zlen_snoc; lia). cbn [mbind option_bind]. rewrite Hpton.
  set (fam := u8 _). set (port' := big16 _). rewrite (shift1 (P ++ [w]) fam), (app_assoc _ port').
  assert (zlen (((P ++ [w]) ++ [fam]) ++ port') = 28 + total xs) as LP' by (rewrite length_app, Nat2Z.inj_add, !zlen_snoc; unfold port', big16; cbn [length]; lia).
  rewrite write_at by (done || lia). cbn [mbind option_bind]. rewrite map_u8 by done. do 2 f_equal.
  unfold address_value. rewrite <- !app_assoc. by destruct v6.
Qed.

Lemma add_xor_at ty id xs h1 h2 h3 h4 w f p0 p1 old q ipstr port (v6 : bool) addr :
  inet_pton v6 ipstr = Some addr -> length addr = (if v6 then 16 else 4)%nat -> length old = length addr -> Forall byte addr ->
  Forall byte id -> length id = 12%nat -> 0 <= port < 65536 -> total xs + 8 + zlen addr < 256 ->
  add_xor_address ipstr port v6 (packet ty id xs ++ h1 :: h2 :: h3 :: h4 :: w :: f :: p0 :: p1 :: old ++ q)
  = Some (packet ty id (xs ++ [mk_attribute SWITCH_STUN_ATTR_XOR_MAPPED_ADDRESS (address_value w v6 port (masked addr id)) []]) ++ q).
Proof.
  intros Hpton Hl Hold Ha Hb Hid Hport Ht. unfold switch_stun_packet_attribute_add_xor_binded_address.
  rewrite (open_address_at _ _ _ _ _ _ _ _ _ _ _ _ _ _ _ _ addr) by (done || lia). cbn [mbind option_bind].
  assert (length (masked addr id) = length addr) as Lm by (apply masked_length; rewrite Hl, Hid; destruct v6; lia).
  set (t := SWITCH_STUN_ATTR_XOR_MAPPED_ADDRESS).
  assert ((if v6 then 20 else 8) = zlen (address_value w v6 port (masked addr id))) as Ln
    by (unfold address_value; rewrite !length_cons, length_app, Lm, Hl; by destruct v6).
  pose proof (grow_packet ty id xs t (address_value w v6 port (masked addr id)) [] q) as G. rewrite <- Ln in G. cbn [length] in G.
  assert (zlen (address_value w v6 port (masked addr id)) = 4 + zlen addr) as Lv
    by (unfold address_value; rewrite !length_cons, length_app, Lm; cbn; lia).
  set (R := (if v6 then _ else _) : option mem).
  assert (R = Some (packet ty id xs ++ big16 t ++ big16 (if v6 then 20 else 8) ++ address_value w v6 port (masked addr id) ++ q)) as ->.
  { unfold R. clear R G. set (n := if v6 then 20 else 8).
    set (r := big16 t ++ big16 n ++ w :: (if v6 then 2 else 1) :: big16 (Z.lxor port 0x2112)).
    assert (forall x, packet ty id xs ++ big16 t ++ big16 n ++ address_value w v6 port x ++ q = (packet ty id xs ++ r) ++ x ++ q) as Hr
      by (intros x; unfold r, address_value; by rewrite <- !app_assoc). rewrite !Hr.
    assert (zlen (packet ty id xs ++ r) = 20 + total xs + 8) as Lr by (unfold r; rewrite !length_app, !Nat2Z.inj_add, packet_length by done; cbn; lia).
    destruct v6; [|].
    - assert (packet ty id xs ++ r = (big16 ty ++ big16 (total xs)) ++ cookie_bytes ++ id ++ concat (map wire xs) ++ r) as Hp
        by (unfold packet; by rewrite <- !app_assoc). rewrite Hp. apply v6_xor_at; try done. rewrite <- Hp. lia.
    - rewrite xor_v4_at by (done || lia). by destruct addr as [|? [|? [|? [|? [|? ?]]]]]. }
  cbn [mbind option_bind]. apply G. rewrite Ln, Lv. lia.
Qed.

End ops.

(** *** Integrity and fingerprint *)

(** The bytes that are signed by an attribute with a value of [n] bytes. *)
Definition covered ty id xs (n : Z) : list Z := big16 ty ++ big16 (total xs + 4 + n) ++ cookie_bytes ++ id ++ concat (map wire xs).

Definition signed (t n : Z) (sign : list Z -> list Z) b : option mem :=
  a ← next_attribute b;
  b ← open_attribute b a t n;
  l ← rd16 b 2;
  b ← grow_length b 0 n;
  bytes ← read_bytes b 0 (Z.to_nat (u16 (ntohs l + 20)));
  write_bytes b (a + 4) (sign bytes).

Lemma signed_at ty id xs h1 h2 h3 h4 old q t n sign :
  length id = 12%nat -> 0 <= t < 65536 -> zlen old = n -> length (sign (covered ty id xs n)) = length old -> Forall byte (sign (covered ty id xs n)) ->
  total xs + 4 + n < 256 ->
  signed t n sign (packet ty id xs ++ h1 :: h2 :: h3 :: h4 :: old ++ q)
  = Some (packet ty id (xs ++ [mk_attribute t (sign (covered ty id xs n)) []]) ++ q).
Proof.
  intros Hid Ht Hn Hs Hb Hsm. pose proof (total_nonneg xs). unfold signed. rewrite next_attribute_at by lia. cbn [mbind option_bind].
  rewrite open_at by (done || lia). cbn [mbind option_bind].
  assert (rd16 (packet ty id xs ++ big16 t ++ big16 n ++ old ++ q) 2 = Some (total xs / 256 + 256 * (total xs mod 256))) as ->.
  { unfold packet, big16. rewrite <- !app_assoc. cbn [app].
    match goal with |- rd16 (?x :: ?y :: ?z :: ?w :: ?r) 2 = _ => change (x :: y :: z :: w :: r) with ([x; y] ++ z :: w :: r) end. by rewrite rd16_at. }
  cbn [mbind option_bind].
  assert (forall r, packet ty id xs ++ r = big16 ty ++ big16 (total xs) ++ cookie_bytes ++ id ++ concat (map wire xs) ++ r) as Hpk
    by (intros r; unfold packet; by rewrite <- !app_assoc).
  rewrite Hpk, grow_length_at by lia. cbn [mbind option_bind].
  replace (total xs + 4 + 0 + n) with (total xs + 4 + n) by lia.
  assert (Z.to_nat (u16 (ntohs (total xs / 256 + 256 * (total xs mod 256)) + 20)) = length (covered ty id xs n)) as ->.
  { apply Nat2Z.inj. unfold covered. rewrite !length_app, !Nat2Z.inj_add, concat_wire_length, Hid. cbn [length big16 cookie_bytes].
    rewrite Z2Nat.id by apply u16_range. unfold ntohs, u16. dlia. }
  set (M := big16 t ++ big16 n ++ old ++ q).
  assert (big16 ty ++ big16 (total xs + 4 + n) ++ cookie_bytes ++ id ++ concat (map wire xs) ++ M = covered ty id xs n ++ M) as ->
    by (unfold covered; by rewrite <- !app_assoc).
  rewrite (read_at [] (covered ty id xs n) M) by done. cbn [mbind option_bind]. unfold M.
  rewrite (app_assoc _ (big16 t)), (app_assoc _ (big16 n)), write_at, map_u8 by
    (done || (rewrite !length_app, !Nat2Z.inj_add; unfold covered; rewrite !length_app, !Nat2Z.inj_add, concat_wire_length, Hid; cbn; lia)).
  rewrite <- packet_snoc. unfold size, wire. cbn [type value pad length].
  assert (zlen (sign (covered ty id xs n)) = n) as Ls by (rewrite Hs; lia). rewrite Ls.
  replace (total xs + (4 + n + Z.of_nat 0)) with (total xs + 4 + n) by lia. set (S := sign _). unfold covered. by rewrite <- !app_assoc.
Qed.

Lemma integrity_signed HMAC pass b : switch_stun_packet_attribute_add_integrity HMAC pass b = signed SWITCH_STUN_ATTR_MESSAGE_INTEGRITY 20 (HMAC pass) b.
Proof. done. Qed.

(** The value of the fingerprint of some bytes. *)
Definition fingerprint (bytes : list Z) : list Z := bytes32 (htonl (Z.lxor (Crc32.switch_crc32_8bytes bytes) 0x5354554e)).

Lemma fingerprint_signed b : switch_stun_packet_attribute_add_fingerprint b = signed SWITCH_STUN_ATTR_FINGERPRINT 4 fingerprint b.
Proof. done. Qed.

Lemma bytes32_byte v : Forall byte (bytes32 v) /\ length (bytes32 v) = 4%nat.
Proof. split; [|done]. unfold bytes32. apply bytes4; apply u8_range. Qed.

End Stun.
