(* ===== verification/StunTheorems.v ===== *)
(** * Properties of STUN packets

    Packets built by the functions of Stun.v are accepted by the parser, which gives
    back their attributes; the address in a response is read back; and the parser
    stays within the buffer and four bytes behind it. *)

From S2P Require Import Prelude.
From S2P Require Import Crc32 Stun.
From stdpp Require Import strings.

#[local] Open Scope string_scope.
#[local] Open Scope list_scope.
#[local] Open Scope Z_scope.

Module StunTheorems.
Import Stun.

Implicit Types (b : mem) (xs : list attribute) (ty : Z) (id : list Z).

(** ** Building a packet step by step *)

Inductive stun_op :=
  | Username (v : list Z)
  | Software (v : list Z)
  | Password (v : list Z)
  | Priority (p : Z)
  | UseCandidate
  | Controlling (rnd : list Z)
  | Controlled (rnd : list Z)
  | XorAddress (ipstr : string) (port : Z) (v6 : bool)
  | Integrity (pass : string)
  | Fingerprint.

Section build.
Context (inet_pton : bool -> string -> option (list Z)).
Context (HMAC : string -> list Z -> list Z).

Implicit Types (op : stun_op) (ops : list stun_op).

Definition apply_op op b : option mem :=
  match op with
  | Username v => switch_stun_packet_attribute_add_username v (Z.of_nat (length v)) b
  | Software v => switch_stun_packet_attribute_add_software v (Z.of_nat (length v)) b
  | Password v => switch_stun_packet_attribute_add_password v (Z.of_nat (length v)) b
  | Priority p => switch_stun_packet_attribute_add_priority p b
  | UseCandidate => switch_stun_packet_attribute_add_use_candidate b
  | Controlling rnd => switch_stun_packet_attribute_add_controlling rnd b
  | Controlled rnd => switch_stun_packet_attribute_add_controlled rnd b
  | XorAddress ipstr port v6 => switch_stun_packet_attribute_add_xor_binded_address inet_pton ipstr port v6 b
  | Integrity pass => switch_stun_packet_attribute_add_integrity HMAC pass b
  | Fingerprint => switch_stun_packet_attribute_add_fingerprint b
  end.

Fixpoint apply_ops ops b : option mem :=
  match ops with [] => Some b | op :: ops => b ← apply_op op b; apply_ops ops b end.

Definition build ty id ops b : option mem := b ← switch_stun_packet_build_header ty id b; apply_ops ops b.

(** The bytes an operation adds. *)
Definition op_size op : Z :=
  match op with
  | Username v | Software v | Password v => 4 + (Z.of_nat (length v) + 3) / 4 * 4
  | Priority _ | Fingerprint => 8
  | UseCandidate => 4
  | Controlling _ | Controlled _ => 12
  | XorAddress _ _ v6 => if v6 then 24 else 12
  | Integrity _ => 24
  end.

Definition ops_size ops : Z := foldr (fun op n => op_size op + n) 0 ops.

Definition op_ok op : Prop :=
  match op with
  | Username v | Software v | Password v => Forall byte v
  | Priority p => 0 <= p < 2 ^ 32
  | UseCandidate | Fingerprint => True
  | Controlling rnd | Controlled rnd => Forall byte rnd /\ length rnd = 8%nat
  | XorAddress ipstr port v6 => 0 <= port < 65536
      /\ exists addr, inet_pton v6 ipstr = Some addr /\ length addr = (if v6 then 16 else 4)%nat /\ Forall byte addr
  | Integrity pass => forall l, length (HMAC pass l) = 20%nat /\ Forall byte (HMAC pass l)
  end.

(** The attribute an operation adds behind the attributes [xs]. *)
Definition op_gives ty id xs op (x : attribute) : Prop :=
  match op with
  | Username v => type x = SWITCH_STUN_ATTR_USERNAME /\ value x = v
  | Software v => type x = SWITCH_STUN_ATTR_SOFTWARE /\ value x = v
  | Password v => type x = SWITCH_STUN_ATTR_PASSWORD /\ value x = v
  | Priority p => type x = SWITCH_STUN_ATTR_PRIORITY /\ value x = big16 (p / 65536) ++ big16 (p mod 65536)
  | UseCandidate => type x = SWITCH_STUN_ATTR_USE_CAND /\ value x = []
  | Controlling rnd => type x = SWITCH_STUN_ATTR_CONTROLLING /\ value x = rnd
  | Controlled rnd => type x = SWITCH_STUN_ATTR_CONTROLLED /\ value x = rnd
  | XorAddress ipstr port v6 => type x = SWITCH_STUN_ATTR_XOR_MAPPED_ADDRESS
      /\ exists w addr, inet_pton v6 ipstr = Some addr /\ value x = address_value w v6 port (masked addr id)
  | Integrity pass => type x = SWITCH_STUN_ATTR_MESSAGE_INTEGRITY /\ value x = HMAC pass (covered ty id xs 20)
  | Fingerprint => type x = SWITCH_STUN_ATTR_FINGERPRINT /\ value x = fingerprint (covered ty id xs 4)
  end.

Fixpoint gives ty id xs ops (added : list attribute) : Prop :=
  match ops, added with
  | [], [] => True
  | op :: ops, x :: added => op_gives ty id xs op x /\ size x = op_size op /\ gives ty id (xs ++ [x]) ops added
  | _, _ => False
  end.

(** The memory behind a packet is cut into what an operation overwrites. *)
Lemma cut (n : nat) (r : list Z) : (n <= length r)%nat -> exists l q, r = l ++ q /\ length l = n.
Proof. intros H. exists (take n r), (drop n r). rewrite take_drop, length_take. split; [done|lia]. Qed.

Lemma cut4 (n : nat) (r : list Z) :
  (4 + n <= length r)%nat -> exists h1 h2 h3 h4 l q, r = h1 :: h2 :: h3 :: h4 :: l ++ q /\ length l = n.
Proof.
  intros H. destruct r as [|h1 [|h2 [|h3 [|h4 r]]]]; cbn in H; try lia. destruct (cut n r) as (l & q & -> & E); [lia|]. by exists h1, h2, h3, h4, l, q.
Qed.

Lemma cut4_bytes (h1 h2 h3 h4 : Z) l q : Forall byte (h1 :: h2 :: h3 :: h4 :: l ++ q) -> Forall byte l /\ Forall byte q.
Proof. intros H. do 4 apply Forall_cons in H as [_ H]. by apply Forall_app. Qed.

(** What an operation does to a packet. *)
Definition extends ty id xs op r x q : Prop :=
  apply_op op (packet ty id xs ++ r) = Some (packet ty id (xs ++ [x]) ++ q) /\ op_gives ty id xs op x /\ proper x
  /\ size x = op_size op /\ Z.of_nat (length q) = Z.of_nat (length r) - op_size op /\ Forall byte q.

Lemma text_extends ty id xs op r t v :
  (t = SWITCH_STUN_ATTR_USERNAME /\ op = Username v) \/ (t = SWITCH_STUN_ATTR_SOFTWARE /\ op = Software v)
  \/ (t = SWITCH_STUN_ATTR_PASSWORD /\ op = Password v) ->
  length id = 12%nat -> Forall byte v -> Forall byte r -> op_size op <= Z.of_nat (length r) -> total xs + op_size op < 256 ->
  exists x q, extends ty id xs op r x q.
Proof.
  intros Hop Hid Hv Hby Hr Hs. pose proof (total_nonneg xs).
  assert (op_size op = 4 + (Z.of_nat (length v) + 3) / 4 * 4) as Ho by (by destruct Hop as [[_ ->]|[[_ ->]|[_ ->]]]).
  assert (0 <= t < 65536 /\ class_of t = Bytes) as [Ht Hc] by (destruct Hop as [[-> _]|[[-> _]|[-> _]]]; split; try done; vm_compute; split; congruence).
  set (n := Z.of_nat (length v)) in *. set (k := (n + 3) / 4 * 4 - n). assert (0 <= k < 4 /\ (n + k) mod 4 = 0) as [Hk Hm] by (unfold k; dlia).
  destruct (cut4 (length v + Z.to_nat k) r) as (h1 & h2 & h3 & h4 & l & q & -> & El); [lia|].
  destruct (cut (length v) l) as (old & pd & -> & Eo); [lia|]. rewrite length_app in El. rewrite <- app_assoc.
  exists (mk_attribute t v pd), q. assert (Z.of_nat (length pd) = k) as Ep by lia.
  assert (add_text t v n (packet ty id xs ++ h1 :: h2 :: h3 :: h4 :: old ++ pd ++ q) = Some (packet ty id (xs ++ [mk_attribute t v pd]) ++ q)) as E.
  { rewrite <- (app_nil_r v) at 1. eapply add_text_at; [by constructor; try lia|done|done|lia|]. fold n. by rewrite Ep. }
  unfold extends. split_and!.
  - destruct Hop as [[-> ->]|[[-> ->]|[-> ->]]]; exact E.
  - by destruct Hop as [[-> ->]|[[-> ->]|[-> ->]]].
  - constructor; cbn [type value pad]; fold n; rewrite ?Ep; try done; try lia. unfold acceptable. by rewrite Hc.
  - unfold size. cbn [value pad]. fold n. lia.
  - rewrite !length_cons, !length_app. unfold k in *. lia.
  - by apply cut4_bytes in Hby as [_ Hby].
Qed.

Lemma value_extends ty id xs op r t v :
  (forall b, apply_op op b = add_value t v b) -> op_size op = 4 + Z.of_nat (length v) ->
  (forall pd, op_gives ty id xs op (mk_attribute t v pd)) -> 0 <= t < 65536 -> Z.of_nat (length v) mod 4 = 0 -> acceptable t v ->
  length id = 12%nat -> Forall byte v -> Forall byte r -> op_size op <= Z.of_nat (length r) -> total xs + op_size op < 256 ->
  exists x q, extends ty id xs op r x q.
Proof.
  intros Ha Ho Hg Ht Hm Hc Hid Hv Hby Hr Hs. pose proof (total_nonneg xs).
  destruct (cut4 (length v) r) as (h1 & h2 & h3 & h4 & l & q & -> & El); [lia|]. exists (mk_attribute t v []), q. unfold extends. split_and!.
  - rewrite Ha. eapply add_value_at; [constructor; [done|done|done|cbn [length]; lia]|done|done].
  - apply Hg.
  - constructor; cbn [type value pad length]; try done; try lia. by rewrite Z.add_0_r.
  - unfold size. cbn [value pad length]. lia.
  - rewrite !length_cons, !length_app. lia.
  - by apply cut4_bytes in Hby as [_ Hby].
Qed.

Lemma sign_extends ty id xs op r t n sign :
  (forall b, apply_op op b = signed t n sign b) -> op_size op = 4 + n ->
  (forall pd, op_gives ty id xs op (mk_attribute t (sign (covered ty id xs n)) pd)) -> 0 <= t < 65536 -> 0 <= n -> n mod 4 = 0 ->
  class_of t = Sized n \/ class_of t = Bytes ->
  length id = 12%nat -> Z.of_nat (length (sign (covered ty id xs n))) = n -> Forall byte (sign (covered ty id xs n)) ->
  Forall byte r -> op_size op <= Z.of_nat (length r) -> total xs + op_size op < 256 ->
  exists x q, extends ty id xs op r x q.
Proof.
  intros Ha Ho Hg Ht Hn Hm Hc Hid Hl Hv Hby Hr Hs. pose proof (total_nonneg xs).
  destruct (cut4 (Z.to_nat n) r) as (h1 & h2 & h3 & h4 & l & q & -> & El); [lia|].
  exists (mk_attribute t (sign (covered ty id xs n)) []), q. unfold extends. split_and!.
  - rewrite Ha. apply signed_at; try done; lia.
  - apply Hg.
  - constructor; cbn [type value pad length]; rewrite ?Hl; try done; try lia; [by rewrite Z.add_0_r|].
    unfold acceptable. destruct Hc as [-> | ->]; done.
  - unfold size. cbn [value pad length]. lia.
  - rewrite !length_cons, !length_app. lia.
  - by apply cut4_bytes in Hby as [_ Hby].
Qed.

Lemma address_extends ty id xs ipstr port (v6 : bool) r :
  op_ok (XorAddress ipstr port v6) -> length id = 12%nat -> Forall byte id -> Forall byte r ->
  op_size (XorAddress ipstr port v6) <= Z.of_nat (length r) -> total xs + op_size (XorAddress ipstr port v6) < 256 ->
  exists x q, extends ty id xs (XorAddress ipstr port v6) r x q.
Proof.
  intros (Hport & addr & Hp & Hl & Ha) Hid Hb Hby Hr Hs. pose proof (total_nonneg xs). cbn [op_size] in *.
  destruct (cut4 (4 + length addr) r) as (h1 & h2 & h3 & h4 & l & q & -> & El); [rewrite Hl; destruct v6; lia|].
  apply cut4_bytes in Hby as [Hbl Hbq]. destruct l as [|w [|f [|p0 [|p1 old]]]]; cbn in El; try lia. apply Forall_cons in Hbl as [Hw _]. cbn [app].
  set (v := address_value w v6 port (masked addr id)). exists (mk_attribute SWITCH_STUN_ATTR_XOR_MAPPED_ADDRESS v []), q.
  assert (Z.of_nat (length addr) = if v6 then 16 else 4) as Lz by (rewrite Hl; by destruct v6).
  assert (length (masked addr id) = length addr) as Lm by (apply masked_length; rewrite Hl, Hid; destruct v6; lia).
  assert (Z.of_nat (length v) = if v6 then 20 else 8) as Lv
    by (unfold v, address_value; rewrite !length_cons, length_app, Lm, Hl; by destruct v6).
  unfold extends. split_and!.
  - apply add_xor_at; try done; [lia|destruct v6; lia].
  - split; [done|]. by exists w, addr.
  - assert (byte (Z.lxor port 0x2112 / 256) /\ byte (Z.lxor port 0x2112 mod 256)) as [P1 P2].
    { destruct (split16 (Z.lxor port 0x2112)) as (? & ? & _); [apply (Crc32.lxor_range 16); lia|done]. }
    constructor; cbn [type value pad length]; rewrite ?Lv; try done; try (destruct v6; done).
    + apply Forall_cons. split; [done|]. apply Forall_cons. split; [destruct v6; unfold byte; lia|].
      apply Forall_app. split; [by repeat (apply Forall_cons; split)|by apply masked_byte].
    + change (4 <= Z.of_nat (length v)). rewrite Lv. destruct v6; lia.
  - unfold size. cbn [value pad length op_size]. rewrite Lv. destruct v6; lia.
  - cbn [op_size]. rewrite !length_cons, !length_app. destruct v6; lia.
  - done.
Qed.

Lemma op_extends ty id xs op r :
  op_ok op -> length id = 12%nat -> Forall byte id -> Forall byte r -> op_size op <= Z.of_nat (length r) -> total xs + op_size op < 256 ->
  exists x q, extends ty id xs op r x q.
Proof.
  intros Hok Hid Hb Hby Hr Hs. destruct op as [v|v|v|p| |rnd|rnd|ipstr port v6|pass|].
  - apply (text_extends _ _ _ _ _ SWITCH_STUN_ATTR_USERNAME v); auto.
  - apply (text_extends _ _ _ _ _ SWITCH_STUN_ATTR_SOFTWARE v); auto.
  - apply (text_extends _ _ _ _ _ SWITCH_STUN_ATTR_PASSWORD v); auto.
  - apply (value_extends _ _ _ _ _ SWITCH_STUN_ATTR_PRIORITY (bytes32 (htonl p))); try done; try apply bytes32_byte.
    intros pd. split; [done|]. cbn [value op_ok] in *. unfold bytes32, htonl, ntohl, u8, big16. cbn [app].
    f_equal; [dlia|f_equal; [dlia|f_equal; [dlia|f_equal; dlia]]].
  - apply (value_extends _ _ _ _ _ SWITCH_STUN_ATTR_USE_CAND []); done.
  - destruct Hok as [Hv Hl]. apply (value_extends _ _ _ _ _ SWITCH_STUN_ATTR_CONTROLLING rnd); rewrite ?Hl; try done.
    intros b. cbn [apply_op]. unfold switch_stun_packet_attribute_add_controlling.
    rewrite <- Hl. pose proof (read_at [] rnd [] 0 eq_refl) as E. rewrite app_nil_r in E. cbn [app] in E. by rewrite E.
  - destruct Hok as [Hv Hl]. apply (value_extends _ _ _ _ _ SWITCH_STUN_ATTR_CONTROLLED rnd); rewrite ?Hl; try done.
    intros b. cbn [apply_op]. unfold switch_stun_packet_attribute_add_controlled.
    rewrite <- Hl. pose proof (read_at [] rnd [] 0 eq_refl) as E. rewrite app_nil_r in E. cbn [app] in E. by rewrite E.
  - by apply address_extends.
  - destruct (Hok (covered ty id xs 20)) as [Hl Hv]. apply (sign_extends _ _ _ _ _ SWITCH_STUN_ATTR_MESSAGE_INTEGRITY 20 (HMAC pass)); try done; [by left|by rewrite Hl].
  - destruct (bytes32_byte (htonl (Z.lxor (Crc32.switch_crc32_8bytes (covered ty id xs 4)) 0x5354554e))) as [Hv Hl].
    apply (sign_extends _ _ _ _ _ SWITCH_STUN_ATTR_FINGERPRINT 4 fingerprint); try done. by right.
Qed.

Lemma ops_size_nonneg ops : 0 <= ops_size ops.
Proof.
  unfold ops_size. induction ops as [|op ops IH]; [done|]. cbn [foldr]. assert (0 <= op_size op); [|lia].
  destruct op; cbn [op_size]; try lia; try dlia. by destruct v6.
Qed.

Lemma ops_extend ops : forall ty id xs r,
  Forall op_ok ops -> length id = 12%nat -> Forall byte id -> Forall byte r -> ops_size ops <= Z.of_nat (length r) -> total xs + ops_size ops < 256 ->
  exists added q, apply_ops ops (packet ty id xs ++ r) = Some (packet ty id (xs ++ added) ++ q) /\ gives ty id xs ops added
    /\ Forall proper added /\ total added = ops_size ops.
Proof.
  induction ops as [|op ops IH]; intros ty id xs r Hok Hid Hb Hby Hr Hs.
  - exists [], r. rewrite app_nil_r. by split_and!.
  - apply Forall_cons in Hok as [Ho Hok]. pose proof (ops_size_nonneg ops) as Hp.
    change (ops_size (op :: ops)) with (op_size op + ops_size ops) in *.
    destruct (op_extends ty id xs op r) as (x & q & E & G & P & S & L & Bq); [done|done|done|done|lia|lia|].
    destruct (IH ty id (xs ++ [x]) q) as (added & q' & E' & G' & P' & S'); [done|done|done|done|lia|rewrite total_snoc; lia|].
    exists (x :: added), q'. cbn [apply_ops]. rewrite E. cbn [mbind option_bind]. rewrite E', <- app_assoc. cbn [app].
    split_and!; [done|done|by constructor|]. change (total (x :: added)) with (size x + total added). lia.
Qed.

Lemma build_header_at ty id r : 0 <= ty < 65536 -> length id = 12%nat -> Forall byte id -> forall h, length h = 20%nat ->
  switch_stun_packet_build_header ty id (h ++ r) = Some (packet ty id [] ++ r).
Proof.
  intros Ht Hid Hb h Hh. destruct h as [|a1 [|a2 [|a3 [|a4 [|a5 [|a6 [|a7 [|a8 h]]]]]]]]; cbn in Hh; try lia.
  unfold switch_stun_packet_build_header. cbn [app]. pose proof (wr_big16 [] a1 a2 (a3 :: a4 :: a5 :: a6 :: a7 :: a8 :: h ++ r) 0 ty eq_refl Ht) as E1.
  cbn [app] in E1. rewrite E1. cbn [mbind option_bind]. unfold big16. cbn [app].
  pose proof (wr16_at (big16 ty) a3 a4 (a5 :: a6 :: a7 :: a8 :: h ++ r) 2 0 eq_refl) as E2. cbn [app big16] in E2. rewrite E2. cbn [mbind option_bind].
  pose proof (wr32_le (big16 ty ++ [0; 0]) a5 a6 a7 a8 (h ++ r) 4 0x21 0x12 0xa4 0x42 eq_refl) as E3.
  change (htonl STUN_MAGIC_COOKIE) with (Crc32.le32 0x21 0x12 0xa4 0x42). change (u8 0) with 0. change (u8 (0 / 256)) with 0.
  cbn [app big16] in E3. rewrite E3 by (unfold byte; lia). cbn [mbind option_bind].
  pose proof (read_at [] id [] 0 eq_refl) as E4. rewrite app_nil_r, Hid in E4. cbn [app] in E4. rewrite E4. cbn [mbind option_bind].
  pose proof (write_at (big16 ty ++ [0; 0; 0x21; 0x12; 0xa4; 0x42]) h r 8 id eq_refl) as E5. cbn [app big16] in E5. rewrite E5 by lia.
  rewrite map_u8 by done. unfold packet. cbn [map concat]. rewrite app_nil_r, <- !app_assoc. done.
Qed.

Lemma build_parsed ty id ops b len :
  existsb (Z.eqb ty) messages = true -> length id = 12%nat -> Forall byte id -> Forall op_ok ops -> Forall byte b ->
  ops <> [] -> ops_size ops < 256 -> 20 + ops_size ops <= Z.of_nat (length b) -> 28 <= len < 2 ^ 31 -> 20 + ops_size ops <= len ->
  exists xs q, build ty id ops b = Some (packet ty id xs ++ q) /\ gives ty id [] ops xs
    /\ switch_stun_packet_parse (packet ty id xs ++ q) len = Some (true, parsed ty id xs ++ q).
Proof.
  intros Hty Hid Hb Hok Hby Hne Hs Hr Hl Hl'. pose proof (ops_size_nonneg ops) as Hp.
  destruct (cut 20 b) as (h & r & -> & Eh); [lia|]. rewrite length_app in Hr. apply Forall_app in Hby as [_ Hbr].
  destruct (ops_extend ops ty id [] r) as (xs & q & E & G & P & S); [done|done|done|done|lia|cbn; lia|].
  exists xs, q. unfold build. rewrite build_header_at by (done || by apply messages_small). cbn [mbind option_bind].
  split_and!; [exact E|exact G|]. apply parse_packet; try done; try lia. intros ->. by destruct ops.
Qed.

(** What the receiver finds in the value of an attribute, by the operation that added it: the bytes that were sent, except
    that the port of an address is in the byte order of the (little-endian) receiver and, since a priority is treated alike, the
    two low bytes of a priority are exchanged. *)
Definition received_value op (x : attribute) : list Z :=
  match op with
  | Priority p => [p / 2 ^ 24; p / 2 ^ 16 mod 2 ^ 8; p mod 2 ^ 8; p / 2 ^ 8 mod 2 ^ 8]
  | XorAddress _ port v6 => take 1 (value x) ++ [if v6 then 2 else 1; Z.lxor port 0x2112 mod 2 ^ 8; Z.lxor port 0x2112 / 2 ^ 8] ++ drop 4 (value x)
  | _ => value x
  end.

Definition received_attribute op (x : attribute) : list Z := little16 (type x) ++ little16 (Z.of_nat (length (value x))) ++ received_value op x ++ pad x.

Definition received ty id ops xs : list Z :=
  little16 ty ++ little16 (total xs) ++ cookie_bytes ++ id ++ concat (zip_with received_attribute ops xs).

Lemma received_host ty id xs op x : op_ok op -> op_gives ty id xs op x -> host x = received_attribute op x.
Proof.
  intros Hok Hg. unfold host, received_attribute. do 3 f_equal. unfold host_value, received_value.
  destruct op as [v|v|v|p| |rnd|rnd|ipstr port v6|pass|]; cbn [op_gives] in Hg; destruct Hg as [-> Hv].
  4: { rewrite Hv. cbn [op_ok] in Hok. unfold big16, class_of. cbn.
    repeat apply (f_equal2 cons); done || dlia. }
  7: { destruct Hv as (w & addr & _ & ->). unfold address_value, big16. done. }
  all: by destruct (value x) as [|? [|? [|? [|? ?]]]].
Qed.

Lemma received_parsed ty id ops : forall xs added, Forall op_ok ops -> gives ty id xs ops added ->
  concat (map host added) = concat (zip_with received_attribute ops added).
Proof.
  induction ops as [|op ops IH]; intros xs [|x added] Hok Hg; cbn [gives] in Hg; try done. apply Forall_cons in Hok as [Ho Hok]. destruct Hg as (G & _ & Hg).
  cbn [map zip_with concat]. by rewrite (received_host ty id xs op x Ho G), (IH _ _ Hok Hg).
Qed.

(** C15. Sent and received.  Any packet built from a header and a sequence of attributes
    (user names, software, password, priority, candidate and role flags, masked
    addresses, integrity, fingerprint) of less than 256 bytes together, in any buffer
    that is large enough, is accepted by the parser of the receiver, whatever
    follows it in the buffer (of less than 2^31 bytes), and the parsed packet has the type, the transaction id and exactly the
    attributes that were added, in their order and with their values; only the port of an address and the low half of a priority
    have their two bytes exchanged. *)
Theorem stun_roundtrip ty id ops b len :
  existsb (Z.eqb ty) messages = true -> length id = 12%nat -> Forall byte id -> Forall op_ok ops -> Forall byte b ->
  ops <> [] -> ops_size ops < 256 -> 20 + ops_size ops <= Z.of_nat (length b) -> 28 <= len < 2 ^ 31 -> 20 + ops_size ops <= len ->
  exists xs q, build ty id ops b = Some (packet ty id xs ++ q) /\ gives ty id [] ops xs
    /\ switch_stun_packet_parse (packet ty id xs ++ q) len = Some (true, received ty id ops xs ++ q).
Proof.
  intros Hty Hid Hb Hok Hby Hne Hs Hr Hl Hl'. destruct (build_parsed ty id ops b len) as (xs & q & E & G & P); [done..|].
  exists xs, q. split_and!; [exact E|exact G|]. unfold received. by rewrite <- (received_parsed ty id ops [] xs Hok G).
Qed.

(** *** Reading the address of a response *)

Lemma gives_mid pre op post : forall ty id xs added,
  gives ty id xs (pre ++ op :: post) added ->
  exists xs1 x xs2, added = xs1 ++ x :: xs2 /\ total xs1 = ops_size pre /\ op_gives ty id (xs ++ xs1) op x.
Proof.
  induction pre as [|o pre IH]; intros ty id xs [|x added]; cbn [app gives]; try done.
  - intros (H & _ & _). exists [], x, added. by rewrite app_nil_r.
  - intros (_ & S & H). destruct (IH _ _ _ _ H) as (xs1 & y & xs2 & -> & T & G). exists (x :: xs1), y, xs2. rewrite <- app_assoc in G.
    split; [done|]. split; [|done]. change (size x + total xs1 = op_size o + ops_size pre). lia.
Qed.

Lemma concat_host_length xs : Z.of_nat (length (concat (map host xs))) = total xs.
Proof. induction xs as [|x xs IH]; [done|]. cbn [map concat]. rewrite length_app, Nat2Z.inj_add, IH, host_length. done. Qed.

Context (inet_ntop6 : list Z -> string).

Lemma get_xor_at hd id r w (v6 : bool) port addr q a :
  let p := hd ++ cookie_bytes ++ id ++ r in
  length hd = 4%nat -> length id = 12%nat -> Forall byte id -> Z.of_nat (length p) = a + 4 ->
  length addr = (if v6 then 16 else 4)%nat -> Forall byte addr -> 0 <= port < 65536 ->
  exists b', switch_stun_packet_attribute_get_xor_mapped_address inet_ntop6
    (p ++ w :: (if v6 then 2 else 1) :: little16 (Z.lxor port 0x2112) ++ masked addr id ++ q) a
  = Some (if v6 then inet_ntop6 addr else dotted addr, port, b').
Proof.
  intros p Hh Hid Hb Hp Hl Ha Hport. set (fam := if v6 then 2 else 1). set (pt := Z.lxor port 0x2112).
  assert (0 <= pt < 65536) as Hpt by (apply (Crc32.lxor_range 16); lia). destruct (split16 pt Hpt) as (P1 & P2 & P3).
  assert (length (masked addr id) = length addr) as Lm by (apply masked_length; rewrite Hl, Hid; destruct v6; lia).
  assert (masked (masked addr id) id = addr) as Mm by (apply masked_masked; rewrite Hl, Hid; destruct v6; lia).
  assert (Forall byte (masked addr id)) as Bm by (by apply masked_byte).
  set (p8 := p ++ [w; fam] ++ little16 pt). assert (Z.of_nat (length p8) = a + 8) as L8 by (unfold p8; rewrite length_app; cbn; lia).
  assert (forall x, p ++ w :: fam :: little16 pt ++ x = p8 ++ x) as E8 by (intros x; unfold p8; by rewrite <- !app_assoc). rewrite E8.
  assert (forall x, get (p8 ++ x) (a + 5) = Some fam) as Ef.
  { intros x. rewrite <- E8, (shift1 p w), get_at; [done|]. rewrite zlen_snoc. lia. }
  assert (forall x, rd32 (p8 ++ x) 4 = Some (Crc32.le32 0x21 0x12 0xa4 0x42)) as Ec.
  { intros x. unfold p8, p, cookie_bytes. rewrite <- !app_assoc. cbn [app]. rewrite rd32_le; [done|]. by rewrite Hh. }
  assert (forall x, rd16 (p8 ++ x) (a + 6) = Some pt) as Ep.
  { intros x. rewrite <- E8, (shift1 p w), (shift1 _ fam). unfold little16. cbn [app]. rewrite rd16_at by (rewrite !zlen_snoc; lia). by rewrite P3. }
  assert (forall x, exists b', wr16 (p8 ++ x) (a + 6) port = Some b') as Ew.
  { intros x. rewrite <- E8, (shift1 p w), (shift1 _ fam). unfold little16. cbn [app]. rewrite wr16_at by (rewrite !zlen_snoc; lia). by eauto. }
  unfold switch_stun_packet_attribute_get_xor_mapped_address. rewrite Ef, Ec. cbn [mbind option_bind].
  assert (Z.lxor pt (Z.shiftr (ntohl (Crc32.le32 0x21 0x12 0xa4 0x42)) 16) = port) as Ex.
  { change (Z.shiftr (ntohl (Crc32.le32 0x21 0x12 0xa4 0x42)) 16) with 0x2112. unfold pt. by rewrite Z.lxor_assoc, Z.lxor_nilpotent, Z.lxor_0_r. }
  destruct v6.
  - change (fam =? 2) with true. cbn match.
    assert (v6_xor (p8 ++ masked addr id ++ q) (a + 8) 8 = Some (p8 ++ addr ++ q)) as ->.
    { assert (p8 = hd ++ cookie_bytes ++ id ++ r ++ [w; fam] ++ little16 pt) as Hp8 by (unfold p8, p; by rewrite <- !app_assoc).
      rewrite Hp8, v6_xor_at; [by rewrite Mm|done|rewrite <- Hp8; lia|done|by rewrite Lm|done|done]. }
    cbn [mbind option_bind]. rewrite <- Hl, (read_at p8 addr q) by lia. cbn [mbind option_bind]. rewrite Ep. cbn [mbind option_bind]. rewrite Ex.
    destruct (Ew (addr ++ q)) as [b' ->]. by exists b'.
  - change (fam =? 2) with false. cbn match. destruct addr as [|a0 [|a1 [|a2 [|a3 [|? ?]]]]]; try done. rewrite masked4 in *. cbn [app].
    rewrite rd32_le by lia. cbn [mbind option_bind]. rewrite lxor_le by (done || apply cookie_byte).
    pose proof Ha as Ha'. repeat (apply Forall_cons in Ha' as [? Ha']). rewrite !Z.lxor_assoc, !Z.lxor_nilpotent, !Z.lxor_0_r.
    rewrite wr32_le by (done || lia). cbn [mbind option_bind].
    pose proof (read_at p8 [a0; a1; a2; a3] q (a + 8) ltac:(lia)) as Er. cbn [app length] in Er. rewrite Er. cbn [mbind option_bind].
    rewrite Ep. cbn [mbind option_bind]. rewrite Ex. destruct (Ew (a0 :: a1 :: a2 :: a3 :: q)) as [b' ->]. by exists b'.
Qed.

(** The address of a client.  If a packet is built with the masked address of a
    client, IPv4 or IPv6, among any other attributes, and parsed by the receiver, then
    reading the attribute at its place gives the same address and port back. *)
Theorem stun_address_roundtrip ty id pre ipstr port (v6 : bool) post b len addr :
  existsb (Z.eqb ty) messages = true -> length id = 12%nat -> Forall byte id -> Forall byte b ->
  (ops_size (pre ++ XorAddress ipstr port v6 :: post) < 256 /\ 20 + ops_size (pre ++ XorAddress ipstr port v6 :: post) <= Z.of_nat (length b)
   /\ 28 <= len < 2 ^ 31 /\ 20 + ops_size (pre ++ XorAddress ipstr port v6 :: post) <= len) ->
  Forall op_ok (pre ++ XorAddress ipstr port v6 :: post) -> inet_pton v6 ipstr = Some addr ->
  exists b1 b2 b3, build ty id (pre ++ XorAddress ipstr port v6 :: post) b = Some b1 /\ switch_stun_packet_parse b1 len = Some (true, b2)
    /\ rd16 b2 (20 + ops_size pre) = Some SWITCH_STUN_ATTR_XOR_MAPPED_ADDRESS
    /\ switch_stun_packet_attribute_get_xor_mapped_address inet_ntop6 b2 (20 + ops_size pre)
       = Some (if v6 then inet_ntop6 addr else dotted addr, port, b3).
Proof.
  intros Hty Hid Hb Hby (Hs & Hr & Hl & Hl') Hok Hpton. set (ops := pre ++ XorAddress ipstr port v6 :: post) in *.
  destruct (build_parsed ty id ops b len) as (xs & q & E & G & P); [done..|by destruct pre|done|done|done|done|].
  apply gives_mid in G as (xs1 & x & xs2 & -> & T & G). cbn [op_gives app] in G. destruct G as (Gt & w & addr' & Hp' & Gv).
  rewrite Hpton in Hp'. injection Hp' as <-.
  assert (op_ok (XorAddress ipstr port v6)) as (Hport & addr' & Hp' & La & Ba).
  { apply Forall_app in Hok as [_ Hok]. by apply Forall_cons in Hok as [Hok _]. }
  rewrite Hpton in Hp'. injection Hp' as <-.
  set (hd := little16 ty ++ little16 (total (xs1 ++ x :: xs2))).
  set (r := concat (map host xs1) ++ little16 SWITCH_STUN_ATTR_XOR_MAPPED_ADDRESS ++ little16 (Z.of_nat (length (value x)))).
  assert (parsed ty id (xs1 ++ x :: xs2) ++ q = (hd ++ cookie_bytes ++ id ++ r) ++ w :: (if v6 then 2 else 1) :: little16 (Z.lxor port 0x2112)
    ++ masked addr id ++ pad x ++ concat (map host xs2) ++ q) as Eb.
  { unfold parsed, hd, r. rewrite map_app, concat_app. cbn [map concat]. unfold host at 2. rewrite Gt, Gv. unfold host_value.
    change (class_of SWITCH_STUN_ATTR_XOR_MAPPED_ADDRESS) with Address. unfold address_value, big16, little16. cbn [app].
    rewrite <- !app_assoc. cbn [app]. rewrite <- !app_assoc. done. }
  assert (Z.of_nat (length (hd ++ cookie_bytes ++ id ++ r)) = 20 + ops_size pre + 4) as Lp.
  { unfold r. rewrite !length_app, !Nat2Z.inj_add, concat_host_length, T, Hid. cbn. lia. }
  destruct (get_xor_at hd id r w v6 port addr (pad x ++ concat (map host xs2) ++ q) (20 + ops_size pre)) as (b3 & G3); try done.
  eexists _, _, b3. split; [exact E|]. split; [exact P|]. rewrite Eb. split; [|exact G3].
  assert (forall y, (hd ++ cookie_bytes ++ id ++ r) ++ y = (hd ++ cookie_bytes ++ id ++ concat (map host xs1)) ++ 32 :: 0 :: little16 (Z.of_nat (length (value x))) ++ y)
    as Er by (intros y; unfold r; by rewrite <- !app_assoc). rewrite Er, rd16_at; [done|].
  rewrite !length_app, !Nat2Z.inj_add, concat_host_length, T, Hid. cbn. lia.
Qed.

End build.

(** ** The parser stays in its buffer *)

(** An access between 0 and [n] in a buffer of [n] bytes succeeds. *)
Definition kept b (r : option mem) : Prop := exists b', r = Some b' /\ length b' = length b.

Lemma put_in b i v : 0 <= i < Z.of_nat (length b) -> kept b (put b i v).
Proof.
  intros H. unfold put, kept. rewrite (proj2 (Z.leb_le _ _)), (proj2 (Z.ltb_lt _ _)) by lia. eexists. split; [done|]. by rewrite length_insert.
Qed.

Lemma get_in b i : 0 <= i < Z.of_nat (length b) -> exists x, get b i = Some x.
Proof.
  intros H. unfold get. rewrite (proj2 (Z.leb_le _ _)) by lia. destruct (lookup_lt_is_Some_2 b (Z.to_nat i)) as [x E]; [lia|]. by exists x.
Qed.

Lemma rd16_in b i : 0 <= i -> i + 2 <= Z.of_nat (length b) -> exists x, rd16 b i = Some x.
Proof.
  intros H1 H2. unfold rd16. destruct (get_in b i) as [x ->]; [lia|]. cbn [mbind option_bind].
  destruct (get_in b (i + 1)) as [y ->]; [lia|]. by eexists.
Qed.

Lemma wr16_in b i v : 0 <= i -> i + 2 <= Z.of_nat (length b) -> kept b (wr16 b i v).
Proof.
  intros H1 H2. unfold wr16. destruct (put_in b i v) as (b1 & -> & L1); [lia|]. cbn [mbind option_bind].
  destruct (put_in b1 (i + 1) (v / 256)) as (b2 & -> & L2); [lia|]. exists b2. split; [done|lia].
Qed.

Lemma swap16_in b i : 0 <= i -> i + 2 <= Z.of_nat (length b) -> kept b (swap16 b i).
Proof. intros H1 H2. unfold swap16. destruct (rd16_in b i H1 H2) as [x ->]. cbn [mbind option_bind]. by apply wr16_in. Qed.

Lemma swap32_in b i : 0 <= i -> i + 4 <= Z.of_nat (length b) -> kept b (swap32 b i).
Proof.
  intros H1 H2. unfold swap32, rd32, wr32. destruct (rd16_in b i) as [x ->]; [lia..|]. destruct (rd16_in b (i + 2)) as [y ->]; [lia..|].
  cbn [mbind option_bind]. destruct (wr16_in b i (ntohl (x + 65536 * y))) as (b1 & -> & L1); [lia..|]. cbn [mbind option_bind].
  destruct (wr16_in b1 (i + 2) (ntohl (x + 65536 * y) / 65536)) as (b2 & -> & L2); [lia..|]. exists b2. split; [done|lia].
Qed.

Lemma check_attribute_in b a : 0 <= a -> a + 8 <= Z.of_nat (length b) -> exists ok b', check_attribute b a = Some (ok, b') /\ length b' = length b.
Proof.
  intros H1 H2. unfold check_attribute. destruct (rd16_in b a) as [ty ->]; [lia..|]. destruct (rd16_in b (a + 2)) as [n ->]; [lia..|].
  cbn [mbind option_bind]. destruct (swap16_in b (a + 6)) as (b1 & -> & L1); [lia..|]. destruct (swap32_in b (a + 4)) as (b2 & -> & L2); [lia..|].
  destruct (get_in b (a + 5)) as [f ->]; [lia|]. cbn [mbind option_bind].
  destruct (class_of ty); repeat case_match; eauto.
Qed.

Lemma s32_le z : 0 <= z -> s32 z <= z.
Proof. intros H. unfold s32. pose proof (Z.mod_le (z + 2 ^ 31) (2 ^ 32) ltac:(lia) ltac:(lia)). lia. Qed.

Lemma parse_loop_in rounds : forall len hlen b a bl n,
  0 <= a -> a + bl = len -> 0 <= bl < 4 * Z.of_nat rounds -> len + 4 <= Z.of_nat (length b) ->
  exists ok b' bl', parse_loop rounds len hlen b a bl n = Some (ok, b', bl') /\ length b' = length b.
Proof.
  induction rounds as [|rounds IH]; intros len hlen b a bl n Ha Hl Hr Hb; [lia|]. cbn [parse_loop].
  destruct (Z.ltb_spec bl 4); [by eauto|].
  destruct (swap16_in b (a + 2)) as (b1 & -> & L1); [lia..|]. cbn [mbind option_bind].
  destruct (swap16_in b1 a) as (b2 & -> & L2); [lia..|]. cbn [mbind option_bind].
  destruct (rd16_in b2 (a + 2)) as [l ->]; [lia..|]. cbn [mbind option_bind]. set (alen := padded_length l).
  destruct (Z.ltb_spec alen 0); [rewrite orb_true_r; do 3 eexists; split; [done|lia]|]. rewrite orb_false_r, Z.gtb_ltb.
  destruct (Z.ltb_spec (s32 (bl - 4)) alen); [do 3 eexists; split; [done|lia]|]. pose proof (s32_le (bl - 4) ltac:(lia)).
  destruct (check_attribute_in b2 a) as (ok & b3 & -> & L3); [lia..|]. cbn [mbind option_bind].
  destruct ok; cbn [negb]; [|do 3 eexists; split; [done|lia]].
  destruct (a + 4 + alen >? len); [do 3 eexists; split; [done|lia]|]. destruct (n + 4 + alen <? hlen); [|do 3 eexists; split; [done|lia]].
  destruct (IH len hlen b3 (a + 4 + alen) (bl - 4 - alen) (n + 4 + alen)) as (ok' & b4 & bl' & E & L4); [lia..|].
  do 3 eexists. split; [exact E|lia].
Qed.

(** C28. The parser always returns, and on a packet of [len] bytes, whatever they are,
    it touches nothing but the packet and the four bytes behind it. *)
Theorem parse_stays_inside b len :
  0 <= len -> len + 4 <= Z.of_nat (length b) -> exists ok b', switch_stun_packet_parse b len = Some (ok, b') /\ length b' = length b.
Proof.
  intros H0 Hb. unfold switch_stun_packet_parse, SWITCH_STUN_PACKET_MIN_LEN, SWITCH_STUN_ATTRIBUTE_MIN_LEN.
  destruct (Z.ltb_spec len 20); [by eauto|]. destruct (swap16_in b 0) as (b1 & -> & L1); [lia..|]. cbn [mbind option_bind].
  destruct (swap16_in b1 2) as (b2 & -> & L2); [lia..|]. cbn [mbind option_bind]. destruct (rd16_in b2 0) as [ty ->]; [lia..|].
  destruct (rd16_in b2 2) as [hlen ->]; [lia..|]. cbn [mbind option_bind]. destruct (hlen >? len - 20); [do 2 eexists; split; [done|lia]|].
  destruct (existsb _ messages); cbn [negb]; [|do 2 eexists; split; [done|lia]]. destruct (_ || _ || _); [do 2 eexists; split; [done|lia]|].
  destruct (parse_loop_in (Z.to_nat len) len hlen b2 20 (len - 20) 0) as (ok & b3 & bl & -> & L3); [lia..|]. cbn [mbind option_bind].
  destruct ok; cbn [negb]; [|do 2 eexists; split; [done|lia]]. destruct (_ >? _); [|do 2 eexists; split; [done|lia]].
  destruct (wr16_in b3 2 (len - bl - 20)) as (b4 & -> & L4); [lia..|]. cbn [mbind option_bind]. do 2 eexists. split; [done|lia].
Qed.

Lemma parse_stays_inside_witness :
  exists ok b', switch_stun_packet_parse ([0; 1; 0; 8] ++ replicate 28 0) 28 = Some (ok, b') /\ length b' = 32%nat.
Proof. apply (parse_stays_inside ([0; 1; 0; 8] ++ replicate 28 0) 28); [lia|by vm_compute]. Defined.

(** The four bytes are needed: a packet of 28 bytes that ends with a mapped address
    without a value makes the parser write behind the buffer. *)
Lemma parse_leaves_buffer :
  switch_stun_packet_parse ([0; 1; 0; 8] ++ replicate 16 0 ++ [0; 0x25; 0; 0; 0; 1; 0; 0]) 28 = None.
Proof. vm_compute. reflexivity. Qed.

(** A length of 65533 to 65535 has a padded length of 0, so the parser accepts a user
    name that claims to be longer than the packet, and reading it leaves the buffer. *)
Lemma huge_length_accepted :
  padded_length 65535 = 0
  /\ exists b, switch_stun_packet_parse ([0; 1; 0; 8] ++ replicate 16 0 ++ [0; 6; 255; 255; 0; 6; 255; 255]) 28 = Some (true, b)
     /\ switch_stun_packet_attribute_get_username b 20 32 = None.
Proof. split; [reflexivity|]. eexists. split; vm_compute; reflexivity. Qed.

(** The length of a packet is kept in network byte order and added to in host byte
    order, so a carry out of the low byte is lost. *)
Lemma length_carry_lost ty n padding len r :
  0 <= n < 256 -> 0 <= padding < 4 -> 0 <= len < 256 ->
  grow_length (big16 ty ++ big16 n ++ r) padding len = Some (big16 ty ++ big16 ((n + 4 + padding + len) mod 256) ++ r).
Proof.
  intros Hn Hp Hl. unfold grow_length, big16. cbn [app].
  match goal with |- context [rd16 (?x :: ?y :: ?z :: ?w :: ?r) 2] => change (x :: y :: z :: w :: r) with ([x; y] ++ z :: w :: r) end.
  rewrite rd16_at by done. cbn [mbind option_bind]. rewrite wr16_at by done. cbn [app].
  do 4 f_equal; unfold u8, u16, htons, ntohs; [|f_equal]; dlia.
Qed.

(** ** A response *)

Definition demo_pton (v6 : bool) (s : string) : option (list Z) :=
  if v6 then Some (replicate 15 0 ++ [1]) else if String.eqb s "192.0.2.1" then Some [192; 0; 2; 1] else None.
Definition demo_hmac (pass : string) (l : list Z) : list Z := replicate 20 7.
Definition demo_id : list Z := [1; 2; 3; 4; 5; 6; 7; 8; 9; 10; 11; 12].
Definition demo_ops : list stun_op :=
  [Username [117; 115; 101; 114; 49]; XorAddress "192.0.2.1" 5060 false; Integrity "secret"; Fingerprint].

Lemma bytes_replicate n x : byte x -> Forall byte (replicate n x).
Proof. intros H. by apply Forall_replicate. Qed.

Lemma demo_id_bytes : Forall byte demo_id.
Proof. unfold demo_id. repeat (apply Forall_cons; split; [unfold byte; lia|]). constructor. Qed.

Lemma demo_ops_ok : Forall (op_ok demo_pton demo_hmac) demo_ops.
Proof.
  unfold demo_ops. apply Forall_cons. split; [|apply Forall_cons; split; [|apply Forall_cons; split; [|by apply Forall_singleton]]].
  - cbn. repeat (apply Forall_cons; split; [unfold byte; lia|]). constructor.
  - split; [lia|]. exists [192; 0; 2; 1]. split; [reflexivity|]. split; [reflexivity|].
    repeat (apply Forall_cons; split; [unfold byte; lia|]). constructor.
  - intros l. split; [reflexivity|apply bytes_replicate; unfold byte; lia].
Qed.

Lemma stun_roundtrip_witness :
  exists xs q, build demo_pton demo_hmac SWITCH_STUN_BINDING_RESPONSE demo_id demo_ops (replicate 100 0) = Some (packet 0x101 demo_id xs ++ q)
    /\ map type xs = [SWITCH_STUN_ATTR_USERNAME; SWITCH_STUN_ATTR_XOR_MAPPED_ADDRESS; SWITCH_STUN_ATTR_MESSAGE_INTEGRITY; SWITCH_STUN_ATTR_FINGERPRINT]
    /\ switch_stun_packet_parse (packet 0x101 demo_id xs ++ q) 100 = Some (true, received 0x101 demo_id demo_ops xs ++ q).
Proof.
  destruct (stun_roundtrip demo_pton demo_hmac SWITCH_STUN_BINDING_RESPONSE demo_id demo_ops (replicate 100 0) 100
    ltac:(reflexivity) ltac:(reflexivity) demo_id_bytes demo_ops_ok ltac:(apply bytes_replicate; unfold byte; lia) ltac:(discriminate)
    ltac:(reflexivity) ltac:(by vm_compute) ltac:(lia) ltac:(by vm_compute)) as (xs & q & H1 & H2 & H3).
  exists xs, q. split; [exact H1|]. split; [|exact H3]. unfold demo_ops in H2.
  destruct xs as [|x1 [|x2 [|x3 [|x4 [|x5 xs]]]]]; cbn [gives op_gives app] in H2; try tauto.
  destruct H2 as ((E1 & _) & _ & (E2 & _) & _ & (E3 & _) & _ & (E4 & _) & _). cbn [map]. by rewrite E1, E2, E3, E4.
Defined.

Lemma stun_address_roundtrip_witness :
  exists b1 b2 b3, build demo_pton demo_hmac SWITCH_STUN_BINDING_RESPONSE demo_id demo_ops (replicate 100 0) = Some b1
    /\ switch_stun_packet_parse b1 100 = Some (true, b2)
    /\ switch_stun_packet_attribute_get_xor_mapped_address (fun _ => "") b2 32 = Some ("192.0.2.1", 5060, b3).
Proof.
  destruct (stun_address_roundtrip demo_pton demo_hmac (fun _ => ""%string) SWITCH_STUN_BINDING_RESPONSE demo_id [Username [117; 115; 101; 114; 49]] "192.0.2.1" 5060 false
    [Integrity "secret"; Fingerprint] (replicate 100 0) 100 [192; 0; 2; 1] ltac:(reflexivity) ltac:(reflexivity) demo_id_bytes
    ltac:(apply bytes_replicate; unfold byte; lia) ltac:(by vm_compute) demo_ops_ok ltac:(reflexivity)) as (b1 & b2 & b3 & H1 & H2 & _ & H3).
  exists b1, b2, b3. split; [exact H1|]. split; [exact H2|]. exact H3.
Defined.

(** switch_stun_packet_attribute_add_binded_address writes a masked address attribute
    without masking the address: it is read back as another one. *)
Lemma binded_address_not_masked :
  (b ← switch_stun_packet_build_header SWITCH_STUN_BINDING_RESPONSE demo_id (replicate 40 0);
   b ← switch_stun_packet_attribute_add_binded_address demo_pton "192.0.2.1" 5060 false b;
   '(ok, b) ← switch_stun_packet_parse b 32;
   '(ipstr, port, _) ← switch_stun_packet_attribute_get_xor_mapped_address (fun _ => "") b 20;
   Some (ok, ipstr, port)) = Some (true, "225.18.166.67", 5060).
Proof. vm_compute. reflexivity. Qed.

(** The parser converts the two low bytes of a priority as if they were a port. *)
Lemma priority_swapped p : host_value SWITCH_STUN_ATTR_PRIORITY (big16 (p / 65536) ++ big16 (p mod 65536)) = big16 (p / 65536) ++ little16 (p mod 65536).
Proof. reflexivity. Qed.

End StunTheorems.
