(* ===== verification/G711.v ===== *)
(** * G.711 (src/src/include/g711.h, src/src/g711.c, src/src/switch_pcm.c)

    Conversion of 16 bit samples to the eight bit codes of u-law and A-law and back, the
    tables between the two laws, and the loops of the codec over a frame.

    top_bit and bottom_bit are the portable versions of the header; the others are
    instructions of the processor.  An [int] is a [Z] in its range, in which the
    computations stay for all samples; only numbers that are not negative are shifted.  A
    frame is the list of the samples or codes in the buffer; a read behind it is [None]. *)

From S2P Require Import Prelude.

#[local] Open Scope Z_scope.

Module G711.

(** ** Finding a bit *)

(** One test of the portable top_bit: [if (bits & mask) { bits &= mask; i += n; }]. *)
Definition narrow (mask n : Z) (st : Z * Z) : Z * Z :=
  let '(bits, i) := st in if Z.land bits mask =? 0 then st else (Z.land bits mask, i + n).

Definition top_bit (bits : Z) : Z :=
  if bits =? 0 then -1
  else (narrow 0xAAAAAAAA 1 (narrow 0xCCCCCCCC 2 (narrow 0xF0F0F0F0 4 (narrow 0xFF00FF00 8 (narrow 0xFFFF0000 16 (bits, 0)))))).2.

Definition bottom_bit (bits : Z) : Z :=
  if bits =? 0 then -1
  else (narrow 0x55555555 (-1) (narrow 0x33333333 (-2) (narrow 0x0F0F0F0F (-4) (narrow 0x00FF00FF (-8) (narrow 0x0000FFFF (-16) (bits, 32)))))).2.

(** ** u-law *)

Definition ULAW_BIAS : Z := 0x84.

Definition linear_to_ulaw (linear : Z) : Z :=
  let '(linear, mask) := if linear <? 0 then (ULAW_BIAS - linear, 0x7F) else (ULAW_BIAS + linear, 0xFF) in
  let seg := top_bit (u32 (Z.lor linear 0xFF)) - 7 in
  if seg >=? 8 then u8 (Z.lxor 0x7F mask)
  else u8 (Z.lxor (Z.lor (Z.shiftl seg 4) (Z.land (Z.shiftr linear (seg + 3)) 0xF)) mask).

Definition ulaw_to_linear (ulaw : Z) : Z :=
  let ulaw := u8 (Z.lnot ulaw) in
  let t := Z.shiftl (Z.shiftl (Z.land ulaw 0x0F) 3 + ULAW_BIAS) (Z.shiftr (Z.land ulaw 0x70) 4) in
  s16 (if test_flag ulaw 0x80 then ULAW_BIAS - t else t - ULAW_BIAS).

(** ** A-law *)

Definition ALAW_AMI_MASK : Z := 0x55.

Definition linear_to_alaw (linear : Z) : Z :=
  let '(linear, mask) := if linear >=? 0 then (linear, Z.lor ALAW_AMI_MASK 0x80) else (- linear - 8, ALAW_AMI_MASK) in
  let seg := top_bit (u32 (Z.lor linear 0xFF)) - 7 in
  if seg >=? 8 then u8 (Z.lxor (if linear >=? 0 then 0x7F else 0x00) mask)
  else u8 (Z.lxor (Z.lor (Z.shiftl seg 4) (Z.land (Z.shiftr linear (if seg =? 0 then 4 else seg + 3)) 0x0F)) mask).

Definition alaw_to_linear (alaw : Z) : Z :=
  let alaw := Z.lxor alaw ALAW_AMI_MASK in
  let i := Z.shiftl (Z.land alaw 0x0F) 4 in
  let seg := Z.shiftr (Z.land alaw 0x70) 4 in
  let i := if seg =? 0 then i + 8 else Z.shiftl (i + 0x108) (seg - 1) in
  s16 (if test_flag alaw 0x80 then i else - i).

(** ** Between the laws *)

Definition ulaw_to_alaw_table : list Z :=
  [42; 43; 40; 41; 46; 47; 44; 45; 34; 35; 32; 33; 38; 39; 36; 37;
   58; 59; 56; 57; 62; 63; 60; 61; 50; 51; 48; 49; 54; 55; 52; 53;
   10; 11; 8; 9; 14; 15; 12; 13; 2; 3; 0; 1; 6; 7; 4; 26;
   27; 24; 25; 30; 31; 28; 29; 18; 19; 16; 17; 22; 23; 20; 21; 106;
   104; 105; 110; 111; 108; 109; 98; 99; 96; 97; 102; 103; 100; 101; 122; 120;
   126; 127; 124; 125; 114; 115; 112; 113; 118; 119; 116; 117; 75; 73; 79; 77;
   66; 67; 64; 65; 70; 71; 68; 69; 90; 91; 88; 89; 94; 95; 92; 93;
   82; 82; 83; 83; 80; 80; 81; 81; 86; 86; 87; 87; 84; 84; 85; 85;
   170; 171; 168; 169; 174; 175; 172; 173; 162; 163; 160; 161; 166; 167; 164; 165;
   186; 187; 184; 185; 190; 191; 188; 189; 178; 179; 176; 177; 182; 183; 180; 181;
   138; 139; 136; 137; 142; 143; 140; 141; 130; 131; 128; 129; 134; 135; 132; 154;
   155; 152; 153; 158; 159; 156; 157; 146; 147; 144; 145; 150; 151; 148; 149; 234;
   232; 233; 238; 239; 236; 237; 226; 227; 224; 225; 230; 231; 228; 229; 250; 248;
   254; 255; 252; 253; 242; 243; 240; 241; 246; 247; 244; 245; 203; 201; 207; 205;
   194; 195; 192; 193; 198; 199; 196; 197; 218; 219; 216; 217; 222; 223; 220; 221;
   210; 210; 211; 211; 208; 208; 209; 209; 214; 214; 215; 215; 212; 212; 213; 213].

Definition alaw_to_ulaw_table : list Z :=
  [42; 43; 40; 41; 46; 47; 44; 45; 34; 35; 32; 33; 38; 39; 36; 37;
   57; 58; 55; 56; 61; 62; 59; 60; 49; 50; 47; 48; 53; 54; 51; 52;
   10; 11; 8; 9; 14; 15; 12; 13; 2; 3; 0; 1; 6; 7; 4; 5;
   26; 27; 24; 25; 30; 31; 28; 29; 18; 19; 16; 17; 22; 23; 20; 21;
   98; 99; 96; 97; 102; 103; 100; 101; 93; 93; 92; 92; 95; 95; 94; 94;
   116; 118; 112; 114; 124; 126; 120; 122; 106; 107; 104; 105; 110; 111; 108; 109;
   72; 73; 70; 71; 76; 77; 74; 75; 64; 65; 63; 63; 68; 69; 66; 67;
   86; 87; 84; 85; 90; 91; 88; 89; 79; 79; 78; 78; 82; 83; 80; 81;
   170; 171; 168; 169; 174; 175; 172; 173; 162; 163; 160; 161; 166; 167; 164; 165;
   185; 186; 183; 184; 189; 190; 187; 188; 177; 178; 175; 176; 181; 182; 179; 180;
   138; 139; 136; 137; 142; 143; 140; 141; 130; 131; 128; 129; 134; 135; 132; 133;
   154; 155; 152; 153; 158; 159; 156; 157; 146; 147; 144; 145; 150; 151; 148; 149;
   226; 227; 224; 225; 230; 231; 228; 229; 221; 221; 220; 220; 223; 223; 222; 222;
   244; 246; 240; 242; 252; 254; 248; 250; 234; 235; 232; 233; 238; 239; 236; 237;
   200; 201; 198; 199; 204; 205; 202; 203; 192; 193; 191; 191; 196; 197; 194; 195;
   214; 215; 212; 213; 218; 219; 216; 217; 207; 207; 206; 206; 210; 211; 208; 209].

Definition alaw_to_ulaw (alaw : Z) : Z := nth (Z.to_nat alaw) alaw_to_ulaw_table 0.
Definition ulaw_to_alaw (ulaw : Z) : Z := nth (Z.to_nat ulaw) ulaw_to_alaw_table 0.

(** ** Frames *)

(** [for (i = 0; i < n; i++) to[i] = f(from[i])]. *)
Definition convert (f : Z -> Z) (n : Z) (from : list Z) : option (list Z) :=
  if n <=? Z.of_nat (length from) then Some (map f (take (Z.to_nat n) from)) else None.

Definition switch_g711u_encode (dbuf : list Z) (decoded_data_len : Z) : option (list Z) := convert linear_to_ulaw (decoded_data_len / 2) dbuf.
Definition switch_g711a_encode (dbuf : list Z) (decoded_data_len : Z) : option (list Z) := convert linear_to_alaw (decoded_data_len / 2) dbuf.

(** With the samples, [decoded_data_len].  [silence] is the flag of the frame,
    [packet] the decoded_bytes_per_packet of the codec. *)
Definition g711_decode (f : Z -> Z) (silence : bool) (packet : Z) (ebuf : list Z) (encoded_data_len : Z) : option (list Z * Z) :=
  if silence then Some (replicate (Z.to_nat (packet / 2)) 0, packet)
  else out ← convert f encoded_data_len ebuf; Some (out, u32 (encoded_data_len * 2)).

Definition switch_g711u_decode := g711_decode ulaw_to_linear.
Definition switch_g711a_decode := g711_decode alaw_to_linear.

(** ** The highest bit *)

(** [mask] has the bits whose number has bit [k]. *)
Definition selects (mask k : Z) : Prop := forall j, 0 <= j < 32 -> Z.testbit mask j = Z.testbit j k.

(** The bits of [b] have the number [n] but for its low [k] bits, and [n] is the highest. *)
Definition top_is (n k : Z) (b : Z) : Prop :=
  0 <= b /\ Z.testbit b n = true /\ forall j, 0 <= j -> Z.testbit b j = true -> j <= n /\ Z.shiftr j k = Z.shiftr n k.

Lemma shiftr_succ j k : 0 <= k -> Z.shiftr j k = 2 * Z.shiftr j (k + 1) + Z.b2z (Z.testbit j k).
Proof.
  intros Hk. rewrite Z.testbit_spec', !Z.shiftr_div_pow2, Z.pow_add_r, <- Z.div_div by lia. change (2 ^ 1) with 2. apply Z.div_mod. lia.
Qed.

Lemma same_low n k j : 0 <= k -> Z.shiftr j (k + 1) = Z.shiftr n (k + 1) -> Z.testbit j k = Z.testbit n k -> Z.shiftr j k = Z.shiftr n k.
Proof. intros Hk H1 H2. rewrite !(shiftr_succ _ k) by done. by rewrite H1, H2. Qed.

(** One test finds one bit of the number of the highest bit. *)
Lemma narrow_top mask k n b i : 0 <= k -> 0 <= n < 32 -> selects mask k -> top_is n (k + 1) b ->
  exists b', narrow mask (2 ^ k) (b, i) = (b', i + 2 ^ k * Z.b2z (Z.testbit n k)) /\ top_is n k b'.
Proof.
  intros Hk Hn Hm (Hp & Hb & Ha). unfold narrow. destruct (Z.eqb_spec (Z.land b mask) 0) as [E|E].
  - assert (forall j, 0 <= j <= n -> Z.testbit b j = true -> Z.testbit j k = false) as Hz.
    { intros j Hj Hbj. rewrite <- Hm by lia. assert (Z.testbit (Z.land b mask) j = false) as Hl by (rewrite E; apply Z.bits_0).
      by rewrite Z.land_spec, Hbj in Hl. }
    exists b. rewrite (Hz n) by (done || lia). split; [f_equal; cbn; lia|]. split_and!; [done..|]. intros j Hj Hbj. destruct (Ha j Hj Hbj) as [Hle Hs].
    split; [done|]. apply same_low; [done..|]. by rewrite !Hz by (done || lia).
  - assert (0 <= Z.land b mask) as Hl by (apply Z.land_nonneg; by left). pose proof (Z.bit_log2 (Z.land b mask) ltac:(lia)) as Ht.
    set (j := Z.log2 _) in Ht. assert (0 <= j) as Hj by apply Z.log2_nonneg. rewrite Z.land_spec in Ht. apply andb_true_iff in Ht as [Hbj Hmj].
    destruct (Ha j Hj Hbj) as [Hle Hs]. rewrite Hm in Hmj by lia. assert (Z.testbit n k = true) as Hnk.
    { destruct (Z.testbit n k) eqn:En; [done|]. pose proof (shiftr_succ j k Hk) as H1. pose proof (shiftr_succ n k Hk) as H2. rewrite Hmj in H1. rewrite En in H2.
      cbn [Z.b2z] in *. assert (Z.shiftr j k <= Z.shiftr n k); [|lia]. rewrite !Z.shiftr_div_pow2 by lia. apply Z.div_le_mono; lia. }
    exists (Z.land b mask). rewrite Hnk. split; [f_equal; cbn; lia|]. split_and!; [done|by rewrite Z.land_spec, Hb, Hm, Hnk by lia|].
    intros j' Hj' Hb'. rewrite Z.land_spec in Hb'. apply andb_true_iff in Hb' as [Hb' Hm']. destruct (Ha j' Hj' Hb') as [Hle' Hs']. rewrite Hm in Hm' by lia.
    split; [done|]. apply same_low; [done..|]. by rewrite Hm', Hnk.
Qed.

(** The number of the highest bit of any word. *)
Lemma top_bit_log2 bits : 0 < bits < 2 ^ 32 -> top_bit bits = Z.log2 bits.
Proof.
  intros Hb. unfold top_bit. rewrite (proj2 (Z.eqb_neq bits 0)) by lia. set (n := Z.log2 bits).
  assert (0 <= n < 32) as Hn. { subst n. split; [apply Z.log2_nonneg|]. apply Z.log2_lt_pow2; lia. }
  assert (forall m k, forallb (fun j => Bool.eqb (Z.testbit m j) (Z.testbit j k)) (map Z.of_nat (seq 0 32)) = true -> selects m k) as Hsel.
  { intros m k H j Hj. apply Bool.eqb_prop. apply (proj1 (forallb_forall _ _) H). rewrite <- (Z2Nat.id j) by lia. apply in_map, in_seq. lia. }
  assert (top_is n (4 + 1) bits) as H5.
  { split_and!; [lia|apply Z.bit_log2; lia|]. intros j Hj Ht. assert (j <= n) as Hle.
    { destruct (Z.le_gt_cases j n) as [|Hg]; [done|]. rewrite Z.bits_above_log2 in Ht by lia. done. }
    split; [done|]. rewrite !Z.shiftr_div_pow2 by lia. rewrite !Z.div_small by (change (2 ^ (4 + 1)) with 32; lia). done. }
  change (narrow 0xFFFF0000 16) with (narrow 0xFFFF0000 (2 ^ 4)). change (narrow 0xFF00FF00 8) with (narrow 0xFF00FF00 (2 ^ 3)).
  change (narrow 0xF0F0F0F0 4) with (narrow 0xF0F0F0F0 (2 ^ 2)). change (narrow 0xCCCCCCCC 2) with (narrow 0xCCCCCCCC (2 ^ 1)).
  change (narrow 0xAAAAAAAA 1) with (narrow 0xAAAAAAAA (2 ^ 0)).
  destruct (narrow_top 0xFFFF0000 4 n bits 0 ltac:(lia) Hn ltac:(by apply Hsel) H5) as (b4 & -> & H4).
  destruct (narrow_top 0xFF00FF00 3 n b4 (0 + 2 ^ 4 * Z.b2z (Z.testbit n 4)) ltac:(lia) Hn ltac:(by apply Hsel) H4) as (b3 & -> & H3).
  destruct (narrow_top 0xF0F0F0F0 2 n b3 (0 + 2 ^ 4 * Z.b2z (Z.testbit n 4) + 2 ^ 3 * Z.b2z (Z.testbit n 3)) ltac:(lia) Hn ltac:(by apply Hsel) H3) as (b2 & -> & H2).
  edestruct (narrow_top 0xCCCCCCCC 1 n b2) as (b1 & -> & H1); [lia|done|by apply Hsel|done|].
  edestruct (narrow_top 0xAAAAAAAA 0 n b1) as (b0 & -> & H0); [lia|done|by apply Hsel|done|].
  cbn [snd]. clear - Hn. rewrite !Z.testbit_spec' by lia. change (2 ^ 4) with 16. change (2 ^ 3) with 8. change (2 ^ 2) with 4. change (2 ^ 1) with 2. change (2 ^ 0) with 1. dlia.
Qed.

(** ** Intervals *)

(** [f] of the 2^k numbers from [lo]. *)
Fixpoint all_range (k : nat) (f : Z -> bool) (lo : Z) : bool :=
  match k with O => f lo | S k => all_range k f lo && all_range k f (lo + 2 ^ Z.of_nat k) end.

Lemma all_range_spec k f lo : all_range k f lo = true -> forall x, lo <= x < lo + 2 ^ Z.of_nat k -> f x = true.
Proof.
  revert lo. induction k as [|k IH]; intros lo H x Hx; cbn [all_range] in H.
  - change (2 ^ Z.of_nat 0) with 1 in Hx. by replace x with lo by lia.
  - apply andb_true_iff in H as [H1 H2]. rewrite Nat2Z.inj_succ, Z.pow_succ_r in Hx by lia.
    destruct (Z.lt_ge_cases x (lo + 2 ^ Z.of_nat k)); [apply (IH lo H1)|apply (IH _ H2)]; lia.
Qed.

Definition is_code (c : Z) : Prop := 0 <= c < 2 ^ 8.

Lemma for_codes f : all_range 8 f 0 = true -> forall c, is_code c -> f c = true.
Proof. intros H c Hc. by apply (all_range_spec _ _ _ H). Qed.

Lemma for_segments f : all_range 7 f 0 = true -> forall k, 0 <= k < 128 -> f k = true.
Proof. intros H k Hk. by apply (all_range_spec _ _ _ H). Qed.

(** Segment and quantization bits of a number that is not negative: the code before
    the sign and the mask are put in. *)
Definition quantized (low_shift x : Z) : Z :=
  let seg := top_bit (u32 (Z.lor x 0xFF)) - 7 in
  if seg >=? 8 then 0x7F else Z.lor (Z.shiftl seg 4) (Z.land (Z.shiftr x (if seg =? 0 then low_shift else seg + 3)) 0xF).

(** The numbers with the code [k]. *)
Definition lowest (k : Z) : Z := (16 + k mod 16) * 2 ^ (k / 16 + 3).
Definition above (k : Z) : Z := if k =? 127 then 2 ^ 32 else (17 + k mod 16) * 2 ^ (k / 16 + 3).

Lemma segment_of x : 0 <= x < 2 ^ 32 -> top_bit (u32 (Z.lor x 0xFF)) = Z.max (Z.log2 x) 7.
Proof.
  intros Hx. assert (0 <= Z.lor x 0xFF) as H0 by (apply Z.lor_nonneg; lia). assert (Z.log2 (Z.lor x 0xFF) = Z.max (Z.log2 x) 7) as Hl by (apply Z.log2_lor; lia).
  assert (0 < Z.lor x 0xFF). { destruct (Z.eq_dec (Z.lor x 0xFF) 0) as [E|]; [|lia]. apply Z.lor_eq_0_iff in E. lia. }
  assert (Z.lor x 0xFF < 2 ^ 32). { apply Z.log2_lt_pow2; [done|]. rewrite Hl. destruct (Z.eq_dec x 0) as [->|]; [done|]. pose proof (proj1 (Z.log2_lt_pow2 x 32 ltac:(lia)) ltac:(lia)). lia. }
  rewrite u32_small, top_bit_log2 by lia. done.
Qed.

Lemma code_parts seg q : 0 <= seg < 8 -> 0 <= q < 16 -> Z.lor (Z.shiftl seg 4) q = 16 * seg + q.
Proof.
  intros Hs Hq. pose proof (for_segments (fun k => Z.lor (Z.shiftl (k / 16) 4) (k mod 16) =? k) eq_refl (16 * seg + q) ltac:(lia)) as H. apply Z.eqb_eq in H.
  rewrite (Z.mul_comm 16), Z.div_add_l, Z.div_small, Z.add_0_r in H by lia. rewrite Z.add_comm, Z.mod_add, Z.mod_small in H by lia. lia.
Qed.

(** From the second segment on the highest bit, which is not stored, makes 16 of the
    quantization bits. *)
Lemma quantized_high x low_shift : 128 <= x < 2 ^ 32 -> (128 <= x < 256 -> low_shift = 3) ->
  0 <= quantized low_shift x < 128 /\ lowest (quantized low_shift x) <= x < above (quantized low_shift x).
Proof.
  intros Hx Hlow. unfold quantized. rewrite segment_of by lia. pose proof (Z.log2_spec x ltac:(lia)) as Hn. set (n := Z.log2 x) in *.
  assert (7 <= n). { apply Z.log2_le_pow2; lia. } replace (Z.max n 7) with n by lia. clearbody n. destruct (Z.geb_spec (n - 7) 8) as [Hg|Hl].
  - split; [lia|]. change (lowest 127) with (31 * 2 ^ 10). change (above 127) with (2 ^ 32). assert (2 ^ 15 <= 2 ^ n) by (apply Z.pow_le_mono_r; lia). lia.
  - assert ((if n - 7 =? 0 then low_shift else n - 7 + 3) = n - 7 + 3) as ->.
    { destruct (Z.eqb_spec (n - 7) 0); [|done]. replace n with 7 in Hn by lia. change (2 ^ 7) with 128 in Hn. change (2 ^ Z.succ 7) with 256 in Hn. rewrite Hlow; lia. }
    set (seg := n - 7) in *. rewrite Z.shiftr_div_pow2 by lia. set (w := 2 ^ (seg + 3)). assert (0 < w) by (apply Z.pow_pos_nonneg; lia).
    assert (2 ^ n = 16 * w) as E. { subst w. replace n with (4 + (seg + 3)) by lia. rewrite Z.pow_add_r by lia. done. }
    rewrite Z.pow_succ_r, E in Hn by lia. assert (16 <= x / w < 32) as Hd by (split; [apply Z.div_le_lower_bound; lia|apply Z.div_lt_upper_bound; lia]).
    change 0xF with (Z.ones 4). rewrite Z.land_ones by lia. change (2 ^ 4) with 16. assert (x / w mod 16 = x / w - 16) as -> by dlia.
    assert (0 <= seg < 8) as Hseg by lia. pose proof (Z.mul_div_le x w ltac:(lia)). pose proof (Z.mul_succ_div_gt x w ltac:(lia)).
    set (q := x / w - 16). assert (0 <= q < 16) as Hq by (subst q; lia). rewrite code_parts by done.
    assert ((16 * seg + q) / 16 = seg /\ (16 * seg + q) mod 16 = q) as [Ed Em] by (clear - Hq; dlia). unfold lowest, above. rewrite Ed, Em. fold w.
    split; [lia|]. split; [subst q; lia|]. destruct (_ =? _); [lia|subst q; lia].
Qed.

(** ** The codes of a sample *)

Definition ulaw_lo (k : Z) : Z := lowest k - ULAW_BIAS.
Definition ulaw_hi (k : Z) : Z := above k - ULAW_BIAS.
Definition alaw_lo (k : Z) : Z := if k <? 16 then 16 * k else lowest k.
Definition alaw_hi (k : Z) : Z := if k <? 16 then 16 * k + 16 else above k.

Lemma masked k : 0 <= k < 128 -> u8 (Z.lxor k 0xFF) = 255 - k /\ u8 (Z.lxor k 0x7F) = 127 - k /\
  u8 (Z.lxor k 0xD5) = Z.lxor k 0xD5 /\ u8 (Z.lxor k 0x55) = Z.lxor k 0x55.
Proof.
  intros Hk. pose proof (for_segments (fun k => (u8 (Z.lxor k 0xFF) =? 255 - k) && (u8 (Z.lxor k 0x7F) =? 127 - k) &&
    (u8 (Z.lxor k 0xD5) =? Z.lxor k 0xD5) && (u8 (Z.lxor k 0x55) =? Z.lxor k 0x55)) eq_refl k Hk) as H. cbv beta in H.
  rewrite !andb_true_iff, !Z.eqb_eq in H. tauto.
Qed.

Lemma ulaw_quantized s : linear_to_ulaw s = u8 (Z.lxor (quantized 3 (ULAW_BIAS + Z.abs s)) (if s <? 0 then 0x7F else 0xFF)).
Proof.
  unfold linear_to_ulaw, quantized. replace (if s <? 0 then (ULAW_BIAS - s, 127) else (ULAW_BIAS + s, 255)) with (ULAW_BIAS + Z.abs s, if s <? 0 then 127 else 255).
  - set (seg := top_bit _ - 7). destruct (seg >=? 8); [done|]. by destruct (Z.eqb_spec seg 0) as [->|].
  - destruct (Z.ltb_spec s 0); f_equal; lia.
Qed.

Lemma ulaw_encode s : Z.abs s < 2 ^ 31 - ULAW_BIAS ->
  exists k, 0 <= k < 128 /\ ulaw_lo k <= Z.abs s < ulaw_hi k /\ linear_to_ulaw s = if s <? 0 then 127 - k else 255 - k.
Proof.
  intros Hs. unfold ulaw_lo, ulaw_hi. unfold ULAW_BIAS in *. destruct (quantized_high (0x84 + Z.abs s) 3 ltac:(lia) ltac:(done)) as [Hk Hi].
  eexists. split; [done|]. split; [lia|]. rewrite ulaw_quantized. destruct (masked _ Hk) as (M1 & M2 & _). destruct (s <? 0); done.
Qed.

Lemma quantized_low x : 0 <= x < 256 -> quantized 4 x = x / 16.
Proof.
  intros Hx. unfold quantized. rewrite segment_of by lia. assert (Z.max (Z.log2 x) 7 = 7) as ->.
  { destruct (Z.eq_dec x 0) as [->|]; [done|]. pose proof (proj1 (Z.log2_lt_pow2 x 8 ltac:(lia)) ltac:(lia)). lia. }
  change (7 - 7) with 0. cbv beta iota zeta delta [Z.geb Z.eqb Z.compare]. rewrite Z.shiftr_div_pow2 by lia. change (2 ^ 4) with 16. change 0xF with (Z.ones 4). rewrite Z.land_ones by lia.
  change (2 ^ 4) with 16. change (Z.shiftl 0 4) with 0. rewrite Z.lor_0_l. apply Z.mod_small. dlia.
Qed.

Lemma alaw_magnitude x : 0 <= x < 2 ^ 31 -> 0 <= quantized 4 x < 128 /\ alaw_lo (quantized 4 x) <= x < alaw_hi (quantized 4 x).
Proof.
  intros Hx. unfold alaw_lo, alaw_hi. destruct (Z.lt_ge_cases x 256) as [Hl|Hg].
  - rewrite quantized_low by lia. assert (0 <= x / 16 < 16) by dlia. destruct (Z.ltb_spec (x / 16) 16); [|lia]. dlia.
  - destruct (quantized_high x 4 ltac:(lia) ltac:(lia)) as [Hk Hi]. split; [done|]. destruct (Z.ltb_spec (quantized 4 x) 16) as [Hs|]; [|done].
    unfold above in Hi. destruct (Z.eqb_spec (quantized 4 x) 127); [lia|]. rewrite (Z.div_small (quantized 4 x)), Z.mod_small in Hi by lia. lia.
Qed.

Lemma alaw_encode s : Z.abs s < 2 ^ 31 -> exists k, 0 <= k < 128 /\
  (if s <? 0 then (k = 0 /\ -8 < s) \/ alaw_lo k <= - s - 8 < alaw_hi k else alaw_lo k <= s < alaw_hi k) /\
  linear_to_alaw s = Z.lxor k (if s <? 0 then 0x55 else 0xD5).
Proof.
  intros Hs. unfold linear_to_alaw. rewrite Z.geb_leb. destruct (Z.ltb_spec s 0) as [Hn|Hp], (Z.leb_spec 0 s); try lia.
  - destruct (Z.lt_ge_cases (-8) s) as [Ht|Ht].
    + exists 0. split; [lia|]. split; [by left|]. assert (- s - 8 = -1 \/ - s - 8 = -2 \/ - s - 8 = -3 \/ - s - 8 = -4 \/ - s - 8 = -5 \/ - s - 8 = -6 \/ - s - 8 = -7) as H7 by lia.
      by repeat destruct H7 as [->|H7]; [..|rewrite H7].
    + destruct (alaw_magnitude (- s - 8) ltac:(lia)) as [Hk Hi]. eexists. split; [done|]. split; [by right|].
      destruct (masked _ Hk) as (_ & _ & _ & M). rewrite <- M. unfold quantized. set (seg := top_bit _ - 7). rewrite (Z.geb_leb (- s - 8) 0), (proj2 (Z.leb_le 0 (- s - 8))) by lia.
      by destruct (seg >=? 8).
  - destruct (alaw_magnitude s ltac:(lia)) as [Hk Hi]. eexists. split; [done|]. split; [done|].
    destruct (masked _ Hk) as (_ & _ & M & _). rewrite <- M. unfold quantized. set (seg := top_bit _ - 7). rewrite (Z.geb_leb s 0), (proj2 (Z.leb_le 0 s)) by lia.
    by destruct (seg >=? 8).
Qed.

(** ** Levels *)

(** Half the width of the interval of a code. *)
Definition ulaw_half (c : Z) : Z := 4 * 2 ^ Z.shiftr (Z.land (Z.lnot c) 0x70) 4.
Definition alaw_half (c : Z) : Z := 8 * 2 ^ Z.max 0 (Z.shiftr (Z.land (Z.lxor c ALAW_AMI_MASK) 0x70) 4 - 1).

Definition ulaw_through (s : Z) : Z := ulaw_to_linear (linear_to_ulaw s).
Definition alaw_through (s : Z) : Z := alaw_to_linear (linear_to_alaw s).

Definition ulaw_code (neg : bool) (k : Z) : Z := if neg then 127 - k else 255 - k.
Definition alaw_code (neg : bool) (k : Z) : Z := Z.lxor k (if neg then 0x55 else 0xD5).

Definition signed (neg : bool) (z : Z) : Z := if neg then - z else z.

(** The level of a code is the middle of its interval; the last one is cut at the range
    of the law. *)
Lemma ulaw_level k : 0 <= k < 128 -> exists v, 0 <= v /\ forall neg, ulaw_to_linear (ulaw_code neg k) = signed neg v /\
  ulaw_half (ulaw_code neg k) = v - ulaw_lo k /\ Z.min (ulaw_hi k) 32636 - v = ulaw_half (ulaw_code neg k).
Proof.
  intros Hk. set (v k := (lowest k + 2 ^ (k / 16 + 2)) - ULAW_BIAS). exists (v k).
  pose proof (for_segments (fun k => forallb (fun neg => (ulaw_to_linear (ulaw_code neg k) =? signed neg (v k)) && (0 <=? v k) &&
    (ulaw_half (ulaw_code neg k) =? v k - ulaw_lo k) && (Z.min (ulaw_hi k) 32636 - v k =? ulaw_half (ulaw_code neg k))) [true; false]) eq_refl k Hk) as H.
  cbn [forallb] in H. rewrite !andb_true_iff, !Z.eqb_eq, Z.leb_le in H. split; [tauto|]. intros []; tauto.
Qed.

Lemma alaw_level k : 0 <= k < 128 -> exists v, 8 <= v /\ forall neg, alaw_to_linear (alaw_code neg k) = signed neg v /\
  alaw_half (alaw_code neg k) = v - alaw_lo k /\ Z.min (alaw_hi k) 32768 - v = alaw_half (alaw_code neg k) /\ alaw_hi k mod 8 = 0.
Proof.
  intros Hk. set (v k := if k <? 16 then 16 * k + 8 else lowest k + 2 ^ (k / 16 + 2)). exists (v k).
  pose proof (for_segments (fun k => forallb (fun neg => (alaw_to_linear (alaw_code neg k) =? signed neg (v k)) && (8 <=? v k) &&
    (alaw_half (alaw_code neg k) =? v k - alaw_lo k) && (Z.min (alaw_hi k) 32768 - v k =? alaw_half (alaw_code neg k)) && (alaw_hi k mod 8 =? 0)) [true; false]) eq_refl k Hk) as H.
  cbn [forallb] in H. rewrite !andb_true_iff, !Z.eqb_eq, Z.leb_le in H. split; [tauto|]. intros []; tauto.
Qed.

(** Greater intervals have greater levels. *)
Definition ordered (lo hi v : Z -> Z) (k : Z) : bool := (k =? 127) || ((v k <=? v (k + 1)) && (lo k <=? lo (k + 1)) && (hi k <=? lo (k + 1))).

Lemma step_mono (g : Z -> Z) : (forall k, 0 <= k < 127 -> g k <= g (k + 1)) -> forall k k', 0 <= k -> k <= k' -> k' < 128 -> g k <= g k'.
Proof.
  intros H k k' Hk Hle. revert k' Hle. apply (Zlt_lower_bound_ind (fun k' => k' < 128 -> g k <= g k') k). intros x IH Hx Hlt.
  destruct (Z.eq_dec x k) as [->|]; [lia|]. pose proof (IH (x - 1) ltac:(lia) ltac:(lia)). pose proof (H (x - 1) ltac:(lia)) as Hs.
  replace (x - 1 + 1) with x in Hs by lia. lia.
Qed.

Lemma ordered_levels lo hi v : all_range 7 (ordered lo hi v) 0 = true ->
  forall k k' x x', 0 <= k < 128 -> 0 <= k' < 128 -> lo k <= x < hi k -> lo k' <= x' < hi k' -> x <= x' -> v k <= v k'.
Proof.
  intros H k k' x x' Hk Hk' Hx Hx' Hle.
  assert (forall j, 0 <= j < 127 -> v j <= v (j + 1) /\ lo j <= lo (j + 1) /\ hi j <= lo (j + 1)) as Hs.
  { intros j Hj. pose proof (for_segments _ H j ltac:(lia)) as Ho. unfold ordered in Ho. rewrite (proj2 (Z.eqb_neq j 127)) in Ho by lia.
    cbn [orb] in Ho. rewrite !andb_true_iff, !Z.leb_le in Ho. tauto. }
  destruct (Z.le_gt_cases k k') as [Hkk|Hkk]; [apply step_mono; try lia; intros; by apply Hs|].
  assert (lo (k' + 1) <= lo k) by (apply step_mono; try lia; intros; by apply Hs). destruct (Hs k' ltac:(lia)). lia.
Qed.

(** ** Theorems *)

(** Half the width of the interval that a sample is in, by its size alone: the laws double the width of
    their intervals with every power of two of the magnitude, which u-law counts with its bias and up to its limit of 32635. *)
Definition ulaw_error (s : Z) : Z := 2 ^ (Z.log2 (Z.min (Z.abs s) 32635 + 132) - 5) + Z.max 0 (Z.abs s - 32635).
Definition alaw_error (s : Z) : Z := 2 ^ (Z.max 8 (Z.log2 (Z.abs s)) - 5) + 7.

Lemma half_width k neg : 0 <= k < 128 ->
  ulaw_half (ulaw_code neg k) = 2 ^ (Z.log2 (ulaw_lo k + 132) - 5) /\ ulaw_lo k <= 32635 /\ 5 <= Z.log2 (ulaw_lo k + 132) /\
  alaw_half (alaw_code neg k) = 2 ^ (Z.max 8 (Z.log2 (alaw_lo k)) - 5).
Proof.
  intros Hk. pose proof (for_segments (fun k => forallb (fun neg => (ulaw_half (ulaw_code neg k) =? 2 ^ (Z.log2 (ulaw_lo k + 132) - 5)) && (ulaw_lo k <=? 32635) &&
    (5 <=? Z.log2 (ulaw_lo k + 132)) && (alaw_half (alaw_code neg k) =? 2 ^ (Z.max 8 (Z.log2 (alaw_lo k)) - 5))) [true; false]) eq_refl k Hk) as H.
  cbn [forallb] in H. rewrite !andb_true_iff, !Z.eqb_eq, !Z.leb_le in H. destruct neg; tauto.
Qed.

(** Companding keeps a sample within half the width of its interval, with u-law further off by what exceeds
    the limit of 32635, with A-law by up to seven for a negative sample
    that is not a multiple of eight. *)
Theorem companding_error s : - 2 ^ 15 <= s < 2 ^ 15 ->
  Z.abs (ulaw_to_linear (linear_to_ulaw s) - s) <= ulaw_error s /\ Z.abs (alaw_to_linear (linear_to_alaw s) - s) <= alaw_error s.
Proof.
  intros Hs. unfold ulaw_error, alaw_error. split.
  - destruct (ulaw_encode s) as (k & Hk & Hi & E); [unfold ULAW_BIAS; lia|]. change (linear_to_ulaw s = ulaw_code (s <? 0) k) in E. rewrite E.
    destruct (ulaw_level k Hk) as (v & Hv & Hn); destruct (Hn (s <? 0)) as (-> & Hh & Hh'). destruct (half_width k (s <? 0) Hk) as (Hw & Hlo & Hlog & _).
    assert (2 ^ (Z.log2 (ulaw_lo k + 132) - 5) <= 2 ^ (Z.log2 (Z.min (Z.abs s) 32635 + 132) - 5)) as Hm.
    { apply Z.pow_le_mono_r; [lia|]. pose proof (Z.log2_le_mono (ulaw_lo k + 132) (Z.min (Z.abs s) 32635 + 132) ltac:(lia)). lia. }
    rewrite Hw in Hh, Hh'. unfold signed. destruct (Z.ltb_spec s 0); lia.
  - destruct (alaw_encode s) as (k & Hk & Hi & E); [lia|]. change (linear_to_alaw s = alaw_code (s <? 0) k) in E. rewrite E.
    destruct (alaw_level k Hk) as (v & Hv & Hn); destruct (Hn (s <? 0)) as (-> & Hh & Hh' & Hm). destruct (half_width k (s <? 0) Hk) as (_ & _ & _ & Hw). rewrite Hw in Hh, Hh'.
    assert (alaw_lo k <= Z.abs s \/ k = 0) as Hlo by (destruct (Z.ltb_spec s 0); destruct Hi; intuition lia).
    assert (2 ^ (Z.max 8 (Z.log2 (alaw_lo k)) - 5) <= 2 ^ (Z.max 8 (Z.log2 (Z.abs s)) - 5)) as Hmono.
    { apply Z.pow_le_mono_r; [lia|]. destruct Hlo as [Hlo| ->]; [pose proof (Z.log2_le_mono _ _ Hlo)|change (Z.log2 (alaw_lo 0)) with 0]; lia. }
    unfold signed. destruct (Z.ltb_spec s 0); try lia.
    destruct Hi as [[-> Ht]|Hi]; [|lia].
    change (2 ^ (Z.max 8 (Z.log2 (alaw_lo 0)) - 5)) with 8 in *. change (alaw_lo 0) with 0 in Hh. change (alaw_hi 0) with 16 in Hh'. lia.
Qed.

Lemma ulaw_mono_pos : all_range 7 (ordered ulaw_lo ulaw_hi (fun k => ulaw_to_linear (ulaw_code false k))) 0 = true.
Proof. vm_compute. reflexivity. Qed.

Lemma alaw_mono_pos : all_range 7 (ordered alaw_lo alaw_hi (fun k => alaw_to_linear (alaw_code false k))) 0 = true.
Proof. vm_compute. reflexivity. Qed.

(** Companding does not change the order of samples, whatever integers the caller passes. *)
Theorem companding_mono s s' : Z.abs s < 2 ^ 31 - ULAW_BIAS -> Z.abs s' < 2 ^ 31 - ULAW_BIAS -> s <= s' ->
  ulaw_through s <= ulaw_through s' /\ alaw_through s <= alaw_through s'.
Proof.
  unfold ULAW_BIAS. intros Hs Hs' Hle. split.
  - destruct (ulaw_encode s) as (k & Hk & Hi & E); [done|]. destruct (ulaw_encode s') as (k' & Hk' & Hi' & E'); [done|].
    change (linear_to_ulaw s = ulaw_code (s <? 0) k) in E. change (linear_to_ulaw s' = ulaw_code (s' <? 0) k') in E'. unfold ulaw_through. rewrite E, E'.
    pose proof (ordered_levels _ _ _ ulaw_mono_pos) as Ho. cbv beta in Ho.
    assert (forall k, 0 <= k < 128 -> ulaw_to_linear (ulaw_code true k) = - ulaw_to_linear (ulaw_code false k) /\ 0 <= ulaw_to_linear (ulaw_code false k)) as Hl.
    { intros j Hj. destruct (ulaw_level j Hj) as (v & Hv & Hn). rewrite (proj1 (Hn true)), (proj1 (Hn false)). cbn [signed]. lia. }
    destruct (Hl k Hk), (Hl k' Hk'). destruct (Z.ltb_spec s 0), (Z.ltb_spec s' 0); try lia.
    + pose proof (Ho k' k (Z.abs s') (Z.abs s) Hk' Hk Hi' Hi). lia.
    + apply (Ho k k' (Z.abs s) (Z.abs s')); try done. lia.
  - destruct (alaw_encode s) as (k & Hk & Hi & E); [lia|]. destruct (alaw_encode s') as (k' & Hk' & Hi' & E'); [lia|].
    change (linear_to_alaw s = alaw_code (s <? 0) k) in E. change (linear_to_alaw s' = alaw_code (s' <? 0) k') in E'. unfold alaw_through. rewrite E, E'.
    pose proof (ordered_levels _ _ _ alaw_mono_pos) as Ho. cbv beta in Ho.
    assert (forall k, 0 <= k < 128 -> alaw_to_linear (alaw_code true k) = - alaw_to_linear (alaw_code false k) /\ 8 <= alaw_to_linear (alaw_code false k)) as Hl.
    { intros j Hj. destruct (alaw_level j Hj) as (v & Hv & Hn). rewrite (proj1 (Hn true)), (proj1 (Hn false)). cbn [signed]. lia. }
    assert (alaw_to_linear (alaw_code false 0) = 8) as H8 by reflexivity.
    destruct (Hl k Hk), (Hl k' Hk'). destruct (Z.ltb_spec s 0), (Z.ltb_spec s' 0); try lia.
    + destruct Hi' as [[-> _]|Hi']; [lia|]. destruct Hi as [[-> Ht]|Hi]; [|pose proof (Ho k' k (- s' - 8) (- s - 8) Hk' Hk Hi' Hi); lia].
      unfold alaw_lo in Hi'. destruct (Z.ltb_spec k' 16) as [Hlt|Hge]; [lia|]. unfold lowest in Hi'. assert (0 < 2 ^ (k' / 16 + 3)) by (apply Z.pow_pos_nonneg; dlia).
      assert (0 <= k' mod 16) by dlia. nia.
    + apply (Ho k k' s s'); done.
Qed.

Lemma companding_mono_witness : ulaw_through (-32768) <= ulaw_through 70000.
Proof. refine (proj1 (companding_mono (-32768) 70000 _ _ _)); vm_compute; done. Defined.

(** Decoding and encoding gives a code back, except that the u-law code of negative zero
    becomes the one of zero. *)
Theorem code_roundtrip c : 0 <= c < 2 ^ 8 ->
  linear_to_ulaw (ulaw_to_linear c) = (if c =? 0x7F then 0xFF else c) /\ linear_to_alaw (alaw_to_linear c) = c.
Proof.
  intros Hc. pose proof (for_codes (fun c => (linear_to_ulaw (ulaw_to_linear c) =? (if c =? 0x7F then 0xFF else c)) && (linear_to_alaw (alaw_to_linear c) =? c)) eq_refl c Hc) as H.
  cbv beta in H. by rewrite andb_true_iff, !Z.eqb_eq in H.
Qed.

(** Between the laws: the sign of a level is kept, it moves by at most four more than half the
    width of the wider interval, and a second passage through both tables changes nothing. *)
Theorem transcoding c : 0 <= c < 2 ^ 8 ->
  0 <= alaw_to_linear (ulaw_to_alaw c) * ulaw_to_linear c /\ 0 <= ulaw_to_linear (alaw_to_ulaw c) * alaw_to_linear c /\
  Z.abs (alaw_to_linear (ulaw_to_alaw c) - ulaw_to_linear c) <= Z.max (alaw_half (ulaw_to_alaw c)) (ulaw_half c) + 4 /\
  Z.abs (ulaw_to_linear (alaw_to_ulaw c) - alaw_to_linear c) <= Z.max (alaw_half c) (ulaw_half (alaw_to_ulaw c)) + 4 /\
  alaw_to_ulaw (ulaw_to_alaw (alaw_to_ulaw (ulaw_to_alaw c))) = alaw_to_ulaw (ulaw_to_alaw c) /\
  ulaw_to_alaw (alaw_to_ulaw (ulaw_to_alaw (alaw_to_ulaw c))) = ulaw_to_alaw (alaw_to_ulaw c).
Proof.
  intros Hc. pose proof (for_codes (fun c => (0 <=? alaw_to_linear (ulaw_to_alaw c) * ulaw_to_linear c) && (0 <=? ulaw_to_linear (alaw_to_ulaw c) * alaw_to_linear c) &&
    (Z.abs (alaw_to_linear (ulaw_to_alaw c) - ulaw_to_linear c) <=? Z.max (alaw_half (ulaw_to_alaw c)) (ulaw_half c) + 4) &&
    (Z.abs (ulaw_to_linear (alaw_to_ulaw c) - alaw_to_linear c) <=? Z.max (alaw_half c) (ulaw_half (alaw_to_ulaw c)) + 4) &&
    (alaw_to_ulaw (ulaw_to_alaw (alaw_to_ulaw (ulaw_to_alaw c))) =? alaw_to_ulaw (ulaw_to_alaw c)) &&
    (ulaw_to_alaw (alaw_to_ulaw (ulaw_to_alaw (alaw_to_ulaw c))) =? ulaw_to_alaw (alaw_to_ulaw c))) eq_refl c Hc) as H.
  cbv beta in H. rewrite !andb_true_iff, !Z.eqb_eq, !Z.leb_le in H. tauto.
Qed.

Lemma transcoding_witness : ulaw_to_alaw (alaw_to_ulaw (ulaw_to_alaw (alaw_to_ulaw 5))) = ulaw_to_alaw (alaw_to_ulaw 5).
Proof. refine (proj2 (proj2 (proj2 (proj2 (proj2 (transcoding 5 _)))))). lia. Defined.

(** ** Frames *)

Lemma convert_all f from n : n = Z.of_nat (length from) -> convert f n from = Some (map f from).
Proof. intros ->. unfold convert. rewrite Z.leb_refl, Nat2Z.id, take_ge by lia. done. Qed.

(** C38. A frame of any 16 bit samples that is encoded and decoded again by either law has the same number of samples,
    each within half the width of the interval its size is in, with u-law further off by what exceeds 32635 and with A-law by up to seven; a
    frame of codes that is decoded and encoded is the same, but that u-law turns its code 0x7F (negative zero) into 0xFF. *)
Theorem g711_frames frame codes : Forall (fun s => - 2 ^ 15 <= s < 2 ^ 15) frame -> Forall (fun c => 0 <= c < 2 ^ 8) codes ->
  let n := Z.of_nat (length frame) in let m := Z.of_nat (length codes) in n < 2 ^ 31 -> m < 2 ^ 31 ->
  (exists e out, switch_g711u_encode frame (2 * n) = Some e /\ switch_g711u_decode false 0 e n = Some (out, 2 * n) /\
     Forall2 (fun s s' => Z.abs (s' - s) <= ulaw_error s) frame out) /\
  (exists e out, switch_g711a_encode frame (2 * n) = Some e /\ switch_g711a_decode false 0 e n = Some (out, 2 * n) /\
     Forall2 (fun s s' => Z.abs (s' - s) <= alaw_error s) frame out) /\
  (exists out, switch_g711a_decode false 0 codes m = Some (out, 2 * m) /\ switch_g711a_encode out (2 * m) = Some codes) /\
  (exists out, switch_g711u_decode false 0 codes m = Some (out, 2 * m) /\ switch_g711u_encode out (2 * m) = Some (map (fun c => if c =? 0x7F then 0xFF else c) codes)).
Proof.
  intros Hf Hc n m Hn Hm. subst n m. unfold switch_g711u_encode, switch_g711a_encode, switch_g711u_decode, switch_g711a_decode, g711_decode.
  rewrite (Z.mul_comm 2 (Z.of_nat (length frame))), (Z.mul_comm 2 (Z.of_nat (length codes))), !Z.div_mul by done.
  assert (forall A B (P : A -> B -> Prop) g l, Forall (fun x => P x (g x)) l -> Forall2 P l (map g l)) as Hmap.
  { intros A B P g l. induction 1; constructor; done. }
  split_and!.
  1, 2: eexists _, _; rewrite convert_all by done; split; [done|]; rewrite convert_all by (by rewrite length_map); cbn [mbind option_bind]; rewrite u32_small by lia; split; [done|];
    rewrite map_map; apply Hmap; eapply Forall_impl; [exact Hf|]; intros s Hs; destruct (companding_error s Hs) as [Hu Ha]; done.
  - eexists. rewrite convert_all by done. cbn [mbind option_bind]. rewrite u32_small by lia. split; [done|]. rewrite convert_all by (by rewrite length_map). f_equal.
    rewrite map_map. rewrite <- (map_id codes) at 2. apply map_ext_in. intros c Hin%list_elem_of_In. by destruct (code_roundtrip c (proj1 (Forall_forall _ _) Hc c Hin)).
  - eexists. rewrite convert_all by done. cbn [mbind option_bind]. rewrite u32_small by lia. split; [done|]. rewrite convert_all by (by rewrite length_map). f_equal.
    rewrite map_map. apply map_ext_in. intros c Hin%list_elem_of_In. by destruct (code_roundtrip c (proj1 (Forall_forall _ _) Hc c Hin)).
Qed.

Lemma g711_frames_witness : exists out, switch_g711a_decode false 0 [0; 127; 200] 3 = Some (out, 6) /\ switch_g711a_encode out 6 = Some [0; 127; 200].
Proof.
  refine (proj1 (proj2 (proj2 (g711_frames [1000; -23] [0; 127; 200] _ _ _ _)))); try reflexivity; repeat constructor; vm_compute; discriminate.
Defined.

(** ** Findings *)

(** The portable bottom_bit counts from one, where the documentation and the versions
    for processors count from zero. *)
Theorem bottom_bit_one_too_high : bottom_bit 1 = 1 /\ bottom_bit 8 = 4 /\ bottom_bit 0x80000000 = 32.
Proof. done. Qed.

(** Negative samples are moved by eight before they are encoded to A-law, which is right
    for samples of 13 bits only: -23 becomes -8 although there is a code for -24. *)
Theorem alaw_negative_off : alaw_through (-23) = -8 /\ alaw_through (-24) = -24 /\ alaw_through 23 = 24.
Proof. done. Qed.

End G711.
