(* ===== verification/Double.v ===== *)
(** * Doubles

    The operations on double that the audio code uses: IEEE 754 numbers of 53 bits
    (SpecFloat of the Standard Library), rounded to nearest, and the conversions between them
    and integers.  The lemmas bound what rounding can do, which is all that the theorems about
    volume and gain need. *)

From S2P Require Import Prelude.
From Stdlib Require Import SpecFloat.

#[local] Open Scope Z_scope.

Module Double.

Definition prec : Z := 53.
Definition emax : Z := 1024.

(** An integer below 2^53. *)
Definition double_of_int (z : Z) : spec_float :=
  match z with Z0 => S754_zero false | Zpos p => S754_finite false p 0 | Zneg p => S754_finite true p 0 end.

(** [(int32_t) d], undefined outside the range. *)
Definition int_of_double (d : spec_float) : option Z :=
  match d with
  | S754_zero _ => Some 0
  | S754_finite s m e =>
      let v := Z.shiftl (Zpos m) e in
      let z := if s then - v else v in
      if (- 2 ^ 31 <=? z) && (z <? 2 ^ 31) then Some z else None
  | _ => None
  end.

Definition multiply : spec_float -> spec_float -> spec_float := SFmul prec emax.
Definition divide : spec_float -> spec_float -> spec_float := SFdiv prec emax.

(** The literals of the tables have six digits behind the point. *)
Definition millionths (n : Z) : spec_float := divide (double_of_int n) (double_of_int 1000000).
Definition is_zero (d : spec_float) : bool := match d with S754_zero _ => true | _ => false end.


(** ** Rounding *)

Lemma digits_spec p : 2 ^ (Zpos (digits2_pos p) - 1) <= Zpos p < 2 ^ Zpos (digits2_pos p).
Proof.
  induction p as [p IH|p IH|]; cbn [digits2_pos]; [| |by cbn].
  all: rewrite Pos2Z.inj_succ, Z.pow_succ_r by lia; replace (Z.succ (Zpos (digits2_pos p)) - 1) with (Z.succ (Zpos (digits2_pos p) - 1)) by lia;
    rewrite Z.pow_succ_r by lia; lia.
Qed.

Lemma shr_1_half r : 0 <= shr_m r -> shr_m (shr_1 r) = shr_m r / 2.
Proof.
  destruct r as [m rr s]. cbn [shr_m]. destruct m as [|[p|p|]|p]; intros H; try lia; cbn [shr_1 shr_m]; try done.
  - rewrite Pos2Z.inj_xI. dlia.
  - rewrite Pos2Z.inj_xO. dlia.
Qed.

Lemma iter_shr n r : 0 <= shr_m r -> shr_m (iter_pos shr_1 n r) = shr_m r / 2 ^ Zpos n.
Proof.
  assert (forall z k, 0 <= z -> 0 <= k -> 0 <= z / 2 ^ k) as Hpos by (intros; apply Z.div_pos; [done|]; apply Z.pow_pos_nonneg; lia).
  assert (forall z j k, 0 <= j -> 0 <= k -> z / 2 ^ j / 2 ^ k = z / 2 ^ (j + k)) as Hdiv.
  { intros z j k Hj Hk. rewrite Z.pow_add_r by done. apply Z.div_div; [apply Z.pow_nonzero; lia|apply Z.pow_pos_nonneg; lia]. }
  revert r. induction n as [n IH|n IH|]; intros r Hr; cbn [iter_pos].
  - assert (0 <= shr_m (shr_1 r)) by (rewrite shr_1_half by done; apply Z.div_pos; lia). rewrite !IH by (try rewrite IH; auto with lia).
    rewrite shr_1_half by done. change (shr_m r / 2) with (shr_m r / 2 ^ 1). rewrite !Hdiv by lia. do 2 f_equal. lia.
  - rewrite !IH by (try rewrite IH; auto with lia). rewrite Hdiv by lia. do 2 f_equal. lia.
  - by apply shr_1_half.
Qed.

Lemma nearest_even_bounds m l : round_nearest_even m l = m \/ round_nearest_even m l = m + 1.
Proof. unfold round_nearest_even. destruct l as [|[]]; [by left| | |]; try destruct (Z.even m); auto. Qed.

Lemma record_of_loc_m m l : shr_m (shr_record_of_loc m l) = m.
Proof. by destruct l as [|[]]. Qed.

(** Bringing a number to at most 53 bits. *)
Lemma shr_fexp_spec m e l : 0 < m -> -1074 <= e -> exists n, 0 <= n /\ (shr_fexp prec emax m e l).2 = e + n /\
  shr_m (shr_fexp prec emax m e l).1 = m / 2 ^ n /\ (n = 0 /\ m < 2 ^ 53 \/ 2 ^ (n + 52) <= m < 2 ^ (n + 53)).
Proof.
  intros Hm He. destruct m as [|p|]; try lia. pose proof (digits_spec p) as Hd. unfold shr_fexp, fexp, emin, prec, emax, Zdigits2.
  set (d := Zpos (digits2_pos p)) in *. assert (0 < d) as Hd0 by (subst d; lia). clearbody d.
  replace (Z.max (d + e - 53) (3 - 1024 - 53) - e) with (Z.max (d - 53) (-1074 - e)) by lia. unfold shr.
  destruct (Z.le_gt_cases d 53) as [Hle|Hgt].
  - exists 0. assert (2 ^ d <= 2 ^ 53) by (apply Z.pow_le_mono_r; lia). destruct (Z.max (d - 53) (-1074 - e)) eqn:E; try lia; cbn [fst snd];
      rewrite record_of_loc_m, Z.div_1_r; split_and!; try lia.
  - exists (d - 53). replace (Z.max (d - 53) (-1074 - e)) with (d - 53) by lia. destruct (d - 53) as [|n|] eqn:E; try lia. cbn [fst snd].
    rewrite iter_shr, record_of_loc_m by (rewrite record_of_loc_m; lia). split_and!; try done; try lia. right.
    replace (Zpos n + 52) with (d - 1) by lia. replace (Zpos n + 53) with d by lia. done.
Qed.

(** A rounded number is the one before or the one after what was rounded, among the
    multiples of the power of two that 53 bits leave. *)
Lemma round_spec sx m e l : 0 < m -> -1074 <= e -> e + 53 <= 970 -> m < 2 ^ 106 -> exists n R M E, 0 <= n /\ binary_round_aux prec emax sx m e l = S754_finite sx M E /\
  (R = m / 2 ^ n \/ R = m / 2 ^ n + 1) /\ 0 < R /\ e + n <= E /\ Zpos M * 2 ^ (E - (e + n)) = R /\ (n = 0 /\ m < 2 ^ 53 \/ 2 ^ (n + 52) <= m < 2 ^ (n + 53)).
Proof.
  intros Hm He Hmax Hbig. destruct (shr_fexp_spec m e l Hm He) as (n & Hn & E1 & M1 & Hr). unfold binary_round_aux.
  destruct (shr_fexp prec emax m e l) as [r1 e1]. cbn [fst snd] in E1, M1. subst e1. set (R := round_nearest_even (shr_m r1) (loc_of_shr_record r1)).
  assert (n <= 53) as Hn53. { destruct Hr as [[-> _]|[Hr _]]; [lia|]. assert (n + 52 < 106); [|lia]. apply (Z.pow_lt_mono_r_iff 2); lia. }
  assert (R = m / 2 ^ n \/ R = m / 2 ^ n + 1) as HR by (rewrite <- M1; apply nearest_even_bounds).
  assert (0 < m / 2 ^ n < 2 ^ 53) as Hq.
  { assert (0 < 2 ^ n) by (apply Z.pow_pos_nonneg; lia). destruct Hr as [[-> ?]|[H1 H2]]; [rewrite Z.div_1_r; lia|].
    rewrite Z.pow_add_r in H1, H2 by lia. split; [apply Z.div_str_pos; nia|apply Z.div_lt_upper_bound; lia]. }
  clearbody R. destruct (shr_fexp_spec R (e + n) loc_Exact ltac:(lia) ltac:(lia)) as (n2 & Hn2 & E2 & M2 & Hr2).
  destruct (shr_fexp prec emax R (e + n) loc_Exact) as [r2 e2]. cbn [fst snd] in E2, M2. subst e2. rewrite M2.
  assert (n2 = 0 \/ n2 = 1 /\ R = 2 ^ 53) as Hcase.
  { destruct Hr2 as [[? _]|[H1 H2]]; [by left|]. destruct (Z.eq_dec n2 0); [by left|]. right. assert (2 ^ (1 + 52) <= 2 ^ (n2 + 52)) by (apply Z.pow_le_mono_r; lia).
    assert (R = 2 ^ 53) as -> by lia. split; [|done]. assert (n2 + 52 < 54); [|lia]. apply (Z.pow_lt_mono_r_iff 2); lia. }
  exists n, R. assert (exists M, R / 2 ^ n2 = Zpos M /\ Zpos M * 2 ^ n2 = R) as (M & EM & HM).
  { destruct Hcase as [->|[-> ->]]; [|by exists (2 ^ 52)%positive]. rewrite Z.div_1_r. destruct R as [|M|]; try lia. exists M. split; [done|]. lia. }
  rewrite EM. exists M, (e + n + n2). rewrite (proj2 (Z.leb_le (e + n + n2) (emax - prec))) by (unfold emax, prec; lia).
  replace (e + n + n2 - (e + n)) with n2 by lia. split_and!; try done; lia.
Qed.

(** The integer part of a number. *)
Lemma shiftl_value M E e R : e <= 0 -> e <= E -> M * 2 ^ (E - e) = R -> Z.shiftl M E = R / 2 ^ (- e).
Proof.
  intros He HE <-. assert (0 < 2 ^ (- e)) by (apply Z.pow_pos_nonneg; lia). assert (0 < 2 ^ (E - e)) by (apply Z.pow_pos_nonneg; lia). destruct (Z.le_gt_cases 0 E) as [Hp|Hn].
  - rewrite Z.shiftl_mul_pow2 by done. replace (E - e) with (E + - e) by lia. rewrite Z.pow_add_r, Z.mul_assoc, Z.div_mul by lia. done.
  - replace E with (- (- E)) by lia. rewrite Z.shiftl_opp_r, Z.shiftr_div_pow2 by lia. replace (2 ^ (- e)) with (2 ^ (- E) * 2 ^ (E - e)).
    + replace (- - E - e) with (E - e) by lia. rewrite Z.div_mul_cancel_r; [done|apply Z.pow_nonzero; lia|lia].
    + rewrite <- Z.pow_add_r by lia. f_equal. lia.
Qed.

Definition finite_rate (d : spec_float) (m e : Z) : Prop := exists p, d = S754_finite false p e /\ m = Zpos p.

(** Rounding respects integers: the product of an integer with a number that is at least (at
    most) the integer [g] is at least (at most) the product with [g]. *)
Lemma product_bounds x d m e : x <> 0 -> Z.abs x <= 2 ^ 16 -> finite_rate d m e -> m < 2 ^ 53 -> -100 <= e <= -20 -> m <= 2 ^ 10 * 2 ^ (- e) ->
  exists T, int_of_double (multiply (double_of_int x) d) = Some (Z.sgn x * T) /\ 0 <= T < 2 ^ 31 /\
    forall g, 0 <= g -> (g * 2 ^ (- e) <= m -> Z.abs x * g <= T) /\ (m <= g * 2 ^ (- e) -> T <= Z.abs x * g).
Proof.
  intros Hx Hax (p & -> & ->) Hm He Hhi.
  assert (exists q, double_of_int x = S754_finite (x <? 0) q 0 /\ Zpos q = Z.abs x) as (q & -> & Hq) by (destruct x as [|q|q]; [done|by exists q|by exists q]).
  assert (Zpos (q * p) < 2 ^ 70) as Hp70. { rewrite Pos2Z.inj_mul, Hq. apply Z.le_lt_trans with (2 ^ 16 * 2 ^ 53); [apply Z.mul_le_mono_nonneg; lia|done]. }
  unfold multiply, SFmul. rewrite Bool.xorb_false_r. destruct (round_spec (x <? 0) (Zpos (q * p)) (0 + e) loc_Exact ltac:(lia) ltac:(lia) ltac:(lia) (Z.lt_trans _ _ (2 ^ 106) Hp70 eq_refl)) as (n & R & M & E & Hn & -> & HR & HR0 & HE & HM & Hsize).
  rewrite Z.add_0_l in *. rewrite Pos2Z.inj_mul, Hq in *. set (a := Z.abs x) in *.
  assert (n <= 17) as Hn17. { destruct Hsize as [[-> _]|[H1 _]]; [lia|]. assert (n + 52 < 70); [|lia]. apply (Z.pow_lt_mono_r_iff 2); [lia|done|]. lia. }
  unfold int_of_double. rewrite (shiftl_value _ E (e + n) R) by (done || lia). set (w := 2 ^ (- (e + n))). assert (2 ^ 1 <= w) as Hw2 by (apply Z.pow_le_mono_r; lia). assert (0 < w) as Hw by lia.
  assert (2 ^ (- e) = w * 2 ^ n) as Hwn. { subst w. rewrite <- Z.pow_add_r by lia. f_equal. lia. } assert (0 < 2 ^ n) as H2n by (apply Z.pow_pos_nonneg; lia).
  assert (0 < a) as Ha by (subst a; lia). rewrite Hwn in *. clearbody a.
  assert (forall g, 0 <= g -> (g * (w * 2 ^ n) <= Zpos p -> a * g <= R / w) /\ (Zpos p <= g * (w * 2 ^ n) -> R / w <= a * g)) as Hg.
  { intros g Hg0. split; intros H.
    - apply Z.div_le_lower_bound; [done|]. assert (w * (a * g) <= a * Zpos p / 2 ^ n); [|lia]. apply Z.div_le_lower_bound; nia.
    - apply Z.lt_succ_r, Z.div_lt_upper_bound; [done|]. destruct (Z.eq_dec (Zpos p) (g * (w * 2 ^ n))) as [Ep|].
      + destruct HR as [-> | ->]; rewrite Ep; replace (a * (g * (w * 2 ^ n))) with (w * (a * g) * 2 ^ n) by ring; rewrite Z.div_mul by lia; lia.
      + assert (a * Zpos p / 2 ^ n < w * (a * g)) by (apply Z.div_lt_upper_bound; [done|]; nia). nia. }
  destruct (Hg (2 ^ 10) ltac:(lia)) as [_ Htop]. specialize (Htop ltac:(lia)). assert (0 <= R / w) by (apply Z.div_pos; lia). assert (R / w < 2 ^ 31) by nia.
  exists (R / w). split; [|done]. clear - Hx H H0. set (T := R / w) in *. clearbody T.
  assert ((if x <? 0 then - T else T) = Z.sgn x * T) as -> by (destruct (Z.ltb_spec x 0); [rewrite Z.sgn_neg by lia|rewrite Z.sgn_pos by lia]; lia).
  destruct (Z.leb_spec (- 2 ^ 31) (Z.sgn x * T)), (Z.ltb_spec (Z.sgn x * T) (2 ^ 31)); try done; destruct x; cbn [Z.sgn] in *; lia.
Qed.

(** The integer part of the quotient of two 32 bit numbers is that of integer division. *)
Lemma quotient_exact a b : 0 <= a < 2 ^ 32 -> 0 < b < 2 ^ 32 -> a / b < 2 ^ 31 -> int_of_double (divide (double_of_int a) (double_of_int b)) = Some (a / b).
Proof.
  intros Ha Hb Hlt. destruct b as [|bp|]; try lia. destruct a as [|ap|]; [done| |lia]. cbn [double_of_int]. unfold divide, SFdiv, SFdiv_core_binary.
  pose proof (digits_spec ap) as Hd1. pose proof (digits_spec bp) as Hd2. cbn [Zdigits2]. set (d1 := Zpos (digits2_pos ap)) in *. set (d2 := Zpos (digits2_pos bp)) in *.
  assert (0 < d1) by (subst d1; lia). assert (0 < d2) by (subst d2; lia). clearbody d1 d2. set (a := Zpos ap) in *. set (b := Zpos bp) in *.
  assert (d1 <= 32) as Hd1'. { assert (d1 - 1 < 32); [|lia]. apply (Z.pow_lt_mono_r_iff 2); lia. } assert (d2 <= 32) as Hd2'. { assert (d2 - 1 < 32); [|lia]. apply (Z.pow_lt_mono_r_iff 2); lia. }
  assert (Z.min (fexp prec emax (d1 + 0 - (d2 + 0))) (0 - 0) = d1 - d2 - 53) as -> by (unfold fexp, emin, prec, emax; lia). set (s := 53 + d2 - d1). replace (0 - 0 - (d1 - d2 - 53)) with s by lia.
  assert (0 < s) as Hs by lia. replace (match s with 0 => a | Zpos _ => Z.shiftl a s | Zneg _ => 0 end) with (a * 2 ^ s) by (rewrite <- Z.shiftl_mul_pow2 by lia; by destruct s).
  assert (Z.div_eucl (a * 2 ^ s) b = (a * 2 ^ s / b, (a * 2 ^ s) mod b)) as -> by (unfold Z.div, Z.modulo; by destruct (Z.div_eucl _ _)).
  assert (0 < 2 ^ s) by (apply Z.pow_pos_nonneg; lia). assert (2 ^ 53 * 2 ^ d2 = 2 ^ d1 * 2 ^ s) as Hpow by (rewrite <- !Z.pow_add_r by lia; f_equal; lia).
  assert (2 ^ d2 = 2 * 2 ^ (d2 - 1)) as Hpd2 by (rewrite <- Z.pow_succ_r by lia; f_equal; lia).
  assert (2 ^ d1 <= 2 ^ 32) by (apply Z.pow_le_mono_r; lia). assert (0 < 2 ^ (d2 - 1)) by (apply Z.pow_pos_nonneg; lia).
  assert (b * 2 ^ 20 <= 2 ^ s) as Hbs by nia. assert (a * 2 ^ s < b * 2 ^ 54) as Hup by nia. set (q := a * 2 ^ s / b). assert (0 < q) as Hq0 by (apply Z.div_str_pos; nia).
  assert (q < 2 ^ 54) as Hq by (apply Z.div_lt_upper_bound; lia).
  destruct (round_spec (xorb false false) q (d1 - d2 - 53) (new_location b ((a * 2 ^ s) mod b)) Hq0 ltac:(lia) ltac:(lia) ltac:(lia)) as (n & R & M & E & Hn & -> & HR & HR0 & HE & HM & Hsize).
  assert (n <= 1) as Hn1. { destruct Hsize as [[-> _]|[Hs1 _]]; [lia|]. assert (n + 52 < 54); [|lia]. apply (Z.pow_lt_mono_r_iff 2); lia. }
  unfold int_of_double. rewrite (shiftl_value _ E (d1 - d2 - 53 + n) R) by (done || lia). replace (- (d1 - d2 - 53 + n)) with (s - n) by lia. set (W := 2 ^ (s - n)).
  assert (2 ^ s = W * 2 ^ n) as HW by (subst W; rewrite <- Z.pow_add_r by lia; f_equal; lia). assert (0 < 2 ^ n <= 2) as H2n by (split; [apply Z.pow_pos_nonneg; lia|apply (Z.pow_le_mono_r 2 n 1); lia]).
  assert (q / 2 ^ n = a * W / b) as Hqn.
  { subst q. rewrite Z.div_div, HW by lia. replace (a * (W * 2 ^ n)) with (a * W * 2 ^ n) by ring. apply Z.div_mul_cancel_r; lia. }
  rewrite Hqn in HR. assert (0 < W) as HW0 by (apply Z.pow_pos_nonneg; lia). assert (W * 2 ^ n <= W * 2) by (apply Z.mul_le_mono_nonneg_l; lia). assert (2 * b <= W) as HWb by lia. pose proof (Z.mul_div_le a b ltac:(lia)). pose proof (Z.mul_succ_div_gt a b ltac:(lia)). set (k := a / b) in *.
  assert (0 <= k) by (apply Z.div_pos; lia). assert (k * W <= a * W / b).
  { apply Z.div_le_lower_bound; [lia|]. replace (b * (k * W)) with (b * k * W) by ring. apply Z.mul_le_mono_nonneg_r; lia. }
  assert (a * W / b <= (k + 1) * W - 2). { apply Z.lt_succ_r, Z.div_lt_upper_bound; [lia|]. assert (a * W <= (b * (k + 1) - 1) * W) by (apply Z.mul_le_mono_nonneg_r; lia). lia. }
  assert (R / W = k) as ->. { symmetry. apply (Z.div_unique _ _ _ (R - W * k)); lia. }
  cbv zeta. cbn [xorb]. rewrite (proj2 (Z.leb_le (- 2 ^ 31) k)), (proj2 (Z.ltb_lt k (2 ^ 31))) by lia. done.
Qed.

End Double.
