(* ===== verification/Audio.v ===== *)
(** * Linear audio (src/src/switch_resample.c, switch_resample.h)

    Operations on buffers of 16 bit samples: byte order, comfort noise, mixing, the number of
    channels, volume and automatic gain control.

    A buffer is the list of its samples, as long as the memory behind the pointer; an access
    outside is [None].  Sums over channels do not overflow (they would need 65536 channels).
    Doubles are those of Double.v; a literal of the source is the quotient of its digits
    and a power of ten, which is rounded as a compiler rounds it.
    The resampler itself is the one of the speex library and is not modelled. *)

From S2P Require Import Prelude.
From S2P Require Import Double.
From Stdlib Require Import SpecFloat.

#[local] Open Scope Z_scope.

Module Audio.
Import Double.

Definition SWITCH_SMAX : Z := 32767.
Definition SWITCH_SMIN : Z := -32768.

Definition switch_normalize_to_16bit (n : Z) : Z :=
  if n >? SWITCH_SMAX then SWITCH_SMAX else if n <? SWITCH_SMIN then SWITCH_SMIN else n.

(** ** Byte order *)

Definition swap_sample (x : Z) : Z := s16 (Z.lor (Z.land (Z.shiftr x 8) 0x00ff) (Z.land (Z.shiftl x 8) 0xff00)).

(** The first [n] samples. *)
Definition over_prefix (f : Z -> Z) (n : nat) (data : list Z) : option (list Z) :=
  if (n <=? length data)%nat then Some (map f (take n data) ++ drop n data) else None.

Definition switch_swap_linear (buf : list Z) (len : Z) : option (list Z) := over_prefix swap_sample (Z.to_nat len) buf.

(** ** Noise *)

(** [rnd2 = rnd2 * 31821U + 13849U]. *)
Definition next_rnd (rnd2 : Z) : Z := s16 (u32 (u32 (u32 rnd2 * 31821) + 13849)).

(** The inner loop: [n] numbers are drawn and added. *)
Fixpoint draw (n : nat) (rnd2 sum_rnd : Z) : Z * Z :=
  match n with O => (rnd2, sum_rnd) | S n => let rnd2 := next_rnd rnd2 in draw n rnd2 (sum_rnd + rnd2) end.

Fixpoint noise (samples : nat) (channels : nat) (divisor rnd2 : Z) : list Z :=
  match samples with
  | O => []
  | S samples =>
      let '(rnd2, sum_rnd) := draw 6 rnd2 0 in
      replicate channels (s16 (Z.quot (s16 sum_rnd) (s32 divisor))) ++ noise samples channels divisor rnd2
  end.

(** Writing [new] over the beginning of a buffer. *)
Definition overwrite (new data : list Z) : option (list Z) :=
  if (length new <=? length data)%nat then Some (new ++ drop (length new) data) else None.

(** [rnd2] is made of the time and the address of the buffer.  A divisor of zero fails
    an assertion. *)
Definition switch_generate_sln_silence (data : list Z) (samples channels divisor rnd2 : Z) : option (list Z) :=
  let channels := if channels =? 0 then 1 else channels in
  if divisor =? 0 then None
  else if divisor =? 2 ^ 32 - 1 then overwrite (replicate (Z.to_nat samples) 0) data
  else overwrite (noise (Z.to_nat samples) (Z.to_nat channels) divisor rnd2) data.

(** ** Mixing *)

(** [for (i = 0; i < n; i++) data[i] = f(data[i], other_data[i])]. *)
Definition combine (f : Z -> Z -> Z) (n : nat) (data other_data : list Z) : option (list Z) :=
  if (n <=? length data)%nat && (n <=? length other_data)%nat
  then Some (zip_with f (take n data) (take n other_data) ++ drop n data) else None.

Definition mixed_frames (samples other_samples : Z) : Z := s32 (if samples >? other_samples then other_samples else samples).

(** The number of frames that are mixed, and the buffer. *)
Definition switch_merge_sln (data : list Z) (samples : Z) (other_data : list Z) (other_samples channels : Z) : option (Z * list Z) :=
  let channels := if channels =? 0 then 1 else channels in
  let x := mixed_frames samples other_samples in
  data ← combine (fun a b => s16 (switch_normalize_to_16bit (a + b))) (Z.to_nat (x * channels)) data other_data;
  Some (u32 x, data).

Definition switch_unmerge_sln (data : list Z) (samples : Z) (other_data : list Z) (other_samples channels : Z) : option (Z * list Z) :=
  let channels := if channels =? 0 then 1 else channels in
  let x := mixed_frames samples other_samples in
  data ← combine (fun a b => s16 (a - b)) (Z.to_nat (x * channels)) data other_data;
  Some (u32 x, data).

(** ** Channels *)

Definition put_sample (data : list Z) (i : nat) (v : Z) : option (list Z) := if (i <? length data)%nat then Some (<[i := v]> data) else None.

(** The sum of the samples of a frame whose channel satisfies [p], from channel [j] on. *)
Fixpoint sum_frame (p : nat -> bool) (data : list Z) (base : nat) (j n : nat) : option Z :=
  match n with
  | O => Some 0
  | S n => v ← data !! (base + j)%nat; z ← sum_frame p data base (S j) n; Some ((if p j then v else 0) + z)
  end.

Fixpoint mux_to_one (orig_channels : nat) (data : list Z) (i n : nat) : option (list Z) :=
  match n with
  | O => Some data
  | S n =>
      z ← sum_frame (fun _ => true) data (i * orig_channels) 0 orig_channels;
      data ← put_sample data i (switch_normalize_to_16bit z);
      mux_to_one orig_channels data (S i) n
  end.

(** [mark_buf] is twice [i]. *)
Fixpoint mux_to_two (orig_channels : nat) (data : list Z) (i n : nat) : option (list Z) :=
  match n with
  | O => Some data
  | S n =>
      z_left ← sum_frame Nat.odd data (i * orig_channels) 0 orig_channels;
      z_right ← sum_frame Nat.even data (i * orig_channels) 0 orig_channels;
      data ← put_sample data (2 * i) (switch_normalize_to_16bit z_left);
      data ← put_sample data (2 * i + 1) (switch_normalize_to_16bit z_right);
      mux_to_two orig_channels data (S i) n
  end.

(** The copy of [n] samples by [len]. *)
Fixpoint copy_up (data : list Z) (len i n : nat) : option (list Z) :=
  match n with
  | O => Some data
  | S n => v ← data !! i; data ← put_sample data (i + len) v; copy_up data len (S i) n
  end.

(** [for (j = 0; j < n; j++) data[k++] = data[from]]. *)
Fixpoint repeat_sample (data : list Z) (from k n : nat) : option (list Z) :=
  match n with
  | O => Some data
  | S n => v ← data !! from; data ← put_sample data k v; repeat_sample data from (S k) n
  end.

Fixpoint spread (channels samples : nat) (data : list Z) (i n : nat) : option (list Z) :=
  match n with
  | O => Some data
  | S n => data ← repeat_sample data (i + samples) (i * channels) channels; spread channels samples data (S i) n
  end.

Definition switch_mux_channels (data : list Z) (samples orig_channels channels : nat) : option (list Z) :=
  if negb (channels <? 11)%nat then None
  else if (channels <? orig_channels)%nat then
    if (channels =? 1)%nat then mux_to_one orig_channels data 0 samples
    else if (channels =? 2)%nat then mux_to_two orig_channels data 0 samples
    else Some data
  else if (orig_channels <? channels)%nat then
    data ← copy_up data (samples * orig_channels) 0 (samples * orig_channels);
    spread channels samples data 0 samples
  else Some data.

(** ** Volume *)

Definition SWITCH_GRANULAR_VOLUME_MAX : Z := 50.
Definition switch_normalize_volume (x : Z) : Z := let x := if x >? 4 then 4 else x in if x <? -4 then -4 else x.
Definition switch_normalize_volume_granular (x : Z) : Z :=
  let x := if x >? SWITCH_GRANULAR_VOLUME_MAX then SWITCH_GRANULAR_VOLUME_MAX else x in
  if x <? - SWITCH_GRANULAR_VOLUME_MAX then - SWITCH_GRANULAR_VOLUME_MAX else x.

Definition pos_granular : list Z :=
  [1122018; 1258925; 1412538; 1584893; 1778279; 1995262; 2238721; 2511887; 2818383; 3162278;
   3548134; 3981072; 4466835; 5011872; 5623413; 6309574; 7079458; 7943282; 8912509; 10000000;
   11220183; 12589254; 14125375; 15848933; 17782795; 19952621; 22387213; 25118862; 28183832; 31622776;
   35481335; 39810719; 44668358; 50118729; 56234131; 63095726; 70794586; 79432816; 89125107; 100000000;
   112201836; 125892517; 141253784; 158489334; 177827942; 199526215; 223872070; 251188705; 281838318; 316227753].

Definition neg_granular : list Z :=
  [891251; 794328; 707946; 630957; 562341; 501187; 446684; 398107; 354813; 316228;
   281838; 251189; 223872; 199526; 177828; 158489; 141254; 125893; 112202; 100000;
   89125; 79433; 70795; 63096; 56234; 50119; 44668; 39811; 35481; 31623;
   28184; 25119; 22387; 19953; 17783; 15849; 14125; 12589; 11220; 10000;
   8913; 7943; 7079; 6310; 5623; 5012; 4467; 3981; 3548; 0].

Definition pos : list Z := [1300000; 2300000; 3300000; 4300000].
Definition neg : list Z := [800000; 600000; 400000; 200000].

Definition scale_sample (newrate : spec_float) (x : Z) : option Z :=
  (fun tmp => s16 (switch_normalize_to_16bit tmp)) <$> int_of_double (multiply (double_of_int x) newrate).

Fixpoint scale_samples (newrate : spec_float) (n : nat) (data : list Z) : option (list Z) :=
  match n, data with
  | O, _ => Some data
  | S n, x :: data => y ← scale_sample newrate x; data ← scale_samples newrate n data; Some (y :: data)
  | S _, [] => None
  end.

Definition switch_change_sln_volume_granular (data : list Z) (samples vol : Z) : option (list Z) :=
  if vol =? 0 then Some data
  else
    let vol := switch_normalize_volume_granular vol in
    newrate ← millionths <$> (if vol >? 0 then pos_granular else neg_granular) !! Z.to_nat (Z.abs vol - 1);
    if is_zero newrate then overwrite (replicate (Z.to_nat (u32 (samples * 2) / 2)) 0) data else scale_samples newrate (Z.to_nat samples) data.

Definition switch_change_sln_volume (data : list Z) (samples vol : Z) : option (list Z) :=
  if vol =? 0 then Some data
  else
    let vol := switch_normalize_volume vol in
    newrate ← millionths <$> (if vol >? 0 then pos else neg) !! Z.to_nat (Z.abs vol - 1);
    if is_zero newrate then Some data else scale_samples newrate (Z.to_nat samples) data.

(** ** Automatic gain control *)

(** Without the memory pool and the name for log lines. *)
Record switch_agc := mk_agc {
  energy_avg : Z; margin : Z; change_factor : Z; vol : Z; score : Z; score_count : Z; score_sum : Z; score_avg : Z;
  score_over : Z; score_under : Z; period_len : Z; low_energy_point : Z }.

#[export] Instance rebuild_agc : Rebuild switch_agc := fun a =>
  mk_agc (energy_avg a) (margin a) (change_factor a) (vol a) (score a) (score_count a) (score_sum a) (score_avg a)
    (score_over a) (score_under a) (period_len a) (low_energy_point a).
#[export] Instance set_energy_avg : Setter energy_avg := ltac:(derive_setter).
#[export] Instance set_margin : Setter margin := ltac:(derive_setter).
#[export] Instance set_change_factor : Setter change_factor := ltac:(derive_setter).
#[export] Instance set_vol : Setter vol := ltac:(derive_setter).
#[export] Instance set_score : Setter score := ltac:(derive_setter).
#[export] Instance set_score_count : Setter score_count := ltac:(derive_setter).
#[export] Instance set_score_sum : Setter score_sum := ltac:(derive_setter).
#[export] Instance set_score_avg : Setter score_avg := ltac:(derive_setter).
#[export] Instance set_score_over : Setter score_over := ltac:(derive_setter).
#[export] Instance set_score_under : Setter score_under := ltac:(derive_setter).
#[export] Instance set_period_len : Setter period_len := ltac:(derive_setter).
#[export] Instance set_low_energy_point : Setter low_energy_point := ltac:(derive_setter).

Definition switch_agc_set (agc : switch_agc) (energy_avg0 low_energy_point0 margin0 change_factor0 period_len0 : Z) : switch_agc :=
  agc <| energy_avg := energy_avg0 |> <| margin := margin0 |> <| change_factor := change_factor0 |> <| period_len := period_len0 |>
      <| low_energy_point := low_energy_point0 |> <| score := 0 |> <| score_count := 0 |> <| score_sum := 0 |> <| score_avg := 0 |>
      <| score_over := 0 |> <| score_under := 0 |>.

Definition switch_agc_create (energy_avg0 low_energy_point0 margin0 change_factor0 period_len0 : Z) : switch_agc :=
  switch_agc_set (mk_agc 0 0 0 0 0 0 0 0 0 0 0 0) energy_avg0 low_energy_point0 margin0 change_factor0 period_len0.

Definition switch_agc_set_energy_avg (agc : switch_agc) (energy_avg0 : Z) : switch_agc := agc <| energy_avg := energy_avg0 |>.
Definition switch_agc_set_energy_low (agc : switch_agc) (low_energy_point0 : Z) : switch_agc := agc <| low_energy_point := low_energy_point0 |>.

(** The sum of the magnitudes of the first [n] samples. *)
Fixpoint sum_energy (n : nat) (data : list Z) (energy : Z) : option Z :=
  match n, data with
  | O, _ => Some energy
  | S n, x :: data => sum_energy n data (u32 (energy + Z.abs x))
  | S _, [] => None
  end.

(** How far over and under the average the last periods were. *)
Definition count_over (agc : switch_agc) : switch_agc :=
  if (score_avg agc >? energy_avg agc) && (score_avg agc - energy_avg agc >? margin agc)
  then agc <| score_over := u32 (score_over agc + 1) |> else agc <| score_over := 0 |>.

Definition count_under (agc : switch_agc) : switch_agc :=
  if score_avg agc <? low_energy_point agc then agc <| score_under := u32 (change_factor agc + 1) |>
  else if (score_avg agc <? energy_avg agc) && (energy_avg agc - score_avg agc >? margin agc)
  then agc <| score_under := u32 (score_under agc + 1) |> else agc <| score_under := 0 |>.

Definition adjust (agc : switch_agc) : switch_agc :=
  if score_over agc >? change_factor agc then agc <| vol := switch_normalize_volume_granular (vol agc - 1) |>
  else if score_under agc >? change_factor agc then agc <| vol := switch_normalize_volume_granular (vol agc + 1) |>
  else agc.

(** The end of a period. *)
Definition agc_period_end (agc : switch_agc) : option switch_agc :=
  avg ← int_of_double (divide (double_of_int (score_sum agc)) (double_of_int (score_count agc)));
  Some (adjust (count_under (count_over (agc <| score_avg := u32 avg |> <| score_count := 0 |> <| score_sum := 0 |>)))).

Definition switch_agc_feed (agc : switch_agc) (data : list Z) (samples channels : Z) : option (switch_agc * list Z) :=
  let channels := if channels =? 0 then 1 else channels in
  let n := u32 (samples * channels) in
  data ← (if vol agc =? 0 then Some data else switch_change_sln_volume_granular data n (vol agc));
  if energy_avg agc =? 0 then Some (agc, data)
  else
    energy ← sum_energy (Z.to_nat n) data 0;
    let agc := if samples =? 0 then agc else agc <| score := u32 (energy / samples * channels) |> in
    let agc := agc <| score_sum := u32 (score_sum agc + score agc) |> in
    let agc := agc <| score_count := u32 (score_count agc + 1) |> in
    if score_count agc >? period_len agc then agc ← agc_period_end agc; Some (agc, data) else Some (agc, data).

End Audio.
