(* ===== verification/AudioTheorems.v ===== *)
(** * Theorems about linear audio

    Mixing saturates and is undone where nothing was cut; channels are added up and
    doubled in place; a gain never changes a sample in the wrong direction; the gain control
    stays in its range and moves against the level of the sound. *)

From S2P Require Import Prelude.
From S2P Require Import Double Audio.
From Stdlib Require Import SpecFloat.

#[local] Open Scope Z_scope.

Module AudioTheorems.
Import Double Audio.

Definition is_sample (s : Z) : Prop := - 2 ^ 15 <= s < 2 ^ 15.

Lemma normalize_range z : is_sample (switch_normalize_to_16bit z).
Proof. unfold switch_normalize_to_16bit, SWITCH_SMAX, SWITCH_SMIN, is_sample. destruct (Z.gtb_spec z 32767), (Z.ltb_spec z (-32768)); lia. Qed.

Lemma normalize_id z : is_sample z -> switch_normalize_to_16bit z = z.
Proof. unfold switch_normalize_to_16bit, SWITCH_SMAX, SWITCH_SMIN, is_sample. destruct (Z.gtb_spec z 32767), (Z.ltb_spec z (-32768)); lia. Qed.

Lemma s16_normalize z : s16 (switch_normalize_to_16bit z) = switch_normalize_to_16bit z.
Proof. apply s16_small, normalize_range. Qed.

(** ** Byte order *)

Lemma low_high_disjoint a b : Z.lor (a mod 2 ^ 8) (Z.shiftl b 8) = a mod 2 ^ 8 + Z.shiftl b 8.
Proof.
  rewrite <- (Z.add_lor_land (a mod 2 ^ 8)). assert (Z.land (a mod 2 ^ 8) (Z.shiftl b 8) = 0) as ->; [|lia].
  apply Z.bits_inj'. intros j Hj. rewrite Z.land_spec, Z.bits_0. destruct (Z.lt_ge_cases j 8).
  - rewrite (Z.shiftl_spec_low b) by lia. apply andb_false_r.
  - by rewrite Z.mod_pow2_bits_high by lia.
Qed.

Lemma swap_sample_bytes x : swap_sample x = s16 ((x / 256) mod 256 + 256 * (x mod 256)).
Proof.
  unfold swap_sample. f_equal. change 0xff00 with (Z.shiftl (Z.ones 8) 8). change 0x00ff with (Z.ones 8).
  rewrite <- Z.shiftl_land, !Z.land_ones, low_high_disjoint, Z.shiftr_div_pow2, Z.shiftl_mul_pow2 by lia. change (2 ^ 8) with 256. lia.
Qed.

(** Swapping twice is the identity, and swapping is what htons does to the bits. *)
Lemma swap_involutive x : is_sample x -> swap_sample (swap_sample x) = x.
Proof. unfold is_sample. intros Hx. rewrite !swap_sample_bytes. unfold s16. change (2 ^ 15) with 32768 in *. change (2 ^ 16) with 65536. dlia. Qed.

(** ** Mixing *)

Lemma combine_spec (f : Z -> Z -> Z) n (data other : list Z) : (n <= length data)%nat -> (n <= length other)%nat -> (forall a b, is_sample (f a b)) -> Forall is_sample data ->
  exists data', combine f n data other = Some data' /\ length data' = length data /\ Forall is_sample data' /\ take n data' = zip_with f (take n data) (take n other) /\ drop n data' = drop n data.
Proof.
  intros H1 H2 Hf Hs. unfold combine. rewrite (proj2 (Nat.leb_le _ _) H1), (proj2 (Nat.leb_le _ _) H2). cbn [andb]. eexists. split; [done|].
  assert (length (zip_with f (take n data) (take n other)) = n) as Hl by (rewrite length_zip_with, !length_take; lia).
  split_and!.
  - rewrite length_app, length_drop, Hl. lia.
  - apply Forall_app. split; [|by apply Forall_drop]. apply Forall_lookup. intros i y. rewrite lookup_zip_with_Some. intros (a & b & -> & _). apply Hf.
  - by rewrite take_app_length' by done.
  - by rewrite drop_app_length' by done.
Qed.

Lemma combine_lookup (f : Z -> Z -> Z) n (data other data' : list Z) i a b : take n data' = zip_with f (take n data) (take n other) -> (i < n)%nat -> data !! i = Some a -> other !! i = Some b ->
  data' !! i = Some (f a b).
Proof.
  intros E Hi Ha Hb. rewrite <- (lookup_take_lt data' n i), E by done. apply lookup_zip_with_Some. exists a, b. by rewrite !lookup_take_lt.
Qed.

Lemma mixed_frames_min samples other_samples : 0 <= samples < 2 ^ 31 -> 0 <= other_samples < 2 ^ 31 -> mixed_frames samples other_samples = Z.min samples other_samples.
Proof. intros. unfold mixed_frames. rewrite s32_small; destruct (Z.gtb_spec samples other_samples); lia. Qed.

Lemma no_channels channels : 0 <= channels -> (if channels =? 0 then 1 else channels) = Z.max 1 channels.
Proof. destruct (Z.eqb_spec channels 0); lia. Qed.

(** Mixing adds the samples of both buffers, cut to 16 bits, over the frames that both
    have, and leaves the rest; where no sum is cut, taking the other buffer out again
    gives the original. *)
Theorem mixing data other samples other_samples channels :
  Forall is_sample data -> Forall is_sample other -> 0 <= samples < 2 ^ 31 -> 0 <= other_samples < 2 ^ 31 -> 0 <= channels ->
  let x := Z.min samples other_samples in let n := Z.to_nat (x * Z.max 1 channels) in
  (n <= length data)%nat -> (n <= length other)%nat ->
  exists data', switch_merge_sln data samples other other_samples channels = Some (x, data') /\ length data' = length data /\ Forall is_sample data' /\
    (forall i a b, (i < n)%nat -> data !! i = Some a -> other !! i = Some b -> data' !! i = Some (Z.max (- 2 ^ 15) (Z.min (2 ^ 15 - 1) (a + b)))) /\
    drop n data' = drop n data /\
    (Forall is_sample (zip_with Z.add (take n data) (take n other)) -> switch_unmerge_sln data' samples other other_samples channels = Some (x, data)).
Proof.
  intros Hd Ho Hs Hos Hc x n Hn1 Hn2. unfold switch_merge_sln, switch_unmerge_sln. rewrite no_channels, mixed_frames_min by done. fold x. fold n.
  destruct (combine_spec (fun a b => s16 (switch_normalize_to_16bit (a + b))) n data other Hn1 Hn2 ltac:(intros; apply s16_range) Hd) as (data' & -> & Hl & Hs' & Ht & Hdr).
  cbn [mbind option_bind]. rewrite u32_small by lia. exists data'. split_and!; try done.
  - intros i a b Hi Ha Hb. rewrite (combine_lookup _ _ _ _ _ _ _ _ Ht Hi Ha Hb), s16_normalize. f_equal.
    unfold switch_normalize_to_16bit, SWITCH_SMAX, SWITCH_SMIN. destruct (Z.gtb_spec (a + b) 32767), (Z.ltb_spec (a + b) (-32768)); lia.
  - intros Hsum. destruct (combine_spec (fun a b => s16 (a - b)) n data' other ltac:(lia) Hn2 ltac:(intros; apply s16_range) Hs') as (data2 & -> & Hl2 & _ & Ht2 & Hdr2).
    cbn [mbind option_bind]. do 2 f_equal. rewrite <- (take_drop n data2), <- (take_drop n data), Hdr2, Hdr. f_equal. apply list_eq. intros i.
    destruct (Nat.lt_ge_cases i n) as [Hi|Hi]; [|by rewrite !lookup_take_ge]. rewrite !lookup_take_lt by done.
    destruct (lookup_lt_is_Some_2 data i) as [a Ha]; [lia|]. destruct (lookup_lt_is_Some_2 other i) as [b Hb]; [lia|]. rewrite Ha.
    rewrite (combine_lookup _ _ _ _ _ _ _ _ Ht2 Hi (combine_lookup _ _ _ _ _ _ _ _ Ht Hi Ha Hb) Hb). f_equal.
    assert (is_sample (a + b)) as Hab.
    { eapply Forall_lookup_1; [exact Hsum|]. apply lookup_zip_with_Some. exists a, b. rewrite !lookup_take_lt by done. split; [reflexivity|done]. }
    rewrite s16_normalize, normalize_id by done. replace (a + b - b) with a by lia. apply s16_small. by apply (Forall_lookup_1 _ _ _ _ Hd Ha).
Qed.

Lemma mixing_witness : exists data', switch_merge_sln [30000; -5; 7] 2 [30000; 9] 3 0 = Some (2, data') /\ length data' = 3%nat.
Proof.
  destruct (mixing [30000; -5; 7] [30000; 9] 2 3 0) as (d & H & Hl & _); try (repeat constructor; vm_compute; done); try lia; try (cbn; lia). exists d. split; [exact H|exact Hl].
Defined.

(** ** Channels *)

(** The sum of the samples of a frame whose channel, counted from [j], satisfies [p]. *)
Fixpoint total (p : nat -> bool) (j : nat) (frame : list Z) : Z :=
  match frame with [] => 0 | x :: frame => (if p j then x else 0) + total p (S j) frame end.

Definition frame (channels : nat) (data : list Z) (i : nat) : list Z := take channels (drop (i * channels) data).

Lemma sum_frame_total p data base j n : (base + j + n <= length data)%nat -> sum_frame p data base j n = Some (total p j (take n (drop (base + j) data))).
Proof.
  revert j. induction n as [|n IH]; intros j Hl; [done|]. cbn [sum_frame]. destruct (lookup_lt_is_Some_2 data (base + j)) as [v Hv]; [lia|]. rewrite Hv.
  cbn [mbind option_bind]. rewrite IH by lia. cbn [mbind option_bind]. rewrite (drop_S _ _ _ Hv). cbn [take total]. do 3 f_equal. by rewrite Nat.add_succ_r.
Qed.

Lemma put_sample_some data i v : (i < length data)%nat -> put_sample data i v = Some (<[i := v]> data).
Proof. intros H. unfold put_sample. by rewrite (proj2 (Nat.ltb_lt _ _) H). Qed.

Lemma frame_insert channels data i k v : (k < i * channels)%nat -> frame channels (<[k := v]> data) i = frame channels data i.
Proof. intros H. unfold frame. by rewrite drop_insert_lt by done. Qed.

Lemma mux_to_one_loop orig n data i : (1 <= orig)%nat -> ((i + n) * orig <= length data)%nat ->
  exists out, mux_to_one orig data i n = Some out /\ length out = length data /\ (forall k, (k < i)%nat \/ (i + n <= k)%nat -> out !! k = data !! k) /\
    (forall k, (i <= k < i + n)%nat -> out !! k = Some (switch_normalize_to_16bit (total (fun _ => true) 0 (frame orig data k)))).
Proof.
  intros Ho. revert data i. induction n as [|n IH]; intros data i Hl; [exists data; split_and!; done || (intros; lia)|]. cbn [mux_to_one].
  rewrite sum_frame_total by nia. cbn [mbind option_bind]. rewrite put_sample_some by nia. cbn [mbind option_bind]. rewrite Nat.add_0_r. fold (frame orig data i).
  set (v := switch_normalize_to_16bit _). destruct (IH (<[i := v]> data) (S i)) as (out & -> & Hlen & Hsame & Hnew); [rewrite length_insert; lia|]. rewrite length_insert in Hlen.
  exists out. split_and!; [done..| |].
  - intros k Hk. rewrite Hsame by lia. apply list_lookup_insert_ne. lia.
  - intros k Hk. destruct (decide (k = i)) as [->|Hne]; [rewrite Hsame by lia; apply list_lookup_insert_eq; nia|]. rewrite Hnew by lia. by rewrite frame_insert by nia.
Qed.

Lemma mux_to_two_loop orig n data i : (3 <= orig)%nat -> ((i + n) * orig <= length data)%nat ->
  exists out, mux_to_two orig data i n = Some out /\ length out = length data /\ (forall k, (k < 2 * i)%nat \/ (2 * (i + n) <= k)%nat -> out !! k = data !! k) /\
    (forall k, (i <= k < i + n)%nat -> out !! (2 * k)%nat = Some (switch_normalize_to_16bit (total Nat.odd 0 (frame orig data k))) /\
                                      out !! (2 * k + 1)%nat = Some (switch_normalize_to_16bit (total Nat.even 0 (frame orig data k)))).
Proof.
  intros Ho. revert data i. induction n as [|n IH]; intros data i Hl; [exists data; split_and!; done || (intros; lia)|]. cbn [mux_to_two].
  rewrite !sum_frame_total by nia. cbn [mbind option_bind]. rewrite put_sample_some by nia. cbn [mbind option_bind]. rewrite put_sample_some by (rewrite length_insert; nia).
  cbn [mbind option_bind]. rewrite Nat.add_0_r. fold (frame orig data i). set (l := switch_normalize_to_16bit (total Nat.odd _ _)). set (r := switch_normalize_to_16bit (total Nat.even _ _)).
  destruct (IH (<[(2 * i + 1)%nat := r]> (<[(2 * i)%nat := l]> data)) (S i)) as (out & -> & Hlen & Hsame & Hnew); [rewrite !length_insert; lia|]. rewrite !length_insert in Hlen.
  exists out. split_and!; [done..| |].
  - intros k Hk. rewrite Hsame by lia. by rewrite !list_lookup_insert_ne by lia.
  - intros k Hk. destruct (decide (k = i)) as [->|Hne].
    + rewrite !Hsame by lia. split; [rewrite list_lookup_insert_ne by lia|]; apply list_lookup_insert_eq; rewrite ?length_insert; nia.
    + destruct (Hnew k ltac:(lia)) as [H1 H2]. by rewrite !frame_insert in H1, H2 by nia.
Qed.

Lemma copy_up_loop len n data i : (i + n <= len)%nat -> (len + i + n <= length data)%nat ->
  exists out, copy_up data len i n = Some out /\ length out = length data /\ (forall k, (k < len + i)%nat \/ (len + i + n <= k)%nat -> out !! k = data !! k) /\
    (forall k, (i <= k < i + n)%nat -> out !! (k + len)%nat = data !! k).
Proof.
  revert data i. induction n as [|n IH]; intros data i Hi Hl; [exists data; split_and!; done || (intros; lia)|]. cbn [copy_up].
  destruct (lookup_lt_is_Some_2 data i) as [v Hv]; [lia|]. rewrite Hv. cbn [mbind option_bind]. rewrite put_sample_some by lia. cbn [mbind option_bind].
  destruct (IH (<[(i + len)%nat := v]> data) (S i)) as (out & -> & Hlen & Hsame & Hnew); [lia|rewrite length_insert; lia|]. rewrite length_insert in Hlen.
  exists out. split_and!; [done..| |].
  - intros k Hk. rewrite Hsame by lia. apply list_lookup_insert_ne. lia.
  - intros k Hk. destruct (decide (k = i)) as [->|Hne]; [rewrite Hsame, Hv by lia; apply list_lookup_insert_eq; lia|]. rewrite Hnew by lia. apply list_lookup_insert_ne. lia.
Qed.

Lemma spread_loop samples n data i : (i + n = samples)%nat -> (2 * samples <= length data)%nat ->
  exists out, spread 2 samples data i n = Some out /\ length out = length data /\ (forall k, (k < 2 * i)%nat \/ (2 * samples <= k)%nat -> out !! k = data !! k) /\
    (forall k, (i <= k < samples)%nat -> out !! (2 * k)%nat = data !! (k + samples)%nat /\ out !! (2 * k + 1)%nat = data !! (k + samples)%nat).
Proof.
  revert data i. induction n as [|n IH]; intros data i Hi Hl; [exists data; split_and!; done || (intros; lia)|]. cbn [spread repeat_sample].
  destruct (lookup_lt_is_Some_2 data (i + samples)) as [v Hv]; [lia|]. rewrite Hv. cbn [mbind option_bind]. rewrite put_sample_some by lia. cbn [mbind option_bind].
  assert ((<[(i * 2)%nat := v]> data) !! (i + samples)%nat = Some v) as Hv2.
  { destruct (decide (i * 2 = i + samples)%nat) as [E|]; [rewrite E; apply list_lookup_insert_eq; lia|by rewrite list_lookup_insert_ne]. }
  rewrite Hv2. cbn [mbind option_bind]. rewrite put_sample_some by (rewrite length_insert; lia). cbn [mbind option_bind]. set (d := <[S (i * 2) := v]> (<[(i * 2)%nat := v]> data)).
  assert (length d = length data) as Hd by (subst d; by rewrite !length_insert).
  assert (forall k, (2 * i + 2 <= k)%nat \/ (k < 2 * i)%nat -> d !! k = data !! k) as Hk0 by (intros k Hk; subst d; by rewrite !list_lookup_insert_ne by lia).
  destruct (IH d (S i)) as (out & -> & Hlen & Hsame & Hnew); [lia|lia|]. exists out. split_and!; [done|lia| |].
  - intros k Hk. rewrite Hsame by lia. apply Hk0. lia.
  - intros k Hk. destruct (decide (k = i)) as [->|Hne].
    + rewrite Hv, !Hsame by lia. subst d. replace (2 * i + 1)%nat with (S (i * 2)) by lia. replace (2 * i)%nat with (i * 2)%nat by lia.
      split; [rewrite list_lookup_insert_ne by lia|]; apply list_lookup_insert_eq; rewrite ?length_insert; lia.
    + destruct (Hnew k ltac:(lia)) as [-> ->]. by rewrite Hk0 by lia.
Qed.

(** Changing the number of channels in place: a frame of several channels becomes the sum of
    them, or for two channels the sum of the odd and of the even ones, cut to 16 bits;
    of one channel two are made by doubling every sample. *)
Theorem channels_muxed data samples orig_channels channels :
  ((1 < orig_channels)%nat -> channels = 1%nat -> (samples * orig_channels <= length data)%nat ->
     exists out, switch_mux_channels data samples orig_channels channels = Some out /\
       forall i, (i < samples)%nat -> out !! i = Some (switch_normalize_to_16bit (total (fun _ => true) 0 (frame orig_channels data i)))) /\
  ((2 < orig_channels)%nat -> channels = 2%nat -> (samples * orig_channels <= length data)%nat ->
     exists out, switch_mux_channels data samples orig_channels channels = Some out /\
       forall i, (i < samples)%nat -> out !! (2 * i)%nat = Some (switch_normalize_to_16bit (total Nat.odd 0 (frame orig_channels data i))) /\
                                     out !! (2 * i + 1)%nat = Some (switch_normalize_to_16bit (total Nat.even 0 (frame orig_channels data i)))) /\
  (orig_channels = 1%nat -> channels = 2%nat -> (2 * samples <= length data)%nat ->
     exists out, switch_mux_channels data samples orig_channels channels = Some out /\
       forall i, (i < samples)%nat -> out !! (2 * i)%nat = data !! i /\ out !! (2 * i + 1)%nat = data !! i).
Proof.
  unfold switch_mux_channels. split_and!.
  - intros Ho -> Hl. change (1 <? 11)%nat with true. cbn [negb]. rewrite (proj2 (Nat.ltb_lt 1 orig_channels)) by lia. cbn [Nat.eqb].
    destruct (mux_to_one_loop orig_channels samples data 0) as (out & -> & _ & _ & H); [lia..|]. exists out. split; [done|]. intros i Hi. apply H. lia.
  - intros Ho -> Hl. change (2 <? 11)%nat with true. cbn [negb]. rewrite (proj2 (Nat.ltb_lt 2 orig_channels)) by lia. cbn [Nat.eqb].
    destruct (mux_to_two_loop orig_channels samples data 0) as (out & -> & _ & _ & H); [lia..|]. exists out. split; [done|]. intros i Hi. apply H. lia.
  - intros -> -> Hl. cbn [Nat.ltb Nat.leb negb]. rewrite Nat.mul_1_r. destruct (copy_up_loop samples samples data 0) as (d & -> & Hld & _ & Hc); [lia..|].
    cbn [mbind option_bind]. destruct (spread_loop samples samples d 0) as (out & -> & _ & _ & H); [lia..|]. exists out. split; [done|]. intros i Hi.
    destruct (H i ltac:(lia)) as [-> ->]. by rewrite Hc by lia.
Qed.

Lemma channels_muxed_witness : exists out, switch_mux_channels [1; 2; 0; 0] 2 1 2 = Some out /\ forall i, (i < 2)%nat -> out !! (2 * i)%nat = [1; 2; 0; 0] !! i /\ out !! (2 * i + 1)%nat = [1; 2; 0; 0] !! i.
Proof. refine (proj2 (proj2 (channels_muxed [1; 2; 0; 0] 2 1 2)) _ _ _); [reflexivity|reflexivity|cbn; lia]. Defined.

(** Of one channel three are not made right: the copies overwrite samples that are still to be
    copied. *)
Theorem mux_three_wrong : switch_mux_channels [1; 2; 3; 0; 0; 0; 0; 0; 0] 3 1 3 = Some [1; 1; 1; 2; 2; 2; 2; 2; 2].
Proof. reflexivity. Qed.

(** ** Volume *)

(** What a change of volume may do to a sample. *)
Definition louder (vol x y : Z) : Prop :=
  is_sample y /\ 0 <= x * y /\ (0 < vol -> Z.abs x <= Z.abs y) /\ (vol < 0 -> Z.abs y <= Z.abs x).

(** A rate of a table: a number of 53 bits, on the right side of one, or zero. *)
Definition rate_ok (up : bool) (d : spec_float) : bool :=
  match d with
  | S754_finite false p e =>
      (Zpos p <? 2 ^ 53) && (-100 <=? e) && (e <=? -20) && (Zpos p <=? 2 ^ 10 * 2 ^ (- e)) && (if up then 2 ^ (- e) <=? Zpos p else Zpos p <=? 2 ^ (- e))
  | S754_zero _ => negb up
  | _ => false
  end.

Lemma tables_ok : forallb (fun n => rate_ok true (millionths n)) (pos_granular ++ pos) && forallb (fun n => rate_ok false (millionths n)) (neg_granular ++ neg) = true.
Proof. vm_compute. reflexivity. Qed.

Lemma scale_sample_spec up d x vol : rate_ok up d = true -> is_zero d = false -> is_sample x -> (0 < vol -> up = true) -> (vol < 0 -> up = false) ->
  exists y, scale_sample d x = Some y /\ louder vol x y.
Proof.
  intros Hr Hz Hx Hup Hdown. unfold scale_sample. destruct (Z.eq_dec x 0) as [->|Hne].
  - exists 0. unfold rate_ok in Hr. destruct d as [| | |s p e]; try done.
  - destruct d as [| | |[] p e]; try done. unfold rate_ok in Hr. rewrite !andb_true_iff in Hr. destruct Hr as [[[[H1%Z.ltb_lt H2%Z.leb_le] H3%Z.leb_le] H4%Z.leb_le] H5].
    destruct (product_bounds x (S754_finite false p e) (Zpos p) e Hne) as (T & -> & HT & Hg); [unfold is_sample in Hx; lia|by exists p|lia..|].
    cbn [fmap option_fmap option_map]. eexists. split; [done|]. rewrite s16_normalize. destruct (Hg 1 ltac:(lia)) as [G1 G2]. rewrite !Z.mul_1_l, !Z.mul_1_r in *.
    pose proof (normalize_range (Z.sgn x * T)) as Hnr. split; [done|]. clear Hg. set (y := switch_normalize_to_16bit _) in *.
    assert (y = Z.sgn x * Z.min T (if 0 <? x then 32767 else 32768)) as Hy.
    { subst y. unfold switch_normalize_to_16bit, SWITCH_SMAX, SWITCH_SMIN. destruct (Z.ltb_spec 0 x); [rewrite Z.sgn_pos by lia|rewrite Z.sgn_neg by lia];
        repeat match goal with |- context [?u >? ?w] => destruct (Z.gtb_spec u w) | |- context [?u <? ?w] => destruct (Z.ltb_spec u w) end; lia. }
    unfold is_sample in *. clearbody y. destruct (Z.ltb_spec 0 x); [rewrite Z.sgn_pos in Hy by lia|rewrite Z.sgn_neg in Hy by lia]; (split; [nia|]); split; intros Hv;
      [specialize (Hup Hv)|specialize (Hdown Hv)|specialize (Hup Hv)|specialize (Hdown Hv)]; subst up; apply Z.leb_le in H5; lia.
Qed.

Lemma scale_samples_spec up d vol n data : rate_ok up d = true -> is_zero d = false -> (0 < vol -> up = true) -> (vol < 0 -> up = false) -> Forall is_sample data -> (n <= length data)%nat ->
  exists out, scale_samples d n data = Some out /\ length out = length data /\ Forall2 (louder vol) (take n data) (take n out) /\ drop n out = drop n data.
Proof.
  intros Hr Hz Hup Hdown. revert n. induction data as [|x data IH]; intros n Hs Hn; destruct n as [|n]; cbn [length] in Hn; [by exists []|lia| |].
  - exists (x :: data). split_and!; [done..| |done]. rewrite !take_0. constructor.
  - apply Forall_cons in Hs as [Hx Hs]. cbn [scale_samples]. destruct (scale_sample_spec up d x vol Hr Hz Hx Hup Hdown) as (y & -> & Hy). cbn [mbind option_bind].
    destruct (IH n Hs ltac:(lia)) as (out & -> & Hl & H2 & Hd). cbn [mbind option_bind]. exists (y :: out). cbn [length take drop]. split_and!; [done|lia|by constructor|done].
Qed.

Lemma silence_spec vol m n data : vol < 0 -> Forall is_sample data -> (m <= n)%nat -> (n <= length data)%nat ->
  exists out, overwrite (replicate m 0) data = Some out /\ length out = length data /\ Forall2 (louder vol) (take n data) (take n out) /\ drop n out = drop n data.
Proof.
  intros Hv Hs Hm Hn. unfold overwrite. rewrite length_replicate, (proj2 (Nat.leb_le _ _)) by lia. eexists. split; [done|].
  assert (forall i, (m <= i)%nat -> (replicate m 0 ++ drop m data) !! i = data !! i) as Hafter.
  { intros i Hi. rewrite lookup_app_r, length_replicate, lookup_drop by (by rewrite length_replicate). f_equal. lia. }
  split_and!; [rewrite length_app, length_replicate, length_drop; lia| |].
  - apply Forall2_lookup. intros i. destruct (Nat.lt_ge_cases i n) as [Hi|Hi]; [|rewrite !lookup_take_ge by done; constructor].
    rewrite !lookup_take_lt by done. destruct (lookup_lt_is_Some_2 data i) as [x Hx]; [lia|]. rewrite Hx. destruct (Nat.lt_ge_cases i m) as [Him|Him].
    + rewrite lookup_app_l, lookup_replicate_2 by (by rewrite ?length_replicate). constructor. unfold louder, is_sample. lia.
    + rewrite Hafter, Hx by done. constructor. pose proof (proj1 (Forall_lookup _ _) Hs i x Hx) as H. unfold louder, is_sample in *. lia.
  - apply list_eq. intros i. rewrite !lookup_drop. apply Hafter. lia.
Qed.

Definition volume_done (vol : Z) (n : nat) (data out : list Z) : Prop :=
  length out = length data /\ Forall2 (louder vol) (take n data) (take n out) /\ drop n out = drop n data.

Lemma apply_rate up vol rate m n data : rate_ok up rate = true -> (0 < vol -> up = true) -> (vol < 0 -> up = false) -> vol <> 0 -> Forall is_sample data -> (m <= n)%nat -> (n <= length data)%nat ->
  exists out, (if is_zero rate then overwrite (replicate m 0) data else scale_samples rate n data) = Some out /\ volume_done vol n data out.
Proof.
  intros Hr Hup Hdown Hv Hs Hm Hn. destruct (is_zero rate) eqn:Hz; [|by eapply scale_samples_spec]. apply silence_spec; [|done..].
  destruct (Z.lt_trichotomy vol 0) as [|[|Hp]]; [done..|]. rewrite (Hup Hp) in Hr. by destruct rate.
Qed.

Lemma table_rate (up : bool) (table : list Z) i : forallb (fun n => rate_ok up (millionths n)) table = true -> (i < length table)%nat ->
  exists r, millionths <$> table !! i = Some r /\ rate_ok up r = true.
Proof.
  intros H Hi. destruct (lookup_lt_is_Some_2 table i Hi) as [n Hn]. exists (millionths n). rewrite Hn. split; [done|].
  exact (proj1 (forallb_forall _ _) H n (proj1 (list_elem_of_In _ _) (list_elem_of_lookup_2 _ _ _ Hn))).
Qed.

Lemma granular_range v : -50 <= switch_normalize_volume_granular v <= 50 /\ (0 < v -> 0 < switch_normalize_volume_granular v) /\ (v < 0 -> switch_normalize_volume_granular v < 0).
Proof.
  unfold switch_normalize_volume_granular, SWITCH_GRANULAR_VOLUME_MAX. destruct (Z.gtb_spec v 50); cbv zeta;
    [change (50 <? - (50)) with false|destruct (Z.ltb_spec v (- (50)))]; lia.
Qed.

(** In steps of a decibel. *)
Lemma granular_spec data samples vol : Forall is_sample data -> 0 <= samples -> (Z.to_nat samples <= length data)%nat ->
  exists out, switch_change_sln_volume_granular data samples vol = Some out /\
    if vol =? 0 then out = data else volume_done vol (Z.to_nat samples) data out.
Proof.
  intros Hs H0 Hl. unfold switch_change_sln_volume_granular. destruct (Z.eqb_spec vol 0) as [->|Hv]; [by exists data|].
  pose proof (granular_range vol) as (Hr & Hp & Hn). set (v := switch_normalize_volume_granular vol) in *. clearbody v.
  pose proof tables_ok as [T1 T2]%andb_true_iff. rewrite forallb_app in T1, T2. apply andb_true_iff in T1 as [T1 _], T2 as [T2 _].
  destruct (table_rate (v >? 0) (if v >? 0 then pos_granular else neg_granular) (Z.to_nat (Z.abs v - 1))) as (r & -> & Hok).
  { by destruct (v >? 0). } { replace (length (if v >? 0 then pos_granular else neg_granular)) with 50%nat by (by destruct (v >? 0)). lia. }
  cbn [mbind option_bind]. clear T1 T2. apply (apply_rate (v >? 0)); [exact Hok|intros; rewrite Z.gtb_ltb; apply Z.ltb_lt; lia|intros; rewrite Z.gtb_ltb; apply Z.ltb_ge; lia|exact Hv|exact Hs| |exact Hl].
  assert (u32 (samples * 2) <= samples * 2) by (apply Z.mod_le; lia). apply Z2Nat.inj_le; [apply Z.div_pos; [apply u32_range|lia]|done|]. apply Z.div_le_upper_bound; lia.
Qed.

(** In four steps. *)
Lemma coarse_spec data samples vol : Forall is_sample data -> 0 <= samples -> (Z.to_nat samples <= length data)%nat ->
  exists out, switch_change_sln_volume data samples vol = Some out /\ if vol =? 0 then out = data else volume_done vol (Z.to_nat samples) data out.
Proof.
  intros Hs H0 Hl. unfold switch_change_sln_volume. destruct (Z.eqb_spec vol 0) as [->|Hv]; [by exists data|].
  assert (-4 <= switch_normalize_volume vol <= 4 /\ (0 < vol -> 0 < switch_normalize_volume vol) /\ (vol < 0 -> switch_normalize_volume vol < 0)) as (Hr & Hp & Hn).
  { unfold switch_normalize_volume. destruct (Z.gtb_spec vol 4); cbv zeta; [change (4 <? -4) with false|destruct (Z.ltb_spec vol (-4))]; lia. }
  set (v := switch_normalize_volume vol) in *. clearbody v.
  pose proof tables_ok as [T1 T2]%andb_true_iff. rewrite forallb_app in T1, T2. apply andb_true_iff in T1 as [_ T1], T2 as [_ T2].
  destruct (table_rate (v >? 0) (if v >? 0 then pos else neg) (Z.to_nat (Z.abs v - 1))) as (r & E & Hok).
  { by destruct (v >? 0). } { replace (length (if v >? 0 then pos else neg)) with 4%nat by (by destruct (v >? 0)). lia. }
  rewrite E. cbn [mbind option_bind]. clear T1 T2. assert (is_zero r = false) as Hz.
  { destruct (v >? 0); [by destruct r|]. assert (forallb (fun n => negb (is_zero (millionths n))) neg = true) as Hnz by (vm_compute; reflexivity).
    destruct (neg !! _) as [n|] eqn:En; [|done]. cbn in E. injection E as <-. apply negb_true_iff.
    exact (proj1 (forallb_forall _ _) Hnz n (proj1 (list_elem_of_In _ _) (list_elem_of_lookup_2 _ _ _ En))). }
  rewrite Hz.  apply (scale_samples_spec (v >? 0)); [exact Hok|exact Hz|intros; rewrite Z.gtb_ltb; apply Z.ltb_lt; lia|intros; rewrite Z.gtb_ltb; apply Z.ltb_ge; lia|exact Hs|exact Hl].
Qed.

(** C39. Changing the volume works on any buffer of samples that is long enough and at any volume,
    in both scales: every sample of the first ones keeps its sign and stays within 16 bits,
    at a positive volume none gets quieter and at a negative one none louder, whatever
    rounding does; the samples behind stay. *)
Theorem volume_direction data samples vol : Forall is_sample data -> 0 <= samples -> (Z.to_nat samples <= length data)%nat ->
  forall f, f = switch_change_sln_volume_granular \/ f = switch_change_sln_volume ->
  exists out, f data samples vol = Some out /\ if vol =? 0 then out = data else volume_done vol (Z.to_nat samples) data out.
Proof. intros Hs H0 Hl f [-> | ->]; [by apply granular_spec|by apply coarse_spec]. Qed.

Lemma volume_direction_witness : exists out, switch_change_sln_volume_granular [100; -30000] 2 6 = Some out /\ volume_done 6 2 [100; -30000] out.
Proof. refine (volume_direction [100; -30000] 2 6 _ _ _ _ (or_introl eq_refl)); [repeat constructor; vm_compute; done|lia|cbn; lia]. Defined.

(** ** Gain control *)

Record agc_ok (a : switch_agc) : Prop := mk_agc_ok {
  ok_vol : -50 <= vol a <= 50;
  ok_count : 0 <= score_count a <= period_len a;
  ok_period : period_len a < 2 ^ 32 - 1;
  ok_score : 0 <= score a < 2 ^ 31;
  ok_sum : 0 <= score_sum a < 2 ^ 32;
  ok_fresh : score_count a = 0 -> score_sum a = 0;
  ok_factor : 0 <= change_factor a;
  ok_margin : 0 <= margin a }.

Lemma agc_create_ok energy_avg0 low margin0 factor period : 0 <= margin0 -> 0 <= factor -> 0 <= period < 2 ^ 32 - 1 ->
  agc_ok (switch_agc_create energy_avg0 low margin0 factor period).
Proof. intros. constructor; cbn; lia. Qed.

(** What the end of a period does to the volume. *)
Definition feedback (a a' : switch_agc) : Prop :=
  Z.abs (vol a' - vol a) <= 1 /\ (vol a' < vol a -> score_avg a' - energy_avg a > margin a) /\
  (vol a' > vol a -> score_avg a' < low_energy_point a \/ energy_avg a - score_avg a' > margin a).

Lemma granular_step v d : -50 <= v <= 50 -> (d = 1 \/ d = -1) -> switch_normalize_volume_granular (v + d) = v + d \/ switch_normalize_volume_granular (v + d) = v.
Proof.
  intros Hv Hd. unfold switch_normalize_volume_granular, SWITCH_GRANULAR_VOLUME_MAX. destruct (Z.gtb_spec (v + d) 50); cbv zeta;
    [change (50 <? - (50)) with false; cbv iota|destruct (Z.ltb_spec (v + d) (- (50)))]; lia.
Qed.

Lemma adjust_feedback a0 a : agc_ok a -> vol a = vol a0 -> energy_avg a = energy_avg a0 -> margin a = margin a0 -> low_energy_point a = low_energy_point a0 ->
  agc_ok (adjust (count_under (count_over a))) /\ feedback a0 (adjust (count_under (count_over a))).
Proof.
  intros [] Ev Ee Em El. unfold feedback, adjust, count_under, count_over. rewrite <- Ev, <- Ee, <- Em, <- El.
  pose proof (granular_step (vol a) 1 ok_vol0 ltac:(by left)) as Hup. pose proof (granular_step (vol a) (-1) ok_vol0 ltac:(by right)) as Hdown.
  change (vol a + -1) with (vol a - 1) in Hdown.
  destruct (granular_range (vol a + 1)) as [Hr1 _], (granular_range (vol a - 1)) as [Hr2 _].
  destruct ((score_avg a >? energy_avg a) && (score_avg a - energy_avg a >? margin a)) eqn:Eo; cbn;
    [apply andb_true_iff in Eo as [_ Eo]; rewrite Z.gtb_ltb in Eo; apply Z.ltb_lt in Eo|];
    (destruct (Z.ltb_spec (score_avg a) (low_energy_point a)) as [Hlow|Hlow];
      [|destruct ((score_avg a <? energy_avg a) && (energy_avg a - score_avg a >? margin a)) eqn:Eu;
        [apply andb_true_iff in Eu as [_ Eu]; rewrite Z.gtb_ltb in Eu; apply Z.ltb_lt in Eu|]]); cbn;
    repeat match goal with |- context [?u >? ?w] => destruct (Z.gtb_spec u w) end; cbn; (split; [constructor; cbn; done || lia|lia]).
Qed.

(** The level of a frame and what a period has collected: the levels of its frames so far. *)
Definition loudness (n : nat) (data : list Z) : Z := foldr (fun x total => Z.abs x + total) 0 (take n data).
Definition level_total (levels : list Z) : Z := foldr Z.add 0 levels.
Definition collected (a : switch_agc) (levels : list Z) : Prop := score_count a = Z.of_nat (length levels) /\ score_sum a = u32 (level_total levels).

Lemma loudness_range n data : Forall is_sample data -> 0 <= loudness n data <= 2 ^ 15 * Z.of_nat n.
Proof.
  intros Hs. unfold loudness. revert n. induction data as [|x data IH]; intros [|n]; cbn [take foldr]; [lia..|].
  apply Forall_cons in Hs as [Hx Hs]. unfold is_sample in Hx. specialize (IH Hs n). lia.
Qed.

Lemma sum_energy_spec n data e : Forall is_sample data -> (n <= length data)%nat -> 0 <= e -> e + 2 ^ 15 * Z.of_nat n < 2 ^ 32 ->
  sum_energy n data e = Some (e + loudness n data).
Proof.
  unfold loudness. revert n e. induction data as [|x data IH]; intros n e Hs Hn He Hlt; destruct n as [|n]; cbn [length] in Hn; cbn [sum_energy take foldr]; [f_equal; lia|lia|f_equal; lia|].
  apply Forall_cons in Hs as [Hx Hs]. unfold is_sample in Hx. rewrite u32_small by lia. rewrite (IH n (e + Z.abs x) Hs) by lia. f_equal. lia.
Qed.

Lemma level_total_snoc levels l : level_total (levels ++ [l]) = level_total levels + l.
Proof. unfold level_total. induction levels as [|x levels IH]; cbn; lia. Qed.

(** What one frame of level [level] does once the frames of [levels] are collected: the frame that exceeds the
    length of the period ends it, and only then is the volume looked at, against the average level of exactly
    these frames; any other frame is only collected. *)
Definition counted (a : switch_agc) (levels : list Z) (level : Z) (a' : switch_agc) : Prop :=
  if decide (period_len a <= Z.of_nat (length levels))
  then collected a' [] /\ score_avg a' = u32 (level_total (levels ++ [level])) / Z.of_nat (length (levels ++ [level])) /\ feedback a a'
  else collected a' (levels ++ [level]) /\ vol a' = vol a /\ score_avg a' = score_avg a /\ score_over a' = score_over a /\ score_under a' = score_under a.

Lemma volume_samples vol n data out : Forall is_sample data -> volume_done vol n data out -> Forall is_sample out.
Proof.
  intros Hs (_ & H2 & Hd). rewrite <- (take_drop n out), Hd. apply Forall_app. split; [|by apply Forall_drop].
  eapply Forall2_Forall_r; [exact H2|]. apply Forall_true. by intros x y [? _].
Qed.

Lemma score_bound e samples c n : 0 <= e <= 0 + 2 ^ 15 * n -> n = samples * c -> 0 <= samples -> samples <> 0 -> 1 <= c <= 255 -> 0 <= e / samples * c < 2 ^ 31.
Proof.
  intros He -> Hs Hne Hc. assert (0 <= e / samples) by (apply Z.div_pos; lia). assert (e / samples <= 2 ^ 15 * c).
  { apply Z.lt_succ_r, Z.div_lt_upper_bound; [lia|]. nia. } nia.
Qed.

(** A period that is over: the average is the integer quotient of what was collected. *)
Lemma agc_period_end_spec a0 a : agc_ok a0 -> vol a = vol a0 -> energy_avg a = energy_avg a0 -> margin a = margin a0 -> low_energy_point a = low_energy_point a0 ->
  change_factor a = change_factor a0 -> period_len a = period_len a0 -> 0 <= score a < 2 ^ 31 -> 0 < score_count a < 2 ^ 32 -> 0 <= score_sum a < 2 ^ 32 -> score_sum a / score_count a < 2 ^ 31 ->
  exists a', agc_period_end a = Some a' /\ agc_ok a' /\ feedback a0 a' /\ score_avg a' = score_sum a / score_count a /\ collected a' [] /\ score a' = score a.
Proof.
  intros [] Ev Ee Em El Ef Ep Hsc Hc Hs Hq. unfold agc_period_end. rewrite quotient_exact by done. cbn [mbind option_bind]. eexists. split; [done|].
  assert (0 <= score_sum a / score_count a) by (apply Z.div_pos; lia). rewrite u32_small by lia. set (q := score_sum a / score_count a) in *. clearbody q.
  destruct (adjust_feedback a0 (a <| score_avg := q |> <| score_count := 0 |> <| score_sum := 0 |>)) as [H1 H2]; [constructor; cbn; lia|done..|]. split; [done|]. split; [done|].
  unfold collected, adjust, count_under, count_over. cbn. repeat match goal with |- context [if ?c then _ else _] => destruct c end; done.
Qed.



(** The level of a frame is multiplied by the number of channels where it should be divided by it: the
    same sound on two channels counts four times as much as on one. *)
Theorem agc_stereo_score :
  score <$> (fst <$> switch_agc_feed (switch_agc_create 1000 0 0 0 9) [100; 100] 2 1) = Some 100 /\
  score <$> (fst <$> switch_agc_feed (switch_agc_create 1000 0 0 0 9) [100; 100; 100; 100] 2 2) = Some 400.
Proof. split; reflexivity. Qed.

(** ** Noise *)

Lemma noise_length samples channels divisor rnd2 : length (noise samples channels divisor rnd2) = (samples * channels)%nat.
Proof.
  revert rnd2. induction samples as [|samples IH]; intros rnd2; [done|]. cbn [noise]. destruct (draw 6 rnd2 0) as [r s]. rewrite length_app, length_replicate, IH. lia.
Qed.

Lemma noise_quiet samples channels divisor rnd2 : 0 < divisor < 2 ^ 31 -> Forall (fun s => Z.abs s <= 2 ^ 15 / divisor) (noise samples channels divisor rnd2).
Proof.
  intros Hd. revert rnd2. induction samples as [|samples IH]; intros rnd2; [constructor|]. cbn [noise]. destruct (draw 6 rnd2 0) as [r s]. apply Forall_app. split; [|apply IH].
  apply Forall_replicate. rewrite s32_small by lia. pose proof (s16_range s) as Hs. set (z := s16 s) in *. clearbody z.
  assert (Z.abs (Z.quot z divisor) <= 2 ^ 15 / divisor) as Hq.
  { rewrite <- Z.quot_abs, (Z.abs_eq divisor), Z.quot_div_nonneg by lia. apply Z.div_le_mono; lia. }
  unfold s16. change (2 ^ 15) with 32768 in *. change (2 ^ 16) with 65536. assert (32768 / divisor <= 32768) by (apply Z.div_le_upper_bound; lia).
  assert (Z.quot z divisor <= 32767) by (clear - Hs Hd; Z.to_euclidean_division_equations; nia). rewrite Z.mod_small; lia.
Qed.

Lemma noise_frames samples channels divisor rnd2 i j : (i < samples)%nat -> (j < channels)%nat ->
  noise samples channels divisor rnd2 !! (i * channels + j)%nat = noise samples channels divisor rnd2 !! (i * channels)%nat.
Proof.
  revert rnd2 i. induction samples as [|samples IH]; intros rnd2 i Hi Hj; [lia|]. cbn [noise]. destruct (draw 6 rnd2 0) as [r s]. destruct i as [|i].
  - cbn [Nat.mul Nat.add]. rewrite !lookup_app_l by (rewrite length_replicate; lia). by rewrite !lookup_replicate_2 by lia.
  - rewrite !lookup_app_r by (rewrite length_replicate; cbn [Nat.mul]; lia). rewrite length_replicate.
    replace (S i * channels + j - channels)%nat with (i * channels + j)%nat by lia. replace (S i * channels - channels)%nat with (i * channels)%nat by lia. apply IH; lia.
Qed.

(** Comfort noise fills exactly the frames that are asked for, is the same on all channels and is
    quieter the greater the divisor. *)
Theorem comfort_noise data samples channels divisor rnd2 : 0 <= samples -> 0 <= channels -> 0 < divisor < 2 ^ 31 ->
  let c := Z.to_nat (Z.max 1 channels) in let n := (Z.to_nat samples * c)%nat in (n <= length data)%nat ->
  exists out, switch_generate_sln_silence data samples channels divisor rnd2 = Some out /\ length out = length data /\ drop n out = drop n data /\
    Forall (fun s => Z.abs s <= 2 ^ 15 / divisor) (take n out) /\
    forall i j, (i < Z.to_nat samples)%nat -> (j < c)%nat -> out !! (i * c + j)%nat = out !! (i * c)%nat.
Proof.
  intros Hs Hc Hd c n Hn. unfold switch_generate_sln_silence. rewrite no_channels, (proj2 (Z.eqb_neq divisor 0)), (proj2 (Z.eqb_neq divisor (2 ^ 32 - 1))) by lia. fold c.
  unfold overwrite. rewrite noise_length. fold n. rewrite (proj2 (Nat.leb_le _ _) Hn). eexists. split; [done|].
  split_and!; [rewrite length_app, noise_length, length_drop; fold n; lia|by rewrite drop_app_length' by (by rewrite noise_length)|
    rewrite take_app_length' by (by rewrite noise_length); by apply noise_quiet|].
  intros i j Hi Hj. rewrite !lookup_app_l by (rewrite noise_length; nia). by apply noise_frames.
Qed.

(** Silence of several channels, which the divisor -1 asks for, is written to the first channel's
    number of samples only. *)
Theorem silence_half_cleared : switch_generate_sln_silence [5; 5; 5; 5] 2 2 (2 ^ 32 - 1) 0 = Some [0; 0; 5; 5].
Proof. reflexivity. Qed.

End AudioTheorems.
