(* ===== verification/EventBus.v ===== *)
(** * Event bindings (src/src/switch_event.c)

    Who listens to which events: the lists of bindings per event type, EVENT_NODES, the
    reservations of subclasses, CUSTOM_HASH, and the delivery of an event to the
    callbacks of its bindings.

    The operations run under the locks of the code and are atomic here.  The linked lists
    are lists in the order of the [next] pointers; a binding has an address, by which
    its owner removes it.  Delivery gives the callbacks that are called, in order, with
    their data; what they do is not part of the model (one that binds or unbinds waits
    for its own lock).  An allocation for CUSTOM_HASH may fail, which is the argument
    [inserted].  [None] is the use of freed memory or of a NULL pointer. *)

From S2P Require Import Prelude.
From S2P Require Import Text Event.
From stdpp Require Import strings gmap.
From Stdlib Require Import Ascii.

#[local] Open Scope string_scope.
#[local] Open Scope list_scope.

Module EventBus.
Import Text.
Import Event (switch_event, switch_event_get_header).

(** ** Event types *)

Definition EVENT_NAMES : list string :=
  ["CUSTOM"; "CLONE"; "CHANNEL_CREATE"; "CHANNEL_DESTROY"; "CHANNEL_STATE";
   "CHANNEL_CALLSTATE"; "CHANNEL_ANSWER"; "CHANNEL_HANGUP"; "CHANNEL_HANGUP_COMPLETE"; "CHANNEL_EXECUTE";
   "CHANNEL_EXECUTE_COMPLETE"; "CHANNEL_HOLD"; "CHANNEL_UNHOLD"; "CHANNEL_BRIDGE"; "CHANNEL_UNBRIDGE";
   "CHANNEL_PROGRESS"; "CHANNEL_PROGRESS_MEDIA"; "CHANNEL_OUTGOING"; "CHANNEL_PARK"; "CHANNEL_UNPARK";
   "CHANNEL_APPLICATION"; "CHANNEL_ORIGINATE"; "CHANNEL_UUID"; "API"; "LOG";
   "INBOUND_CHAN"; "OUTBOUND_CHAN"; "STARTUP"; "SHUTDOWN"; "PUBLISH";
   "UNPUBLISH"; "TALK"; "NOTALK"; "SESSION_CRASH"; "MODULE_LOAD";
   "MODULE_UNLOAD"; "DTMF"; "MESSAGE"; "PRESENCE_IN"; "NOTIFY_IN";
   "PRESENCE_OUT"; "PRESENCE_PROBE"; "MESSAGE_WAITING"; "MESSAGE_QUERY"; "ROSTER";
   "CODEC"; "BACKGROUND_JOB"; "DETECTED_SPEECH"; "DETECTED_TONE"; "PRIVATE_COMMAND";
   "HEARTBEAT"; "TRAP"; "ADD_SCHEDULE"; "DEL_SCHEDULE"; "EXE_SCHEDULE";
   "RE_SCHEDULE"; "RELOADXML"; "NOTIFY"; "PHONE_FEATURE"; "PHONE_FEATURE_SUBSCRIBE";
   "SEND_MESSAGE"; "RECV_MESSAGE"; "REQUEST_PARAMS"; "CHANNEL_DATA"; "GENERAL";
   "COMMAND"; "SESSION_HEARTBEAT"; "CLIENT_DISCONNECTED"; "SERVER_DISCONNECTED"; "SEND_INFO";
   "RECV_INFO"; "RECV_RTCP_MESSAGE"; "SEND_RTCP_MESSAGE"; "CALL_SECURE"; "NAT";
   "RECORD_START"; "RECORD_STOP"; "PLAYBACK_START"; "PLAYBACK_STOP"; "CALL_UPDATE";
   "FAILURE"; "SOCKET_DATA"; "MEDIA_BUG_START"; "MEDIA_BUG_STOP"; "CONFERENCE_DATA_QUERY";
   "CONFERENCE_DATA"; "CALL_SETUP_REQ"; "CALL_SETUP_RESULT"; "CALL_DETAIL"; "DEVICE_STATE";
   "TEXT"; "SHUTDOWN_REQUESTED"; "ALL"].

(** A type is its number. *)
Definition SWITCH_EVENT_CUSTOM : nat := 0.
Definition SWITCH_EVENT_ALL : nat := 92.

Definition switch_event_name (event : nat) : option string := EVENT_NAMES !! event.

(** The name may have the first 13 characters of SWITCH_EVENT_ or any others. *)
Definition name_is (name event_name : string) : bool :=
  ((13 <? String.length name)%nat && strcasecmp_eq (String.substring 13 (String.length name - 13) name) event_name) || strcasecmp_eq name event_name.

Fixpoint name_event_from (x : nat) (names : list string) (name : string) : option nat :=
  match names with [] => None | n :: names => if name_is name n then Some x else name_event_from (S x) names name end.

Definition switch_name_event (name : string) : option nat := name_event_from 0 EVENT_NAMES name.

(** ** Data *)

Record switch_event_node := mk_node {
  node_addr : nat; node_id : string; node_event_id : nat; node_subclass_name : option string; node_callback : nat; node_user_data : nat }.

Record switch_event_subclass := mk_subclass { subclass_owner : string; subclass_bind : bool }.

#[export] Instance rebuild_subclass : Rebuild switch_event_subclass := fun s => mk_subclass (subclass_owner s) (subclass_bind s).
#[export] Instance set_subclass_bind : Setter subclass_bind := ltac:(derive_setter).

(** [free_addr] is the address of the next binding. *)
Record event_bus := mk_bus { EVENT_NODES : list (list switch_event_node); CUSTOM_HASH : gmap string switch_event_subclass; free_addr : nat }.

#[export] Instance rebuild_bus : Rebuild event_bus := fun b => mk_bus (EVENT_NODES b) (CUSTOM_HASH b) (free_addr b).
#[export] Instance set_EVENT_NODES : Setter EVENT_NODES := ltac:(derive_setter).
#[export] Instance set_CUSTOM_HASH : Setter CUSTOM_HASH := ltac:(derive_setter).
#[export] Instance set_free_addr : Setter free_addr := ltac:(derive_setter).

Definition bus_init : event_bus := mk_bus (replicate (S SWITCH_EVENT_ALL) []) ∅ 0.

(** ** Matching and delivery *)

Definition sub_prefix (prefix s : string) : bool := strcasecmp_eq (String.substring 0 (String.length prefix) s) prefix.
Definition after (n : nat) (s : string) : string := String.substring n (String.length s - n) s.

(** The comparison with a header, which leaves [matched] if there is none. *)
Definition match_header (matched : bool) (ev : switch_event) (header : string) (wanted : string) : bool :=
  match switch_event_get_header ev header with Some v => String.eqb wanted v | None => matched end.

Definition switch_events_match (event_id : nat) (ev : switch_event) (node : switch_event_node) : bool :=
  let all := (node_event_id node =? SWITCH_EVENT_ALL)%nat in
  match all, node_subclass_name node with
  | true, None => true
  | _, _ =>
      if all || (event_id =? node_event_id node)%nat then
        match Event.subclass_name ev, node_subclass_name node with
        | Some sub, Some wanted =>
            if sub_prefix "file:" wanted then match_header all ev "file" (after 5 wanted)
            else if sub_prefix "func:" wanted then match_header all ev "function" (after 5 wanted)
            else String.eqb sub wanted
        | _, None => true
        | None, Some _ => false
        end
      else all
  end.

(** The calls of the bindings in one list. *)
Definition calls_of (event_id : nat) (ev : switch_event) (l : list switch_event_node) : list (nat * nat) :=
  map (fun n => (node_callback n, node_user_data n)) (List.filter (switch_events_match event_id ev) l).

(** [running] is SYSTEM_RUNNING. *)
Definition switch_event_deliver (b : event_bus) (running : bool) (event_id : nat) (ev : switch_event) : option (list (nat * nat)) :=
  if running then
    l ← EVENT_NODES b !! event_id;
    if (event_id =? SWITCH_EVENT_ALL)%nat then Some (calls_of event_id ev l)
    else a ← EVENT_NODES b !! SWITCH_EVENT_ALL; Some (calls_of event_id ev l ++ calls_of event_id ev a)
  else Some [].

(** ** Subclasses *)

Definition switch_event_reserve_subclass_detailed (b : event_bus) (owner subclass_name : string) (inserted : bool) : switch_status_t * event_bus :=
  match CUSTOM_HASH b !! subclass_name with
  | Some s =>
      if subclass_bind s then (SWITCH_STATUS_SUCCESS, b <| CUSTOM_HASH := <[subclass_name := s <| subclass_bind := false |>]> (CUSTOM_HASH b) |>)
      else (SWITCH_STATUS_INUSE, b)
  | None =>
      if inserted then (SWITCH_STATUS_SUCCESS, b <| CUSTOM_HASH := <[subclass_name := mk_subclass owner false]> (CUSTOM_HASH b) |>)
      else (SWITCH_STATUS_MEMERR, b)
  end.

Definition switch_event_free_subclass_detailed (b : event_bus) (owner subclass_name : string) : switch_status_t * event_bus :=
  match CUSTOM_HASH b !! subclass_name with
  | Some s =>
      if String.eqb owner (subclass_owner s) then (SWITCH_STATUS_SUCCESS, b <| CUSTOM_HASH := delete subclass_name (CUSTOM_HASH b) |>)
      else (SWITCH_STATUS_FALSE, b <| CUSTOM_HASH := <[subclass_name := s <| subclass_bind := true |>]> (CUSTOM_HASH b) |>)
  | None => (SWITCH_STATUS_FALSE, b)
  end.

(** ** Binding *)

(** The subclass of a binding is reserved for whoever will want it. *)
Definition bind_subclass (b : event_bus) (id subclass_name : string) (inserted : bool) : option event_bus :=
  match CUSTOM_HASH b !! subclass_name with
  | Some _ => Some b
  | None =>
      let '(_, b) := switch_event_reserve_subclass_detailed b id subclass_name inserted in
      s ← CUSTOM_HASH b !! subclass_name;
      Some (b <| CUSTOM_HASH := <[subclass_name := s <| subclass_bind := true |>]> (CUSTOM_HASH b) |>)
  end.

(** The status, the address of the new binding and the lists. *)
Definition switch_event_bind_removable (b : event_bus) (id : string) (event : nat) (subclass_name : option string) (callback user_data : nat) (inserted : bool)
  : option (switch_status_t * option nat * event_bus) :=
  b ← match subclass_name with Some s => bind_subclass b id s inserted | None => Some b end;
  if (event <=? SWITCH_EVENT_ALL)%nat then
    l ← EVENT_NODES b !! event;
    let node := mk_node (free_addr b) id event subclass_name callback user_data in
    Some (SWITCH_STATUS_SUCCESS, Some (free_addr b), b <| EVENT_NODES := <[event := node :: l]> (EVENT_NODES b) |> <| free_addr := S (free_addr b) |>)
  else Some (SWITCH_STATUS_MEMERR, None, b).

(** The loop over one list: [kept] are the bindings before [np] that stay. *)
Fixpoint unbind_type (callback id : nat) (nodes : list (list switch_event_node)) (kept np : list switch_event_node) : bool * list (list switch_event_node) :=
  match np with
  | [] => (false, nodes)
  | n :: np =>
      if (node_callback n =? callback)%nat then
        let nodes := match kept with [] => <[node_event_id n := np]> nodes | _ => <[id := kept ++ np]> nodes end in
        (true, (unbind_type callback id nodes kept np).2)
      else unbind_type callback id nodes (kept ++ [n]) np
  end.

Fixpoint unbind_ids (callback : nat) (nodes : list (list switch_event_node)) (id n : nat) : option (bool * list (list switch_event_node)) :=
  match n with
  | O => Some (false, nodes)
  | S n =>
      l ← nodes !! id;
      let '(found, nodes) := unbind_type callback id nodes [] l in
      '(found', nodes) ← unbind_ids callback nodes (S id) n;
      Some (found || found', nodes)
  end.

Definition switch_event_unbind_callback (b : event_bus) (callback : nat) : option (switch_status_t * event_bus) :=
  '(found, nodes) ← unbind_ids callback (EVENT_NODES b) 0 (S SWITCH_EVENT_ALL);
  Some (if found : bool then SWITCH_STATUS_SUCCESS else SWITCH_STATUS_FALSE, b <| EVENT_NODES := nodes |>).

(** The binding at an address, if it has not been freed. *)
Definition node_at (b : event_bus) (a : nat) : option switch_event_node :=
  List.find (fun n => (node_addr n =? a)%nat) (concat (EVENT_NODES b)).

Fixpoint unlink_node (a : nat) (l : list switch_event_node) : bool * list switch_event_node :=
  match l with
  | [] => (false, [])
  | n :: l => if (node_addr n =? a)%nat then (true, l) else let '(found, l) := unlink_node a l in (found, n :: l)
  end.

(** [node] is what the owner has stored; the new value is returned as well. *)
Definition switch_event_unbind (b : event_bus) (node : option nat) : option (switch_status_t * option nat * event_bus) :=
  match node with
  | None => Some (SWITCH_STATUS_FALSE, None, b)
  | Some a =>
      n ← node_at b a;
      l ← EVENT_NODES b !! node_event_id n;
      let '(found, l) := unlink_node a l in
      Some (if found : bool then (SWITCH_STATUS_SUCCESS, None, b <| EVENT_NODES := <[node_event_id n := l]> (EVENT_NODES b) |>)
            else (SWITCH_STATUS_FALSE, Some a, b))
  end.

(** ** What bindings promise *)

Inductive bus_op :=
  | OpBind (id : string) (event : nat) (subclass_name : option string) (callback user_data : nat) (inserted : bool)
  | OpUnbind (a : nat)
  | OpUnbindCallback (callback : nat)
  | OpReserve (owner subclass_name : string) (inserted : bool)
  | OpFree (owner subclass_name : string).

Definition bus_step (b : event_bus) (op : bus_op) : option event_bus :=
  match op with
  | OpBind id event subclass_name callback user_data inserted =>
      '(_, _, b) ← switch_event_bind_removable b id event subclass_name callback user_data inserted; Some b
  | OpUnbind a => '(_, _, b) ← switch_event_unbind b (Some a); Some b
  | OpUnbindCallback callback => '(_, b) ← switch_event_unbind_callback b callback; Some b
  | OpReserve owner subclass_name inserted => Some (switch_event_reserve_subclass_detailed b owner subclass_name inserted).2
  | OpFree owner subclass_name => Some (switch_event_free_subclass_detailed b owner subclass_name).2
  end.

Fixpoint bus_run (b : event_bus) (ops : list bus_op) : option event_bus :=
  match ops with [] => Some b | op :: ops => b ← bus_step b op; bus_run b ops end.

(** The specification: the bindings that are in force, the newest first. *)
Definition live_step (live : list switch_event_node * nat) (op : bus_op) : list switch_event_node * nat :=
  let '(l, next) := live in
  match op with
  | OpBind id event subclass_name callback user_data _ =>
      if (event <=? SWITCH_EVENT_ALL)%nat then (mk_node next id event subclass_name callback user_data :: l, S next) else live
  | OpUnbind a => (List.filter (fun n => negb (node_addr n =? a)%nat) l, next)
  | OpUnbindCallback callback => (List.filter (fun n => negb (node_callback n =? callback)%nat) l, next)
  | OpReserve _ _ _ | OpFree _ _ => live
  end.

(** A binding is removed by its address only while it is in force, and there is memory to
    enter its subclass. *)
Definition allowed_op (l : list switch_event_node) (op : bus_op) : bool :=
  match op with
  | OpBind _ _ _ _ _ inserted => inserted
  | OpUnbind a => existsb (fun n => (node_addr n =? a)%nat) l
  | _ => true
  end.

Fixpoint allowed_run (live : list switch_event_node * nat) (ops : list bus_op) : bool :=
  match ops with [] => true | op :: ops => allowed_op live.1 op && allowed_run (live_step live op) ops end.

Definition live_run (ops : list bus_op) : list switch_event_node := (foldl live_step ([], 0%nat) ops).1.

Definition of_type (event : nat) (l : list switch_event_node) : list switch_event_node := List.filter (fun n => (node_event_id n =? event)%nat) l.

(** Whether a binding is for an event: its type, or all types; the subclass it names, if any; or, for a
    name that starts with file: or func:, the header with the file or the function.  Where an event has
    no such header, a binding to all types is called and one to a single type is not. *)
Definition names_header (kind header : string) (n : switch_event_node) (ev : switch_event) (wanted : string) : option bool :=
  if String.eqb (lower (String.substring 0 5 wanted)) kind then
    Some (match switch_event_get_header ev header with
          | Some v => String.eqb v (String.substring 5 (String.length wanted - 5) wanted)
          | None => (node_event_id n =? SWITCH_EVENT_ALL)%nat
          end)
  else None.

Definition hears (event_id : nat) (ev : switch_event) (n : switch_event_node) : bool :=
  existsb (Nat.eqb (node_event_id n)) [event_id; SWITCH_EVENT_ALL] &&
  match node_subclass_name n with
  | None => true
  | Some wanted =>
      match Event.subclass_name ev with
      | None => false
      | Some sub =>
          match names_header "file:" "file" n ev wanted, names_header "func:" "function" n ev wanted with
          | Some b, _ => b
          | None, Some b => b
          | None, None => String.eqb wanted sub
          end
      end
  end.

(** One call for each binding in force that hears the event: those to its type before those to all events. *)
Definition spec_calls (l : list switch_event_node) (event_id : nat) (ev : switch_event) : list (nat * nat) :=
  flat_map (fun t => flat_map (fun n => if (node_event_id n =? t)%nat && hears event_id ev n then [(node_callback n, node_user_data n)] else []) l)
    (if (event_id =? SWITCH_EVENT_ALL)%nat then [SWITCH_EVENT_ALL] else [event_id; SWITCH_EVENT_ALL]).

(** ** Refinement *)

Definition types : list nat := seq 0 (S SWITCH_EVENT_ALL).
#[local] Arguments types : simpl never.

Lemma types_lookup e : (e <= SWITCH_EVENT_ALL)%nat -> types !! e = Some e.
Proof. intros He. unfold types. rewrite lookup_seq_lt by lia. done. Qed.

Lemma types_length : length types = S SWITCH_EVENT_ALL.
Proof. apply length_seq. Qed.

Record linked (b : event_bus) (l : list switch_event_node) : Prop := mk_linked {
  linked_nodes : EVENT_NODES b = map (fun e => of_type e l) types;
  linked_addrs : NoDup (map node_addr l);
  linked_old : Forall (fun n => (node_addr n < free_addr b)%nat /\ (node_event_id n <= SWITCH_EVENT_ALL)%nat) l }.

Lemma nodes_lookup b l e : linked b l -> (e <= SWITCH_EVENT_ALL)%nat -> EVENT_NODES b !! e = Some (of_type e l).
Proof. intros [-> _ _] He. by rewrite list_lookup_fmap, types_lookup. Qed.

(** The lists after a change of one of them. *)
Lemma nodes_change l l' e x : (e <= SWITCH_EVENT_ALL)%nat -> of_type e l' = x -> (forall e', e' <> e -> of_type e' l' = of_type e' l) ->
  <[e := x]> (map (fun e => of_type e l) types) = map (fun e => of_type e l') types.
Proof.
  intros He Hx Hother. apply list_eq. intros i. destruct (decide (i = e)) as [->|Hne].
  - rewrite list_lookup_insert_eq by (rewrite length_map, types_length; lia). rewrite list_lookup_fmap, types_lookup by done. cbn. by rewrite Hx.
  - rewrite list_lookup_insert_ne by done. rewrite !list_lookup_fmap. destruct (types !! i) as [e'|] eqn:E; [|done].
    apply lookup_seq in E as [-> _]. cbn. by rewrite Hother by lia.
Qed.

Lemma bind_linked b l id event sub cb ud ins r b' : linked b l -> switch_event_bind_removable b id event sub cb ud ins = Some (r, b') ->
  linked b' (live_step (l, free_addr b) (OpBind id event sub cb ud ins)).1 /\ free_addr b' = (live_step (l, free_addr b) (OpBind id event sub cb ud ins)).2.
Proof.
  intros HL. unfold switch_event_bind_removable. destruct (match sub with Some s => bind_subclass b id s ins | None => Some b end) as [b1|] eqn:E1; [|done].
  assert (EVENT_NODES b1 = EVENT_NODES b /\ free_addr b1 = free_addr b) as [En Ef].
  { destruct sub as [s|]; [|by injection E1 as <-]. unfold bind_subclass, switch_event_reserve_subclass_detailed in E1. destruct (CUSTOM_HASH b !! s) as [x|] eqn:Es; [by injection E1 as <-|].
    destruct ins; cbn in E1; [rewrite lookup_insert_eq in E1; by injection E1 as <-|by rewrite Es in E1]. }
  cbn [mbind option_bind live_step]. destruct (Nat.leb_spec event SWITCH_EVENT_ALL) as [He|He]; [|intros [= <- <-]; split; [|done]; destruct HL; constructor; [by rewrite En|done|by rewrite Ef]].
  rewrite En, (nodes_lookup b l event HL He). cbn [mbind option_bind]. rewrite Ef. intros [= <- <-]. split; [|done]. destruct HL as [Hn Ha Ho]. constructor; cbn.
  - rewrite Hn. refine (nodes_change l (mk_node (free_addr b) id event sub cb ud :: l) event _ He _ _); [by cbn; rewrite Nat.eqb_refl|]. intros e' Hne. cbn. by rewrite (proj2 (Nat.eqb_neq event e')).
  - constructor; [|done]. intros (n & E & Hin)%list_elem_of_fmap. destruct (proj1 (Forall_forall _ _) Ho n Hin). lia.
  - constructor; [cbn; lia|]. eapply Forall_impl; [done|]. cbn. lia.
Qed.

Lemma filter_commute (f g : switch_event_node -> bool) l : List.filter f (List.filter g l) = List.filter g (List.filter f l).
Proof. induction l as [|n l IH]; [done|]. cbn. destruct (g n) eqn:Hg, (f n) eqn:Hf; cbn; rewrite ?Hg, ?Hf, IH; done. Qed.

Lemma of_type_event e l n : In n (of_type e l) -> node_event_id n = e.
Proof. intros [_ H%Nat.eqb_eq]%filter_In. done. Qed.

(** One list of unbind_callback. *)
Lemma unbind_type_spec cb id nodes kept np : Forall (fun n => node_event_id n = id) np -> (id < length nodes)%nat -> nodes !! id = Some (kept ++ np) ->
  (unbind_type cb id nodes kept np).2 = <[id := kept ++ List.filter (fun n => negb (node_callback n =? cb)%nat) np]> nodes.
Proof.
  revert nodes kept. induction np as [|n np IH]; intros nodes kept He Hid Hl; cbn [unbind_type List.filter].
  - by rewrite list_insert_id.
  - apply Forall_cons in He as [Hn He]. destruct (node_callback n =? cb)%nat eqn:Ec; cbn [negb snd].
    + assert (match kept with [] => <[node_event_id n := np]> nodes | _ => <[id := kept ++ np]> nodes end = <[id := kept ++ np]> nodes) as -> by (rewrite Hn; by destruct kept).
      rewrite IH; [by rewrite list_insert_insert_eq|done|by rewrite length_insert|by apply list_lookup_insert_eq].
    + rewrite IH; [by rewrite <- app_assoc|done|done|]. by rewrite <- app_assoc.
Qed.

Lemma unbind_ids_spec cb nodes id n : (id + n <= length nodes)%nat -> (forall i l, nodes !! i = Some l -> Forall (fun x => node_event_id x = i) l) ->
  exists found nodes', unbind_ids cb nodes id n = Some (found, nodes') /\ length nodes' = length nodes /\
    forall i, nodes' !! i = if (id <=? i)%nat && (i <? id + n)%nat then List.filter (fun n => negb (node_callback n =? cb)%nat) <$> nodes !! i else nodes !! i.
Proof.
  revert nodes id. induction n as [|n IH]; intros nodes id Hl He; cbn [unbind_ids].
  - eexists _, _. split_and!; [done..|]. intros i. destruct (Nat.leb_spec id i), (Nat.ltb_spec i (id + 0)); try done. lia.
  - destruct (lookup_lt_is_Some_2 nodes id) as [l Hid]; [lia|]. rewrite Hid. cbn [mbind option_bind].
    pose proof (unbind_type_spec cb id nodes [] l (He id l Hid) ltac:(lia) Hid) as Hu. cbn [app] in Hu. destruct (unbind_type cb id nodes [] l) as [f0 nodes1]. cbn [snd] in Hu. subst nodes1.
    destruct (IH (<[id := List.filter (fun n => negb (node_callback n =? cb)%nat) l]> nodes) (S id)) as (f & nodes' & -> & Hlen & Hi).
    { rewrite length_insert. lia. }
    { intros i x Hx. destruct (decide (i = id)) as [->|Hne]; [|rewrite list_lookup_insert_ne in Hx by done; by apply He].
      rewrite list_lookup_insert_eq in Hx by lia. injection Hx as <-. apply filter_keeps, (He id l Hid). }
    cbn [mbind option_bind]. eexists _, _. split_and!; [done|by rewrite Hlen, length_insert|]. intros i. rewrite Hi. destruct (decide (i = id)) as [->|Hne].
    + rewrite list_lookup_insert_eq, Hid by lia. by destruct (Nat.leb_spec (S id) id), (Nat.leb_spec id id), (Nat.ltb_spec id (id + S n)); try lia.
    + rewrite list_lookup_insert_ne by done. by destruct (Nat.leb_spec (S id) i), (Nat.leb_spec id i), (Nat.ltb_spec i (S id + n)), (Nat.ltb_spec i (id + S n)); try lia.
Qed.

Lemma linked_filter b l f nodes : linked b l -> nodes = map (fun e => of_type e (List.filter f l)) types -> linked (b <| EVENT_NODES := nodes |>) (List.filter f l).
Proof. intros [Hn Ha Ho] ->. constructor; cbn; [done|by apply filter_nodup|by apply filter_keeps]. Qed.

Lemma nodes_typed b l i x : linked b l -> EVENT_NODES b !! i = Some x -> Forall (fun n => node_event_id n = i) x.
Proof.
  intros HL. rewrite (linked_nodes _ _ HL), list_lookup_fmap. destruct (types !! i) as [e|] eqn:E; [|done]. apply lookup_seq in E as [-> _]. cbn [fmap option_fmap option_map].
  intros [= <-]. apply Forall_forall. intros n Hn%list_elem_of_In. by apply of_type_event in Hn.
Qed.

Lemma nodes_length b l : linked b l -> length (EVENT_NODES b) = S SWITCH_EVENT_ALL.
Proof. intros HL. by rewrite (linked_nodes _ _ HL), length_map, types_length. Qed.

Lemma unbind_callback_returns b l cb : linked b l -> exists r, switch_event_unbind_callback b cb = Some r.
Proof.
  intros HL. unfold switch_event_unbind_callback. destruct (unbind_ids_spec cb (EVENT_NODES b) 0 (S SWITCH_EVENT_ALL)) as (f & nodes & -> & _);
    [by rewrite (nodes_length b l HL)|intros i x; by eapply nodes_typed|]. by eexists.
Qed.

Lemma unbind_callback_linked b l cb r b' : linked b l -> switch_event_unbind_callback b cb = Some (r, b') ->
  linked b' (List.filter (fun n => negb (node_callback n =? cb)%nat) l) /\ free_addr b' = free_addr b.
Proof.
  intros HL. unfold switch_event_unbind_callback. destruct (unbind_ids_spec cb (EVENT_NODES b) 0 (S SWITCH_EVENT_ALL)) as (f & nodes & -> & Hlen & Hi);
    [by rewrite (nodes_length b l HL)|intros i x; by eapply nodes_typed|].
  cbn [mbind option_bind]. intros [= <- <-]. split; [|done]. apply linked_filter; [done|]. apply list_eq. intros i. rewrite Hi, (linked_nodes _ _ HL), !list_lookup_fmap.
  destruct (types !! i) as [e|] eqn:E; [|by destruct (_ && _)]. apply lookup_seq in E as [-> Hlt]. rewrite (proj2 (Nat.ltb_lt i _)) by lia.
  cbn. f_equal. unfold of_type. apply filter_commute.
Qed.

Lemma node_at_spec b l a n : linked b l -> node_at b a = Some n -> In n l /\ node_addr n = a.
Proof.
  intros HL Hf. apply find_some in Hf as [Hin Ha%Nat.eqb_eq]. split; [|done]. apply in_concat in Hin as (x & Hx & Hn). rewrite (linked_nodes _ _ HL) in Hx.
  apply in_map_iff in Hx as (e & <- & _). by apply filter_In in Hn as [? _].
Qed.

Lemma unlink_node_spec a l : NoDup (map node_addr l) -> (unlink_node a l).2 = List.filter (fun n => negb (node_addr n =? a)%nat) l /\ ((unlink_node a l).1 = true <-> exists n, In n l /\ node_addr n = a).
Proof.
  induction l as [|n l IH]; intros Hd; [split; [done|]; split; [done|]; by intros (? & [] & _)|]. cbn [map] in Hd. apply NoDup_cons in Hd as [Hn Hd]. destruct (IH Hd) as [E1 E2].
  cbn [unlink_node List.filter]. destruct (Nat.eqb_spec (node_addr n) a) as [Ha|Ha]; cbn [negb fst snd].
  - split; [|split; [intros _; exists n; split; [by left|done]|done]]. symmetry. rewrite <- Ha. clear -Hn. induction l as [|x l IH]; [done|]. cbn in Hn |- *.
    apply not_elem_of_cons in Hn as [Hx Hn]. rewrite (proj2 (Nat.eqb_neq (node_addr x) (node_addr n))) by done. cbn. f_equal. by apply IH.
  - destruct (unlink_node a l) as [f l']. cbn [fst snd] in *. rewrite E1. split; [done|]. rewrite E2. split; intros (x & Hx & Hxa); [exists x; split; [by right|done]|].
    destruct Hx as [->|Hx]; [done|]. by exists x.
Qed.

Lemma unbind_linked b l a r b' : linked b l -> switch_event_unbind b (Some a) = Some (r, b') ->
  linked b' (List.filter (fun n => negb (node_addr n =? a)%nat) l) /\ free_addr b' = free_addr b.
Proof.
  intros HL. unfold switch_event_unbind. destruct (node_at b a) as [n|] eqn:En; [|done]. cbn [mbind option_bind]. destruct (node_at_spec b l a n HL En) as [Hin Ha].
  pose proof (linked_old _ _ HL) as Ho. destruct (proj1 (Forall_forall _ _) Ho n (proj2 (list_elem_of_In _ _) Hin)) as [_ He].
  rewrite (nodes_lookup b l _ HL He). cbn [mbind option_bind]. pose proof (unlink_node_spec a (of_type (node_event_id n) l) (filter_nodup _ _ _ (linked_addrs _ _ HL))) as [E1 E2].
  destruct (unlink_node a (of_type (node_event_id n) l)) as [f l1]. cbn [fst snd] in E1, E2. assert (f = true) as ->.
  { apply E2. exists n. split; [|done]. apply filter_In. split; [done|]. apply Nat.eqb_refl. }
  intros [= <- <-]. split; [|done]. apply linked_filter; [done|]. rewrite (linked_nodes _ _ HL). apply nodes_change; [done| |].
  - rewrite E1. unfold of_type. apply filter_commute.
  - intros e Hne. unfold of_type. rewrite filter_commute. apply forallb_filter_id, forallb_forall. intros x Hx. apply negb_true_iff, Nat.eqb_neq. intros Hxa.
    apply filter_In in Hx as [Hx Hex%Nat.eqb_eq]. apply Hne. rewrite <- Hex. f_equal. pose proof (linked_addrs _ _ HL) as Hd.
    clear -Hd Hx Hin Ha Hxa. apply list_elem_of_In in Hx, Hin. apply list_elem_of_lookup in Hx as (i & Hx), Hin as (j & Hj).
    assert (i = j) as ->; [|congruence]. eapply NoDup_lookup; [exact Hd| |]; rewrite list_lookup_fmap, ?Hx, ?Hj; cbn; [reflexivity|congruence].
Qed.

Lemma step_linked b l op b' : linked b l -> bus_step b op = Some b' ->
  linked b' (live_step (l, free_addr b) op).1 /\ free_addr b' = (live_step (l, free_addr b) op).2.
Proof.
  intros HL. destruct op as [id event sub cb ud ins|a|cb|owner sub ins|owner sub]; cbn [bus_step].
  - destruct (switch_event_bind_removable b id event sub cb ud ins) as [[[s x] b1]|] eqn:E; [|done]. cbn. intros [= <-]. by eapply bind_linked.
  - destruct (switch_event_unbind b (Some a)) as [[[s x] b1]|] eqn:E; [|done]. cbn. intros [= <-]. by eapply unbind_linked.
  - destruct (switch_event_unbind_callback b cb) as [[s b1]|] eqn:E; [|done]. cbn. intros [= <-]. by eapply unbind_callback_linked.
  - intros [= <-]. cbn. unfold switch_event_reserve_subclass_detailed. destruct (CUSTOM_HASH b !! sub) as [[o []]|], ins; cbn; (split; [|done]); destruct HL; by constructor.
  - intros [= <-]. cbn. unfold switch_event_free_subclass_detailed. destruct (CUSTOM_HASH b !! sub) as [s|]; [destruct (String.eqb owner (subclass_owner s))|]; cbn; (split; [|done]); destruct HL; by constructor.
Qed.

(** A binding can be removed by its address while it is in force. *)
Lemma live_node b l a : linked b l -> existsb (fun n => (node_addr n =? a)%nat) l = true -> exists n, node_at b a = Some n.
Proof.
  intros HL (n & Hn & Ha)%existsb_exists. unfold node_at. destruct (List.find _ _) as [x|] eqn:E; [by exists x|]. pose proof (linked_old _ _ HL) as Ho.
  destruct (proj1 (Forall_forall _ _) Ho n (proj2 (list_elem_of_In _ _) Hn)) as [_ He].
  assert (In n (concat (EVENT_NODES b))) as Hin; [|by rewrite (find_none _ _ E n Hin) in Ha]. apply in_concat. exists (of_type (node_event_id n) l). split.
  - apply list_elem_of_In, (list_elem_of_lookup_2 _ (node_event_id n)), nodes_lookup; done.
  - apply filter_In. split; [done|]. apply Nat.eqb_refl.
Qed.

Lemma bind_returns b l id event sub cb ud : linked b l -> exists r, switch_event_bind_removable b id event sub cb ud true = Some r.
Proof.
  intros HL. unfold switch_event_bind_removable.
  assert (exists b1, match sub with Some s => bind_subclass b id s true | None => Some b end = Some b1 /\ EVENT_NODES b1 = EVENT_NODES b) as (b1 & -> & En).
  { destruct sub as [s|]; [|by exists b]. unfold bind_subclass, switch_event_reserve_subclass_detailed. destruct (CUSTOM_HASH b !! s) as [x|] eqn:Es; [by exists b|].
    cbn. rewrite lookup_insert_eq. by eexists. }
  cbn [mbind option_bind]. destruct (Nat.leb_spec event SWITCH_EVENT_ALL) as [He|He]; [|by eexists]. rewrite En, (nodes_lookup b l event HL He). by eexists.
Qed.

Lemma step_returns b l op : linked b l -> allowed_op l op = true -> exists b', bus_step b op = Some b'.
Proof.
  intros HL Hop. destruct op as [id event sub cb ud ins|a|cb|owner sub ins|owner sub]; cbn [bus_step allowed_op] in *; [| | |by eexists|by eexists].
  - subst ins. destruct (bind_returns b l id event sub cb ud HL) as ([[s x] b1] & ->). by eexists.
  - unfold switch_event_unbind. destruct (live_node b l a HL Hop) as (n & En). rewrite En. cbn [mbind option_bind]. destruct (node_at_spec b l a n HL En) as [Hin _]. pose proof (linked_old _ _ HL) as Ho.
    destruct (proj1 (Forall_forall _ _) Ho n (proj2 (list_elem_of_In _ _) Hin)) as [_ He]. rewrite (nodes_lookup b l _ HL He). cbn [mbind option_bind]. destruct (unlink_node _ _) as [[] ?]; by eexists.
  - destruct (unbind_callback_returns b l cb HL) as ([s b'] & ->). by eexists.
Qed.

Lemma run_linked ops : forall b l, linked b l -> allowed_run (l, free_addr b) ops = true ->
  exists b', bus_run b ops = Some b' /\ linked b' (foldl live_step (l, free_addr b) ops).1.
Proof.
  induction ops as [|op ops IH]; intros b l HL Hops; [by exists b|]. cbn [allowed_run bus_run foldl] in *. apply andb_true_iff in Hops as [Hop Hops].
  destruct (step_returns b l op HL Hop) as (b1 & E). rewrite E. cbn [mbind option_bind]. destruct (step_linked b l op b1 HL E) as [H1 H2].
  destruct (live_step (l, free_addr b) op) as [l1 n1]. cbn [fst snd] in *. subst n1. by apply IH.
Qed.

Lemma strcase_sub w : sub_prefix "file:" w = String.eqb (lower (String.substring 0 5 w)) "file:" /\ sub_prefix "func:" w = String.eqb (lower (String.substring 0 5 w)) "func:".
Proof.
  split; unfold sub_prefix; (match goal with |- context [strcasecmp_eq _ ?k] => change (String.length k) with 5%nat end); apply eq_true_iff_eq; rewrite strcasecmp_lower, String.eqb_eq; done.
Qed.

Lemma match_hears event_id ev n : switch_events_match event_id ev n = hears event_id ev n.
Proof.
  unfold switch_events_match, hears, names_header, match_header, after. cbn [existsb]. rewrite orb_false_r. rewrite (Nat.eqb_sym event_id).
  destruct (node_event_id n =? SWITCH_EVENT_ALL)%nat eqn:Ea; [rewrite orb_true_r|rewrite orb_false_r]; destruct (node_subclass_name n) as [w|]; cbn [orb andb]; try done;
    [|destruct (node_event_id n =? event_id)%nat; [|done]|by destruct (node_event_id n =? event_id)%nat, (Event.subclass_name ev)];
    (destruct (Event.subclass_name ev) as [sub|]; [|done]; destruct (strcase_sub w) as [-> ->];
     destruct (String.eqb (lower _) "file:"); [destruct (switch_event_get_header ev "file"); [apply String.eqb_sym|done]|];
     destruct (String.eqb (lower _) "func:"); [destruct (switch_event_get_header ev "function"); [apply String.eqb_sym|done]|]; apply String.eqb_sym).
Qed.

Lemma calls_spec event_id ev t l :
  calls_of event_id ev (of_type t l) = flat_map (fun n => if (node_event_id n =? t)%nat && hears event_id ev n then [(node_callback n, node_user_data n)] else []) l.
Proof.
  unfold calls_of, of_type. induction l as [|n l IH]; [done|]. cbn [List.filter flat_map]. destruct (node_event_id n =? t)%nat; [|done]. cbn [List.filter andb].
  rewrite match_hears. destruct (hears event_id ev n); [|done]. cbn [map app]. by rewrite IH.
Qed.

(** ** Theorems *)

(** C33. Events reach exactly the callbacks that are bound: every sequence of bindings, removals of
    bindings in force by address, removals by callback, and reservations of subclasses, with
    memory for the bindings, succeeds, and an event is then delivered to the
    bindings that were made and not removed and are for it, each once with its data, those to its type
    before those to all events and the newest first. *)
Theorem bus_delivers ops : allowed_run ([], 0%nat) ops = true ->
  exists b, bus_run bus_init ops = Some b /\
    forall event_id ev, (event_id <= SWITCH_EVENT_ALL)%nat -> switch_event_deliver b true event_id ev = Some (spec_calls (live_run ops) event_id ev).
Proof.
  intros Hops. assert (linked bus_init []) as H0 by (constructor; [reflexivity|constructor|constructor]).
  destruct (run_linked ops bus_init [] H0 Hops) as (b & E & HL). exists b. split; [done|]. intros event_id ev He. change (linked b (live_run ops)) in HL.
  unfold switch_event_deliver, spec_calls. rewrite (nodes_lookup b _ event_id HL He). cbn [mbind option_bind]. rewrite calls_spec. destruct (Nat.eqb_spec event_id SWITCH_EVENT_ALL) as [->|].
  - cbn [flat_map]. by rewrite app_nil_r.
  - rewrite (nodes_lookup b _ SWITCH_EVENT_ALL HL) by done. cbn [mbind option_bind flat_map]. by rewrite calls_spec, app_nil_r.
Qed.

Definition example_ops : list bus_op :=
  [OpBind "a" 5 None 1 10 true; OpBind "b" SWITCH_EVENT_ALL None 2 20 true; OpBind "c" 5 None 3 30 true; OpUnbind 0].

Lemma bus_delivers_witness : exists b, bus_run bus_init example_ops = Some b /\
  switch_event_deliver b true 5 (Event.switch_event_create_plain false) = Some [(3, 30); (2, 20)]%nat.
Proof.
  destruct (bus_delivers example_ops eq_refl) as (b & E & H). exists b. split; [exact E|]. refine (H 5%nat _ _). unfold SWITCH_EVENT_ALL. lia.
Defined.

(** Every type is found by its name, and by its name with the prefix SWITCH_EVENT_. *)
Theorem event_names_roundtrip x name : switch_event_name x = Some name -> switch_name_event name = Some x /\ switch_name_event ("SWITCH_EVENT_" +:+ name) = Some x.
Proof.
  intros H. assert (forallb (fun '(x, name) => bool_decide (switch_name_event name = Some x) && bool_decide (switch_name_event ("SWITCH_EVENT_" +:+ name) = Some x)) (zip (seq 0 93) EVENT_NAMES) = true) as Hall
    by (vm_compute; reflexivity).
  assert (In (x, name) (zip (seq 0 93) EVENT_NAMES)) as Hin.
  { apply list_elem_of_In. apply list_elem_of_lookup. exists x. apply lookup_zip_with_Some. exists x, name. split_and!; [done| |done]. apply lookup_seq. split; [done|].
    apply lookup_lt_Some in H. exact H. }
  pose proof (proj1 (forallb_forall _ _) Hall (x, name) Hin) as H2. cbv beta iota in H2. apply andb_prop in H2 as [H2 H3]. split; [exact (bool_decide_eq_true_1 _ H2)|exact (bool_decide_eq_true_1 _ H3)].
Qed.

Lemma event_names_roundtrip_witness : switch_name_event "SWITCH_EVENT_DTMF" = Some 36%nat.
Proof. refine (proj2 (event_names_roundtrip 36 "DTMF" _)). reflexivity. Defined.

(** Which events a binding gets that does not filter by file or function: those of its type, or all,
    and of those with its subclass if it has one. *)
Theorem match_plain event_id ev node : match node_subclass_name node with Some s => sub_prefix "file:" s = false /\ sub_prefix "func:" s = false | None => True end ->
  switch_events_match event_id ev node = true <->
  (node_event_id node = SWITCH_EVENT_ALL \/ node_event_id node = event_id) /\ (node_subclass_name node = None \/ node_subclass_name node = Event.subclass_name ev).
Proof.
  unfold switch_events_match. destruct (node_subclass_name node) as [s|]; [intros [H1 H2]; rewrite H1, H2|intros _];
    destruct (Nat.eqb_spec (node_event_id node) SWITCH_EVENT_ALL) as [Ea|Ea], (Nat.eqb_spec event_id (node_event_id node)) as [Ee|Ee]; cbn [orb];
    destruct (Event.subclass_name ev) as [sub|]; rewrite ?String.eqb_eq; split; intuition (try congruence).
Qed.

(** ** Findings *)

(** An owner that keeps the address of its binding uses freed memory when it removes a binding that
    was removed by callback. *)
Theorem unbind_after_callback : bus_run bus_init [OpBind "a" 5 None 1 0 true; OpUnbindCallback 1; OpUnbind 0] = None.
Proof. reflexivity. Qed.

(** Without memory for the reservation a binding to a subclass goes through a NULL pointer. *)
Theorem bind_without_memory : bus_run bus_init [OpBind "a" 0 (Some "x::y") 1 0 false] = None.
Proof. reflexivity. Qed.

(** An event of a subclass that was made in the file x.c. *)
Definition custom_event (sub : string) : switch_event :=
  let ev := Event.mk_event [] None None (Some sub) 0 0 in
  default ev (snd <$> Event.switch_event_add_header_string ev Event.SWITCH_STACK_BOTTOM "Event-Calling-File" (Some "x.c")).

(** A filter by file looks for a header that events do not have (the file is in
    Event-Calling-File): a binding to all events with one gets all events with a subclass,
    and one to a type gets none. *)
Theorem file_filter_useless sub a id : switch_event_get_header (custom_event sub) "file" = None /\
  switch_events_match 0 (custom_event sub) (mk_node a id SWITCH_EVENT_ALL (Some "file:x.c") 1 0) = true /\
  switch_events_match 0 (custom_event sub) (mk_node a id SWITCH_EVENT_CUSTOM (Some "file:x.c") 1 0) = false.
Proof. done. Qed.

(** A module that frees a subclass that another one has reserved does not free it but makes it free
    for anyone: the next reservation succeeds although the owner has not given it up. *)
Theorem foreign_free_releases : let b := (switch_event_reserve_subclass_detailed bus_init "owner" "x::y" true).2 in
  let b1 := (switch_event_free_subclass_detailed b "stranger" "x::y").2 in
  (switch_event_reserve_subclass_detailed b "third" "x::y" true).1 = SWITCH_STATUS_INUSE /\
  (switch_event_reserve_subclass_detailed b1 "third" "x::y" true).1 = SWITCH_STATUS_SUCCESS.
Proof. split; reflexivity. Qed.

End EventBus.
