(* ===== verification/EventChannels.v ===== *)
(** * Event channels (src/src/switch_event.c)

    Event channels carry JSON messages to subscribers by name: a table of lists of
    subscribers, delivery to a channel, its parents and the global channel, and the
    permissions of clients, which are kept in events.

    The operations run under the lock of the manager and are atomic.  A list of
    subscribers has the addresses of its nodes, because the head keeps a pointer to the
    last one, [tail], which the code follows.  The messages themselves are not part of the
    model: delivery gives the callbacks that are called, in order, with their data.  A
    function or data pointer is a number, NULL is zero.  [None] is the use of freed memory,
    a write behind a buffer or a failed assertion. *)

From S2P Require Import Prelude.
From S2P Require Import Text Event EventTheorems.
From stdpp Require Import strings gmap.
From Stdlib Require Import Ascii.

#[local] Open Scope string_scope.
#[local] Open Scope list_scope.
#[local] Open Scope Z_scope.

Module EventChannels.
Import Text.
Import Event (switch_event).

(** ** Data *)

Record sub_node := mk_sub { sub_addr : nat; sub_func : Z; sub_user_data : Z; sub_id : Z }.

Record sub_head := mk_head { head_node : list sub_node; head_tail : option nat }.

Record channel_manager := mk_manager { ID : Z; channel_hash : gmap string sub_head; perm_hash : gmap string switch_event; next_sub : nat }.

#[export] Instance rebuild_manager : Rebuild channel_manager := fun m => mk_manager (ID m) (channel_hash m) (perm_hash m) (next_sub m).
#[export] Instance set_ID : Setter ID := ltac:(derive_setter).
#[export] Instance set_channel_hash : Setter channel_hash := ltac:(derive_setter).
#[export] Instance set_perm_hash : Setter perm_hash := ltac:(derive_setter).
#[export] Instance set_next_sub : Setter next_sub := ltac:(derive_setter).

Definition manager_init : channel_manager := mk_manager 1 ∅ ∅ 0.

Definition SWITCH_EVENT_CHANNEL_GLOBAL : string := "__global__".

(** ** Subscribers *)

Definition sub_wanted (func user_data : Z) (n : sub_node) : bool :=
  (func =? 0) || ((sub_func n =? func) && ((sub_user_data n =? user_data) || (user_data =? 0))).

(** The loop from [np]: the number of subscribers removed, those that stay, the tail. *)
Fixpoint unsub_loop (func user_data : Z) (np : list sub_node) (tail : option nat) : Z * list sub_node * option nat :=
  match np with
  | [] => (0, [], tail)
  | n :: np =>
      if sub_wanted func user_data n then let '(x, l, tail) := unsub_loop func user_data np tail in (x + 1, l, tail)
      else let '(x, l, tail) := unsub_loop func user_data np (Some (sub_addr n)) in (x, n :: l, tail)
  end.

(** The tail is set to the first node before the loop, even if that is removed. *)
Definition switch_event_channel_unsub_head (func : Z) (h : sub_head) (user_data : Z) : Z * sub_head :=
  let '(x, l, tail) := unsub_loop func user_data (head_node h) (sub_addr <$> head (head_node h)) in (x, mk_head l tail).

(** [event_channel] is [None] for all channels. *)
Definition switch_event_channel_unsub_channel (m : channel_manager) (func : Z) (event_channel : option string) (user_data : Z) : Z * channel_manager :=
  match event_channel with
  | None =>
      (map_fold (fun _ h x => x + (switch_event_channel_unsub_head func h user_data).1) 0 (channel_hash m),
       m <| channel_hash := (fun h => (switch_event_channel_unsub_head func h user_data).2) <$> channel_hash m |>)
  | Some c =>
      match channel_hash m !! c with
      | Some h => let '(x, h) := switch_event_channel_unsub_head func h user_data in (x, m <| channel_hash := <[c := h]> (channel_hash m) |>)
      | None => (0, m)
      end
  end.

(** [tail->next = node]: what follows the tail is lost. *)
Fixpoint append_at (a : nat) (node : sub_node) (l : list sub_node) : option (list sub_node) :=
  match l with
  | [] => None
  | n :: l => if (sub_addr n =? a)%nat then Some [n; node] else l ← append_at a node l; Some (n :: l)
  end.

Definition switch_event_channel_sub_channel (m : channel_manager) (event_channel : string) (func id user_data : Z) : option (switch_status_t * channel_manager) :=
  let node := mk_sub (next_sub m) func user_data id in
  let added h := Some (SWITCH_STATUS_SUCCESS, m <| channel_hash := <[event_channel := h]> (channel_hash m) |> <| next_sub := S (next_sub m) |>) in
  match channel_hash m !! event_channel with
  | None => added (mk_head [node] (Some (sub_addr node)))
  | Some h =>
      if existsb (fun np => (sub_func np =? func) && (sub_user_data np =? user_data)) (head_node h) then Some (SWITCH_STATUS_FALSE, m)
      else
        match head_node h with
        | [] => added (mk_head [node] (Some (sub_addr node)))
        | l => t ← head_tail h; l ← append_at t node l; added (mk_head l (Some (sub_addr node)))
        end
  end.

(** The status, the id of the subscriber, which is given to a new one, and the manager. *)
Definition switch_event_channel_bind (m : channel_manager) (event_channel : string) (func id user_data : Z) : option (switch_status_t * Z * channel_manager) :=
  let '(id, m) := if id =? 0 then (ID m, m <| ID := u32 (ID m + 1) |>) else (id, m) in
  '(status, m) ← switch_event_channel_sub_channel m event_channel func id user_data;
  Some (status, id, m).

Definition switch_event_channel_unbind (m : channel_manager) (event_channel : option string) (func user_data : Z) : Z * channel_manager :=
  switch_event_channel_unsub_channel m func event_channel user_data.

(** All subscriptions and permissions are removed. *)
Definition unsub_all_switch_event_channel (m : channel_manager) : channel_manager := m <| perm_hash := ∅ |> <| channel_hash := ∅ |>.

(** ** Delivery *)

(** The sender [id] does not get its own message. *)
Definition channel_broadcast (m : channel_manager) (event_channel : string) (id : Z) : list (Z * Z) :=
  match channel_hash m !! event_channel with
  | Some h => map (fun np => (sub_func np, sub_user_data np)) (List.filter (fun np => negb (sub_id np =? id)) (head_node h))
  | None => []
  end.

(** switch_separate_string_string into an array of [S n] pieces.  The end of a piece is
    written over the delimiter, which for an empty one is the start of the next piece. *)
Fixpoint separate_string_string (n : nat) (delim buf : string) : list string :=
  match n with
  | O => [buf]
  | S n => match strstr delim buf with Some (a, b) => a :: separate_string_string n delim (if String.eqb delim "" then "" else b) | None => [buf] end
  end.

Definition SWITCH_CHANNEL_DISPATCH_MAX_KEY_PARTS : nat := 10.

(** The loop over the parents, the longest first: the first [i] parts, in a buffer of 1024
    bytes. *)
Fixpoint deliver_parents (m : channel_manager) (once : bool) (sep : string) (parts : list string) (id : Z) (i : nat) : option (list (Z * Z)) :=
  match i with
  | O => Some []
  | S n =>
      let buf := String.concat sep (take i parts) in
      if (1024 <=? String.length buf)%nat then None
      else
        let r := channel_broadcast m buf id in
        if negb (length r =? 0)%nat && once then Some r
        else rest ← deliver_parents m once sep parts id n; Some (r ++ rest)
  end.

(** What the core is configured to do. *)
Record delivery := mk_delivery { hierarchy : bool; delivery_once : bool; key_separator : string }.

Fixpoint before_dot (s : string) : option string :=
  match s with EmptyString => None | String c s => if Ascii.eqb c "." then Some "" else String c <$> before_dot s end.

Definition ecd_deliver (m : channel_manager) (d : delivery) (event_channel : string) (id : Z) : option (list (Z * Z)) :=
  let own := channel_broadcast m event_channel id in
  parents ← (if hierarchy d then
               let parts := separate_string_string (SWITCH_CHANNEL_DISPATCH_MAX_KEY_PARTS - 1) (key_separator d) event_channel in
               deliver_parents m (delivery_once d) (key_separator d) parts id (length parts - 1)
             else Some (match before_dot event_channel with Some key => channel_broadcast m key id | None => [] end));
  Some (own ++ parents ++ channel_broadcast m SWITCH_EVENT_CHANNEL_GLOBAL id).

(** ** Permissions *)

Definition switch_event_channel_permission_verify (m : channel_manager) (cookie event_channel : string) : bool :=
  match perm_hash m !! cookie with Some vals => switch_true (Event.switch_event_get_header vals event_channel) | None => false end.

Definition switch_event_channel_permission_modify (m : channel_manager) (cookie event_channel : string) (set : bool) : option channel_manager :=
  let change vals :=
    vals ← (if set then snd <$> Event.switch_event_add_header_string vals Event.SWITCH_STACK_BOTTOM event_channel (Some "true")
            else Event.switch_event_del_header vals event_channel);
    Some (m <| perm_hash := <[cookie := vals]> (perm_hash m) |>) in
  match perm_hash m !! cookie with
  | Some vals => change vals
  | None => if set then change (Event.switch_event_create_plain true) else Some m
  end.

Definition switch_event_channel_permission_clear (m : channel_manager) (cookie : string) : channel_manager :=
  m <| perm_hash := delete cookie (perm_hash m) |>.

(** ** What subscriptions promise *)

Inductive channel_op :=
  | OpSub (event_channel : string) (func id user_data : Z)
  | OpUnsub (event_channel : option string) (func user_data : Z)
  | OpUnsubAll.

Definition channel_step (m : channel_manager) (op : channel_op) : option channel_manager :=
  match op with
  | OpSub c func id user_data => '(_, _, m) ← switch_event_channel_bind m c func id user_data; Some m
  | OpUnsub c func user_data => Some (switch_event_channel_unbind m c func user_data).2
  | OpUnsubAll => Some (unsub_all_switch_event_channel m)
  end.

Fixpoint channel_run (m : channel_manager) (ops : list channel_op) : option channel_manager :=
  match ops with [] => Some m | op :: ops => m ← channel_step m op; channel_run m ops end.

(** The specification: the subscribers of each channel in the order of subscription, as function,
    data and id, and the next id. *)
Definition subscriber : Type := Z * Z * Z.

Definition gone (func user_data : Z) (s : subscriber) : bool :=
  (func =? 0) || ((s.1.1 =? func) && ((s.1.2 =? user_data) || (user_data =? 0))).

Definition spec_step (st : (string -> list subscriber) * Z) (op : channel_op) : (string -> list subscriber) * Z :=
  let '(subs, next) := st in
  match op with
  | OpSub c func id user_data =>
      let '(id, next) := if id =? 0 then (next, u32 (next + 1)) else (id, next) in
      (fun c' => if String.eqb c' c && negb (existsb (fun s => (s.1.1 =? func) && (s.1.2 =? user_data)) (subs c)) then subs c' ++ [(func, user_data, id)] else subs c', next)
  | OpUnsub c func user_data =>
      (fun c' => if match c with Some c => String.eqb c' c | None => true end then List.filter (fun s => negb (gone func user_data s)) (subs c') else subs c', next)
  | OpUnsubAll => (fun _ => [], next)
  end.

Definition spec_broadcast (subs : string -> list subscriber) (c : string) (id : Z) : list (Z * Z) := map fst (List.filter (fun s => negb (s.2 =? id)) (subs c)).

(** ** Refinement *)

Definition strip (n : sub_node) : subscriber := (sub_func n, sub_user_data n, sub_id n).

Record head_ok (next : nat) (h : sub_head) : Prop := mk_head_ok {
  hk_nodup : NoDup (map sub_addr (head_node h));
  hk_old : Forall (fun n => (sub_addr n < next)%nat) (head_node h);
  hk_tail : head_node h <> [] -> head_tail h = sub_addr <$> last (head_node h) }.

Record subscribed (m : channel_manager) (st : (string -> list subscriber) * Z) : Prop := mk_subscribed {
  sb_heads : map_Forall (fun _ h => head_ok (next_sub m) h) (channel_hash m);
  sb_subs : forall c, st.1 c = map strip (default [] (head_node <$> channel_hash m !! c));
  sb_id : ID m = st.2 }.

Lemma unsub_loop_spec func ud np tail : exists x, unsub_loop func ud np tail =
  (x, List.filter (fun n => negb (sub_wanted func ud n)) np, match last (List.filter (fun n => negb (sub_wanted func ud n)) np) with Some n => Some (sub_addr n) | None => tail end).
Proof.
  revert tail. induction np as [|n np IH]; intros tail; [by eexists|]. cbn [unsub_loop List.filter]. destruct (sub_wanted func ud n); cbn [negb].
  - destruct (IH tail) as (x & ->). by eexists.
  - destruct (IH (Some (sub_addr n))) as (x & ->). eexists. f_equal. rewrite last_cons. by destruct (last _).
Qed.

Lemma unsub_head_spec func ud h next : head_ok next h ->
  head_ok next (switch_event_channel_unsub_head func h ud).2 /\
  map strip (head_node (switch_event_channel_unsub_head func h ud).2) = List.filter (fun s => negb (gone func ud s)) (map strip (head_node h)).
Proof.
  intros [Hd Ho Ht]. unfold switch_event_channel_unsub_head. destruct (unsub_loop_spec func ud (head_node h) (sub_addr <$> head (head_node h))) as (x & ->). cbn [fst snd]. split.
  - constructor; cbn [head_node head_tail]; [by apply filter_nodup|by apply filter_keeps|]. intros Hne. destruct (last (List.filter _ _)) eqn:E; [reflexivity|]. by apply last_None in E.
  - cbn [head_node]. clear. induction (head_node h) as [|n l IH]; [done|]. cbn [List.filter map]. change (gone func ud (strip n)) with (sub_wanted func ud n).
    destruct (sub_wanted func ud n); cbn [negb map]; by rewrite IH.
Qed.

Lemma append_at_last a node l : NoDup (map sub_addr l) -> sub_addr <$> last l = Some a -> append_at a node l = Some (l ++ [node]).
Proof.
  induction l as [|n l IH]; [done|]. intros Hd Hl. cbn [append_at map] in *. apply NoDup_cons in Hd as [Hn Hd]. destruct l as [|n' l].
  - cbn in Hl. injection Hl as <-. by rewrite Nat.eqb_refl.
  - rewrite last_cons_cons in Hl. destruct (Nat.eqb_spec (sub_addr n) a) as [Ea|_]; [|by rewrite IH].
    destruct Hn. apply fmap_Some in Hl as (x & Hx & Exa). rewrite Ea, Exa. apply last_Some_elem_of in Hx. by apply (list_elem_of_fmap_2 sub_addr).
Qed.

Lemma head_ok_next next h : head_ok next h -> head_ok (S next) h.
Proof. intros [Hd Ho Ht]. constructor; [done| |done]. eapply Forall_impl; [done|]. cbn. lia. Qed.

Lemma head_append next h node : head_ok next h -> head_node h <> [] -> sub_addr node = next -> head_ok (S next) (mk_head (head_node h ++ [node]) (Some next)).
Proof.
  intros [Hd Ho Ht] Hne Hn. constructor; cbn [head_node head_tail].
  - rewrite map_app. apply NoDup_app. split_and!; [done| |apply NoDup_singleton]. intros a Ha Hx. apply list_elem_of_singleton in Hx. subst a.
    apply list_elem_of_fmap in Ha as (x & Hxa & Hx). pose proof (proj1 (Forall_forall _ _) Ho x Hx). cbn in *. lia.
  - apply Forall_app. split; [eapply Forall_impl; [done|]; cbn; lia|]. constructor; [lia|constructor].
  - intros _. rewrite last_snoc. cbn. by rewrite Hn.
Qed.

Lemma strip_exists func ud l : existsb (fun np => (sub_func np =? func) && (sub_user_data np =? ud)) l = existsb (fun s => (s.1.1 =? func) && (s.1.2 =? ud)) (map strip l).
Proof. induction l as [|n l IH]; [done|]. cbn. by rewrite IH. Qed.

Lemma sub_channel_spec m subs next c func id ud : subscribed m (subs, next) ->
  exists s m', switch_event_channel_sub_channel m c func id ud = Some (s, m') /\ ID m' = ID m /\
    subscribed m' (fun c' => if String.eqb c' c && negb (existsb (fun s => (s.1.1 =? func) && (s.1.2 =? ud)) (subs c)) then subs c' ++ [(func, ud, id)] else subs c', next).
Proof.
  intros [Hh Hs Hi]. cbn [fst snd] in *. unfold switch_event_channel_sub_channel. set (node := mk_sub (next_sub m) func ud id).
  assert (forall h old, channel_hash m !! c = old -> head_ok (S (next_sub m)) h -> map strip (head_node h) = map strip (default [] (head_node <$> old)) ++ [(func, ud, id)] ->
    existsb (fun s => (s.1.1 =? func) && (s.1.2 =? ud)) (subs c) = false ->
    subscribed (m <| channel_hash := <[c := h]> (channel_hash m) |> <| next_sub := S (next_sub m) |>)
      (fun c' => if String.eqb c' c && negb (existsb (fun s => (s.1.1 =? func) && (s.1.2 =? ud)) (subs c)) then subs c' ++ [(func, ud, id)] else subs c', next)) as Hadd.
  { intros h old Hold Hok Hnew ->. constructor; cbn; [|intros c'; rewrite andb_true_r|done].
    - apply map_Forall_insert_2; [done|]. eapply map_Forall_impl; [exact Hh|]. intros ? ?. apply head_ok_next.
    - destruct (String.eqb_spec c' c) as [->|Hne]; [|by rewrite lookup_insert_ne by done].
      rewrite lookup_insert_eq, Hs, Hold. symmetry. exact Hnew. }
  assert (existsb (fun s => (s.1.1 =? func) && (s.1.2 =? ud)) (subs c) = existsb (fun np => (sub_func np =? func) && (sub_user_data np =? ud)) (default [] (head_node <$> channel_hash m !! c))) as Hex
    by (rewrite Hs; symmetry; apply strip_exists).
  assert (head_ok (S (next_sub m)) (mk_head [node] (Some (sub_addr node)))) as Hone.
  { constructor; cbn; [apply NoDup_singleton|constructor; [subst node; cbn; lia|constructor]|done]. }
  destruct (channel_hash m !! c) as [h|] eqn:Ec; cbn [fmap option_fmap option_map default from_option] in Hex.
  - destruct (existsb _ (head_node h)) eqn:E.
    { eexists _, _. split; [done|]. split; [done|]. rewrite (eq_trans Hex E). constructor; [done|cbn [fst negb]; intros c'; by rewrite andb_false_r|done]. }
    pose proof (eq_trans Hex E) as Hnone. pose proof (map_Forall_lookup_1 _ _ _ _ Hh Ec) as Hok. destruct (head_node h) as [|n l] eqn:El.
    + eexists _, _. split; [done|]. split; [done|]. eapply Hadd; [reflexivity|exact Hone|cbn; by rewrite El|done].
    + assert (head_node h <> []) as Hne by (by rewrite El). pose proof (hk_tail _ _ Hok Hne) as Ht. destruct (head_tail h) as [a|]; [|rewrite El, last_cons in Ht; by destruct (last l)].
      cbn [mbind option_bind]. rewrite <- El, (append_at_last a node (head_node h) (hk_nodup _ _ Hok) (eq_sym Ht)). cbn [mbind option_bind]. eexists _, _. split; [done|]. split; [done|].
      eapply Hadd; [reflexivity|by apply head_append|cbn; by rewrite map_app|done].
  - eexists _, _. split; [done|]. split; [done|]. eapply Hadd; [reflexivity|exact Hone|done|done].
Qed.

Lemma subscribed_id m subs next i : subscribed m (subs, next) -> subscribed (m <| ID := i |>) (subs, i).
Proof. intros [Hh Hs _]. by constructor. Qed.

Lemma channel_step_spec m st op : subscribed m st -> exists m', channel_step m op = Some m' /\ subscribed m' (spec_step st op).
Proof.
  destruct st as [subs next]. intros HS. destruct op as [c func id ud|c func ud|]; cbn [channel_step spec_step].
  - unfold switch_event_channel_bind. pose proof (sb_id _ _ HS) as Hid. cbn [snd] in Hid. destruct (id =? 0).
    + destruct (sub_channel_spec (m <| ID := u32 (ID m + 1) |>) subs (u32 (ID m + 1)) c func (ID m) ud) as (s & m' & -> & _ & H); [by eapply subscribed_id|].
      cbn [mbind option_bind]. exists m'. split; [done|]. by rewrite <- Hid.
    + destruct (sub_channel_spec m subs next c func id ud HS) as (s & m' & -> & _ & H). cbn [mbind option_bind]. by exists m'.
  - eexists. split; [done|]. destruct HS as [Hh Hs Hi]. cbn [fst snd] in *. unfold switch_event_channel_unbind, switch_event_channel_unsub_channel. destruct c as [c|].
    + destruct (channel_hash m !! c) as [h|] eqn:Ec.
      * destruct (unsub_head_spec func ud h (next_sub m) (map_Forall_lookup_1 _ _ _ _ Hh Ec)) as [H1 H2]. destruct (switch_event_channel_unsub_head func h ud) as [x h']. cbn [fst snd] in *.
        constructor; cbn; [by apply map_Forall_insert_2| |done]. intros c'. destruct (String.eqb_spec c' c) as [->|Hne]; [|by rewrite lookup_insert_ne by done].
        rewrite lookup_insert_eq, Hs, Ec. cbn. by rewrite H2.
      * constructor; cbn; [done| |done]. intros c'. destruct (String.eqb_spec c' c) as [->|Hne]; [|done]. by rewrite Hs, Ec.
    + constructor; cbn; [| |done].
      * intros c h. rewrite lookup_fmap. intros (h0 & E & ->)%fmap_Some. by apply unsub_head_spec, (map_Forall_lookup_1 _ _ _ _ Hh E).
      * intros c. rewrite lookup_fmap, Hs. destruct (channel_hash m !! c) as [h|] eqn:E; [|done]. cbn. symmetry. by apply (unsub_head_spec func ud h (next_sub m)), (map_Forall_lookup_1 _ _ _ _ Hh E).
  - eexists. split; [done|]. constructor; cbn; [by apply map_Forall_empty|done|by destruct HS].
Qed.

(** ** Theorems *)

(** C34. Messages reach exactly the subscribers: any sequence of subscriptions, removals from one or all
    channels and resets succeeds without ever following a stale tail pointer, and then a
    message to a channel calls each function with each of its data once, in the order of
    subscription, except for the sender. *)
Theorem channel_refines ops : exists m, channel_run manager_init ops = Some m /\
  forall c id, channel_broadcast m c id = spec_broadcast (foldl spec_step (fun _ => [], 1) ops).1 c id.
Proof.
  assert (subscribed manager_init (fun _ => [], 1)) as H0 by (constructor; [apply map_Forall_empty|done|done]).
  revert H0. generalize manager_init (fun _ : string => @nil subscriber, 1). induction ops as [|op ops IH]; intros m st HS.
  - exists m. split; [done|]. intros c id. unfold spec_broadcast, channel_broadcast. cbn [foldl]. rewrite (sb_subs _ _ HS). destruct (channel_hash m !! c) as [h|]; [|done]. cbn.
    induction (head_node h) as [|n l IHl]; [done|]. cbn. destruct (sub_id n =? id); cbn; by rewrite IHl.
  - cbn [channel_run foldl]. destruct (channel_step_spec m st op HS) as (m' & -> & HS'). cbn [mbind option_bind]. by apply IH.
Qed.

(** ** Delivery to the parents *)

Fixpoint free_of (sep : ascii) (s : string) : bool := match s with EmptyString => true | String c s => negb (Ascii.eqb c sep) && free_of sep s end.

Lemma strstr_found sep p s : free_of sep p = true -> strstr (String sep "") (p +:+ String sep s) = Some (p, s).
Proof.
  induction p as [|c p IH]; cbn [free_of].
  - intros _. change (strstr (String sep "") (String sep s) = Some ("", s)). cbn [strstr String.prefix]. destruct (Ascii.ascii_dec sep sep); [|done].
    replace (String.prefix "" s) with true by (by destruct s). change (Some ("", String.substring 0 (String.length s - 0) s) = Some ("", s)). by rewrite Nat.sub_0_r, substring_all.
  - intros [Hc%negb_true_iff Hp]%andb_true_iff. change (String c p +:+ ?t) with (String c (p +:+ t)). cbn [strstr String.prefix].
    destruct (Ascii.ascii_dec sep c) as [->|_]; [by rewrite Ascii.eqb_refl in Hc|]. by rewrite IH.
Qed.

Lemma strstr_none sep p : free_of sep p = true -> strstr (String sep "") p = None.
Proof.
  induction p as [|c p IH]; cbn [free_of]; [done|]. intros [Hc%negb_true_iff Hp]%andb_true_iff. cbn [strstr String.prefix].
  destruct (Ascii.ascii_dec sep c) as [->|_]; [by rewrite Ascii.eqb_refl in Hc|]. by rewrite IH.
Qed.

(** Splitting undoes joining. *)
Lemma separate_concat sep parts : forall n, parts <> [] -> (length parts <= S n)%nat -> forallb (free_of sep) parts = true ->
  separate_string_string n (String sep "") (String.concat (String sep "") parts) = parts.
Proof.
  induction parts as [|p parts IH]; intros n Hne Hl Hf; [done|]. cbn [forallb] in Hf. apply andb_true_iff in Hf as [Hp Hf]. destruct parts as [|q parts].
  - cbn [String.concat]. destruct n as [|n]; cbn [separate_string_string]; [done|]. by rewrite strstr_none.
  - destruct n as [|n]; [cbn in Hl; lia|]. cbn [separate_string_string]. change (String.concat (String sep "") (p :: q :: parts)) with (p +:+ String sep (String.concat (String sep "") (q :: parts))).
    rewrite strstr_found by done. cbn [String.eqb]. rewrite IH; [done|done|cbn in *; lia|done].
Qed.

Lemma concat_take_length sep parts i : (String.length (String.concat sep (take i parts)) <= String.length (String.concat sep parts))%nat.
Proof.
  revert i. induction parts as [|p parts IH]; intros [|i]; [done|done|cbn; lia|]. cbn [take]. specialize (IH i).
  destruct parts as [|q parts]; [by rewrite take_nil|]. destruct i as [|i]; cbn [take] in *.
  - cbn [String.concat]. rewrite !append_length. lia.
  - change (String.concat sep (p :: q :: ?l)) with (p +:+ sep +:+ String.concat sep (q :: l)) in *. cbn [String.concat]. rewrite !append_length. cbn [String.concat] in IH. lia.
Qed.

Definition prefix_calls (m : channel_manager) (sep : string) (parts : list string) (id : Z) (i : nat) : list (Z * Z) := channel_broadcast m (String.concat sep (take i parts)) id.

Lemma deliver_parents_all m sep parts id i : (String.length (String.concat sep parts) < 1024)%nat ->
  deliver_parents m false sep parts id i = Some (flat_map (prefix_calls m sep parts id) (rev (seq 1 i))).
Proof.
  intros Hl. induction i as [|i IH]; [done|]. cbn [deliver_parents]. pose proof (concat_take_length sep parts (S i)).
  destruct (Nat.leb_spec 1024 (String.length (String.concat sep (take (S i) parts)))); [lia|]. rewrite andb_false_r, IH. cbn [mbind option_bind].
  rewrite seq_S, rev_app_distr. done.
Qed.

(** A message to a channel of at most ten parts and 1023 bytes goes to the channel, then to each of
    its parents, the nearest first, then to the global channel. *)
Theorem deliver_hierarchy m sep parts id :
  parts <> [] -> (length parts <= SWITCH_CHANNEL_DISPATCH_MAX_KEY_PARTS)%nat -> forallb (free_of sep) parts = true -> (String.length (String.concat (String sep "") parts) < 1024)%nat ->
  ecd_deliver m (mk_delivery true false (String sep "")) (String.concat (String sep "") parts) id
  = Some (flat_map (prefix_calls m (String sep "") parts id) (rev (seq 1 (length parts))) ++ channel_broadcast m SWITCH_EVENT_CHANNEL_GLOBAL id).
Proof.
  intros Hne Hl Hf Hs. unfold ecd_deliver. cbn [hierarchy delivery_once key_separator]. rewrite separate_concat by done. rewrite deliver_parents_all by done. cbn [mbind option_bind].
  destruct (length parts) as [|k] eqn:E; [by destruct parts|]. rewrite seq_S, rev_app_distr. cbn [rev app flat_map Nat.add]. unfold prefix_calls at 2. rewrite <- E, take_ge by done.
  rewrite E. replace (S k - 1)%nat with k by lia. by rewrite app_assoc.
Qed.

Lemma deliver_hierarchy_witness :
  (m ← channel_run manager_init [OpSub "a" 5 0 1; OpSub "a.b" 6 0 2; OpSub "a.b.c" 7 9 3; OpSub SWITCH_EVENT_CHANNEL_GLOBAL 8 0 4]; ecd_deliver m (mk_delivery true false ".") "a.b.c" 9)
  = Some [(6, 2); (5, 1); (8, 4)].
Proof.
  destruct (channel_run _ _) as [m|] eqn:E; [|vm_compute in E; done]. cbn [mbind option_bind]. etransitivity.
  - apply (deliver_hierarchy m "."%char ["a"; "b"; "c"] 9); [done|vm_compute; lia|done|vm_compute; lia].
  - vm_compute in E. injection E as <-. reflexivity.
Defined.

(** The name of a parent is built in a buffer of 1024 bytes without a check. *)
Theorem deliver_overflow : ecd_deliver manager_init (mk_delivery true false ".") (String.concat "." [String.concat "" (replicate 1024 "a"); "b"]) 0 = None.
Proof. vm_compute. reflexivity. Qed.

(** ** What permissions promise *)

Inductive perm_op :=
  | OpModify (cookie event_channel : string) (set : bool)
  | OpClear (cookie : string).

Definition perm_step (m : channel_manager) (op : perm_op) : option channel_manager :=
  match op with
  | OpModify cookie c set => switch_event_channel_permission_modify m cookie c set
  | OpClear cookie => Some (switch_event_channel_permission_clear m cookie)
  end.

Fixpoint perm_run (m : channel_manager) (ops : list perm_op) : option channel_manager :=
  match ops with [] => Some m | op :: ops => m ← perm_step m op; perm_run m ops end.

(** The specification: the last word on a client and a channel, without regard to case. *)
Definition spec_perm (granted : string -> string -> bool) (op : perm_op) : string -> string -> bool :=
  fun cookie c =>
    match op with
    | OpModify cookie' c' set => if String.eqb cookie cookie' && String.eqb (lower c) (lower c') then set else granted cookie c
    | OpClear cookie' => negb (String.eqb cookie cookie') && granted cookie c
    end.

(** Names that an event keeps as one header: not an element of an array and not the body. *)
Definition plain_name (c : string) : bool :=
  match Event.split_bracket c with (k, None) => String.eqb k c && negb (String.eqb c "_body") | _ => false end.

Definition perm_plain (op : perm_op) : bool := match op with OpModify _ c _ => plain_name c | OpClear _ => true end.

Import EventTheorems (event_ok, vars).

Record perms_ok (n : Z) (vals : switch_event) : Prop := mk_perms_ok {
  pk_ok : event_ok vals;
  pk_uniq : Event.uniq vals = true;
  pk_size : Z.of_nat (length (Event.headers vals)) <= n;
  pk_true : map_Forall (fun _ v => v = ("true", [])) (vars vals) }.

Definition allowed (vals : switch_event) (c : string) : bool := bool_decide (is_Some (vars vals !! lower c)).

Record permitted (n : Z) (m : channel_manager) (granted : string -> string -> bool) : Prop := mk_permitted {
  pm_vals : map_Forall (fun _ => perms_ok n) (perm_hash m);
  pm_granted : forall cookie c, granted cookie c = match perm_hash m !! cookie with Some vals => allowed vals c | None => false end }.

Lemma plain_split c : plain_name c = true -> Event.split_bracket c = (c, None) /\ c <> "_body".
Proof.
  unfold plain_name. destruct (Event.split_bracket c) as [k [|]]; [done|]. intros [->%String.eqb_eq Hb%negb_true_iff]%andb_true_iff. split; [done|]. by apply String.eqb_neq in Hb.
Qed.

(** One change to the permissions of a client. *)
Lemma change_spec n vals c (set : bool) : perms_ok n vals -> n < 1000000 -> plain_name c = true ->
  exists vals', (if set then snd <$> Event.switch_event_add_header_string vals Event.SWITCH_STACK_BOTTOM c (Some "true") else Event.switch_event_del_header vals c) = Some vals'
    /\ perms_ok (n + 1) vals' /\ forall c', allowed vals' c' = if String.eqb (lower c') (lower c) then set else allowed vals c'.
Proof.
  intros [Hok Hu Hl Ht] Hn Hc. destruct (plain_split c Hc) as [Hs _].
  destruct (EventTheorems.run_op_spec vals (if set then EventTheorems.AddHeader Event.SWITCH_STACK_BOTTOM c "true" else EventTheorems.DelHeader c) Hok Hu ltac:(lia))
    as (vals' & E & Hok' & Hv & Hu' & Hl').
  exists vals'. split; [by destruct set|].
  assert (vars vals' = if set then <[lower c := ("true", [])]> (vars vals) else delete (lower c) (vars vals)) as Hv'.
  { rewrite Hv. destruct set; cbn [EventTheorems.map_op]; [|done]. rewrite Hs. by apply EventTheorems.alter_insert_entry. }
  split.
  - constructor; [done|done|lia|]. rewrite Hv'. destruct set; [by apply map_Forall_insert_2|by apply map_Forall_delete].
  - intros c'. unfold allowed. rewrite Hv'. destruct (String.eqb_spec (lower c') (lower c)) as [->|Hne].
    + destruct set; [rewrite lookup_insert_eq; by apply bool_decide_eq_true_2|rewrite lookup_delete_eq; apply bool_decide_eq_false_2; by intros [? ?]].
    + destruct set; [by rewrite lookup_insert_ne|by rewrite lookup_delete_ne].
Qed.

Lemma perms_more n n' vals : perms_ok n vals -> n <= n' -> perms_ok n' vals.
Proof. intros [Hok Hu Hl Ht] Hn. constructor; [done|done|lia|done]. Qed.

Lemma perm_set n m granted cookie c set old vals : permitted n m granted ->
  (forall c, (match perm_hash m !! cookie with Some vals => allowed vals c | None => false end) = allowed old c) -> perms_ok (n + 1) vals ->
  (forall c', allowed vals c' = if String.eqb (lower c') (lower c) then set else allowed old c') ->
  permitted (n + 1) (m <| perm_hash := <[cookie := vals]> (perm_hash m) |>) (spec_perm granted (OpModify cookie c set)).
Proof.
  intros [Hv Hg] Hold Hvals Hall. constructor; cbn [perm_hash spec_perm].
  - apply map_Forall_insert_2; [done|]. eapply map_Forall_impl; [exact Hv|]. intros ? vals' H. eapply perms_more; [exact H|lia].
  - intros k c'. destruct (String.eqb_spec k cookie) as [->|Hne].
    + cbn. rewrite lookup_insert_eq, Hall, Hg, Hold. done.
    + cbn. rewrite lookup_insert_ne by done. apply Hg.
Qed.

Lemma perm_step_spec n m granted op : permitted n m granted -> 0 <= n < 1000000 -> perm_plain op = true ->
  exists m', perm_step m op = Some m' /\ permitted (n + 1) m' (spec_perm granted op).
Proof.
  intros HP Hn Hop. pose proof HP as [Hv Hg]. destruct op as [cookie c set|cookie]; cbn [perm_step perm_plain] in *.
  - unfold switch_event_channel_permission_modify. destruct (perm_hash m !! cookie) as [vals|] eqn:Ek.
    + destruct (change_spec n vals c set (map_Forall_lookup_1 _ _ _ _ Hv Ek) (proj2 Hn) Hop) as (vals' & -> & Hok & Hall). eexists. split; [done|].
      eapply perm_set; [done| |done|exact Hall]. by rewrite Ek.
    + assert (perms_ok n (Event.switch_event_create_plain true)) as Hnew.
      { constructor; [apply EventTheorems.fresh_ok|done|cbn; lia|apply map_Forall_empty]. }
      destruct set.
      * destruct (change_spec n _ c true Hnew (proj2 Hn) Hop) as (vals' & -> & Hok & Hall). eexists. split; [done|].
        eapply perm_set; [done| |done|exact Hall]. by rewrite Ek.
      * eexists. split; [done|]. constructor; [eapply map_Forall_impl; [exact Hv|]; intros ? ? H; eapply perms_more; [exact H|lia]|].
        intros k c'. cbn [spec_perm]. destruct (String.eqb_spec k cookie) as [->|_]; [|apply Hg]. cbn. destruct (String.eqb _ _); [by rewrite Ek|apply Hg].
  - eexists. split; [done|]. constructor; cbn.
    + apply map_Forall_delete. eapply map_Forall_impl; [exact Hv|]. intros ? ? H. eapply perms_more; [exact H|lia].
    + intros k c'. destruct (String.eqb_spec k cookie) as [->|Hne]; [by rewrite lookup_delete_eq|]. rewrite lookup_delete_ne by done. apply Hg.
Qed.

Lemma verify_allowed n vals c : perms_ok n vals -> plain_name c = true -> switch_true (Event.switch_event_get_header vals c) = allowed vals c.
Proof.
  intros [Hok _ _ Ht] Hc. destruct (plain_split c Hc) as [_ Hb]. unfold Event.switch_event_get_header, allowed. rewrite (EventTheorems.get_header_vars vals c (-1) Hok Hb).
  destruct (vars vals !! lower c) as [[v a]|] eqn:E; [|symmetry; apply bool_decide_eq_false_2; by intros [? ?]].
  pose proof (map_Forall_lookup_1 _ _ _ _ Ht E) as H. cbn in H. injection H as -> ->. symmetry. by apply bool_decide_eq_true_2.
Qed.

Lemma perm_run_spec ops : forall n m granted, permitted n m granted -> 0 <= n -> n + Z.of_nat (length ops) <= 1000000 -> forallb perm_plain ops = true ->
  exists m' n', perm_run m ops = Some m' /\ permitted n' m' (foldl spec_perm granted ops).
Proof.
  induction ops as [|op ops IH]; intros n m granted HP Hn Hl Hf; [by eexists m, n|]. cbn [length forallb perm_run foldl] in *. apply andb_true_iff in Hf as [Ho Hf].
  destruct (perm_step_spec n m granted op HP ltac:(lia) Ho) as (m' & -> & HP'). cbn [mbind option_bind]. apply (IH (n + 1)); [done|lia|lia|done].
Qed.

(** Permissions are what was granted last: after any sequence of at most a million grants,
    revocations and clearings on plain names, a client has permission for a channel if and only if the
    last change for it, without regard to the case of the channel, was a grant; no client ever
    gains or loses permissions by a change to another. *)
Theorem permissions_hold ops cookie c :
  Z.of_nat (length ops) <= 1000000 -> forallb perm_plain ops = true -> plain_name c = true ->
  exists m, perm_run manager_init ops = Some m /\ switch_event_channel_permission_verify m cookie c = foldl spec_perm (fun _ _ => false) ops cookie c.
Proof.
  intros Hl Hf Hc. destruct (perm_run_spec ops 0 manager_init (fun _ _ => false)) as (m & n & Em & [Hv Hg]); [by constructor|lia|lia|done|].
  exists m. split; [done|]. rewrite Hg. unfold switch_event_channel_permission_verify. destruct (perm_hash m !! cookie) as [vals|] eqn:E; [|done].
  eapply verify_allowed; [exact (map_Forall_lookup_1 _ _ _ _ Hv E)|done].
Qed.

Lemma permissions_hold_witness : exists m, perm_run manager_init [OpModify "a" "room" true; OpModify "b" "ROOM" true; OpModify "a" "Room" false] = Some m
  /\ switch_event_channel_permission_verify m "b" "room" = true.
Proof. exact (permissions_hold [OpModify "a" "room" true; OpModify "b" "ROOM" true; OpModify "a" "Room" false] "b" "room" ltac:(cbn; lia) eq_refl eq_refl). Defined.

(** A permission for the channel "_body" cannot be revoked: it is kept as the body of the
    event too, which stays. *)
Theorem perm_body_stays : exists m, perm_run manager_init [OpModify "a" "_body" true; OpModify "a" "_body" false] = Some m
  /\ switch_event_channel_permission_verify m "a" "_body" = true.
Proof. eexists. split; [vm_compute; reflexivity|vm_compute; reflexivity]. Qed.

End EventChannels.
