(* ===== verification/Http.v ===== *)
(** * HTTP requests (src/src/switch_utils.c, src/src/include/switch_utils.h)

    switch_http_parse_header with what it calls: the cleaning of the path, the query string
    and the lines of the header.

    The parser works in a copy of the buffer and cuts it into C strings in place; the model gives the
    strings that the request points to afterwards.  The buffer is a C string, [datalen] its
    length.  clean_uri writes the cleaned path over the path it reads from; each
    segment is written before the place it is read from, by sprintf, which is taken to copy
    forwards.  [None] is a read behind the end of a string, as when switch_separate_string is
    given one that ends with a backslash, or a failed allocation of an event header. *)

From S2P Require Import Prelude.
From S2P Require Import Text Url Event EventTheorems.
From stdpp Require Import strings gmap.
From Stdlib Require Import Ascii.

#[local] Open Scope string_scope.
#[local] Open Scope list_scope.
#[local] Open Scope Z_scope.

Module Http.
Import Text.
Import Event (switch_event, switch_event_add_header_string, SWITCH_STACK_BOTTOM).

(** ** Data *)

Record switch_http_request := mk_request {
  method : string; uri : string; qs : option string; host : option string; port : Z; user_agent : option string; referer : option string;
  keepalive : bool; content_type : option string; content_length : Z; bytes_header : Z; bytes_read : Z; bytes_buffered : Z;
  req_headers : option switch_event; destroy_headers : bool }.

#[export] Instance rebuild_request : Rebuild switch_http_request := fun r =>
  mk_request (method r) (uri r) (qs r) (host r) (port r) (user_agent r) (referer r) (keepalive r) (content_type r) (content_length r)
    (bytes_header r) (bytes_read r) (bytes_buffered r) (req_headers r) (destroy_headers r).
#[export] Instance set_method : Setter method := ltac:(derive_setter).
#[export] Instance set_uri : Setter uri := ltac:(derive_setter).
#[export] Instance set_qs : Setter qs := ltac:(derive_setter).
#[export] Instance set_host : Setter host := ltac:(derive_setter).
#[export] Instance set_port : Setter port := ltac:(derive_setter).
#[export] Instance set_user_agent : Setter user_agent := ltac:(derive_setter).
#[export] Instance set_referer : Setter referer := ltac:(derive_setter).
#[export] Instance set_keepalive : Setter keepalive := ltac:(derive_setter).
#[export] Instance set_content_type : Setter content_type := ltac:(derive_setter).
#[export] Instance set_content_length : Setter content_length := ltac:(derive_setter).
#[export] Instance set_bytes_header : Setter bytes_header := ltac:(derive_setter).
#[export] Instance set_bytes_read : Setter bytes_read := ltac:(derive_setter).
#[export] Instance set_bytes_buffered : Setter bytes_buffered := ltac:(derive_setter).
#[export] Instance set_req_headers : Setter req_headers := ltac:(derive_setter).
#[export] Instance set_destroy_headers : Setter destroy_headers := ltac:(derive_setter).

(** [Refused]: the request is not touched.  [Freed]: some of its fields have been set, but what they
    point to has been freed.  Both return SWITCH_STATUS_FALSE. *)
Inductive http_result := Refused | Freed | Parsed (request : switch_http_request).

Definition cr : ascii := "013".
Definition lf : ascii := "010".

(** strchr and a cut: the text before the first [c] and after it. *)
Fixpoint cut_at (c : ascii) (s : string) : option (string * string) :=
  match s with EmptyString => None | String x s => if Ascii.eqb x c then Some ("", s) else '(a, b) ← cut_at c s; Some (String x a, b) end.

(** Repeated strchr and cut: the pieces between the [d]s. *)
Fixpoint split_on (d : ascii) (s : string) : list string :=
  match s with
  | EmptyString => [""]
  | String c s => if Ascii.eqb c d then "" :: split_on d s else match split_on d s with p :: l => String c p :: l | [] => [] end
  end.

(** ** The path *)

(** [kept] are the segments from argv[1] to argv[last - 1], the last one first. *)
Definition clean_segment (kept : list string) (segment : string) : list string :=
  if String.eqb segment "" || String.eqb segment "." then kept
  else if String.eqb segment ".." then tail kept
  else segment :: kept.

Definition path_of (segments : list string) : string := String.concat "" (map (String.append "/") segments).

(** The caller has seen to it that the path starts with a slash, which is the end of
    the string if no segment is kept. *)
Definition clean_uri (uri : string) : option (switch_status_t * string) :=
  argv ← switch_separate_string (Some uri) "/" 64;
  if (length argv =? 64 * 8)%nat then Some (SWITCH_STATUS_FALSE, "")
  else Some (SWITCH_STATUS_SUCCESS, path_of (rev (foldl clean_segment [] (tail argv)))).

(** ** The query string *)

Fixpoint plus_to_blank (s : string) : string :=
  match s with EmptyString => "" | String c s => String (if Ascii.eqb c "+" then blank else c) (plus_to_blank s) end.

Definition parse_piece (headers : switch_event) (q : string) : option switch_event :=
  match cut_at "=" (Url.switch_url_decode (plus_to_blank q)) with
  | Some (name, val) => snd <$> switch_event_add_header_string headers SWITCH_STACK_BOTTOM name (Some val)
  | None => Some headers
  end.

(** The loop, over the pieces between ampersands. *)
Fixpoint parse_qs_loop (headers : switch_event) (l : list string) : option switch_event :=
  match l with [] => Some headers | q :: l => headers ← parse_piece headers q; parse_qs_loop headers l end.

(** [qs] is the string given or a copy of that of the request. *)
Definition switch_http_parse_qs (headers : switch_event) (qs : string) : option switch_event := parse_qs_loop headers (split_on "&" qs).

(** ** The header *)

Definition starts_ci (header name : string) : bool := strcasecmp_eq (String.substring 0 (String.length name) header) name.

Fixpoint strip_cr (s : string) : string :=
  match s with EmptyString => "" | String c EmptyString => if Ascii.eqb c cr then "" else s | String c s => String c (strip_cr s) end.

(** The fields that are set for some headers. *)
Definition set_field (r : switch_http_request) (header value : string) : switch_http_request :=
  if starts_ci header "User-Agent" then r <| user_agent := Some value |>
  else if starts_ci header "Host" then
    match cut_at ":" value with
    | Some (h, p) => (if String.eqb p "" then r else r <| port := u16 (atoi p) |>) <| host := Some h |>
    | None => r <| host := Some value |>
    end
  else if starts_ci header "Content-Type" then r <| content_type := Some value |>
  else if starts_ci header "Content-Length" then r <| content_length := u64 (atoi value) |>
  else if starts_ci header "Referer" then r <| referer := Some value |>
  else r.

(** One line; [Some None] is the error. *)
Definition parse_line (r : switch_http_request) (line : string) : option (option switch_http_request) :=
  argv ← switch_separate_string (Some line) ":" 2;
  match argv with
  | [header; value] =>
      let value := match value with String c v => if Ascii.eqb c blank then v else value | _ => value end in
      let value := strip_cr value in
      headers ← req_headers r;
      '(_, headers) ← switch_event_add_header_string headers SWITCH_STACK_BOTTOM header (Some value);
      Some (Some (set_field (r <| req_headers := Some headers |>) header value))
  | _ => Some None
  end.

Fixpoint parse_lines (r : switch_http_request) (lines : list string) : option (option switch_http_request) :=
  match lines with
  | [] => Some (Some r)
  | line :: lines => o ← parse_line r line; match o with Some r => parse_lines r lines | None => Some None end
  end.

(** The loop of the sanity check: [i] when it ends. *)
Fixpoint sanity (i : nat) (buffer : string) : Z :=
  match i with
  | O => -1
  | S n => match buffer with String c b => if Ascii.eqb c blank then Z.of_nat n else sanity n b | EmptyString => -1 end
  end.

Definition crlf2 : string := String cr (String lf (String cr (String lf ""))).
Definition lf2 : string := String lf (String lf "").

(** The text before the body and the offset of the body. *)
Definition find_body (buffer : string) : option (string * Z) :=
  match strstr crlf2 buffer with
  | Some (head, _) => Some (head, Z.of_nat (String.length head) + 4)
  | None => match strstr lf2 buffer with Some (head, _) => Some (head, Z.of_nat (String.length head) + 2) | None => None end
  end.

(** From the label noheader. *)
Definition finish (r : switch_http_request) : option http_result :=
  match qs r with
  | Some q => headers ← req_headers r; headers ← switch_http_parse_qs headers q; Some (Parsed (r <| req_headers := Some headers |>))
  | None => Some (Parsed r)
  end.

(** The version and the lines of the header; [fresh] is the event made for a request without one. *)
Definition parse_version (r : switch_http_request) (fresh : switch_event) (http : string) : option http_result :=
  let one_one := String.prefix "HTTP/1.1" http in
  if negb one_one && negb (String.prefix "HTTP/1.0" http) then Some Freed
  else
    let r := if one_one then r <| keepalive := true |> else r in
    let r := match req_headers r with Some _ => r | None => r <| req_headers := Some fresh |> <| destroy_headers := true |> end in
    match cut_at lf http with
    | None => finish r
    | Some (_, p) =>
        lines ← switch_separate_string (Some p) lf 64;
        if (length lines <? 1)%nat then Some Freed
        else o ← parse_lines r lines; match o with Some r => finish r | None => Some Freed end
    end.

Definition switch_http_parse_header (buffer : string) (request : switch_http_request) (fresh : switch_event) : option http_result :=
  let datalen := Z.of_nat (String.length buffer) in
  if datalen <? 16 then Some Refused
  else if sanity 10 buffer =? 0 then Some Refused
  else
    match find_body buffer with
    | None => Some Refused
    | Some (head, body) =>
        let r := request <| bytes_buffered := datalen |> <| bytes_header := body |> <| bytes_read := body |> in
        match cut_at blank head with
        | Some (m, String c p) =>
            if Ascii.eqb c "/" then
              match cut_at blank (String c p) with
              | Some (u, http) =>
                  let '(u, r) := match cut_at "?" u with Some (u, q) => (u, r <| qs := Some q |>) | None => (u, r) end in
                  '(status, u) ← clean_uri u;
                  match status with
                  | SWITCH_STATUS_SUCCESS => parse_version (r <| method := m |> <| uri := u |>) fresh http
                  | _ => Some Freed
                  end
              | None => Some Freed
              end
            else Some Freed
        | _ => Some Freed
        end
    end.

Definition request_0 : switch_http_request := mk_request "" "" None None 0 None None false None 0 0 0 0 None false.

Definition line (s : string) : string := s +:+ String cr (String lf "").

Example parse_1 :
  match switch_http_parse_header (line "GET /a/./b/../c?x=1&y=a+b HTTP/1.1" +:+ line "Host: h:80" +:+ line "X-Y: z" +:+ line "") request_0 (Event.switch_event_create_plain true) with
  | Some (Parsed r) => (method r, uri r, host r, port r, bytes_header r, option_map (fun ev => map (fun k => Event.switch_event_get_header ev k) ["host"; "x-y"; "x"; "y"]) (req_headers r))
  | _ => ("", "", None, 0, 0, None)
  end = ("GET", "/a/c", Some "h", 80, 58, Some [Some "h:80"; Some "z"; Some "1"; Some "a b"]).
Proof. vm_compute. reflexivity. Qed.

(** ** Splitting text without quotes *)

Fixpoint bare (delim : ascii) (s : string) : bool :=
  match s with EmptyString => true | String c s => negb (existsb (Ascii.eqb c) [ESCAPE_META; quote; delim]) && bare delim s end.

Fixpoint last_ok (s : string) : bool :=
  match s with EmptyString => true | String c EmptyString => negb (Ascii.eqb c blank) | String _ s => last_ok s end.

Definition trimmed (s : string) : bool := match s with EmptyString => true | String c _ => negb (Ascii.eqb c blank) && last_ok s end.

Definition splits (delim : ascii) : bool := negb (existsb (Ascii.eqb delim) [nul; ESCAPE_META; quote; blank]).

Lemma bare_char delim c s : bare delim (String c s) = true ->
  Ascii.eqb c ESCAPE_META = false /\ Ascii.eqb c quote = false /\ Ascii.eqb c delim = false /\ bare delim s = true.
Proof. cbn [bare existsb]. rewrite andb_true_iff, negb_true_iff, !orb_false_iff. naive_solver. Qed.

Lemma splits_char delim : splits delim = true -> Ascii.eqb delim ESCAPE_META = false /\ Ascii.eqb delim quote = false /\ Ascii.eqb delim blank = false.
Proof. unfold splits. cbn [existsb]. rewrite negb_true_iff, !orb_false_iff. naive_solver. Qed.

Lemma find_delim_bare delim w s rest : bare delim w = true -> find_delim delim false s = Some ("", rest) -> find_delim delim false (w +:+ s) = Some (w, rest).
Proof.
  intros Hw Hs. induction w as [|c w IH]; [done|]. destruct (bare_char _ _ _ Hw) as (H1 & H2 & H3 & Hw').
  change (String c w +:+ s) with (String c (w +:+ s)). cbn [find_delim]. rewrite H1, H2, H3. cbn [andb]. by rewrite (IH Hw').
Qed.

Lemma find_delim_end delim w : bare delim w = true -> find_delim delim false w = Some (w, None).
Proof. intros Hw. rewrite <- (append_nil w) at 1. by apply find_delim_bare. Qed.

Lemma find_delim_cut delim w s : splits delim = true -> bare delim w = true -> find_delim delim false (w +:+ String delim s) = Some (w, Some s).
Proof. intros (H1 & H2 & _)%splits_char Hw. apply find_delim_bare; [done|]. cbn [find_delim]. by rewrite H1, H2, Ascii.eqb_refl. Qed.

(** An empty last string leaves no trace. *)
Fixpoint chop (ws : list string) : list string :=
  match ws with [] => [] | [w] => if String.eqb w "" then [] else [w] | w :: ws => w :: chop ws end.

Lemma char_tokens_step delim n s : s <> "" -> char_tokens delim (S (S n)) s =
  match find_delim delim false s with
  | Some (t, Some rest) => match char_tokens delim (S n) rest with Some l => Some (t :: l) | None => None end
  | Some (t, None) => Some [t]
  | None => None
  end.
Proof. by destruct s. Qed.

Lemma char_tokens_bare delim ws : forall n, splits delim = true -> forallb (bare delim) ws = true -> (length ws <= n)%nat ->
  char_tokens delim n (String.concat (String delim "") ws) = Some (chop ws).
Proof.
  intros n Hd. revert n. induction ws as [|w ws IH]; intros n HF Hn; [by destruct n as [|[]]|]. cbn [forallb length] in *. apply andb_true_iff in HF as [Hw HF].
  destruct n as [|n]; [lia|]. destruct ws as [|w' ws].
  - cbn [String.concat chop]. destruct w as [|c w]; [by destruct n|]. destruct n as [|n]; [done|]. rewrite char_tokens_step by done. by rewrite find_delim_end.
  - change (String.concat (String delim "") (w :: w' :: ws)) with (w +:+ String delim (String.concat (String delim "") (w' :: ws))).
    change (chop (w :: w' :: ws)) with (w :: chop (w' :: ws)). cbn [length] in Hn. destruct n as [|n]; [lia|]. rewrite char_tokens_step by (by destruct w).
    rewrite find_delim_cut by done. rewrite IH; [done|done|cbn; lia].
Qed.

Lemma cleanup_loop_bare delim d w out end_ : bare d w = true -> w <> "" -> last_ok w = true ->
  cleanup_loop delim false w out end_ = (out +:+ w, Some (String.length (out +:+ w))).
Proof.
  revert out end_. induction w as [|c w IH]; intros out end_ Hw Hne Hl; [done|]. destruct (bare_char _ _ _ Hw) as (H1 & H2 & _ & Hw').
  cbn [cleanup_loop]. rewrite H1, H2. cbn [andb]. destruct w as [|c' w].
  - cbn [last_ok] in Hl. cbn [cleanup_loop]. by rewrite Hl.
  - rewrite IH by done. by rewrite append_assoc.
Qed.

Lemma cleanup_bare delim d w : bare d w = true -> trimmed w = true -> cleanup_separated_string w delim = w.
Proof.
  intros Hw Ht. unfold cleanup_separated_string. destruct w as [|c w]; [done|]. cbn [trimmed] in Ht. apply andb_true_iff in Ht as [Hc%negb_true_iff Hl].
  cbn [skip_blanks]. rewrite Hc. rewrite (cleanup_loop_bare delim d) by done. apply substring_all.
Qed.

Lemma no_carets (t : string) (delim : ascii) : String.prefix "^^" t = false ->
  match t with String c1 (String c2 (String d (String _ _ as rest))) => if Ascii.eqb c1 "^" && Ascii.eqb c2 "^" then (rest, d) else (t, delim) | _ => (t, delim) end = (t, delim).
Proof. destruct t as [|c1 [|c2 [|d [|x s]]]]; [done..|]. destruct (Ascii.eqb_spec c1 "^") as [->|], (Ascii.eqb_spec c2 "^") as [->|]; done. Qed.

(** Text without quotes and backslashes is split at the delimiters. *)
Lemma separate_bare delim n ws : splits delim = true -> forallb (bare delim) ws = true -> forallb trimmed ws = true -> (length ws <= n)%nat -> ws <> [] ->
  String.prefix "^^" (String.concat (String delim "") ws) = false ->
  switch_separate_string (Some (String.concat (String delim "") ws)) delim n = Some (chop ws).
Proof.
  intros Hd Hb Ht Hn Hne HP. unfold switch_separate_string. destruct (Nat.eqb_spec n 0) as [->|_]; [destruct ws; [done|cbn in Hn; lia]|].
  set (t := String.concat (String delim "") ws) in *.
  assert (match t with String c1 (String c2 (String d (String _ _ as rest))) => if Ascii.eqb c1 "^" && Ascii.eqb c2 "^" then (rest, d) else (t, delim) | _ => (t, delim) end = (t, delim)) as ->.
  { by apply no_carets. }
  destruct (splits_char _ Hd) as (_ & _ & ->). unfold separate_string_char_delim. subst t. rewrite char_tokens_bare by done. f_equal.
  clear -Hb Ht. induction ws as [|w ws IH]; [done|]. cbn [forallb] in *. apply andb_true_iff in Hb as [Hb1 Hb], Ht as [Ht1 Ht]. destruct ws as [|w' ws].
  - cbn [chop]. destruct (String.eqb w ""); [done|]. cbn. by rewrite (cleanup_bare delim delim).
  - change (chop (w :: w' :: ws)) with (w :: chop (w' :: ws)). cbn [map]. rewrite (cleanup_bare delim delim) by done. by rewrite IH.
Qed.

(** ** The path *)

(** The directory that a path denotes, from the root: the parent of the root is the root. *)
Definition walk (dir : list string) (segment : string) : list string :=
  if String.eqb segment "" || String.eqb segment "." then dir else if String.eqb segment ".." then removelast dir else dir ++ [segment].

Definition real (segment : string) : bool := negb (String.eqb segment "" || String.eqb segment "." || String.eqb segment "..").

Lemma walk_clean segs kept : rev (foldl clean_segment kept segs) = foldl walk (rev kept) segs.
Proof.
  revert kept. induction segs as [|s segs IH]; intros kept; [done|]. cbn [foldl]. rewrite IH. f_equal. unfold clean_segment, walk.
  destruct (_ || _); [done|]. destruct (String.eqb s ".."); [|done]. destruct kept as [|k kept]; [done|]. cbn [tail rev]. by rewrite removelast_last.
Qed.

Lemma walk_real segs dir : forallb real dir = true -> forallb real (foldl walk dir segs) = true.
Proof.
  revert dir. induction segs as [|s segs IH]; intros dir Hd; [done|]. cbn [foldl]. apply IH. unfold walk. destruct (String.eqb s "" || String.eqb s ".") eqn:E1; [done|].
  destruct (String.eqb s "..") eqn:E2.
  - destruct dir as [|d dir] using rev_ind; [done|]. rewrite removelast_last. rewrite forallb_app in Hd. by apply andb_true_iff in Hd as [? _].
  - rewrite forallb_app, Hd. cbn. unfold real. by rewrite E1, E2.
Qed.

Lemma chop_clean ws kept : foldl clean_segment kept (chop ws) = foldl clean_segment kept ws.
Proof.
  revert kept. induction ws as [|w ws IH]; intros kept; [done|]. destruct ws as [|w' ws]; [|apply (IH (clean_segment kept w))].
  cbn [chop]. destruct (String.eqb_spec w "") as [->|]; done.
Qed.

Definition segment_ok (s : string) : bool := bare "/" s && trimmed s.

Definition raw_path (segs : list string) : string := String "/" (String.concat "/" segs).

Lemma forallb_both {A} (f g : A -> bool) l : forallb (fun x => f x && g x) l = forallb f l && forallb g l.
Proof. induction l as [|x l IH]; [done|]. cbn. rewrite IH. by destruct (f x), (g x), (forallb f l). Qed.

Lemma chop_length ws : (length (chop ws) <= length ws)%nat.
Proof. induction ws as [|w [|w' ws] IH]; [done|cbn; by destruct (String.eqb w ""); cbn; lia|]. change (chop (w :: w' :: ws)) with (w :: chop (w' :: ws)). cbn [length] in *. lia. Qed.

Lemma clean_uri_spec segs : forallb segment_ok segs = true -> (length segs <= 63)%nat ->
  clean_uri (raw_path segs) = Some (SWITCH_STATUS_SUCCESS, path_of (foldl walk [] segs)).
Proof.
  intros Hs Hl. destruct segs as [|s segs]; [reflexivity|]. unfold clean_uri. change (raw_path (s :: segs)) with (String.concat "/" ("" :: s :: segs)).
  assert (forallb (bare "/") (s :: segs) && forallb trimmed (s :: segs) = true) as [Hb Ht]%andb_true_iff by (rewrite <- forallb_both; exact Hs).
  rewrite (separate_bare "/" 64 ("" :: s :: segs)); [|done|exact Hb|exact Ht|cbn in *; lia|done|done]. cbn [mbind option_bind].
  pose proof (chop_length ("" :: s :: segs)). destruct (Nat.eqb_spec (length (chop ("" :: s :: segs))) (64 * 8)) as [E|_]; [cbn [length] in *; lia|].
  change (chop ("" :: s :: segs)) with ("" :: chop (s :: segs)). cbn [tail]. by rewrite chop_clean, walk_clean.
Qed.

(** ** A request *)

Lemma cut_at_found c a b : has_char c a = false -> cut_at c (a +:+ String c b) = Some (a, b).
Proof.
  induction a as [|x a IH]; intros Ha; [change (cut_at c (String c b) = Some ("", b)); cbn [cut_at]; by rewrite Ascii.eqb_refl|]. cbn [has_char] in Ha. apply orb_false_iff in Ha as [Hx Ha].
  change (String x a +:+ String c b) with (String x (a +:+ String c b)). cbn [cut_at]. by rewrite Hx, IH.
Qed.

Lemma cut_at_none c a : has_char c a = false -> cut_at c a = None.
Proof. induction a as [|x a IH]; [done|]. cbn [has_char cut_at]. intros [-> Ha]%orb_false_iff. by rewrite IH. Qed.

Lemma has_char_app c a b : has_char c (a +:+ b) = has_char c a || has_char c b.
Proof. induction a as [|x a IH]; [done|]. change (String x a +:+ b) with (String x (a +:+ b)). cbn [has_char]. by rewrite IH, orb_assoc. Qed.

(** Every carriage return is followed by two characters the second of which is none. *)
Fixpoint lines_ok (s : string) : bool :=
  match s with
  | EmptyString => true
  | String c t => (if Ascii.eqb c cr then match t with String _ (String x _) => negb (Ascii.eqb x cr) | _ => false end else true) && lines_ok t
  end.

Lemma strstr_prefix p s : String.prefix p s = true -> strstr p s = Some ("", String.substring (String.length p) (String.length s - String.length p) s).
Proof. destruct s; cbn [strstr]; by intros ->. Qed.

Lemma strstr_head h b : lines_ok h = true -> strstr crlf2 (h +:+ crlf2 +:+ b) = Some (h, b).
Proof.
  induction h as [|c h IH]; intros Hh.
  - change ("" +:+ crlf2 +:+ b) with (crlf2 +:+ b). rewrite strstr_prefix by (by destruct b).
    change (Some ("", String.substring 0 (String.length b - 0) b) = Some ("", b)). by rewrite Nat.sub_0_r, substring_all.
  - change (String c h +:+ crlf2 +:+ b) with (String c (h +:+ crlf2 +:+ b)). cbn [lines_ok] in Hh. apply andb_true_iff in Hh as [Hc Hh]. cbn [strstr].
    assert (String.prefix crlf2 (String c (h +:+ crlf2 +:+ b)) = false) as ->; [|by rewrite IH].
    unfold crlf2 at 1. cbn [String.prefix]. destruct (Ascii.ascii_dec cr c) as [<-|]; [|done]. cbn [Ascii.eqb Bool.eqb cr] in Hc. destruct h as [|x [|y h]]; [done|done|].
    change (String x (String y h) +:+ crlf2 +:+ b) with (String x (String y (h +:+ crlf2 +:+ b))). cbn [String.prefix]. destruct (Ascii.ascii_dec lf x); [|done].
    destruct (Ascii.ascii_dec cr y) as [<-|]; [|done]. done.
Qed.

Lemma lines_ok_line a x s : has_char cr a = false -> Ascii.eqb x cr = false -> lines_ok (String x s) = true -> lines_ok (a +:+ String cr (String lf (String x s))) = true.
Proof.
  intros Ha Hx Hs. induction a as [|c a IH].
  - change (lines_ok (String cr (String lf (String x s))) = true). cbn [lines_ok] in *. rewrite Hx in *. cbn in *. done.
  - cbn [has_char] in Ha. apply orb_false_iff in Ha as [Hc Ha]. change (String c a +:+ ?t) with (String c (a +:+ t)). cbn [lines_ok]. rewrite Hc. by apply IH.
Qed.

Lemma lines_ok_last a : has_char cr a = false -> lines_ok a = true.
Proof. induction a as [|c a IH]; [done|]. cbn [has_char lines_ok]. intros [-> Ha]%orb_false_iff. by apply IH. Qed.

Definition header_line (h : string * string) : string := h.1 +:+ ": " +:+ h.2.

Fixpoint header_text (hdrs : list (string * string)) : string :=
  match hdrs with [] => "" | h :: hdrs => String cr (String lf (header_line h +:+ header_text hdrs)) end.

Definition head_text (m : string) (segs : list string) (hdrs : list (string * string)) : string :=
  m +:+ String blank (raw_path segs +:+ String blank ("HTTP/1.1" +:+ header_text hdrs)).

Definition name_ok (n : string) : bool :=
  match n with String c _ => negb (Ascii.eqb c "^") | EmptyString => false end && bare ":" n && trimmed n && negb (has_char cr n) && negb (has_char lf n).

Definition value_ok (v : string) : bool := negb (String.eqb v "") && bare lf v && trimmed v && negb (has_char cr v).

Definition header_ok (h : string * string) : bool := name_ok h.1 && value_ok h.2.

Fixpoint lines_of (hdrs : list (string * string)) : list string :=
  match hdrs with [] => [] | [h] => [header_line h] | h :: hdrs => (header_line h +:+ String cr "") :: lines_of hdrs end.

Lemma concat_cons sep x l : l <> [] -> String.concat sep (x :: l) = x +:+ sep +:+ String.concat sep l.
Proof. by destruct l. Qed.

Lemma header_text_lines h hdrs : header_text (h :: hdrs) = String cr (String lf (String.concat (String lf "") (lines_of (h :: hdrs)))).
Proof.
  revert h. induction hdrs as [|h' hdrs IH]; intros h; [cbn; by rewrite append_nil|]. cbn [header_text] in *. do 2 f_equal. rewrite IH.
  change (lines_of (h :: h' :: hdrs)) with ((header_line h +:+ String cr "") :: lines_of (h' :: hdrs)). rewrite concat_cons by (by destruct hdrs). by rewrite append_assoc.
Qed.

Lemma bare_app d a b : bare d (a +:+ b) = bare d a && bare d b.
Proof. induction a as [|c a IH]; [done|]. change (String c a +:+ b) with (String c (a +:+ b)). cbn [bare]. by rewrite IH, andb_assoc. Qed.

Lemma bare_swap d d' s : bare d s = true -> has_char d' s = false -> bare d' s = true.
Proof.
  induction s as [|c s IH]; [done|]. intros (H1 & H2 & _ & Hs)%bare_char. cbn [has_char bare existsb]. intros [Hc Hd]%orb_false_iff. rewrite H1, H2, Hc, IH by done. done.
Qed.

Lemma last_ok_app a b : b <> "" -> last_ok b = true -> last_ok (a +:+ b) = true.
Proof. intros Hb Hl. induction a as [|c a IH]; [done|]. change (String c a +:+ b) with (String c (a +:+ b)). cbn [last_ok]. destruct (a +:+ b) eqn:E; [by destruct a, b|done]. Qed.

Record name_facts (n : string) : Prop := mk_name_facts {
  nf_first : exists c n', n = String c n' /\ Ascii.eqb c "^" = false /\ Ascii.eqb c blank = false /\ Ascii.eqb c cr = false;
  nf_bare : bare ":" n = true; nf_trim : trimmed n = true; nf_cr : has_char cr n = false; nf_lf : has_char lf n = false }.

Lemma name_ok_facts n : name_ok n = true -> name_facts n.
Proof.
  unfold name_ok. destruct n as [|c n]; [done|]. intros [[[[Hc%negb_true_iff Hb]%andb_true_iff Ht]%andb_true_iff Hr%negb_true_iff]%andb_true_iff Hl%negb_true_iff]%andb_true_iff.
  constructor; try done. exists c, n. split_and!; [done|done| |].
  - cbn [trimmed] in Ht. apply andb_true_iff in Ht as [Ht _]. by apply negb_true_iff in Ht.
  - cbn [has_char] in Hr. by apply orb_false_iff in Hr as [? _].
Qed.

Record value_facts (v : string) : Prop := mk_value_facts {
  vf_ne : v <> ""; vf_bare : bare lf v = true; vf_trim : trimmed v = true; vf_cr : has_char cr v = false }.

Lemma value_ok_facts v : value_ok v = true -> value_facts v.
Proof.
  unfold value_ok. intros [[[Hc%negb_true_iff Hb]%andb_true_iff Ht]%andb_true_iff Hr%negb_true_iff]%andb_true_iff. constructor; try done. by apply String.eqb_neq in Hc.
Qed.

Lemma header_facts h : header_ok h = true -> name_facts h.1 /\ value_facts h.2.
Proof. intros [?%name_ok_facts ?%value_ok_facts]%andb_true_iff. done. Qed.

(** The end of a line: nothing or a carriage return. *)
Definition line_end (e : string) : Prop := e = "" \/ e = String cr "".

Lemma strip_cr_end v e : has_char cr v = false -> line_end e -> strip_cr (v +:+ e) = v.
Proof.
  intros Hv He. induction v as [|c v IH]; [by destruct He as [->| ->]|]. cbn [has_char] in Hv. apply orb_false_iff in Hv as [Hc Hv].
  change (String c v +:+ e) with (String c (v +:+ e)). cbn [strip_cr]. destruct (v +:+ e) as [|x t] eqn:E.
  - rewrite Hc. by destruct v.
  - f_equal. by apply IH.
Qed.

Lemma value_end_trimmed v e : value_facts v -> line_end e -> bare lf (v +:+ e) = true /\ trimmed (v +:+ e) = true /\ exists c t, v +:+ e = String c t /\ Ascii.eqb c blank = false.
Proof.
  intros [Hne Hb Ht Hr] He. destruct v as [|c v]; [done|]. cbn [trimmed] in Ht. apply andb_true_iff in Ht as [Hc Hl].
  split_and!; [rewrite bare_app, Hb; by destruct He as [->| ->]| |exists c, (v +:+ e); split; [done|by apply negb_true_iff]].
  change (String c v +:+ e) with (String c (v +:+ e)). cbn [trimmed]. rewrite Hc. destruct He as [->| ->]; [by rewrite append_nil|]. by apply (last_ok_app (String c v) (String cr "")).
Qed.

Lemma separate_line h e : header_ok h = true -> line_end e -> switch_separate_string (Some (header_line h +:+ e)) ":" 2 = Some [h.1; h.2 +:+ e].
Proof.
  intros [[(c & n & En & Hc & _) Hb Ht _ _] Hv]%header_facts He. destruct (value_end_trimmed _ _ Hv He) as (Hvb & Hvt & x & t & Ev & Hx).
  assert (header_line h +:+ e = h.1 +:+ String ":" (String blank (h.2 +:+ e))) as -> by (unfold header_line; by rewrite append_assoc).
  unfold switch_separate_string. cbn [Nat.eqb]. set (s := h.1 +:+ String ":" (String blank (h.2 +:+ e))).
  assert (match s with String c1 (String c2 (String d (String _ _ as rest))) => if Ascii.eqb c1 "^" && Ascii.eqb c2 "^" then (rest, d) else (s, ":"%char) | _ => (s, ":"%char) end = (s, ":"%char)) as ->.
  { apply no_carets. subst s. rewrite En. cbn [String.prefix]. change (String c n +:+ ?t) with (String c (n +:+ t)). cbn [String.prefix].
    destruct (Ascii.ascii_dec "^" c) as [<-|]; [by rewrite Ascii.eqb_refl in Hc|done]. }
  cbn [Ascii.eqb Bool.eqb blank]. unfold separate_string_char_delim. subst s. rewrite char_tokens_step by (by rewrite En). rewrite find_delim_cut by done.
  cbn [char_tokens map]. f_equal. rewrite (cleanup_bare ":" ":") by done. do 2 f_equal.
  transitivity (cleanup_separated_string (h.2 +:+ e) ":"); [|by apply (cleanup_bare ":" lf)]. unfold cleanup_separated_string. rewrite Ev. cbn [skip_blanks]. by rewrite Hx.
Qed.

(** What the lines of the header leave as it is. *)
Definition core (r : switch_http_request) := (method r, uri r, qs r, keepalive r, bytes_header r).

Lemma set_field_core r n v : core (set_field r n v) = core r /\ req_headers (set_field r n v) = req_headers r.
Proof.
  unfold set_field. destruct (starts_ci n "User-Agent"); [done|]. destruct (starts_ci n "Host").
  - destruct (cut_at ":" v) as [[h p]|]; [destruct (String.eqb p "")|]; done.
  - destruct (starts_ci n "Content-Type"); [done|]. destruct (starts_ci n "Content-Length"); [done|]. by destruct (starts_ci n "Referer").
Qed.

Definition add_op (h : string * string) : EventTheorems.event_op := EventTheorems.AddHeader SWITCH_STACK_BOTTOM h.1 h.2.

Lemma parse_line_spec r h e ev ev' : header_ok h = true -> line_end e -> req_headers r = Some ev -> EventTheorems.run_op ev (add_op h) = Some ev' ->
  exists r', parse_line r (header_line h +:+ e) = Some (Some r') /\ core r' = core r /\ req_headers r' = Some ev'.
Proof.
  intros Hh He Hev Hrun. destruct (header_facts h Hh) as [_ Hv]. destruct (value_end_trimmed _ _ Hv He) as (_ & _ & x & t & Ev & Hx).
  unfold parse_line. rewrite separate_line by done. cbn [mbind option_bind]. rewrite Ev, Hx, <- Ev, strip_cr_end by (done || apply Hv). rewrite Hev. cbn [mbind option_bind].
  cbn [EventTheorems.run_op add_op] in Hrun. apply fmap_Some in Hrun as ([s ev1] & -> & ->). cbn [mbind option_bind snd]. eexists. split; [reflexivity|].
  destruct (set_field_core (r <| req_headers := Some ev1 |>) h.1 h.2) as [-> ->]. done.
Qed.

Lemma parse_lines_spec hdrs : forall r ev ev', forallb header_ok hdrs = true -> req_headers r = Some ev -> EventTheorems.run_ops ev (map add_op hdrs) = Some ev' ->
  exists r', parse_lines r (lines_of hdrs) = Some (Some r') /\ core r' = core r /\ req_headers r' = Some ev'.
Proof.
  induction hdrs as [|h hdrs IH]; intros r ev ev' Hh Hev Hrun; [injection Hrun as <-; by exists r|]. cbn [forallb map EventTheorems.run_ops] in *. apply andb_true_iff in Hh as [Hh Hhs].
  destruct (EventTheorems.run_op ev (add_op h)) as [ev1|] eqn:E; [|done]. destruct hdrs as [|h' hdrs].
  - injection Hrun as <-. cbn [lines_of parse_lines]. rewrite <- (append_nil (header_line h)).
    destruct (parse_line_spec r h "" ev ev1 Hh ltac:(by left) Hev E) as (r' & -> & Hc & Hr). by exists r'.
  - change (lines_of (h :: h' :: hdrs)) with ((header_line h +:+ String cr "") :: lines_of (h' :: hdrs)). cbn [parse_lines].
    destruct (parse_line_spec r h (String cr "") ev ev1 Hh ltac:(by right) Hev E) as (r1 & -> & Hc & Hr). cbn [mbind option_bind].
    destruct (IH r1 ev1 ev' Hhs Hr Hrun) as (r' & -> & Hc' & Hr'). exists r'. by rewrite Hc'.
Qed.

(** Each line of the header is split off. *)
Lemma line_facts h e : header_ok h = true -> line_end e -> bare lf (header_line h +:+ e) = true /\ trimmed (header_line h +:+ e) = true /\
  exists c t, header_line h +:+ e = String c t /\ Ascii.eqb c "^" = false.
Proof.
  intros [[(c & n & En & Hc & Hcb & _) Hb Ht Hr Hl] Hv]%header_facts He. destruct (value_end_trimmed _ _ Hv He) as (Hvb & Hvt & x & t & Ev & Hx).
  assert (header_line h +:+ e = h.1 +:+ String ":" (String blank (h.2 +:+ e))) as -> by (unfold header_line; by rewrite append_assoc). split_and!.
  - rewrite bare_app, (bare_swap ":" lf) by done. cbn [bare]. by rewrite Hvb.
  - rewrite En in *. change (String c n +:+ ?t) with (String c (n +:+ t)). cbn [trimmed]. rewrite Hcb. cbn [negb andb].
    apply (last_ok_app (String c n)); [done|]. rewrite Ev in *. cbn [last_ok trimmed] in *. by apply andb_true_iff in Hvt as [_ ?].
  - rewrite En. by exists c, (n +:+ String ":" (String blank (h.2 +:+ e))).
Qed.

Lemma lines_facts hdrs : forallb header_ok hdrs = true ->
  forallb (bare lf) (lines_of hdrs) = true /\ forallb trimmed (lines_of hdrs) = true /\ chop (lines_of hdrs) = lines_of hdrs /\ length (lines_of hdrs) = length hdrs.
Proof.
  induction hdrs as [|h hdrs IH]; [done|]. cbn [forallb]. intros [Hh Hs]%andb_true_iff. destruct hdrs as [|h' hdrs].
  - cbn [lines_of forallb chop length]. destruct (line_facts h "" Hh ltac:(by left)) as (Hb & Ht & c & t & E & _). rewrite append_nil in *. rewrite Hb, Ht, E. done.
  - destruct (IH Hs) as (H1 & H2 & H3 & H4). destruct (line_facts h (String cr "") Hh ltac:(by right)) as (Hb & Ht & _).
    change (lines_of (h :: h' :: hdrs)) with ((header_line h +:+ String cr "") :: lines_of (h' :: hdrs)). cbn [forallb length]. rewrite Hb, Ht, H1, H2, H4. split_and!; try done.
    rewrite <- H3 at 2. destruct (lines_of (h' :: hdrs)) eqn:E; [by destruct hdrs|done].
Qed.

Lemma lines_separate h hdrs : forallb header_ok (h :: hdrs) = true -> (length (h :: hdrs) <= 64)%nat ->
  switch_separate_string (Some (String.concat (String lf "") (lines_of (h :: hdrs)))) lf 64 = Some (lines_of (h :: hdrs)).
Proof.
  intros Hh Hl. destruct (lines_facts _ Hh) as (H1 & H2 & H3 & H4). rewrite (separate_bare lf 64 (lines_of (h :: hdrs))); [by rewrite H3|done|done|done|by rewrite H4|by destruct hdrs|].
  cbn [forallb] in Hh. apply andb_true_iff in Hh as [Hh _]. destruct (line_facts h "" Hh ltac:(by left)) as (_ & _ & c & t & E & Hc). rewrite append_nil in E.
  assert (exists u, String.concat (String lf "") (lines_of (h :: hdrs)) = String c u) as (u & ->).
  { destruct hdrs as [|h' hdrs]; [exists t; by cbn [lines_of String.concat]|].
    change (lines_of (h :: h' :: hdrs)) with ((header_line h +:+ String cr "") :: lines_of (h' :: hdrs)). rewrite concat_cons by (by destruct hdrs). rewrite E. by eexists. }
  cbn [String.prefix]. destruct (Ascii.ascii_dec "^" c) as [<-|]; [by rewrite Ascii.eqb_refl in Hc|done].
Qed.

Lemma line_no_cr h : header_ok h = true -> has_char cr (header_line h) = false.
Proof. intros [[_ _ _ Hr _] [_ _ _ Hr']]%header_facts. unfold header_line. by rewrite !has_char_app, Hr, Hr'. Qed.

Lemma header_lines_ok a hdrs : has_char cr a = false -> forallb header_ok hdrs = true -> lines_ok (a +:+ header_text hdrs) = true.
Proof.
  revert a. induction hdrs as [|h hdrs IH]; intros a Ha Hh; [cbn [header_text]; rewrite append_nil; by apply lines_ok_last|]. cbn [forallb] in Hh. apply andb_true_iff in Hh as [Hh Hs].
  pose proof (IH (header_line h) (line_no_cr h Hh) Hs) as Hrest. cbn [header_text]. destruct (header_facts h Hh) as [[(c & n & En & _ & _ & Hc) _ _ _ _] _].
  assert (exists s, header_line h +:+ header_text hdrs = String c s) as (s & E) by (unfold header_line; rewrite En; by eexists). rewrite E in *. by apply lines_ok_line.
Qed.

Lemma sanity_method i m s : has_char blank m = false -> (String.length m < i)%nat -> sanity i (m +:+ String blank s) = Z.of_nat i - 1 - Z.of_nat (String.length m).
Proof.
  revert i. induction m as [|c m IH]; intros i Hm Hi; (destruct i as [|i]; [cbn in Hi; lia|]).
  - change ("" +:+ String blank s) with (String blank s). cbn [sanity String.length]. change (Ascii.eqb blank blank) with true. cbn iota. lia.
  - cbn [has_char] in Hm. apply orb_false_iff in Hm as [Hc Hm]. change (String c m +:+ ?t) with (String c (m +:+ t)). cbn [sanity String.length] in *. rewrite Hc, IH; [lia|done|lia].
Qed.

Definition url_segment (s : string) : bool := bare "/" s && negb (has_char blank s || has_char cr s || has_char "?" s).

Lemma no_blank_trimmed s : has_char blank s = false -> trimmed s = true.
Proof.
  assert (forall s, has_char blank s = false -> last_ok s = true) as H.
  { clear s. induction s as [|c s IH]; [done|]. cbn [has_char]. intros [Hc Hs]%orb_false_iff. cbn [last_ok]. destruct s; [by rewrite Hc|by apply IH]. }
  intros Hs. destruct s as [|c s]; [done|]. cbn [trimmed]. rewrite (H _ Hs), andb_true_r. cbn [has_char] in Hs. apply orb_false_iff in Hs as [-> _]. done.
Qed.

Lemma has_char_path c segs : Ascii.eqb "/" c = false -> forallb (fun s => negb (has_char c s)) segs = true -> has_char c (raw_path segs) = false.
Proof.
  intros Hc Hs. unfold raw_path. cbn [has_char]. rewrite Hc. cbn [orb]. induction segs as [|s segs IH]; [done|]. cbn [forallb] in Hs. apply andb_true_iff in Hs as [H1%negb_true_iff Hs].
  destruct segs as [|s' segs]; [done|]. rewrite concat_cons by done. rewrite !has_char_app, H1, (IH Hs). cbn [has_char orb]. by rewrite Hc.
Qed.

Lemma segments_facts segs : forallb url_segment segs = true ->
  forallb segment_ok segs = true /\ has_char blank (raw_path segs) = false /\ has_char cr (raw_path segs) = false /\ has_char "?" (raw_path segs) = false.
Proof.
  intros Hs. assert (forall f : string -> bool, (forall s, url_segment s = true -> f s = true) -> forallb f segs = true) as HF.
  { intros f Hf. apply forallb_forall. intros s Hin. apply Hf. by apply (proj1 (forallb_forall _ _) Hs). }
  assert (forall s, url_segment s = true -> bare "/" s = true /\ has_char blank s = false /\ has_char cr s = false /\ has_char "?" s = false) as HU.
  { intros s [Hb [[? ?]%orb_false_iff ?]%negb_true_iff%orb_false_iff]%andb_true_iff. done. }
  split_and!; [|apply has_char_path; [done|]..]; apply HF; intros s (Hb & H1 & H2 & H3)%HU; [|by rewrite ?H1, ?H2, ?H3..].
  unfold segment_ok. by rewrite Hb, no_blank_trimmed.
Qed.

Lemma find_body_head h b : lines_ok h = true -> find_body (h +:+ crlf2 +:+ b) = Some (h, Z.of_nat (String.length h) + 4).
Proof. intros Hh. unfold find_body. by rewrite strstr_head. Qed.

(** The version and the header lines of a request. *)
Lemma parse_version_spec r fresh hdrs ev : req_headers r = None -> qs r = None -> forallb header_ok hdrs = true -> (length hdrs <= 64)%nat ->
  EventTheorems.run_ops fresh (map add_op hdrs) = Some ev ->
  exists r', parse_version r fresh ("HTTP/1.1" +:+ header_text hdrs) = Some (Parsed r') /\ core r' = core (r <| keepalive := true |>) /\ req_headers r' = Some ev.
Proof.
  intros Hr Hq Hh Hl Hrun. unfold parse_version. assert (String.prefix "HTTP/1.1" ("HTTP/1.1" +:+ header_text hdrs) = true) as -> by (by destruct (header_text hdrs)). cbn [negb andb]. 
  change (req_headers (r <| keepalive := true |>)) with (req_headers r). rewrite Hr. destruct hdrs as [|h hdrs].
  - injection Hrun as <-. cbn [header_text]. rewrite append_nil, cut_at_none by done. unfold finish. cbn. rewrite Hq. by eexists.
  - rewrite header_text_lines. change ("HTTP/1.1" +:+ String cr ?t) with (("HTTP/1.1" +:+ String cr "") +:+ t). rewrite cut_at_found by done. rewrite lines_separate by done. cbn [mbind option_bind].
    destruct (lines_facts _ Hh) as (_ & _ & _ & Hlen). rewrite Hlen. cbn [length Nat.ltb Nat.leb].
    destruct (parse_lines_spec (h :: hdrs) (r <| keepalive := true |> <| req_headers := Some fresh |> <| destroy_headers := true |>) fresh ev Hh ltac:(done) Hrun) as (r' & -> & Hc & Hr').
    cbn [mbind option_bind]. exists r'. unfold finish. assert (qs r' = None) as -> by (injection Hc; cbn; congruence). done.
Qed.

Lemma head_split m segs hdrs : head_text m segs hdrs = (m +:+ String blank (raw_path segs +:+ String blank "HTTP/1.1")) +:+ header_text hdrs.
Proof. unfold head_text. rewrite append_assoc. f_equal. change (String blank ?a +:+ ?b) with (String blank (a +:+ b)). by rewrite append_assoc. Qed.

Lemma head_lines_ok m segs hdrs : has_char cr m = false -> has_char cr (raw_path segs) = false -> forallb header_ok hdrs = true -> lines_ok (head_text m segs hdrs) = true.
Proof. intros Hm Hp Hh. rewrite head_split. apply header_lines_ok; [|done]. rewrite has_char_app, Hm. cbn [has_char]. by rewrite has_char_app, Hp. Qed.

Lemma head_length m segs hdrs : m <> "" -> (12 <= String.length (head_text m segs hdrs))%nat.
Proof.
  intros Hm. rewrite head_split. rewrite !append_length. change (String.length (String blank ?t)) with (S (String.length t)). rewrite append_length.
  unfold raw_path. cbn [String.length]. destruct m; [done|]. cbn [String.length]. lia.
Qed.

(** ** Theorems *)




(** Cleaning a path without quotes, backslashes and blanks at the ends of segments leaves the directory that it
    denotes, in which no segment is empty, a dot or two dots. *)
Theorem clean_uri_walks segs : forallb segment_ok segs = true -> (length segs <= 63)%nat ->
  clean_uri (raw_path segs) = Some (SWITCH_STATUS_SUCCESS, path_of (foldl walk [] segs)) /\ forallb real (foldl walk [] segs) = true.
Proof. intros Hs Hl. split; [by apply clean_uri_spec|by apply walk_real]. Qed.

Lemma clean_uri_walks_witness : clean_uri "/a//../../b/." = Some (SWITCH_STATUS_SUCCESS, "/b").
Proof. exact (proj1 (clean_uri_walks ["a"; ""; ".."; ".."; "b"; "."] eq_refl ltac:(cbn; lia))). Defined.

Lemma split_on_cut d a s : has_char d a = false -> split_on d (a +:+ String d s) = a :: split_on d s.
Proof.
  induction a as [|c a IH]; [intros _; change ("" +:+ String d s) with (String d s); cbn [split_on]; by rewrite Ascii.eqb_refl|].
  cbn [has_char]. intros [Hc Ha]%orb_false_iff. change (String c a +:+ ?t) with (String c (a +:+ t)). cbn [split_on]. by rewrite Hc, IH.
Qed.

Lemma split_on_one d a : has_char d a = false -> split_on d a = [a].
Proof. induction a as [|c a IH]; [done|]. cbn [has_char split_on]. intros [-> Ha]%orb_false_iff. by rewrite IH. Qed.

Lemma split_on_concat d l : l <> [] -> forallb (fun a => negb (has_char d a)) l = true -> split_on d (String.concat (String d "") l) = l.
Proof.
  induction l as [|a l IH]; [done|]. intros _. cbn [forallb]. intros [Ha%negb_true_iff Hl]%andb_true_iff. destruct l as [|b l]; [by apply split_on_one|].
  rewrite concat_cons by done. change (String d "" +:+ ?t) with (String d t). by rewrite split_on_cut, IH.
Qed.

Definition pair_ok (h : string * string) : bool :=
  negb (has_char "=" h.1) && negb (existsb (fun c => has_char c h.1 || has_char c h.2) ["&"; "%"; "+"]%char).

Definition pair_text (h : string * string) : string := h.1 +:+ String "=" h.2.

Lemma plus_none s : has_char "+" s = false -> plus_to_blank s = s.
Proof. induction s as [|c s IH]; [done|]. cbn [has_char plus_to_blank]. intros [-> Hs]%orb_false_iff. by rewrite IH. Qed.

Lemma pair_facts h : pair_ok h = true -> has_char "=" h.1 = false /\ has_char "&" (pair_text h) = false /\ has_char "%" (pair_text h) = false /\ has_char "+" (pair_text h) = false.
Proof.
  unfold pair_ok, pair_text. rewrite andb_true_iff, !negb_true_iff. cbn [existsb]. rewrite !orb_false_iff, !has_char_app. cbn [has_char Ascii.eqb Bool.eqb orb]. intros (H1 & (H2 & H2') & (H3 & H3') & (H4 & H4') & _).
  by rewrite H2, H3, H4.
Qed.

Lemma parse_pair ev h : pair_ok h = true -> parse_piece ev (pair_text h) = EventTheorems.run_op ev (add_op h).
Proof.
  intros (H1 & _ & H3 & H4)%pair_facts. unfold parse_piece. rewrite plus_none by done. unfold Url.switch_url_decode. change Url.percent with "%"%char. rewrite H3. unfold pair_text. by rewrite cut_at_found.
Qed.

Lemma pairs_no_amp l : forallb pair_ok l = true -> forallb (fun a => negb (has_char "&" a)) (map pair_text l) = true.
Proof. induction l as [|h l IH]; [done|]. cbn [forallb map]. intros [(_ & Hh & _)%pair_facts Hl]%andb_true_iff. by rewrite Hh, IH. Qed.

(** A query string of names and values without special characters adds them in order. *)
Theorem parse_qs_pairs ev h hdrs : forallb pair_ok (h :: hdrs) = true ->
  switch_http_parse_qs ev (String.concat "&" (map pair_text (h :: hdrs))) = EventTheorems.run_ops ev (map add_op (h :: hdrs)).
Proof.
  intros Hh. unfold switch_http_parse_qs. rewrite (split_on_concat "&") by (done || by apply pairs_no_amp). revert ev Hh. generalize (h :: hdrs). clear h hdrs. intros l.
  induction l as [|h l IH]; intros ev Hh; [done|]. cbn [forallb map parse_qs_loop EventTheorems.run_ops] in *. apply andb_true_iff in Hh as [Hh Hl]. rewrite parse_pair by done.
  destruct (EventTheorems.run_op ev (add_op h)) as [ev1|]; [|done]. cbn [mbind option_bind]. by apply IH.
Qed.

Lemma parse_qs_pairs_witness : switch_http_parse_qs (Event.switch_event_create_plain true) "a=1&b=x y" = EventTheorems.run_ops (Event.switch_event_create_plain true) [add_op ("a", "1"); add_op ("b", "x y")].
Proof. exact (parse_qs_pairs (Event.switch_event_create_plain true) ("a", "1") [("b", "x y")] eq_refl). Defined.

(** ** Findings *)

(** Quoted or escaped slashes do not separate segments, and are written out without quotes: the path
    leaves the root. *)
Theorem quotes_leave_root : clean_uri "/'../../etc/passwd'" = Some (SWITCH_STATUS_SUCCESS, "/../../etc/passwd")
  /\ clean_uri "/..\/..\/etc/passwd" = Some (SWITCH_STATUS_SUCCESS, "/../../etc/passwd").
Proof. split; vm_compute; reflexivity. Qed.

Definition deep_path : string := raw_path (replicate 62 "." ++ [".."; ".."; "etc"; "passwd"]).

(** The 64th place of the array takes the rest of the path as one segment; the test for paths that
    are too deep compares with the size of the array in bytes. *)
Theorem depth_leaves_root : clean_uri deep_path = Some (SWITCH_STATUS_SUCCESS, "/../../etc/passwd").
Proof. vm_compute. reflexivity. Qed.

(** The check of the first ten characters refuses a method of nine characters and accepts
    one of ten. *)
Theorem sanity_nine : switch_http_parse_header (line "PROPPATCH / HTTP/1.1" +:+ line "") request_0 (Event.switch_event_create_plain true) = Some Refused
  /\ exists r, switch_http_parse_header (line "PROPPATCHX / HTTP/1.1" +:+ line "") request_0 (Event.switch_event_create_plain true) = Some (Parsed r).
Proof. split; [vm_compute; reflexivity|]. eexists. vm_compute. reflexivity. Qed.

(** Apostrophes in two headers join all lines between them into one value. *)
Theorem quotes_join_headers : match switch_http_parse_header (line "GET / HTTP/1.1" +:+ line "A: it's" +:+ line "Secret: 1" +:+ line "B: it's" +:+ line "") request_0 (Event.switch_event_create_plain true) with
  | Some (Parsed r) => option_map (fun ev => (length (Event.headers ev), Event.switch_event_get_header ev "Secret")) (req_headers r) = Some (1%nat, None)
  | _ => False
  end.
Proof. vm_compute. reflexivity. Qed.

(** Headers are compared by their first characters, and a negative length becomes a huge one. *)
Theorem lengths_by_prefix : match switch_http_parse_header (line "GET / HTTP/1.1" +:+ line "Content-Length: 5" +:+ line "Content-Length-Hint: -1" +:+ line "") request_0 (Event.switch_event_create_plain true) with
  | Some (Parsed r) => content_length r = 2 ^ 64 - 1
  | _ => False
  end.
Proof. vm_compute. reflexivity. Qed.

(** The query string is decoded before it is split: an encoded equals sign in a name ends the name. *)
Theorem equals_in_name : option_map (fun ev => Event.switch_event_get_header ev "a") (switch_http_parse_qs (Event.switch_event_create_plain true) "a%3Db=c") = Some (Some "b=c").
Proof. vm_compute. reflexivity. Qed.

End Http.
