(* ===== verification/TimeMatch.v ===== *)
(** * Time conditions (src/src/switch_utils.c, src/src/switch_xml.c)

    The conditions on date and time of dialplan extensions: lists of numbers, days of the
    week, times of day and dates, with ranges, and switch_xml_std_datetime_check, which
    puts them together.

    An [int] is a [Z]; the result of strtol is cut to the range of a long and stored in an
    int.  switch_str_time, which reads a date with regular expressions and the time zone of the system, is
    an argument, as are the clock readings that are broken down into their parts.  The week of the month is
    computed with a double that is exact for days of a month.  Logging is left out. *)

From S2P Require Import Prelude.
From S2P Require Import Text NetworkList Url Event EventTheorems EventWire Http.
From stdpp Require Import strings.
From Stdlib Require Import Ascii.

#[local] Open Scope string_scope.
#[local] Open Scope list_scope.
#[local] Open Scope Z_scope.

Module TimeMatch.
Import Text.
Import Http (cut_at, split_on, starts_ci).
Import EventWire (decimal_from, decimal).
Import NetworkList (zstr).

(** ** Numbers *)

(** The digits of a number and what follows. *)
Fixpoint read_digits (acc : Z) (s : string) : Z * string :=
  match s with
  | String c s' => match digit_of c with Some d => read_digits (acc * 10 + d) s' | None => (acc, s) end
  | EmptyString => (acc, "")
  end.

Definition clamp_long (z : Z) : Z := Z.max (- 2 ^ 63) (Z.min (2 ^ 63 - 1) z).

Definition is_digit (s : string) : bool := match s with String c _ => match digit_of c with Some _ => true | None => false end | EmptyString => false end.

(** The sign and the digits at [s]; [start] is returned if there are no digits. *)
Definition strtol_sign (start s : string) : Z * string :=
  let '(minus, s) := match s with String c s' => if Ascii.eqb c "-" then (true, s') else if Ascii.eqb c "+" then (false, s') else (false, s) | EmptyString => (false, s) end in
  if is_digit s then let '(z, rest) := read_digits 0 s in (clamp_long (if minus : bool then - z else z), rest) else (0, start).

Fixpoint strtol_from (start s : string) : Z * string :=
  match s with String c s' => if isspace c then strtol_from start s' else strtol_sign start s | EmptyString => (0, start) end.

Definition strtol (s : string) : Z * string := strtol_from s s.

Definition atol (s : string) : Z := (strtol s).1.

(** The test of all ranges: one that ends before it starts goes around. *)
Definition within (a b val : Z) : bool := if a <=? b then (val >=? a) && (val <=? b) else (val >=? a) || (val <=? b).

(** One round of the loop: whether it matches, and what follows. *)
Definition number_item (exp : string) (val : Z) : bool * string :=
  let '(a, exp) := strtol exp in
  match exp with
  | String c exp' =>
      if Ascii.eqb c "-" then let '(b, exp) := strtol exp' in (within (s32 a) (s32 b) val, exp) else (s32 a =? val, exp)
  | EmptyString => (s32 a =? val, exp)
  end.

(** Every round but the last takes a comma, so the length of the text is fuel enough. *)
Fixpoint number_loop (fuel : nat) (exp : string) (val : Z) : option bool :=
  let '(found, exp) := number_item exp val in
  if found : bool then Some true
  else
    match exp with
    | String c exp => if Ascii.eqb c "," then match fuel with O => None | S fuel => number_loop fuel exp val end else Some false
    | EmptyString => Some false
    end.

Definition switch_number_cmp (exp : string) (val : Z) : option bool := number_loop (String.length exp) exp val.

(** ** Days of the week *)

Definition DOW : list string := ["sun"; "mon"; "tue"; "wed"; "thu"; "fri"; "sat"].

(** The length of the array is unsigned, and so is the comparison. *)
Definition switch_dow_int2str (val : Z) : option string := DOW !! Z.to_nat (if u64 val >=? 7 then u64 val mod 7 else val).

Fixpoint dow_from (x : Z) (names : list string) (exp : string) : Z :=
  match names with [] => -1 | n :: names => if starts_ci exp n then x + 1 else dow_from (x + 1) names exp end.

Definition switch_dow_str2int (exp : string) : Z := dow_from 0 DOW exp.

Definition DOW_ERR : Z := -2.
Definition DOW_EOF : Z := -1.
Definition DOW_HYPHEN : Z := 45.
Definition DOW_COMA : Z := 44.

Definition dow_read_token (s : string) : Z * string :=
  match s with
  | EmptyString => (DOW_EOF, s)
  | String c s' =>
      if Ascii.eqb c "-" then (DOW_HYPHEN, s')
      else if Ascii.eqb c "," then (DOW_COMA, s')
      else
        match digit_of c with
        | Some d => if (1 <=? d) && (d <=? 7) then (d, s') else (DOW_ERR, s)
        | None =>
            let i := switch_dow_str2int s in
            if negb (i =? 0) && negb (i =? -1) then (i, String.substring 3 (String.length s - 3) s) else (DOW_ERR, s)
        end
  end.

Fixpoint dow_loop (fuel : nat) (p : string) (prev range_start val : Z) : option bool :=
  let '(cur, p) := dow_read_token p in
  if cur =? DOW_EOF then Some false
  else
    match fuel with
    | O => None
    | S fuel =>
        if cur =? DOW_COMA then dow_loop fuel p DOW_EOF range_start val
        else if cur =? DOW_HYPHEN then dow_loop fuel p cur prev val
        else if cur =? DOW_ERR then Some false
        else if negb (range_start =? DOW_EOF) then
          if within range_start cur val then Some true else dow_loop fuel p cur DOW_EOF val
        else if val =? cur then Some true
        else dow_loop fuel p cur range_start val
    end.

Definition switch_dow_cmp (exp : string) (val : Z) : option bool := dow_loop (String.length exp) exp DOW_EOF DOW_EOF val.

(** ** Times of day and dates *)

(** The text up to the first [c], and what follows it or [other]. *)
Definition before (c : ascii) (s other : string) : string * string := match cut_at c s with Some r => r | None => (s, other) end.

Definition tod_item (cur : string) (val : Z) : bool :=
  match cut_at ":" cur with
  | Some (minh, minm) =>
      match cut_at "-" minm with
      | Some (minm, maxh) =>
          match cut_at ":" maxh with
          | Some (maxh, maxm) =>
              let '(minm, mins) := before ":" minm "00" in
              let '(maxm, maxs) := before ":" maxm "00" in
              within (s32 (atol minh * 60 * 60 + atol minm * 60 + atol mins)) (s32 (atol maxh * 60 * 60 + atol maxm * 60 + atol maxs)) val
          | None => false
          end
      | None => false
      end
  | None => false
  end.

Definition switch_tod_cmp (exp : string) (val : Z) : bool := existsb (fun cur => tod_item cur val) (split_on "," exp).

(** [str_time] is switch_str_time, which gives zero for what it cannot read. *)
Fixpoint fulldate_loop (str_time : string -> Z) (l : list string) (ts : Z) : bool :=
  match l with
  | [] => false
  | cur :: l =>
      match cut_at "~" cur with
      | Some (s, e) =>
          if (str_time s =? 0) || (str_time e =? 0) then false
          else if (str_time s <=? ts) && (str_time e >? ts) then true
          else fulldate_loop str_time l ts
      | None => fulldate_loop str_time l ts
      end
  end.

Definition switch_fulldate_cmp (str_time : string -> Z) (exp : string) (ts : Z) : bool := fulldate_loop str_time (split_on "," exp) ts.

(** ** The conditions of an extension *)

Record switch_time_exp := mk_tm {
  tm_sec : Z; tm_min : Z; tm_hour : Z; tm_mday : Z; tm_mon : Z; tm_year : Z; tm_wday : Z; tm_yday : Z; tm_isdst : Z; tm_gmtoff : Z }.

(** The attributes of the condition. *)
Record xcond := mk_xcond {
  date_time : option string; year : option string; yday : option string; mon : option string; mday : option string; week : option string; mweek : option string;
  wday : option string; hour : option string; minute : option string; minute_of_day : option string; time_of_day : option string; tz_offset : option string; dst : option string }.

(** A condition that is given, as long as the ones before match. *)
Definition check (attr : option string) (test : string -> option bool) (time_match : Z) : option Z :=
  match attr with
  | Some exp => if time_match =? 0 then Some time_match else Z.b2z <$> test exp
  | None => Some time_match
  end.

(** The day of the week of the first of the month, and the week of the month. *)
Definition firstdow (tm : switch_time_exp) : Z := Z.rem (7 - Z.rem (tm_mday tm - (tm_wday tm + 1)) 7) 7.
Definition week_of_month (tm : switch_time_exp) : Z := - (- (tm_mday tm + firstdow tm) / 7).

(** [tm] is the time at the offset or in the time zone given, else [tm2], the local time. *)
Definition switch_xml_std_datetime_check (str_time : string -> Z) (x : xcond) (offset : option Z) (ts : Z) (tm tm2 : switch_time_exp) : option Z :=
  let want_dst := if zstr (dst x) then -1000 else Z.b2z (switch_true (dst x)) in
  let loffset := match tz_offset x with Some t => if negb (String.eqb t "") && switch_is_number t then atoi t else -1000 | None => -1000 end in
  let eoffset := default (-1000) offset in
  let eoffset := if eoffset =? -1000 then Z.quot (tm_gmtoff tm) 3600 else eoffset in
  let loffset := if loffset =? -1000 then eoffset else loffset in
  m ← check (tz_offset x) (fun _ => Some (loffset =? eoffset)) (-1);
  let m := if negb (m =? 0) && (want_dst >? -1) then Z.b2z ((tm_isdst tm2 >? 0) && (want_dst >? 0)) else m in
  m ← check (date_time x) (fun exp => Some (switch_fulldate_cmp str_time exp ts)) m;
  m ← check (year x) (fun exp => switch_number_cmp exp (tm_year tm + 1900)) m;
  m ← check (yday x) (fun exp => switch_number_cmp exp (tm_yday tm + 1)) m;
  m ← check (mon x) (fun exp => switch_number_cmp exp (tm_mon tm + 1)) m;
  m ← check (mday x) (fun exp => switch_number_cmp exp (tm_mday tm)) m;
  m ← check (week x) (fun exp => switch_number_cmp exp (Z.quot (tm_yday tm) 7 + 1)) m;
  m ← check (mweek x) (fun exp => switch_number_cmp exp (week_of_month tm)) m;
  m ← check (wday x) (fun exp => switch_dow_cmp exp (tm_wday tm + 1)) m;
  m ← check (hour x) (fun exp => switch_number_cmp exp (tm_hour tm)) m;
  m ← check (minute x) (fun exp => switch_number_cmp exp (tm_min tm)) m;
  m ← check (minute_of_day x) (fun exp => switch_number_cmp exp (tm_hour tm * 60 + (tm_min tm + 1))) m;
  check (time_of_day x) (fun exp => Some (switch_tod_cmp exp (tm_hour tm * 60 * 60 + tm_min tm * 60 + tm_sec tm))) m.

Example number_1 : map (switch_number_cmp "1,5-8, 20-3") [1; 4; 6; 21; 2; 15] = map Some [true; false; true; true; true; false].
Proof. vm_compute. reflexivity. Qed.
Example dow_1 : map (switch_dow_cmp "mon-Wed,6") [1; 2; 3; 4; 5; 6; 7] = map Some [false; true; true; true; false; true; false].
Proof. vm_compute. reflexivity. Qed.
Example tod_1 : map (switch_tod_cmp "9:00-17:30,23:00-1:00:30") [9 * 3600; 17 * 3600 + 1801; 0; 3631] = [true; false; true; false].
Proof. vm_compute. reflexivity. Qed.

(** ** Reading numbers *)

Lemma digit_char d : 0 <= d < 10 -> digit_of (Url.char (48 + d)) = Some d.
Proof. intros Hd. assert (d = 0 \/ d = 1 \/ d = 2 \/ d = 3 \/ d = 4 \/ d = 5 \/ d = 6 \/ d = 7 \/ d = 8 \/ d = 9) as H by lia. by destruct H as [->|[->|[->|[->|[->|[->|[->|[->|[->| ->]]]]]]]]]. Qed.

Lemma digit_code c d : digit_of c = Some d -> (48 <= N_of_ascii c <= 57)%N.
Proof. unfold digit_of. destruct ((48 <=? N_of_ascii c)%N && _) eqn:E; [|done]. intros _. apply andb_true_iff in E as [?%N.leb_le ?%N.leb_le]. lia. Qed.

(** A digit is neither a blank nor one of the signs and separators. *)
Lemma digit_plain c d : digit_of c = Some d -> isspace c = false /\ Ascii.eqb c "-" = false /\ Ascii.eqb c "+" = false /\ Ascii.eqb c "," = false /\ Ascii.eqb c ":" = false.
Proof.
  intros Hc%digit_code. split_and!.
  - unfold isspace. destruct (N.leb_spec 9 (N_of_ascii c)), (N.leb_spec (N_of_ascii c) 13), (N.eqb_spec (N_of_ascii c) 32); try done; lia.
  - destruct (Ascii.eqb_spec c "-") as [->|]; [cbn in Hc; lia|done].
  - destruct (Ascii.eqb_spec c "+") as [->|]; [cbn in Hc; lia|done].
  - destruct (Ascii.eqb_spec c ",") as [->|]; [cbn in Hc; lia|done].
  - destruct (Ascii.eqb_spec c ":") as [->|]; [cbn in Hc; lia|done].
Qed.

Lemma read_decimal f n rest : 0 <= n < 10 ^ Z.of_nat (S f) -> read_digits 0 (decimal_from (S f) n +:+ rest) = read_digits n rest.
Proof.
  revert n rest. induction f as [|f IH]; intros n rest Hn.
  - assert (n < 10) by (cbn in Hn; lia). cbn [decimal_from]. rewrite (proj2 (Z.ltb_lt n 10)) by done. rewrite Z.mod_small by lia.
    change (read_digits 0 (String (Url.char (48 + n)) rest) = read_digits n rest). cbn [read_digits]. by rewrite digit_char.
  - change (decimal_from (S (S f)) n) with ((if n <? 10 then "" else decimal_from (S f) (n / 10)) +:+ String (Url.char (48 + n mod 10)) ""). rewrite append_assoc.
    pose proof (Z.mod_pos_bound n 10 ltac:(lia)). destruct (Z.ltb_spec n 10).
    + rewrite Z.mod_small by lia. change (read_digits 0 (String (Url.char (48 + n)) rest) = read_digits n rest). cbn [read_digits]. by rewrite digit_char by lia.
    + rewrite IH. 2: { rewrite Nat2Z.inj_succ, Z.pow_succ_r in Hn by lia. split; [apply Z.div_pos; lia|apply Z.div_lt_upper_bound; lia]. }
      change (String (Url.char (48 + n mod 10)) "" +:+ rest) with (String (Url.char (48 + n mod 10)) rest). cbn [read_digits]. rewrite digit_char by lia. f_equal. pose proof (Z.div_mod n 10). lia.
Qed.

Lemma decimal_head f n : 0 <= n -> exists c t d, decimal_from (S f) n = String c t /\ digit_of c = Some d.
Proof.
  revert n. induction f as [|f IH]; intros n Hn; pose proof (Z.mod_pos_bound n 10 ltac:(lia)).
  - exists (Url.char (48 + n mod 10)), "", (n mod 10). split; [cbn [decimal_from]; by destruct (n <? 10)|by apply digit_char].
  - change (decimal_from (S (S f)) n) with ((if n <? 10 then "" else decimal_from (S f) (n / 10)) +:+ String (Url.char (48 + n mod 10)) ""). destruct (n <? 10).
    + eexists _, _, _. split; [reflexivity|by apply digit_char].
    + destruct (IH (n / 10)) as (c & t & d & -> & Hd); [apply Z.div_pos; lia|]. by eexists _, _, _.
Qed.

Definition no_digit (s : string) : bool := negb (is_digit s).

Definition small (n : Z) : bool := (0 <=? n) && (n <? 2 ^ 31).

Lemma small_range n : small n = true -> 0 <= n < 2 ^ 31.
Proof. unfold small. rewrite andb_true_iff, Z.leb_le, Z.ltb_lt. done. Qed.

Lemma strtol_decimal n rest : small n = true -> no_digit rest = true -> strtol (decimal n +:+ rest) = (n, rest).
Proof.
  intros Hn%small_range Hrest. unfold strtol, decimal. pose proof (read_decimal 19 n rest ltac:(cbn; lia)) as Hread. destruct (decimal_head 19 n ltac:(lia)) as (c & t & d & E & Hd).
  rewrite E in *. change (String c t +:+ rest) with (String c (t +:+ rest)) in *. destruct (digit_plain c d Hd) as (H1 & H2 & H3 & _).
  cbn [strtol_from]. rewrite H1. unfold strtol_sign. rewrite H2, H3. cbn [is_digit]. rewrite Hd, Hread.
  assert (read_digits n rest = (n, rest)) as ->; [|unfold clamp_long; f_equal; lia].
  unfold no_digit, is_digit in Hrest. destruct rest as [|x rest]; [done|]. cbn [read_digits]. by destruct (digit_of x).
Qed.

Lemma atol_decimal n : small n = true -> atol (decimal n) = n.
Proof. intros Hn. unfold atol. rewrite <- (append_nil (decimal n)). by rewrite strtol_decimal. Qed.

Lemma s32_id n : small n = true -> s32 n = n.
Proof. intros Hn%small_range. apply s32_small. lia. Qed.

(** ** Lists of numbers *)

(** An item: a number or a range. *)
Definition item_ok (i : Z * option Z) : bool := small i.1 && match i.2 with Some b => small b | None => true end.
Definition item_text (i : Z * option Z) : string := decimal i.1 +:+ match i.2 with Some b => String "-" (decimal b) | None => "" end.
Definition item_holds (val : Z) (i : Z * option Z) : bool := match i.2 with Some b => within i.1 b val | None => i.1 =? val end.

(** What may follow an item. *)
Definition item_end (rest : string) : Prop := rest = "" \/ exists t, rest = String "," t.

Lemma number_item_spec i rest val : item_ok i = true -> item_end rest -> number_item (item_text i +:+ rest) val = (item_holds val i, rest).
Proof.
  destruct i as [a [b|]]; unfold item_ok, item_text, item_holds; cbn [fst snd]; intros Hi He; unfold number_item.
  - apply andb_true_iff in Hi as [Ha Hb]. rewrite append_assoc. change (String "-" (decimal b) +:+ rest) with (String "-" (decimal b +:+ rest)). rewrite strtol_decimal by done. cbv iota beta.
    change (Ascii.eqb "-" "-") with true. cbv iota. rewrite strtol_decimal by (done || by destruct He as [->|[t ->]]). by rewrite !s32_id.
  - rewrite andb_true_r in Hi. rewrite append_nil. rewrite strtol_decimal by (done || by destruct He as [->|[t ->]]). rewrite s32_id by done. by destruct He as [->|[t ->]].
Qed.

Lemma number_loop_spec items : forall fuel val, items <> [] -> forallb item_ok items = true -> (String.length (String.concat "," (map item_text items)) <= fuel)%nat ->
  number_loop fuel (String.concat "," (map item_text items)) val = Some (existsb (item_holds val) items).
Proof.
  induction items as [|i items IH]; intros fuel val Hne Hf Hl; [done|]. cbn [forallb map existsb] in *. apply andb_true_iff in Hf as [Hi Hf]. destruct items as [|i' items].
  - cbn [map String.concat existsb] in *. rewrite <- (append_nil (item_text i)). rewrite orb_false_r.
    destruct fuel; cbn [number_loop]; rewrite number_item_spec by (done || by left); by destruct (item_holds val i).
  - cbn [map] in *. rewrite Http.concat_cons in * by done. change ("," +:+ ?t) with (String "," t) in *. rewrite append_length in Hl. cbn [String.length] in Hl. destruct fuel as [|fuel]; [lia|].
    cbn [number_loop]. rewrite number_item_spec; [|done|right; by eexists]. cbv iota beta. destruct (item_holds val i); [done|]. cbn [orb]. change (Ascii.eqb "," ",") with true. cbv iota. apply IH; [done|done|lia].
Qed.

(** ** Lists of days *)

(** A day, by its name or by its number. *)
Definition day_ok (d : bool * Z) : bool := (1 <=? d.2) && (d.2 <=? 7).
Definition day_name (d : Z) : string :=
  match d with 1 => "sun" | 2 => "mon" | 3 => "tue" | 4 => "wed" | 5 => "thu" | 6 => "fri" | _ => "sat" end.
Definition day_text (d : bool * Z) : string := if d.1 then day_name d.2 else decimal d.2.

Lemma read_day d rest : day_ok d = true -> dow_read_token (day_text d +:+ rest) = (d.2, rest).
Proof.
  destruct d as [b d]. unfold day_ok. cbn [fst snd]. rewrite andb_true_iff, !Z.leb_le. intros Hd.
  assert (d = 1 \/ d = 2 \/ d = 3 \/ d = 4 \/ d = 5 \/ d = 6 \/ d = 7) as H by lia.
  destruct b; [|by destruct H as [->|[->|[->|[->|[->|[->| ->]]]]]]].
  assert (forall a b c : ascii, String.substring 3 (String.length (String a (String b (String c rest))) - 3) (String a (String b (String c rest))) = rest) as Hsub.
  { intros. cbn [String.length]. replace (S (S (S (String.length rest))) - 3)%nat with (String.length rest) by lia. apply substring_all. }
  assert (forall (a b c : ascii) d', dow_read_token (String a (String b (String c ""))) = (d', "") -> digit_of a = None -> 
    dow_from 0 DOW (String a (String b (String c ""))) = dow_from 0 DOW (String a (String b (String c rest))) -> Ascii.eqb a "-" = false -> Ascii.eqb a "," = false -> d' <> DOW_ERR ->
    dow_read_token (String a (String b (String c rest))) = (d', rest)) as Hread.
  { intros a b c d' Ht Ha Hf H1 H2 Hd'. unfold dow_read_token in *. rewrite H1, H2, Ha in *. unfold switch_dow_str2int in *. rewrite <- Hf. destruct (negb _ && negb _); [|by injection Ht as <-].
    injection Ht as <-. by rewrite Hsub. }
  destruct H as [->|[->|[->|[->|[->|[->| ->]]]]]]; cbn [day_text fst snd day_name]; (apply Hread; [vm_compute; reflexivity|reflexivity|by destruct rest|reflexivity|reflexivity|done]).
Qed.

Definition days_ok (i : (bool * Z) * option (bool * Z)) : bool := day_ok i.1 && match i.2 with Some b => day_ok b | None => true end.
Definition days_text (i : (bool * Z) * option (bool * Z)) : string := day_text i.1 +:+ match i.2 with Some b => String "-" (day_text b) | None => "" end.
Definition days_hold (val : Z) (i : (bool * Z) * option (bool * Z)) : bool := match i.2 with Some b => within i.1.2 b.2 val | None => val =? i.1.2 end.

Lemma day_range d : day_ok d = true -> 1 <= d.2 <= 7.
Proof. unfold day_ok. rewrite andb_true_iff, !Z.leb_le. done. Qed.

Lemma day_length d : day_ok d = true -> (1 <= String.length (day_text d))%nat.
Proof.
  destruct d as [b d]. intros Hd%day_range. cbn [snd] in Hd. unfold day_text. cbn [fst snd].
  assert (d = 1 \/ d = 2 \/ d = 3 \/ d = 4 \/ d = 5 \/ d = 6 \/ d = 7) as H by lia. destruct b; destruct H as [->|[->|[->|[->|[->|[->| ->]]]]]]; vm_compute; lia.
Qed.

(** One round that reads a day. *)
Lemma dow_loop_day fuel d rest prev rs val : day_ok d = true -> dow_loop (S fuel) (day_text d +:+ rest) prev rs val =
  if negb (rs =? DOW_EOF) then if within rs d.2 val then Some true else dow_loop fuel rest d.2 DOW_EOF val
  else if val =? d.2 then Some true else dow_loop fuel rest d.2 rs val.
Proof.
  intros Hd. cbn [dow_loop]. rewrite read_day by done. apply day_range in Hd.
  rewrite (proj2 (Z.eqb_neq d.2 DOW_EOF)), (proj2 (Z.eqb_neq d.2 DOW_COMA)), (proj2 (Z.eqb_neq d.2 DOW_HYPHEN)), (proj2 (Z.eqb_neq d.2 DOW_ERR)) by (unfold DOW_EOF, DOW_COMA, DOW_HYPHEN, DOW_ERR; lia). done.
Qed.

Lemma within_start a b : within a b a = true.
Proof. unfold within. cmp_goal; cbn; try done; lia. Qed.

(** One item: it matches, or the loop goes on behind it. *)
Lemma dow_item fuel i rest prev val : days_ok i = true -> (String.length (days_text i +:+ rest) <= fuel)%nat ->
  exists fuel' prev', (String.length rest <= fuel')%nat /\ dow_loop fuel (days_text i +:+ rest) prev DOW_EOF val = if days_hold val i then Some true else dow_loop fuel' rest prev' DOW_EOF val.
Proof.
  destruct i as [a [b|]]; unfold days_ok, days_text, days_hold; cbn [fst snd].
  - intros [Ha Hb]%andb_true_iff Hl. rewrite append_assoc in *. change (String "-" (day_text b) +:+ rest) with (String "-" (day_text b +:+ rest)) in *. rewrite append_length in Hl. cbn [String.length] in Hl. rewrite append_length in Hl.
    pose proof (day_length a Ha). pose proof (day_length b Hb). destruct fuel as [|[|[|fuel]]]; [lia..|]. exists fuel, b.2. split; [lia|]. rewrite dow_loop_day by done. cbn [Z.eqb negb]. change (DOW_EOF =? DOW_EOF) with true. cbn [negb].
    destruct (Z.eqb_spec val a.2) as [->|_]; [by rewrite within_start|]. change (dow_loop (S (S fuel)) (String "-" (day_text b +:+ rest)) a.2 DOW_EOF val) with (dow_loop (S fuel) (day_text b +:+ rest) DOW_HYPHEN a.2 val).
    rewrite dow_loop_day by done. apply day_range in Ha. by rewrite (proj2 (Z.eqb_neq a.2 DOW_EOF)) by (unfold DOW_EOF; lia).
  - rewrite andb_true_r. intros Ha Hl. rewrite append_nil in *. rewrite append_length in Hl. pose proof (day_length a Ha). destruct fuel as [|fuel]; [lia|]. exists fuel, a.2. split; [lia|].
    rewrite dow_loop_day by done. done.
Qed.

Lemma dow_loop_spec items : forall fuel prev val, items <> [] -> forallb days_ok items = true -> (String.length (String.concat "," (map days_text items)) <= fuel)%nat ->
  dow_loop fuel (String.concat "," (map days_text items)) prev DOW_EOF val = Some (existsb (days_hold val) items).
Proof.
  induction items as [|i items IH]; intros fuel prev val Hne Hf Hl; [done|]. cbn [forallb map existsb] in *. apply andb_true_iff in Hf as [Hi Hf]. destruct items as [|i' items].
  - cbn [map String.concat existsb] in *. rewrite <- (append_nil (days_text i)) in *. destruct (dow_item fuel i "" prev val Hi Hl) as (fuel' & prev' & _ & ->). rewrite orb_false_r.
    destruct (days_hold val i); [done|]. by destruct fuel'.
  - cbn [map] in *. rewrite Http.concat_cons in * by done. change ("," +:+ ?t) with (String "," t) in *. destruct (dow_item fuel i _ prev val Hi Hl) as (fuel' & prev' & Hl' & ->).
    destruct (days_hold val i); [done|]. cbn [orb String.length] in *. destruct fuel' as [|fuel']; [lia|].
    match goal with |- dow_loop (S fuel') (String "," ?t) prev' DOW_EOF val = _ => change (dow_loop (S fuel') (String "," t) prev' DOW_EOF val) with (dow_loop fuel' t DOW_EOF DOW_EOF val) end.
    apply IH; [done|done|lia].
Qed.

(** ** Lists of times *)

(** From hour and minute to hour and minute. *)
Definition time_ok (i : (Z * Z) * (Z * Z)) : bool := forallb (fun n => (0 <=? n) && (n <? 100000)) [i.1.1; i.1.2; i.2.1; i.2.2].
Definition time_text (i : (Z * Z) * (Z * Z)) : string :=
  decimal i.1.1 +:+ String ":" (decimal i.1.2 +:+ String "-" (decimal i.2.1 +:+ String ":" (decimal i.2.2))).
Definition time_holds (val : Z) (i : (Z * Z) * (Z * Z)) : bool := within (i.1.1 * 3600 + i.1.2 * 60) (i.2.1 * 3600 + i.2.2 * 60) val.

Lemma decimal_digits c n : 0 <= n -> digit_of c = None -> has_char c (decimal n) = false.
Proof.
  intros Hn Hc. unfold decimal. generalize 20%nat. intros f. revert n Hn. induction f as [|f IH]; intros n Hn; [done|]. cbn [decimal_from]. rewrite Http.has_char_app.
  assert (has_char c (if n <? 10 then "" else decimal_from f (n / 10)) = false) as -> by (destruct (n <? 10); [done|apply IH, Z.div_pos; lia]).
  cbn [has_char orb]. rewrite orb_false_r. destruct (Ascii.eqb_spec (Url.char (48 + n mod 10)) c) as [E|]; [|done]. rewrite <- E, digit_char in Hc; [done|]. apply Z.mod_pos_bound. lia.
Qed.

Lemma tod_item_spec i val : time_ok i = true -> tod_item (time_text i) val = time_holds val i.
Proof.
  destruct i as [[h m] [h' m']]. unfold time_ok, time_text, time_holds. cbn [fst snd forallb]. rewrite !andb_true_iff, !Z.leb_le, !Z.ltb_lt. intros (Hh & Hm & Hh' & Hm' & _).
  unfold tod_item, before. assert (forall c x, digit_of c = None -> 0 <= x < 100000 -> has_char c (decimal x) = false) as Hd by (intros; apply decimal_digits; [lia|done]).
  rewrite Http.cut_at_found by (by apply Hd). rewrite Http.cut_at_found by (by apply Hd). rewrite Http.cut_at_found by (by apply Hd). rewrite !Http.cut_at_none by (by apply Hd).
  assert (forall x, 0 <= x < 100000 -> atol (decimal x) = x) as Ha. { intros x Hx. apply atol_decimal. unfold small. apply andb_true_iff. rewrite Z.leb_le, Z.ltb_lt. lia. }
  rewrite !Ha by done. change (atol "00") with 0. rewrite !s32_small by lia. f_equal; lia.
Qed.

Lemma time_no_comma i : time_ok i = true -> has_char "," (time_text i) = false.
Proof.
  destruct i as [[h m] [h' m']]. unfold time_ok, time_text. cbn [fst snd forallb]. rewrite !andb_true_iff, !Z.leb_le, !Z.ltb_lt. intros (Hh & Hm & Hh' & Hm' & _).
  rewrite Http.has_char_app. cbn [has_char]. rewrite Http.has_char_app. cbn [has_char]. rewrite Http.has_char_app. cbn [has_char]. by rewrite !decimal_digits by (done || lia).
Qed.

Lemma tod_cmp_spec items val : items <> [] -> forallb time_ok items = true -> switch_tod_cmp (String.concat "," (map time_text items)) val = existsb (time_holds val) items.
Proof.
  intros Hne Hf. unfold switch_tod_cmp. rewrite (Http.split_on_concat ",").
  - clear Hne. induction items as [|i items IH]; [done|]. cbn [forallb map existsb] in *. apply andb_true_iff in Hf as [Hi Hf]. by rewrite tod_item_spec, IH.
  - by destruct items.
  - clear Hne. induction items as [|i items IH]; [done|]. cbn [forallb map] in *. apply andb_true_iff in Hf as [Hi Hf]. by rewrite time_no_comma, IH.
Qed.

(** ** Every text is read to the end *)

Lemma read_digits_length acc s : (String.length (read_digits acc s).2 <= String.length s)%nat.
Proof. revert acc. induction s as [|c s IH]; intros acc; [done|]. cbn [read_digits]. destruct (digit_of c) as [d|]; [|done]. cbn [String.length]. specialize (IH (acc * 10 + d)). lia. Qed.

Lemma strtol_sign_length start s : (String.length s <= String.length start)%nat -> (String.length (strtol_sign start s).2 <= String.length start)%nat.
Proof.
  intros Hs. unfold strtol_sign. set (p := match s with EmptyString => (false, s) | String c s' => _ end).
  assert (String.length p.2 <= String.length s)%nat as Hp. { subst p. destruct s as [|c s]; [done|]. destruct (Ascii.eqb c "-"); [cbn; lia|]. destruct (Ascii.eqb c "+"); cbn; lia. }
  destruct p as [minus t]. cbn [snd] in Hp. destruct (is_digit t); [|done]. pose proof (read_digits_length 0 t). destruct (read_digits 0 t) as [z rest]. cbn [snd] in *. lia.
Qed.

Lemma strtol_length s : (String.length (strtol s).2 <= String.length s)%nat.
Proof.
  unfold strtol. assert (forall start t, (String.length t <= String.length start)%nat -> (String.length (strtol_from start t).2 <= String.length start)%nat) as H; [|by apply H].
  intros start t. induction t as [|c t IH]; intros Ht; [done|]. cbn [strtol_from]. destruct (isspace c); [apply IH; cbn in Ht; lia|by apply strtol_sign_length].
Qed.

Lemma number_item_length exp val : (String.length (number_item exp val).2 <= String.length exp)%nat.
Proof.
  unfold number_item. pose proof (strtol_length exp) as H. destruct (strtol exp) as [a [|c t]]; cbn [snd] in *; [done|]. destruct (Ascii.eqb c "-"); [|done].
  pose proof (strtol_length t) as H'. destruct (strtol t) as [b t']. cbn [snd String.length] in *. lia.
Qed.

Lemma number_cmp_returns exp val : exists b, switch_number_cmp exp val = Some b.
Proof.
  unfold switch_number_cmp. assert (String.length exp <= String.length exp)%nat as Hl by done. revert Hl. generalize (String.length exp) at 2 3. intros n. revert exp. induction n as [|n IH]; intros exp Hl;
    cbn [number_loop]; pose proof (number_item_length exp val) as Hi; destruct (number_item exp val) as [[] [|c t]]; cbn [snd String.length] in Hi; try by eexists.
  - lia.
  - destruct (Ascii.eqb c ","); [|by eexists]. apply IH. lia.
Qed.

Lemma dow_token_length s : (dow_read_token s).1 = DOW_EOF \/ (dow_read_token s).1 = DOW_ERR \/ (String.length (dow_read_token s).2 < String.length s)%nat.
Proof.
  unfold dow_read_token. destruct s as [|c s]; [by left|]. destruct (Ascii.eqb c "-"); [right; right; cbn; lia|]. destruct (Ascii.eqb c ","); [right; right; cbn; lia|].
  destruct (digit_of c) as [d|]; [destruct (_ && _); [right; right; cbn; lia|by right; left]|]. destruct (negb _ && negb _); [|by right; left].
  right. right. pose proof (EventTheorems.substring_length 3 (String.length (String c s) - 3) (String c s)) as H. cbn [snd]. cbn [String.length] in *. lia.
Qed.

Lemma dow_loop_returns fuel : forall exp prev rs val, (String.length exp <= fuel)%nat -> exists b, dow_loop fuel exp prev rs val = Some b.
Proof.
  induction fuel as [|n IH]; intros exp prev rs val Hl; [destruct exp; [by eexists|cbn in Hl; lia]|]. cbn [dow_loop]. pose proof (dow_token_length exp) as Ht.
  destruct (dow_read_token exp) as [cur p]; cbn [fst snd] in Ht. destruct (Z.eqb_spec cur DOW_EOF); [by eexists|]. destruct (Z.eqb_spec cur DOW_ERR) as [->|He]; [by eexists|]. destruct Ht as [?|[?|Ht]]; [done|done|].
  destruct (cur =? DOW_COMA); [apply IH; lia|]. destruct (cur =? DOW_HYPHEN); [apply IH; lia|].
  destruct (negb (rs =? DOW_EOF)); [destruct (within rs cur val); [by eexists|apply IH; lia]|]. destruct (val =? cur); [by eexists|apply IH; lia].
Qed.

Lemma dow_cmp_returns exp val : exists b, switch_dow_cmp exp val = Some b.
Proof. by apply dow_loop_returns. Qed.

(** ** All conditions *)

Definition met (attr : option string) (test : string -> option bool) : bool := match attr with Some exp => default false (test exp) | None => true end.

Lemma check_spec attr test m : (forall exp, exists b, test exp = Some b) -> exists m', check attr test m = Some m' /\ (m' <> 0 <-> m <> 0 /\ met attr test = true).
Proof.
  intros Ht. unfold check, met. destruct attr as [exp|]; [|exists m; naive_solver]. destruct (Z.eqb_spec m 0) as [->|Hm]; [exists 0; naive_solver|].
  destruct (Ht exp) as [b ->]. exists (Z.b2z b). split; [done|]. destruct b; cbn; naive_solver.
Qed.

(** The next condition: it returns, and adds its test. *)
Ltac next H :=
  match goal with |- context [check ?a ?t ?m] =>
    let m' := fresh "m" in destruct (check_spec a t m) as (m' & -> & H); [intros; first [apply number_cmp_returns|apply dow_cmp_returns|by eexists]|]; cbn [mbind option_bind] end.

(** ** Theorems *)

(** The values of a span: a range that ends before it starts goes around. *)
Definition span (a b val : Z) : Prop := a <= val <= b \/ b < a /\ (a <= val \/ val <= b).

Definition number_in (val : Z) (i : Z * option Z) : Prop := match i.2 with Some b => span i.1 b val | None => val = i.1 end.
Definition day_in (val : Z) (i : (bool * Z) * option (bool * Z)) : Prop := match i.2 with Some b => span i.1.2 b.2 val | None => val = i.1.2 end.
Definition time_in (val : Z) (i : (Z * Z) * (Z * Z)) : Prop := span (60 * (60 * i.1.1 + i.1.2)) (60 * (60 * i.2.1 + i.2.2)) val.

Lemma within_span a b val : within a b val = true <-> span a b val.
Proof. unfold within, span. destruct (Z.leb_spec a b); rewrite ?andb_true_iff, ?orb_true_iff, Z.geb_le, Z.leb_le; lia. Qed.

Lemma existsb_Exists {A} (f : A -> bool) (P : A -> Prop) l : (forall x, f x = true <-> P x) -> existsb f l = true <-> Exists P l.
Proof.
  intros H. induction l as [|x l IH]; [split; [done|by intros ?%Exists_nil]|]. cbn. rewrite orb_true_iff, Exists_cons, IH, H. done.
Qed.



(** The check of an extension always returns, and matches if and only if every condition that is given is met:
    the conditions are joined by and. *)
Theorem datetime_check_all str_time x offset ts tm tm2 : exists m, switch_xml_std_datetime_check str_time x offset ts tm tm2 = Some m /\
  (m <> 0 <->
   forallb (fun b => b)
     [met (tz_offset x) (fun t => let e := default (-1000) offset in let e := if e =? -1000 then Z.quot (tm_gmtoff tm) 3600 else e in
        Some ((if negb (String.eqb t "") && switch_is_number t && negb (atoi t =? -1000) then atoi t else e) =? e));
      zstr (dst x) || ((tm_isdst tm2 >? 0) && switch_true (dst x));
      met (date_time x) (fun e => Some (switch_fulldate_cmp str_time e ts));
      met (year x) (fun e => switch_number_cmp e (tm_year tm + 1900)); met (yday x) (fun e => switch_number_cmp e (tm_yday tm + 1));
      met (mon x) (fun e => switch_number_cmp e (tm_mon tm + 1)); met (mday x) (fun e => switch_number_cmp e (tm_mday tm));
      met (week x) (fun e => switch_number_cmp e (Z.quot (tm_yday tm) 7 + 1)); met (mweek x) (fun e => switch_number_cmp e (week_of_month tm));
      met (wday x) (fun e => switch_dow_cmp e (tm_wday tm + 1)); met (hour x) (fun e => switch_number_cmp e (tm_hour tm));
      met (minute x) (fun e => switch_number_cmp e (tm_min tm)); met (minute_of_day x) (fun e => switch_number_cmp e (tm_hour tm * 60 + (tm_min tm + 1)));
      met (time_of_day x) (fun e => Some (switch_tod_cmp e (tm_hour tm * 60 * 60 + tm_min tm * 60 + tm_sec tm)))] = true).
Proof.
  unfold switch_xml_std_datetime_check.
  set (loff := match tz_offset x with Some t => if negb (String.eqb t "") && switch_is_number t then atoi t else -1000 | None => -1000 end).
  set (e := if default (-1000) offset =? -1000 then Z.quot (tm_gmtoff tm) 3600 else default (-1000) offset).
  assert (met (tz_offset x) (fun t => Some ((if negb (String.eqb t "") && switch_is_number t && negb (atoi t =? -1000) then atoi t else e) =? e))
    = met (tz_offset x) (fun _ => Some ((if loff =? -1000 then e else loff) =? e))) as Etz.
  { unfold met, loff. destruct (tz_offset x) as [t|]; [|done]. cbn. destruct (negb (String.eqb t "") && switch_is_number t); [|done]. cbn. by destruct (atoi t =? -1000). }
  cbn [forallb]. cbv zeta. fold e. rewrite Etz.
  destruct (check_spec (tz_offset x) (fun _ => Some ((if loff =? -1000 then e else loff) =? e)) (-1)) as (m1 & -> & H1); [by eexists|]. cbn [mbind option_bind].
  set (m2 := if negb (m1 =? 0) && _ then _ else m1).
  assert (m2 <> 0 <-> m1 <> 0 /\ zstr (dst x) || ((tm_isdst tm2 >? 0) && switch_true (dst x)) = true) as H2.
  { subst m2. destruct (Z.eqb_spec m1 0) as [->|Hm]; cbn [negb andb]; [naive_solver|]. destruct (zstr (dst x)); cbn [orb]; [naive_solver|].
    destruct (switch_true (dst x)), (tm_isdst tm2 >? 0); cbn; naive_solver. }
  clearbody m2.
  next H3. next H4. next H5. next H6. next H7. next H8. next H9. next H10. next H11. next H12. next H13. next H14.
  eexists. split; [reflexivity|]. rewrite !andb_true_iff. assert (-1 <> 0) as H by lia. clear -H1 H2 H3 H4 H5 H6 H7 H8 H9 H10 H11 H12 H13 H14 H. tauto.
Qed.

(** The week of the month counts from the week of the first, which starts on a Sunday. *)
Theorem week_of_month_right tm : 1 <= tm_mday tm <= 31 -> 0 <= tm_wday tm <= 6 ->
  (firstdow tm + tm_mday tm - 1) mod 7 = tm_wday tm /\ 0 <= firstdow tm <= 6 /\ week_of_month tm = (firstdow tm + tm_mday tm - 1) / 7 + 1.
Proof. intros Hd Hw. unfold week_of_month, firstdow. split_and!; Z.to_euclidean_division_equations; lia. Qed.

Definition monday : switch_time_exp := mk_tm 0 0 12 1 0 124 1 0 0 0.

Lemma week_of_month_right_witness : week_of_month monday = 1.
Proof. destruct (week_of_month_right monday ltac:(cbn; lia) ltac:(cbn; lia)) as (_ & _ & ->). reflexivity. Defined.

(** ** Findings *)

Definition dst_false : xcond := mk_xcond None None None None None None None None None None None None None (Some "false").

(** A condition dst="false" is never met, not even without daylight saving time. *)
Theorem dst_false_never str_time offset ts tm tm2 : switch_xml_std_datetime_check str_time dst_false offset ts tm tm2 = Some 0.
Proof. unfold switch_xml_std_datetime_check. cbn [dst_false]. change (switch_true (dst dst_false)) with false. cbn. destruct (tm_isdst tm2 >? 0); reflexivity. Qed.

(** A text without a number matches zero. *)
Theorem empty_matches_zero : switch_number_cmp "" 0 = Some true /\ switch_number_cmp "noon" 0 = Some true.
Proof. split; reflexivity. Qed.

(** A comma does not end a range, although the comment says that it resets the state. *)
Theorem comma_keeps_range : switch_dow_cmp "2-,5" 3 = Some true.
Proof. reflexivity. Qed.

(** The name that is logged for a day is that of the next one: numbers start at one when they are read
    and at zero when they are written. *)
Theorem dow_names_shifted : map (fun n => switch_dow_int2str (switch_dow_str2int n)) ["sun"; "mon"; "sat"] = [Some "mon"; Some "tue"; Some "sun"].
Proof. reflexivity. Qed.

End TimeMatch.
